(* ===== verification/_CoqProject ===== *)
-Q . S2P
Prelude.v
AdpcmCodec.v
AdpcmDecoder.v
BitString.v
GetBits.v
Golomb.v
Crc.v
FlacSubframe.v
FlacDecoder.v
PlayerQueue.v
Vp9Superframe.v
EsDemux.v
MadBit.v
MadTimer.v
MadFrame.v
MadHuffman.v
MadSideInfo.v
MadRqTable.v
MadRequantize.v
MadHuffDecode.v
MadSpectrum.v
MadStereo.v
MadImdct.v
MadSideRange.v
MadLayer3.v
MadReservoir.v
MadHybrid.v
MadLayer3Safe.v
MadLayer12.v
MadSubbands.v
MadLayerI.v
MadLayerII.v
MadFrameDecode.v
MadPrefix.v
MadFrameSafe.v
MadDct.v
MadSynth.v
MadPolyphase.v
MadDecoder.v
MadDecoderSafe.v
