(* ===== verification/Prelude.v ===== *)
(** A verification of the decoders and of the player of this repository.

    * The program

    The repository holds the multimedia libraries of a set-top box: audio
    decoders that a media service loads as plug-ins ([src/libadpcm],
    [src/libflac], [src/libmad], [src/libfaad]), a test player for the V4L2
    decoder driver ([src/v4l2-uvm-test]), a GStreamer player
    ([src/gst-app]), and glue around devices, GStreamer and Vulkan.  The
    development models the parts that carry logic of their own: the decoders from
    their input bytes to their output samples, and the queueing and demultiplexing
    code of the players.

    * How C is modelled

    A C integer is a [Z]; [wrapu w] and [wraps w] (here, below) wrap a result to
    [w] bits where the code stores or converts it, so overflow is visible in a
    definition.  Signed overflow wraps, which is what the compilers of these
    targets do with the arithmetic at hand.  A buffer is a list; an access outside
    of it, like any other undefined behaviour (a shift by the width, a division by
    zero, a failed assertion, a freed node), makes a computation [None].  A theorem
    that a function returns [Some _] is therefore a proof that it stays inside its
    buffers.  Loops are [for_range] or [while_loop] with fuel; the theorems show
    that the fuel given is enough by the same equation with [Some].  The little
    encoders that stand for the other end of a format ([audio_code], the encoders
    of FlacSubframe and FlacDecoder) are specifications, not code.  What a format prescribes
    (the codes of a FLAC frame header, the allocation tables of Layer II, the packing of MPEG-2 scale factor
    lengths, the time of a demultiplexed frame) is stated in them apart from the tables and the arithmetic of the
    code, so that a fault there breaks the theorem.

    * The files

    - Prelude (this file): integers, arrays, loops, the tactics [zbool] and
      [zdiv], and the generic lemmas.
    - AdpcmCodec: [src/libadpcm/adpcm_decode.c], the block codecs (IMA, Microsoft)
      and the A-law and u-law expanders.  Theorems: each decoder writes the samples
      of a reference decoder that handles one channel at a time, within 16 bits;
      the expanders agree with the G.711 definition.
    - AdpcmDecoder: the stream decoder of the same file over its static
      variables ([adpcm_globals]): refill with APTS and RIFF tags, the runners and
      [audio_dec_decode].  Theorems: no access outside of a buffer for any sequence
      of inputs of the PCM-like codecs without an oversized APTS block (which overruns one),
      and the exact output of a call.
    - BitString: big-endian bit fields, the specification the bit readers share.
    - GetBits, Golomb: [get_bits.h], [golomb.h], [common.h] of [src/libflac].
      Theorems: reads return the bits of the field, UTF-8 numbers and Rice codes
      are read back as written.
    - Crc: [src/libflac/crc.c]; table and sliced computation against the
      byte-at-a-time remainder; the FLAC header check.
    - FlacSubframe, FlacDecoder: [src/libflac/flac_decode.c] with [flac.c] and
      [flacdata.c].  The main theorem decodes every frame an encoder can write,
      with all stereo modes and subframe types and with residuals in Rice codes of parameters
      up to 24 or escaped, to exactly its samples (larger parameters are misread).  Others
      treat metadata, headers, resynchronisation, the downmix, short input and a
      buffer overrun.
    - PlayerQueue: the message queue of
      [src/gst-app/gst-app-0.11.0/amlplay/fsl_player_queue.c] as a linked list in a
      heap, the critical sections as functions and the threads as a step relation.
      Theorems: refinement of a bounded FIFO and of the replacing put as it is, an
      invariant of every interleaving, and three faults (a deadlock, a lost wake-up, a lost message).
    - Vp9Superframe: [vp9.c] and the packing in [v4l2-dec.c] of
      [src/v4l2-uvm-test/src]: frames in, frames behind headers out, and what the
      filter reads on any input, the empty one included.
    - EsDemux: [demux.c] of the same player: configuration records, packets and
      the demuxer thread, refining the Annex B stream of the file; its overflow and
      its endless loop.
    - MadBit, MadTimer, MadFrame: [bit.c], [timer.c], [stream.c] and [frame.c] of
      [src/libmad]: bit pointers and CRC-16; exact timers and drop-frame labels; the
      search for frames, safe on any input and exact on written headers.
    - MadHuffman, MadSideInfo: [huffman.c] and the first half of [layer3.c]: the code
      tables with the look-ups of the Huffman decoder, equal to the prefix codes they
      stand for; side information and scale factors, read back as written.
    - MadRqTable, MadRequantize, MadHuffDecode: the middle of [layer3.c].  The 8207
      entries of the requantization table against the exact [x ^ (4/3)], the exponents
      of all bands, and [III_huffdecode]: every set of quantized values an encoder can
      write comes back requantized, and no input makes it leave its buffers.
    - MadSpectrum, MadStereo, MadImdct: the last stages of [layer3.c].  Reordering of
      short blocks and alias reduction line by line; joint stereo, whose bands end up as
      the standard's rule for the mode of each says; the inverse transforms, whose
      fixed-point results are, for lines up to stated amplitudes, the defining cosine sums up to a stated
      error (above them the code wraps).
      [III_imdct_l] is written over a class [Fixed] of number types: run on machine
      words it is the code, run on affine forms it computes its own coefficients and
      error bound from a bound of each input or of the sum of their absolute values.
    - MadSideRange, MadLayer3, MadReservoir: side information of arbitrary bytes;
      [III_decode] and [mad_layer_III] as the composition of the stages; the bit
      reservoir, which refines a list of bytes.
    - MadHybrid: the loops over the subbands of a channel against a reference that treats
      one subband alone, without the shortcut for zero lines and without shared arrays.
    - MadLayer3Safe: a whole Layer III frame of any bytes leaves every array intact and the
      decoder ready for the next frame; how much input this needs, and what happens without.
    - MadLayer12, MadSubbands, MadLayerI, MadLayerII: [layer12.c] with its tables.  The
      layout of a frame as sums of field widths is the reference: every field is read at its
      place, every sample is the number its code stands for up to a stated error, and the
      errors are exactly the two the code knows.  MadSubbands holds what the proofs of the two
      layers share (loops over the subbands, samples, optional fields, CRC).
    - MadFrameDecode, MadPrefix, MadFrameSafe: [mad_frame_decode] over the three layers, on a
      buffer with more readable memory behind it: any call on any bytes keeps the state
      of the decoder well formed.  MadPrefix shows that what is computed from a buffer does
      not change when memory follows it.
    - MadDct, MadSynth, MadPolyphase: [synth.c] with [D.dat].  The 32-point transform is
      written over [Fixed] again and near its cosine sums for rows up to stated amplitudes; the filter banks refine the list of the
      last sixteen rows, and every PCM sample is the windowed sum of the standard over them.
    - MadDecoder, MadDecoderSafe: [decoder.c], the plug-in's [audio_dec_decode] over libmad with
      the callbacks it installs, ID3 tags and the silence at the start.  Any call on any bytes ends inside of
      its buffers, and what it writes is one frame's PCM in 16 bits; a tag longer than
      the buffer is counted again with every call.

    AdpcmDecoder runs the codecs of AdpcmCodec; FlacDecoder the subframes of
    FlacSubframe, which read through GetBits and Golomb; MadFrame reads through
    MadBit and measures with MadTimer, and MadSideInfo reads through MadBit.
    MadHuffDecode joins MadBit, MadHuffman and MadRequantize, and MadLayer3 calls the
    stages in the order of [III_decode]; MadFrameDecode calls MadFrame and the layers.  A client's proofs use the specification
    lemmas of the file they call, never its definitions.

    * Parameters

    What the source does not define is a variable of a section: whether an
    allocation succeeds and what new memory holds, the address of a buffer, the
    results of libavformat and of the secure memory service, the widths of [long]
    and the signedness of [char].  No theorem assumes more of them than the
    documented behaviour its statement names.

    * Bounds and fuel

    Loops over a buffer have its length as fuel; the search of MadFrame restarts at
    a later byte each round; [gcd] of MadTimer halves the product of its numbers
    every second turn; the quadruples of MadHuffDecode are at most 144; each
    round of [frame_rounds] starts its search at a later byte.  Where a loop of the code does not end ([nalu_loop] without
    extradata) the theorem says so for every fuel.  [max_buffer] of MadFrame is the
    largest input for which the arithmetic on bit rates does not overflow.  The 4608 bytes behind
    the buffer of MadFrameSafe are what the widest Layer II frame can claim.

    * Not modelled

    Log output, the kernel interfaces ([ioctl], DRM, ALSA), GStreamer and Vulkan
    glue, the C++ code ([src/wifidisplay], [src/amaudio]) and the second AAC decoder
    [src/libfaad/helixaac].  The filter banks of [src/libfaad] are
    numerical signal processing.  The asynchronous mode of
    [src/libmad/decoder.c] forks.  In reach and not modelled: the bit stream and Huffman parts of
    [src/libfaad] and the buffer handling of [v4l2-dec.c]. *)
From stdpp Require Export prelude.
From Stdlib Require Export ZArith Lia.

#[export] Set Default Goal Selector "!".

(** ** Scope and notations *)

Declare Scope c_scope.
Delimit Scope c_scope with c.
#[global] Open Scope Z_scope.

(** Conversion of a mathematical integer to a [w]-bit C integer.  Arithmetic
    is done in [Z] and converted where the C code stores or converts, so a
    wrap-around is always visible in a definition. *)
Definition wrapu (w x : Z) : Z := x mod 2 ^ w.
Definition wraps (w x : Z) : Z := (x + 2 ^ (w - 1)) mod 2 ^ w - 2 ^ (w - 1).

Abbreviation u8 := (wrapu 8).
Abbreviation u16 := (wrapu 16).
Abbreviation u32 := (wrapu 32).
Abbreviation u64 := (wrapu 64).
Abbreviation s8 := (wraps 8).
Abbreviation s16 := (wraps 16).
Abbreviation s32 := (wraps 32).
Abbreviation s64 := (wraps 64).

Notation "x .& y" := (Z.land x y) (at level 40, left associativity) : c_scope.
Notation "x .| y" := (Z.lor x y) (at level 50, left associativity) : c_scope.
Notation "x .^ y" := (Z.lxor x y) (at level 50, left associativity) : c_scope.
Notation "x .<< y" := (Z.shiftl x y) (at level 45, left associativity) : c_scope.
Notation "x .>> y" := (Z.shiftr x y) (at level 45, left associativity) : c_scope.
#[global] Open Scope c_scope.

(** ** Arrays

    A C array is a list.  An access outside of it is undefined behaviour and
    makes the whole computation [None]: a theorem that a function returns
    [Some _] is therefore also a proof that it stays inside its buffers. *)
Abbreviation zlen l := (Z.of_nat (length l)).

Definition aget {A} (l : list A) (i : Z) : option A :=
  if 0 <=? i then l !! Z.to_nat i else None.

Definition aset {A} (l : list A) (i : Z) (x : A) : option (list A) :=
  if (0 <=? i) && (i <? zlen l) then Some (<[Z.to_nat i := x]> l) else None.

(** [asub l off n]: the [n] cells from [off], as [memcpy] reads them. *)
Definition asub {A} (l : list A) (off n : Z) : option (list A) :=
  if (0 <=? off) && (0 <=? n) && (off + n <=? zlen l)
  then Some (take (Z.to_nat n) (drop (Z.to_nat off) l)) else None.

(** [ablit dst off src]: [memcpy(dst + off, src, length src)]. *)
Definition ablit {A} (dst : list A) (off : Z) (src : list A) : option (list A) :=
  if (0 <=? off) && (off + zlen src <=? zlen dst)
  then Some (take (Z.to_nat off) dst ++ src ++
             drop (Z.to_nat off + length src) dst)
  else None.

Definition byte_ok (b : Z) : Prop := 0 <= b < 256.
Abbreviation bytes_ok := (Forall byte_ok).

(** ** Loops *)

Fixpoint for_loop {St} (n : nat) (i : Z) (body : Z -> St -> option St)
    (s : St) : option St :=
  match n with
  | O => Some s
  | S n' => s' ← body i s; for_loop n' (i + 1) body s'
  end.

(** [for (i = lo; i < hi; i++) body] *)
Definition for_range {St} (lo hi : Z) (body : Z -> St -> option St) (s : St) :=
  for_loop (Z.to_nat (hi - lo)) lo body s.

(** [while (cond) body], [None] when [fuel] iterations do not finish it. *)
Fixpoint while_loop {St} (fuel : nat) (cond : St -> bool)
    (body : St -> option St) (s : St) : option St :=
  match fuel with
  | O => None
  | S f => if cond s then s' ← body s; while_loop f cond body s' else Some s
  end.

(** Truth value of a C condition [x & m]. *)
Definition bitset (x m : Z) : bool := negb ((x .& m) =? 0).

(** [#define MIN(a,b)] and the clamps of the codecs. *)
Definition zclamp (lo hi x : Z) : Z :=
  if hi <? x then hi else if x <? lo then lo else x.

(** ** Lemmas on machine integers *)

Section Words.
Implicit Types w x y : Z.

Lemma pow2_pos w : 0 <= w -> 0 < 2 ^ w.
Proof. intros. apply Z.pow_pos_nonneg; lia. Qed.

Lemma wrapu_range w x : 0 <= w -> 0 <= wrapu w x < 2 ^ w.
Proof. intros. apply Z.mod_pos_bound, pow2_pos. done. Qed.

Lemma wrapu_small w x : 0 <= x < 2 ^ w -> wrapu w x = x.
Proof. intros. by apply Z.mod_small. Qed.

Lemma wraps_range w x : 0 < w -> - 2 ^ (w - 1) <= wraps w x < 2 ^ (w - 1).
Proof.
  intros. unfold wraps.
  assert (2 ^ w = 2 * 2 ^ (w - 1)) as E.
  { rewrite <- Z.pow_succ_r by lia. f_equal. lia. }
  pose proof (Z.mod_pos_bound (x + 2 ^ (w - 1)) (2 ^ w)).
  pose proof (pow2_pos w). lia.
Qed.

Lemma wraps_small w x : 0 < w -> - 2 ^ (w - 1) <= x < 2 ^ (w - 1) -> wraps w x = x.
Proof.
  intros. unfold wraps.
  assert (2 ^ w = 2 * 2 ^ (w - 1)) as E.
  { rewrite <- Z.pow_succ_r by lia. f_equal. lia. }
  rewrite Z.mod_small; lia.
Qed.

Lemma s32_small z : - 2 ^ 31 <= z < 2 ^ 31 -> s32 z = z.
Proof. intros. by apply wraps_small. Qed.

Lemma wrapu_wrapu w x : wrapu w (wrapu w x) = wrapu w x.
Proof. apply Zmod_mod. Qed.

Lemma wraps_eq_mod w x y :
  x mod 2 ^ w = y mod 2 ^ w -> wraps w x = wraps w y.
Proof.
  intros E. unfold wraps.
  rewrite <- (Zplus_mod_idemp_l x), <- (Zplus_mod_idemp_l y), E. done.
Qed.

Lemma wraps_mod w x : 0 <= w -> wraps w x mod 2 ^ w = x mod 2 ^ w.
Proof.
  intros. unfold wraps.
  rewrite Zminus_mod_idemp_l. f_equal. lia.
Qed.

Lemma wraps_add_l w x y : 0 <= w -> wraps w (wraps w x + y) = wraps w (x + y).
Proof.
  intros. apply wraps_eq_mod.
  rewrite <- Zplus_mod_idemp_l, wraps_mod, Zplus_mod_idemp_l by done. done.
Qed.

Lemma wraps_add_r w x y : 0 <= w -> wraps w (x + wraps w y) = wraps w (x + y).
Proof. intros. rewrite Z.add_comm, wraps_add_l, Z.add_comm by done. done. Qed.

Lemma wraps_wraps w x : 0 <= w -> wraps w (wraps w x) = wraps w x.
Proof.
  intros. pose proof (wraps_add_l w x 0).
  rewrite !Z.add_0_r in *. auto.
Qed.

Lemma wraps_wrapu w x : 0 <= w -> wraps w (wrapu w x) = wraps w x.
Proof. intros. apply wraps_eq_mod. apply Zmod_mod. Qed.

Lemma wrapu_wraps w x : 0 <= w -> wrapu w (wraps w x) = wrapu w x.
Proof. apply wraps_mod. Qed.

Lemma zclamp_range lo hi x : lo <= hi -> lo <= zclamp lo hi x <= hi.
Proof.
  unfold zclamp. intros.
  destruct (Z.ltb_spec hi x), (Z.ltb_spec x lo); lia.
Qed.

Lemma land_ones_range x n : 0 <= n -> 0 <= x .& Z.ones n < 2 ^ n.
Proof. intros. rewrite Z.land_ones by done. apply Z.mod_pos_bound, pow2_pos. done. Qed.
End Words.

(** The mask of the low [n] bits, as the code writes it. *)
Lemma mask_low c n : 0 <= n -> c .& ((1 .<< n) - 1) = c mod 2 ^ n.
Proof.
  intros. rewrite Z.shiftl_mul_pow2, Z.mul_1_l by done.
  rewrite <- Z.land_ones by done. by rewrite Z.ones_equiv, <- Z.sub_1_r.
Qed.

(** Exhaustive check of a decidable property on an interval. *)
Lemma forall_range (P : Z -> bool) lo n :
  forallb P (seqZ lo n) = true -> forall x, lo <= x < lo + n -> P x = true.
Proof.
  intros H x Hx. rewrite forallb_forall in H. apply H, list_elem_of_In, elem_of_seqZ. done.
Qed.

(** [a | b << n] for an [n]-bit [a]: the byte-assembly idiom. *)
Lemma lor_shiftl_add a b n : 0 <= n -> 0 <= a < 2 ^ n -> a .| (b .<< n) = a + b * 2 ^ n.
Proof.
  intros Hn Ha. rewrite <- (Z.shiftl_mul_pow2 b n) by done.
  rewrite <- Z.add_lor_land.
  assert (a .& (b .<< n) = 0) as ->; [|lia].
  apply Z.bits_inj'. intros k Hk. rewrite Z.land_spec, Z.bits_0.
  destruct (Z.ltb_spec k n).
  - by rewrite Z.shiftl_spec_low, andb_false_r by done.
  - rewrite <- (Z.mod_small a (2 ^ n)), <- Z.land_ones by done.
    rewrite Z.land_spec, Z.ones_spec_high by lia. by rewrite andb_false_r.
Qed.

(** ** Lemmas on arrays *)

Section Arrays.
Context {A : Type}.
Implicit Types (l : list A) (i : Z) (x : A).

Lemma aget_Some l i : 0 <= i < zlen l -> exists x, aget l i = Some x.
Proof.
  intros. unfold aget. rewrite (proj2 (Z.leb_le 0 i)) by lia.
  apply lookup_lt_is_Some_2. lia.
Qed.

Lemma aget_inv l i x : aget l i = Some x -> 0 <= i < zlen l.
Proof.
  unfold aget. destruct (Z.leb_spec 0 i); [|done].
  intros ?%lookup_lt_Some. lia.
Qed.

Lemma aget_None l i : ~ (0 <= i < zlen l) -> aget l i = None.
Proof.
  intros. destruct (aget l i) eqn:E; [|done].
  apply aget_inv in E. lia.
Qed.

Lemma aget_lookup l i : 0 <= i -> aget l i = l !! Z.to_nat i.
Proof. intros. unfold aget. by rewrite (proj2 (Z.leb_le 0 i)). Qed.

Lemma aset_Some l i x :
  0 <= i < zlen l -> aset l i x = Some (<[Z.to_nat i := x]> l).
Proof.
  intros. unfold aset.
  rewrite (proj2 (Z.leb_le 0 i)), (proj2 (Z.ltb_lt i _)) by lia. done.
Qed.

Lemma aset_inv l i x l' :
  aset l i x = Some l' -> 0 <= i < zlen l /\ l' = <[Z.to_nat i := x]> l.
Proof.
  unfold aset. destruct (Z.leb_spec 0 i), (Z.ltb_spec i (zlen l)); simpl; try done.
  intros [= <-]. done.
Qed.

Lemma aset_length l i x l' : aset l i x = Some l' -> length l' = length l.
Proof. intros [_ ->]%aset_inv. apply length_insert. Qed.

Lemma aset_None l i x : ~ (0 <= i < zlen l) -> aset l i x = None.
Proof.
  intros. destruct (aset l i x) eqn:E; [|done].
  apply aset_inv in E as [??]. lia.
Qed.

Lemma aget_insert_eq l i x :
  0 <= i < zlen l -> aget (<[Z.to_nat i := x]> l) i = Some x.
Proof. intros. rewrite aget_lookup by lia. apply list_lookup_insert_eq. lia. Qed.

Lemma aget_insert_ne l i j x :
  0 <= i -> i <> j -> aget (<[Z.to_nat i := x]> l) j = aget l j.
Proof.
  intros. unfold aget. destruct (Z.leb_spec 0 j); [|done].
  apply list_lookup_insert_ne. lia.
Qed.

Lemma aget_Forall (P : A -> Prop) l i x : Forall P l -> aget l i = Some x -> P x.
Proof.
  unfold aget. destruct (0 <=? i); [|done].
  intros H E. by eapply Forall_lookup_1 in E.
Qed.

Lemma asub_Some l off n :
  0 <= off -> 0 <= n -> off + n <= zlen l ->
  asub l off n = Some (take (Z.to_nat n) (drop (Z.to_nat off) l)).
Proof.
  intros. unfold asub.
  rewrite (proj2 (Z.leb_le 0 off)), (proj2 (Z.leb_le 0 n)),
    (proj2 (Z.leb_le (off + n) _)) by lia. done.
Qed.

Lemma asub_inv l off n l' :
  asub l off n = Some l' ->
  0 <= off /\ 0 <= n /\ off + n <= zlen l /\
  l' = take (Z.to_nat n) (drop (Z.to_nat off) l).
Proof.
  unfold asub. destruct (Z.leb_spec 0 off), (Z.leb_spec 0 n),
    (Z.leb_spec (off + n) (zlen l)); simpl; try done.
  intros [= <-]. auto.
Qed.

Lemma asub_length l off n l' : asub l off n = Some l' -> zlen l' = n.
Proof.
  intros (?&?&?&->)%asub_inv. rewrite length_take, length_drop. lia.
Qed.

Lemma asub_Forall (P : A -> Prop) l off n l' :
  Forall P l -> asub l off n = Some l' -> Forall P l'.
Proof. intros ? (?&?&?&->)%asub_inv. by apply Forall_take, Forall_drop. Qed.

Lemma ablit_Some l off src :
  0 <= off -> off + zlen src <= zlen l ->
  ablit l off src = Some (take (Z.to_nat off) l ++ src ++
                          drop (Z.to_nat off + length src) l).
Proof.
  intros. unfold ablit.
  rewrite (proj2 (Z.leb_le 0 off)), (proj2 (Z.leb_le (off + zlen src) _)) by lia.
  done.
Qed.

Lemma ablit_inv l off src l' :
  ablit l off src = Some l' ->
  0 <= off /\ off + zlen src <= zlen l /\
  l' = take (Z.to_nat off) l ++ src ++ drop (Z.to_nat off + length src) l.
Proof.
  unfold ablit. destruct (Z.leb_spec 0 off), (Z.leb_spec (off + zlen src) (zlen l));
    simpl; try done.
  intros [= <-]. auto.
Qed.

Lemma ablit_length l off src l' : ablit l off src = Some l' -> length l' = length l.
Proof.
  intros (?&?&->)%ablit_inv. rewrite !length_app, length_take, length_drop. lia.
Qed.

(** Filling an array from the left. *)
Lemma aset_fill (pre l : list A) i x :
  zlen pre = i -> i < zlen l ->
  aset (pre ++ drop (Z.to_nat i) l) i x =
  Some ((pre ++ [x]) ++ drop (Z.to_nat (i + 1)) l).
Proof.
  intros Hpre Hi. subst i.
  rewrite aset_Some by (rewrite length_app, length_drop; lia). f_equal.
  rewrite Nat2Z.id. replace (Z.to_nat (zlen pre + 1)) with (S (length pre)) by lia.
  rewrite insert_app_r_alt, Nat.sub_diag by lia.
  destruct (lookup_lt_is_Some_2 l (length pre)) as [y Hy]; [lia|].
  erewrite drop_S by done. simpl. by rewrite <- app_assoc.
Qed.

Lemma take_succ_lookup l i x : 0 <= i -> aget l i = Some x ->
  take (Z.to_nat (i + 1)) l = take (Z.to_nat i) l ++ [x].
Proof.
  intros. rewrite aget_lookup in H0 by done.
  replace (Z.to_nat (i + 1)) with (S (Z.to_nat i)) by lia. by apply take_S_r.
Qed.

(** Two adjacent [memcpy]s of a contiguous source. *)
Lemma asub_app l off n m a b : asub l off n = Some a -> asub l (off + n) m = Some b ->
  asub l off (n + m) = Some (a ++ b).
Proof.
  intros (?&?&?&->)%asub_inv (?&?&?&->)%asub_inv.
  rewrite asub_Some by lia. f_equal.
  replace (Z.to_nat (n + m)) with (Z.to_nat n + Z.to_nat m)%nat by lia.
  rewrite <- take_take_drop, drop_drop. do 3 f_equal. lia.
Qed.

Lemma ablit_0 (dst src : list A) : zlen src <= zlen dst ->
  ablit dst 0 src = Some (src ++ drop (length src) dst).
Proof. intros. rewrite ablit_Some by lia. done. Qed.

Lemma ablit_app (pre src l : list A) off : zlen pre = off ->
  off + zlen src <= zlen l ->
  ablit (pre ++ drop (Z.to_nat off) l) off src
    = Some ((pre ++ src) ++ drop (Z.to_nat off + length src) l).
Proof.
  intros <- ?. rewrite ablit_Some by (rewrite ?length_app, ?length_drop; lia).
  rewrite Nat2Z.id. rewrite take_app_length, drop_app_ge by lia.
  rewrite drop_drop, <- app_assoc. do 4 f_equal. lia.
Qed.
End Arrays.

(** ** Loop rules *)

Section Loops.
Context {St : Type}.
Implicit Types (s : St).

Lemma for_loop_inv (P : Z -> St -> Prop) (n : nat) lo body s :
  P lo s ->
  (forall i s, lo <= i < lo + Z.of_nat n -> P i s ->
     exists s', body i s = Some s' /\ P (i + 1) s') ->
  exists s', for_loop n lo body s = Some s' /\ P (lo + Z.of_nat n) s'.
Proof.
  revert lo s. induction n as [|n IH]; intros lo s HP Hb.
  { exists s. rewrite Z.add_0_r. done. }
  destruct (Hb lo s) as (s1&E1&HP1); [lia|done|].
  destruct (IH (lo + 1) s1 HP1) as (s2&E2&HP2).
  { intros i s' ??. apply Hb; [lia|done]. }
  exists s2. simpl. rewrite E1. simpl. rewrite E2. split; [done|].
  by replace (lo + Z.of_nat (S n)) with (lo + 1 + Z.of_nat n) by lia.
Qed.

Lemma for_range_inv (P : Z -> St -> Prop) lo hi body s :
  lo <= hi -> P lo s ->
  (forall i s, lo <= i < hi -> P i s ->
     exists s', body i s = Some s' /\ P (i + 1) s') ->
  exists s', for_range lo hi body s = Some s' /\ P hi s'.
Proof.
  intros Hle HP Hb. unfold for_range.
  destruct (for_loop_inv P (Z.to_nat (hi - lo)) lo body s) as (s'&E&H); [done| |].
  { intros i s' ??. apply Hb; [lia|done]. }
  exists s'. split; [done|]. by replace hi with (lo + Z.of_nat (Z.to_nat (hi - lo))) by lia.
Qed.

Lemma for_loop_pres (P : Z -> St -> Prop) (n : nat) lo body s s' :
  P lo s ->
  (forall i s s', lo <= i < lo + Z.of_nat n -> P i s -> body i s = Some s' -> P (i + 1) s') ->
  for_loop n lo body s = Some s' -> P (lo + Z.of_nat n) s'.
Proof.
  revert lo s. induction n as [|n IH]; intros lo s HP Hb E; simpl in E.
  { simplify_eq. by rewrite Z.add_0_r. }
  apply bind_Some in E as (s1&E1&E).
  replace (lo + Z.of_nat (S n)) with (lo + 1 + Z.of_nat n) by lia.
  eapply IH; [| |exact E].
  - eapply Hb; [|done|done]. lia.
  - intros. eapply Hb; [|done|done]. lia.
Qed.

Lemma for_range_pres (P : Z -> St -> Prop) lo hi body s s' :
  lo <= hi -> P lo s ->
  (forall i s s', lo <= i < hi -> P i s -> body i s = Some s' -> P (i + 1) s') ->
  for_range lo hi body s = Some s' -> P hi s'.
Proof.
  intros ? HP Hb E. unfold for_range in E.
  eapply for_loop_pres in E; [|exact HP|].
  - by replace (lo + Z.of_nat (Z.to_nat (hi - lo))) with hi in E by lia.
  - intros. eapply Hb; [|done|done]. lia.
Qed.

Lemma for_range_empty lo hi (body : Z -> St -> option St) s :
  hi <= lo -> for_range lo hi body s = Some s.
Proof. intros. unfold for_range. by replace (Z.to_nat (hi - lo)) with O by lia. Qed.

Lemma for_range_step lo hi (body : Z -> St -> option St) s :
  lo < hi ->
  for_range lo hi body s = (s' ← body lo s; for_range (lo + 1) hi body s').
Proof.
  intros. unfold for_range.
  replace (Z.to_nat (hi - lo)) with (S (Z.to_nat (hi - (lo + 1)))) by lia. done.
Qed.

Lemma while_loop_inv (P : St -> Prop) (m : St -> Z) (fuel : nat) cond body s :
  P s -> m s + 1 < Z.of_nat fuel ->
  (forall s, P s -> cond s = true -> 0 <= m s /\
     exists s', body s = Some s' /\ P s' /\ m s' < m s) ->
  0 < Z.of_nat fuel ->
  exists s', while_loop fuel cond body s = Some s' /\ P s' /\ cond s' = false.
Proof.
  revert s. induction fuel as [|f IH]; intros s HP Hm Hb Hf; [lia|].
  simpl. destruct (cond s) eqn:Ec; [|by exists s].
  destruct (Hb s HP Ec) as (?&s1&E1&HP1&Hm1). rewrite E1. simpl.
  apply IH; [done|lia|done|lia].
Qed.

Lemma for_loop_S (n : nat) i (body : Z -> St -> option St) s :
  for_loop (S n) i body s = (s' ← body i s; for_loop n (i + 1) body s').
Proof. done. Qed.

Lemma while_loop_S fuel cond (body : St -> option St) s :
  while_loop (S fuel) cond body s =
  if cond s then s' ← body s; while_loop fuel cond body s' else Some s.
Proof. done. Qed.

Lemma while_loop_pres (P : St -> Prop) (fuel : nat) cond body s s' :
  P s -> (forall s s', P s -> cond s = true -> body s = Some s' -> P s') ->
  while_loop fuel cond body s = Some s' -> P s' /\ cond s' = false.
Proof.
  revert s. induction fuel as [|f IH]; intros s HP Hb E; simpl in E; [done|].
  destruct (cond s) eqn:Ec; [|by simplify_eq].
  apply bind_Some in E as (s1&E1&E).
  apply (IH s1); [by apply (Hb s)|done|done].
Qed.

(** Two bodies that agree as long as an invariant holds. *)
Lemma while_loop_ext (P : St -> Prop) (fuel : nat) cond (body body' : St -> option St) s :
  P s -> (forall s, P s -> cond s = true -> body s = body' s) ->
  (forall s s', P s -> cond s = true -> body s = Some s' -> P s') ->
  while_loop fuel cond body s = while_loop fuel cond body' s.
Proof.
  intros HP He Hp. revert s HP. induction fuel as [|f IH]; intros s HP; [done|]. simpl.
  destruct (cond s) eqn:Ec; [|done]. rewrite <- He by done.
  destruct (body s) as [s1|] eqn:E1; [|done]. simpl. apply IH. by apply (Hp s).
Qed.
End Loops.

#[global] Arguments while_loop : simpl never.
#[global] Arguments for_loop : simpl never.
#[global] Arguments for_range : simpl never.
#[global] Arguments aget : simpl never.
#[global] Arguments aset : simpl never.
#[global] Arguments asub : simpl never.
#[global] Arguments ablit : simpl never.
#[global] Arguments wrapu : simpl never.
#[global] Arguments wraps : simpl never.

(** ** Automation *)

(** ** Sums *)

Definition sum (l : list Z) : Z := foldr Z.add 0 l.

Lemma sum_cons x l : sum (x :: l) = x + sum l.
Proof. done. Qed.

Lemma sum_app l1 l2 : sum (l1 ++ l2) = sum l1 + sum l2.
Proof. induction l1 as [|x l1 IH]; [done|]. cbn [app]. rewrite !sum_cons. lia. Qed.

Lemma sum_concat (ls : list (list Z)) : sum (map (fun l : list Z => zlen l) ls) = zlen (concat ls).
Proof. induction ls as [|l ls IH]; [done|]. cbn [map concat]. rewrite length_app, sum_cons. lia. Qed.

(** Inverts [Some _ = Some _], binds and pairs in the hypotheses. *)
Ltac monad_inv :=
  repeat match goal with
  | H : Some _ = Some _ |- _ => injection H as H; subst
  | H : None = Some _ |- _ => discriminate H
  | H : Some _ = None |- _ => discriminate H
  | H : (_, _) = (_, _) |- _ => injection H as H; subst
  | H : (_ ≫= _) = Some _ |- _ =>
      let x := fresh "x" in let E := fresh "E" in
      apply bind_Some in H; destruct H as (x & E & H)
  end.

(** Case analysis on the first boolean test of the goal. *)
Ltac case_test :=
  match goal with
  | |- context [if ?b then _ else _] => destruct b eqn:?
  | H : context [if ?b then _ else _] |- _ => destruct b eqn:?
  end.

(** Linear arithmetic with division and modulo by constants. *)
Ltac zdiv := Z.to_euclidean_division_equations; lia.

(** Boolean comparisons to propositions, everywhere. *)
Ltac zbool :=
  repeat match goal with
  | H : _ && _ = true |- _ => apply andb_true_iff in H as [??]
  | H : _ || _ = false |- _ => apply orb_false_iff in H as [??]
  | H : negb _ = true |- _ => apply negb_true_iff in H
  | H : negb _ = false |- _ => apply negb_false_iff in H
  | H : (_ <=? _) = true |- _ => apply Z.leb_le in H
  | H : (_ <=? _) = false |- _ => apply Z.leb_gt in H
  | H : (_ <? _) = true |- _ => apply Z.ltb_lt in H
  | H : (_ <? _) = false |- _ => apply Z.ltb_ge in H
  | H : (_ =? _) = true |- _ => apply Z.eqb_eq in H
  | H : (_ =? _) = false |- _ => apply Z.eqb_neq in H
  end.

Create HintDb crules.
#[export] Hint Resolve wrapu_range wraps_range zclamp_range : crules.
#[export] Hint Rewrite @length_insert @length_app @length_take @length_drop
  @length_replicate : crules.
