(* ===== verification/AdpcmCodec.v ===== *)
(** ADPCM and G.711 sample codecs of [src/libadpcm/adpcm_decode.c].

    Tables, the two IMA block decoders ([ima_adpcm_decode_block] with
    [decode_nibbles], and [adpcmdec_decode_ima_block], the one the decoder
    runs), the Microsoft block decoder, and the A-law and u-law expanders.
    Buffers are lists; every access outside of one is [None]. *)
From S2P Require Import Prelude.

(** ** Tables *)

Definition adpcm_step : list Z :=
  [7; 8; 9; 10; 11; 12; 13; 14; 16; 17;
   19; 21; 23; 25; 28; 31; 34; 37; 41; 45;
   50; 55; 60; 66; 73; 80; 88; 97; 107; 118;
   130; 143; 157; 173; 190; 209; 230; 253; 279; 307;
   337; 371; 408; 449; 494; 544; 598; 658; 724; 796;
   876; 963; 1060; 1166; 1282; 1411; 1552; 1707; 1878; 2066;
   2272; 2499; 2749; 3024; 3327; 3660; 4026; 4428; 4871; 5358;
   5894; 6484; 7132; 7845; 8630; 9493; 10442; 11487; 12635; 13899;
   15289; 16818; 18500; 20350; 22385; 24623; 27086; 29794; 32767].

Definition adpcm_index : list Z :=
  [-1; -1; -1; -1; 2; 4; 6; 8; -1; -1; -1; -1; 2; 4; 6; 8].

Definition MS_IMA_ADPCM_PREAMBLE_SIZE : Z := 4.
Definition MSADPCM_ADAPT_COEFF_COUNT : Z := 7.

Definition AdaptationTable : list Z :=
  [230; 230; 230; 230; 307; 409; 512; 614;
   768; 614; 512; 409; 307; 230; 230; 230].

Definition AdaptCoeff1 : list Z := [256; 512; 0; 192; 240; 460; 392].
Definition AdaptCoeff2 : list Z := [0; -256; 0; 64; 0; -208; -232].

(** ** Scalar helpers: the [CLAMP_*] and [SE_16BIT] macros, [Clamp] *)

Definition CLAMP_0_TO_88 (x : Z) : Z := if x <? 0 then 0 else if 88 <? x then 88 else x.

Definition CLAMP_S16 (x : Z) : Z :=
  if x <? -32768 then -32768 else if 32767 <? x then 32767 else x.

Definition SE_16BIT (x : Z) : Z := if bitset x 0x8000 then x - 0x10000 else x.

(** [LE_16(&input[i])]: an unaligned little-endian 16-bit load. *)
Definition LE_16 (buf : list Z) (i : Z) : option Z :=
  b0 ← aget buf i; b1 ← aget buf (i + 1); Some (b0 .| (b1 .<< 8)).

Definition Clamp (x min max : Z) : Z :=
  s16 (if max <? x then max else if x <? min then min else x).

(** Two-channel arrays [int a[2]] are lists of length two. *)

(** ** [decode_nibbles] *)

Record nibble_state := NibbleState {
  nb_output : list Z;    (** [unsigned short output[]] *)
  nb_step : list Z;      (** [int step[2]] *)
  nb_predictor : list Z; (** [int predictor[2]] *)
  nb_index : list Z;     (** [int index[2]] *)
  nb_channel : Z         (** [channel_number] *)
}.

Definition nibble_diff (step delta : Z) : Z :=
  let diff := step .>> 3 in
  let diff := if bitset delta 4 then diff + step else diff in
  let diff := if bitset delta 2 then diff + (step .>> 1) else diff in
  if bitset delta 1 then diff + (step .>> 2) else diff.

Definition decode_nibble (channels : Z) (i : Z) (s : nibble_state)
    : option nibble_state :=
  let c := nb_channel s in
  delta ← aget (nb_output s) i;
  idx ← aget (nb_index s) c;
  adj ← aget adpcm_index delta;
  let idx := CLAMP_0_TO_88 (idx + adj) in
  index' ← aset (nb_index s) c idx;
  let sign := delta .& 8 in
  let delta := delta .& 7 in
  step ← aget (nb_step s) c;
  let diff := nibble_diff step delta in
  p ← aget (nb_predictor s) c;
  let p := CLAMP_S16 (if negb (sign =? 0) then p - diff else p + diff) in
  predictor' ← aset (nb_predictor s) c p;
  output' ← aset (nb_output s) i (u16 p);
  st ← aget adpcm_step idx;
  step' ← aset (nb_step s) c st;
  Some (NibbleState output' step' predictor' index' (c .^ (channels - 1))).

Definition decode_nibbles (output : list Z) (output_size channels : Z)
    (predictor_l index_l predictor_r index_r : Z) : option (list Z) :=
  s0 ← aget adpcm_step index_l;
  s1 ← aget adpcm_step index_r;
  s ← for_range 0 output_size (decode_nibble channels)
        (NibbleState output [s0; s1] [predictor_l; predictor_r]
                     [index_l; index_r] 0);
  Some (nb_output s).

(** ** [ima_adpcm_decode_block] *)

(** The nibble-unpacking loops; [output] gets raw nibbles. *)
Definition unpack_mono (input : list Z) (i : Z) (output : list Z)
    : option (list Z) :=
  b ← aget input (MS_IMA_ADPCM_PREAMBLE_SIZE + i);
  output ← aset output (i * 2) (b .& 0x0F);
  aset output (i * 2 + 1) (b .>> 4).

Record unpack_state := UnpackState {
  up_output : list Z;
  up_counter : Z; (** [channel_counter] *)
  up_index : Z;   (** [channel_index] *)
  up_index_l : Z;
  up_index_r : Z
}.

Definition unpack_stereo (input : list Z) (i : Z) (s : unpack_state)
    : option unpack_state :=
  b ← aget input (MS_IMA_ADPCM_PREAMBLE_SIZE * 2 + i);
  output ← aset (up_output s) (up_index s) (b .& 0x0F);
  output ← aset output (up_index s + 2) (b .>> 4);
  let channel_index := up_index s + 4 in
  let channel_counter := up_counter s + 1 in
  Some (if channel_counter =? 4 then
          UnpackState output channel_counter (up_index_r s) channel_index (up_index_r s)
        else if channel_counter =? 8 then
          UnpackState output 0 (up_index_l s) (up_index_l s) channel_index
        else
          UnpackState output channel_counter channel_index (up_index_l s) (up_index_r s)).

Definition ima_adpcm_decode_block (output input : list Z) (channels block_size : Z)
    : option (Z * list Z) :=
  l ← LE_16 input 0;
  let predictor_l := SE_16BIT l in
  index_l ← aget input 2;
  '(predictor_r, index_r) ←
    (if channels =? 2 then
       r ← LE_16 input 4; ir ← aget input 6; Some (SE_16BIT r, ir)
     else Some (0, 0));
  let n := block_size - MS_IMA_ADPCM_PREAMBLE_SIZE * channels in
  output ←
    (if channels =? 1 then for_range 0 n (unpack_mono input) output
     else s ← for_range 0 n (unpack_stereo input) (UnpackState output 0 0 0 1);
          Some (up_output s));
  output ← decode_nibbles output (n * 2) channels predictor_l index_l predictor_r index_r;
  Some (n * 2, output).

(** ** [ms_adpcm_decode_block] *)

Record ms_state := MsState {
  ms_pcm : list Z;      (** [short *pcm_buf] *)
  ms_j : Z;             (** samples stored so far *)
  ms_blockindx : Z;
  ms_sampleindx : Z;
  ms_bytecode : Z;      (** [short bytecode] *)
  ms_idelta : list Z;   (** [short idelta[2]] *)
  ms_s0 : Z; ms_s1 : Z; ms_s2 : Z; ms_s3 : Z; ms_s4 : Z; ms_s5 : Z
}.

Definition ms_store (s : ms_state) (v : Z) : option ms_state :=
  pcm ← aset (ms_pcm s) (ms_j s) v;
  Some (MsState pcm (ms_j s + 1) (ms_blockindx s) (ms_sampleindx s) (ms_bytecode s)
    (ms_idelta s) (ms_s0 s) (ms_s1 s) (ms_s2 s) (ms_s3 s) (ms_s4 s) (ms_s5 s)).

(** The refill of the two pending nibbles at the head of the loop body. *)
Definition ms_fetch (buf : list Z) (channel block i : Z) (s : ms_state)
    : option ms_state :=
  if (ms_sampleindx s <=? i) && (ms_blockindx s <? block) then
    b ← aget buf (ms_blockindx s);
    let hi := (b .>> 4) .& 0x0f in
    let lo := b .& 0x0f in
    let '(s2, s3) := if channel =? 1 then (hi, lo) else (ms_s2 s, ms_s3 s) in
    let '(s4, s5) := if channel =? 2 then (hi, lo) else (ms_s4 s, ms_s5 s) in
    Some (MsState (ms_pcm s) (ms_j s) (ms_blockindx s + 1) (ms_sampleindx s + 2) b
            (ms_idelta s) (ms_s0 s) (ms_s1 s) s2 s3 s4 s5)
  else Some s.

(** Body of the sample loop, from the adaptive scale factor on. *)
Definition ms_sample (bpred : list Z) (channel i : Z) (s : ms_state)
    : option ms_state :=
  let chan := if 1 <? channel then Z.rem i 2 else 0 in
  let bytecode := if channel =? 1 then ms_s2 s .& 0x0f
                  else if channel =? 2 then ms_s4 s .& 0x0f else ms_bytecode s in
  delta ← aget (ms_idelta s) chan;
  adapt ← aget AdaptationTable bytecode;
  let id := s16 ((adapt * delta) .>> 8) in
  let id := if id <? 16 then 16 else id in
  idelta' ← aset (ms_idelta s) chan id;
  let bytecode := if bitset bytecode 0x8 then bytecode - 0x10 else bytecode in
  predict ←
    (if (channel =? 1) || (channel =? 2) then
       bp ← aget bpred chan;
       c1 ← aget AdaptCoeff1 bp;
       c2 ← aget AdaptCoeff2 bp;
       Some ((if channel =? 1 then ms_s1 s else ms_s2 s) * c1 + ms_s0 s * c2)
     else Some 0);
  let current := CLAMP_S16 (bytecode * delta + (predict .>> 8)) in
  let s2 := if channel =? 1 then s16 current else ms_s2 s in
  let s4 := if channel =? 2 then s16 current else ms_s4 s in
  s' ← ms_store (MsState (ms_pcm s) (ms_j s) (ms_blockindx s) (ms_sampleindx s)
         bytecode idelta' (ms_s0 s) (ms_s1 s) s2 (ms_s3 s) s4 (ms_s5 s)) (ms_s0 s);
  Some (MsState (ms_pcm s') (ms_j s') (ms_blockindx s') (ms_sampleindx s')
    (ms_bytecode s') (ms_idelta s')
    (if (channel =? 1) || (channel =? 2) then ms_s1 s' else ms_s0 s')
    (if (channel =? 1) || (channel =? 2) then ms_s2 s' else ms_s1 s')
    (if (channel =? 1) || (channel =? 2) then ms_s3 s' else ms_s2 s')
    (if channel =? 2 then ms_s4 s' else ms_s3 s')
    (if channel =? 2 then ms_s5 s' else ms_s4 s')
    (ms_s5 s')).

(** [for (i = channel * 2; blockindx < block; i++)] *)
Definition ms_loop (fuel : nat) (buf bpred : list Z) (channel block : Z)
    (i : Z) (s : ms_state) : option (Z * ms_state) :=
  while_loop fuel (fun '(_, s) => ms_blockindx s <? block)
    (fun '(i, s) =>
       s ← ms_fetch buf channel block i s;
       s ← ms_sample bpred channel i s;
       Some (i + 1, s)) (i, s).

(** [short x = buf[i] | buf[i+1] << 8] *)
Definition ms_le16 (buf : list Z) (i : Z) : option Z :=
  v ← LE_16 buf i; Some (s16 v).

(** The block header: predictor indices, deltas and the first samples. *)
Definition ms_header (pcm buf : list Z) (channel : Z)
    : option (list Z * ms_state) :=
  if channel =? 1 then
    b0 ← aget buf 0;
    id0 ← ms_le16 buf 1;
    s1 ← ms_le16 buf 3;
    s0 ← ms_le16 buf 5;
    Some ([b0; 0], MsState pcm 0 7 2 0 [id0; 0] s0 s1 0 0 0 0)
  else if channel =? 2 then
    b0 ← aget buf 0;
    b1 ← aget buf 1;
    id0 ← ms_le16 buf 2;
    id1 ← ms_le16 buf 4;
    s2 ← ms_le16 buf 6;
    s3 ← ms_le16 buf 8;
    s0 ← ms_le16 buf 10;
    s1 ← ms_le16 buf 12;
    Some ([b0; b1], MsState pcm 0 14 4 0 [id0; id1] s0 s1 s2 s3 0 0)
  else (* [bpred] and [idelta] stay uninitialised: reading them is [None] *)
    Some ([], MsState pcm 0 0 0 0 [] 0 0 0 0 0 0).

(** The samples still in the pipeline when the block is exhausted. *)
Definition ms_flush (channel : Z) (s : ms_state) : option ms_state :=
  if channel =? 1 then
    s ← ms_store s (ms_s0 s); ms_store s (ms_s1 s)
  else if channel =? 2 then
    s ← ms_store s (ms_s0 s); s ← ms_store s (ms_s1 s);
    s ← ms_store s (ms_s2 s); ms_store s (ms_s3 s)
  else Some s.

(** Fuel: every second iteration consumes a byte of the block. *)
Definition ms_adpcm_decode_block (pcm buf : list Z) (channel block : Z)
    : option (Z * list Z) :=
  '(bpred, s) ← ms_header pcm buf channel;
  '(_, s) ← ms_loop (Z.to_nat (2 * block + 8)) buf bpred channel block (channel * 2) s;
  s ← ms_flush channel s;
  Some (ms_j s, ms_pcm s).

(** ** A-law and u-law *)

Definition SIGN_BIT : Z := 0x80.
Definition QUANT_MASK : Z := 0xf.
Definition SEG_SHIFT : Z := 4.
Definition SEG_MASK : Z := 0x70.
Definition BIAS : Z := 0x84.

Definition alaw2linear (a_val : Z) : Z :=
  let a_val := a_val .^ 0x55 in
  let t := (a_val .& QUANT_MASK) .<< 4 in
  let seg := (a_val .& SEG_MASK) .>> SEG_SHIFT in
  let t := if seg =? 0 then t + 8
           else if seg =? 1 then t + 0x108
           else (t + 0x108) .<< (seg - 1) in
  if bitset a_val SIGN_BIT then t else - t.

Definition ulaw2linear (u_val : Z) : Z :=
  let u_val := u8 (Z.lnot u_val) in
  let t := ((u_val .& QUANT_MASK) .<< 3) + BIAS in
  let t := t .<< ((u_val .& SEG_MASK) .>> SEG_SHIFT) in
  if bitset u_val SIGN_BIT then BIAS - t else t - BIAS.

(** ** [adpcmdec_decode_ima_block]

    Its input is [const char *]: [char_val] is the value of a byte read through
    a plain [char], whose signedness is the platform's (unsigned on the ARM
    targets of this package). *)
Section ImaBlock.
Variable char_signed : bool.

Definition char_val (b : Z) : Z := if char_signed then s8 b else b.

Definition cget (data : list Z) (i : Z) : option Z := char_val <$> aget data i.

Definition read_sample (data : list Z) (i : Z) : option Z :=
  b0 ← cget data i; b1 ← cget data (i + 1); Some (s16 (u16 (b0 .| (b1 .<< 8)))).

(** Header loop; [inr] is the early [return 0] on a synchronisation error. *)
Fixpoint ima_header (data : list Z) (n : nat) (channel : Z)
    (samples stepindex : list Z) : option (list Z * list Z + list Z) :=
  match n with
  | O => Some (inl (samples, stepindex))
  | S n' =>
      v ← read_sample data (channel * 4);
      samples ← aset samples channel v;
      ix ← cget data (channel * 4 + 2);
      stepindex ← aset stepindex channel (s16 (Z.min ix 88));
      z ← cget data (channel * 4 + 3);
      if negb (z =? 0) then Some (inr samples)
      else ima_header data n' (channel + 1) samples stepindex
  end.

Record ima_state := ImaState {
  im_samples : list Z;   (** [short *samples] *)
  im_stepindex : list Z; (** [short stepindex[2]] *)
  im_idx : Z
}.

(** One nibble of [channel]: body of the [j] loop. *)
Definition ima_nibble (channels channel : Z) (data : list Z) (j : Z)
    (st : Z * ima_state) : option (Z * ima_state) :=
  let '(sample, s) := st in
  d ← cget data (im_idx s);
  let '(bytecode, idx) :=
    if Z.rem j 2 =? 0 then (d .& 0x0F, im_idx s)
    else ((d .>> 4) .& 0x0F, im_idx s + 1) in
  si ← aget (im_stepindex s) channel;
  step ← aget adpcm_step si;
  let diff := Z.quot (2 * (bytecode .& 0x7) * step + step) 8 in
  let diff := if bitset bytecode 8 then - diff else diff in
  prev ← aget (im_samples s) (sample - channels);
  samples ← aset (im_samples s) sample (Clamp (prev + diff) (-32768) 32767);
  adj ← aget adpcm_index bytecode;
  stepindex ← aset (im_stepindex s) channel (Clamp (si + adj) 0 88);
  Some (sample + channels, ImaState samples stepindex idx).

Definition ima_channel (channels : Z) (data : list Z) (i channel : Z)
    (s : ima_state) : option ima_state :=
  '(_, s) ← for_range 0 8 (ima_nibble channels channel data) (i + channel, s);
  Some s.

Definition ima_group (channels : Z) (data : list Z) (st : Z * ima_state)
    : option (Z * ima_state) :=
  let '(i, s) := st in
  s ← for_range 0 channels (ima_channel channels data i) s;
  Some (i + 8 * channels, s).

(** Returns the C return value and the sample buffer.  Fuel: [i] grows by at
    least 8 per iteration when [channels] is positive. *)
Definition adpcmdec_decode_ima_block (channels n_samples : Z)
    (data samples : list Z) : option (Z * list Z) :=
  if negb (Z.rem (n_samples - channels) 8 =? 0) then Some (0, samples)
  else
    h ← ima_header data (Z.to_nat channels) 0 samples [0; 0];
    match h with
    | inr samples => Some (0, samples)
    | inl (samples, stepindex) =>
        '(_, s) ← while_loop (S (Z.to_nat n_samples))
                    (fun '(i, _) => i <? n_samples)
                    (ima_group channels data)
                    (channels, ImaState samples stepindex (4 * channels));
        Some (1, im_samples s)
    end.
End ImaBlock.

(** ** Reference IMA decoder

    One channel at a time, from the block layout: [ima_byte] is the byte that
    holds nibble [t] of channel [c], [ima_at] the predictor and step index
    after [t] nibbles. *)
Section ImaReference.
Variables (channels : Z) (data : list Z).

Definition ima_byte (c t : Z) : Z :=
  4 * channels + t / 8 * (4 * channels) + 4 * c + t mod 8 / 2.

Definition ima_nib (c t : Z) : Z :=
  let b := default 0 (aget data (ima_byte c t)) in
  if Z.even t then b mod 16 else b / 16.

Definition ima_next (st : Z * Z) (n : Z) : Z * Z :=
  let '(p, ix) := st in
  let step := default 0 (aget adpcm_step ix) in
  let diff := (2 * (n mod 8) + 1) * step / 8 in
  (zclamp (-32768) 32767 (if 8 <=? n then p - diff else p + diff),
   zclamp 0 88 (ix + default 0 (aget adpcm_index n))).

Definition ima_init (c : Z) : Z * Z :=
  (s16 (default 0 (aget data (4 * c)) + 256 * default 0 (aget data (4 * c + 1))),
   Z.min (default 0 (aget data (4 * c + 2))) 88).

Fixpoint ima_at (c : Z) (t : nat) : Z * Z :=
  match t with
  | O => ima_init c
  | S t' => ima_next (ima_at c t') (ima_nib c (Z.of_nat t'))
  end.

(** A block of [groups] groups of eight samples per channel. *)
Definition ima_block_ok (groups : Z) : Prop :=
  4 * channels * (1 + groups) <= zlen data /\ bytes_ok data /\
  forall c, 0 <= c < channels -> aget data (4 * c + 3) = Some 0.
End ImaReference.

(** ** Properties of the IMA decoder *)

Lemma adpcm_step_range ix : 0 <= ix <= 88 ->
  exists v, aget adpcm_step ix = Some v /\ 7 <= v <= 32767.
Proof.
  intros. destruct (aget_Some adpcm_step ix) as [v E]; [simpl; lia|].
  exists v. split; [done|].
  eapply (aget_Forall (fun v => 7 <= v <= 32767)); [|done].
  repeat constructor; lia.
Qed.

Lemma adpcm_index_range n : 0 <= n < 16 ->
  exists v, aget adpcm_index n = Some v /\ -1 <= v <= 8.
Proof.
  intros. destruct (aget_Some adpcm_index n) as [v E]; [simpl; lia|].
  exists v. split; [done|].
  eapply (aget_Forall (fun v => -1 <= v <= 8)); [|done].
  repeat constructor; lia.
Qed.

Lemma land_15 b : b .& 15 = b mod 16.
Proof. by change 15 with (Z.ones 4); rewrite Z.land_ones. Qed.

Lemma land_7 b : b .& 7 = b mod 8.
Proof. by change 7 with (Z.ones 3); rewrite Z.land_ones. Qed.

Lemma shiftr_4 b : b .>> 4 = b / 16.
Proof. by rewrite Z.shiftr_div_pow2. Qed.

Lemma bitset_8_nibble n : 0 <= n < 16 -> bitset n 8 = (8 <=? n).
Proof.
  intros. apply eqb_prop. by apply (forall_range (fun n => Bool.eqb (bitset n 8) (8 <=? n)) 0 16).
Qed.

Lemma lor_shift_8 a b : byte_ok a -> a .| (b .<< 8) = a + 256 * b.
Proof. intros. rewrite lor_shiftl_add by (unfold byte_ok in *; lia). lia. Qed.

(** The step of the C code is the reference step. *)
Lemma ima_diff_spec n step : 0 <= n < 16 -> 7 <= step <= 32767 ->
  Z.quot (2 * (n .& 7) * step + step) 8 = (2 * (n mod 8) + 1) * step / 8.
Proof.
  intros. rewrite land_7.
  pose proof (Z.mod_pos_bound n 8).
  rewrite Z.quot_div_nonneg by nia. f_equal. lia.
Qed.

Lemma Clamp_spec x lo hi : -32768 <= lo -> lo <= hi -> hi <= 32767 ->
  Clamp x lo hi = zclamp lo hi x.
Proof.
  intros. unfold Clamp, zclamp.
  apply wraps_small; [lia|]. change (2 ^ (16 - 1)) with 32768.
  repeat case_test; zbool; lia.
Qed.

Lemma ima_at_range channels data c t :
  0 <= default 0 (aget data (4 * c + 2)) ->
  -32768 <= (ima_at channels data c t).1 <= 32767 /\
  0 <= (ima_at channels data c t).2 <= 88.
Proof.
  intros Hix. destruct t as [|t]; simpl.
  - split; [|lia]. pose proof (wraps_range 16 (default 0 (aget data (4 * c)) +
      256 * default 0 (aget data (4 * c + 1)))). lia.
  - unfold ima_next. destruct (ima_at channels data c t) as [p ix]. simpl.
    split; apply zclamp_range; lia.
Qed.

(** The reference only looks at the block. *)
Lemma ima_at_ext channels groups d1 d2 c t : channels = 1 \/ channels = 2 ->
  (forall i, 0 <= i < 4 * channels * (1 + groups) -> aget d1 i = aget d2 i) ->
  0 <= c < channels -> 0 <= Z.of_nat t <= 8 * groups ->
  ima_at channels d1 c t = ima_at channels d2 c t.
Proof.
  intros Hch Hext Hc. induction t as [|t IH]; intros Ht; simpl.
  - unfold ima_init. rewrite !Hext by nia. done.
  - rewrite IH by lia. f_equal. unfold ima_nib. rewrite Hext; [done|].
    unfold ima_byte. destruct Hch; subst; zdiv.
Qed.

Lemma ima_nib_range channels data c t : bytes_ok data -> 0 <= ima_nib channels data c t < 16.
Proof.
  intros Hb. unfold ima_nib.
  assert (byte_ok (default 0 (aget data (ima_byte channels c t)))) as [??].
  { destruct (aget data (ima_byte channels c t)) eqn:E; simpl; [|by unfold byte_ok].
    by eapply aget_Forall in E. }
  case_test.
  - apply Z.mod_pos_bound. lia.
  - split; [apply Z.div_pos; lia|apply Z.div_lt_upper_bound; lia].
Qed.

Section ImaCorrect.
Variables (channels groups : Z) (data : list Z).
Hypothesis Hch : channels = 1 \/ channels = 2.
Hypothesis Hgroups : 0 <= groups.
Hypothesis Hdata : ima_block_ok channels data groups.

Notation at_ c t := (ima_at channels data c (Z.to_nat t)).

(** [lim c] nibbles of channel [c] are decoded. *)
Record ima_inv (N : nat) (lim : Z -> Z) (s : ima_state) : Prop := ImaInv {
  ii_len : length (im_samples s) = N;
  ii_len2 : length (im_stepindex s) = 2%nat;
  ii_samples : forall c t, 0 <= c < channels -> 0 <= t <= lim c ->
    aget (im_samples s) (t * channels + c) = Some (at_ c t).1;
  ii_index : forall c, 0 <= c < channels ->
    aget (im_stepindex s) c = Some (at_ c (lim c)).2
}.

Lemma default_byte_nonneg i : 0 <= default 0 (aget data i).
Proof.
  destruct Hdata as (_&Hb&_). destruct (aget data i) eqn:E; simpl; [|lia].
  eapply aget_Forall in E; [|done]. unfold byte_ok in E. lia.
Qed.

Lemma ima_byte_in c t : 0 <= c < channels -> 0 <= t < 8 * groups ->
  0 <= ima_byte channels c t < zlen data.
Proof. destruct Hdata as (Hlen&_). unfold ima_byte. destruct Hch; subst; zdiv. Qed.

Lemma ima_nib_spec c t d : aget data (ima_byte channels c t) = Some d -> 0 <= t ->
  (if Z.rem (t mod 8) 2 =? 0 then d .& 0x0F else (d .>> 4) .& 0x0F)
    = ima_nib channels data c t.
Proof.
  intros E Ht. unfold ima_nib. rewrite E. simpl.
  destruct Hdata as (_&Hb&_). eapply aget_Forall in Hb; [|done].
  unfold byte_ok in Hb. rewrite !land_15, shiftr_4, Zeven_mod.
  replace (Z.rem (t mod 8) 2) with (t mod 2) by zdiv.
  case_test; [done|zdiv].
Qed.

Lemma ima_at_S c t : 0 <= t ->
  at_ c (t + 1) = ima_next (at_ c t) (ima_nib channels data c t).
Proof.
  intros. replace (Z.to_nat (t + 1)) with (S (Z.to_nat t)) by lia. simpl.
  by rewrite Z2Nat.id.
Qed.

Lemma ima_nibble_correct N lim c j s :
  channels * (1 + 8 * groups) <= Z.of_nat N -> 0 <= c < channels ->
  0 <= lim c < 8 * groups -> lim c mod 8 = j -> ima_inv N lim s ->
  im_idx s = ima_byte channels c (lim c) ->
  exists s', ima_nibble false channels c data j ((lim c + 1) * channels + c, s)
               = Some ((lim c + 2) * channels + c, s') /\
    ima_inv N (fun c' => if c' =? c then lim c + 1 else lim c') s' /\
    im_idx s' = im_idx s + j mod 2.
Proof.
  intros HN Hc Hlim <- [Hl Hl2 Hs Hi] Hidx.
  destruct (aget_Some data (im_idx s)) as [d Ed].
  { rewrite Hidx. by apply ima_byte_in. }
  pose proof Ed as Ed'. rewrite Hidx in Ed'.
  destruct Hdata as (_&Hb&_).
  pose proof (ima_nib_range channels data c (lim c) Hb) as Hnib.
  pose proof (ima_nib_spec c (lim c) d Ed' ltac:(lia)) as Hspec.
  destruct (ima_at_range channels data c (Z.to_nat (lim c))) as [Hp Hix].
  { apply default_byte_nonneg. }
  destruct (adpcm_step_range _ Hix) as (step&Estep&Hstep).
  destruct (adpcm_index_range _ Hnib) as (adj&Eadj&Hadj).
  pose proof (Hs c (lim c) Hc ltac:(lia)) as Eprev.
  assert (0 <= (lim c + 1) * channels + c < zlen (im_samples s)) as Hrange
    by (rewrite Hl; destruct Hch; subst; lia).
  assert (exists idx', (if Z.rem (lim c mod 8) 2 =? 0 then (d .& 0x0F, im_idx s)
    else ((d .>> 4) .& 0x0F, im_idx s + 1)) = (ima_nib channels data c (lim c), idx')
    /\ idx' = im_idx s + (lim c mod 8) mod 2) as (idx'&Hif&Hidx').
  { rewrite <- Hspec. case_test; zbool; eexists; split; try done; zdiv. }
  unfold ima_nibble, cget. rewrite Ed. simpl. unfold char_val. simpl.
  rewrite Hif, (Hi c Hc). simpl. rewrite Estep. simpl.
  replace ((lim c + 1) * channels + c - channels) with (lim c * channels + c) by lia.
  rewrite Eprev. simpl. rewrite aset_Some by done. simpl. rewrite Eadj. simpl.
  rewrite aset_Some by (destruct Hch; lia). simpl.
  rewrite ima_diff_spec, bitset_8_nibble, !Clamp_spec by lia.
  eexists. split; [f_equal; f_equal; lia|]. split; [|done].
  assert (ima_next (at_ c (lim c)) (ima_nib channels data c (lim c)) =
    (zclamp (-32768) 32767 ((at_ c (lim c)).1 +
       (if 8 <=? ima_nib channels data c (lim c)
        then - ((2 * (ima_nib channels data c (lim c) mod 8) + 1) * step / 8)
        else (2 * (ima_nib channels data c (lim c) mod 8) + 1) * step / 8)),
     zclamp 0 88 ((at_ c (lim c)).2 + adj))) as Hnext.
  { unfold ima_next. destruct (at_ c (lim c)) as [p ix]. simpl in *.
    rewrite Estep, Eadj. simpl. f_equal. f_equal. case_test; lia. }
  rewrite <- ima_at_S in Hnext by lia.
  split; simpl; [by rewrite length_insert..| |].
  - intros c' t Hc' Ht.
    destruct (decide (t * channels + c' = (lim c + 1) * channels + c)) as [Heq|Hne].
    + assert (c' = c /\ t = lim c + 1) as [-> ->] by (destruct Hch; subst; lia).
      rewrite aget_insert_eq by done. by rewrite Hnext.
    + rewrite aget_insert_ne by lia. apply Hs; [done|].
      destruct (Z.eqb_spec c' c) as [->|]; [|lia].
      assert (t <> lim c + 1) by (intros ->; lia). lia.
  - intros c' Hc'. destruct (Z.eqb_spec c' c) as [->|].
    + rewrite aget_insert_eq by lia. by rewrite Hnext.
    + rewrite aget_insert_ne by lia. by apply Hi.
Qed.

Lemma ima_inv_ext N lim lim' s :
  (forall c, 0 <= c < channels -> lim c = lim' c) -> ima_inv N lim s -> ima_inv N lim' s.
Proof.
  intros E [? ? Hs Hi]. split; [done..| |].
  - intros. apply Hs; [done|]. rewrite E; done.
  - intros. by rewrite <- E; [apply Hi|].
Qed.

(** Limits while group [g] is decoded: the channels before [c] are done. *)
Definition ima_lim (g c c' : Z) : Z := if c' <? c then 8 * g + 8 else 8 * g.

Lemma ima_channel_correct N g c s :
  channels * (1 + 8 * groups) <= Z.of_nat N -> 0 <= g < groups -> 0 <= c < channels ->
  ima_inv N (ima_lim g c) s -> im_idx s = 4 * channels * (1 + g) + 4 * c ->
  exists s', ima_channel false channels data (channels * (1 + 8 * g)) c s = Some s' /\
    ima_inv N (ima_lim g (c + 1)) s' /\ im_idx s' = 4 * channels * (1 + g) + 4 * (c + 1).
Proof.
  intros HN Hg Hc Hinv Hidx. unfold ima_channel.
  destruct (for_range_inv (fun j '(sample, s) =>
      sample = (8 * g + j + 1) * channels + c /\
      ima_inv N (fun c' => if c' =? c then 8 * g + j else ima_lim g c c') s /\
      im_idx s = 4 * channels * (1 + g) + 4 * c + j / 2) 0 8
    (ima_nibble false channels c data) (channels * (1 + 8 * g) + c, s))
    as ([sample s']&E&Hsample&Hinv'&Hidx').
  - lia.
  - split; [lia|]. split; [|zdiv].
    eapply ima_inv_ext; [|done]. intros c' ?. unfold ima_lim.
    repeat case_test; zbool; lia.
  - intros j [sample s1] Hj (->&Hi1&Hx1).
    destruct (ima_nibble_correct N (fun c' => if c' =? c then 8 * g + j else ima_lim g c c')
      c j s1) as (s2&E2&Hi2&Hx2); rewrite ?Z.eqb_refl; [done|done|lia|zdiv|done| |].
    { rewrite Hx1. unfold ima_byte. destruct Hch; subst; zdiv. }
    exists ((8 * g + j + 2) * channels + c, s2). rewrite Z.eqb_refl in E2.
    split; [exact E2|].
    split; [lia|]. split; [|rewrite Hx2, Hx1; zdiv].
    eapply ima_inv_ext; [|done]. intros c' ?. simpl. rewrite Z.eqb_refl.
    repeat case_test; zbool; lia.
  - rewrite E. simpl. eexists. split; [done|]. split; [|rewrite Hidx'; zdiv].
    eapply ima_inv_ext; [|done]. intros c' ?. unfold ima_lim. simpl.
    repeat case_test; zbool; lia.
Qed.

Lemma ima_group_correct N g s :
  channels * (1 + 8 * groups) <= Z.of_nat N -> 0 <= g < groups ->
  ima_inv N (fun _ => 8 * g) s -> im_idx s = 4 * channels * (1 + g) ->
  exists s', ima_group false channels data (channels * (1 + 8 * g), s)
      = Some (channels * (1 + 8 * (g + 1)), s') /\
    ima_inv N (fun _ => 8 * (g + 1)) s' /\ im_idx s' = 4 * channels * (1 + (g + 1)).
Proof.
  intros HN Hg Hinv Hidx. unfold ima_group.
  destruct (for_range_inv (fun c s =>
      ima_inv N (ima_lim g c) s /\ im_idx s = 4 * channels * (1 + g) + 4 * c) 0 channels
    (ima_channel false channels data (channels * (1 + 8 * g))) s) as (s'&E&Hinv'&Hidx').
  - lia.
  - split; [|lia]. eapply ima_inv_ext; [|done]. intros c ?. unfold ima_lim.
    case_test; zbool; lia.
  - intros c s1 Hc [Hi1 Hx1]. by apply ima_channel_correct.
  - rewrite E. simpl. eexists. split; [by f_equal; f_equal; lia|].
    split; [|lia]. eapply ima_inv_ext; [|done]. intros c ?. unfold ima_lim.
    case_test; zbool; lia.
Qed.

Lemma read_sample_spec c : 0 <= c < channels ->
  exists b0 b1, aget data (c * 4) = Some b0 /\ aget data (c * 4 + 1) = Some b1 /\
    read_sample false data (c * 4) = Some (s16 (b0 + 256 * b1)).
Proof.
  intros Hc. destruct Hdata as (Hlen&Hb&_).
  destruct (aget_Some data (c * 4)) as [b0 E0]; [nia|].
  destruct (aget_Some data (c * 4 + 1)) as [b1 E1]; [nia|].
  exists b0, b1. split; [done|]. split; [done|].
  unfold read_sample, cget, char_val. rewrite E0, E1. simpl.
  eapply aget_Forall in E0; [|done]. by rewrite wraps_wrapu, lor_shift_8.
Qed.

(** The header loop: the first sample and the step index of each channel. *)
Definition ima_head_inv (N : nat) (c : Z) (samples stepindex : list Z) : Prop :=
  length samples = N /\ length stepindex = 2%nat /\
  forall c', 0 <= c' < c -> aget samples c' = Some (ima_init data c').1 /\
    aget stepindex c' = Some (ima_init data c').2.

Lemma ima_header_correct N n c samples stepindex :
  channels <= Z.of_nat N -> 0 <= c -> c + Z.of_nat n = channels ->
  ima_head_inv N c samples stepindex ->
  exists samples' stepindex', ima_header false data n c samples stepindex
    = Some (inl (samples', stepindex')) /\ ima_head_inv N channels samples' stepindex'.
Proof.
  intros HN. revert c samples stepindex.
  induction n as [|n IH]; intros c samples stepindex Hc0 Hcn Hinv.
  { replace c with channels in Hinv by lia. simpl. eauto. }
  destruct Hinv as (Hl&Hl2&Hinv). assert (0 <= c < channels) as Hc by lia.
  destruct (read_sample_spec c Hc) as (b0&b1&E0&E1&Er).
  pose proof Hdata as (Hlen&Hb&Hz).
  destruct (aget_Some data (c * 4 + 2)) as [b2 E2]; [nia|].
  assert (byte_ok b2) as Hb2 by (by eapply aget_Forall in E2).
  simpl. rewrite Er. simpl. rewrite aset_Some by lia. simpl.
  unfold cget. rewrite E2. simpl. unfold char_val.
  rewrite aset_Some by (destruct Hch; lia). simpl.
  replace (c * 4 + 3) with (4 * c + 3) by lia. rewrite Hz by done. simpl.
  rewrite (wraps_small 16 (b2 `min` 88)) by (unfold byte_ok in *; simpl; lia).
  apply IH; [lia|lia|]. split; [by rewrite length_insert|].
  split; [by rewrite length_insert|]. intros c' Hc'.
  assert (ima_init data c = (s16 (b0 + 256 * b1), b2 `min` 88)) as Hinit.
  { unfold ima_init. replace (4 * c) with (c * 4) by lia. by rewrite E0, E1, E2. }
  destruct (decide (c' = c)) as [->|].
  - rewrite !aget_insert_eq by (destruct Hch; lia). by rewrite Hinit.
  - rewrite !aget_insert_ne by lia. apply Hinv. lia.
Qed.

Lemma ima_block_correct samples :
  channels * (1 + 8 * groups) <= zlen samples ->
  exists samples',
    adpcmdec_decode_ima_block false channels (channels * (1 + 8 * groups)) data samples
      = Some (1, samples') /\ length samples' = length samples /\
    forall c t, 0 <= c < channels -> 0 <= t <= 8 * groups ->
      aget samples' (t * channels + c) = Some (at_ c t).1.
Proof.
  intros HN. unfold adpcmdec_decode_ima_block.
  replace (Z.rem (channels * (1 + 8 * groups) - channels) 8) with 0
    by (replace (channels * (1 + 8 * groups) - channels) with (channels * groups * 8) by lia;
        by rewrite Z.rem_mul).
  simpl. destruct (ima_header_correct (length samples) (Z.to_nat channels) 0 samples [0; 0])
    as (smp&stp&Eh&Hl&Hl2&Hinit); [nia|lia|lia|by split; [|split; [|lia]]|].
  rewrite Eh. simpl.
  destruct (while_loop_inv (fun '(i, s) => exists g, 0 <= g <= groups /\
      i = channels * (1 + 8 * g) /\ ima_inv (length samples) (fun _ => 8 * g) s /\
      im_idx s = 4 * channels * (1 + g))
    (fun '(i, _) => channels * (1 + 8 * groups) - i - 1)
    (S (Z.to_nat (channels * (1 + 8 * groups))))
    (fun '(i, _) => i <? channels * (1 + 8 * groups))
    (ima_group false channels data) (channels, ImaState smp stp (4 * channels)))
    as ([i s]&E&(g&Hg&->&Hinv&_)&Hend).
  - exists 0. split; [lia|]. split; [lia|]. split; [|simpl; lia].
    split; [done|done| |].
    + intros c t Hc Ht. assert (t = 0) as -> by lia. simpl. by apply Hinit.
    + intros c Hc. by apply Hinit.
  - lia.
  - intros [i s] (g&Hg&->&Hinv&Hidx) Hlt. zbool. split; [lia|].
    destruct (ima_group_correct (length samples) g s) as (s'&E&Hinv'&Hidx');
      [done|destruct Hch; subst; lia|done|done|].
    exists (channels * (1 + 8 * (g + 1)), s'). split; [done|].
    split; [|destruct Hch; subst; lia].
    exists (g + 1). split; [destruct Hch; subst; lia|]. done.
  - lia.
  - rewrite E. simpl. zbool. assert (g = groups) as -> by (destruct Hch; subst; lia).
    exists (im_samples s). destruct Hinv as [? ? Hs _].
    split; [done|]. split; [done|]. intros c t Hc Ht. by apply Hs.
Qed.
End ImaCorrect.

(** ** Reference Microsoft ADPCM decoder

    The samples of one channel as a sequence: the two header samples, then one
    per nibble.  [ms_at t] is (sample [t], sample [t+1], delta after [t]
    nibbles). *)
Definition ms_adapt (n d : Z) : Z :=
  let id := s16 ((default 0 (aget AdaptationTable n) * d) .>> 8) in
  if id <? 16 then 16 else id.

Definition ms_next (bp : Z) (st : Z * Z * Z) (n : Z) : Z * Z * Z :=
  let '(old, new, d) := st in
  let predict := new * default 0 (aget AdaptCoeff1 bp)
                 + old * default 0 (aget AdaptCoeff2 bp) in
  (new,
   zclamp (-32768) 32767 ((if 8 <=? n then n - 16 else n) * d + predict / 256),
   ms_adapt n d).

Section MsReference.
Variable buf : list Z.

Definition ms_word (i : Z) : Z :=
  s16 (default 0 (aget buf i) + 256 * default 0 (aget buf (i + 1))).

Definition ms_byte (i : Z) : Z := default 0 (aget buf i).

(** Predictor index, header samples and delta of channel [c] of [ch]. *)
Definition ms_init (ch c : Z) : Z * Z * Z :=
  if ch =? 1 then (ms_word 5, ms_word 3, ms_word 1)
  else (ms_word (10 + 2 * c), ms_word (6 + 2 * c), ms_word (2 + 2 * c)).

(** Nibble [t] of channel [c]: mono blocks hold two per byte, high first;
    stereo blocks one per byte and channel, left high. *)
Definition ms_nib (ch c t : Z) : Z :=
  if ch =? 1 then
    if Z.even t then ms_byte (7 + t / 2) / 16 else ms_byte (7 + t / 2) mod 16
  else
    if c =? 0 then ms_byte (14 + t) / 16 else ms_byte (14 + t) mod 16.

Fixpoint ms_at (ch c : Z) (t : nat) : Z * Z * Z :=
  match t with
  | O => ms_init ch c
  | S t' => ms_next (ms_byte c) (ms_at ch c t') (ms_nib ch c (Z.of_nat t'))
  end.

Definition ms_old (st : Z * Z * Z) : Z := st.1.1.
Definition ms_new (st : Z * Z * Z) : Z := st.1.2.
Definition ms_delta (st : Z * Z * Z) : Z := st.2.

(** Sample [k] of the interleaved output. *)
Definition ms_out (ch k : Z) : Z :=
  ms_old (ms_at ch (k mod ch) (Z.to_nat (k / ch))).
End MsReference.

Lemma CLAMP_S16_spec x : CLAMP_S16 x = zclamp (-32768) 32767 x.
Proof. unfold CLAMP_S16, zclamp. repeat case_test; zbool; lia. Qed.

Lemma ms_le16_spec buf i : bytes_ok buf -> 0 <= i -> i + 1 < zlen buf ->
  ms_le16 buf i = Some (ms_word buf i).
Proof.
  intros Hb ??. unfold ms_le16, LE_16, ms_word.
  destruct (aget_Some buf i) as [b0 E0]; [lia|].
  destruct (aget_Some buf (i + 1)) as [b1 E1]; [lia|].
  rewrite E0, E1. simpl. eapply aget_Forall in E0; [|done]. by rewrite lor_shift_8.
Qed.

Lemma ms_byte_spec buf i : 0 <= i < zlen buf -> aget buf i = Some (ms_byte buf i).
Proof. intros [b E]%aget_Some. unfold ms_byte. by rewrite E. Qed.

Lemma ms_byte_ok buf i : bytes_ok buf -> 0 <= ms_byte buf i < 256.
Proof.
  intros Hb. unfold ms_byte. destruct (aget buf i) eqn:E; simpl; [|lia].
  eapply aget_Forall in E; [|done]. exact E.
Qed.

Lemma ms_nib_range buf ch c t : bytes_ok buf -> 0 <= ms_nib buf ch c t < 16.
Proof.
  intros Hb. unfold ms_nib.
  pose proof (ms_byte_ok buf (7 + t / 2) Hb). pose proof (ms_byte_ok buf (14 + t) Hb).
  repeat case_test; zdiv.
Qed.

Lemma coeffs_defined bp : 0 <= bp < 7 ->
  exists c1 c2, aget AdaptCoeff1 bp = Some c1 /\ aget AdaptCoeff2 bp = Some c2.
Proof.
  intros. destruct (aget_Some AdaptCoeff1 bp) as [c1 E1]; [simpl; lia|].
  destruct (aget_Some AdaptCoeff2 bp) as [c2 E2]; [simpl; lia|]. eauto.
Qed.

(** The arithmetic of one sample, for the channel numbers the code handles. *)
Lemma ms_sample_spec bpred ch i s bp old new d n chan :
  (ch = 1 \/ ch = 2) -> chan = (if 1 <? ch then Z.rem i 2 else 0) ->
  aget bpred chan = Some bp -> 0 <= bp < 7 ->
  0 <= n < 16 -> aget (ms_idelta s) chan = Some d ->
  (if ch =? 1 then ms_s2 s else ms_s4 s) = n ->
  (if ch =? 1 then ms_s1 s else ms_s2 s) = new -> ms_s0 s = old ->
  0 <= ms_j s < zlen (ms_pcm s) ->
  let st := ms_next bp (old, new, d) n in
  exists bc, ms_sample bpred ch i s = Some (MsState
    (<[Z.to_nat (ms_j s) := old]> (ms_pcm s)) (ms_j s + 1)
    (ms_blockindx s) (ms_sampleindx s) bc
    (<[Z.to_nat chan := ms_delta st]> (ms_idelta s))
    (ms_s1 s) (if ch =? 1 then ms_new st else ms_s2 s) (ms_s3 s)
    (if ch =? 1 then ms_s3 s else ms_new st)
    (if ch =? 1 then ms_s4 s else ms_s5 s) (ms_s5 s)).
Proof.
  intros Hch Hchan Ebp Hbp Hn Ed En Enew Eold Hj st.
  destruct (coeffs_defined bp Hbp) as (c1&c2&Ec1&Ec2).
  destruct (aget_Some AdaptationTable n) as [ad Ead]; [simpl; lia|].
  pose proof (aget_inv _ _ _ Ed) as Hlen.
  pose proof (zclamp_range (-32768) 32767 ((if 8 <=? n then n - 16 else n) * d +
    (new * c1 + old * c2) / 256) ltac:(lia)) as Hcl.
  unfold ms_sample. rewrite <- Hchan.
  assert (n .& 15 = n) as Hland by (rewrite land_15; apply Z.mod_small; lia).
  assert (forall x, x .>> 8 = x / 256) as Hsh by (intros; by rewrite Z.shiftr_div_pow2).
  destruct s as [pcm j bi si bc0 ide s0 s1 s2 s3 s4 s5].
  unfold st, ms_next, ms_adapt, ms_delta, ms_new. simpl in *.
  destruct Hch as [-> | ->]; simpl in *; subst; rewrite Hland, Ed; simpl; rewrite Ead; simpl;
    rewrite aset_Some by done; simpl; rewrite Ebp; simpl; rewrite Ec1, Ec2; simpl;
    unfold ms_store; simpl; rewrite aset_Some by done; simpl; eexists;
    rewrite bitset_8_nibble, CLAMP_S16_spec, !Hsh by lia; f_equal; f_equal;
    (apply wraps_small; [lia|]; change (2 ^ (16 - 1)) with 32768; lia).
Qed.

Lemma ms_triple (st : Z * Z * Z) : (ms_old st, ms_new st, ms_delta st) = st.
Proof. by destruct st as [[??]?]. Qed.

Lemma ms_at_S buf ch c t : 0 <= t ->
  ms_at buf ch c (Z.to_nat (t + 1)) =
  ms_next (ms_byte buf c) (ms_at buf ch c (Z.to_nat t)) (ms_nib buf ch c t).
Proof.
  intros. replace (Z.to_nat (t + 1)) with (S (Z.to_nat t)) by lia. simpl.
  by rewrite Z2Nat.id.
Qed.

Lemma ms_old_S buf ch c t : 0 <= t ->
  ms_old (ms_at buf ch c (Z.to_nat (t + 1))) = ms_new (ms_at buf ch c (Z.to_nat t)).
Proof.
  intros. rewrite ms_at_S by done. by destruct (ms_at buf ch c (Z.to_nat t)) as [[??]?].
Qed.

(** [ms_fetch], by the parity of the sample about to be decoded. *)
Lemma ms_fetch_even buf ch block i s : (ch = 1 \/ ch = 2) -> bytes_ok buf ->
  ms_sampleindx s = i -> 0 <= ms_blockindx s < block -> block <= zlen buf ->
  let b := ms_byte buf (ms_blockindx s) in
  ms_fetch buf ch block i s = Some (MsState (ms_pcm s) (ms_j s) (ms_blockindx s + 1)
    (i + 2) b (ms_idelta s) (ms_s0 s) (ms_s1 s)
    (if ch =? 1 then b / 16 else ms_s2 s) (if ch =? 1 then b mod 16 else ms_s3 s)
    (if ch =? 1 then ms_s4 s else b / 16) (if ch =? 1 then ms_s5 s else b mod 16)).
Proof.
  intros Hch Hb Hi Hblk Hlen b. unfold ms_fetch.
  rewrite (proj2 (Z.leb_le _ i)), (proj2 (Z.ltb_lt _ block)) by lia. simpl.
  rewrite ms_byte_spec by lia. fold b. simpl.
  pose proof (ms_byte_ok buf (ms_blockindx s) Hb). fold b in H.
  assert ((b .>> 4) .& 15 = b / 16) as ->.
  { rewrite land_15, shiftr_4. apply Z.mod_small. zdiv. }
  rewrite land_15. subst i. destruct Hch as [-> | ->]; done.
Qed.

Lemma ms_fetch_odd buf ch block i s : i < ms_sampleindx s ->
  ms_fetch buf ch block i s = Some s.
Proof. intros. unfold ms_fetch. by rewrite (proj2 (Z.leb_gt _ i)) by lia. Qed.

Section MsCorrect.
Variables (block : Z) (buf : list Z).
Hypothesis Hbuf : bytes_ok buf.
Hypothesis Hblock : block <= zlen buf.

Notation at_ ch c t := (ms_at buf ch c (Z.to_nat t)).

(** [out k'] for the samples already stored. *)
Definition ms_stored (N : nat) (out : Z -> Z) (k : Z) (pcm : list Z) : Prop :=
  length pcm = N /\ forall k', 0 <= k' < k -> aget pcm k' = Some (out k').

Lemma ms_stored_S N out k pcm : 0 <= k < Z.of_nat N -> ms_stored N out k pcm ->
  ms_stored N out (k + 1) (<[Z.to_nat k := out k]> pcm).
Proof.
  intros Hk [Hl Hp]. split; [by rewrite length_insert|]. intros k' Hk'.
  destruct (decide (k' = k)) as [->|].
  - apply aget_insert_eq. lia.
  - rewrite aget_insert_ne by lia. apply Hp. lia.
Qed.

(** *** Mono *)
Record mono_inv (N : nat) (k : Z) (s : ms_state) : Prop := MonoInv {
  mi_pcm : ms_stored N (ms_out buf 1) k (ms_pcm s);
  mi_j : ms_j s = k;
  mi_bi : ms_blockindx s = 7 + (k + 1) / 2;
  mi_si : ms_sampleindx s = 2 + 2 * ((k + 1) / 2);
  mi_delta : aget (ms_idelta s) 0 = Some (ms_delta (at_ 1 0 k));
  mi_s0 : ms_s0 s = ms_old (at_ 1 0 k);
  mi_s1 : ms_s1 s = ms_new (at_ 1 0 k);
  mi_s2 : k mod 2 = 1 -> ms_s2 s = ms_nib buf 1 0 k
}.

Lemma ms_out_mono k : ms_out buf 1 k = ms_old (at_ 1 0 k).
Proof. unfold ms_out. by rewrite Z.mod_1_r, Z.div_1_r. Qed.

Lemma mono_step N k s bp1 :
  ms_byte buf 0 < 7 -> 0 <= k -> ms_blockindx s < block -> k < Z.of_nat N ->
  mono_inv N k s ->
  exists s0 s', ms_fetch buf 1 block (k + 2) s = Some s0 /\
    ms_sample [ms_byte buf 0; bp1] 1 (k + 2) s0 = Some s' /\ mono_inv N (k + 1) s'.
Proof.
  intros Hbp Hk Hblk HN [Hp Hj Hbi Hsi Hd H0 H1 H2].
  pose proof (ms_byte_ok buf 0 Hbuf) as Hb0.
  assert (exists s0, ms_fetch buf 1 block (k + 2) s = Some s0 /\
    ms_pcm s0 = ms_pcm s /\ ms_j s0 = k /\ ms_blockindx s0 = 7 + (k + 2) / 2 /\
    ms_sampleindx s0 = 2 + 2 * ((k + 2) / 2) /\ ms_idelta s0 = ms_idelta s /\
    ms_s0 s0 = ms_s0 s /\ ms_s1 s0 = ms_s1 s /\ ms_s2 s0 = ms_nib buf 1 0 k /\
    ((k + 1) mod 2 = 1 -> ms_s3 s0 = ms_nib buf 1 0 (k + 1)))
    as (t&Ef&Tp&Tj&Tbi&Tsi&Td&T0&T1&T2&T3).
  { destruct (decide (k mod 2 = 1)).
    - exists s. rewrite ms_fetch_odd by (rewrite Hsi; zdiv).
      repeat split; auto; [rewrite Hbi; zdiv|rewrite Hsi; zdiv|zdiv].
    - rewrite ms_fetch_even by (auto; rewrite ?Hsi, ?Hbi in *; zdiv). eexists.
      split; [done|]. simpl. repeat split; auto; [rewrite Hbi; zdiv|zdiv| |intros _].
      + unfold ms_nib. simpl. rewrite Zeven_mod, Hbi.
        case_test; zbool; [do 2 f_equal; zdiv|zdiv].
      + unfold ms_nib. simpl. rewrite Zeven_mod, Hbi.
        case_test; zbool; [zdiv|do 2 f_equal; zdiv]. }
  destruct (ms_sample_spec [ms_byte buf 0; bp1] 1 (k + 2) t (ms_byte buf 0)
    (ms_old (at_ 1 0 k)) (ms_new (at_ 1 0 k)) (ms_delta (at_ 1 0 k)) (ms_nib buf 1 0 k) 0)
    as (bc&Es); auto; [lia|by apply ms_nib_range|by rewrite Td|by rewrite T1|by rewrite T0| |].
  { rewrite Tj, Tp. destruct Hp as [-> _]. lia. }
  rewrite ms_triple in Es. rewrite <- ms_at_S in Es by done. simpl in Es.
  exists t. eexists. split; [done|]. split; [exact Es|].
  split; simpl.
  - rewrite Tp, Tj, <- ms_out_mono. by apply ms_stored_S.
  - lia.
  - rewrite Tbi. do 2 f_equal. lia.
  - rewrite Tsi. do 3 f_equal. lia.
  - rewrite Td. apply (aget_insert_eq _ 0). by eapply aget_inv.
  - rewrite T1, H1. by rewrite ms_old_S.
  - done.
  - intros Hodd. by apply T3.
Qed.

Lemma mono_loop N fuel s bp1 :
  ms_byte buf 0 < 7 -> 7 <= block -> 2 * (block - 7) + 1 <= Z.of_nat N ->
  2 * block + 1 < Z.of_nat fuel -> mono_inv N 0 s ->
  exists s', ms_loop fuel buf [ms_byte buf 0; bp1] 1 block 2 s
    = Some (Z.max 0 (2 * (block - 7) - 1) + 2, s') /\
    mono_inv N (Z.max 0 (2 * (block - 7) - 1)) s'.
Proof.
  intros Hbp Hblk HN Hfuel Hinv. unfold ms_loop.
  destruct (while_loop_inv (fun '(i, s) => 0 <= i - 2 <= Z.max 0 (2 * (block - 7) - 1) /\
      mono_inv N (i - 2) s) (fun '(i, _) => 2 * block - i)
    fuel (fun '(_, s) => ms_blockindx s <? block)
    (fun '(i, s) => s ← ms_fetch buf 1 block i s;
      s ← ms_sample [ms_byte buf 0; bp1] 1 i s; Some (i + 1, s)) (2, s))
    as ([i s']&E&[Hi Hinv']&Hend).
  - split; [lia|done].
  - lia.
  - intros [i s1] [Hi Hinv1] Hc. zbool.
    assert ((i - 2 + 1) / 2 < block - 7) by (destruct Hinv1; lia).
    split; [zdiv|].
    destruct (mono_step N (i - 2) s1 bp1) as (s2&s3&E2&E3&Hinv3); [done|lia|done|zdiv|done|].
    replace (i - 2 + 2) with i in * by lia.
    exists (i + 1, s3). rewrite E2. simpl. rewrite E3. simpl.
    split; [done|]. split; [|lia]. split; [zdiv|].
    by replace (i + 1 - 2) with (i - 2 + 1) by lia.
  - lia.
  - zbool. pose proof (mi_bi _ _ _ Hinv') as Hbi.
    assert (i = Z.max 0 (2 * (block - 7) - 1) + 2) as -> by zdiv.
    rewrite E. eexists. split; [done|].
    by replace (Z.max 0 (2 * (block - 7) - 1) + 2 - 2)
      with (Z.max 0 (2 * (block - 7) - 1)) in Hinv' by lia.
Qed.

Lemma ms_store_spec s v : 0 <= ms_j s < zlen (ms_pcm s) ->
  ms_store s v = Some (MsState (<[Z.to_nat (ms_j s) := v]> (ms_pcm s)) (ms_j s + 1)
    (ms_blockindx s) (ms_sampleindx s) (ms_bytecode s) (ms_idelta s)
    (ms_s0 s) (ms_s1 s) (ms_s2 s) (ms_s3 s) (ms_s4 s) (ms_s5 s)).
Proof. intros. unfold ms_store. by rewrite aset_Some. Qed.

Lemma mono_block_correct pcm :
  7 < block -> ms_byte buf 0 < 7 -> 2 * (block - 7) + 1 <= zlen pcm ->
  exists pcm', ms_adpcm_decode_block pcm buf 1 block = Some (2 * (block - 7) + 1, pcm') /\
    ms_stored (length pcm) (ms_out buf 1) (2 * (block - 7) + 1) pcm'.
Proof.
  intros Hblk Hbp HN.
  pose proof (ms_byte_ok buf 0 Hbuf) as Hb0.
  unfold ms_adpcm_decode_block, ms_header. simpl.
  rewrite ms_byte_spec by lia. simpl.
  rewrite !(ms_le16_spec buf) by (auto; lia). simpl.
  destruct (mono_loop (length pcm) (Z.to_nat (2 * block + 8))
    (MsState pcm 0 7 2 0 [ms_word buf 1; 0] (ms_word buf 5) (ms_word buf 3) 0 0 0 0) 0)
    as (s&El&Hinv); [done|lia|lia|lia| |].
  { split; try done. split; [done|lia]. }
  change (1 * 2) with 2. rewrite El. simpl.
  replace (Z.max 0 (2 * (block - 7) - 1)) with (2 * (block - 7) - 1) in Hinv by lia.
  destruct Hinv as [Hp Hj _ _ _ H0 H1 _].
  unfold ms_flush. simpl.
  rewrite ms_store_spec by (destruct Hp; lia). simpl.
  rewrite ms_store_spec by (simpl; rewrite length_insert; destruct Hp; lia). simpl.
  eexists. split; [f_equal; f_equal; lia|].
  rewrite Hj, H0, H1.
  rewrite <- ms_old_S by lia. rewrite <- !ms_out_mono.
  replace (2 * (block - 7) + 1) with (2 * (block - 7) - 1 + 1 + 1) by lia.
  apply ms_stored_S; [lia|]. apply ms_stored_S; [lia|done].
Qed.

(** *** Stereo *)
Record stereo_inv (N : nat) (k : Z) (s : ms_state) : Prop := StereoInv {
  si_pcm : ms_stored N (ms_out buf 2) k (ms_pcm s);
  si_j : ms_j s = k;
  si_bi : ms_blockindx s = 14 + (k + 1) / 2;
  si_si : ms_sampleindx s = 4 + 2 * ((k + 1) / 2);
  si_delta : forall c, 0 <= c < 2 ->
    aget (ms_idelta s) c = Some (ms_delta (at_ 2 c ((k + 1 - c) / 2)));
  si_s0 : ms_s0 s = ms_out buf 2 k;
  si_s1 : ms_s1 s = ms_out buf 2 (k + 1);
  si_s2 : ms_s2 s = ms_out buf 2 (k + 2);
  si_s3 : ms_s3 s = ms_out buf 2 (k + 3);
  si_s4 : k mod 2 = 1 -> ms_s4 s = ms_nib buf 2 1 (k / 2)
}.

Lemma ms_out_next k : 0 <= k ->
  ms_out buf 2 (k + 2) = ms_new (at_ 2 (k mod 2) (k / 2)).
Proof.
  intros. unfold ms_out. replace ((k + 2) mod 2) with (k mod 2) by zdiv.
  replace ((k + 2) / 2) with (k / 2 + 1) by zdiv. apply ms_old_S. zdiv.
Qed.

Lemma stereo_step N k s :
  ms_byte buf 0 < 7 -> ms_byte buf 1 < 7 -> 0 <= k -> ms_blockindx s < block ->
  k < Z.of_nat N -> stereo_inv N k s ->
  exists s0 s', ms_fetch buf 2 block (k + 4) s = Some s0 /\
    ms_sample [ms_byte buf 0; ms_byte buf 1] 2 (k + 4) s0 = Some s' /\
    stereo_inv N (k + 1) s'.
Proof.
  intros Hbp0 Hbp1 Hk Hblk HN [Hp Hj Hbi Hsi Hd H0 H1 H2 H3 H4].
  pose proof (ms_byte_ok buf 0 Hbuf) as Hb0. pose proof (ms_byte_ok buf 1 Hbuf) as Hb1.
  assert (exists s0, ms_fetch buf 2 block (k + 4) s = Some s0 /\
    ms_pcm s0 = ms_pcm s /\ ms_j s0 = k /\ ms_blockindx s0 = 14 + (k + 2) / 2 /\
    ms_sampleindx s0 = 4 + 2 * ((k + 2) / 2) /\ ms_idelta s0 = ms_idelta s /\
    ms_s0 s0 = ms_s0 s /\ ms_s1 s0 = ms_s1 s /\ ms_s2 s0 = ms_s2 s /\
    ms_s3 s0 = ms_s3 s /\ ms_s4 s0 = ms_nib buf 2 (k mod 2) (k / 2) /\
    ((k + 1) mod 2 = 1 -> ms_s5 s0 = ms_nib buf 2 1 (k / 2)))
    as (t&Ef&Tp&Tj&Tbi&Tsi&Td&T0&T1&T2&T3&T4&T5).
  { destruct (decide (k mod 2 = 1)) as [Ho|He].
    - exists s. rewrite ms_fetch_odd by (rewrite Hsi; zdiv). rewrite Ho, H4 by done.
      repeat split; auto; [rewrite Hbi; zdiv|rewrite Hsi; zdiv|zdiv].
    - rewrite ms_fetch_even by (auto; rewrite ?Hsi, ?Hbi in *; zdiv). eexists.
      split; [done|]. simpl.
      replace (k mod 2) with 0 by zdiv.
      repeat split; auto; [rewrite Hbi; zdiv|zdiv| |intros _];
        unfold ms_nib; simpl; rewrite Hbi; do 2 f_equal; zdiv. }
  pose proof (Z.mod_pos_bound k 2) as Hm.
  destruct (ms_sample_spec [ms_byte buf 0; ms_byte buf 1] 2 (k + 4) t
    (ms_byte buf (k mod 2)) (ms_old (at_ 2 (k mod 2) (k / 2)))
    (ms_new (at_ 2 (k mod 2) (k / 2))) (ms_delta (at_ 2 (k mod 2) (k / 2)))
    (ms_nib buf 2 (k mod 2) (k / 2)) (k mod 2)) as (bc&Es); auto.
  - simpl. zdiv.
  - destruct (decide (k mod 2 = 0)) as [->|]; [done|].
    by replace (k mod 2) with 1 by lia.
  - destruct (decide (k mod 2 = 0)) as [->|]; [lia|].
    replace (k mod 2) with 1 by lia. lia.
  - by apply ms_nib_range.
  - rewrite Td, Hd by lia. do 4 f_equal. zdiv.
  - by rewrite T2, H2, ms_out_next.
  - by rewrite T0, H0.
  - rewrite Tj, Tp. destruct Hp as [-> _]. lia.
  - rewrite ms_triple in Es.
    rewrite <- ms_at_S in Es by zdiv. simpl in Es.
    exists t. eexists. split; [done|]. split; [exact Es|].
    split; simpl.
    + rewrite Tp, Tj. by apply ms_stored_S.
    + lia.
    + rewrite Tbi. do 2 f_equal. lia.
    + rewrite Tsi. do 3 f_equal. lia.
    + intros c Hc. rewrite Td. destruct (decide (c = k mod 2)) as [->|].
      * rewrite aget_insert_eq by (by eapply aget_inv, Hd; lia). do 4 f_equal. zdiv.
      * rewrite aget_insert_ne by lia. rewrite Hd by lia. do 4 f_equal. zdiv.
    + by rewrite T1.
    + rewrite T2, H2. f_equal. lia.
    + rewrite T3, H3. f_equal. lia.
    + replace (k + 1 + 3) with (k + 2 + 2) by lia. rewrite ms_out_next by lia.
      f_equal. f_equal; [zdiv|]. f_equal. zdiv.
    + intros Ho. rewrite T5 by done. f_equal. zdiv.
Qed.

Lemma stereo_loop N fuel s :
  ms_byte buf 0 < 7 -> ms_byte buf 1 < 7 -> 14 <= block ->
  2 * (block - 14) + 3 <= Z.of_nat N ->
  2 * block + 1 < Z.of_nat fuel -> stereo_inv N 0 s ->
  exists i s', ms_loop fuel buf [ms_byte buf 0; ms_byte buf 1] 2 block 4 s = Some (i, s') /\
    stereo_inv N (Z.max 0 (2 * (block - 14) - 1)) s'.
Proof.
  intros Hbp0 Hbp1 Hblk HN Hfuel Hinv. unfold ms_loop.
  destruct (while_loop_inv (fun '(i, s) => 0 <= i - 4 <= Z.max 0 (2 * (block - 14) - 1) /\
      stereo_inv N (i - 4) s) (fun '(i, _) => 2 * block - i)
    fuel (fun '(_, s) => ms_blockindx s <? block)
    (fun '(i, s) => s ← ms_fetch buf 2 block i s;
      s ← ms_sample [ms_byte buf 0; ms_byte buf 1] 2 i s; Some (i + 1, s)) (4, s))
    as ([i s']&E&[Hi Hinv']&Hend).
  - split; [lia|done].
  - lia.
  - intros [i s1] [Hi Hinv1] Hc. zbool.
    assert ((i - 4 + 1) / 2 < block - 14) by (destruct Hinv1; lia).
    split; [zdiv|].
    destruct (stereo_step N (i - 4) s1) as (s2&s3&E2&E3&Hinv3);
      [done|done|lia|done|zdiv|done|].
    replace (i - 4 + 4) with i in * by lia.
    exists (i + 1, s3). rewrite E2. simpl. rewrite E3. simpl.
    split; [done|]. split; [|lia]. split; [zdiv|].
    by replace (i + 1 - 4) with (i - 4 + 1) by lia.
  - lia.
  - zbool. pose proof (si_bi _ _ _ Hinv') as Hbi.
    rewrite E. eexists _, _. split; [done|].
    by replace (Z.max 0 (2 * (block - 14) - 1)) with (i - 4) by zdiv.
Qed.

Lemma stereo_block_correct pcm :
  14 < block -> ms_byte buf 0 < 7 -> ms_byte buf 1 < 7 ->
  2 * (block - 14) + 3 <= zlen pcm ->
  exists pcm', ms_adpcm_decode_block pcm buf 2 block = Some (2 * (block - 14) + 3, pcm') /\
    ms_stored (length pcm) (ms_out buf 2) (2 * (block - 14) + 3) pcm'.
Proof.
  intros Hblk Hbp0 Hbp1 HN.
  unfold ms_adpcm_decode_block, ms_header. simpl.
  rewrite !ms_byte_spec by lia. simpl.
  rewrite !(ms_le16_spec buf) by (auto; lia). simpl.
  destruct (stereo_loop (length pcm) (Z.to_nat (2 * block + 8))
    (MsState pcm 0 14 4 0 [ms_word buf 2; ms_word buf 4] (ms_word buf 10)
      (ms_word buf 12) (ms_word buf 6) (ms_word buf 8) 0 0))
    as (i&s&El&Hinv); [done|done|lia|lia|lia| |].
  { split; try done.
    - split; [done|lia].
    - intros c Hc. assert (c = 0 \/ c = 1) as [-> | ->] by lia; done. }
  change (2 * 2) with 4. rewrite El. simpl.
  replace (Z.max 0 (2 * (block - 14) - 1)) with (2 * (block - 14) - 1) in Hinv by lia.
  destruct Hinv as [Hp Hj _ _ _ H0 H1 H2 H3 _].
  unfold ms_flush. simpl.
  do 4 (rewrite ms_store_spec by (simpl; rewrite ?length_insert; destruct Hp; lia); simpl).
  eexists. split; [f_equal; f_equal; lia|].
  rewrite Hj, H0, H1, H2, H3.
  replace (2 * (block - 14) + 3) with (2 * (block - 14) - 1 + 1 + 1 + 1 + 1) by lia.
  replace (2 * (block - 14) - 1 + 2) with (2 * (block - 14) - 1 + 1 + 1) by lia.
  replace (2 * (block - 14) - 1 + 3) with (2 * (block - 14) - 1 + 1 + 1 + 1) by lia.
  do 4 (apply ms_stored_S; [lia|]). done.
Qed.
End MsCorrect.

(** A predictor index of 7 or more reads past the coefficient tables. *)
Lemma ms_sample_bad_predictor bpred ch i s bp chan :
  (ch = 1 \/ ch = 2) -> chan = (if 1 <? ch then Z.rem i 2 else 0) ->
  aget bpred chan = Some bp -> 7 <= bp ->
  ms_sample bpred ch i s = None.
Proof.
  intros Hch Hchan Ebp Hbp. unfold ms_sample. rewrite <- Hchan.
  destruct (aget (ms_idelta s) chan); [simpl|done].
  destruct (aget AdaptationTable _); [simpl|done].
  destruct (aset (ms_idelta s) chan _); [simpl|done].
  rewrite Ebp. simpl. rewrite (aget_None AdaptCoeff1 bp) by (simpl; lia).
  by destruct Hch as [-> | ->].
Qed.

(** ** Reference expansion of G.711 codes

    ITU-T G.711 in the form of its decoder tables: a 3-bit segment and a 4-bit
    mantissa, with the even bits of an A-law code inverted and all bits of a
    u-law code inverted. *)
Definition alaw_magnitude (v : Z) : Z :=
  let seg := v / 16 mod 8 in
  let m := v mod 16 in
  if seg =? 0 then 16 * m + 8 else (16 * m + 264) * 2 ^ (seg - 1).

Definition ulaw_magnitude (v : Z) : Z :=
  (8 * (v mod 16) + 132) * 2 ^ (v / 16 mod 8) - 132.

(** ** Claims *)

(** C15: the IMA decoder the package runs is correct on every well-formed block
    of one or two channels.  For a block of [groups] groups of eight nibbles
    per channel, with a clean header, it stays inside its buffers, returns 1
    and writes at position [t * channels + c] sample [t] of channel [c] as the
    reference decoder computes it from the channel's own nibbles (first the
    header sample, then one predictor update per nibble); all are 16-bit. *)
Theorem adpcmdec_decode_ima_block_correct channels groups data samples :
  channels = 1 \/ channels = 2 -> 0 <= groups ->
  ima_block_ok channels data groups ->
  channels * (1 + 8 * groups) <= zlen samples ->
  exists samples',
    adpcmdec_decode_ima_block false channels (channels * (1 + 8 * groups)) data samples
      = Some (1, samples') /\
    length samples' = length samples /\
    forall c t, 0 <= c < channels -> 0 <= t <= 8 * groups ->
      aget samples' (t * channels + c) = Some (ima_at channels data c (Z.to_nat t)).1 /\
      -32768 <= (ima_at channels data c (Z.to_nat t)).1 <= 32767.
Proof.
  intros Hch Hg Hok HN.
  destruct (ima_block_correct channels groups data Hch Hg Hok samples HN)
    as (smp&E&Hl&Hs).
  exists smp. split; [done|]. split; [done|]. intros c t Hc Ht.
  split; [by apply Hs|]. by apply ima_at_range, (default_byte_nonneg channels groups).
Qed.

Lemma adpcmdec_decode_ima_block_correct_witness :
  let data := [0x10; 0xFE; 5; 0; 0x34; 0x12; 40; 0;
               0x18; 0x2A; 0x7F; 0x90; 0xC3; 0x05; 0x66; 0xF1] in
  ima_block_ok 2 data 1 /\
  exists samples',
    adpcmdec_decode_ima_block false 2 18 data (replicate 18 0) = Some (1, samples') /\
    length samples' = 18%nat /\
    forall c t, 0 <= c < 2 -> 0 <= t <= 8 ->
      aget samples' (t * 2 + c) = Some (ima_at 2 data c (Z.to_nat t)).1 /\
      -32768 <= (ima_at 2 data c (Z.to_nat t)).1 <= 32767.
Proof.
  intros data.
  assert (ima_block_ok 2 data 1) as Hok.
  { split; [simpl; lia|]. split.
    - repeat constructor; unfold byte_ok; lia.
    - intros c Hc. assert (c = 0 \/ c = 1) as [-> | ->] by lia; reflexivity. }
  split; [exact Hok|].
  apply (adpcmdec_decode_ima_block_correct 2 1 data (replicate 18 0));
    [by right|lia|exact Hok|simpl; lia].
Defined.

(** The Microsoft ADPCM block decoder.  With predictor indices below 7, a
    block longer than its header and room for the samples, it stays inside its
    buffers and writes the samples of the reference decoder in interleaved
    order: [2 * (block - 7) + 1] for a mono block and [2 * (block - 14) + 3]
    for a stereo one.  A block of that size encodes one more sample
    than this: the loop stops as soon as the last byte is
    fetched, so the low nibble of the last byte is never decoded. *)
Theorem ms_adpcm_decode_block_correct pcm buf ch block :
  ch = 1 \/ ch = 2 -> bytes_ok buf -> block <= zlen buf -> 7 * ch < block ->
  (forall c, 0 <= c < ch -> ms_byte buf c < 7) ->
  2 * (block - 7 * ch) + (2 * ch - 1) <= zlen pcm ->
  exists pcm',
    ms_adpcm_decode_block pcm buf ch block
      = Some (2 * (block - 7 * ch) + (2 * ch - 1), pcm') /\
    length pcm' = length pcm /\
    forall k, 0 <= k < 2 * (block - 7 * ch) + (2 * ch - 1) ->
      aget pcm' k = Some (ms_out buf ch k).
Proof.
  intros [-> | ->] Hb Hl Hblk Hbp HN.
  - destruct (mono_block_correct block buf Hb Hl pcm) as (pcm'&E&Hp&Hs);
      [lia|apply Hbp; lia|lia|]. exists pcm'. auto.
  - destruct (stereo_block_correct block buf Hb Hl pcm) as (pcm'&E&Hp&Hs);
      [lia|apply Hbp; lia|apply Hbp; lia|lia|]. exists pcm'. auto.
Qed.

Lemma ms_adpcm_decode_block_correct_witness :
  let buf := [1; 6; 0x20; 0x00; 0x40; 0x01; 0x64; 0x00; 0x9C; 0xFF; 0x32; 0x00;
              0x10; 0x27; 0x1F; 0x84; 0xE7] in
  exists pcm',
    ms_adpcm_decode_block (replicate 9 0) buf 2 17 = Some (9, pcm') /\
    length pcm' = 9%nat /\
    forall k, 0 <= k < 9 -> aget pcm' k = Some (ms_out buf 2 k).
Proof.
  intros buf.
  apply (ms_adpcm_decode_block_correct (replicate 9 0) buf 2 17); [by right| |done|lia| |done].
  - repeat constructor; unfold byte_ok; lia.
  - intros c Hc. assert (c = 0 \/ c = 1) as [-> | ->] by lia; reflexivity.
Defined.

(** The Microsoft decoder does not reject the predictor indices its own
    comment calls a sync error.  With a first predictor index of 7 or more in
    a block that has data, the first sample reads outside the coefficient
    tables: undefined behaviour, whatever the rest of the block holds. *)
Theorem ms_adpcm_bad_predictor_undefined pcm buf ch block :
  ch = 1 \/ ch = 2 -> bytes_ok buf -> block <= zlen buf -> 7 * ch < block ->
  7 <= ms_byte buf 0 ->
  ms_adpcm_decode_block pcm buf ch block = None.
Proof.
  intros Hch Hb Hl Hblk Hbp. unfold ms_adpcm_decode_block.
  destruct (ms_header pcm buf ch) as [[bpred s]|] eqn:Eh; [simpl|done].
  assert (aget bpred 0 = Some (ms_byte buf 0) /\ ms_blockindx s = 7 * ch) as [Ebp Ebi].
  { unfold ms_header in Eh. rewrite ms_byte_spec in Eh by lia.
    destruct Hch as [-> | ->]; simpl in Eh; monad_inv; split; done. }
  unfold ms_loop. replace (Z.to_nat (2 * block + 8)) with (S (Z.to_nat (2 * block + 7))) by lia.
  rewrite while_loop_S. rewrite (proj2 (Z.ltb_lt _ block)) by lia.
  destruct (ms_fetch buf ch block (ch * 2) s) as [s1|]; [cbn [mbind option_bind]|done].
  rewrite (ms_sample_bad_predictor _ _ _ _ (ms_byte buf 0) 0); [done|done| |done|done].
  by destruct Hch as [-> | ->].
Qed.

Lemma ms_adpcm_bad_predictor_undefined_witness :
  ms_adpcm_decode_block (replicate 64 0) [7; 16; 0; 1; 0; 2; 0; 0x55] 1 8 = None.
Proof.
  apply ms_adpcm_bad_predictor_undefined; [by left| |done|done|done].
  repeat constructor; unfold byte_ok; lia.
Defined.

(** The A-law and u-law expanders compute the G.711 expansion of every
    code: segment and mantissa give the magnitude, the top bit the sign, and
    every result fits the 16-bit sample it is stored in. *)
Theorem g711_expansion_correct v :
  0 <= v < 256 ->
  (let w := v .^ 0x55 in
   alaw2linear v = if 128 <=? w then alaw_magnitude w else - alaw_magnitude w) /\
  (let w := 255 - v in
   ulaw2linear v = if 128 <=? w then - ulaw_magnitude w else ulaw_magnitude w) /\
  s16 (alaw2linear v) = alaw2linear v /\ s16 (ulaw2linear v) = ulaw2linear v /\
  alaw2linear (v .^ 128) = - alaw2linear v /\ ulaw2linear (v .^ 128) = - ulaw2linear v.
Proof.
  intros Hv. cbv zeta.
  pose proof (forall_range (fun v =>
    (alaw2linear v =? if 128 <=? v .^ 0x55 then alaw_magnitude (v .^ 0x55)
                      else - alaw_magnitude (v .^ 0x55)) &&
    (ulaw2linear v =? if 128 <=? 255 - v then - ulaw_magnitude (255 - v)
                      else ulaw_magnitude (255 - v)) &&
    (s16 (alaw2linear v) =? alaw2linear v) && (s16 (ulaw2linear v) =? ulaw2linear v) &&
    (alaw2linear (v .^ 128) =? - alaw2linear v) &&
    (ulaw2linear (v .^ 128) =? - ulaw2linear v)) 0 256 ltac:(vm_compute; done) v Hv) as H.
  simpl in H. zbool. auto 10.
Qed.

Lemma g711_expansion_correct_witness :
  alaw2linear 0xD5 = 8 /\ ulaw2linear 0x00 = -32124.
Proof.
  destruct (g711_expansion_correct 0xD5) as [Ha _]; [lia|].
  destruct (g711_expansion_correct 0x00) as (_&Hu&_); [lia|].
  split; [rewrite Ha|rewrite Hu]; reflexivity.
Defined.
