(* ===== verification/AdpcmDecoder.v ===== *)
(** The decoder around the ADPCM codecs: [src/libadpcm/adpcm_decode.c] from
    [pcm_read_init] to [audio_dec_release].

    The static variables are one record [adpcm_globals]; the input buffer is a
    list and [pcm_read_ctl] its cursor.  [None] is undefined behaviour (a read
    or a write outside a buffer, a NULL buffer, a negative [memcpy] size). *)
From S2P Require Import Prelude AdpcmCodec.

Definition WAVE_BLOCK_SIZE : Z := 2048.
Definition CODEC_ID_PCM_MULAW : Z := 0x10006.
Definition CODEC_ID_PCM_ALAW : Z := 0x10007.
Definition CODEC_ID_ADPCM_IMA_WAV : Z := 0x11001.
Definition CODEC_ID_ADPCM_MS : Z := 0x11006.
Definition SAMPLE_FMT_U8 : Z := 0.
Definition SAMPLE_FMT_S16 : Z := 1.

(** ** The input cursor *)

Record pcm_read_ctl := PcmReadCtl {
  ValidDataLen : Z;
  UsedDataLen : Z;
  pcur : Z (** offset of [pcur] from [BufStart] *)
}.

Definition pcm_read_init (size : Z) : pcm_read_ctl := PcmReadCtl size 0 0.

(** Returns [bytes_read], the new cursor and the bytes copied to [outbuf]. *)
Definition pcm_read (inbuf : list Z) (ctl : pcm_read_ctl) (size : Z)
    : option (Z * pcm_read_ctl * list Z) :=
  if size <=? ValidDataLen ctl then
    bytes ← asub inbuf (pcur ctl) size;
    Some (size, PcmReadCtl (ValidDataLen ctl - size) (UsedDataLen ctl + size)
                  (pcur ctl + size), bytes)
  else Some (0, ctl, []).

Definition set_used (ctl : pcm_read_ctl) (used : Z) : pcm_read_ctl :=
  PcmReadCtl (ValidDataLen ctl) used (pcur ctl).

(** ** The static variables *)

Record adpcm_globals := AdpcmGlobals {
  wave_timestamplen : Z;        (** unsigned *)
  wave_timestamp : Z;           (** unsigned *)
  refill_timestamp_len : Z;     (** static local of [refill] *)
  block_align : Z;
  offset : Z;
  mgr_ch : Z; mgr_sr : Z; mgr_bps : Z;  (** [g_mgr] *)
  wave_buf0 : option (list Z);  (** stream buffer, bytes; [None] is NULL *)
  wave_buf1 : option (list Z)   (** pcm buffer, [short]s *)
}.

Definition set_stamp (g : adpcm_globals) (len stamp rlen : Z) : adpcm_globals :=
  AdpcmGlobals len stamp rlen (block_align g) (offset g) (mgr_ch g) (mgr_sr g)
    (mgr_bps g) (wave_buf0 g) (wave_buf1 g).

Definition set_buf0 (g : adpcm_globals) (b : list Z) : adpcm_globals :=
  AdpcmGlobals (wave_timestamplen g) (wave_timestamp g) (refill_timestamp_len g)
    (block_align g) (offset g) (mgr_ch g) (mgr_sr g) (mgr_bps g) (Some b) (wave_buf1 g).

Definition set_buf1 (g : adpcm_globals) (b : list Z) : adpcm_globals :=
  AdpcmGlobals (wave_timestamplen g) (wave_timestamp g) (refill_timestamp_len g)
    (block_align g) (offset g) (mgr_ch g) (mgr_sr g) (mgr_bps g) (wave_buf0 g) (Some b).

Definition set_offset (g : adpcm_globals) (o : Z) : adpcm_globals :=
  AdpcmGlobals (wave_timestamplen g) (wave_timestamp g) (refill_timestamp_len g)
    (block_align g) o (mgr_ch g) (mgr_sr g) (mgr_bps g) (wave_buf0 g) (wave_buf1 g).

(** ** [refill] *)

(** [(b0 << 24) | (b1 << 16) | (b2 << 8) | b3] converted to unsigned. *)
Definition be32 (l : list Z) : option Z :=
  match l with
  | [b0; b1; b2; b3] =>
      Some (u32 ((b0 .<< 24) .| (b1 .<< 16) .| (b2 .<< 8) .| b3))
  | _ => None
  end.

Definition TAG_APTS : list Z := [65; 80; 84; 83].
Definition TAG_RIFF : list Z := [82; 73; 70; 70].
Definition TAG_data : list Z := [100; 97; 116; 97].

(** The scan for "data" after a RIFF tag.  [tmp] is the C counter, tested for
    zero only, so it may run below zero; [inr] is [return -1]. *)
Fixpoint riff_scan (fuel : nat) (inbuf : list Z) (tmp : Z) (ctl : pcm_read_ctl)
    : option (pcm_read_ctl + pcm_read_ctl) :=
  match fuel with
  | O => None
  | S fuel' =>
      if tmp =? 0 then Some (inl ctl)
      else if ValidDataLen ctl <? 8 then Some (inr (set_used ctl 0))
      else
        '(_, ctl, t0) ← pcm_read inbuf ctl 1;
        let tmp := tmp - 1 in
        if bool_decide (t0 = [100]) then
          '(_, ctl, t123) ← pcm_read inbuf ctl 3;
          let tmp := tmp - 3 in
          if bool_decide (t0 ++ t123 = TAG_data) then Some (inl ctl)
          else riff_scan fuel' inbuf tmp ctl
        else riff_scan fuel' inbuf tmp ctl
  end.

Notation outcome := (option (Z * adpcm_globals * pcm_read_ctl)).

(** The final copy of [refill] into [pbuf = pwavebuf + pos]. *)
Definition refill_copy (inbuf : list Z) (g : adpcm_globals) (ctl : pcm_read_ctl)
    (pos len len_bak : Z) : outcome :=
  w ← wave_buf0 g;
  let '(n, ret) :=
    if negb (wave_timestamplen g =? 0)
    then (s32 (refill_timestamp_len g), s32 (refill_timestamp_len g))
    else (len, len_bak) in
  '(_, ctl, bytes) ← pcm_read inbuf ctl n;
  w ← ablit w pos bytes;
  Some (ret, set_buf0 g w, ctl).

(** The tag bytes stored at the head of the buffer: [*pbuf++ = tmp_a; ...]. *)
Definition store_tag (g : adpcm_globals) (tag : list Z) : option adpcm_globals :=
  w ← wave_buf0 g; w ← ablit w 0 tag; Some (set_buf0 g w).

Definition refill (codec : Z) (inbuf : list Z) (g : adpcm_globals)
    (ctl : pcm_read_ctl) (len : Z) : outcome :=
  if wave_timestamplen g =? 0 then
    if ValidDataLen ctl <? 4 then Some (-1, g, set_used ctl 0) else
    '(_, ctl, tag) ← pcm_read inbuf ctl 4;
    if bool_decide (tag = TAG_APTS) then
      if ValidDataLen ctl <? 8 then Some (-1, g, set_used ctl 0) else
      '(_, ctl, ts) ← pcm_read inbuf ctl 4;
      stamp ← be32 ts;
      '(_, ctl, bl) ← pcm_read inbuf ctl 4;
      blen ← be32 bl;
      let g := set_stamp g blen stamp blen in
      if u32 (ValidDataLen ctl) <? refill_timestamp_len g
      then Some (-1, g, set_used ctl 0)
      else refill_copy inbuf g ctl 0 len len
    else if bool_decide (tag = TAG_RIFF) then
      if (codec =? CODEC_ID_ADPCM_IMA_WAV) || (codec =? CODEC_ID_ADPCM_MS) then
        r ← riff_scan (S (Z.to_nat (ValidDataLen ctl))) inbuf len ctl;
        match r with
        | inr ctl => Some (-1, g, ctl)
        | inl ctl =>
            '(_, ctl, _) ← pcm_read inbuf ctl 4;
            let g := set_stamp g 0 0xffffffff (refill_timestamp_len g) in
            if ValidDataLen ctl <? len then Some (-1, g, ctl)
            else refill_copy inbuf g ctl 0 len len
        end
      else
        g ← store_tag g tag;
        let g := set_stamp g 0 0xffffffff (refill_timestamp_len g) in
        if ValidDataLen ctl <? len - 4 then Some (-1, g, set_used ctl 0)
        else refill_copy inbuf g ctl 4 (len - 4) len
    else
      g ← store_tag g tag;
      if ValidDataLen ctl <? len - 4 then Some (-1, g, set_used ctl 0)
      else
        let g := set_stamp g 0 0xffffffff (refill_timestamp_len g) in
        refill_copy inbuf g ctl 4 (len - 4) len
  else refill_copy inbuf g ctl 0 len len.

(** ** The decoders

    Each returns the C return value, the new statics and cursor, and the
    output buffer. *)
Notation run_result := (option (Z * adpcm_globals * pcm_read_ctl * list Z)).

(** Bytes of an array of [short]s, little endian. *)
Definition short_bytes (l : list Z) : list Z :=
  flat_map (fun v => [u16 v mod 256; u16 v / 256]) l.

(** [memcpy] of [2 * n] bytes of [pcm_buf] to [buf]. *)
Definition copy_pcm (buf pcm : list Z) (n : Z) : option (list Z) :=
  s ← asub pcm 0 n; ablit buf 0 (short_bytes s).

(** [for (i = 0; i < n; i++) pcm_buf[i] = f(pwavebuf[i])] *)
Definition expand (f : Z -> Z) (wave : list Z) (n : Z) (pcm : list Z)
    : option (list Z) :=
  for_range 0 n (fun i pcm => b ← aget wave i; aset pcm i (s16 (f b))) pcm.

Definition run_g711 (f : Z -> Z) (codec : Z) (inbuf : list Z) (g : adpcm_globals)
    (ctl : pcm_read_ctl) (buf : list Z) : run_result :=
  '(tmp, g, ctl) ← refill codec inbuf g ctl WAVE_BLOCK_SIZE;
  if tmp <? 0 then Some (-1, g, ctl, buf) else
  wave ← wave_buf0 g;
  pcm ← wave_buf1 g;
  pcm ← expand f wave tmp pcm;
  buf ← copy_pcm buf pcm WAVE_BLOCK_SIZE;
  Some (WAVE_BLOCK_SIZE * 2, set_buf1 g pcm, ctl, buf).

Definition runalawdecoder := run_g711 alaw2linear.
Definition runulawdecoder := run_g711 ulaw2linear.

Section Decoder.
Variable char_signed : bool.

(** The search for the sync word 11 22 33 44 and the 16-bit block size that
    follows it; [inr] is [return -1]. *)
Fixpoint find_sync (fuel : nat) (inbuf : list Z) (ctl : pcm_read_ctl)
    (window : list Z) : option (pcm_read_ctl + pcm_read_ctl) :=
  match fuel with
  | O => None
  | S fuel' =>
      if bool_decide (window = [0x11; 0x22; 0x33; 0x44]) then Some (inl ctl)
      else if ValidDataLen ctl <? 1
      then Some (inr (set_used ctl (UsedDataLen ctl - 3)))
      else
        '(_, ctl, b) ← pcm_read inbuf ctl 1;
        find_sync fuel' inbuf ctl (drop 1 window ++ b)
  end.

(** The block size to decode, from the framing or from [block_align]. *)
Definition block_header (inbuf : list Z) (g : adpcm_globals) (ctl : pcm_read_ctl)
    : option ((Z * pcm_read_ctl) + pcm_read_ctl) :=
  if block_align g =? 0 then
    if ValidDataLen ctl <? 4 then Some (inr (set_used ctl 0)) else
    '(_, ctl, window) ← pcm_read inbuf ctl 4;
    r ← find_sync (S (Z.to_nat (ValidDataLen ctl))) inbuf ctl window;
    match r with
    | inr ctl => Some (inr ctl)
    | inl ctl =>
        if ValidDataLen ctl <? 2
        then Some (inr (set_used ctl (UsedDataLen ctl - 4))) else
        '(_, ctl, sz) ← pcm_read inbuf ctl 2;
        b0 ← cget char_signed sz 0; b1 ← cget char_signed sz 1;
        let block_size := u32 ((b0 .<< 8) .| b1) in
        if u32 (ValidDataLen ctl) <? block_size
        then Some (inr (set_used ctl (UsedDataLen ctl - 6)))
        else Some (inl (block_size, ctl))
    end
  else
    let block_size := u32 (block_align g) in
    if u32 (ValidDataLen ctl) <? block_size
    then Some (inr (set_used ctl 0))
    else Some (inl (block_size, ctl)).

Definition runimaadpcmdecoder (codec : Z) (inbuf : list Z) (g : adpcm_globals)
    (ctl : pcm_read_ctl) (buf : list Z) : run_result :=
  h ← block_header inbuf g ctl;
  match h with
  | inr ctl => Some (-1, g, ctl, buf)
  | inl (block_size, ctl) =>
      if block_size <? 4 then Some (0, g, ctl, buf) else
      let UsedDataLenSave := UsedDataLen ctl in
      '(tmp, g, ctl) ← refill codec inbuf g ctl (s32 block_size);
      if tmp <? 0 then Some (-1, g, set_used ctl UsedDataLenSave, buf) else
      let samples := (block_align g - 4 * mgr_ch g) * 2 + mgr_ch g in
      wave ← wave_buf0 g;
      pcm ← wave_buf1 g;
      '(_, pcm) ← adpcmdec_decode_ima_block char_signed (mgr_ch g) samples wave pcm;
      buf ← copy_pcm buf pcm samples;
      Some (samples * 2, set_buf1 g pcm, ctl, buf)
  end.

(** [tmp] is [unsigned] here: the test [tmp < 0] is never true. *)
Definition runmsadpcmdecoder (codec : Z) (inbuf : list Z) (g : adpcm_globals)
    (ctl : pcm_read_ctl) (buf : list Z) : run_result :=
  h ← block_header inbuf g ctl;
  match h with
  | inr ctl => Some (-1, g, ctl, buf)
  | inl (block_size, ctl) =>
      if block_size <? 4 then Some (0, g, ctl, buf) else
      let UsedDataLenSave := UsedDataLen ctl in
      '(tmp, g, ctl) ← refill codec inbuf g ctl (s32 block_size);
      if u32 tmp <? 0 then Some (-1, g, set_used ctl UsedDataLenSave, buf) else
      wave ← wave_buf0 g;
      pcm ← wave_buf1 g;
      '(out, pcm) ← ms_adpcm_decode_block pcm wave (mgr_ch g) (s32 block_size);
      if mgr_ch g =? 0 then None else
      let out := out - Z.rem out (mgr_ch g) in
      buf ← copy_pcm buf pcm out;
      Some (out * 2, set_buf1 g pcm, ctl, buf)
  end.

(** Four samples per iteration of the U8 loop. *)
Definition pcm_u8 (wave : list Z) (i : Z) (pcm : list Z) : option (list Z) :=
  for_range i (i + 4) (fun i pcm =>
    b ← aget wave i; aset pcm i (s16 ((b - 0x80) .<< 8))) pcm.

(** The output buffer is an argument of the C function that it never uses. *)
Definition runpcmdecoder (codec : Z) (inbuf : list Z) (g : adpcm_globals)
    (ctl : pcm_read_ctl) (buf : list Z) : run_result :=
  let g := set_offset g 0 in
  if mgr_bps g =? SAMPLE_FMT_U8 then
    '(tmp, g, ctl) ← refill codec inbuf g ctl WAVE_BLOCK_SIZE;
    if tmp <? 0 then Some (-1, g, ctl, buf) else
    wave ← wave_buf0 g;
    pcm ← wave_buf1 g;
    '(_, pcm) ← while_loop (S (Z.to_nat tmp)) (fun '(i, _) => i <? tmp)
      (fun '(i, pcm) => pcm ← pcm_u8 wave i pcm; Some (i + 4, pcm)) (0, pcm);
    Some (WAVE_BLOCK_SIZE * 2, set_buf1 g pcm, ctl, buf)
  else
    '(tmp, g, ctl) ← refill codec inbuf g ctl WAVE_BLOCK_SIZE;
    if tmp <? 0 then Some (-1, g, ctl, buf)
    else Some ((WAVE_BLOCK_SIZE .>> 1) * 2, g, ctl, buf).

Definition adpcm_decode_frame (codec : Z) (inbuf : list Z) (g : adpcm_globals)
    (ctl : pcm_read_ctl) (buf : list Z) : run_result :=
  if codec =? CODEC_ID_PCM_ALAW then runalawdecoder codec inbuf g ctl buf
  else if codec =? CODEC_ID_PCM_MULAW then runulawdecoder codec inbuf g ctl buf
  else if codec =? CODEC_ID_ADPCM_IMA_WAV then runimaadpcmdecoder codec inbuf g ctl buf
  else if codec =? CODEC_ID_ADPCM_MS then runmsadpcmdecoder codec inbuf g ctl buf
  else runpcmdecoder codec inbuf g ctl buf.

(** Returns ([UsedDataLen], [*outlen], statics, output buffer). *)
Definition audio_dec_decode (codec : Z) (g : adpcm_globals) (outbuf inbuf : list Z)
    (inlen : Z) : option (Z * Z * adpcm_globals * list Z) :=
  '(outlen, g, ctl, outbuf) ←
    adpcm_decode_frame codec inbuf g (pcm_read_init inlen) outbuf;
  Some (UsedDataLen ctl, outlen, g, outbuf).
End Decoder.

(** ** Initialisation and release

    [m0] and [m1] are what the two [malloc] calls return: [None] for NULL, or
    a fresh buffer with arbitrary contents. *)
Definition audio_dec_init (g : adpcm_globals) (channels samplerate block_size : Z)
    (m0 m1 : option (list Z)) : Z * adpcm_globals :=
  match m0 with
  | None => (-1, AdpcmGlobals (wave_timestamplen g) (wave_timestamp g)
      (refill_timestamp_len g) (block_align g) (offset g) (mgr_ch g) (mgr_sr g)
      (mgr_bps g) None (wave_buf1 g))
  | Some w0 =>
      match m1 with
      | None => (-1, AdpcmGlobals (wave_timestamplen g) (wave_timestamp g)
          (refill_timestamp_len g) (block_align g) (offset g) (mgr_ch g) (mgr_sr g)
          (mgr_bps g) (Some w0) None)
      | Some w1 => (0, AdpcmGlobals 0 (wave_timestamp g) (refill_timestamp_len g)
          (s32 block_size) (offset g) channels samplerate SAMPLE_FMT_S16
          (Some w0) (Some w1))
      end
  end.

Definition audio_dec_release (g : adpcm_globals) : Z * adpcm_globals :=
  (0, AdpcmGlobals (wave_timestamplen g) (wave_timestamp g) (refill_timestamp_len g)
        (block_align g) (offset g) (mgr_ch g) (mgr_sr g) (mgr_bps g) None None).

(** ** Well-formed decoder states *)

(** The buffers [audio_dec_init] allocates, and a block length left by an
    earlier APTS header that fits the stream buffer. *)
Record adpcm_wf (g : adpcm_globals) : Prop := AdpcmWf {
  wf_buf0 : exists w, wave_buf0 g = Some w /\ zlen w = WAVE_BLOCK_SIZE;
  wf_buf1 : exists p, wave_buf1 g = Some p /\ zlen p = 2 * WAVE_BLOCK_SIZE;
  wf_stamp : wave_timestamplen g = 0 \/
    (wave_timestamplen g = refill_timestamp_len g /\
     0 <= refill_timestamp_len g <= WAVE_BLOCK_SIZE)
}.

(** A cursor inside its buffer. *)
Definition ctl_ok (inbuf : list Z) (ctl : pcm_read_ctl) : Prop :=
  0 <= pcur ctl /\ 0 <= ValidDataLen ctl < 2 ^ 31 /\
  pcur ctl + ValidDataLen ctl = zlen inbuf /\ UsedDataLen ctl = pcur ctl.

(** The four bytes at the cursor. *)
Definition tag_at (inbuf : list Z) (pos : Z) : list Z := take 4 (drop (Z.to_nat pos) inbuf).

(** The block length an APTS header at the cursor declares. *)
Definition apts_len (inbuf : list Z) (pos : Z) : Z :=
  default 0 (be32 (take 4 (drop (Z.to_nat (pos + 8)) inbuf))).

Lemma pcm_read_spec inbuf ctl n : ctl_ok inbuf ctl -> 0 <= n <= ValidDataLen ctl ->
  exists ctl', pcm_read inbuf ctl n
    = Some (n, ctl', take (Z.to_nat n) (drop (Z.to_nat (pcur ctl)) inbuf)) /\
    ctl_ok inbuf ctl' /\ pcur ctl' = pcur ctl + n /\
    ValidDataLen ctl' = ValidDataLen ctl - n.
Proof.
  intros (?&?&?&?) Hn. unfold pcm_read.
  rewrite (proj2 (Z.leb_le n _)), asub_Some by lia. simpl.
  eexists. split; [done|]. simpl. split; [|done]. repeat split; simpl; lia.
Qed.

Lemma be32_bytes_range l v : be32 l = Some v -> 0 <= v < 2 ^ 32.
Proof.
  destruct l as [|? [|? [|? [|? [|]]]]]; simpl; try done. intros [= <-].
  by apply wrapu_range.
Qed.

Lemma take_drop_length (l : list Z) p n :
  0 <= p -> 0 <= n -> p + n <= zlen l -> zlen (take (Z.to_nat n) (drop (Z.to_nat p) l)) = n.
Proof. intros. rewrite length_take, length_drop. lia. Qed.

Lemma be32_four l : length l = 4%nat -> exists v, be32 l = Some v.
Proof. destruct l as [|? [|? [|? [|? [|]]]]]; simpl; try done. eauto. Qed.

(** [refill_copy] never leaves the stream buffer when the length fits, and
    copies nothing when the input is exhausted. *)
Lemma refill_copy_total inbuf g ctl pos len len_bak w :
  ctl_ok inbuf ctl -> wave_buf0 g = Some w -> 0 <= pos -> 0 <= len ->
  pos + len <= zlen w ->
  (wave_timestamplen g = 0 \/
   (0 <= refill_timestamp_len g < 2 ^ 31 /\ pos + refill_timestamp_len g <= zlen w)) ->
  exists w' ctl', refill_copy inbuf g ctl pos len len_bak
    = Some ((if wave_timestamplen g =? 0 then len_bak else refill_timestamp_len g),
            set_buf0 g w', ctl') /\
    length w' = length w /\ ctl_ok inbuf ctl'.
Proof.
  intros Hok Hw Hpos Hlen Hfit Hst.
  assert (forall n, 0 <= n -> pos + n <= zlen w -> exists w' ctl' r bytes,
    pcm_read inbuf ctl n = Some (r, ctl', bytes) /\ ablit w pos bytes = Some w' /\
    length w' = length w /\ ctl_ok inbuf ctl') as Hread.
  { intros n Hn Hn'. destruct (decide (n <= ValidDataLen ctl)).
    - destruct (pcm_read_spec inbuf ctl n Hok) as (ctl'&E&Hok'&_); [done|].
      pose proof Hok as (?&?&?&?).
      eexists _, ctl', n, _. split; [exact E|]. rewrite ablit_Some.
      + split; [done|]. split; [|done].
        rewrite !length_app, length_take, !length_drop, length_take, length_drop. lia.
      + done.
      + rewrite take_drop_length by lia. lia.
    - exists w, ctl, 0, []. unfold pcm_read. rewrite (proj2 (Z.leb_gt n _)) by lia.
      split; [done|]. rewrite ablit_Some by (simpl; lia).
      split; [|done]. f_equal. simpl. rewrite Nat.add_0_r. apply take_drop. }
  unfold refill_copy. rewrite Hw. simpl.
  destruct (Z.eqb_spec (wave_timestamplen g) 0) as [E0|E0]; simpl.
  - destruct (Hread len) as (w'&ctl'&r&bytes&E&Ew&?&?); [done|done|].
    rewrite E. simpl. rewrite Ew. simpl. eauto 10.
  - destruct Hst as [|[Hr1 Hr2]]; [done|].
    rewrite wraps_small by (change (2 ^ (32 - 1)) with (2 ^ 31); lia).
    destruct (Hread (refill_timestamp_len g)) as (w'&ctl'&r&bytes&E&Ew&?&?); [lia|done|].
    rewrite E. simpl. rewrite Ew. simpl. eauto 10.
Qed.

Definition used_ok (inbuf : list Z) (ctl : pcm_read_ctl) : Prop :=
  0 <= UsedDataLen ctl <= zlen inbuf.

Lemma ctl_ok_used inbuf ctl : ctl_ok inbuf ctl -> used_ok inbuf ctl.
Proof. intros (?&?&?&?). unfold used_ok. lia. Qed.

Lemma wf_set_buf0 g w w' : adpcm_wf g -> wave_buf0 g = Some w -> length w' = length w ->
  adpcm_wf (set_buf0 g w').
Proof.
  intros [(w0&E&?) ? ?] Hw Hl. rewrite Hw in E. injection E as ->.
  split; simpl; [|done|done]. exists w'. split; [done|lia].
Qed.

Lemma wf_set_stamp g n s r : adpcm_wf g -> n = 0 \/ (n = r /\ 0 <= r <= WAVE_BLOCK_SIZE) ->
  adpcm_wf (set_stamp g n s r).
Proof. intros [? ? ?] ?. by split. Qed.

Lemma wf_set_buf1 g p : adpcm_wf g -> zlen p = 2 * WAVE_BLOCK_SIZE -> adpcm_wf (set_buf1 g p).
Proof. intros [? ? ?] ?. split; simpl; [done|eauto|done]. Qed.

#[export] Hint Resolve wf_set_buf1 ctl_ok_used : crules.

(** [refill_copy] on a well-formed state. *)
Lemma refill_copy_wf inbuf g ctl pos len_bak :
  adpcm_wf g -> ctl_ok inbuf ctl -> 0 <= pos <= WAVE_BLOCK_SIZE ->
  (pos = 0 \/ wave_timestamplen g = 0) -> 0 <= len_bak <= WAVE_BLOCK_SIZE ->
  exists ret g' ctl',
    refill_copy inbuf g ctl pos (WAVE_BLOCK_SIZE - pos) len_bak = Some (ret, g', ctl') /\
    adpcm_wf g' /\ used_ok inbuf ctl' /\ 0 <= ret <= WAVE_BLOCK_SIZE.
Proof.
  intros Hwf Hok Hpos Hz Hbak. pose proof Hwf as [(w&Ew&Hw) _ Hst].
  destruct (refill_copy_total inbuf g ctl pos (WAVE_BLOCK_SIZE - pos) len_bak w)
    as (w'&ctl'&E&Hl&Hok'); unfold WAVE_BLOCK_SIZE in *; [done|done|lia|lia|lia|lia|].
  eexists _, _, _. split; [exact E|]. split; [by eapply wf_set_buf0|].
  split; [by apply ctl_ok_used|]. case_test; zbool; lia.
Qed.

Lemma store_tag_wf g tag : adpcm_wf g -> length tag = 4%nat ->
  exists g', store_tag g tag = Some g' /\ adpcm_wf g' /\
    wave_timestamplen g' = wave_timestamplen g /\
    refill_timestamp_len g' = refill_timestamp_len g.
Proof.
  intros Hwf Hl. pose proof Hwf as [(w&Ew&Hw) _ _]. unfold store_tag. rewrite Ew. simpl.
  unfold WAVE_BLOCK_SIZE in *. rewrite ablit_Some by lia. simpl. eexists. split; [done|].
  split; [|done]. eapply wf_set_buf0; [done..|].
  rewrite !length_app, !length_drop. simpl. lia.
Qed.

(** [refill] outside of the two ADPCM formats. *)
Lemma refill_total codec inbuf g ctl :
  codec <> CODEC_ID_ADPCM_IMA_WAV -> codec <> CODEC_ID_ADPCM_MS ->
  adpcm_wf g -> ctl_ok inbuf ctl ->
  (tag_at inbuf (pcur ctl) = TAG_APTS -> apts_len inbuf (pcur ctl) <= WAVE_BLOCK_SIZE) ->
  exists ret g' ctl', refill codec inbuf g ctl WAVE_BLOCK_SIZE = Some (ret, g', ctl') /\
    adpcm_wf g' /\ used_ok inbuf ctl' /\ -1 <= ret <= WAVE_BLOCK_SIZE.
Proof.
  intros Hc1 Hc2 Hwf Hok Hapts. unfold refill.
  pose proof Hok as (?&?&?&?).
  assert (forall g' ctl' v, adpcm_wf g' -> v = 0 -> exists ret g'' ctl'',
    Some (-1, g', set_used ctl' v) = Some (ret, g'', ctl'') /\ adpcm_wf g'' /\
    used_ok inbuf ctl'' /\ -1 <= ret <= WAVE_BLOCK_SIZE) as Hfail.
  { intros g' ctl' v ? ->. eexists _, _, _. split; [done|]. split; [done|].
    unfold used_ok, WAVE_BLOCK_SIZE. simpl. lia. }
  assert (forall g' ctl' pos lb, adpcm_wf g' -> ctl_ok inbuf ctl' ->
    0 <= pos <= WAVE_BLOCK_SIZE -> (pos = 0 \/ wave_timestamplen g' = 0) ->
    lb = WAVE_BLOCK_SIZE -> exists ret g'' ctl'',
    refill_copy inbuf g' ctl' pos (WAVE_BLOCK_SIZE - pos) lb = Some (ret, g'', ctl'') /\
    adpcm_wf g'' /\ used_ok inbuf ctl'' /\ -1 <= ret <= WAVE_BLOCK_SIZE) as Hcopy.
  { intros g' ctl' pos lb ???? ->.
    destruct (refill_copy_wf inbuf g' ctl' pos WAVE_BLOCK_SIZE)
      as (r&g''&ctl''&E&?&?&?); [done..|unfold WAVE_BLOCK_SIZE; lia|].
    eexists _, _, _. split; [exact E|]. split; [done|]. split; [done|lia]. }
  destruct (Z.eqb_spec (wave_timestamplen g) 0) as [Ez|Ez].
  2: { apply (Hcopy g ctl 0 WAVE_BLOCK_SIZE); auto. unfold WAVE_BLOCK_SIZE; lia. }
  destruct (Z.ltb_spec (ValidDataLen ctl) 4); [by apply Hfail|].
  destruct (pcm_read_spec inbuf ctl 4 Hok) as (ctl1&E1&Hok1&Hp1&Hv1); [lia|].
  rewrite E1. simpl. change (Z.to_nat 4) with 4%nat. fold (tag_at inbuf (pcur ctl)).
  assert (length (tag_at inbuf (pcur ctl)) = 4%nat) as Htag.
  { unfold tag_at. rewrite length_take, length_drop. lia. }
  case_bool_decide as Ha.
  { destruct (Z.ltb_spec (ValidDataLen ctl1) 8); [by apply Hfail|].
    destruct (pcm_read_spec inbuf ctl1 4 Hok1) as (ctl2&E2&Hok2&Hp2&Hv2); [lia|].
    rewrite E2. simpl.
    destruct (be32_four (take (Z.to_nat 4) (drop (Z.to_nat (pcur ctl1)) inbuf))) as [st Est].
    { rewrite length_take, length_drop. lia. }
    rewrite Est. simpl.
    destruct (pcm_read_spec inbuf ctl2 4 Hok2) as (ctl3&E3&Hok3&Hp3&Hv3); [lia|].
    rewrite E3. simpl.
    destruct (be32_four (take (Z.to_nat 4) (drop (Z.to_nat (pcur ctl2)) inbuf))) as [bl Ebl].
    { rewrite length_take, length_drop. lia. }
    rewrite Ebl. simpl. specialize (Hapts Ha). unfold apts_len in Hapts.
    replace (pcur ctl + 8) with (pcur ctl2) in Hapts by lia.
    change (Z.to_nat 4) with 4%nat in *. rewrite Ebl in Hapts. simpl in Hapts.
    pose proof (be32_bytes_range _ _ Ebl).
    assert (adpcm_wf (set_stamp g bl st bl)) by (apply wf_set_stamp; [done|lia]).
    case_test; [by apply Hfail|].
    apply (Hcopy _ ctl3 0 WAVE_BLOCK_SIZE); auto. unfold WAVE_BLOCK_SIZE. lia. }
  destruct (store_tag_wf g (tag_at inbuf (pcur ctl)) Hwf Htag) as (g1&Eg&Hwf1&Ht1&Hr1).
  assert (adpcm_wf (set_stamp g1 0 4294967295 (refill_timestamp_len g1))) as Hwf2.
  { apply wf_set_stamp; [done|by left]. }
  pose proof (Hcopy (set_stamp g1 0 4294967295 (refill_timestamp_len g1)) ctl1 4
    WAVE_BLOCK_SIZE Hwf2 Hok1 ltac:(unfold WAVE_BLOCK_SIZE; lia) ltac:(by right) eq_refl)
    as Hcopy4.
  case_bool_decide.
  - rewrite (proj2 (Z.eqb_neq codec _) Hc1), (proj2 (Z.eqb_neq codec _) Hc2). simpl.
    rewrite Eg. simpl. case_test; [by apply Hfail|]. exact Hcopy4.
  - rewrite Eg. simpl. case_test; [by apply Hfail|]. exact Hcopy4.
Qed.

(** ** The expansion loop and the final copy *)

Lemma expand_spec f wave n pcm : 0 <= n -> n <= zlen wave -> n <= zlen pcm ->
  expand f wave n pcm =
  Some (map (fun b => s16 (f b)) (take (Z.to_nat n) wave) ++ drop (Z.to_nat n) pcm).
Proof.
  intros H0 Hw Hp. unfold expand.
  destruct (for_range_inv (fun i s =>
      s = map (fun b => s16 (f b)) (take (Z.to_nat i) wave) ++ drop (Z.to_nat i) pcm) 0 n
    (fun i pcm => b ← aget wave i; aset pcm i (s16 (f b))) pcm) as (s'&E&->);
    [done|done| |done].
  intros i s Hi ->. destruct (aget_Some wave i) as [b Eb]; [lia|].
  rewrite Eb. simpl. rewrite aset_fill.
  - eexists. split; [done|].
    rewrite (take_succ_lookup wave i b) by (done || lia). by rewrite map_app.
  - rewrite length_map, length_take. lia.
  - lia.
Qed.

Lemma short_bytes_length l : zlen (short_bytes l) = 2 * zlen l.
Proof. induction l as [|v l IH]; simpl in *; [done|]. unfold short_bytes in *. simpl. lia. Qed.

Lemma copy_pcm_spec buf pcm n : 0 <= n <= zlen pcm -> 2 * n <= zlen buf ->
  copy_pcm buf pcm n =
  Some (short_bytes (take (Z.to_nat n) pcm) ++ drop (Z.to_nat (2 * n)) buf).
Proof.
  intros Hn Hb. unfold copy_pcm. rewrite asub_Some by lia. simpl.
  assert (zlen (short_bytes (take (Z.to_nat n) pcm)) = 2 * n) as Hl.
  { rewrite short_bytes_length, length_take. lia. }
  change (drop (Z.to_nat 0) pcm) with pcm.
  rewrite ablit_0 by lia. do 3 f_equal. lia.
Qed.

(** [run_g711] on a well-formed state never fails with undefined behaviour. *)
Lemma run_g711_total f codec inbuf g ctl buf :
  codec <> CODEC_ID_ADPCM_IMA_WAV -> codec <> CODEC_ID_ADPCM_MS ->
  adpcm_wf g -> ctl_ok inbuf ctl -> 2 * WAVE_BLOCK_SIZE <= zlen buf ->
  (tag_at inbuf (pcur ctl) = TAG_APTS -> apts_len inbuf (pcur ctl) <= WAVE_BLOCK_SIZE) ->
  exists ret g' ctl' buf', run_g711 f codec inbuf g ctl buf = Some (ret, g', ctl', buf') /\
    adpcm_wf g' /\ used_ok inbuf ctl' /\ (ret = -1 \/ ret = 2 * WAVE_BLOCK_SIZE) /\
    length buf' = length buf.
Proof.
  intros Hc1 Hc2 Hwf Hok Hbuf Hapts.
  destruct (refill_total codec inbuf g ctl) as (ret&g1&ctl1&E&Hwf1&Hu&Hr); [done..|].
  unfold run_g711. rewrite E. simpl.
  destruct (Z.ltb_spec ret 0); [by eauto 10|].
  pose proof Hwf1 as [(w&Ew&Hw) (p&Ep&Hp) _]. rewrite Ew, Ep. simpl.
  unfold WAVE_BLOCK_SIZE in *.
  rewrite expand_spec by lia. simpl.
  rewrite copy_pcm_spec by (rewrite ?length_app, ?length_map, ?length_take, ?length_drop; lia).
  simpl. eexists _, _, _, _. split; [done|].
  split; [apply wf_set_buf1; [done|];
    rewrite length_app, length_map, length_take, length_drop; unfold WAVE_BLOCK_SIZE; lia|].
  split; [done|]. split; [by right|].
  pose proof (short_bytes_length (take (Z.to_nat 2048)
    (map (λ b : Z, s16 (f b)) (take (Z.to_nat ret) w) ++ drop (Z.to_nat ret) p))) as Hsb.
  rewrite length_take, length_app, length_map, length_take, length_drop in Hsb.
  rewrite length_app, length_drop. lia.
Qed.

(** ** Reachable states *)

(** States of a decoder of the type [codec]: an [audio_dec_init] whose two
    allocations succeeded, then any calls of [audio_dec_decode] whose APTS
    header, if there is one, declares a block that fits the stream buffer. *)
Definition input_ok (inbuf : list Z) : Prop :=
  zlen inbuf < 2 ^ 31 /\
  (tag_at inbuf 0 = TAG_APTS -> apts_len inbuf 0 <= WAVE_BLOCK_SIZE).

Inductive adpcm_reach (char_signed : bool) (codec : Z) : adpcm_globals -> Prop :=
  | reach_init g channels samplerate block_size w0 w1 :
      zlen w0 = WAVE_BLOCK_SIZE -> zlen w1 = 2 * WAVE_BLOCK_SIZE ->
      adpcm_reach char_signed codec
        (audio_dec_init g channels samplerate block_size (Some w0) (Some w1)).2
  | reach_decode g outbuf inbuf used outlen g' outbuf' :
      adpcm_reach char_signed codec g -> input_ok inbuf ->
      2 * WAVE_BLOCK_SIZE <= zlen outbuf ->
      audio_dec_decode char_signed codec g outbuf inbuf (zlen inbuf)
        = Some (used, outlen, g', outbuf') ->
      adpcm_reach char_signed codec g'.

Lemma read_init_ok inbuf : zlen inbuf < 2 ^ 31 ->
  ctl_ok inbuf (pcm_read_init (zlen inbuf)).
Proof. intros. repeat split; simpl; lia. Qed.

(** Four samples of the U8 loop. *)
Lemma pcm_u8_spec wave i pcm : 0 <= i -> i + 4 <= zlen wave -> i + 4 <= zlen pcm ->
  exists pcm', pcm_u8 wave i pcm = Some pcm' /\ length pcm' = length pcm.
Proof.
  intros. unfold pcm_u8.
  destruct (for_range_inv (fun _ p => length p = length pcm) i (i + 4)
    (fun i pcm => b ← aget wave i; aset pcm i (s16 ((b - 0x80) .<< 8))) pcm)
    as (p&E&Hp); [lia|done| |by eauto].
  intros j p Hj Hl. destruct (aget_Some wave j) as [b Eb]; [lia|].
  rewrite Eb. simpl. rewrite aset_Some by lia. eexists. split; [done|].
  by rewrite length_insert.
Qed.

(** The loop steps by four: with at most 2048 bytes it ends inside the
    buffers, even when the count is not a multiple of four. *)
Lemma pcm_u8_loop wave n pcm : n <= WAVE_BLOCK_SIZE -> zlen wave = WAVE_BLOCK_SIZE ->
  zlen pcm = 2 * WAVE_BLOCK_SIZE ->
  exists i pcm', while_loop (S (Z.to_nat n)) (fun '(i, _) => i <? n)
    (fun '(i, pcm) => pcm ← pcm_u8 wave i pcm; Some (i + 4, pcm)) (0, pcm)
    = Some (i, pcm') /\ length pcm' = length pcm.
Proof.
  unfold WAVE_BLOCK_SIZE. intros Hn Hw Hp.
  destruct (decide (0 < n)).
  2: { rewrite while_loop_S, (proj2 (Z.ltb_ge 0 n)) by lia. eauto. }
  rewrite while_loop_S, (proj2 (Z.ltb_lt 0 n)) by lia.
  destruct (pcm_u8_spec wave 0 pcm) as (p1&E1&Hp1); [lia..|].
  rewrite E1. simpl.
  edestruct (while_loop_inv (fun '(i, p) => 0 <= i /\ i mod 4 = 0 /\ length p = length pcm)
    (fun '(i, _) => n - 1 - i) (Z.to_nat n)
    (fun '(i, _) => i <? n)
    (fun '(i, pcm) => pcm ← pcm_u8 wave i pcm; Some (i + 4, pcm)) (4, p1))
    as ([i p]&E&(?&?&?)&_); [split_and!; done || lia|lia| |lia|].
  - intros [j p] (?&?&?) Hc. zbool. split; [lia|].
    destruct (pcm_u8_spec wave j p) as (p'&E'&Hp'); [zdiv..|].
    rewrite E'. simpl. eexists. split; [done|]. simpl. split_and!; zdiv || lia.
  - exists i, p. split; [exact E|done].
Qed.

(** [runpcmdecoder] on a well-formed state. *)
Lemma runpcmdecoder_total codec inbuf g ctl buf :
  codec <> CODEC_ID_ADPCM_IMA_WAV -> codec <> CODEC_ID_ADPCM_MS ->
  adpcm_wf g -> ctl_ok inbuf ctl ->
  (tag_at inbuf (pcur ctl) = TAG_APTS -> apts_len inbuf (pcur ctl) <= WAVE_BLOCK_SIZE) ->
  exists ret g' ctl', runpcmdecoder codec inbuf g ctl buf = Some (ret, g', ctl', buf) /\
    adpcm_wf g' /\ used_ok inbuf ctl' /\
    (ret = -1 \/ ret = WAVE_BLOCK_SIZE \/ ret = 2 * WAVE_BLOCK_SIZE).
Proof.
  intros Hc1 Hc2 Hwf Hok Hapts. unfold runpcmdecoder.
  assert (adpcm_wf (set_offset g 0)) as Hwf0 by (destruct Hwf; by split).
  destruct (refill_total codec inbuf (set_offset g 0) ctl)
    as (ret&g1&ctl1&E&Hwf1&Hu&Hr); [done..|]. rewrite E. simpl.
  destruct (mgr_bps g =? SAMPLE_FMT_U8); simpl.
  2: { case_test; eexists _, _, _; (split; [done|]); split_and!; auto. }
  case_test; zbool; [eauto 10|].
  pose proof Hwf1 as [(w&Ew&Hw) (p&Ep&Hp) _]. rewrite Ew, Ep. simpl.
  destruct (pcm_u8_loop w ret p) as (i&p'&Ep'&Hl); [lia|done|done|].
  rewrite Ep'. simpl. eexists _, _, _. split; [done|].
  split; [|split; [done|unfold WAVE_BLOCK_SIZE; lia]].
  apply wf_set_buf1; [done|]. lia.
Qed.

Section Run.
Variables (char_signed : bool) (codec : Z).
Hypothesis Hima : codec <> CODEC_ID_ADPCM_IMA_WAV.
Hypothesis Hms : codec <> CODEC_ID_ADPCM_MS.

Lemma decode_wf g outbuf inbuf : adpcm_wf g -> input_ok inbuf ->
  2 * WAVE_BLOCK_SIZE <= zlen outbuf ->
  exists used outlen g' outbuf',
    audio_dec_decode char_signed codec g outbuf inbuf (zlen inbuf)
      = Some (used, outlen, g', outbuf') /\ adpcm_wf g' /\
    0 <= used <= zlen inbuf /\ length outbuf' = length outbuf /\
    (outlen = -1 \/ outlen = WAVE_BLOCK_SIZE \/ outlen = 2 * WAVE_BLOCK_SIZE).
Proof.
  intros Hwf [Hlen Ha] Hout. pose proof (read_init_ok inbuf Hlen) as Hok.
  unfold audio_dec_decode, adpcm_decode_frame, runalawdecoder, runulawdecoder.
  rewrite (proj2 (Z.eqb_neq codec _) Hima), (proj2 (Z.eqb_neq codec _) Hms).
  assert (forall f, exists used outlen g' outbuf',
    ('(outlen, g, ctl, outbuf) ← run_g711 f codec inbuf g
       (pcm_read_init (zlen inbuf)) outbuf;
     Some (UsedDataLen ctl, outlen, g, outbuf)) = Some (used, outlen, g', outbuf') /\
    adpcm_wf g' /\ 0 <= used <= zlen inbuf /\ length outbuf' = length outbuf /\
    (outlen = -1 \/ outlen = WAVE_BLOCK_SIZE \/ outlen = 2 * WAVE_BLOCK_SIZE)) as Hg711.
  { intros f. destruct (run_g711_total f codec inbuf g (pcm_read_init (zlen inbuf)) outbuf)
      as (r&g'&ctl'&b'&E&?&?&?&?); [done..|].
    rewrite E. simpl. eexists _, _, _, _. split; [done|]. split_and!; try done; [apply H0..|].
    tauto. }
  destruct (codec =? CODEC_ID_PCM_ALAW); [apply Hg711|].
  destruct (codec =? CODEC_ID_PCM_MULAW); [apply Hg711|].
  destruct (runpcmdecoder_total codec inbuf g (pcm_read_init (zlen inbuf)) outbuf)
    as (r&g'&ctl'&E&?&?&?); [done..|].
  rewrite E. simpl. eexists _, _, _, _. split; [done|]. split_and!; try done; apply H0.
Qed.

Lemma reach_wf g : adpcm_reach char_signed codec g -> adpcm_wf g.
Proof.
  induction 1 as [g ch sr bs w0 w1 H0 H1|g out inb u o g' out' Hr IH Hin Hout E].
  - split; simpl; eauto.
  - destruct (decode_wf g out inb) as (?&?&?&?&E'&?&_); [done..|].
    rewrite E in E'. by simplify_eq.
Qed.
End Run.

(** [refill] of a block without an APTS header: the [n] bytes at the head of
    the input replace the head of the stream buffer. *)
Lemma refill_plain codec inbuf g n w :
  codec <> CODEC_ID_ADPCM_IMA_WAV /\ codec <> CODEC_ID_ADPCM_MS \/
    tag_at inbuf 0 <> TAG_RIFF ->
  adpcm_wf g -> wave_timestamplen g = 0 -> 4 <= n <= WAVE_BLOCK_SIZE ->
  n <= zlen inbuf < 2 ^ 31 -> tag_at inbuf 0 <> TAG_APTS -> wave_buf0 g = Some w ->
  exists g' ctl', refill codec inbuf g (pcm_read_init (zlen inbuf)) n = Some (n, g', ctl') /\
    adpcm_wf g' /\ wave_timestamplen g' = 0 /\ block_align g' = block_align g /\
    mgr_ch g' = mgr_ch g /\ wave_buf1 g' = wave_buf1 g /\
    wave_buf0 g' = Some (take (Z.to_nat n) inbuf ++ drop (Z.to_nat n) w) /\
    UsedDataLen ctl' = n.
Proof.
  intros Hc Hwf Hz Hn Hlen Htag Ew. pose proof (wf_buf0 _ Hwf) as (w'&Ew'&Hw).
  rewrite Ew in Ew'. injection Ew' as <-.
  pose proof (read_init_ok inbuf (proj2 Hlen)) as Hok.
  unfold refill. rewrite Hz. simpl. rewrite (proj2 (Z.ltb_ge _ 4)) by lia.
  destruct (pcm_read_spec inbuf (pcm_read_init (zlen inbuf)) 4 Hok)
    as (ctl1&E1&Hok1&Hp1&Hv1); [simpl; lia|].
  rewrite E1. simpl in *. change (Z.to_nat 4) with 4%nat. change (Z.to_nat 0) with 0%nat.
  rewrite drop_0. unfold tag_at in *. change (Z.to_nat 0) with 0%nat in *.
  rewrite drop_0 in *. rewrite bool_decide_false by done.
  unfold WAVE_BLOCK_SIZE in *.
  assert (exists w1, store_tag g (take 4 inbuf) = Some (set_buf0 g w1) /\
    w1 = take 4 inbuf ++ drop 4 w) as (w1&Est&Hw1).
  { unfold store_tag. rewrite Ew. simpl.
    assert (length (take 4 inbuf) = 4%nat) as Hl by (rewrite length_take; lia).
    rewrite ablit_0 by lia. simpl. rewrite Hl. eauto. }
  destruct (pcm_read_spec inbuf ctl1 (n - 4) Hok1) as (ctl2&E2&Hok2&Hp2&Hv2); [lia|].
  assert (forall s, let g' := set_stamp (set_buf0 g w1) 0 s (refill_timestamp_len g) in
    exists g'' ctl', refill_copy inbuf g' ctl1 4 (n - 4) n = Some (n, g'', ctl') /\
      adpcm_wf g'' /\ wave_timestamplen g'' = 0 /\ block_align g'' = block_align g /\
      mgr_ch g'' = mgr_ch g /\ wave_buf1 g'' = wave_buf1 g /\
      wave_buf0 g'' = Some (take (Z.to_nat n) inbuf ++ drop (Z.to_nat n) w) /\
      UsedDataLen ctl' = n) as Hcopy.
  { intros s g'. unfold refill_copy. subst g'. cbn -[Z.to_nat Z.sub]. rewrite E2.
    cbn -[Z.to_nat Z.sub]. subst w1. rewrite Hp1.
    assert (zlen (take 4 inbuf) = 4) as H4 by (rewrite length_take; lia).
    pose proof (take_drop_length inbuf 4 (n - 4)) as H5.
    pose proof (ablit_app (take 4 inbuf)
      (take (Z.to_nat (n - 4)) (drop (Z.to_nat 4) inbuf)) w 4 H4) as Hba.
    change (drop (Z.to_nat 4) w) with (drop 4 w) in Hba. change (0 + 4) with 4.
    rewrite Hba by lia. cbn -[Z.to_nat Z.sub].
    replace (Z.to_nat 4 + length (take (Z.to_nat (n - 4)) (drop (Z.to_nat 4) inbuf)))%nat
      with (Z.to_nat n) by lia.
    assert (take 4 inbuf ++ take (Z.to_nat (n - 4)) (drop (Z.to_nat 4) inbuf)
      = take (Z.to_nat n) inbuf) as ->.
    { change (Z.to_nat 4) with 4%nat. rewrite take_take_drop. f_equal. lia. }
    eexists _, _. split; [done|]. split.
    { destruct Hwf as [_ ? ?]. split; simpl; [|done|by left].
      eexists. split; [done|]. unfold WAVE_BLOCK_SIZE.
      rewrite length_app, length_take, length_drop. lia. }
    split_and!; try done. destruct Hok2 as (?&?&?&->). lia. }
  case_bool_decide.
  - destruct Hc as [[Hc1 Hc2]|]; [|done].
    rewrite (proj2 (Z.eqb_neq codec _) Hc1), (proj2 (Z.eqb_neq codec _) Hc2), Est.
    cbn -[Z.to_nat Z.sub Z.ltb].
    rewrite (proj2 (Z.ltb_ge (ValidDataLen ctl1) _)) by lia. apply Hcopy.
  - rewrite Est. cbn -[Z.to_nat Z.sub Z.ltb].
    rewrite (proj2 (Z.ltb_ge (ValidDataLen ctl1) _)) by lia. apply Hcopy.
Qed.

(** One G.711 block from a state whose stream buffer holds it. *)
Lemma run_g711_block f codec inbuf g g1 ctl ctl1 buf block :
  refill codec inbuf g ctl WAVE_BLOCK_SIZE = Some (WAVE_BLOCK_SIZE, g1, ctl1) ->
  wave_buf0 g1 = Some block -> zlen block = WAVE_BLOCK_SIZE -> adpcm_wf g1 ->
  2 * WAVE_BLOCK_SIZE <= zlen buf ->
  exists p', run_g711 f codec inbuf g ctl buf = Some (2 * WAVE_BLOCK_SIZE, set_buf1 g1 p', ctl1,
    short_bytes (map (fun b => s16 (f b)) block) ++ drop (Z.to_nat (2 * WAVE_BLOCK_SIZE)) buf).
Proof.
  intros E Hb Hl [_ (p&Ep&Hp) _] Hbuf. unfold run_g711. rewrite E.
  cbn -[WAVE_BLOCK_SIZE Z.mul Z.to_nat Z.ltb]. rewrite (proj2 (Z.ltb_ge WAVE_BLOCK_SIZE 0)) by done.
  rewrite Hb, Ep. cbn -[WAVE_BLOCK_SIZE Z.mul Z.to_nat].
  assert (0 <= WAVE_BLOCK_SIZE) by done.
  remember WAVE_BLOCK_SIZE as W eqn:EW. clear EW.
  rewrite expand_spec by lia. cbn -[Z.mul Z.to_nat].
  rewrite (take_ge block) by lia.
  rewrite copy_pcm_spec by (rewrite ?length_app, ?length_map, ?length_drop; lia).
  cbn -[Z.mul Z.to_nat]. rewrite take_app_le by (rewrite length_map; lia).
  rewrite take_ge by (rewrite length_map; lia). rewrite (Z.mul_comm W 2). eauto.
Qed.

(** [refill] leaves the stream parameters alone. *)
Lemma refill_static codec inbuf g ctl len ret g' ctl' :
  refill codec inbuf g ctl len = Some (ret, g', ctl') ->
  block_align g' = block_align g /\ mgr_ch g' = mgr_ch g.
Proof.
  assert (forall g0 c pos n lb, refill_copy inbuf g0 c pos n lb = Some (ret, g', ctl') ->
    block_align g' = block_align g0 /\ mgr_ch g' = mgr_ch g0) as Hcopy.
  { intros g0 c pos n lb E. unfold refill_copy in E. monad_inv. case_test; monad_inv;
      destruct x0 as [[? ?] ?]; monad_inv; done. }
  intros E. unfold refill in E. repeat first
    [ progress monad_inv | case_test
    | match goal with x : _ * _ |- _ => destruct x end
    | match goal with x : _ + _ |- _ => destruct x end
    | done
    | match goal with H : refill_copy _ _ _ _ _ _ = _ |- _ => apply Hcopy in H; exact H end
    | match goal with H : store_tag _ _ = Some _ |- _ => unfold store_tag in H end ].
Qed.

(** ** Claims *)

(** C16: safety of the A-law, u-law and PCM decoders over any history of inputs below 2 GB
    that do not begin with an APTS header of a block longer than 2048 bytes.  From
    [audio_dec_init], after any sequence of calls on such inputs, [audio_dec_decode] on such an input
    reads and writes only inside its four buffers, consumes between 0 and [inlen] bytes
    and reports -1, 2048 or 4096, provided the output buffer holds 4096 bytes.  Without the
    condition on the header the stream buffer overflows: [apts_block_overrun]. *)
Theorem audio_dec_decode_safe char_signed codec g outbuf inbuf :
  codec <> CODEC_ID_ADPCM_IMA_WAV -> codec <> CODEC_ID_ADPCM_MS ->
  adpcm_reach char_signed codec g -> input_ok inbuf ->
  2 * WAVE_BLOCK_SIZE <= zlen outbuf ->
  exists used outlen g' outbuf',
    audio_dec_decode char_signed codec g outbuf inbuf (zlen inbuf)
      = Some (used, outlen, g', outbuf') /\
    adpcm_reach char_signed codec g' /\ adpcm_wf g' /\
    0 <= used <= zlen inbuf /\ length outbuf' = length outbuf /\
    (outlen = -1 \/ outlen = WAVE_BLOCK_SIZE \/ outlen = 2 * WAVE_BLOCK_SIZE).
Proof.
  intros Hi Hm Hr Hin Hout.
  destruct (decode_wf char_signed codec Hi Hm g outbuf inbuf)
    as (u&o&g'&out'&E&?&?&?&?); [by eapply reach_wf|done|done|].
  exists u, o, g', out'. split; [done|]. split; [by eapply reach_decode|]. auto.
Qed.

Definition sample_globals (channels samplerate block_size : Z) : adpcm_globals :=
  (audio_dec_init (AdpcmGlobals 0 0 0 0 0 0 0 0 None None) channels samplerate block_size
     (Some (replicate 2048 7)) (Some (replicate 4096 9))).2.

Lemma sample_reach char_signed codec ch sr bs :
  adpcm_reach char_signed codec (sample_globals ch sr bs).
Proof. apply reach_init; by rewrite length_replicate. Qed.

Lemma audio_dec_decode_safe_witness :
  let inbuf := TAG_APTS ++ [0; 0; 0; 1; 0; 0; 0; 6; 213; 85; 1; 2; 3; 4] in
  exists used outlen g' outbuf',
    audio_dec_decode false CODEC_ID_PCM_ALAW (sample_globals 1 8000 0)
      (replicate 4096 0) inbuf (zlen inbuf) = Some (used, outlen, g', outbuf') /\
    adpcm_reach false CODEC_ID_PCM_ALAW g' /\ adpcm_wf g' /\
    0 <= used <= zlen inbuf /\ length outbuf' = length (replicate 4096 0) /\
    (outlen = -1 \/ outlen = WAVE_BLOCK_SIZE \/ outlen = 2 * WAVE_BLOCK_SIZE).
Proof.
  intros inbuf. apply audio_dec_decode_safe.
  - discriminate.
  - discriminate.
  - apply sample_reach.
  - split; [reflexivity|]. intros _. apply Z.leb_le; vm_compute; reflexivity.
  - apply Z.leb_le; vm_compute; reflexivity.
Defined.

(** What the A-law and u-law decoders compute.  Without an APTS header and
    with a full block at the head of the input, one call consumes exactly 2048
    bytes and writes the 2048 expanded samples, little endian, at the head of
    the output; a RIFF tag is decoded like any other four bytes. *)
Theorem g711_decode_correct char_signed codec g outbuf inbuf :
  codec = CODEC_ID_PCM_ALAW \/ codec = CODEC_ID_PCM_MULAW ->
  adpcm_wf g -> wave_timestamplen g = 0 ->
  2048 <= zlen inbuf < 2 ^ 31 -> tag_at inbuf 0 <> TAG_APTS ->
  2 * WAVE_BLOCK_SIZE <= zlen outbuf ->
  let f := if codec =? CODEC_ID_PCM_ALAW then alaw2linear else ulaw2linear in
  exists g', audio_dec_decode char_signed codec g outbuf inbuf (zlen inbuf)
    = Some (WAVE_BLOCK_SIZE, 2 * WAVE_BLOCK_SIZE, g',
        short_bytes (map (fun b => s16 (f b)) (take (Z.to_nat WAVE_BLOCK_SIZE) inbuf)) ++
        drop (Z.to_nat (2 * WAVE_BLOCK_SIZE)) outbuf) /\
    wave_timestamplen g' = 0.
Proof.
  intros Hc Hwf Hz Hlen Htag Hout f.
  pose proof (wf_buf0 _ Hwf) as (w&Ew&Hw).
  destruct (refill_plain codec inbuf g WAVE_BLOCK_SIZE w)
    as (g1&ctl1&E&Hwf1&Hz1&_&_&_&Hb1&Hu1); try done.
  { left. destruct Hc as [-> | ->]; done. }
  rewrite (drop_ge w), app_nil_r in Hb1 by lia.
  assert (forall f, exists p', run_g711 f codec inbuf g (pcm_read_init (zlen inbuf)) outbuf
    = Some (2 * WAVE_BLOCK_SIZE, set_buf1 g1 p', ctl1,
        short_bytes (map (fun b => s16 (f b)) (take (Z.to_nat WAVE_BLOCK_SIZE) inbuf)) ++
        drop (Z.to_nat (2 * WAVE_BLOCK_SIZE)) outbuf)) as Hrun.
  { intros f'. apply run_g711_block; try done.
    rewrite length_take. unfold WAVE_BLOCK_SIZE. lia. }
  destruct (Hrun f) as [p' Er]. exists (set_buf1 g1 p'). split; [|done].
  unfold audio_dec_decode, adpcm_decode_frame, runalawdecoder, runulawdecoder, f in *.
  destruct (Z.eqb_spec codec CODEC_ID_PCM_ALAW);
    [|rewrite (proj2 (Z.eqb_eq codec CODEC_ID_PCM_MULAW)) by tauto];
    rewrite Er; cbn -[WAVE_BLOCK_SIZE Z.mul Z.to_nat]; by rewrite Hu1.
Qed.

Lemma g711_decode_correct_witness :
  let inbuf := replicate 3000 0xD5 in
  exists g', audio_dec_decode false CODEC_ID_PCM_ALAW (sample_globals 1 8000 0)
      (replicate 4096 0) inbuf (zlen inbuf)
    = Some (WAVE_BLOCK_SIZE, 2 * WAVE_BLOCK_SIZE, g',
        short_bytes (map (fun b => s16 (alaw2linear b))
          (take (Z.to_nat WAVE_BLOCK_SIZE) inbuf)) ++
        drop (Z.to_nat (2 * WAVE_BLOCK_SIZE)) (replicate 4096 0)) /\ wave_timestamplen g' = 0.
Proof.
  intros inbuf.
  apply (g711_decode_correct false CODEC_ID_PCM_ALAW (sample_globals 1 8000 0)
    (replicate 4096 0) inbuf).
  - by left.
  - apply (reach_wf false CODEC_ID_PCM_ALAW); [discriminate..|apply sample_reach].
  - reflexivity.
  - split; [apply Z.leb_le; vm_compute; reflexivity|apply Z.ltb_lt; vm_compute; reflexivity].
  - discriminate.
  - apply Z.leb_le; vm_compute; reflexivity.
Defined.

(** An APTS header whose block length exceeds the 2048-byte stream buffer
    overruns it: the decoder checks the length against the input only, for
    every codec that reaches [refill] with its header at the cursor. *)
Theorem apts_block_overrun codec inbuf g ctl len :
  wave_timestamplen g = 0 -> adpcm_wf g -> ctl_ok inbuf ctl ->
  tag_at inbuf (pcur ctl) = TAG_APTS ->
  WAVE_BLOCK_SIZE < apts_len inbuf (pcur ctl) <= ValidDataLen ctl - 12 ->
  refill codec inbuf g ctl len = None.
Proof.
  intros Hz [(w&Ew&Hw) _ _] Hok Ht Hlen. unfold WAVE_BLOCK_SIZE in *.
  pose proof Hok as (?&?&?&?). unfold refill. rewrite Hz. simpl.
  rewrite (proj2 (Z.ltb_ge _ 4)) by lia.
  destruct (pcm_read_spec inbuf ctl 4 Hok) as (ctl1&E1&Hok1&Hp1&Hv1); [lia|].
  rewrite E1. simpl. change (Z.to_nat 4) with 4%nat. fold (tag_at inbuf (pcur ctl)).
  rewrite bool_decide_true by done.
  rewrite (proj2 (Z.ltb_ge _ 8)) by lia.
  destruct (pcm_read_spec inbuf ctl1 4 Hok1) as (ctl2&E2&Hok2&Hp2&Hv2); [lia|].
  rewrite E2. simpl.
  destruct (be32_four (take (Z.to_nat 4) (drop (Z.to_nat (pcur ctl1)) inbuf))) as [st Est].
  { rewrite length_take, length_drop. lia. }
  rewrite Est. simpl.
  destruct (pcm_read_spec inbuf ctl2 4 Hok2) as (ctl3&E3&Hok3&Hp3&Hv3); [lia|].
  rewrite E3. simpl. unfold apts_len in Hlen.
  replace (pcur ctl + 8) with (pcur ctl2) in Hlen by lia.
  destruct (be32 (take 4 (drop (Z.to_nat (pcur ctl2)) inbuf))) as [bl|] eqn:Ebl;
    simpl in Hlen; [|lia].
  change (Z.to_nat 4) with 4%nat. rewrite Ebl. simpl.
  rewrite wrapu_small by (pose proof Hok3 as (?&?&?&?); lia).
  rewrite (proj2 (Z.ltb_ge _ bl)) by lia.
  unfold refill_copy. simpl. rewrite Ew. simpl.
  rewrite (proj2 (Z.eqb_neq bl 0)) by lia. simpl.
  rewrite wraps_small by (change (2 ^ (32 - 1)) with (2 ^ 31); lia).
  destruct (pcm_read_spec inbuf ctl3 bl Hok3) as (ctl4&E4&_); [lia|].
  rewrite E4. simpl. unfold ablit. rewrite take_drop_length by (destruct Hok3; lia).
  rewrite (proj2 (Z.leb_gt (0 + bl) _)) by lia. done.
Qed.

Definition overrun_input : list Z :=
  TAG_APTS ++ [0; 0; 0; 0; 0; 0; 8; 1] ++ replicate 2049 0.

Lemma apts_block_overrun_witness :
  refill CODEC_ID_PCM_ALAW overrun_input (sample_globals 1 8000 0)
    (pcm_read_init (zlen overrun_input)) 2048 = None.
Proof.
  apply apts_block_overrun.
  - reflexivity.
  - apply (reach_wf false CODEC_ID_PCM_ALAW); [discriminate..|apply sample_reach].
  - by apply read_init_ok.
  - reflexivity.
  - split; [apply Z.ltb_lt; vm_compute; reflexivity|apply Z.leb_le; vm_compute; reflexivity].
Defined.

(** A decoder that has seen an APTS header never looks at its input again.
    The pending length is not cleared, so a later call with fewer bytes than
    that consumes nothing and still reports 4096 bytes of output. *)
Theorem apts_stall char_signed codec g outbuf inbuf :
  codec = CODEC_ID_PCM_ALAW \/ codec = CODEC_ID_PCM_MULAW ->
  adpcm_wf g -> wave_timestamplen g <> 0 ->
  zlen inbuf < refill_timestamp_len g -> 2 * WAVE_BLOCK_SIZE <= zlen outbuf ->
  exists g' outbuf', audio_dec_decode char_signed codec g outbuf inbuf (zlen inbuf)
      = Some (0, 4096, g', outbuf') /\
    wave_timestamplen g' = wave_timestamplen g /\ wave_buf0 g' = wave_buf0 g.
Proof.
  intros Hc Hwf Hz Hlen Hout. pose proof Hwf as [(w&Ew&Hw) (p&Ep&Hp) Hst].
  destruct Hst as [|[_ Hr]]; [done|].
  assert (refill codec inbuf g (pcm_read_init (zlen inbuf)) WAVE_BLOCK_SIZE =
    Some (refill_timestamp_len g, set_buf0 g w, pcm_read_init (zlen inbuf))) as E.
  { unfold refill, refill_copy. rewrite (proj2 (Z.eqb_neq _ 0) Hz), Ew. simpl.
    unfold WAVE_BLOCK_SIZE in *.
    rewrite wraps_small by (change (2 ^ (32 - 1)) with (2 ^ 31); lia).
    unfold pcm_read. simpl. rewrite (proj2 (Z.leb_gt _ (zlen inbuf))) by lia. simpl.
    rewrite ablit_0 by (simpl; lia). done. }
  assert (forall f, exists p' out', run_g711 f codec inbuf g (pcm_read_init (zlen inbuf)) outbuf
    = Some (4096, set_buf1 (set_buf0 g w) p', pcm_read_init (zlen inbuf), out')) as Hrun.
  { intros f. unfold run_g711. rewrite E. simpl. rewrite (proj2 (Z.ltb_ge _ 0)) by lia.
    rewrite Ep. simpl. unfold WAVE_BLOCK_SIZE in *. rewrite expand_spec by lia. simpl.
    rewrite copy_pcm_spec
      by (rewrite ?length_app, ?length_map, ?length_take, ?length_drop; lia).
    simpl. eauto. }
  unfold audio_dec_decode, adpcm_decode_frame, runalawdecoder, runulawdecoder.
  destruct Hc as [-> | ->]; simpl.
  - destruct (Hrun alaw2linear) as (p'&out'&Er). rewrite Er. simpl. eauto.
  - destruct (Hrun ulaw2linear) as (p'&out'&Er). rewrite Er. simpl. eauto.
Qed.

Lemma apts_stall_witness :
  let g := set_stamp (sample_globals 1 8000 0) 256 77 256 in
  exists g' outbuf', audio_dec_decode false CODEC_ID_PCM_MULAW g (replicate 4096 0)
      [1; 2; 3] (zlen [1; 2; 3]) = Some (0, 4096, g', outbuf') /\
    wave_timestamplen g' = wave_timestamplen g /\ wave_buf0 g' = wave_buf0 g.
Proof.
  intros g. apply apts_stall.
  - by right.
  - apply wf_set_stamp.
    + apply (reach_wf false CODEC_ID_PCM_MULAW); [discriminate..|apply sample_reach].
    + right. unfold WAVE_BLOCK_SIZE. lia.
  - discriminate.
  - apply Z.ltb_lt; vm_compute; reflexivity.
  - apply Z.leb_le; vm_compute; reflexivity.
Defined.

(** The IMA decoder with a configured block alignment.  A block that is not
    tagged APTS or RIFF is consumed whole, and the [channels * (1 + 8 * groups)]
    samples of the reference decoder are written interleaved, little endian, at
    the head of the output. *)
Theorem ima_decode_correct g outbuf inbuf ch groups :
  ch = 1 \/ ch = 2 -> 0 <= groups ->
  adpcm_wf g -> wave_timestamplen g = 0 -> mgr_ch g = ch ->
  block_align g = 4 * ch * (1 + groups) -> block_align g <= WAVE_BLOCK_SIZE ->
  (forall w, wave_buf0 g = Some w -> bytes_ok w) ->
  zlen inbuf < 2 ^ 31 -> ima_block_ok ch inbuf groups ->
  tag_at inbuf 0 <> TAG_APTS -> tag_at inbuf 0 <> TAG_RIFF ->
  2 * (ch * (1 + 8 * groups)) <= zlen outbuf ->
  exists g' pcm,
    audio_dec_decode false CODEC_ID_ADPCM_IMA_WAV g outbuf inbuf (zlen inbuf)
    = Some (block_align g, 2 * (ch * (1 + 8 * groups)), g',
        short_bytes pcm ++ drop (Z.to_nat (2 * (ch * (1 + 8 * groups)))) outbuf) /\
    zlen pcm = ch * (1 + 8 * groups) /\
    forall c t, 0 <= c < ch -> 0 <= t <= 8 * groups ->
      aget pcm (t * ch + c) = Some (ima_at ch inbuf c (Z.to_nat t)).1.
Proof.
  intros Hch Hgr Hwf Hz Emch Eal Hal Hbytes Hlen Hok HA HR Hout.
  pose proof Hok as (Hl&Hb&Hh).
  pose proof (wf_buf0 _ Hwf) as (w&Ew&Hw).
  assert (4 <= block_align g <= 2048) as Hba by (unfold WAVE_BLOCK_SIZE in *; nia).
  destruct (refill_plain CODEC_ID_ADPCM_IMA_WAV inbuf g (block_align g) w)
    as (g1&ctl1&E&Hwf1&Hz1&Hba1&Hch1&Hp1&Hb1&Hu1); try done; [by right|lia|].
  pose proof (wf_buf1 _ Hwf) as (p&Ep&Hp). unfold WAVE_BLOCK_SIZE in *.
  set (wave := take (Z.to_nat (block_align g)) inbuf ++ drop (Z.to_nat (block_align g)) w)
    in *.
  assert (0 <= ch * (1 + 8 * groups) <= 4096 /\
    (block_align g - 4 * ch) * 2 + ch = ch * (1 + 8 * groups)) as [Hn Hsmp].
  { destruct Hch; subst ch; lia. }
  assert (forall i, 0 <= i < 4 * ch * (1 + groups) -> aget wave i = aget inbuf i) as Hext.
  { intros i Hi. rewrite !aget_lookup by lia. subst wave.
    rewrite lookup_app_l by (rewrite length_take; lia). rewrite lookup_take_lt by lia. done. }
  assert (ima_block_ok ch wave groups) as Hok'.
  { split; [subst wave; rewrite length_app, length_take, length_drop; lia|]. split.
    - subst wave. apply Forall_app. split; [by apply Forall_take|].
      apply Forall_drop. by apply Hbytes.
    - intros c Hc. rewrite Hext by nia. by apply Hh. }
  destruct (ima_block_correct ch groups wave Hch Hgr Hok' p) as (smp&Ed&Hpl&Hs);
    [lia|].
  exists (set_buf1 g1 smp), (take (Z.to_nat (ch * (1 + 8 * groups))) smp).
  split.
  - unfold audio_dec_decode, adpcm_decode_frame. simpl.
    unfold runimaadpcmdecoder, block_header.
    rewrite (proj2 (Z.eqb_neq (block_align g) 0)) by lia.
    assert (block_align g <= zlen inbuf) by (destruct Hch; subst ch; lia).
    cbn [ValidDataLen pcm_read_init].
    rewrite (wrapu_small 32 (zlen inbuf)), (wrapu_small 32 (block_align g)) by lia.
    rewrite (proj2 (Z.ltb_ge (zlen inbuf) (block_align g))) by lia.
    cbn -[Z.mul Z.to_nat Z.ltb].
    rewrite (proj2 (Z.ltb_ge (block_align g) 4)) by lia.
    rewrite wraps_small by (change (2 ^ (32 - 1)) with (2 ^ 31); lia).
    rewrite E. cbn -[Z.mul Z.to_nat Z.ltb Z.sub].
    rewrite (proj2 (Z.ltb_ge (block_align g) 0)) by lia.
    rewrite Hb1, Hp1, Ep, Hba1, Hch1. cbn -[Z.mul Z.to_nat Z.sub].
    rewrite Emch, Hsmp, Ed. cbn -[Z.mul Z.to_nat Z.sub].
    rewrite copy_pcm_spec by lia. cbn -[Z.mul Z.to_nat Z.sub].
    rewrite Hu1. do 4 f_equal. lia.
  - split; [rewrite length_take; lia|]. intros c t Hc Ht.
    rewrite <- (ima_at_ext ch groups wave inbuf) by (done || lia).
    rewrite <- (Hs c t) by done. rewrite !aget_lookup by nia.
    rewrite lookup_take_lt by nia. done.
Qed.

Lemma ima_decode_correct_witness :
  let inbuf := [0x34; 0x12; 40; 0; 0x18; 0x2A; 0x7F; 0x90; 1; 2; 3] in
  exists g' pcm,
    audio_dec_decode false CODEC_ID_ADPCM_IMA_WAV (sample_globals 1 8000 8)
      (replicate 32 0) inbuf (zlen inbuf)
    = Some (8, 2 * (1 * (1 + 8 * 1)), g',
        short_bytes pcm ++ drop (Z.to_nat (2 * (1 * (1 + 8 * 1)))) (replicate 32 0)) /\
    zlen pcm = 1 * (1 + 8 * 1) /\
    forall c t, 0 <= c < 1 -> 0 <= t <= 8 * 1 ->
      aget pcm (t * 1 + c) = Some (ima_at 1 inbuf c (Z.to_nat t)).1.
Proof.
  intros inbuf.
  apply (ima_decode_correct (sample_globals 1 8000 8) (replicate 32 0) inbuf 1 1).
  - by left.
  - lia.
  - apply (reach_wf false CODEC_ID_PCM_ALAW); [discriminate..|apply sample_reach].
  - reflexivity.
  - reflexivity.
  - reflexivity.
  - discriminate.
  - intros w Hw. apply (inj Some) in Hw as <-. apply Forall_replicate. unfold byte_ok. lia.
  - reflexivity.
  - split; [simpl; lia|]. split.
    + repeat constructor; unfold byte_ok; lia.
    + intros c Hc. assert (c = 0) as -> by lia. reflexivity.
  - discriminate.
  - discriminate.
  - simpl. lia.
Defined.

(** Framed IMA input is never decoded.  Without a block alignment the
    sample count is computed from [block_align], not from the size found in the
    frame header; it is negative, so no call produces samples: each one reports
    at most 0 bytes and leaves the output alone, or copies a negative size. *)
Theorem ima_framed_never_decodes char_signed codec inbuf g ctl buf ret g' ctl' buf' :
  block_align g = 0 -> 1 <= mgr_ch g ->
  runimaadpcmdecoder char_signed codec inbuf g ctl buf = Some (ret, g', ctl', buf') ->
  (ret = -1 \/ ret = 0) /\ buf' = buf.
Proof.
  intros Hz Hch E. unfold runimaadpcmdecoder in E. monad_inv.
  destruct x as [[bs ctl1]|ctl1]; [|monad_inv; auto].
  case_test; [monad_inv; auto|]. monad_inv. destruct x as [[tmp g1] ctl2].
  case_test; [monad_inv; auto|]. monad_inv. exfalso.
  apply refill_static in E1 as [Hz1 Hch1]. rewrite Hz1, Hch1, Hz in *.
  destruct x1 as [r pcm]. monad_inv. unfold copy_pcm in *. monad_inv.
  match goal with H : asub _ _ _ = Some _ |- _ => apply asub_inv in H end. lia.
Qed.

Lemma ima_framed_never_decodes_witness :
  let inbuf := [0x11; 0x22; 0x33] in
  let g := sample_globals 1 8000 0 in
  runimaadpcmdecoder false CODEC_ID_ADPCM_IMA_WAV inbuf g (pcm_read_init 3) [5]
    = Some (-1, g, PcmReadCtl 3 0 0, [5]) /\
  ((-1 = -1 \/ -1 = 0) /\ [5] = [5]).
Proof.
  intros inbuf g. split; [reflexivity|].
  eapply (ima_framed_never_decodes false CODEC_ID_ADPCM_IMA_WAV inbuf g (pcm_read_init 3) [5]).
  - reflexivity.
  - apply Z.leb_le. reflexivity.
  - reflexivity.
Defined.

(** A well framed mono block of eight bytes: the copy has a negative size. *)
Example ima_framed_block_undefined :
  runimaadpcmdecoder false CODEC_ID_ADPCM_IMA_WAV
    [0x11; 0x22; 0x33; 0x44; 0; 8; 0x34; 0x12; 40; 0; 0x18; 0x2A; 0x7F; 0x90]
    (sample_globals 1 8000 0) (pcm_read_init 14) (replicate 4096 0) = None.
Proof. vm_compute. reflexivity. Qed.
