(* ===== verification/BitString.v ===== *)
(** Bit fields of big-endian byte strings, the common specification of the bit
    readers of the decoders. *)
From S2P Require Import Prelude.

(** ** Big-endian bit slices

    [be_val] reads the whole buffer as one big-endian number; [bits buf i n] is
    the [n]-bit field that starts at bit [i]. *)
Definition be_val (l : list Z) : Z := fold_left (fun acc b => acc * 256 + b) l 0.

Definition bits (buf : list Z) (i n : Z) : Z :=
  (be_val buf / 2 ^ (8 * zlen buf - i - n)) mod 2 ^ n.

Lemma be_val_acc l a : fold_left (fun acc b => acc * 256 + b) l a
  = a * 2 ^ (8 * zlen l) + be_val l.
Proof.
  unfold be_val. revert a. induction l as [|b l IH]; intros a; cbn [fold_left length].
  - change (2 ^ (8 * Z.of_nat 0)) with 1. lia.
  - rewrite (IH (a * 256 + b)), (IH (0 * 256 + b)).
    replace (8 * Z.of_nat (S (length l))) with (8 + 8 * zlen l) by lia.
    rewrite Z.pow_add_r by lia. change (2 ^ 8) with 256. ring.
Qed.

Lemma be_val_app a b : be_val (a ++ b) = be_val a * 2 ^ (8 * zlen b) + be_val b.
Proof. unfold be_val at 1. rewrite fold_left_app. fold (be_val a). apply be_val_acc. Qed.

Lemma be_val_range l : bytes_ok l -> 0 <= be_val l < 2 ^ (8 * zlen l).
Proof.
  induction l as [|b l IH] using rev_ind; intros H; [done|].
  apply Forall_app in H as [Hl Hb]. rewrite be_val_app, length_app. simpl.
  apply Forall_cons in Hb as [[??] _]. specialize (IH Hl).
  change (be_val [b]) with b. change (2 ^ (8 * 1)) with 256.
  replace (8 * Z.of_nat (length l + 1)) with (8 * zlen l + 8) by lia.
  rewrite Z.pow_add_r by lia. change (2 ^ 8) with 256. nia.
Qed.

Lemma bits_range buf i n : 0 <= n -> 0 <= bits buf i n < 2 ^ n.
Proof. intros. apply Z.mod_pos_bound, pow2_pos. done. Qed.

(** A field of a field. *)
Lemma div_mod_slice x a n b m : 0 <= a -> 0 <= b -> 0 <= m -> b + m <= n ->
  ((x / 2 ^ a) mod 2 ^ n / 2 ^ b) mod 2 ^ m = (x / 2 ^ (a + b)) mod 2 ^ m.
Proof.
  intros. apply Z.bits_inj'. intros k Hk.
  destruct (Z.ltb_spec k m).
  - rewrite !Z.mod_pow2_bits_low, !Z.div_pow2_bits, Z.mod_pow2_bits_low,
      Z.div_pow2_bits by lia. f_equal. lia.
  - by rewrite !Z.mod_pow2_bits_high by lia.
Qed.

Lemma shl_trunc_slice x k n : 0 <= k -> 0 <= n -> n + k <= 32 ->
  (x * 2 ^ k) mod 2 ^ 32 / 2 ^ (32 - n) = (x / 2 ^ (32 - k - n)) mod 2 ^ n.
Proof.
  intros. apply Z.bits_inj'. intros j Hj.
  rewrite Z.div_pow2_bits by lia.
  destruct (Z.ltb_spec j n).
  - rewrite Z.mod_pow2_bits_low, Z.mul_pow2_bits, Z.mod_pow2_bits_low,
      Z.div_pow2_bits by lia. f_equal. lia.
  - by rewrite !Z.mod_pow2_bits_high by lia.
Qed.

Lemma bits_sub buf i n j m : 0 <= j -> 0 <= m -> j + m <= n -> i + n <= 8 * zlen buf ->
  (bits buf i n / 2 ^ (n - j - m)) mod 2 ^ m = bits buf (i + j) m.
Proof.
  intros. unfold bits. rewrite div_mod_slice by lia. do 3 f_equal. lia.
Qed.

Lemma bits_app buf i n m : 0 <= n -> 0 <= m -> i + n + m <= 8 * zlen buf ->
  bits buf i (n + m) = bits buf i n * 2 ^ m + bits buf (i + n) m.
Proof.
  intros. pose proof (bits_sub buf i (n + m) 0 n) as Ea.
  pose proof (bits_sub buf i (n + m) n m) as Eb.
  replace (n + m - 0 - n) with m in Ea by lia.
  replace (n + m - n - m) with 0 in Eb by lia.
  rewrite Z.add_0_r in Ea. change (2 ^ 0) with 1 in Eb. rewrite Z.div_1_r in Eb.
  rewrite <- Ea, <- Eb by lia.
  rewrite (Z.mod_small (_ / _)).
  - rewrite Z.mul_comm. apply Z.div_mod. apply Z.pow_nonzero; lia.
  - pose proof (bits_range buf i (n + m)). split; [apply Z.div_pos; lia|].
    apply Z.div_lt_upper_bound; [lia|]. rewrite <- Z.pow_add_r by lia.
    replace (m + n) with (n + m) by lia. lia.
Qed.

Lemma bits_0 buf i : bits buf i 0 = 0.
Proof. unfold bits. apply Z.mod_1_r. Qed.

(** One byte. *)
Lemma bits_byte buf p b : bytes_ok buf -> aget buf p = Some b -> bits buf (8 * p) 8 = b.
Proof.
  intros Hb Hp. pose proof (aget_inv _ _ _ Hp). rewrite aget_lookup in Hp by lia.
  apply list_elem_of_split_length in Hp as (l1&l2&->&Hl1).
  apply Forall_app in Hb as [_ [[??] Hl2]%Forall_cons].
  pose proof (be_val_range l2 Hl2). unfold bits.
  rewrite length_app. simpl.
  replace (8 * Z.of_nat (length l1 + S (length l2)) - 8 * p - 8) with (8 * zlen l2) by lia.
  replace (l1 ++ b :: l2) with ((l1 ++ [b]) ++ l2) by (by rewrite <- app_assoc).
  rewrite !be_val_app. change (be_val [b]) with b. simpl. change (2 ^ (8 * 1)) with 256.
  rewrite Z.add_comm, Z.div_add by (apply Z.pow_nonzero; lia).
  rewrite Z.div_small by lia. change (2 ^ 8) with 256.
  rewrite Z.add_0_l, Z.add_comm, Z.mod_add by lia. apply Z.mod_small. lia.
Qed.

Lemma lor_byte a b n : 0 <= n -> 0 <= b < 2 ^ n -> (a .<< n) .| b = a * 2 ^ n + b.
Proof. intros. rewrite Z.lor_comm, lor_shiftl_add by done. lia. Qed.

(** ** Writing

    What a bit writer leaves: a list of widths and values. *)

(** The writes [l] are in the buffer from bit [i] on. *)
Fixpoint written (buf : list Z) (i : Z) (l : list (Z * Z)) : Prop :=
  match l with
  | [] => True
  | (n, v) :: l => bits buf i n = v mod 2 ^ n /\ written buf (i + n) l
  end.

Definition width (l : list (Z * Z)) : Z := foldr (fun p a => p.1 + a) 0 l.

Lemma width_cons n v l : width ((n, v) :: l) = n + width l.
Proof. done. Qed.

Lemma width_app l1 l2 : width (l1 ++ l2) = width l1 + width l2.
Proof. induction l1 as [|[n v] l1 IH]; simpl; [done|]. unfold width in *. lia. Qed.

Lemma written_app buf i l1 l2 :
  written buf i (l1 ++ l2) <-> written buf i l1 /\ written buf (i + width l1) l2.
Proof.
  revert i. induction l1 as [|[n v] l1 IH]; intros i; simpl.
  - rewrite Z.add_0_r. tauto.
  - rewrite IH. unfold width. simpl. rewrite Z.add_assoc. tauto.
Qed.

Lemma flat_width {A} (code : A -> list (Z * Z)) (ok : A -> Prop) vs :
  (forall v, ok v -> 0 <= width (code v)) -> Forall ok vs -> 0 <= width (flat_map code vs).
Proof.
  intros Hcode. induction 1 as [|v vs Hv _ IH]; simpl; [done|]. rewrite width_app.
  specialize (Hcode v Hv). lia.
Qed.
