(* ===== verification/GetBits.v ===== *)
(** The bit reader of the FLAC decoder: [src/libflac/get_bits.h] in its
    [ALT_BITSTREAM_READER] configuration (big endian), [sign_extend] of
    [mathops.h], [av_log2] and the two UTF-8 macros of [common.h].

    A reader is a buffer and a bit index.  The C functions never compare the
    index with the end of the buffer; a read outside of the list is [None]. *)
From S2P Require Import Prelude BitString.

(** ** The reader *)

Record GetBitContext := MkGetBitContext {
  gb_buffer : list Z;
  gb_index : Z;
  size_in_bits : Z
}.

Definition AV_RB16 (buf : list Z) (p : Z) : option Z :=
  b0 ← aget buf p; b1 ← aget buf (p + 1); Some ((b0 .<< 8) .| b1).

Definition AV_RB32 (buf : list Z) (p : Z) : option Z :=
  b0 ← aget buf p; b1 ← aget buf (p + 1); b2 ← aget buf (p + 2); b3 ← aget buf (p + 3);
  Some ((b0 .<< 24) .| (b1 .<< 16) .| (b2 .<< 8) .| b3).

Definition SKIP_COUNTER (s : GetBitContext) (n : Z) : GetBitContext :=
  MkGetBitContext (gb_buffer s) (gb_index s + n) (size_in_bits s).

(** The 32-bit cache after [UPDATE_CACHE]. *)
Definition UPDATE_CACHE (s : GetBitContext) : option Z :=
  x ← AV_RB32 (gb_buffer s) (gb_index s .>> 3); Some (u32 (x .<< (gb_index s .& 7))).

(** [NEG_USR32] and [NEG_SSR32]: a shift by 32 or more, or by a negative
    count, is undefined. *)
Definition SHOW_UBITS (cache n : Z) : option Z :=
  if (1 <=? n) && (n <=? 32) then Some (cache .>> (32 - n)) else None.

Definition SHOW_SBITS (cache n : Z) : option Z :=
  if (1 <=? n) && (n <=? 32) then Some (s32 cache .>> (32 - n)) else None.

Definition get_bits_count (s : GetBitContext) : Z := gb_index s.

Definition skip_bits_long (s : GetBitContext) (n : Z) : GetBitContext := SKIP_COUNTER s n.

Definition get_bits (s : GetBitContext) (n : Z) : option (Z * GetBitContext) :=
  cache ← UPDATE_CACHE s; tmp ← SHOW_UBITS cache n; Some (tmp, SKIP_COUNTER s n).

Definition get_sbits (s : GetBitContext) (n : Z) : option (Z * GetBitContext) :=
  cache ← UPDATE_CACHE s; tmp ← SHOW_SBITS cache n; Some (tmp, SKIP_COUNTER s n).

Definition show_bits (s : GetBitContext) (n : Z) : option Z :=
  cache ← UPDATE_CACHE s; SHOW_UBITS cache n.

Definition skip_bits (s : GetBitContext) (n : Z) : option GetBitContext :=
  _ ← UPDATE_CACHE s; Some (SKIP_COUNTER s n).

Definition get_bits1 (s : GetBitContext) : option (Z * GetBitContext) :=
  b ← aget (gb_buffer s) (gb_index s .>> 3);
  Some (u8 (b .<< (gb_index s .& 7)) .>> 7, SKIP_COUNTER s 1).

Definition show_bits1 (s : GetBitContext) : option Z := show_bits s 1.

Definition skip_bits1 (s : GetBitContext) : option GetBitContext := skip_bits s 1.

Definition get_bits_long (s : GetBitContext) (n : Z) : option (Z * GetBitContext) :=
  if n <=? 17 then get_bits s n
  else
    '(hi, s) ← get_bits s 16;
    '(lo, s) ← get_bits s (n - 16);
    Some (u32 (hi .<< (n - 16)) .| lo, s).

Definition sign_extend (val bits : Z) : option Z :=
  if (1 <=? bits) && (bits <=? 32)
  then Some (s32 (val .<< (32 - bits)) .>> (32 - bits)) else None.

Definition get_sbits_long (s : GetBitContext) (n : Z) : option (Z * GetBitContext) :=
  '(v, s) ← get_bits_long s n; v ← sign_extend v n; Some (v, s).

Definition show_bits_long (s : GetBitContext) (n : Z) : option Z :=
  if n <=? 17 then show_bits s n else fst <$> get_bits_long s n.

(** [NEG_USR32(sign ^ cache, n) ^ sign) - sign] with [sign = ~cache >> 31]. *)
Definition get_xbits (s : GetBitContext) (n : Z) : option (Z * GetBitContext) :=
  cache ← UPDATE_CACHE s;
  let sign := s32 (Z.lnot cache) .>> 31 in
  v ← SHOW_UBITS (u32 (sign .^ cache)) n;
  Some (s32 (u32 (v .^ sign) - sign), SKIP_COUNTER s n).

Definition check_marker (s : GetBitContext) : option (Z * GetBitContext) := get_bits1 s.

Definition init_get_bits (buffer : list Z) (bit_size : Z) : GetBitContext :=
  if (((bit_size + 7) .>> 3) <? 0) || (bit_size <? 0)
  then MkGetBitContext [] 0 0 else MkGetBitContext buffer 0 bit_size.

Definition align_get_bits (s : GetBitContext) : option GetBitContext :=
  let n := (- get_bits_count s) .& 7 in
  if negb (n =? 0) then skip_bits s n else Some s.

Definition get_bits_left (s : GetBitContext) : Z := size_in_bits s - get_bits_count s.

(** ** [av_log2] *)

Definition ff_log2_tab : list Z :=
  [0; 0; 1; 1] ++ replicate 4 2 ++ replicate 8 3 ++ replicate 16 4 ++
  replicate 32 5 ++ replicate 64 6 ++ replicate 128 7.

Definition av_log2 (v : Z) : option Z :=
  let '(v, n) := if bitset v 0xffff0000 then (v .>> 16, 16) else (v, 0) in
  let '(v, n) := if bitset v 0xff00 then (v .>> 8, n + 8) else (v, n) in
  t ← aget ff_log2_tab v; Some (n + t).

Definition av_log2_16bit (v : Z) : option Z :=
  let '(v, n) := if bitset v 0xff00 then (v .>> 8, 8) else (v, 0) in
  t ← aget ff_log2_tab v; Some (n + t).

(** ** UTF-8 macros *)

(** The continuation loop of [GET_UTF8]; [None] inside is the [ERROR] exit. *)
Fixpoint GET_UTF8_tail (ones : nat) (val : Z) (s : GetBitContext)
    : option (option Z * GetBitContext) :=
  match ones with
  | O => Some (Some val, s)
  | S ones' =>
      '(b, s) ← get_bits s 8;
      let tmp := b - 128 in
      if negb ((tmp .>> 6) =? 0) then Some (None, s)
      else GET_UTF8_tail ones' (s64 ((val .<< 6) + tmp)) s
  end.

Definition GET_UTF8 (s : GetBitContext) : option (option Z * GetBitContext) :=
  '(val, s) ← get_bits s 8;
  l ← av_log2 (val .^ 255);
  let ones := 7 - l in
  if ones =? 1 then Some (None, s)
  else GET_UTF8_tail (Z.to_nat (ones - 1)) (val .& (127 .>> ones)) s.

(** The bytes [PUT_UTF8] emits after the first one. *)
Fixpoint PUT_UTF8_tail (fuel : nat) (inp shift : Z) : list Z :=
  match fuel with
  | O => []
  | S fuel' =>
      if 6 <=? shift
      then u8 (0x80 .| ((inp .>> (shift - 6)) .& 0x3f)) :: PUT_UTF8_tail fuel' inp (shift - 6)
      else []
  end.

Definition PUT_UTF8 (inp : Z) : option (list Z) :=
  if inp <? 0x80 then Some [inp]
  else
    l ← av_log2 inp;
    let bytes := Z.quot (l + 4) 5 in
    let shift := (bytes - 1) * 6 in
    if 32 <=? shift then None (* [in >> shift] *) else
    Some (u8 ((256 - (256 .>> bytes)) .| (inp .>> shift)) ::
          PUT_UTF8_tail (Z.to_nat shift) inp shift).

(** ** The byte readers *)

Lemma AV_RB32_spec buf p : bytes_ok buf -> 0 <= p -> p + 4 <= zlen buf ->
  AV_RB32 buf p = Some (bits buf (8 * p) 32).
Proof.
  intros Hb Hp Hl. unfold AV_RB32.
  destruct (aget_Some buf p) as [b0 E0]; [lia|]. destruct (aget_Some buf (p + 1)) as [b1 E1]; [lia|].
  destruct (aget_Some buf (p + 2)) as [b2 E2]; [lia|].
  destruct (aget_Some buf (p + 3)) as [b3 E3]; [lia|].
  rewrite E0, E1, E2, E3. simpl. f_equal.
  apply bits_byte in E0, E1, E2, E3; try done.
  pose proof (bits_app buf (8 * p) 8 24) as A0.
  pose proof (bits_app buf (8 * p + 8) 8 16) as A1.
  pose proof (bits_app buf (8 * p + 8 + 8) 8 8) as A2.
  change (8 + 24) with 32 in A0. change (8 + 16) with 24 in A1. change (8 + 8) with 16 in A2.
  rewrite A0, A1, A2 by lia. clear A0 A1 A2.
  replace (8 * p + 8) with (8 * (p + 1)) by lia.
  replace (8 * (p + 1) + 8) with (8 * (p + 2)) by lia.
  replace (8 * (p + 2) + 8) with (8 * (p + 3)) by lia.
  pose proof (bits_range buf (8 * p) 8). pose proof (bits_range buf (8 * (p + 1)) 8).
  pose proof (bits_range buf (8 * (p + 2)) 8). pose proof (bits_range buf (8 * (p + 3)) 8).
  rewrite E0, E1, E2, E3 in *. simpl in *.
  rewrite <- !Z.lor_assoc.
  rewrite (lor_byte b2 b3 8) by lia. rewrite (lor_byte b1 _ 16) by lia.
  rewrite (lor_byte b0 _ 24) by lia. change (2 ^ 8) with 256. lia.
Qed.

(** ** The read functions return the slice at the index *)

(** [n] bits can be read at the index: the four bytes of the cache are there. *)
Definition gb_ok (s : GetBitContext) : Prop :=
  bytes_ok (gb_buffer s) /\ 0 <= gb_index s.

Definition cache_in (s : GetBitContext) : Prop :=
  gb_index s / 8 + 4 <= zlen (gb_buffer s).

(** The field of [n] bits at the index. *)
Abbreviation peek s n := (bits (gb_buffer s) (gb_index s) n).

Lemma UPDATE_CACHE_spec s : gb_ok s -> cache_in s ->
  exists cache, UPDATE_CACHE s = Some cache /\ 0 <= cache < 2 ^ 32 /\
    forall n, 0 <= n <= 32 - gb_index s mod 8 -> cache / 2 ^ (32 - n) = peek s n.
Proof.
  intros [Hb Hi] Hc. unfold cache_in in Hc. unfold UPDATE_CACHE.
  change 7 with (Z.ones 3). rewrite Z.land_ones, Z.shiftr_div_pow2 by done.
  change (2 ^ 3) with 8. rewrite AV_RB32_spec by (done || zdiv). simpl.
  eexists. split; [done|]. split; [by apply wrapu_range|].
  intros n Hn. unfold wrapu. rewrite Z.shiftl_mul_pow2 by zdiv.
  rewrite shl_trunc_slice by zdiv. rewrite bits_sub by zdiv.
  f_equal. zdiv.
Qed.

Lemma SHOW_UBITS_spec cache n : 1 <= n <= 32 -> SHOW_UBITS cache n = Some (cache / 2 ^ (32 - n)).
Proof.
  intros. unfold SHOW_UBITS. rewrite (proj2 (Z.leb_le 1 n)), (proj2 (Z.leb_le n 32)) by lia.
  simpl. by rewrite Z.shiftr_div_pow2 by lia.
Qed.

Lemma get_bits_slice s n : gb_ok s -> cache_in s -> 1 <= n -> n + gb_index s mod 8 <= 32 ->
  get_bits s n = Some (peek s n, SKIP_COUNTER s n).
Proof.
  intros Hok Hc Hn Hn'. unfold get_bits.
  destruct (UPDATE_CACHE_spec s Hok Hc) as (c&->&Hr&Hs). simpl.
  rewrite SHOW_UBITS_spec by zdiv. simpl. rewrite Hs by zdiv. done.
Qed.

Lemma show_bits_slice s n : gb_ok s -> cache_in s -> 1 <= n <= 25 ->
  show_bits s n = Some (peek s n).
Proof.
  intros Hok Hc Hn. unfold show_bits.
  destruct (UPDATE_CACHE_spec s Hok Hc) as (c&->&Hr&Hs). simpl.
  rewrite SHOW_UBITS_spec by zdiv. rewrite Hs by zdiv. done.
Qed.

(** Two's complement value of an [n]-bit field. *)
Lemma asr_signed c n : 1 <= n <= 32 -> 0 <= c < 2 ^ 32 ->
  s32 c / 2 ^ (32 - n) = wraps n (c / 2 ^ (32 - n)).
Proof.
  intros Hn Hc.
  assert (2 ^ 32 = 2 ^ n * 2 ^ (32 - n)) as E by (rewrite <- Z.pow_add_r by lia; f_equal; lia).
  assert (2 ^ n = 2 * 2 ^ (n - 1)) as E1
    by (rewrite <- Z.pow_succ_r by lia; f_equal; lia).
  pose proof (pow2_pos (32 - n) ltac:(lia)) as Hp.
  pose proof (pow2_pos (n - 1) ltac:(lia)) as Hq.
  set (D := 2 ^ (32 - n)) in *. set (Q := 2 ^ (n - 1)) in *.
  pose proof (Z.div_mod c D ltac:(lia)) as Ed. pose proof (Z.mod_pos_bound c D Hp) as Em.
  set (q := c / D) in *. set (r := c mod D) in *.
  assert (0 <= q < 2 * Q) as Hqr by nia.
  assert (s32 c = (if q <? Q then c else c - 2 ^ 32)) as ->.
  { unfold wraps. change (2 ^ (32 - 1)) with 2147483648.
    assert (2 ^ 32 = 2 * (Q * D)) as HQD2 by (rewrite E, E1; ring).
    assert (2147483648 = Q * D) as HQD by lia.
    destruct (Z.ltb_spec q Q).
    - rewrite Z.mod_small by nia. lia.
    - replace (c + 2147483648) with (c - 2147483648 + 1 * 2 ^ 32) by lia.
      rewrite Z.mod_add, Z.mod_small by nia. lia. }
  assert (wraps n q = (if q <? Q then q else q - 2 * Q)) as ->.
  { unfold wraps. fold Q. rewrite E1. destruct (Z.ltb_spec q Q).
    - rewrite Z.mod_small by lia. lia.
    - replace (q + Q) with (q - Q + 1 * (2 * Q)) by lia.
      rewrite Z.mod_add, Z.mod_small by lia. lia. }
  destruct (Z.ltb_spec q Q).
  - done.
  - symmetry. apply Z.div_unique with r; [lia|]. nia.
Qed.

Lemma get_sbits_slice s n : gb_ok s -> cache_in s -> 1 <= n -> n + gb_index s mod 8 <= 32 ->
  get_sbits s n = Some (wraps n (peek s n), SKIP_COUNTER s n).
Proof.
  intros Hok Hc Hn Hn'. unfold get_sbits.
  destruct (UPDATE_CACHE_spec s Hok Hc) as (c&->&Hr&Hs). simpl. unfold SHOW_SBITS.
  rewrite (proj2 (Z.leb_le 1 n)), (proj2 (Z.leb_le n 32)) by zdiv. simpl.
  rewrite Z.shiftr_div_pow2 by zdiv. rewrite asr_signed by zdiv. rewrite Hs by zdiv. done.
Qed.

Lemma skip_bits_spec s n : gb_ok s -> cache_in s -> skip_bits s n = Some (SKIP_COUNTER s n).
Proof.
  intros Hok Hc. unfold skip_bits.
  destruct (UPDATE_CACHE_spec s Hok Hc) as (c&->&_). done.
Qed.

Lemma gb_ok_skip s n : gb_ok s -> 0 <= n -> gb_ok (SKIP_COUNTER s n).
Proof. intros [? ?] ?. split; simpl; [done|lia]. Qed.

Lemma get_bits1_slice s : gb_ok s -> gb_index s / 8 < zlen (gb_buffer s) ->
  get_bits1 s = Some (peek s 1, SKIP_COUNTER s 1).
Proof.
  intros [Hb Hi] Hl. unfold get_bits1. change 7 with (Z.ones 3) at 1.
  rewrite Z.land_ones, !Z.shiftr_div_pow2 by done. change (2 ^ 3) with 8.
  destruct (aget_Some (gb_buffer s) (gb_index s / 8)) as [b E]; [zdiv|].
  rewrite E. cbn -[Z.pow Z.div Z.modulo]. do 2 f_equal. apply bits_byte in E; [|done].
  rewrite <- E. unfold wrapu. rewrite Z.shiftr_div_pow2, Z.shiftl_mul_pow2 by zdiv.
  set (k := gb_index s mod 8). set (x := bits _ _ 8).
  assert ((x * 2 ^ k) mod 2 ^ 8 / 2 ^ 7 = (x / 2 ^ (8 - k - 1)) mod 2 ^ 1) as ->.
  { assert (0 <= k < 8) by (subst k; zdiv).
    apply Z.bits_inj'. intros j Hj. rewrite Z.div_pow2_bits by lia.
    destruct (Z.ltb_spec j 1).
    - rewrite Z.mod_pow2_bits_low, Z.mul_pow2_bits, Z.mod_pow2_bits_low,
        Z.div_pow2_bits by lia. f_equal. lia.
    - by rewrite !Z.mod_pow2_bits_high by lia. }
  subst k x. rewrite bits_sub by zdiv. f_equal. zdiv.
Qed.

(** ** Wide reads *)

Lemma get_bits_long_slice s n : gb_ok s -> 1 <= n <= 32 ->
  (gb_index s + n - 1) / 8 + 4 <= zlen (gb_buffer s) ->
  get_bits_long s n = Some (peek s n, SKIP_COUNTER s n).
Proof.
  intros Hok Hn Hl. pose proof Hok as [Hb Hi]. unfold get_bits_long.
  destruct (Z.leb_spec n 17).
  { apply get_bits_slice; [done|unfold cache_in; zdiv|lia|zdiv]. }
  rewrite get_bits_slice; [|done|unfold cache_in; zdiv|lia|zdiv]. simpl.
  rewrite get_bits_slice;
    [|apply gb_ok_skip; [done|lia]|unfold cache_in; simpl; zdiv|lia|zdiv].
  simpl. f_equal. f_equal.
  - pose proof (bits_app (gb_buffer s) (gb_index s) 16 (n - 16)) as Ha.
    replace (16 + (n - 16)) with n in Ha by lia. rewrite Ha by zdiv.
    pose proof (bits_range (gb_buffer s) (gb_index s) 16).
    pose proof (bits_range (gb_buffer s) (gb_index s + 16) (n - 16)).
    rewrite wrapu_small.
    + rewrite lor_byte by lia. done.
    + rewrite Z.shiftl_mul_pow2 by lia. split; [nia|].
      assert (2 ^ (n - 16) <= 2 ^ 16) by (apply Z.pow_le_mono_r; lia).
      change (2 ^ 32) with (2 ^ 16 * 2 ^ 16). nia.
  - unfold SKIP_COUNTER. simpl. f_equal. lia.
Qed.

Lemma sign_extend_spec v n : 1 <= n <= 32 -> 0 <= v < 2 ^ n ->
  sign_extend v n = Some (wraps n v).
Proof.
  intros Hn Hv. unfold sign_extend.
  rewrite (proj2 (Z.leb_le 1 n)), (proj2 (Z.leb_le n 32)) by lia. simpl.
  rewrite Z.shiftr_div_pow2, Z.shiftl_mul_pow2 by lia. f_equal.
  assert (0 <= v * 2 ^ (32 - n) < 2 ^ 32).
  { pose proof (pow2_pos (32 - n)). split; [nia|].
    replace (2 ^ 32) with (2 ^ n * 2 ^ (32 - n))
      by (rewrite <- Z.pow_add_r by lia; f_equal; lia). nia. }
  rewrite asr_signed by done. rewrite Z.div_mul by (apply Z.pow_nonzero; lia). done.
Qed.

Lemma get_sbits_long_slice s n : gb_ok s -> 1 <= n <= 32 ->
  (gb_index s + n - 1) / 8 + 4 <= zlen (gb_buffer s) ->
  get_sbits_long s n = Some (wraps n (peek s n), SKIP_COUNTER s n).
Proof.
  intros. unfold get_sbits_long. rewrite get_bits_long_slice by done. simpl.
  rewrite sign_extend_spec; [done|lia|]. apply bits_range. lia.
Qed.

(** ** [av_log2] *)

Lemma ff_log2_tab_spec v : 0 <= v < 256 -> aget ff_log2_tab v = Some (Z.log2 v).
Proof.
  intros Hv.
  assert (forallb (fun v => bool_decide (aget ff_log2_tab v = Some (Z.log2 v))) (seqZ 0 256)
    = true) as Hall by (vm_compute; reflexivity).
  pose proof (forall_range _ _ _ Hall v Hv) as H. by apply bool_decide_eq_true_1 in H.
Qed.

(** A masked test of the high half of a word. *)
Lemma bitset_high v n m : 0 <= n -> 0 <= m -> 0 <= v < 2 ^ (n + m) ->
  bitset v (Z.ones m .<< n) = (2 ^ n <=? v).
Proof.
  intros. unfold bitset.
  assert (v .& (Z.ones m .<< n) = (v / 2 ^ n) * 2 ^ n) as ->.
  { rewrite <- Z.shiftl_mul_pow2, <- Z.shiftr_div_pow2 by done.
    apply Z.bits_inj'. intros k Hk. rewrite Z.land_spec.
    destruct (Z.ltb_spec k n).
    - by rewrite !Z.shiftl_spec_low, andb_false_r by done.
    - rewrite !Z.shiftl_spec, Z.shiftr_spec by lia.
      replace (k - n + n) with k by lia.
      destruct (Z.ltb_spec (k - n) m).
      + rewrite Z.ones_spec_low by lia. apply andb_true_r.
      + rewrite Z.ones_spec_high, andb_false_r by lia. symmetry.
        destruct (decide (v = 0)) as [->|]; [by rewrite Z.bits_0|].
        apply Z.bits_above_log2; [lia|].
        apply Z.lt_le_trans with (n + m); [|lia]. apply Z.log2_lt_pow2; lia. }
  pose proof (pow2_pos n ltac:(done)).
  destruct (Z.leb_spec (2 ^ n) v) as [Hv|Hv].
  - assert (1 <= v / 2 ^ n) by (apply Z.div_le_lower_bound; lia).
    rewrite (proj2 (Z.eqb_neq _ 0)) by nia. done.
  - rewrite Z.div_small by lia. done.
Qed.

Lemma log2_shiftr v n : 0 <= n -> 2 ^ n <= v -> Z.log2 v = n + Z.log2 (v / 2 ^ n).
Proof.
  intros. pose proof (pow2_pos n ltac:(done)). rewrite <- Z.shiftr_div_pow2 by done.
  rewrite Z.log2_shiftr by lia.
  assert (n <= Z.log2 v); [|lia]. apply Z.log2_le_pow2; lia.
Qed.

Lemma av_log2_spec v : 0 <= v < 2 ^ 32 -> av_log2 v = Some (Z.log2 v).
Proof.
  intros Hv. unfold av_log2.
  change 0xffff0000 with (Z.ones 16 .<< 16). change 0xff00 with (Z.ones 8 .<< 8).
  rewrite bitset_high by (simpl; lia).
  assert (forall v n, 0 <= v < 2 ^ 16 ->
    (let '(v, n) := if bitset v (Z.ones 8 .<< 8) then (v .>> 8, n + 8) else (v, n) in
     t ← aget ff_log2_tab v; Some (n + t)) = Some (n + Z.log2 v)) as Hlow.
  { clear. intros v n Hv. rewrite bitset_high by (simpl; lia).
    destruct (Z.leb_spec (2 ^ 8) v).
    - rewrite Z.shiftr_div_pow2 by done. rewrite ff_log2_tab_spec.
      + simpl. rewrite (log2_shiftr v 8) by lia. f_equal. lia.
      + change (2 ^ 8) with 256 in *. change (2 ^ 16) with 65536 in *. zdiv.
    - rewrite ff_log2_tab_spec by (change (2 ^ 8) with 256 in *; lia). done. }
  destruct (Z.leb_spec (2 ^ 16) v).
  - rewrite Hlow.
    + rewrite Z.shiftr_div_pow2, (log2_shiftr v 16) by lia. done.
    + rewrite Z.shiftr_div_pow2 by done. change (2 ^ 16) with 65536 in *.
      change (2 ^ 32) with (65536 * 65536) in Hv. zdiv.
  - rewrite Hlow by lia. done.
Qed.

(** ** Byte-aligned reads *)

(** The bytes [l] are in the buffer from byte [p] on. *)
Definition at_bytes (buf : list Z) (p : Z) (l : list Z) : Prop :=
  forall i x, l !! i = Some x -> aget buf (p + Z.of_nat i) = Some x.

Lemma at_bytes_cons buf p x l : at_bytes buf p (x :: l) ->
  aget buf p = Some x /\ at_bytes buf (p + 1) l.
Proof.
  intros H. split.
  - rewrite <- (Z.add_0_r p). by apply (H O).
  - intros i y Hy. rewrite <- (H (S i) y Hy). f_equal. lia.
Qed.

Lemma at_bytes_app pre l post : at_bytes (pre ++ l ++ post) (zlen pre) l.
Proof.
  intros i x Hx. rewrite aget_lookup by lia.
  replace (Z.to_nat (zlen pre + Z.of_nat i)) with (length pre + i)%nat by lia.
  rewrite lookup_app_r by lia. replace (length pre + i - length pre)%nat with i by lia.
  by apply lookup_app_l_Some.
Qed.

Lemma get_byte_at s p b : gb_ok s -> gb_index s = 8 * p -> p + 4 <= zlen (gb_buffer s) ->
  aget (gb_buffer s) p = Some b -> get_bits s 8 = Some (b, SKIP_COUNTER s 8).
Proof.
  intros Hok Hp Hl Hb. pose proof Hok as [? ?].
  rewrite get_bits_slice; [|done|unfold cache_in; zdiv|lia|zdiv].
  do 2 f_equal. rewrite Hp. by apply bits_byte.
Qed.

(** ** UTF-8 round trip *)

Lemma utf8_cont v sh : 0 <= v -> 6 <= sh ->
  let b := u8 (0x80 .| ((v .>> (sh - 6)) .& 0x3f)) in
  128 <= b < 192 /\ v / 2 ^ sh * 64 + (b - 128) = v / 2 ^ (sh - 6).
Proof.
  intros Hv Hsh b. subst b. change 0x3f with (Z.ones 6).
  rewrite Z.land_ones, Z.shiftr_div_pow2 by lia. change (2 ^ 6) with 64.
  set (q := v / 2 ^ (sh - 6)).
  assert (q = 64 * (v / 2 ^ sh) + q mod 64) as Hq.
  { replace (v / 2 ^ sh) with (q / 64); [apply Z.div_mod; lia|].
    subst q. rewrite Z.div_div by (try apply Z.pow_nonzero; lia).
    change 64 with (2 ^ 6) at 1. rewrite <- Z.pow_add_r by lia. do 2 f_equal. lia. }
  pose proof (Z.mod_pos_bound q 64 ltac:(lia)).
  assert (0x80 .| q mod 64 = 128 + q mod 64) as ->.
  { change (0x80 .| q mod 64) with ((1 .<< 7) .| q mod 64). rewrite lor_byte by (change (2 ^ 7) with 128; lia).
    change (2 ^ 7) with 128. lia. }
  rewrite wrapu_small by (change (2 ^ 8) with 256; lia). lia.
Qed.

Lemma utf8_tail_roundtrip n v s p : 0 <= v < 2 ^ 31 -> gb_ok s -> gb_index s = 8 * p ->
  at_bytes (gb_buffer s) p (PUT_UTF8_tail (6 * n) v (6 * Z.of_nat n)) ->
  p + Z.of_nat n + 3 <= zlen (gb_buffer s) ->
  GET_UTF8_tail n (v / 2 ^ (6 * Z.of_nat n)) s = Some (Some v, SKIP_COUNTER s (8 * Z.of_nat n)).
Proof.
  intros Hv. revert s p.
  assert (forall n f, (n <= f)%nat ->
    PUT_UTF8_tail f v (6 * Z.of_nat n) = PUT_UTF8_tail n v (6 * Z.of_nat n)) as Hfuel.
  { clear n. induction n as [|n IH]; intros f Hf.
    - destruct f; done.
    - destruct f as [|f]; [lia|]. simpl. rewrite !(proj2 (Z.leb_le 6 _)) by lia.
      f_equal. replace (6 * Z.of_nat (S n) - 6) with (6 * Z.of_nat n) by lia.
      apply IH. lia. }
  induction n as [|n IH]; intros s p Hok Hi Hat Hl.
  - change (2 ^ (6 * Z.of_nat 0)) with 1. rewrite Z.div_1_r.
    destruct s. unfold SKIP_COUNTER. simpl. by rewrite Z.add_0_r.
  - rewrite Hfuel in Hat by lia. cbn [PUT_UTF8_tail] in Hat.
    rewrite (proj2 (Z.leb_le 6 _)) in Hat by lia.
    apply at_bytes_cons in Hat as [Hb Hat].
    destruct (utf8_cont v (6 * Z.of_nat (S n))) as [Hr Hq]; [lia|lia|].
    set (b := u8 _) in *. cbn [GET_UTF8_tail].
    rewrite (get_byte_at s p b) by (done || lia). cbn -[Z.mul Z.pow Z.div Z.shiftr Z.shiftl].
    assert ((b - 128) .>> 6 = 0) as ->.
    { rewrite Z.shiftr_div_pow2 by lia. apply Z.div_small. change (2 ^ 6) with 64. lia. }
    cbn -[Z.mul Z.pow Z.div Z.shiftr Z.shiftl].
    rewrite Z.shiftl_mul_pow2 by lia. change (2 ^ 6) with 64. rewrite Hq.
    replace (6 * Z.of_nat (S n) - 6) with (6 * Z.of_nat n) in * by lia.
    rewrite wraps_small.
    2: lia.
    2: { pose proof (pow2_pos (6 * Z.of_nat n) ltac:(lia)).
         change (2 ^ (64 - 1)) with (2 ^ 63).
         pose proof (Z.div_pos v (2 ^ (6 * Z.of_nat n))).
         pose proof (Z.div_le_upper_bound v (2 ^ (6 * Z.of_nat n)) v).
         assert (v / 2 ^ (6 * Z.of_nat n) <= v) by nia. lia. }
    rewrite (IH (SKIP_COUNTER s 8) (p + 1)).
    + unfold SKIP_COUNTER. simpl. do 3 f_equal. lia.
    + apply gb_ok_skip; [done|lia].
    + simpl. lia.
    + rewrite Hfuel by lia. exact Hat.
    + simpl. lia.
Qed.

Lemma utf8_tail_bytes n v f : 0 <= v -> (n <= f)%nat ->
  zlen (PUT_UTF8_tail f v (6 * Z.of_nat n)) = Z.of_nat n /\
  bytes_ok (PUT_UTF8_tail f v (6 * Z.of_nat n)).
Proof.
  intros Hv. revert f. induction n as [|n IH]; intros f Hf; [by destruct f|].
  destruct f as [|f]; [lia|]. cbn [PUT_UTF8_tail].
  rewrite (proj2 (Z.leb_le 6 _)) by lia.
  destruct (utf8_cont v (6 * Z.of_nat (S n))) as [Hr _]; [lia|lia|].
  replace (6 * Z.of_nat (S n) - 6) with (6 * Z.of_nat n) in * by lia.
  destruct (IH f) as [Hl Hb]; [lia|]. split; [simpl length; lia|].
  constructor; [|done]. unfold byte_ok. lia.
Qed.

(** The head byte of an [n]-byte sequence, [2 <= n <= 6]. *)
Lemma utf8_head n hi : 2 <= n <= 6 -> 0 <= hi < 2 ^ (7 - n) ->
  let b := u8 ((256 - (256 .>> n)) .| hi) in
  av_log2 (b .^ 255) = Some (7 - n) /\ b .& (127 .>> n) = hi /\ byte_ok b.
Proof.
  intros Hn Hhi b.
  assert (forallb (fun n => forallb (fun hi =>
      let b := u8 ((256 - (256 .>> n)) .| hi) in
      bool_decide (av_log2 (b .^ 255) = Some (7 - n)) &&
      (b .& (127 .>> n) =? hi) && (0 <=? b) && (b <? 256))
    (seqZ 0 (2 ^ (7 - n)))) (seqZ 2 5) = true) as Hall by (vm_compute; reflexivity).
  pose proof (forall_range _ _ _ Hall n ltac:(lia)) as Hall'. cbv beta in Hall'.
  pose proof (forall_range _ _ _ Hall' hi ltac:(lia)) as H. cbv beta zeta in H.
  fold b in H. zbool. apply bool_decide_eq_true_1 in H. done.
Qed.

Lemma utf8_length v l : 128 <= v -> l = Z.log2 v -> v < 2 ^ 31 ->
  let n := Z.quot (l + 4) 5 in 2 <= n <= 6 /\ 0 <= v / 2 ^ ((n - 1) * 6) < 2 ^ (7 - n).
Proof.
  intros Hv -> Hv' n.
  assert (7 <= Z.log2 v) by (apply Z.log2_le_pow2; simpl; lia).
  assert (Z.log2 v < 31) by (apply Z.log2_lt_pow2; lia).
  assert (2 <= n <= 6 /\ Z.log2 v <= 5 * n) as [Hn Hl] by (subst n; zdiv).
  split; [done|]. pose proof (pow2_pos ((n - 1) * 6) ltac:(lia)).
  split; [apply Z.div_pos; lia|]. apply Z.div_lt_upper_bound; [done|].
  rewrite <- Z.pow_add_r by lia.
  apply Z.lt_le_trans with (2 ^ (Z.succ (Z.log2 v))).
  - apply Z.log2_spec. lia.
  - apply Z.pow_le_mono_r; lia.
Qed.

(** What [PUT_UTF8] writes: one to six bytes, which [GET_UTF8] reads back. *)
Lemma PUT_UTF8_bytes v : 0 <= v < 2 ^ 31 ->
  exists bytes, PUT_UTF8 v = Some bytes /\ 1 <= zlen bytes <= 6 /\ bytes_ok bytes.
Proof.
  intros Hv. unfold PUT_UTF8. destruct (Z.ltb_spec v 0x80) as [Hs|Hb].
  { exists [v]. split; [done|]. split; [simpl; lia|].
    repeat constructor; unfold byte_ok; lia. }
  rewrite av_log2_spec by lia. cbn [mbind option_bind].
  destruct (utf8_length v (Z.log2 v)) as [Hn Hhi]; [done..|lia|].
  set (n := Z.quot (Z.log2 v + 4) 5) in *.
  destruct (utf8_head n _ Hn Hhi) as (_&_&Hhead).
  rewrite (proj2 (Z.leb_gt 32 _)) by lia.
  rewrite Z.shiftr_div_pow2 with (n := (n - 1) * 6) by lia.
  replace ((n - 1) * 6) with (6 * (n - 1)) in * by lia.
  eexists. split; [done|].
  destruct (utf8_tail_bytes (Z.to_nat (n - 1)) v (Z.to_nat (6 * (n - 1)))) as [Hlen Hok];
    [lia|lia|].
  replace (6 * Z.of_nat (Z.to_nat (n - 1))) with (6 * (n - 1)) in * by lia.
  split; [cbn [length]; lia|]. by constructor.
Qed.

Lemma utf8_read v bytes s p : 0 <= v < 2 ^ 31 -> PUT_UTF8 v = Some bytes -> gb_ok s ->
  gb_index s = 8 * p -> at_bytes (gb_buffer s) p bytes ->
  p + zlen bytes + 3 <= zlen (gb_buffer s) ->
  GET_UTF8 s = Some (Some v, SKIP_COUNTER s (8 * zlen bytes)).
Proof.
  intros Hv Hput Hok Hp Hat Hl. unfold PUT_UTF8 in Hput.
  destruct (Z.ltb_spec v 0x80) as [Hs|Hb].
  { injection Hput as <-. apply at_bytes_cons in Hat as [Hat _]. cbn [length] in *.
    unfold GET_UTF8. rewrite (get_byte_at s p v) by (done || lia). cbn [mbind option_bind].
    assert (forallb (fun v => bool_decide (av_log2 (v .^ 255) = Some 7) &&
        (v .& 127 =? v)) (seqZ 0 128) = true) as Hall by (vm_compute; reflexivity).
    pose proof (forall_range _ _ _ Hall v ltac:(lia)) as H. cbv beta in H. zbool.
    apply bool_decide_eq_true_1 in H. rewrite H. cbn [mbind option_bind].
    change (7 - 7 =? 1) with false. cbv iota. change (Z.to_nat (7 - 7 - 1)) with O.
    change (127 .>> (7 - 7)) with 127. rewrite H0. done. }
  rewrite av_log2_spec in Hput by lia. cbn [mbind option_bind] in Hput.
  destruct (utf8_length v (Z.log2 v)) as [Hn Hhi]; [done..|lia|].
  set (n := Z.quot (Z.log2 v + 4) 5) in *.
  assert (exists k, n - 1 = Z.of_nat k) as [k Ek] by (exists (Z.to_nat (n - 1)); lia).
  replace ((n - 1) * 6) with (6 * Z.of_nat k) in * by lia.
  rewrite (proj2 (Z.leb_gt 32 _)) in Hput by lia.
  destruct (utf8_head n _ Hn Hhi) as (Hlog&Hmask&Hhead).
  rewrite Z.shiftr_div_pow2 with (n := 6 * Z.of_nat k) in Hput by lia.
  injection Hput as <-. set (b := u8 _) in *.
  replace (Z.to_nat (6 * Z.of_nat k)) with (6 * k)%nat in * by lia.
  destruct (utf8_tail_bytes k v (6 * k)) as [Hlen _]; [lia|lia|].
  apply at_bytes_cons in Hat as [Hb0 Htl0]. cbn [length] in *.
  unfold GET_UTF8. rewrite (get_byte_at s p b) by (done || lia).
  cbn [mbind option_bind]. rewrite Hlog. cbn [mbind option_bind].
  replace (7 - (7 - n)) with n by lia. rewrite (proj2 (Z.eqb_neq n 1)) by lia.
  rewrite Hmask. replace (Z.to_nat (n - 1)) with k by lia.
  rewrite (utf8_tail_roundtrip k v (SKIP_COUNTER s 8) (p + 1)).
  - unfold SKIP_COUNTER. cbn [gb_buffer gb_index size_in_bits]. do 3 f_equal. lia.
  - done.
  - apply gb_ok_skip; [done|lia].
  - simpl. lia.
  - exact Htl0.
  - simpl gb_buffer in *. lia.
Qed.

(** A frame number written with [PUT_UTF8] is read back by [GET_UTF8] with
    exactly its own bytes consumed, for every value below 2^31. *)
Theorem utf8_roundtrip v pre post size :
  0 <= v < 2 ^ 31 -> bytes_ok pre -> bytes_ok post -> 3 <= zlen post ->
  exists bytes, PUT_UTF8 v = Some bytes /\ 1 <= zlen bytes <= 6 /\ bytes_ok bytes /\
    GET_UTF8 (MkGetBitContext (pre ++ bytes ++ post) (8 * zlen pre) size)
      = Some (Some v, MkGetBitContext (pre ++ bytes ++ post)
                        (8 * (zlen pre + zlen bytes)) size).
Proof.
  intros Hv Hpre Hpost Hl. destruct (PUT_UTF8_bytes v Hv) as (bytes&Hput&Hlen&Hok).
  exists bytes. split; [done|]. split; [done|]. split; [done|].
  rewrite (utf8_read v bytes _ (zlen pre)); try done.
  - unfold SKIP_COUNTER. cbn [gb_buffer gb_index size_in_bits]. do 3 f_equal. lia.
  - split; [|simpl; lia]. by repeat apply Forall_app_2.
  - apply at_bytes_app.
  - cbn [gb_buffer]. rewrite !length_app. lia.
Qed.

Lemma utf8_roundtrip_witness :
  exists bytes, PUT_UTF8 0x20AC = Some bytes /\ 1 <= zlen bytes <= 6 /\ bytes_ok bytes /\
    GET_UTF8 (MkGetBitContext ([1; 2] ++ bytes ++ [0; 0; 0]) (8 * zlen [1; 2]) 64)
      = Some (Some 0x20AC, MkGetBitContext ([1; 2] ++ bytes ++ [0; 0; 0])
                        (8 * (zlen [1; 2] + zlen bytes)) 64).
Proof.
  apply utf8_roundtrip.
  - lia.
  - repeat constructor; unfold byte_ok; lia.
  - repeat constructor; unfold byte_ok; lia.
  - simpl. lia.
Defined.

(** The wide reads.  With four bytes of memory after the last one read,
    [get_bits_long] and [get_sbits_long] return the unsigned and the two's
    complement value of the next [n] bits, 1 to 32, and advance by [n].  A width
    of 0, which the comment of the C function allows, is a shift by 32. *)
Theorem get_bits_long_correct s n :
  gb_ok s -> 1 <= n <= 32 -> (gb_index s + n - 1) / 8 + 4 <= zlen (gb_buffer s) ->
  get_bits_long s n = Some (bits (gb_buffer s) (gb_index s) n, SKIP_COUNTER s n) /\
  get_sbits_long s n
    = Some (wraps n (bits (gb_buffer s) (gb_index s) n), SKIP_COUNTER s n) /\
  get_bits_long s 0 = None.
Proof.
  intros Hok Hn Hl. split; [by apply get_bits_long_slice|].
  split; [by apply get_sbits_long_slice|].
  unfold get_bits_long, get_bits. simpl. by destruct (UPDATE_CACHE s).
Qed.

Lemma get_bits_long_correct_witness :
  let s := MkGetBitContext [0xF8; 0xC9; 0x1C; 0; 0x7F; 0; 0; 0] 5 64 in
  get_bits_long s 20 = Some (0x19238, SKIP_COUNTER s 20) /\
  get_bits_long s 20 = Some (bits (gb_buffer s) (gb_index s) 20, SKIP_COUNTER s 20) /\
  get_sbits_long s 20
    = Some (wraps 20 (bits (gb_buffer s) (gb_index s) 20), SKIP_COUNTER s 20) /\
  get_bits_long s 0 = None.
Proof.
  intros s. split; [reflexivity|]. apply get_bits_long_correct.
  - split; [|simpl; lia]. repeat constructor; unfold byte_ok; lia.
  - lia.
  - apply Z.leb_le. reflexivity.
Defined.
