(* ===== verification/Golomb.v ===== *)
(** Golomb-Rice codes: [src/libflac/golomb.h], the readers that do not use the
    exp-Golomb tables and the JPEG-LS style writer they are paired with. *)
From S2P Require Import Prelude BitString GetBits.

Definition MIN_CACHE_BITS : Z := 25.
Definition INT_MAX : Z := 2147483647.

(** [for (i = 0; SHOW_UBITS(re, gb, 1) == 0; i++)]: the count, the cache and
    the reader at the first one bit. *)
Fixpoint count_zeros (fuel : nat) (s : GetBitContext) (cache i : Z)
    : option (Z * Z * GetBitContext) :=
  match fuel with
  | O => None
  | S fuel' =>
      b ← SHOW_UBITS cache 1;
      if b =? 0 then
        let s := SKIP_COUNTER s 1 in
        cache ← UPDATE_CACHE s;
        count_zeros fuel' s cache (i + 1)
      else Some (i, cache, s)
  end.

(** Fuel: an index past the last bit of the buffer cannot be read. *)
Definition zeros_fuel (s : GetBitContext) : nat :=
  S (Z.to_nat (8 * zlen (gb_buffer s) - gb_index s)).

Definition get_ur_golomb_jpegls (s : GetBitContext) (k limit esc_len : Z)
    : option (Z * GetBitContext) :=
  buf ← UPDATE_CACHE s;
  log ← av_log2 buf;
  if (32 - MIN_CACHE_BITS + (if MIN_CACHE_BITS =? 32 then 1 else 0) <=? log - k)
     && (32 - log <? limit)
  then
    let buf := buf .>> (log - k) in
    let buf := u32 (buf + ((30 - log) .<< k)) in
    Some (s32 buf, SKIP_COUNTER s (32 + k - log))
  else
    '(i, cache, s') ← count_zeros (zeros_fuel s) s buf 0;
    let cache := u32 (cache .<< 1) in
    let s' := SKIP_COUNTER s' 1 in
    if i <? limit - 1 then
      if negb (k =? 0) then
        buf ← SHOW_UBITS cache k;
        Some (s32 (u32 (buf + (i .<< k))), SKIP_COUNTER s' k)
      else Some (s32 (u32 (i .<< k)), s')
    else if i =? limit - 1 then
      buf ← SHOW_UBITS cache esc_len;
      Some (s32 (u32 (buf + 1)), SKIP_COUNTER s' esc_len)
    else Some (-1, s). (* [CLOSE_READER] is not reached: the index is kept *)

(** The FFV1 variant. *)
Definition get_ur_golomb (s : GetBitContext) (k limit esc_len : Z)
    : option (Z * GetBitContext) :=
  buf ← UPDATE_CACHE s;
  log ← av_log2 buf;
  if 31 - limit <? log then
    if log - k <? 0 then None (* [buf >>= log - k] *) else
    let buf := buf .>> (log - k) in
    let buf := u32 (buf + ((30 - log) .<< k)) in
    Some (s32 buf, SKIP_COUNTER s (32 + k - log))
  else
    let s := SKIP_COUNTER s limit in
    cache ← UPDATE_CACHE s;
    buf ← SHOW_UBITS cache esc_len;
    Some (s32 (u32 (buf + limit - 1)), SKIP_COUNTER s esc_len).

Definition get_sr_golomb (s : GetBitContext) (k limit esc_len : Z)
    : option (Z * GetBitContext) :=
  '(v, s) ← get_ur_golomb s k limit esc_len;
  let v := s32 (v + 1) in
  Some (if bitset v 1 then v .>> 1 else - (v .>> 1), s).

Definition get_sr_golomb_flac (s : GetBitContext) (k limit esc_len : Z)
    : option (Z * GetBitContext) :=
  '(v, s) ← get_ur_golomb_jpegls s k limit esc_len;
  Some ((v .>> 1) .^ (- (v .& 1)), s).

Definition get_ur_golomb_shorten (s : GetBitContext) (k : Z) : option (Z * GetBitContext) :=
  '(v, s) ← get_ur_golomb_jpegls s k INT_MAX 0; Some (u32 v, s).

Definition get_sr_golomb_shorten (s : GetBitContext) (k : Z) : option (Z * GetBitContext) :=
  '(uvar, s) ← get_ur_golomb_jpegls s (k + 1) INT_MAX 0;
  Some (if bitset uvar 1 then Z.lnot (uvar .>> 1) else uvar .>> 1, s).

(** ** The writers

    A writer is the list of its [put_bits] calls: widths and values. *)

(** [while (e > 31) { put_bits(pb, 31, 0); e -= 31; }] *)
Fixpoint put_zeros (fuel : nat) (e : Z) : list (Z * Z) * Z :=
  match fuel with
  | O => ([], e)
  | S fuel' =>
      if 31 <? e then let '(l, e) := put_zeros fuel' (e - 31) in ((31, 0) :: l, e)
      else ([], e)
  end.

Definition set_ur_golomb_jpegls (i k limit esc_len : Z) : list (Z * Z) :=
  let e := (i .>> k) + 1 in
  if e <? limit then
    let '(l, e) := put_zeros (Z.to_nat e) e in
    l ++ [(e, 1)] ++ (if negb (k =? 0) then [(k, i)] else [])
  else
    let '(l, e) := put_zeros (Z.to_nat limit) limit in
    l ++ [(e, 1); (esc_len, i - 1)].

Definition set_sr_golomb_flac (i k limit esc_len : Z) : list (Z * Z) :=
  let v := -2 * i - 1 in
  let v := v .^ (v .>> 31) in
  set_ur_golomb_jpegls v k limit esc_len.

(** ** The unary prefix *)

Lemma bits_succ_zero buf i q : 0 <= q -> i + q + 1 <= 8 * zlen buf ->
  bits buf i (q + 1) = 1 -> bits buf i q = 0 /\ bits buf (i + q) 1 = 1.
Proof.
  intros Hq Hl H. rewrite bits_app in H by lia.
  pose proof (bits_range buf i q Hq). pose proof (bits_range buf (i + q) 1 ltac:(lia)).
  change (2 ^ 1) with 2 in *. lia.
Qed.

(** A prefix of a run of zeros. *)
Lemma bits_zero_prefix buf i q j : 0 <= j <= q -> i + q <= 8 * zlen buf ->
  bits buf i q = 0 -> bits buf i j = 0 /\ bits buf (i + j) (q - j) = 0.
Proof.
  intros Hj Hl H. replace q with (j + (q - j)) in H by lia.
  rewrite bits_app in H by lia.
  pose proof (bits_range buf i j ltac:(lia)).
  pose proof (bits_range buf (i + j) (q - j) ltac:(lia)).
  pose proof (pow2_pos (q - j) ltac:(lia)). nia.
Qed.

Lemma bits_zero_one buf i q : 0 <= q -> i + q + 1 <= 8 * zlen buf ->
  bits buf i q = 0 -> bits buf (i + q) 1 = 1 -> bits buf i (q + 1) = 1.
Proof. intros. rewrite bits_app by lia. change (2 ^ 1) with 2. lia. Qed.

(** The position of the first one bit is unique. *)
Lemma unary_unique buf i p q : 0 <= p -> 0 <= q ->
  i + p + 1 <= 8 * zlen buf -> i + q + 1 <= 8 * zlen buf ->
  bits buf i (p + 1) = 1 -> bits buf i (q + 1) = 1 -> p = q.
Proof.
  intros Hp Hq Hlp Hlq H1 H2.
  apply bits_succ_zero in H1 as [Hp0 Hp1]; [|done..].
  apply bits_succ_zero in H2 as [Hq0 Hq1]; [|done..].
  destruct (Z.lt_trichotomy p q) as [H|[H|H]]; [|done|].
  - apply (bits_zero_prefix _ _ q (p + 1)) in Hq0 as [H0 _]; [|lia..].
    rewrite (bits_zero_one _ _ p) in H0 by done. done.
  - apply (bits_zero_prefix _ _ p (q + 1)) in Hp0 as [H0 _]; [|lia..].
    rewrite (bits_zero_one _ _ q) in H0 by done. done.
Qed.

Lemma count_zeros_spec q s cache i fuel : 0 <= q -> gb_ok s ->
  UPDATE_CACHE s = Some cache -> (gb_index s + q) / 8 + 4 <= zlen (gb_buffer s) ->
  peek s (q + 1) = 1 -> q < Z.of_nat fuel ->
  exists cache', count_zeros fuel s cache i = Some (i + q, cache', SKIP_COUNTER s q) /\
    UPDATE_CACHE (SKIP_COUNTER s q) = Some cache'.
Proof.
  intros Hq. revert s cache i fuel.
  apply (natlike_ind (fun q => forall s cache i fuel, gb_ok s ->
    UPDATE_CACHE s = Some cache -> (gb_index s + q) / 8 + 4 <= zlen (gb_buffer s) ->
    peek s (q + 1) = 1 -> q < Z.of_nat fuel ->
    exists cache', count_zeros fuel s cache i = Some (i + q, cache', SKIP_COUNTER s q) /\
      UPDATE_CACHE (SKIP_COUNTER s q) = Some cache')); [| |done].
  - intros s cache i [|fuel] Hok Hc Hl Hp Hf; [lia|]. cbn [count_zeros].
    destruct (UPDATE_CACHE_spec s Hok) as (c&Hc'&Hr&Hs); [unfold cache_in; zdiv|].
    rewrite Hc' in Hc. injection Hc as ->.
    rewrite SHOW_UBITS_spec by lia. pose proof (Hs 1 ltac:(zdiv)) as H1.
    change (0 + 1) with 1 in Hp. rewrite H1, Hp. simpl.
    assert (SKIP_COUNTER s 0 = s) as -> by (destruct s; unfold SKIP_COUNTER; simpl;
      by rewrite Z.add_0_r).
    rewrite Z.add_0_r. eauto.
  - clear q Hq. intros q Hq IH s cache i [|fuel] Hok Hc Hl Hp Hf; [lia|].
    cbn [count_zeros]. pose proof Hok as [Hb Hi].
    destruct (UPDATE_CACHE_spec s Hok) as (c&Hc'&Hr&Hs); [unfold cache_in; zdiv|].
    rewrite Hc' in Hc. injection Hc as ->.
    rewrite SHOW_UBITS_spec by lia. pose proof (Hs 1 ltac:(zdiv)) as H1.
    rewrite H1. simpl.
    apply bits_succ_zero in Hp as [Hp0 Hp1]; [|lia|zdiv].
    pose proof (bits_zero_prefix (gb_buffer s) (gb_index s) (Z.succ q) 1 ltac:(lia) ltac:(zdiv) Hp0) as [-> Hrest].
    simpl. replace (Z.succ q - 1) with q in Hrest by lia.
    assert (gb_ok (SKIP_COUNTER s 1)) as Hok1 by (apply gb_ok_skip; [done|lia]).
    destruct (UPDATE_CACHE_spec (SKIP_COUNTER s 1) Hok1) as (c1&Hc1&_);
      [unfold cache_in; simpl; zdiv|]. rewrite Hc1. simpl.
    destruct (IH (SKIP_COUNTER s 1) c1 (i + 1) fuel) as (c2&E&Hc2).
    + done.
    + done.
    + simpl. replace (gb_index s + 1 + q) with (gb_index s + Z.succ q) by lia. done.
    + simpl. apply bits_zero_one; [lia|zdiv|done|].
      replace (gb_index s + 1 + q) with (gb_index s + Z.succ q) by lia. done.
    + lia.
    + assert (SKIP_COUNTER (SKIP_COUNTER s 1) q = SKIP_COUNTER s (Z.succ q)) as Esk.
      { unfold SKIP_COUNTER. simpl. f_equal. lia. }
      rewrite Esk in *. exists c2. rewrite E. split; [|done]. do 3 f_equal. lia.
Qed.

(** ** The Rice code of [q * 2^k + r] *)

(** The code starts at the index: [q] zeros, a one, and [k] bits [r]. *)
Record rice_at (s : GetBitContext) (k q r : Z) : Prop := RiceAt {
  ra_q : 0 <= q;
  ra_unary : peek s (q + 1) = 1;
  ra_rest : bits (gb_buffer s) (gb_index s + q + 1) k = r;
  ra_room : (gb_index s + q + k) / 8 + 4 <= zlen (gb_buffer s)
}.

Lemma ur_golomb_jpegls_rice s k q r : gb_ok s -> 0 <= k <= 24 -> rice_at s k q r ->
  q < INT_MAX - 1 ->
  get_ur_golomb_jpegls s k INT_MAX 0
    = Some (s32 (u32 (q * 2 ^ k + r)), SKIP_COUNTER s (q + 1 + k)).
Proof.
  intros Hok Hk [Hq Hun Hr Hl] Hqm. pose proof Hok as [Hb Hi].
  unfold get_ur_golomb_jpegls. unfold INT_MAX in *.
  destruct (UPDATE_CACHE_spec s Hok) as (c&Hc&Hcr&Hs); [unfold cache_in; zdiv|].
  rewrite Hc. cbn [mbind option_bind negb andb].
  rewrite av_log2_spec by lia. cbn [mbind option_bind negb andb].
  change (32 - MIN_CACHE_BITS + (if MIN_CACHE_BITS =? 32 then 1 else 0)) with 7.
  destruct (Z.leb_spec 7 (Z.log2 c - k)) as [Hlog|Hlog];
    [rewrite (proj2 (Z.ltb_lt (32 - Z.log2 c) _)) by (pose proof (Z.log2_nonneg c); lia)
    |].
  - cbn [mbind option_bind negb andb].
    assert (0 < c) as Hc0.
    { destruct (decide (c = 0)) as [->|]; [simpl in Hlog; lia|lia]. }
    pose proof (Z.log2_spec c Hc0) as [Hlo Hhi].
    assert (Z.log2 c < 32) by (apply Z.log2_lt_pow2; lia).
    set (L := Z.log2 c) in *.
    assert (q = 31 - L) as Eq.
    { apply (unary_unique (gb_buffer s) (gb_index s)); [lia|lia|zdiv|zdiv|done|].
      rewrite <- Hs by zdiv. replace (32 - (31 - L + 1)) with L by lia.
      symmetry. apply Z.div_unique with (c - 2 ^ L); [|lia].
      rewrite Z.pow_succ_r in Hhi by lia. lia. }
    rewrite Z.shiftr_div_pow2, Z.shiftl_mul_pow2 by lia.
    pose proof (Hs (q + 1 + k) ltac:(zdiv)) as Hcode.
    replace (32 - (q + 1 + k)) with (L - k) in Hcode by lia.
    rewrite Hcode, bits_app, Hun by zdiv.
    replace (gb_index s + (q + 1)) with (gb_index s + q + 1) by lia. rewrite Hr.
    replace (1 * 2 ^ k + r + (30 - L) * 2 ^ k) with (q * 2 ^ k + r) by (rewrite Eq; clear; generalize (2 ^ k) as P; intros; lia).
    replace (32 + k - L) with (q + 1 + k) by lia. done.
  - destruct (count_zeros_spec q s c 0 (zeros_fuel s)) as (c'&E&Hc');
      [done|done|done|zdiv|done|unfold zeros_fuel; zdiv|].
    cbn [mbind option_bind]. rewrite E.
    cbn [mbind option_bind negb andb].
    rewrite (proj2 (Z.ltb_lt (0 + q) _)) by lia.
    assert (gb_ok (SKIP_COUNTER s q)) as Hokq by (apply gb_ok_skip; done).
    destruct (UPDATE_CACHE_spec (SKIP_COUNTER s q) Hokq) as (c2&Hc2&Hcr2&Hs2);
      [unfold cache_in; simpl; zdiv|].
    rewrite Hc' in Hc2. injection Hc2 as <-. cbn [gb_index gb_buffer SKIP_COUNTER] in Hs2.
    destruct (Z.eqb_spec k 0) as [->|Hk0].
    + cbn [mbind option_bind negb andb]. f_equal. f_equal.
      * rewrite bits_0 in Hr. subst r. rewrite Z.shiftl_0_r.
        change (2 ^ 0) with 1. do 2 f_equal. lia.
      * unfold SKIP_COUNTER. simpl. f_equal. lia.
    + cbn [mbind option_bind negb andb].
      rewrite SHOW_UBITS_spec by lia. cbn [mbind option_bind negb andb].
      unfold wrapu at 1 2. rewrite !Z.shiftl_mul_pow2 by lia.
      rewrite shl_trunc_slice by lia. rewrite Z.add_0_l.
      pose proof (Hs2 (k + 1) ltac:(zdiv)) as Hk1.
      replace (32 - (k + 1)) with (32 - 1 - k) in Hk1 by lia. rewrite Hk1.
      pose proof (bits_app (gb_buffer s) (gb_index s + q) 1 k) as Ha.
      replace (1 + k) with (k + 1) in Ha by lia. rewrite Ha by zdiv. rewrite Hr.
      assert (0 <= r < 2 ^ k) by (rewrite <- Hr; apply bits_range; lia).
      rewrite (Z.add_comm (_ * _) r), Z.mod_add, (Z.mod_small r)
        by (try apply Z.pow_nonzero; lia).
      f_equal. f_equal.
      * unfold wrapu. do 2 f_equal. lia.
      * unfold SKIP_COUNTER. simpl. f_equal. lia.
Qed.

(** ** The writers produce Rice codes *)

Lemma put_zeros_spec fuel e l e' : put_zeros fuel e = (l, e') -> 1 <= e <= Z.of_nat fuel ->
  0 <= width l /\ width l + e' = e /\ 1 <= e' <= 31 /\
  forall buf i, i + width l <= 8 * zlen buf -> written buf i l -> bits buf i (width l) = 0.
Proof.
  revert e l e'. induction fuel as [|fuel IH]; intros e l e' E He; [lia|].
  cbn [put_zeros] in E. destruct (Z.ltb_spec 31 e).
  - destruct (put_zeros fuel (e - 31)) as [l0 e0] eqn:E0. simplify_eq.
    destruct (IH _ _ _ E0) as (?&?&?&Hw); [lia|]. rewrite width_cons.
    split; [lia|]. split; [lia|]. split; [done|].
    intros buf i Hl [Hz Hrest]. rewrite bits_app by lia.
    rewrite Hz, (Hw buf (i + 31)) by (done || lia). done.
  - simplify_eq. change (width []) with 0. split; [done|]. split; [lia|]. split; [lia|].
    intros. apply bits_0.
Qed.

Lemma set_ur_width v k : 0 <= k -> 0 <= v -> v / 2 ^ k + 1 < INT_MAX ->
  width (set_ur_golomb_jpegls v k INT_MAX 0) = v / 2 ^ k + 1 + k.
Proof.
  intros Hk Hv Hq. unfold set_ur_golomb_jpegls. rewrite Z.shiftr_div_pow2 by done.
  assert (0 <= v / 2 ^ k) by (apply Z.div_pos; [done|by apply pow2_pos]).
  rewrite (proj2 (Z.ltb_lt (v / 2 ^ k + 1) _)) by done.
  destruct (put_zeros (Z.to_nat (v / 2 ^ k + 1)) (v / 2 ^ k + 1)) as [l e] eqn:E.
  apply put_zeros_spec in E as (?&?&?&_); [|lia].
  rewrite !width_app. destruct (Z.eqb_spec k 0); simpl negb; rewrite ?width_cons;
    change (width []) with 0; lia.
Qed.

Lemma set_ur_rice v k s l : gb_ok s -> 0 <= k -> 0 <= v -> v / 2 ^ k + 1 < INT_MAX ->
  l = set_ur_golomb_jpegls v k INT_MAX 0 ->
  written (gb_buffer s) (gb_index s) l ->
  (gb_index s + width l - 1) / 8 + 4 <= zlen (gb_buffer s) ->
  rice_at s k (v / 2 ^ k) (v mod 2 ^ k) /\ width l = v / 2 ^ k + 1 + k.
Proof.
  intros [Hb Hi] Hk Hv Hq -> Hw Hl. pose proof (set_ur_width v k Hk Hv Hq) as Hwidth.
  unfold set_ur_golomb_jpegls in *.
  rewrite Z.shiftr_div_pow2 in * by done.
  assert (0 <= v / 2 ^ k) by (apply Z.div_pos; [done|by apply pow2_pos]).
  set (q := v / 2 ^ k) in *. rewrite (proj2 (Z.ltb_lt (q + 1) _)) in * by done.
  destruct (put_zeros (Z.to_nat (q + 1)) (q + 1)) as [l e] eqn:E.
  apply put_zeros_spec in E as (Hwl&Hwe&He&Hz); [|lia].
  rewrite Hwidth in Hl. split; [|done].
  rewrite !written_app in Hw. destruct Hw as (Hw1&[Hw2 _]&Hw3).
  specialize (Hz (gb_buffer s) (gb_index s) ltac:(zdiv) Hw1).
  rewrite (Z.mod_small 1) in Hw2 by (split; [lia|apply Z.pow_gt_1; lia]).
  split; [done| | |].
  - replace (q + 1) with (width l + e) by done. rewrite bits_app by zdiv. rewrite Hz, Hw2. done.
  - replace (gb_index s + q + 1) with (gb_index s + width l + width [(e, 1)])
      by (rewrite width_cons; change (width []) with 0; lia).
    destruct (Z.eqb_spec k 0) as [->|]; simpl in Hw3.
    + rewrite bits_0. by rewrite Z.mod_1_r.
    + apply Hw3.
  - replace (gb_index s + q + k) with (gb_index s + (q + 1 + k) - 1) by lia. done.
Qed.

(** The zig-zag map. *)
Lemma zigzag_encode i : -2 ^ 30 <= i < 2 ^ 30 ->
  (-2 * i - 1) .^ ((-2 * i - 1) .>> 31) = if i <? 0 then -2 * i - 1 else 2 * i.
Proof.
  intros. rewrite Z.shiftr_div_pow2 by done. destruct (Z.ltb_spec i 0).
  - rewrite Z.div_small by lia. apply Z.lxor_0_r.
  - replace ((-2 * i - 1) / 2 ^ 31) with (-1) by zdiv.
    rewrite Z.lxor_m1_r. unfold Z.lnot. lia.
Qed.

Lemma zigzag_decode i : -2 ^ 30 <= i < 2 ^ 30 ->
  let v := if i <? 0 then -2 * i - 1 else 2 * i in (v .>> 1) .^ (- (v .& 1)) = i.
Proof.
  intros Hi v. change (v .& 1) with (v .& Z.ones 1). rewrite Z.land_ones by done. subst v.
  rewrite Z.shiftr_div_pow2 by done. change (2 ^ 1) with 2. destruct (Z.ltb_spec i 0).
  - replace ((-2 * i - 1) mod 2) with 1 by zdiv.
    replace ((-2 * i - 1) / 2) with (- i - 1) by zdiv.
    rewrite Z.lxor_m1_r. unfold Z.lnot. lia.
  - replace (2 * i mod 2) with 0 by zdiv. replace (2 * i / 2) with i by zdiv.
    apply Z.lxor_0_r.
Qed.

(** Residuals whose zig-zag image fits the 31-bit unary counter. *)
Definition residual_ok (i : Z) : Prop := -2 ^ 29 <= i < 2 ^ 29.

Lemma zigzag_range i : residual_ok i ->
  0 <= (if i <? 0 then -2 * i - 1 else 2 * i) < 2 ^ 30.
Proof. unfold residual_ok. intros. destruct (Z.ltb_spec i 0); lia. Qed.

Lemma rice_quot v k : 0 <= k -> 0 <= v -> 0 <= v / 2 ^ k <= v.
Proof.
  intros Hk Hv. pose proof (pow2_pos k Hk). split; [apply Z.div_pos; lia|].
  apply Z.div_le_upper_bound; [lia|]. nia.
Qed.

Lemma sr_golomb_width i k : 0 <= k -> residual_ok i ->
  1 <= width (set_sr_golomb_flac i k INT_MAX 0).
Proof.
  intros Hk Hi. unfold set_sr_golomb_flac. pose proof (zigzag_range i Hi).
  rewrite zigzag_encode by (unfold residual_ok in Hi; lia).
  set (v := if i <? 0 then -2 * i - 1 else 2 * i) in *.
  pose proof (rice_quot v k Hk ltac:(lia)).
  rewrite set_ur_width by (unfold INT_MAX; lia). lia.
Qed.

Lemma sr_golomb_read i k s l :
  gb_ok s -> 0 <= k <= 24 -> residual_ok i ->
  l = set_sr_golomb_flac i k INT_MAX 0 ->
  written (gb_buffer s) (gb_index s) l ->
  (gb_index s + width l - 1) / 8 + 4 <= zlen (gb_buffer s) ->
  get_sr_golomb_flac s k INT_MAX 0 = Some (i, SKIP_COUNTER s (width l)).
Proof.
  intros Hok Hk Hi Hl Hw Hroom. unfold residual_ok in Hi. unfold set_sr_golomb_flac in Hl.
  rewrite zigzag_encode in Hl by lia.
  pose proof (zigzag_decode i ltac:(lia)) as Hdec. cbv zeta in Hdec.
  set (v := if i <? 0 then -2 * i - 1 else 2 * i) in *.
  assert (0 <= v < 2 ^ 30) as Hv by (subst v; destruct (Z.ltb_spec i 0); lia).
  assert (0 <= v / 2 ^ k <= v) as Hq.
  { pose proof (pow2_pos k ltac:(lia)). split; [apply Z.div_pos; lia|].
    apply Z.div_le_upper_bound; [lia|]. nia. }
  destruct (set_ur_rice v k s l) as [Hra Hwd]; try done;
    [lia|lia|unfold INT_MAX; lia|].
  unfold get_sr_golomb_flac.
  rewrite (ur_golomb_jpegls_rice s k _ _ Hok Hk Hra) by (unfold INT_MAX; lia).
  cbn [mbind option_bind].
  replace (v / 2 ^ k * 2 ^ k + v mod 2 ^ k) with v
    by (rewrite (Z.mul_comm (_ / _)); apply Z.div_mod, Z.pow_nonzero; lia).
  rewrite wrapu_small by lia. rewrite wraps_small by (change (2 ^ (32 - 1)) with (2 ^ 31); lia).
  rewrite Hdec. do 3 f_equal. lia.
Qed.

(** C18: the FLAC residual code.  What [set_sr_golomb_flac] writes for [i] with
    Rice parameter [k], [get_sr_golomb_flac] reads back as [i], consuming
    exactly those bits, for every parameter up to 24, the guaranteed width of
    the reader's cache, wherever the code starts. *)
Theorem golomb_flac_roundtrip i k s l :
  gb_ok s -> 0 <= k <= 24 -> -2 ^ 29 <= i < 2 ^ 29 ->
  l = set_sr_golomb_flac i k INT_MAX 0 ->
  written (gb_buffer s) (gb_index s) l ->
  (gb_index s + width l - 1) / 8 + 4 <= zlen (gb_buffer s) ->
  get_sr_golomb_flac s k INT_MAX 0 = Some (i, SKIP_COUNTER s (width l)).
Proof. intros. by apply sr_golomb_read. Qed.

Lemma golomb_flac_roundtrip_witness :
  let s := MkGetBitContext [0xE0; 0x24; 0; 0; 0; 0; 0] 3 56 in
  let l := set_sr_golomb_flac (-29) 3 INT_MAX 0 in
  l = [(8, 1); (3, 57)] /\
  get_sr_golomb_flac s 3 INT_MAX 0 = Some (-29, SKIP_COUNTER s (width l)).
Proof.
  intros s l. split; [reflexivity|]. apply golomb_flac_roundtrip.
  - split; [|simpl; lia]. repeat constructor; unfold byte_ok; lia.
  - lia.
  - lia.
  - reflexivity.
  - split; [reflexivity|]. split; reflexivity.
  - apply Z.leb_le. reflexivity.
Defined.

(** Above 24 the reader loses low bits.  The five-bit residual coding method
    of FLAC allows parameters up to 30; the code of the all-ones remainder with
    parameter 25, at the last bit of a byte, is read one too small. *)
Theorem rice_parameter_25_misread :
  exists s, gb_ok s /\ rice_at s 25 0 (2 ^ 25 - 1) /\
    get_ur_golomb_jpegls s 25 INT_MAX 0 = Some (2 ^ 25 - 2, SKIP_COUNTER s 26).
Proof.
  exists (MkGetBitContext [1; 255; 255; 255; 255; 0; 0; 0; 0] 7 72). split; [|split].
  - split; [|done]. repeat constructor; unfold byte_ok; lia.
  - split; [done|reflexivity|reflexivity|]. apply Z.leb_le. reflexivity.
  - reflexivity.
Qed.
