(* ===== verification/Crc.v ===== *)
(** Table-driven CRCs: [src/libflac/crc.c] and [bswap_32] of [bswap.h].

    [le2me_32] is the identity (little-endian target).  A context is the list of
    its 257 or 1024 entries. *)
From S2P Require Import Prelude BitString GetBits.

Definition bswap_32 (x : Z) : Z :=
  let x := (u32 (x .<< 8) .& 0xFF00FF00) .| ((x .>> 8) .& 0x00FF00FF) in
  u32 ((x .>> 16) .| (x .<< 16)).

Inductive AVCRCId := AV_CRC_8_ATM | AV_CRC_16_ANSI | AV_CRC_16_CCITT | AV_CRC_32_IEEE
  | AV_CRC_32_IEEE_LE.

Record av_crc_param := CrcParam { crc_le : bool; crc_bits : Z; crc_poly : Z }.

Definition av_crc_table_params (id : AVCRCId) : av_crc_param :=
  match id with
  | AV_CRC_8_ATM => CrcParam false 8 0x07
  | AV_CRC_16_ANSI => CrcParam false 16 0x8005
  | AV_CRC_16_CCITT => CrcParam false 16 0x1021
  | AV_CRC_32_IEEE => CrcParam false 32 0x04C11DB7
  | AV_CRC_32_IEEE_LE => CrcParam true 32 0xEDB88320
  end.

(** One step of the two inner loops of [av_crc_init]. *)
Definition crc_step (le : bool) (bits poly c : Z) : Z :=
  if le then (c .>> 1) .^ (poly .& u32 (- (c .& 1)))
  else u32 (c .<< 1) .^ (u32 (poly .<< (32 - bits)) .& u32 (s32 c .>> 31)).

Definition crc_entry (le : bool) (bits poly i : Z) : Z :=
  if le then Nat.iter 8 (crc_step le bits poly) i
  else bswap_32 (Nat.iter 8 (crc_step le bits poly) (u32 (i .<< 24))).

(** The tables of the slicing variant. *)
Definition crc_slice (i : Z) (ctx : list Z) : option (list Z) :=
  for_range 0 3 (fun j ctx =>
    t ← aget ctx (256 * j + i); u ← aget ctx (t .& 0xFF);
    aset ctx (256 * (j + 1) + i) ((t .>> 8) .^ u)) ctx.

Definition av_crc_init (ctx : list Z) (le : bool) (bits poly ctx_size : Z)
    : option (Z * list Z) :=
  if (bits <? 8) || (32 <? bits) || (1 .<< bits <=? poly) then Some (-1, ctx)
  else if negb (ctx_size =? 4 * 257) && negb (ctx_size =? 4 * 1024) then Some (-1, ctx)
  else
    ctx ← for_range 0 256 (fun i ctx => aset ctx i (crc_entry le bits poly i)) ctx;
    ctx ← aset ctx 256 1;
    ctx ← (if 4 * 1024 <=? ctx_size then for_range 0 256 crc_slice ctx else Some ctx);
    Some (0, ctx).

(** [av_crc_get_table]: the static tables are zero until first used; the last
    entry tells.  [None] inside is the NULL result. *)
Definition av_crc_get_table (tables : AVCRCId -> list Z) (id : AVCRCId)
    : option (option (list Z)) :=
  last ← aget (tables id) 256;
  if last =? 0 then
    let p := av_crc_table_params id in
    '(r, ctx) ← av_crc_init (tables id) (crc_le p) (crc_bits p) (crc_poly p) (4 * 257);
    Some (if r <? 0 then None else Some ctx)
  else Some (Some (tables id)).

(** [crc = ctx[((uint8_t)crc) ^ *buffer++] ^ (crc >> 8)] *)
Definition crc_byte (ctx buffer : list Z) (p crc : Z) : option Z :=
  b ← aget buffer p; t ← aget ctx (u8 crc .^ b); Some (t .^ (crc .>> 8)).

(** Four bytes at a time. *)
Definition crc_word (ctx buffer : list Z) (p crc : Z) : option Z :=
  b0 ← aget buffer p; b1 ← aget buffer (p + 1);
  b2 ← aget buffer (p + 2); b3 ← aget buffer (p + 3);
  let crc := crc .^ (b0 .| (b1 .<< 8) .| (b2 .<< 16) .| (b3 .<< 24)) in
  t3 ← aget ctx (3 * 256 + (crc .& 0xFF));
  t2 ← aget ctx (2 * 256 + ((crc .>> 8) .& 0xFF));
  t1 ← aget ctx (1 * 256 + ((crc .>> 16) .& 0xFF));
  t0 ← aget ctx (0 * 256 + (crc .>> 24));
  Some (t3 .^ t2 .^ t1 .^ t0).

(** [addr] is the address of [buffer], [length] the number of bytes.  The loop
    states are the offset of [buffer] and [crc]. *)
Definition av_crc (ctx : list Z) (crc : Z) (buffer : list Z) (addr length : Z)
    : option Z :=
  let fuel := S (Z.to_nat length) in
  e ← aget ctx 256;
  '(p, crc) ←
    (if e =? 0 then
       st ← while_loop fuel
         (fun '(p, _) => negb (((addr + p) .& 3) =? 0) && (p <? length))
         (fun '(p, crc) => crc ← crc_byte ctx buffer p crc; Some (p + 1, crc)) (0, crc);
       while_loop fuel (fun '(p, _) => p <? length - 3)
         (fun '(p, crc) => crc ← crc_word ctx buffer p crc; Some (p + 4, crc)) st
     else Some (0, crc));
  '(_, crc) ← while_loop fuel (fun '(p, _) => p <? length)
    (fun '(p, crc) => crc ← crc_byte ctx buffer p crc; Some (p + 1, crc)) (p, crc);
  Some crc.

(** ** Exclusive-or algebra *)

Section Xor.
Implicit Types a b c x y : Z.

Lemma land_lxor_l a b c : (a .^ b) .& c = (a .& c) .^ (b .& c).
Proof.
  apply Z.bits_inj'. intros k Hk. rewrite !Z.land_spec, !Z.lxor_spec, !Z.land_spec.
  by destruct (Z.testbit a k), (Z.testbit b k), (Z.testbit c k).
Qed.

Lemma mod_pow2_lxor a b n : 0 <= n -> (a .^ b) mod 2 ^ n = (a mod 2 ^ n) .^ (b mod 2 ^ n).
Proof. intros. rewrite <- !Z.land_ones by done. apply land_lxor_l. Qed.

Lemma lxor_range a b n : 0 <= n -> 0 <= a < 2 ^ n -> 0 <= b < 2 ^ n -> 0 <= a .^ b < 2 ^ n.
Proof.
  intros Hn Ha Hb.
  rewrite <- (Z.mod_small a (2 ^ n)), <- (Z.mod_small b (2 ^ n)), <- mod_pow2_lxor by done.
  apply Z.mod_pos_bound, pow2_pos. done.
Qed.

Lemma lxor_4 a b c x : (a .^ b) .^ (c .^ x) = (a .^ c) .^ (b .^ x).
Proof.
  rewrite !Z.lxor_assoc. f_equal. rewrite <- !Z.lxor_assoc. f_equal. apply Z.lxor_comm.
Qed.

Lemma lor_disjoint a b : a .& b = 0 -> a .| b = a .^ b.
Proof. intros. symmetry. by apply Z.lxor_lor. Qed.

(** Spreading one bit over a word. *)
Lemma spread_bit0 c : u32 (- (c .& 1)) = if Z.testbit c 0 then 2 ^ 32 - 1 else 0.
Proof.
  change 1 with (Z.ones 1) at 1. rewrite Z.land_ones by done. change (2 ^ 1) with 2.
  rewrite <- Z.bit0_mod. by destruct (Z.testbit c 0).
Qed.

Lemma spread_bit31 c : 0 <= c < 2 ^ 32 ->
  u32 (s32 c .>> 31) = if Z.testbit c 31 then 2 ^ 32 - 1 else 0.
Proof.
  intros Hc. rewrite Z.testbit_eqb, Z.shiftr_div_pow2 by done.
  unfold wraps. change (2 ^ (32 - 1)) with 2147483648. change (2 ^ 31) with 2147483648.
  change (2 ^ 32) with 4294967296 in *.
  destruct (Z.ltb_spec c 2147483648).
  - rewrite (Z.div_small c), (Z.mod_small (c + _)) by lia.
  rewrite Z.div_small by lia. done.
  - replace (c / 2147483648) with 1 by zdiv.
  replace (c + 2147483648) with (c - 2147483648 + 1 * 4294967296) by lia.
  rewrite Z.mod_add by done. rewrite Z.mod_small by lia.
  replace ((c - 2147483648 - 2147483648) / 2147483648) with (-1) by zdiv. done.
Qed.

Lemma land_spread p (t : bool) : 0 <= p < 2 ^ 32 ->
  p .& (if t then 2 ^ 32 - 1 else 0) = if t then p else 0.
Proof.
  intros. destruct t; [|apply Z.land_0_r].
  change (2 ^ 32 - 1) with (Z.ones 32). rewrite Z.land_ones by done. by apply Z.mod_small.
Qed.
End Xor.

(** [f] commutes with exclusive or on words below [2 ^ n]. *)
Definition xor_linear (n : Z) (f : Z -> Z) : Prop :=
  forall a b, 0 <= a < 2 ^ n -> 0 <= b < 2 ^ n -> f (a .^ b) = f a .^ f b.

Lemma crc_step_range le bits poly c : 8 <= bits <= 32 -> 0 <= poly < 2 ^ bits ->
  0 <= c < 2 ^ 32 -> 0 <= crc_step le bits poly c < 2 ^ 32.
Proof.
  intros Hb Hp Hc. assert (poly < 2 ^ 32).
  { apply Z.lt_le_trans with (2 ^ bits); [lia|]. apply Z.pow_le_mono_r; lia. }
  unfold crc_step. destruct le.
  - rewrite spread_bit0, land_spread by lia. apply lxor_range; [done| |destruct (Z.testbit c 0); lia].
    rewrite Z.shiftr_div_pow2 by done. change (2 ^ 1) with 2. zdiv.
  - rewrite spread_bit31, land_spread by (done || by apply wrapu_range).
    pose proof (wrapu_range 32 (poly .<< (32 - bits)) ltac:(lia)).
    apply lxor_range; [done|by apply wrapu_range|]. destruct (Z.testbit c 31); lia.
Qed.

Lemma crc_step_linear le bits poly : 8 <= bits <= 32 -> 0 <= poly < 2 ^ bits ->
  xor_linear 32 (crc_step le bits poly).
Proof.
  intros Hb Hp a b Ha Hb'. assert (poly < 2 ^ 32).
  { apply Z.lt_le_trans with (2 ^ bits); [lia|]. apply Z.pow_le_mono_r; lia. }
  unfold crc_step. destruct le.
  - rewrite !spread_bit0, !land_spread by lia. rewrite Z.shiftr_lxor, Z.lxor_spec, lxor_4.
    f_equal. destruct (Z.testbit a 0), (Z.testbit b 0); simpl;
      by rewrite ?Z.lxor_nilpotent, ?Z.lxor_0_r, ?Z.lxor_0_l.
  - pose proof (wrapu_range 32 (poly .<< (32 - bits)) ltac:(lia)) as Hw.
    rewrite !spread_bit31, !land_spread by (done || by apply lxor_range).
    rewrite Z.shiftl_lxor, Z.lxor_spec. unfold wrapu at 1.
    rewrite mod_pow2_lxor, lxor_4 by done. unfold wrapu at 2 4.
    f_equal. destruct (Z.testbit a 31), (Z.testbit b 31); simpl;
      by rewrite ?Z.lxor_nilpotent, ?Z.lxor_0_r, ?Z.lxor_0_l.
Qed.

Lemma bswap_32_xor x : 0 <= x < 2 ^ 32 ->
  bswap_32 x =
  let y := (u32 (x .<< 8) .& 0xFF00FF00) .^ ((x .>> 8) .& 0x00FF00FF) in
  u32 ((y .>> 16) .^ (y .<< 16)).
Proof.
  intros Hx. unfold bswap_32.
  rewrite (lor_disjoint (u32 (x .<< 8) .& 0xFF00FF00)).
  2: { apply Z.bits_inj'. intros k _. rewrite !Z.land_spec, Z.bits_0.
       assert (Z.testbit 0xFF00FF00 k && Z.testbit 0x00FF00FF k = false) as E.
       { rewrite <- Z.land_spec. apply Z.bits_0. }
       destruct (Z.testbit (u32 (x .<< 8)) k), (Z.testbit (x .>> 8) k),
         (Z.testbit 0xFF00FF00 k), (Z.testbit 0x00FF00FF k); done. }
  set (y := _ .^ _). cbv zeta.
  assert (0 <= y < 2 ^ 32) as Hy.
  { assert (forall p m, 0 <= p < 2 ^ 32 -> 0 <= p .& m < 2 ^ 32) as Hland.
    { intros p m Hp. rewrite <- (Z.mod_small p (2 ^ 32)) by done.
      rewrite <- Z.land_ones, <- Z.land_assoc, (Z.land_comm (Z.ones 32)), Z.land_assoc,
        Z.land_ones by done. by apply Z.mod_pos_bound. }
    apply lxor_range; [done|apply Hland, wrapu_range; done|apply Hland].
    rewrite Z.shiftr_div_pow2 by done. change (2 ^ 8) with 256. zdiv. }
  rewrite (lor_disjoint (y .>> 16)); [done|].
  apply Z.bits_inj'. intros k Hk. rewrite Z.land_spec, Z.bits_0.
  destruct (Z.ltb_spec k 16).
  - by rewrite Z.shiftl_spec_low, andb_false_r by done.
  - rewrite Z.shiftr_spec by done. rewrite <- (Z.mod_small y (2 ^ 32)) by done.
    by rewrite Z.mod_pow2_bits_high by lia.
Qed.

Lemma bswap_32_linear : xor_linear 32 bswap_32.
Proof.
  intros a b Ha Hb. rewrite !bswap_32_xor by (done || by apply lxor_range).
  set (g := fun x => (u32 (x .<< 8) .& 0xFF00FF00) .^ ((x .>> 8) .& 0x00FF00FF)).
  assert (g (a .^ b) = g a .^ g b) as Hg.
  { unfold g, wrapu. rewrite Z.shiftl_lxor, mod_pow2_lxor, Z.shiftr_lxor, !land_lxor_l by done.
    apply lxor_4. }
  change (u32 ((g (a .^ b) .>> 16) .^ (g (a .^ b) .<< 16)) =
    u32 ((g a .>> 16) .^ (g a .<< 16)) .^ u32 ((g b .>> 16) .^ (g b .<< 16))).
  rewrite Hg. unfold wrapu. rewrite <- mod_pow2_lxor by done. f_equal.
  rewrite Z.shiftr_lxor, Z.shiftl_lxor. apply lxor_4.
Qed.

Lemma bswap_32_range x : 0 <= bswap_32 x < 2 ^ 32.
Proof. by apply wrapu_range. Qed.

Lemma iter_range (f : Z -> Z) n m x : (forall c, 0 <= c < 2 ^ m -> 0 <= f c < 2 ^ m) ->
  0 <= x < 2 ^ m -> 0 <= Nat.iter n f x < 2 ^ m.
Proof. intros. induction n; simpl; auto. Qed.

Lemma iter_linear f n m : (forall c, 0 <= c < 2 ^ m -> 0 <= f c < 2 ^ m) ->
  xor_linear m f -> xor_linear m (Nat.iter n f).
Proof.
  intros Hr Hf a b Ha Hb. induction n as [|n IH]; simpl; [done|].
  rewrite IH. apply Hf; by apply iter_range.
Qed.

Section Entry.
Variables (le : bool) (bits poly : Z).
Hypothesis Hbits : 8 <= bits <= 32.
Hypothesis Hpoly : 0 <= poly < 2 ^ bits.

Abbreviation T := (crc_entry le bits poly).

Lemma crc_entry_range i : 0 <= i < 256 -> 0 <= T i < 2 ^ 32.
Proof.
  intros. unfold crc_entry. destruct le; [|apply bswap_32_range].
  apply iter_range; [intros; by apply crc_step_range|].
  change (2 ^ 32) with (256 * 2 ^ 24). lia.
Qed.

Lemma crc_entry_linear : xor_linear 8 T.
Proof.
  intros a b Ha Hb. change (2 ^ 8) with 256 in *. unfold crc_entry.
  pose proof (iter_linear (crc_step le bits poly) 8 32
  (fun c => crc_step_range le bits poly c Hbits Hpoly)
  (crc_step_linear le bits poly Hbits Hpoly)) as Hlin.
  destruct le.
  - apply Hlin; change (2 ^ 32) with (256 * 2 ^ 24); lia.
  - rewrite Z.shiftl_lxor. unfold wrapu at 1. rewrite mod_pow2_lxor by done.
  rewrite Hlin by by apply wrapu_range.
  apply bswap_32_linear; apply iter_range; try by apply wrapu_range.
  + intros. by apply crc_step_range.
  + intros. by apply crc_step_range.
Qed.

Lemma crc_entry_0 : T 0 = 0.
Proof.
  pose proof (crc_entry_linear 0 0 ltac:(done) ltac:(done)) as H.
  rewrite Z.lxor_nilpotent in H. rewrite H. apply Z.lxor_nilpotent.
Qed.
End Entry.

(** ** The reference: one byte at a time with an ideal table *)

Definition crc_next (T : Z -> Z) (crc b : Z) : Z := T ((crc mod 256) .^ b) .^ (crc .>> 8).

Definition crc_ref (T : Z -> Z) (msg : list Z) (crc : Z) : Z := fold_left (crc_next T) msg crc.

(** The table shift, the effect of a zero byte. *)
Definition crc_shift (T : Z -> Z) (x : Z) : Z := T (x mod 256) .^ (x .>> 8).

Section Slicing.
Variable T : Z -> Z.
Hypothesis Tlin : xor_linear 8 T.
Hypothesis Trange : forall i, 0 <= i < 256 -> 0 <= T i < 2 ^ 32.

Abbreviation S_ := (crc_shift T).

Lemma T_0 : T 0 = 0.
Proof.
  pose proof (Tlin 0 0 ltac:(done) ltac:(done)) as H.
  rewrite Z.lxor_nilpotent in H. rewrite H. apply Z.lxor_nilpotent.
Qed.

Lemma shift_lxor x y : S_ (x .^ y) = S_ x .^ S_ y.
Proof.
  unfold crc_shift. change 256 with (2 ^ 8). rewrite mod_pow2_lxor by done.
  rewrite Tlin by (by apply Z.mod_pos_bound). rewrite Z.shiftr_lxor. apply lxor_4.
Qed.

Lemma shl8_mod x : (x .<< 8) mod 256 = 0.
Proof. rewrite Z.shiftl_mul_pow2 by done. by apply Z.mod_mul. Qed.

Lemma shl8_shr8 x : (x .<< 8) .>> 8 = x.
Proof. rewrite Z.shiftr_shiftl_l by done. apply Z.shiftl_0_r. Qed.

(** A byte fed later is a byte placed higher. *)
Lemma shift_inject x z : S_ x .^ z = S_ (x .^ (z .<< 8)).
Proof.
  rewrite shift_lxor. unfold crc_shift at 3. rewrite shl8_mod, shl8_shr8, T_0. done.
Qed.

Lemma next_shift crc b : 0 <= b < 256 -> crc_next T crc b = S_ (crc .^ b).
Proof.
  intros Hb. unfold crc_next, crc_shift. change 256 with (2 ^ 8) at 2.
  rewrite mod_pow2_lxor, (Z.mod_small b), Z.shiftr_lxor by done.
  assert (b .>> 8 = 0) as ->; [|by rewrite Z.lxor_0_r].
  rewrite Z.shiftr_div_pow2 by done. by apply Z.div_small.
Qed.

Lemma shift_byte x : 0 <= x < 256 -> S_ x = T x.
Proof.
  intros. unfold crc_shift. rewrite Z.mod_small by done.
  rewrite Z.shiftr_div_pow2, Z.div_small by done. apply Z.lxor_0_r.
Qed.

Lemma shift_range x : 0 <= x < 2 ^ 32 -> 0 <= S_ x < 2 ^ 32.
Proof.
  intros. apply lxor_range; [done|apply Trange, Z.mod_pos_bound; done|].
  rewrite Z.shiftr_div_pow2 by done. change (2 ^ 8) with 256. zdiv.
Qed.

Lemma next_range crc b : 0 <= crc < 2 ^ 32 -> 0 <= b < 256 ->
  0 <= crc_next T crc b < 2 ^ 32.
Proof.
  intros. rewrite next_shift by done. apply shift_range, lxor_range; try done.
  change (2 ^ 32) with (256 * 2 ^ 24). lia.
Qed.

Lemma ref_range msg crc : bytes_ok msg -> 0 <= crc < 2 ^ 32 -> 0 <= crc_ref T msg crc < 2 ^ 32.
Proof.
  intros H. revert crc. induction H as [|b msg Hb _ IH]; intros crc Hc; [done|].
  simpl. by apply IH, next_range.
Qed.

(** Four bytes are four shifts of one word. *)
Lemma four_bytes crc b0 b1 b2 b3 : byte_ok b0 -> byte_ok b1 -> byte_ok b2 -> byte_ok b3 ->
  crc_ref T [b0; b1; b2; b3] crc =
  S_ (S_ (S_ (S_ (crc .^ (b0 .^ (b1 .<< 8) .^ (b2 .<< 16) .^ (b3 .<< 24)))))).
Proof.
  intros H0 H1 H2 H3. unfold crc_ref. cbn [fold_left].
  rewrite !next_shift by done. rewrite !shift_inject.
  rewrite !Z.shiftl_shiftl by done. rewrite !Z.lxor_assoc. done.
Qed.

(** A word by its bytes. *)
Lemma shift_word x : 0 <= x < 2 ^ 32 ->
  S_ (S_ (S_ (S_ x))) =
  Nat.iter 3 S_ (T (x mod 256)) .^ Nat.iter 2 S_ (T ((x .>> 8) mod 256)) .^
  S_ (T ((x .>> 16) mod 256)) .^ T (x .>> 24).
Proof.
  intros Hx.
  assert (forall y, S_ y = T (y mod 256) .^ (y .>> 8)) as Hstep by done.
  assert (x .>> 24 = (x .>> 24) mod 256) as Htop.
  { symmetry. apply Z.mod_small. rewrite Z.shiftr_div_pow2 by done.
  change (2 ^ 24) with 16777216. change (2 ^ 32) with 4294967296 in Hx. zdiv. }
  assert (S_ (x .>> 24) = T (x .>> 24)) as Hlast.
  { apply shift_byte. rewrite Htop. by apply Z.mod_pos_bound. }
  rewrite (Hstep x), !shift_lxor.
  rewrite (Hstep (x .>> 8)), !shift_lxor, Z.shiftr_shiftr by done.
  change (8 + 8) with 16.
  rewrite (Hstep (x .>> 16)), !shift_lxor, Z.shiftr_shiftr by done.
  change (16 + 8) with 24. rewrite Hlast. simpl. by rewrite !Z.lxor_assoc.
Qed.
End Slicing.

(** ** The tables of [av_crc_init] *)

(** Slice [j] of the first [n] bytes. *)
Definition slices (T : Z -> Z) (n : Z) (ctx : list Z) : Prop :=
  forall j i, 1 <= j <= 3 -> 0 <= i < n ->
    aget ctx (256 * j + i) = Some (Nat.iter (Z.to_nat j) (crc_shift T) (T i)).

Section Table.
Variables (le : bool) (bits poly : Z).
Hypothesis Hbits : 8 <= bits <= 32.
Hypothesis Hpoly : 0 <= poly < 2 ^ bits.

Abbreviation T := (crc_entry le bits poly).

Definition base_ok (ctx : list Z) : Prop :=
  forall i, 0 <= i < 256 -> aget ctx i = Some (T i).

Abbreviation slice_ok := (slices T).

Lemma base_loop ctx : 256 <= zlen ctx ->
  exists ctx', for_range 0 256 (fun i ctx => aset ctx i (crc_entry le bits poly i)) ctx
  = Some ctx' /\ length ctx' = length ctx /\ base_ok ctx'.
Proof.
  intros Hl.
  destruct (for_range_inv (fun n c => length c = length ctx /\
    forall i, 0 <= i < n -> aget c i = Some (T i)) 0 256
  (fun i ctx => aset ctx i (crc_entry le bits poly i)) ctx) as (c&E&?&?);
  [done|split; [done|lia]| |by eauto].
  intros i c Hi [Hlc Hc]. rewrite aset_Some by lia. eexists. split; [done|].
  split; [by rewrite length_insert|]. intros k Hk. destruct (decide (k = i)) as [->|].
  - apply aget_insert_eq. lia.
  - rewrite aget_insert_ne by lia. apply Hc. lia.
Qed.

Lemma base_range ctx i : base_ok ctx -> 0 <= i < 256 ->
  exists t, aget ctx i = Some t /\ t = T i /\ 0 <= t < 2 ^ 32.
Proof.
  intros Hb Hi. exists (T i). split; [by apply Hb|]. split; [done|].
  by apply crc_entry_range.
Qed.

(** One column of the slices. *)
Lemma crc_slice_spec i ctx : zlen ctx = 1024 -> base_ok ctx -> 0 <= i < 256 ->
  slice_ok i ctx ->
  exists ctx', crc_slice i ctx = Some ctx' /\ zlen ctx' = 1024 /\ base_ok ctx' /\
  slice_ok (i + 1) ctx'.
Proof.
  intros Hl Hb Hi Hs. unfold crc_slice.
  destruct (for_range_inv (fun n c => zlen c = 1024 /\ base_ok c /\ slice_ok i c /\
    forall j, 0 <= j <= n -> aget c (256 * j + i)
      = Some (Nat.iter (Z.to_nat j) (crc_shift T) (T i))) 0 3
  (fun j ctx => t ← aget ctx (256 * j + i); u ← aget ctx (t .& 0xFF);
    aset ctx (256 * (j + 1) + i) ((t .>> 8) .^ u)) ctx) as (c&E&Hlc&Hbc&Hsc&Hc);
  [done| | |].
  - split_and!; [done|done|done|]. intros j Hj. replace j with 0 by lia.
  change (256 * 0 + i) with i. by apply Hb.
  - intros j c Hj (Hlc&Hbc&Hsc&Hc). rewrite (Hc j) by lia. cbn [mbind option_bind].
  set (t := Nat.iter (Z.to_nat j) _ _). change 0xFF with (Z.ones 8).
  rewrite Z.land_ones by done. change (2 ^ 8) with 256.
  rewrite Hbc by (by apply Z.mod_pos_bound). cbn [mbind option_bind].
  rewrite aset_Some by lia. eexists. split; [done|].
  split; [by rewrite length_insert|].
  split; [intros k Hk; rewrite aget_insert_ne by lia; by apply Hbc|].
  split; [intros j' k Hj' Hk; rewrite aget_insert_ne by lia; by apply Hsc|].
  intros j' Hj'. destruct (decide (j' = j + 1)) as [->|].
  + rewrite aget_insert_eq by lia. replace (Z.to_nat (j + 1)) with (S (Z.to_nat j)) by lia.
    simpl. fold t. unfold crc_shift. by rewrite Z.lxor_comm.
  + rewrite aget_insert_ne by lia. apply Hc. lia.
  - exists c. split; [done|]. split; [done|]. split; [done|].
  intros j k Hj Hk. destruct (decide (k = i)) as [->|]; [apply Hc; lia|apply Hsc; lia].
Qed.

Lemma slices_loop ctx : zlen ctx = 1024 -> base_ok ctx ->
  exists ctx', for_range 0 256 crc_slice ctx = Some ctx' /\ zlen ctx' = 1024 /\
  base_ok ctx' /\ slice_ok 256 ctx'.
Proof.
  intros Hl Hb.
  destruct (for_range_inv (fun n c => zlen c = 1024 /\ base_ok c /\ slice_ok n c) 0 256
  crc_slice ctx) as (c&E&?&?&?); [done|split; [done|]|..].
  - split; [done|]. intros j i ? ?. lia.
  - intros i c Hi (?&?&?). by apply crc_slice_spec.
  - eauto.
Qed.

(** A table ready for [av_crc]: 257 entries, or 1024 with the slices. *)
Definition table_ok (ctx : list Z) : Prop :=
  base_ok ctx /\ (aget ctx 256 = Some 1 \/ (aget ctx 256 = Some 0 /\ slice_ok 256 ctx)).

Lemma av_crc_init_spec ctx ctx_size :
  ctx_size = 4 * zlen ctx -> zlen ctx = 257 \/ zlen ctx = 1024 ->
  exists ctx', av_crc_init ctx le bits poly ctx_size = Some (0, ctx') /\
  length ctx' = length ctx /\ table_ok ctx'.
Proof.
  intros -> Hsz. unfold av_crc_init.
  rewrite (proj2 (Z.ltb_ge bits 8)), (proj2 (Z.ltb_ge 32 bits)) by lia.
  rewrite Z.shiftl_mul_pow2, Z.mul_1_l by lia. rewrite (proj2 (Z.leb_gt _ poly)) by lia.
  cbn [orb].
  destruct (base_loop ctx) as (c&E&Hlc&Hbc); [lia|].
  assert (forall c', c' = <[Z.to_nat 256 := 1]> c -> base_ok c') as Hbc'.
  { intros c' -> i Hi. rewrite aget_insert_ne by lia. by apply Hbc. }
  destruct Hsz as [Hsz|Hsz]; rewrite Hsz.
  - change (negb (4 * 257 =? 4 * 257) && negb (4 * 257 =? 4 * 1024)) with false.
  cbv iota. rewrite E. cbn [mbind option_bind]. rewrite aset_Some by lia.
  cbn [mbind option_bind]. change (4 * 1024 <=? 4 * 257) with false.
  cbn [mbind option_bind]. eexists. split; [done|].
  split; [by rewrite length_insert|]. split; [by apply Hbc'|]. left.
  apply aget_insert_eq. lia.
  - change (negb (4 * 1024 =? 4 * 257) && negb (4 * 1024 =? 4 * 1024)) with false.
  cbv iota. rewrite E. cbn [mbind option_bind]. rewrite aset_Some by lia.
  cbn [mbind option_bind]. change (4 * 1024 <=? 4 * 1024) with true. cbv iota.
  destruct (slices_loop (<[Z.to_nat 256 := 1]> c)) as (c'&E'&Hl'&Hb'&Hs').
  { rewrite length_insert. lia. }
  { by apply Hbc'. }
  rewrite E'. cbn [mbind option_bind]. eexists. split; [done|].
  split; [lia|]. split; [done|]. right. split; [|done].
  pose proof (Hs' 1 0 ltac:(lia) ltac:(lia)) as H0. change (256 * 1 + 0) with 256 in H0.
  rewrite H0. simpl. rewrite (crc_entry_0 le bits poly Hbits Hpoly). unfold crc_shift.
  rewrite (Z.mod_small 0) by done. by rewrite (crc_entry_0 le bits poly Hbits Hpoly).
Qed.
End Table.

(** ** [av_crc] *)

Section Run.
Variables (T : Z -> Z) (ctx buffer : list Z) (crc0 : Z).
Hypothesis Tlin : xor_linear 8 T.
Hypothesis Trange : forall i, 0 <= i < 256 -> 0 <= T i < 2 ^ 32.
Hypothesis Hbase : forall i, 0 <= i < 256 -> aget ctx i = Some (T i).
Hypothesis Hbuf : bytes_ok buffer.
Hypothesis Hcrc : 0 <= crc0 < 2 ^ 32.

(** The CRC of the first [p] bytes. *)
Definition crc_at (p : Z) : Z := crc_ref T (take (Z.to_nat p) buffer) crc0.

Lemma crc_at_range p : 0 <= crc_at p < 2 ^ 32.
Proof. apply ref_range; try done. by apply Forall_take. Qed.

Lemma crc_at_next p b : 0 <= p -> aget buffer p = Some b ->
  crc_at (p + 1) = crc_next T (crc_at p) b.
Proof.
  intros Hp Hb. unfold crc_at, crc_ref. rewrite (take_succ_lookup _ _ b) by done.
  by rewrite fold_left_app.
Qed.

Lemma crc_byte_spec p : 0 <= p < zlen buffer ->
  crc_byte ctx buffer p (crc_at p) = Some (crc_at (p + 1)).
Proof.
  intros Hp. unfold crc_byte. destruct (aget_Some buffer p) as [b Eb]; [done|].
  rewrite Eb. cbn [mbind option_bind].
  assert (byte_ok b) as Hb by (by eapply aget_Forall in Eb).
  rewrite Hbase.
  - cbn [mbind option_bind]. rewrite (crc_at_next p b) by (done || lia). done.
  - change 256 with (2 ^ 8). apply lxor_range; [done|by apply wrapu_range|done].
Qed.

(** The byte loop, whatever its extra condition. *)
Lemma byte_loop (extra : Z -> bool) p fuel : 0 <= p <= zlen buffer ->
  zlen buffer < Z.of_nat fuel ->
  exists p', while_loop fuel (fun '(p, _) => extra p && (p <? zlen buffer))
  (fun '(p, crc) => crc ← crc_byte ctx buffer p crc; Some (p + 1, crc)) (p, crc_at p)
  = Some (p', crc_at p') /\ 0 <= p' <= zlen buffer /\
  extra p' && (p' <? zlen buffer) = false.
Proof.
  intros Hp Hf.
  destruct (while_loop_inv (fun '(p, c) => 0 <= p <= zlen buffer /\ c = crc_at p)
  (fun '(p, _) => zlen buffer - p - 1) fuel
  (fun '(p, _) => extra p && (p <? zlen buffer))
  (fun '(p, crc) => crc ← crc_byte ctx buffer p crc; Some (p + 1, crc)) (p, crc_at p))
  as ([p' c]&E&(?&->)&Hc); [done|lia| |lia|by exists p'].
  intros [q c] (?&->) Hc. zbool. split; [lia|].
  rewrite crc_byte_spec by lia. eexists. split; [done|]. simpl. split; [|lia].
  split; [lia|done].
Qed.

Lemma crc_word_spec p : slices T 256 ctx -> 0 <= p -> p + 4 <= zlen buffer ->
  crc_word ctx buffer p (crc_at p) = Some (crc_at (p + 4)).
Proof.
  intros Hs Hp Hl. unfold crc_word.
  destruct (aget_Some buffer p) as [b0 E0]; [lia|].
  destruct (aget_Some buffer (p + 1)) as [b1 E1]; [lia|].
  destruct (aget_Some buffer (p + 2)) as [b2 E2]; [lia|].
  destruct (aget_Some buffer (p + 3)) as [b3 E3]; [lia|].
  rewrite E0, E1, E2, E3. cbn [mbind option_bind].
  assert (byte_ok b0 /\ byte_ok b1 /\ byte_ok b2 /\ byte_ok b3) as (H0&H1&H2&H3).
  { split_and!; by eapply aget_Forall. }
  assert (crc_at (p + 4) = crc_ref T [b0; b1; b2; b3] (crc_at p)) as Hat.
  { unfold crc_ref. cbn [fold_left].
  replace (p + 4) with (p + 3 + 1) by lia. rewrite (crc_at_next _ b3) by (done || lia).
  replace (p + 3) with (p + 2 + 1) by lia. rewrite (crc_at_next _ b2) by (done || lia).
  replace (p + 2) with (p + 1 + 1) by lia. rewrite (crc_at_next _ b1) by (done || lia).
  by rewrite (crc_at_next _ b0) by (done || lia). }
  assert (b0 .| (b1 .<< 8) .| (b2 .<< 16) .| (b3 .<< 24)
  = b0 .^ (b1 .<< 8) .^ (b2 .<< 16) .^ (b3 .<< 24)) as ->.
  { assert (forall a b n, 0 <= n -> 0 <= a < 2 ^ n -> byte_ok b ->
    a .| (b .<< n) = a .^ (b .<< n) /\ 0 <= a .^ (b .<< n) < 2 ^ (n + 8)) as Hor.
  { intros a b n Hn Ha Hb.
    assert (a .| (b .<< n) = a .^ (b .<< n)) as E.
    { apply lor_disjoint, Z.bits_inj'. intros k Hk. rewrite Z.land_spec, Z.bits_0.
      destruct (Z.ltb_spec k n).
      - by rewrite Z.shiftl_spec_low, andb_false_r by done.
      - rewrite <- (Z.mod_small a (2 ^ n)) by done.
        by rewrite Z.mod_pow2_bits_high by lia. }
    split; [done|]. rewrite <- E, lor_shiftl_add, Z.pow_add_r by (done || lia).
    unfold byte_ok in Hb. change (2 ^ 8) with 256. nia. }
  destruct (Hor b0 b1 8) as [-> ?]; [done|done|done|].
  destruct (Hor (b0 .^ (b1 .<< 8)) b2 16) as [-> ?]; [done|done|done|].
  by destruct (Hor (b0 .^ (b1 .<< 8) .^ (b2 .<< 16)) b3 24) as [-> ?]. }
  rewrite Hat, (four_bytes T Tlin _ b0 b1 b2 b3) by done.
  set (x := crc_at p .^ _).
  assert (0 <= x < 2 ^ 32) as Hx.
  { subst x. apply lxor_range; [done|apply crc_at_range|].
  repeat apply lxor_range; try done; unfold byte_ok in *;
    rewrite ?Z.shiftl_mul_pow2 by done; change (2 ^ 32) with (256 * 2 ^ 24); lia. }
  rewrite (shift_word T Tlin x Hx).
  change 0xFF with (Z.ones 8). rewrite !Z.land_ones by done. change (2 ^ 8) with 256.
  pose proof (Z.mod_pos_bound x 256). pose proof (Z.mod_pos_bound (x .>> 8) 256).
  pose proof (Z.mod_pos_bound (x .>> 16) 256).
  rewrite (Z.mul_comm 3), (Z.mul_comm 2), (Z.mul_comm 1).
  rewrite (Hs 3), (Hs 2), (Hs 1) by lia. cbn [mbind option_bind].
  change (0 * 256 + (x .>> 24)) with (x .>> 24).
  rewrite Hbase.
  - done.
  - rewrite Z.shiftr_div_pow2 by done. change (2 ^ 24) with 16777216.
  change (2 ^ 32) with 4294967296 in Hx. zdiv.
Qed.
End Run.

(** The word loop, two iterations of [while_loop_inv]'s measure per word. *)
Lemma word_loop T ctx buffer crc0 p : xor_linear 8 T ->
  (forall i, 0 <= i < 256 -> 0 <= T i < 2 ^ 32) ->
  (forall i, 0 <= i < 256 -> aget ctx i = Some (T i)) -> slices T 256 ctx ->
  bytes_ok buffer -> 0 <= crc0 < 2 ^ 32 -> 0 <= p <= zlen buffer ->
  exists p', while_loop (S (Z.to_nat (zlen buffer))) (fun '(p, _) => p <? zlen buffer - 3)
      (fun '(p, crc) => crc ← crc_word ctx buffer p crc; Some (p + 4, crc))
      (p, crc_at T buffer crc0 p) = Some (p', crc_at T buffer crc0 p') /\
    0 <= p' <= zlen buffer.
Proof.
  intros Hlin Hr Hb Hs Hbuf Hc Hp.
  destruct (while_loop_inv
    (fun '(p, c) => 0 <= p <= zlen buffer /\ c = crc_at T buffer crc0 p)
    (fun '(p, _) => zlen buffer - p - 1) (S (Z.to_nat (zlen buffer)))
    (fun '(p, _) => p <? zlen buffer - 3)
    (fun '(p, crc) => crc ← crc_word ctx buffer p crc; Some (p + 4, crc))
    (p, crc_at T buffer crc0 p)) as ([p' c]&E&(?&->)&_);
    [done|lia| |lia|by exists p'].
  intros [q c] (?&->) Hcond. zbool. split; [lia|].
  rewrite (crc_word_spec T) by (done || lia). eexists. split; [done|]. simpl.
  split; [|lia]. split; [lia|done].
Qed.

(** [av_crc] on a ready table. *)
Lemma av_crc_run le bits poly ctx' crc buffer addr :
  8 <= bits <= 32 -> 0 <= poly < 2 ^ bits -> table_ok le bits poly ctx' ->
  bytes_ok buffer -> 0 <= crc < 2 ^ 32 ->
  av_crc ctx' crc buffer addr (zlen buffer)
    = Some (crc_ref (crc_entry le bits poly) buffer crc).
Proof.
  intros Hbits Hpoly [Hbase Hkind] Hbuf Hcrc.
  pose proof (crc_entry_linear le bits poly Hbits Hpoly) as Hlin.
  pose proof (crc_entry_range le bits poly Hbits Hpoly) as Hr.
  set (T := crc_entry le bits poly) in *.
  assert (crc = crc_at T buffer crc 0) as Hstart by done.
  assert (forall p, 0 <= p <= zlen buffer ->
    ('(_, crc) ← while_loop (S (Z.to_nat (zlen buffer))) (fun '(p, _) => p <? zlen buffer)
       (fun '(p, crc) => crc ← crc_byte ctx' buffer p crc; Some (p + 1, crc))
       (p, crc_at T buffer crc p); Some crc) = Some (crc_ref T buffer crc)) as Htail.
  { intros p Hp.
    destruct (byte_loop T ctx' buffer crc Hbase Hbuf (fun _ => true) p
      (S (Z.to_nat (zlen buffer)))) as (p'&Ep&Hp'&Hc); [done|lia|].
    cbn [andb] in Ep, Hc. zbool.
    assert (p' = zlen buffer) as -> by lia.
    transitivity (Some (crc_at T buffer crc (zlen buffer))).
    - rewrite Ep. done.
    - unfold crc_at. rewrite take_ge by lia. done. }
  unfold av_crc. destruct Hkind as [H256|[H256 Hs]]; rewrite H256; cbn [mbind option_bind].
  - change (1 =? 0) with false. cbn [mbind option_bind]. rewrite Hstart at 1.
    apply Htail. lia.
  - change (0 =? 0) with true. cbv iota.
    destruct (byte_loop T ctx' buffer crc Hbase Hbuf
      (fun p => negb (((addr + p) .& 3) =? 0)) 0 (S (Z.to_nat (zlen buffer))))
      as (p1&E1&Hp1&_); [lia|lia|].
    destruct (word_loop T ctx' buffer crc p1) as (p2&E2&Hp2); [done..|].
    rewrite Hstart at 1. rewrite E1. cbn [mbind option_bind]. rewrite E2.
    cbn [mbind option_bind]. by apply Htail.
Qed.

(** ** Claims *)

(** C20: the CRC engine.  For every parameter [av_crc_init] accepts and either
    table size, the initialised table makes [av_crc] compute the byte-at-a-time
    remainder, whatever the start value, the length and the address of the
    buffer: with 1024 entries the four-bytes-at-a-time loop and its unaligned
    head and tail agree with the simple loop. *)
Theorem av_crc_correct le bits poly ctx crc buffer addr :
  8 <= bits <= 32 -> 0 <= poly < 2 ^ bits ->
  zlen ctx = 257 \/ zlen ctx = 1024 ->
  bytes_ok buffer -> 0 <= crc < 2 ^ 32 ->
  exists ctx', av_crc_init ctx le bits poly (4 * zlen ctx) = Some (0, ctx') /\
    av_crc ctx' crc buffer addr (zlen buffer)
      = Some (crc_ref (crc_entry le bits poly) buffer crc).
Proof.
  intros Hbits Hpoly Hlen Hbuf Hcrc.
  destruct (av_crc_init_spec le bits poly Hbits Hpoly ctx (4 * zlen ctx))
    as (ctx'&E&Hl&Hok); [done|done|].
  exists ctx'. split; [exact E|].
  by apply av_crc_run.
Qed.

Lemma av_crc_correct_witness :
  let buffer := [0xFF; 0xF8; 0x69; 0x18; 0x00; 0xBF; 0x03] in
  exists ctx', av_crc_init (replicate 1024 0) true 32 0xEDB88320 (4 * zlen (replicate 1024 0))
      = Some (0, ctx') /\
    av_crc ctx' 0xFFFFFFFF buffer 0x1003 (zlen buffer)
      = Some (crc_ref (crc_entry true 32 0xEDB88320) buffer 0xFFFFFFFF).
Proof.
  intros buffer. apply av_crc_correct.
  - lia.
  - lia.
  - right. by rewrite length_replicate.
  - repeat constructor; unfold byte_ok; lia.
  - lia.
Defined.

(** ** CRC-8, the frame header check *)

(** One byte of the CRC with polynomial x^8 + x^2 + x + 1, bit by bit. *)
Definition crc8_bit (c : Z) : Z :=
  if Z.testbit c 7 then (2 * c) mod 256 .^ 7 else (2 * c) mod 256.

Definition crc8_byte (c b : Z) : Z := Nat.iter 8 crc8_bit (c .^ b).

Lemma crc8_table i : 0 <= i < 256 ->
  crc_entry false 8 0x07 i = Nat.iter 8 crc8_bit i /\ 0 <= crc_entry false 8 0x07 i < 256.
Proof.
  intros Hi.
  assert (forallb (fun i => (crc_entry false 8 7 i =? Nat.iter 8 crc8_bit i) &&
    (0 <=? crc_entry false 8 7 i) && (crc_entry false 8 7 i <? 256)) (seqZ 0 256) = true)
    as Hall by (vm_compute; reflexivity).
  pose proof (forall_range _ _ _ Hall i Hi) as H. cbv beta in H.
  apply andb_true_iff in H as [[H1%Z.eqb_eq H2%Z.leb_le]%andb_true_iff H3%Z.ltb_lt].
  exact (conj H1 (conj H2 H3)).
Qed.

(** The table is a permutation: [crc8_inv] undoes it. *)
Definition crc8_unbit (c : Z) : Z :=
  if Z.testbit c 0 then (c .^ 7) / 2 + 128 else c / 2.

Lemma crc8_unbit_spec i : 0 <= i < 256 ->
  Nat.iter 8 crc8_unbit (crc_entry false 8 0x07 i) = i.
Proof.
  intros Hi.
  assert (forallb (fun i => Nat.iter 8 crc8_unbit (crc_entry false 8 7 i) =? i) (seqZ 0 256)
    = true) as Hall by (vm_compute; reflexivity).
  pose proof (forall_range _ _ _ Hall i Hi) as H. cbv beta in H.
  exact (proj1 (Z.eqb_eq _ _) H).
Qed.

Lemma crc8_next c b : 0 <= c < 256 -> byte_ok b ->
  crc_next (crc_entry false 8 0x07) c b = crc8_byte c b /\
  0 <= crc8_byte c b < 256.
Proof.
  intros Hc Hb. unfold crc_next, crc8_byte. rewrite Z.mod_small by done.
  assert (0 <= c .^ b < 256) as Hx by (by apply (lxor_range c b 8)).
  destruct (crc8_table _ Hx) as [<- ?].
  rewrite Z.shiftr_div_pow2, Z.div_small, Z.lxor_0_r by done. done.
Qed.

Lemma crc8_byte_inj c b c' b' : 0 <= c < 256 -> byte_ok b -> 0 <= c' < 256 -> byte_ok b' ->
  crc8_byte c b = crc8_byte c' b' -> c .^ b = c' .^ b'.
Proof.
  intros Hc Hb Hc' Hb' H. unfold crc8_byte in H.
  assert (0 <= c .^ b < 256) as Hx by (by apply (lxor_range c b 8)).
  assert (0 <= c' .^ b' < 256) as Hx' by (by apply (lxor_range c' b' 8)).
  destruct (crc8_table _ Hx) as [E _]. destruct (crc8_table _ Hx') as [E' _].
  rewrite <- (crc8_unbit_spec _ Hx), <- (crc8_unbit_spec _ Hx'). congruence.
Qed.

Lemma lxor_cancel_l a b c : a .^ b = a .^ c -> b = c.
Proof.
  intros H. rewrite <- (Z.lxor_0_l b), <- (Z.lxor_0_l c), <- (Z.lxor_nilpotent a),
    !Z.lxor_assoc, H. done.
Qed.

Definition crc8 (msg : list Z) (c : Z) : Z := fold_left crc8_byte msg c.

Lemma crc_ref_fold T msg c :
  (forall c b, 0 <= c < 256 -> byte_ok b ->
     crc_next T c b = crc8_byte c b /\ 0 <= crc8_byte c b < 256) ->
  bytes_ok msg -> 0 <= c < 256 -> crc_ref T msg c = crc8 msg c /\ 0 <= crc8 msg c < 256.
Proof.
  intros HT H. revert c. induction H as [|b msg Hb _ IH]; intros c Hc; [done|].
  unfold crc_ref, crc8 in *. cbn [fold_left].
  destruct (HT c b Hc Hb) as [-> ?]. by apply IH.
Qed.

Lemma crc8_ref msg c : bytes_ok msg -> 0 <= c < 256 ->
  crc_ref (crc_entry false 8 0x07) msg c = crc8 msg c /\ 0 <= crc8 msg c < 256.
Proof. intros Hm Hc. exact (crc_ref_fold _ msg c crc8_next Hm Hc). Qed.

Lemma crc8_inj msg c c' : bytes_ok msg -> 0 <= c < 256 -> 0 <= c' < 256 ->
  crc8 msg c = crc8 msg c' -> c = c'.
Proof.
  intros H. revert c c'. induction H as [|b msg Hb _ IH]; intros c c' Hc Hc' E; [done|].
  simpl in E. apply IH in E; [|by apply crc8_next..].
  apply crc8_byte_inj in E; [|done..].
  rewrite (Z.lxor_comm c), (Z.lxor_comm c') in E. by apply lxor_cancel_l in E.
Qed.

(** With a 257-entry table only the bytes before [length] are read. *)
Lemma av_crc_prefix ctx crc pre post addr : aget ctx 256 = Some 1 ->
  av_crc ctx crc (pre ++ post) addr (zlen pre) = av_crc ctx crc pre addr (zlen pre).
Proof.
  intros E. unfold av_crc. rewrite E. cbn [mbind option_bind].
  change (1 =? 0) with false. cbv iota. cbn [mbind option_bind]. f_equal.
  apply (while_loop_ext (fun '(p, _) => 0 <= p)); [lia| |].
  - intros [p c] Hp Hc. zbool. unfold crc_byte. rewrite !aget_lookup by lia.
    by rewrite lookup_app_l by lia.
  - intros [p c] [p' c'] Hp _ H. monad_inv. lia.
Qed.

(** The static CRC-8 table: not yet used, or initialised. *)
Definition crc8_state (tab : list Z) : Prop :=
  zlen tab = 257 /\
  (aget tab 256 = Some 0 \/ aget tab 256 = Some 1 /\ table_ok false 8 0x07 tab).

Lemma crc8_get_table tab : crc8_state tab ->
  exists tab', av_crc_get_table (fun _ => tab) AV_CRC_8_ATM = Some (Some tab') /\
    zlen tab' = 257 /\ aget tab' 256 = Some 1 /\ table_ok false 8 0x07 tab'.
Proof.
  intros [Hl [H0|[H1 Hok]]]; unfold av_crc_get_table.
  - rewrite H0. cbn [mbind option_bind]. change (0 =? 0) with true. cbv iota.
    destruct (av_crc_init_spec false 8 0x07 ltac:(lia) ltac:(lia) tab (4 * 257))
      as (ctx'&E&Hl'&Hok); [lia|by left|].
    cbn [av_crc_table_params crc_le crc_bits crc_poly]. rewrite E. cbn [mbind option_bind].
    exists ctx'. split; [done|]. split; [lia|]. split; [|done].
    destruct Hok as [_ [?|[_ Hs]]]; [done|].
    specialize (Hs 3 255 ltac:(lia) ltac:(lia)). rewrite aget_None in Hs by lia. done.
  - rewrite H1. cbn [mbind option_bind]. change (1 =? 0) with false. cbv iota.
    by exists tab.
Qed.

(** The check of a header followed by other bytes. *)
Lemma av_crc8_read tab pre post addr : aget tab 256 = Some 1 ->
  table_ok false 8 0x07 tab -> bytes_ok pre ->
  av_crc tab 0 (pre ++ post) addr (zlen pre) = Some (crc8 pre 0).
Proof.
  intros H1 Hok Hpre. rewrite av_crc_prefix by done.
  destruct (crc8_ref pre 0) as [<- _]; [done|lia|]. by apply av_crc_run.
Qed.

(** What the frame header check accepts.  With the standard CRC-8 table
    [av_crc] is the bitwise CRC with polynomial x^8 + x^2 + x + 1, it is zero on
    a message followed by its CRC, and it differs on two messages that differ in
    exactly one byte, so a header with one corrupted byte is always refused. *)
Theorem crc8_header_check ctx msg pre b b' post addr :
  zlen ctx = 257 -> bytes_ok msg -> bytes_ok pre -> bytes_ok post -> byte_ok b -> byte_ok b' ->
  b <> b' ->
  exists ctx', av_crc_init ctx false 8 0x07 (4 * 257) = Some (0, ctx') /\
    av_crc ctx' 0 msg addr (zlen msg) = Some (crc8 msg 0) /\
    av_crc ctx' 0 (msg ++ [crc8 msg 0]) addr (zlen (msg ++ [crc8 msg 0])) = Some 0 /\
    av_crc ctx' 0 (pre ++ b :: post) addr (zlen (pre ++ b :: post)) <>
    av_crc ctx' 0 (pre ++ b' :: post) addr (zlen (pre ++ b' :: post)).
Proof.
  intros Hl Hm Hpre Hpost Hb Hb' Hne.
  destruct (av_crc_init_spec false 8 0x07 ltac:(lia) ltac:(lia) ctx (4 * 257))
    as (ctx'&E&Hl'&Hok); [lia|by left|].
  exists ctx'. split; [done|].
  assert (forall m, bytes_ok m ->
    av_crc ctx' 0 m addr (zlen m) = Some (crc8 m 0) /\ 0 <= crc8 m 0 < 256) as Hrun.
  { intros m Hm'. destruct (crc8_ref m 0) as [Eref ?]; [done|lia|]. split; [|done].
    rewrite <- Eref. by apply av_crc_run. }
  destruct (Hrun msg Hm) as [Em Hrange]. split; [done|]. split.
  - destruct (Hrun (msg ++ [crc8 msg 0])) as [-> _].
    + apply Forall_app_2; [done|]. by constructor.
    + unfold crc8. rewrite fold_left_app. simpl. fold (crc8 msg 0). unfold crc8_byte.
      rewrite Z.lxor_nilpotent. done.
  - destruct (Hrun (pre ++ b :: post)) as [-> _].
    { apply Forall_app_2; [done|]. by constructor. }
    destruct (Hrun (pre ++ b' :: post)) as [-> _].
    { apply Forall_app_2; [done|]. by constructor. }
    intros [= Heq]. unfold crc8 in Heq. rewrite !fold_left_app in Heq. simpl in Heq.
    destruct (Hrun pre Hpre) as [_ Hp]. unfold crc8 in Hp.
    apply crc8_inj in Heq; [|done|by apply crc8_next..].
    apply crc8_byte_inj in Heq; [|done..]. by apply lxor_cancel_l in Heq.
Qed.

Lemma crc8_header_check_witness :
  let msg := [0xFF; 0xF8; 0xC9; 0x18; 0x00] in
  exists ctx', av_crc_init (replicate 257 0) false 8 0x07 (4 * 257) = Some (0, ctx') /\
    av_crc ctx' 0 msg 1 (zlen msg) = Some (crc8 msg 0) /\
    av_crc ctx' 0 (msg ++ [crc8 msg 0]) 1 (zlen (msg ++ [crc8 msg 0])) = Some 0 /\
    av_crc ctx' 0 ([0xFF] ++ 0xF8 :: [1; 2]) 1 (zlen ([0xFF] ++ 0xF8 :: [1; 2])) <>
    av_crc ctx' 0 ([0xFF] ++ 0xF9 :: [1; 2]) 1 (zlen ([0xFF] ++ 0xF9 :: [1; 2])).
Proof.
  intros msg. apply crc8_header_check.
  - by rewrite length_replicate.
  - repeat constructor; unfold byte_ok; lia.
  - repeat constructor; unfold byte_ok; lia.
  - repeat constructor; unfold byte_ok; lia.
  - unfold byte_ok; lia.
  - unfold byte_ok; lia.
  - lia.
Defined.
