(* ===== verification/FlacSubframe.v ===== *)
(** FLAC subframes: [decode_residuals], [decode_subframe_fixed],
    [decode_subframe_lpc] and [decode_subframe] of [src/libflac/flac_decode.c].

    The functions use three fields of the decoder context: the bit reader [gb],
    the sample buffer of their channel, here [dec], and [blocksize].  They return
    the C result with the new reader and buffer, which an early [return -1]
    leaves partly written.  Signed 32-bit arithmetic wraps. *)
From S2P Require Import Prelude BitString GetBits Golomb.

Abbreviation sub_result := (option (Z * GetBitContext * list Z)).

(** ** Residuals *)

(** One value of a partition stored at [sample]. *)
Definition store_with (read : GetBitContext -> option (Z * GetBitContext))
    (st : Z * GetBitContext * list Z) : option (Z * GetBitContext * list Z) :=
  let '(sample, gb, dec) := st in
  '(v, gb) ← read gb; dec ← aset dec sample v; Some (sample + 1, gb, dec).

(** Body of the partition loop; [i] is [pred_order] in the first partition and
    0 in the others. *)
Definition residual_partition (method_type samples i : Z)
    (st : Z * GetBitContext * list Z) : option (Z * GetBitContext * list Z) :=
  let '(sample, gb, dec) := st in
  '(tmp, gb) ← get_bits gb (if method_type =? 0 then 4 else 5);
  if tmp =? (if method_type =? 0 then 15 else 31) then
    '(tmp, gb) ← get_bits gb 5;
    for_range i samples (fun _ => store_with (fun gb => get_sbits_long gb tmp))
      (sample, gb, dec)
  else
    for_range i samples (fun _ => store_with (fun gb => get_sr_golomb_flac gb tmp INT_MAX 0))
      (sample, gb, dec).

Definition decode_residuals (gb : GetBitContext) (dec : list Z) (blocksize pred_order : Z)
    : sub_result :=
  '(method_type, gb) ← get_bits gb 2;
  if 1 <? method_type then Some (-1, gb, dec) else
  '(rice_order, gb) ← get_bits gb 4;
  let samples := blocksize .>> rice_order in
  if samples <? pred_order then Some (-1, gb, dec) else
  '(_, gb, dec) ← for_range 0 (1 .<< rice_order)
    (fun partition => residual_partition method_type samples
                        (if partition =? 0 then pred_order else 0))
    (pred_order, gb, dec);
  Some (0, gb, dec).

(** [for (i = 0; i < pred_order; i++) decoded[i] = get_sbits_long(&s->gb, bits)] *)
Definition warm_up (gb : GetBitContext) (dec : list Z) (n bits : Z)
    : option (GetBitContext * list Z) :=
  '(_, gb, dec) ← for_range 0 n (fun _ => store_with (fun gb => get_sbits_long gb bits))
                   (0, gb, dec);
  Some (gb, dec).

(** ** Fixed prediction *)

(** The accumulators before the restoring loop; those of a higher order are
    uninitialised and never read. *)
Definition fixed_init (dec : list Z) (p : Z) : option (Z * Z * Z * Z) :=
  a ← (if 0 <? p then aget dec (p - 1) else Some 0);
  b ← (if 1 <? p then x ← aget dec (p - 2); Some (s32 (a - x)) else Some 0);
  c ← (if 2 <? p then x ← aget dec (p - 2); y ← aget dec (p - 3); Some (s32 (b - x + y))
       else Some 0);
  d ← (if 3 <? p then x ← aget dec (p - 2); y ← aget dec (p - 3); z ← aget dec (p - 4);
         Some (s32 (c - x + 2 * y - z))
       else Some 0);
  Some (a, b, c, d).

(** [decoded[i] = a += b += c += d += decoded[i]], with the accumulators of the
    order only. *)
Definition fixed_step (p i : Z) (st : Z * Z * Z * Z * list Z)
    : option (Z * Z * Z * Z * list Z) :=
  let '(a, b, c, d, dec) := st in
  r ← aget dec i;
  let d := if 3 <? p then s32 (d + r) else d in
  let c := if 3 <? p then s32 (c + d) else if 2 <? p then s32 (c + r) else c in
  let b := if 2 <? p then s32 (b + c) else if 1 <? p then s32 (b + r) else b in
  let a := if 1 <? p then s32 (a + b) else s32 (a + r) in
  dec ← aset dec i a;
  Some (a, b, c, d, dec).

Definition fixed_restore (dec : list Z) (blocksize p : Z) : option (list Z) :=
  '(a, b, c, d) ← fixed_init dec p;
  if p =? 0 then Some dec else
  '(_, _, _, _, dec) ← for_range p blocksize (fixed_step p) (a, b, c, d, dec);
  Some dec.

Definition decode_subframe_fixed (gb : GetBitContext) (dec : list Z)
    (blocksize curr_bps pred_order : Z) : sub_result :=
  '(gb, dec) ← warm_up gb dec pred_order curr_bps;
  '(ret, gb, dec) ← decode_residuals gb dec blocksize pred_order;
  if ret <? 0 then Some (-1, gb, dec) else
  if 4 <? pred_order then
    _ ← fixed_init dec pred_order; Some (-1, gb, dec) (* illegal pred order *)
  else dec ← fixed_restore dec blocksize pred_order; Some (0, gb, dec).

(** ** Linear prediction *)

(** [sum += coeffs[j] * decoded[i - j - 1]], in the width [w] of [sum]. *)
Definition lpc_sum (w : Z) (coeffs dec : list Z) (pred_order i : Z) : option Z :=
  for_range 0 pred_order (fun j sum =>
    c ← aget coeffs j; d ← aget dec (i - j - 1); Some (wraps w (sum + c * d))) 0.

Definition lpc_add (dec : list Z) (i v : Z) : option (list Z) :=
  r ← aget dec i; aset dec i (s32 (r + v)).

(** The [bps > 16] loop, with a 64-bit sum. *)
Definition lpc_restore_wide (coeffs dec : list Z) (blocksize pred_order qlevel : Z)
    : option (list Z) :=
  for_range pred_order blocksize (fun i dec =>
    sum ← lpc_sum 64 coeffs dec pred_order i; lpc_add dec i (sum .>> qlevel)) dec.

(** The inner loop of the unrolled variant, [j] from [pred_order - 1] down to
    1: two samples share each coefficient and each load. *)
Fixpoint lpc_inner (n : nat) (coeffs dec : list Z) (i : Z) (st : Z * Z * Z)
    : option (Z * Z * Z) :=
  match n with
  | O => Some st
  | S n' =>
      let j := Z.of_nat n in
      let '(d, s0, s1) := st in
      c ← aget coeffs j;
      let s0 := s32 (s0 + c * d) in
      d ← aget dec (i - j);
      let s1 := s32 (s1 + c * d) in
      lpc_inner n' coeffs dec i (d, s0, s1)
  end.

(** Samples [i] and [i + 1]. *)
Definition lpc_pair (coeffs : list Z) (pred_order qlevel i : Z) (dec : list Z)
    : option (list Z) :=
  d ← aget dec (i - pred_order);
  '(d, s0, s1) ← lpc_inner (Z.to_nat (pred_order - 1)) coeffs dec i (d, 0, 0);
  c ← aget coeffs 0;
  let s0 := s32 (s0 + c * d) in
  dec ← lpc_add dec i (s0 .>> qlevel);
  d ← aget dec i;
  let s1 := s32 (s1 + c * d) in
  lpc_add dec (i + 1) (s1 .>> qlevel).

(** Fuel: [i] grows by two per iteration. *)
Definition lpc_restore_narrow (coeffs dec : list Z) (blocksize pred_order qlevel : Z)
    : option (list Z) :=
  '(i, dec) ← while_loop (S (Z.to_nat blocksize)) (fun '(i, _) => i <? blocksize - 1)
    (fun '(i, dec) => dec ← lpc_pair coeffs pred_order qlevel i dec; Some (i + 2, dec))
    (pred_order, dec);
  if i <? blocksize then
    sum ← lpc_sum 32 coeffs dec pred_order i; lpc_add dec i (sum .>> qlevel)
  else Some dec.

Definition decode_subframe_lpc (gb : GetBitContext) (dec : list Z)
    (blocksize bps curr_bps pred_order : Z) : sub_result :=
  '(gb, dec) ← warm_up gb dec pred_order curr_bps;
  '(x, gb) ← get_bits gb 4;
  let coeff_prec := x + 1 in
  if coeff_prec =? 16 then Some (-1, gb, dec) else
  '(qlevel, gb) ← get_sbits gb 5;
  if qlevel <? 0 then Some (-1, gb, dec) else
  '(gb, coeffs) ← for_range 0 pred_order (fun i '(gb, coeffs) =>
    '(v, gb) ← get_sbits gb coeff_prec; coeffs ← aset coeffs i v; Some (gb, coeffs))
    (gb, replicate 32 0);
  '(ret, gb, dec) ← decode_residuals gb dec blocksize pred_order;
  if ret <? 0 then Some (-1, gb, dec) else
  dec ← (if 16 <? bps then lpc_restore_wide coeffs dec blocksize pred_order qlevel
         else lpc_restore_narrow coeffs dec blocksize pred_order qlevel);
  Some (0, gb, dec).

(** ** Subframes *)

Definition FLAC_CHMODE_INDEPENDENT : Z := 0.
Definition FLAC_CHMODE_LEFT_SIDE : Z := 8.
Definition FLAC_CHMODE_RIGHT_SIDE : Z := 9.
Definition FLAC_CHMODE_MID_SIDE : Z := 10.

(** [while (!get_bits1(&s->gb)) wasted++] *)
Fixpoint wasted_bits (fuel : nat) (gb : GetBitContext) (wasted : Z)
    : option (Z * GetBitContext) :=
  match fuel with
  | O => None
  | S fuel' =>
      '(b, gb) ← get_bits1 gb;
      if b =? 0 then wasted_bits fuel' gb (wasted + 1) else Some (wasted, gb)
  end.

(** [s->decoded[channel][i] <<= wasted], undefined from 32 on. *)
Definition shift_wasted (dec : list Z) (blocksize wasted : Z) : option (list Z) :=
  for_range 0 blocksize (fun i dec =>
    v ← aget dec i;
    if wasted <? 32 then aset dec i (s32 (v .<< wasted)) else None) dec.

(** Also returns the new [curr_bps]. *)
Definition subframe_bps (bps ch_mode channel : Z) : Z :=
  if channel =? 0 then if ch_mode =? FLAC_CHMODE_RIGHT_SIDE then bps + 1 else bps
  else if (ch_mode =? FLAC_CHMODE_LEFT_SIDE) || (ch_mode =? FLAC_CHMODE_MID_SIDE)
       then bps + 1 else bps.

Definition decode_subframe (gb : GetBitContext) (dec : list Z)
    (blocksize bps ch_mode channel : Z) : option (Z * Z * GetBitContext * list Z) :=
  let curr_bps := subframe_bps bps ch_mode channel in
  '(pad, gb) ← get_bits1 gb;
  if negb (pad =? 0) then Some (-1, curr_bps, gb, dec) else
  '(type, gb) ← get_bits gb 6;
  '(w, gb) ← get_bits1 gb;
  '(wasted, gb) ← (if negb (w =? 0)
                   then wasted_bits (zeros_fuel gb) gb 1 else Some (0, gb));
  let curr_bps := curr_bps - wasted in
  if 32 <? curr_bps then Some (-1, curr_bps, gb, dec) else
  '(ret, gb, dec) ←
    (if type =? 0 then
       '(tmp, gb) ← get_sbits_long gb curr_bps;
       dec ← for_range 0 blocksize (fun i dec => aset dec i tmp) dec;
       Some (0, gb, dec)
     else if type =? 1 then
       '(gb, dec) ← warm_up gb dec blocksize curr_bps; Some (0, gb, dec)
     else if (8 <=? type) && (type <=? 12) then
       decode_subframe_fixed gb dec blocksize curr_bps (type .& Z.lnot 0x8)
     else if 32 <=? type then
       decode_subframe_lpc gb dec blocksize bps curr_bps ((type .& Z.lnot 0x20) + 1)
     else Some (-1, gb, dec));
  if ret <? 0 then Some (-1, curr_bps, gb, dec) else
  dec ← (if negb (wasted =? 0) then shift_wasted dec blocksize wasted else Some dec);
  Some (0, curr_bps, gb, dec).

(** ** Arithmetic modulo 2^32 *)

Lemma wraps_plus w x y : 0 <= w -> wraps w (wraps w x + wraps w y) = wraps w (x + y).
Proof. intros. by rewrite wraps_add_l, wraps_add_r. Qed.

Lemma wraps_sub_add w x y : 0 < w -> - 2 ^ (w - 1) <= x < 2 ^ (w - 1) ->
  wraps w (wraps w (x - y) + y) = x.
Proof.
  intros. rewrite wraps_add_l by lia. replace (x - y + y) with x by lia.
  by apply wraps_small.
Qed.

(** Samples that fit their cells. *)
Definition s32_ok (x : Z) : Prop := - 2 ^ 31 <= x < 2 ^ 31.

Lemma s32_id x : s32_ok x -> s32 x = x.
Proof. intros. apply wraps_small; [done|]. apply H. Qed.

(** Sample [i] of [x], for [0 <= i < length x]. *)
Definition samp (x : list Z) (i : Z) : Z := default 0 (aget x i).

Lemma samp_get x i : 0 <= i < zlen x -> aget x i = Some (samp x i).
Proof. intros. unfold samp. by destruct (aget_Some x i) as [v ->]. Qed.

Lemma samp_ok x i : Forall s32_ok x -> s32_ok (samp x i).
Proof.
  intros H. unfold samp. destruct (aget x i) eqn:E; simpl; [by eapply aget_Forall in E|].
  unfold s32_ok. lia.
Qed.

(** ** Restoring in place

    [part x e rest i]: the first [i] cells hold samples, the others the encoded
    values [e], then the rest of the buffer. *)
Definition part (x e rest : list Z) (i : Z) : list Z :=
  take (Z.to_nat i) x ++ drop (Z.to_nat i) e ++ rest.

Section Part.
Variables (x e rest : list Z).
Hypothesis Hlen : length e = length x.

Lemma part_length i : 0 <= i <= zlen x -> zlen (part x e rest i) = zlen x + zlen rest.
Proof. intros. unfold part. rewrite !length_app, length_take, length_drop. lia. Qed.

Lemma part_done i j : 0 <= j < i -> i <= zlen x -> aget (part x e rest i) j = Some (samp x j).
Proof.
  intros Hj Hi. rewrite <- samp_get by lia. rewrite !aget_lookup by lia. unfold part.
  rewrite lookup_app_l by (rewrite length_take; lia). by rewrite lookup_take_lt by lia.
Qed.

Lemma part_todo i j : 0 <= i <= j -> j < zlen x -> aget (part x e rest i) j = Some (samp e j).
Proof.
  intros Hi Hj. rewrite <- samp_get by lia. rewrite !aget_lookup by lia. unfold part.
  rewrite lookup_app_r by (rewrite length_take; lia).
  rewrite lookup_app_l by (rewrite length_drop, length_take; lia).
  rewrite lookup_drop, length_take. f_equal. lia.
Qed.

Lemma part_step i : 0 <= i < zlen x ->
  aset (part x e rest i) i (samp x i) = Some (part x e rest (i + 1)).
Proof.
  intros Hi. unfold part. rewrite aset_Some by (rewrite !length_app, length_take, length_drop; lia).
  f_equal. rewrite (take_succ_lookup x i (samp x i)) by (try apply samp_get; lia).
  rewrite insert_app_r_alt by (rewrite length_take; lia).
  rewrite length_take, Nat.min_l, Nat.sub_diag by lia.
  destruct (drop (Z.to_nat i) e) as [|y l] eqn:E.
  { apply (f_equal length) in E. rewrite length_drop in E. simpl in E. lia. }
  replace (Z.to_nat (i + 1)) with (S (Z.to_nat i)) by lia.
  assert (drop (S (Z.to_nat i)) e = l) as ->.
  { replace (S (Z.to_nat i)) with (Z.to_nat i + 1)%nat by lia.
  rewrite <- drop_drop, E. done. }
  simpl. by rewrite <- app_assoc.
Qed.

Lemma part_end : part x e rest (zlen x) = x ++ rest.
Proof.
  unfold part. rewrite Nat2Z.id, take_ge, drop_ge by lia. done.
Qed.

Lemma part_start p : 0 <= p -> (forall i, 0 <= i < p -> samp x i = samp e i) ->
  p <= zlen x -> part x e rest p = e ++ rest.
Proof.
  intros Hp Hsame Hl. unfold part. rewrite app_assoc. f_equal.
  assert (take (Z.to_nat p) x = take (Z.to_nat p) e) as ->; [|apply take_drop].
  apply list_eq. intros i. destruct (decide (i < Z.to_nat p)%nat) as [Hi|Hi].
  - rewrite !lookup_take_lt by done. specialize (Hsame (Z.of_nat i) ltac:(lia)).
  assert (aget x (Z.of_nat i) = aget e (Z.of_nat i)) as E
  by (rewrite !samp_get by lia; by f_equal).
  rewrite !aget_lookup in E by lia. by rewrite !Nat2Z.id in E.
  - rewrite !lookup_ge_None_2; [done|rewrite length_take; lia..].
Qed.
End Part.

(** ** Linear prediction *)

(** The exact prediction sum. *)
Fixpoint dot (coeffs x : list Z) (i : Z) (n : nat) : Z :=
  match n with
  | O => 0
  | S n' => dot coeffs x i n' + samp coeffs (Z.of_nat n') * samp x (i - Z.of_nat n' - 1)
  end.

(** Cells of [dec] before [i] that hold samples of [x]. *)
Definition agree (dec x : list Z) (i : Z) : Prop :=
  forall j, 0 <= j < i -> aget dec j = Some (samp x j).

Lemma lpc_sum_spec w coeffs dec x p i : 0 < w -> 0 <= p <= i -> p <= zlen coeffs ->
  agree dec x i ->
  lpc_sum w coeffs dec p i = Some (wraps w (dot coeffs x i (Z.to_nat p))).
Proof.
  intros Hw Hp Hc Ha. unfold lpc_sum.
  destruct (for_range_inv (fun j sum => sum = wraps w (dot coeffs x i (Z.to_nat j))) 0 p
    (fun j sum => c ← aget coeffs j; d ← aget dec (i - j - 1); Some (wraps w (sum + c * d))) 0)
    as (s&E&->); [lia| | |done].
  - simpl. symmetry. apply wraps_small; [done|]. pose proof (pow2_pos (w - 1) ltac:(lia)). lia.
  - intros j s Hj ->. rewrite (samp_get coeffs j) by lia. cbn [mbind option_bind].
    rewrite Ha by lia. cbn [mbind option_bind]. eexists. split; [done|].
    rewrite wraps_add_l by lia. replace (Z.to_nat (j + 1)) with (S (Z.to_nat j)) by lia.
    simpl. by rewrite !Z2Nat.id by lia.
Qed.

(** The unrolled inner loop accumulates two sums: for sample [i] from
    coefficient [p - 1] down to 1, for sample [i + 1] the same coefficients one
    sample later. *)
Lemma lpc_inner_spec coeffs dec x i n a b : Z.of_nat n < zlen coeffs -> Z.of_nat n < i ->
  agree dec x i ->
  lpc_inner n coeffs dec i (samp x (i - Z.of_nat n - 1), s32 a, s32 b) =
  Some (samp x (i - 1),
        s32 (a + dot coeffs x i (S n) - samp coeffs 0 * samp x (i - 1)),
        s32 (b + dot coeffs x (i + 1) (S n) - samp coeffs 0 * samp x i)).
Proof.
  intros Hc Hi Ha. revert a b. induction n as [|n IH]; intros a b.
  - cbn [lpc_inner dot]. change (Z.of_nat 0) with 0. rewrite Z.sub_0_r.
    replace (i + 1 - 0 - 1) with i by lia.
    do 2 f_equal; [f_equal|]; f_equal; lia.
  - cbn [lpc_inner]. rewrite (samp_get coeffs) by lia. cbn [mbind option_bind].
    rewrite Ha by lia. cbn [mbind option_bind].
    rewrite !wraps_add_l by lia.
    replace (samp x (i - Z.of_nat (S n))) with (samp x (i - Z.of_nat n - 1)) by (f_equal; lia).
    rewrite IH by lia.
    assert (forall k, dot coeffs x k (S (S n)) = dot coeffs x k (S n) +
      samp coeffs (Z.of_nat (S n)) * samp x (k - Z.of_nat (S n) - 1)) as Hdot by done.
    rewrite !Hdot.
    replace (i + 1 - Z.of_nat (S n) - 1) with (i - Z.of_nat n - 1) by lia.
    do 2 f_equal; [f_equal|]; f_equal; lia.
Qed.

Lemma samp_map_seqZ (f : Z -> Z) n i : 0 <= i < n -> samp (map f (seqZ 0 n)) i = f i.
Proof.
  intros Hi. unfold samp. rewrite aget_lookup by lia.
  rewrite list_lookup_fmap, lookup_seqZ_lt by lia. simpl. f_equal. lia.
Qed.

Section Lpc.
Variables (w : Z) (coeffs x rest : list Z) (p q : Z).
Hypothesis Hw : 0 < w.
Hypothesis Hp : 1 <= p <= zlen x.
Hypothesis Hcoeffs : p <= zlen coeffs.
Hypothesis Hx : Forall s32_ok x.

(** The prediction of sample [i] and what an encoder stores: the first [p]
  samples, then the differences modulo 2^32. *)
Definition lpc_pred (i : Z) : Z := wraps w (dot coeffs x i (Z.to_nat p)) .>> q.

Definition lpc_encode : list Z :=
  map (fun i => if i <? p then samp x i else s32 (samp x i - lpc_pred i)) (seqZ 0 (zlen x)).

Lemma lpc_encode_length : length lpc_encode = length x.
Proof. clear. unfold lpc_encode. rewrite length_map, length_seqZ. lia. Qed.

Lemma lpc_encode_lo i : 0 <= i < p -> samp x i = samp lpc_encode i.
Proof.
  intros. unfold lpc_encode. rewrite samp_map_seqZ by lia.
  by rewrite (proj2 (Z.ltb_lt i p)) by lia.
Qed.

Lemma lpc_encode_hi i : p <= i < zlen x -> samp lpc_encode i = s32 (samp x i - lpc_pred i).
Proof.
  intros. unfold lpc_encode. rewrite samp_map_seqZ by lia.
  by rewrite (proj2 (Z.ltb_ge i p)) by lia.
Qed.

Abbreviation cells i := (part x lpc_encode rest i).

Lemma lpc_add_spec i : p <= i < zlen x ->
  lpc_add (cells i) i (lpc_pred i) = Some (cells (i + 1)).
Proof.
  intros Hi. unfold lpc_add. pose proof lpc_encode_length as Hl.
  rewrite part_todo by lia. cbn [mbind option_bind].
  rewrite lpc_encode_hi by done. rewrite wraps_sub_add by (try apply samp_ok; done).
  by apply part_step; [|lia].
Qed.

Lemma cells_agree i : 0 <= i <= zlen x -> agree (cells i) x i.
Proof.
  intros Hi j Hj. apply part_done; [|lia|lia]. apply lpc_encode_length.
Qed.

Lemma lpc_loop_step i : p <= i < zlen x ->
  (sum ← lpc_sum w coeffs (cells i) p i; lpc_add (cells i) i (sum .>> q))
  = Some (cells (i + 1)).
Proof.
  intros Hi. rewrite (lpc_sum_spec w coeffs _ x) by (lia || (apply cells_agree; lia)).
  cbn [mbind option_bind]. by apply lpc_add_spec.
Qed.

Lemma cells_start : lpc_encode ++ rest = cells p.
Proof.
  symmetry. apply part_start; [apply lpc_encode_length|lia|apply lpc_encode_lo|lia].
Qed.

Lemma cells_end : cells (zlen x) = x ++ rest.
Proof. apply part_end, lpc_encode_length. Qed.
End Lpc.

Lemma lpc_wide_lossless coeffs x rest p q :
  1 <= p <= zlen x -> p <= zlen coeffs -> Forall s32_ok x ->
  lpc_restore_wide coeffs (lpc_encode 64 coeffs x p q ++ rest) (zlen x) p q = Some (x ++ rest).
Proof.
  intros Hp Hc Hx. unfold lpc_restore_wide.
  rewrite (cells_start 64 coeffs x rest p q) by done.
  destruct (for_range_inv (fun i dec => dec = part x (lpc_encode 64 coeffs x p q) rest i)
    p (zlen x) (fun i dec => sum ← lpc_sum 64 coeffs dec p i; lpc_add dec i (sum .>> q))
    (part x (lpc_encode 64 coeffs x p q) rest p)) as (dec&E&->); [lia|done| |].
  - intros i dec Hi ->. rewrite lpc_loop_step by (done || lia). eauto.
  - rewrite E. by rewrite cells_end.
Qed.

(** One iteration of the unrolled loop does two of the simple one. *)
Lemma lpc_pair_spec coeffs x rest p q i :
  1 <= p <= zlen x -> p <= zlen coeffs -> Forall s32_ok x ->
  p <= i < zlen x - 1 ->
  lpc_pair coeffs p q i (part x (lpc_encode 32 coeffs x p q) rest i) =
  Some (part x (lpc_encode 32 coeffs x p q) rest (i + 2)).
Proof.
  intros Hp Hc Hx Hi. unfold lpc_pair.
  pose proof (lpc_encode_length 32 coeffs x p q) as Hl.
  set (e := lpc_encode 32 coeffs x p q) in *.
  rewrite part_done by lia. cbn [mbind option_bind].
  pose proof (lpc_inner_spec coeffs (part x e rest i) x i (Z.to_nat (p - 1)) 0 0) as Hin.
  rewrite (wraps_small 32 0) in Hin by (done || lia).
  replace (i - Z.of_nat (Z.to_nat (p - 1)) - 1) with (i - p) in Hin by lia.
  rewrite Hin by (lia || (apply cells_agree; lia)). clear Hin. cbn [mbind option_bind].
  replace (S (Z.to_nat (p - 1))) with (Z.to_nat p) by lia.
  rewrite samp_get by lia. cbn [mbind option_bind]. rewrite !wraps_add_l by lia.
  replace (0 + dot coeffs x i (Z.to_nat p) - samp coeffs 0 * samp x (i - 1) +
    samp coeffs 0 * samp x (i - 1)) with (dot coeffs x i (Z.to_nat p)) by lia.
  pose proof (lpc_add_spec 32 coeffs x rest p q Hp Hx i ltac:(lia)) as Hadd.
  fold e in Hadd. unfold lpc_pred in Hadd. rewrite Hadd. cbn [mbind option_bind].
  rewrite part_done by lia. cbn [mbind option_bind]. rewrite !wraps_add_l by lia.
  replace (0 + dot coeffs x (i + 1) (Z.to_nat p) - samp coeffs 0 * samp x i +
    samp coeffs 0 * samp x i) with (dot coeffs x (i + 1) (Z.to_nat p)) by lia.
  pose proof (lpc_add_spec 32 coeffs x rest p q Hp Hx (i + 1) ltac:(lia))
    as Hadd1.
  fold e in Hadd1. unfold lpc_pred in Hadd1. rewrite Hadd1. do 2 f_equal. lia.
Qed.

Lemma lpc_narrow_lossless coeffs x rest p q :
  1 <= p <= zlen x -> p <= zlen coeffs -> Forall s32_ok x ->
  lpc_restore_narrow coeffs (lpc_encode 32 coeffs x p q ++ rest) (zlen x) p q
    = Some (x ++ rest).
Proof.
  intros Hp Hc Hx. unfold lpc_restore_narrow.
  rewrite (cells_start 32 coeffs x rest p q) by done. rewrite Nat2Z.id.
  destruct (while_loop_inv (fun '(i, dec) => p <= i <= zlen x /\
      dec = part x (lpc_encode 32 coeffs x p q) rest i)
    (fun '(i, _) => zlen x - i - 1) (S (length x)) (fun '(i, _) => i <? zlen x - 1)
    (fun '(i, dec) => dec ← lpc_pair coeffs p q i dec; Some (i + 2, dec))
    (p, part x (lpc_encode 32 coeffs x p q) rest p)) as ([i dec]&E&(Hi&->)&Hcond);
    [split; [lia|done]|lia| |lia|].
  - intros [i dec] (Hi&->) Hcond. zbool. split; [lia|].
    rewrite lpc_pair_spec by (done || lia). eexists. split; [done|]. simpl.
    split; [|lia]. split; [lia|done].
  - rewrite E. cbn [mbind option_bind]. zbool. destruct (Z.ltb_spec i (zlen x)).
    + rewrite lpc_loop_step by (done || lia). replace (i + 1) with (zlen x) by lia.
      by rewrite cells_end.
    + replace i with (zlen x) by lia. by rewrite cells_end.
Qed.

(** ** Fixed prediction inverts finite differences *)

Fixpoint diff (x : list Z) (i : Z) (k : nat) : Z :=
  match k with
  | O => samp x i
  | S k' => diff x i k' - diff x (i - 1) k'
  end.

#[local] Arguments diff : simpl never.

(** What an encoder stores: the first [p] samples, then the differences of
    order [p] modulo 2^32. *)
Definition fixed_encode (x : list Z) (p : Z) : list Z :=
  map (fun i => if i <? p then samp x i else s32 (diff x i (Z.to_nat p))) (seqZ 0 (zlen x)).

Lemma fixed_encode_length x p : length (fixed_encode x p) = length x.
Proof. unfold fixed_encode. rewrite length_map, length_seqZ. lia. Qed.

Lemma fixed_encode_samp x p i : 0 <= i < zlen x ->
  samp (fixed_encode x p) i = if i <? p then samp x i else s32 (diff x i (Z.to_nat p)).
Proof. intros. unfold fixed_encode. by rewrite samp_map_seqZ by lia. Qed.

Lemma s32_plus x y : s32 (s32 x + s32 y) = s32 (x + y).
Proof. by apply wraps_plus. Qed.

(** One accumulator of the restoring loop. *)
Lemma diff_step x i k :
  s32 (s32 (diff x (i - 1) k) + s32 (diff x i (S k))) = s32 (diff x i k).
Proof.
  rewrite s32_plus. change (diff x i (S k)) with (diff x i k - diff x (i - 1) k).
  f_equal. lia.
Qed.

(** The accumulators of the order hold the differences at sample [i - 1]. *)
Record fixed_inv (x rest : list Z) (p i : Z) (st : Z * Z * Z * Z * list Z) : Prop := FixedInv {
  fi_dec : st.2 = part x (fixed_encode x p) rest i;
  fi_a : st.1.1.1.1 = s32 (diff x (i - 1) 0);
  fi_b : 1 < p -> st.1.1.1.2 = s32 (diff x (i - 1) 1);
  fi_c : 2 < p -> st.1.1.2 = s32 (diff x (i - 1) 2);
  fi_d : 3 < p -> st.1.2 = s32 (diff x (i - 1) 3)
}.

Lemma fixed_step_inv x rest p i st : 1 <= p <= 4 -> Forall s32_ok x ->
  p <= i < zlen x -> fixed_inv x rest p i st ->
  exists st', fixed_step p i st = Some st' /\ fixed_inv x rest p (i + 1) st'.
Proof.
  intros Hp Hx Hi [Hd Ha Hb Hc Hdd]. destruct st as [[[[a b] c] d] dec]. simpl in *. subst dec a.
  unfold fixed_step. rewrite part_todo by (lia || apply fixed_encode_length).
  cbn [mbind option_bind]. rewrite fixed_encode_samp, (proj2 (Z.ltb_ge i p)) by lia.
  assert (s32 (samp x i) = samp x i) as Hs by (by apply s32_id, samp_ok).
  assert (forall v, v = samp x i -> aset (part x (fixed_encode x p) rest i) i v = Some (part x (fixed_encode x p) rest (i + 1)))
    as Hset.
  { intros v ->. apply part_step; [apply fixed_encode_length|lia]. }
  assert (p = 1 \/ p = 2 \/ p = 3 \/ p = 4) as [Ep|[Ep|[Ep|Ep]]] by lia.
  - subst p. simpl. change (Z.to_nat 1) with 1%nat. rewrite (diff_step x i 0).
    rewrite Hset by done. simpl. eexists. split; [done|].
    split; simpl; rewrite ?Z.add_simpl_r; lia || done.
  - subst p. simpl. change (Z.to_nat 2) with 2%nat. rewrite Hb by lia.
    rewrite (diff_step x i 1), (diff_step x i 0).
    rewrite Hset by done. simpl. eexists. split; [done|].
    split; simpl; rewrite ?Z.add_simpl_r; lia || done.
  - subst p. simpl. change (Z.to_nat 3) with 3%nat. rewrite Hb, Hc by lia.
    rewrite (diff_step x i 2), (diff_step x i 1), (diff_step x i 0).
    rewrite Hset by done. simpl. eexists. split; [done|].
    split; simpl; rewrite ?Z.add_simpl_r; lia || done.
  - subst p. simpl. change (Z.to_nat 4) with 4%nat. rewrite Hb, Hc, Hdd by lia.
    rewrite (diff_step x i 3), (diff_step x i 2), (diff_step x i 1), (diff_step x i 0).
    rewrite Hset by done. simpl. eexists. split; [done|].
    split; simpl; rewrite ?Z.add_simpl_r; lia || done.
Qed.

Lemma fixed_init_inv x rest p : 1 <= p <= 4 -> p <= zlen x -> Forall s32_ok x ->
  exists acc, fixed_init (part x (fixed_encode x p) rest p) p = Some acc /\
    fixed_inv x rest p p (acc, part x (fixed_encode x p) rest p).
Proof.
  intros Hp Hl Hx.
  pose proof (fixed_encode_length x p) as Hel. unfold fixed_init.
  assert (s32 (samp x (p - 1)) = samp x (p - 1)) as Hs by (by apply s32_id, samp_ok).
  assert (forall u v, s32 (s32 u + v) = s32 (u + v)) as Hadd.
  { intros. by apply wraps_add_l. }
  assert (forall u v, s32 (s32 u - v) = s32 (u - v)) as Hsub.
  { intros. rewrite <- !Z.add_opp_r. by apply wraps_add_l. }
  assert (p = 1 \/ p = 2 \/ p = 3 \/ p = 4) as [Ep|[Ep|[Ep|Ep]]] by lia; subst p;
    simpl; rewrite !part_done by lia; simpl; (eexists; split; [done|]);
    split; simpl; try lia; try done; intros;
    rewrite <- ?Z.add_opp_r; repeat (rewrite <- ?Z.add_assoc; rewrite Hadd); cbv beta iota fix delta [diff]; f_equal;
    repeat match goal with
    | |- context [samp x ?k] => let k' := eval vm_compute in k in
        assert_fails (constr_eq k k'); change (samp x k) with (samp x k')
    end; lia.
Qed.

Lemma fixed_restore_lossless x rest p : 0 <= p <= 4 -> p <= zlen x -> Forall s32_ok x ->
  fixed_restore (fixed_encode x p ++ rest) (zlen x) p = Some (x ++ rest).
Proof.
  intros Hp Hl Hx. pose proof (fixed_encode_length x p) as Hel. unfold fixed_restore.
  destruct (decide (p = 0)) as [->|Hp0].
  - simpl. do 2 f_equal. apply list_eq. intros i.
    destruct (decide (i < length x)%nat) as [Hi|Hi].
    + pose proof (fixed_encode_samp x 0 (Z.of_nat i) ltac:(lia)) as Hs.
      rewrite (proj2 (Z.ltb_ge _ 0)) in Hs by lia. simpl in Hs.
      rewrite s32_id in Hs by (by apply samp_ok).
      assert (aget (fixed_encode x 0) (Z.of_nat i) = aget x (Z.of_nat i)) as E
        by (rewrite !samp_get by lia; by f_equal).
      rewrite !aget_lookup in E by lia. by rewrite !Nat2Z.id in E.
    + rewrite !lookup_ge_None_2 by lia. done.
  - assert (fixed_encode x p ++ rest = part x (fixed_encode x p) rest p) as ->.
    { symmetry. apply part_start; [done|lia| |lia]. intros i Hi.
      rewrite fixed_encode_samp by lia. by rewrite (proj2 (Z.ltb_lt i p)) by lia. }
    destruct (fixed_init_inv x rest p) as ([[[a b] c] d]&E&Hinv); [lia|done|done|].
    rewrite E. cbn [mbind option_bind]. rewrite (proj2 (Z.eqb_neq p 0)) by done.
    destruct (for_range_inv (fixed_inv x rest p) p (zlen x) (fixed_step p)
      (a, b, c, d, part x (fixed_encode x p) rest p)) as (st&E'&Hend);
      [lia|done| |].
    + intros i st Hi Hst. apply fixed_step_inv; [lia|done|done|done].
    + rewrite E'. destruct st as [[[[? ?] ?] ?] dec]. simpl.
      destruct Hend as [Hd _ _ _ _]. simpl in Hd. subst dec. by rewrite part_end.
Qed.

(** ** Reading what a writer wrote

    [ready gb l rest]: the writes [l] start at the reader's index, and four
    bytes of memory follow the last bit. *)
Record ready (gb : GetBitContext) (l : list (Z * Z)) : Prop := Ready {
  rd_ok : gb_ok gb;
  rd_written : written (gb_buffer gb) (gb_index gb) l;
  rd_room : (gb_index gb + width l - 1) / 8 + 4 <= zlen (gb_buffer gb)
}.

Lemma SKIP_SKIP gb a b : SKIP_COUNTER (SKIP_COUNTER gb a) b = SKIP_COUNTER gb (a + b).
Proof. unfold SKIP_COUNTER. simpl. f_equal. lia. Qed.

Lemma SKIP_0 gb : SKIP_COUNTER gb 0 = gb.
Proof. destruct gb. unfold SKIP_COUNTER. simpl. by rewrite Z.add_0_r. Qed.

Lemma ready_app gb l1 l2 : 0 <= width l1 -> ready gb (l1 ++ l2) ->
  ready (SKIP_COUNTER gb (width l1)) l2.
Proof.
  intros Hw [Hok Hwr Hr]. rewrite width_app in Hr. apply written_app in Hwr as [_ Hwr].
  split; [by apply gb_ok_skip|done|]. simpl.
  by replace (gb_index gb + width l1 + width l2) with (gb_index gb + (width l1 + width l2)) by lia.
Qed.

Lemma ready_prefix gb l1 l2 : 0 <= width l2 -> ready gb (l1 ++ l2) -> ready gb l1.
Proof.
  intros Hw [Hok Hwr Hr]. rewrite width_app in Hr. apply written_app in Hwr as [Hwr _].
  split; [done..|]. zdiv.
Qed.

Lemma ready_cache gb l : 1 <= width l -> ready gb l -> cache_in gb.
Proof. intros Hw [[Hb Hi] _ Hr]. unfold cache_in. zdiv. Qed.

(** A field of up to 25 bits. *)
Lemma ready_get_bits gb n v l : 1 <= n <= 25 -> 0 <= v < 2 ^ n -> 0 <= width l ->
  ready gb ((n, v) :: l) ->
  get_bits gb n = Some (v, SKIP_COUNTER gb n) /\ ready (SKIP_COUNTER gb n) l.
Proof.
  intros Hn Hv Hw Hrd. split.
  - pose proof (ready_cache gb ((n, v) :: l)) as Hc. rewrite width_cons in Hc.
    pose proof Hrd as [Hok [Hb _] _]. pose proof Hok as [_ Hi].
    rewrite get_bits_slice; [|done|apply Hc; [lia|done]|lia|zdiv].
    by rewrite Hb, Z.mod_small.
  - pose proof (ready_app gb [(n, v)] l) as H. rewrite width_cons in H.
    change (width []) with 0 in H. rewrite Z.add_0_r in H. apply H; [lia|done].
Qed.

Lemma ready_get_sbits gb n v l : 1 <= n <= 25 -> - 2 ^ (n - 1) <= v < 2 ^ (n - 1) ->
  0 <= width l -> ready gb ((n, v) :: l) ->
  get_sbits gb n = Some (v, SKIP_COUNTER gb n) /\ ready (SKIP_COUNTER gb n) l.
Proof.
  intros Hn Hv Hw Hrd. split.
  - pose proof (ready_cache gb ((n, v) :: l)) as Hc. rewrite width_cons in Hc.
    pose proof Hrd as [Hok [Hb _] _]. pose proof Hok as [_ Hi].
    rewrite get_sbits_slice; [|done|apply Hc; [lia|done]|lia|zdiv].
    rewrite Hb. change (v mod 2 ^ n) with (wrapu n v).
    by rewrite wraps_wrapu, wraps_small by lia.
  - pose proof (ready_app gb [(n, v)] l) as H. rewrite width_cons in H.
    change (width []) with 0 in H. rewrite Z.add_0_r in H. apply H; [lia|done].
Qed.

Lemma ready_get_bits1 gb v l : 0 <= v < 2 -> 0 <= width l -> ready gb ((1, v) :: l) ->
  get_bits1 gb = Some (v, SKIP_COUNTER gb 1) /\ ready (SKIP_COUNTER gb 1) l.
Proof.
  intros Hv Hw Hrd. split.
  - pose proof (ready_cache gb ((1, v) :: l)) as Hc. rewrite width_cons in Hc.
    pose proof Hrd as [Hok [Hb _] _]. specialize (Hc ltac:(lia) Hrd). unfold cache_in in Hc.
    rewrite get_bits1_slice by (done || lia). by rewrite Hb, Z.mod_small.
  - apply (ready_app gb [(1, v)] l); [done|exact Hrd].
Qed.

Lemma ready_get_sbits_long gb n v l : 1 <= n <= 32 -> - 2 ^ (n - 1) <= v < 2 ^ (n - 1) ->
  0 <= width l -> ready gb ((n, v) :: l) ->
  get_sbits_long gb n = Some (v, SKIP_COUNTER gb n) /\ ready (SKIP_COUNTER gb n) l.
Proof.
  intros Hn Hv Hw Hrd. split.
  - pose proof Hrd as [Hok [Hb _] Hr]. rewrite width_cons in Hr.
    rewrite get_sbits_long_slice by (done || zdiv).
    rewrite Hb. change (v mod 2 ^ n) with (wrapu n v).
    by rewrite wraps_wrapu, wraps_small by lia.
  - pose proof (ready_app gb [(n, v)] l) as H. rewrite width_cons in H.
    change (width []) with 0 in H. rewrite Z.add_0_r in H. apply H; [lia|done].
Qed.

(** ** Lists of values *)

(** [dec] with [l] written from cell [j] on. *)
Definition fill (dec : list Z) (j : Z) (l : list Z) : list Z :=
  take (Z.to_nat j) dec ++ l ++ drop (Z.to_nat j + length l) dec.

Lemma fill_length dec j l : 0 <= j -> j + zlen l <= zlen dec ->
  length (fill dec j l) = length dec.
Proof. intros. unfold fill. rewrite !length_app, length_take, length_drop. lia. Qed.

Lemma fill_nil dec j : fill dec j [] = dec.
Proof. unfold fill. simpl. rewrite Nat.add_0_r. apply take_drop. Qed.

Lemma fill_cons dec j v l : 0 <= j -> j + 1 + zlen l <= zlen dec ->
  fill (<[Z.to_nat j := v]> dec) (j + 1) l = fill dec j (v :: l).
Proof.
  intros Hj Hl. unfold fill. replace (Z.to_nat (j + 1)) with (S (Z.to_nat j)) by lia.
  rewrite (take_S_r _ _ v) by (apply list_lookup_insert_eq; lia).
  rewrite take_insert_ge by lia. rewrite drop_insert_lt by lia.
  rewrite <- app_assoc. simpl. do 3 f_equal. f_equal. lia.
Qed.

Lemma fill_app dec j l1 l2 : 0 <= j -> j + zlen l1 + zlen l2 <= zlen dec ->
  fill (fill dec j l1) (j + zlen l1) l2 = fill dec j (l1 ++ l2).
Proof.
  intros Hj Hl. unfold fill at 1 3.
  assert (take (Z.to_nat (j + zlen l1)) (fill dec j l1) = take (Z.to_nat j) dec ++ l1) as ->.
  { unfold fill. rewrite app_assoc. rewrite take_app_le, take_ge;
      rewrite ?length_app, ?length_take; [done|lia|lia]. }
  assert (drop (Z.to_nat (j + zlen l1) + length l2) (fill dec j l1)
    = drop (Z.to_nat j + length (l1 ++ l2)) dec) as ->.
  { unfold fill. rewrite app_assoc, drop_app_ge by (rewrite length_app, length_take; lia).
    rewrite drop_drop, !length_app, length_take. f_equal. lia. }
  by rewrite <- !app_assoc.
Qed.

Section ReadList.
Variables (read : GetBitContext -> option (Z * GetBitContext)) (code : Z -> list (Z * Z)).
Variable ok : Z -> Prop.
Hypothesis Hread : forall gb v l, ok v -> 0 <= width l -> ready gb (code v ++ l) ->
  read gb = Some (v, SKIP_COUNTER gb (width (code v))).
Hypothesis Hcode : forall v, ok v -> 0 <= width (code v).

Lemma codes_width vs : Forall ok vs -> 0 <= width (flat_map code vs).
Proof. by apply flat_width. Qed.

Lemma read_list vs gb dec j i rest : Forall ok vs -> 0 <= width rest ->
  ready gb (flat_map code vs ++ rest) -> 0 <= j -> j + zlen vs <= zlen dec ->
  for_loop (length vs) i (fun _ => store_with read) (j, gb, dec)
  = Some (j + zlen vs, SKIP_COUNTER gb (width (flat_map code vs)), fill dec j vs) /\
  ready (SKIP_COUNTER gb (width (flat_map code vs))) rest.
Proof.
  intros Hok Hwr. revert gb dec j i. induction Hok as [|v vs Hv Hok IH]; intros gb dec j i Hrd Hj Hl.
  - simpl. change (width []) with 0. rewrite SKIP_0, fill_nil, Z.add_0_r. done.
  - pose proof (codes_width vs Hok) as Hw. pose proof (Hcode v Hv).
  cbn [flat_map] in *. rewrite <- app_assoc in Hrd. rewrite width_app.
  cbn [length] in *. change (for_loop (S (length vs)) i (fun _ => store_with read) (j, gb, dec))
  with (s ← store_with read (j, gb, dec); for_loop (length vs) (i + 1)
          (fun _ => store_with read) s).
  assert (0 <= width (flat_map code vs ++ rest)) by (rewrite width_app; lia).
  change (store_with read (j, gb, dec)) with
  ('(v, gb) ← read gb; dec ← aset dec j v; Some (j + 1, gb, dec)).
  rewrite (Hread gb v _ Hv) by done.
  cbn [mbind option_bind]. rewrite aset_Some by lia. cbn [mbind option_bind].
  apply ready_app in Hrd; [|done].
  destruct (IH (SKIP_COUNTER gb (width (code v))) (<[Z.to_nat j := v]> dec) (j + 1) (i + 1))
  as [-> Hrd']; [done|lia|rewrite length_insert; lia|].
  rewrite SKIP_SKIP, fill_cons by lia.
  rewrite SKIP_SKIP in Hrd'. split; [|done]. do 3 f_equal. lia.
Qed.
End ReadList.

(** ** Raw samples *)

Definition signed_bits (n v : Z) : Prop := - 2 ^ (n - 1) <= v < 2 ^ (n - 1).

Definition raw_code (n v : Z) : list (Z * Z) := [(n, v)].

Lemma raw_code_width n v : width (raw_code n v) = n.
Proof. apply Z.add_0_r. Qed.

Lemma raw_width n vs : 0 <= n -> 0 <= width (flat_map (raw_code n) vs).
Proof.
  intros Hn. apply (flat_width _ (fun _ => True)); [|by apply Forall_true].
  intros v _. rewrite raw_code_width. lia.
Qed.

(** ** The residual coder

    A partition is its coding and its values: a Rice parameter, or behind an escape
    the width of raw values.  [residual_code] is what an encoder writes for
    [2 ^ order] partitions with coding method [m]. *)
Inductive coding := Rice (k : Z) | Raw (n : Z).

Definition param_bits (m : Z) : Z := if m =? 0 then 4 else 5.

Definition golomb_code (k v : Z) : list (Z * Z) := set_sr_golomb_flac v k INT_MAX 0.

Definition partition_code (m : Z) (part : coding * list Z) : list (Z * Z) :=
  match part.1 with
  | Rice k => (param_bits m, k) :: flat_map (golomb_code k) part.2
  | Raw n => (param_bits m, 2 ^ param_bits m - 1) :: (5, n) :: flat_map (raw_code n) part.2
  end.

Definition residual_code (m order : Z) (parts : list (coding * list Z)) : list (Z * Z) :=
  (2, m) :: (4, order) :: flat_map (partition_code m) parts.

(** A parameter below the escape code and within the reader's 24 bits, or a width of 1 to 31 bits. *)
Definition part_ok (m : Z) (part : coding * list Z) : Prop :=
  match part.1 with
  | Rice k => 0 <= k <= (if m =? 0 then 14 else 24) /\ Forall residual_ok part.2
  | Raw n => 1 <= n <= 31 /\ Forall (signed_bits n) part.2
  end.

Lemma golomb_code_read k gb v l : 0 <= k <= 24 -> residual_ok v -> 0 <= width l ->
  ready gb (golomb_code k v ++ l) ->
  get_sr_golomb_flac gb k INT_MAX 0 = Some (v, SKIP_COUNTER gb (width (golomb_code k v))).
Proof.
  intros Hk Hv Hw Hrd. apply ready_prefix in Hrd as [Hok Hwr Hroom]; [|done].
  by apply (sr_golomb_read v k gb (golomb_code k v)).
Qed.

Lemma golomb_codes_width k vs : 0 <= k -> Forall residual_ok vs ->
  0 <= width (flat_map (golomb_code k) vs).
Proof.
  intros Hk. apply flat_width. intros v Hv.
  pose proof (sr_golomb_width v k Hk Hv). unfold golomb_code. lia.
Qed.

Lemma partition_width m part : part_ok m part -> 0 <= width (partition_code m part).
Proof.
  unfold part_ok, partition_code, param_bits. destruct part as [[k|n] vs]; cbn [fst snd].
  - intros (Hk&Hvs). rewrite width_cons. pose proof (golomb_codes_width k vs ltac:(lia) Hvs). case_test; lia.
  - intros (Hn&_). rewrite !width_cons. pose proof (raw_width n vs ltac:(lia)). case_test; lia.
Qed.

(** One partition of [samples - i] values. *)
Lemma residual_partition_read m samples i gb dec j part l :
  m = 0 \/ m = 1 -> part_ok m part -> 0 <= width l ->
  ready gb (partition_code m part ++ l) ->
  zlen part.2 = samples - i -> 0 <= j -> j + zlen part.2 <= zlen dec ->
  residual_partition m samples i (j, gb, dec)
    = Some (j + zlen part.2, SKIP_COUNTER gb (width (partition_code m part)),
            fill dec j part.2) /\
  ready (SKIP_COUNTER gb (width (partition_code m part))) l.
Proof.
  intros Hm Hok Hw Hrd Hlen Hj Hdec. pose proof (partition_width m part Hok) as Hpw.
  assert (param_bits m = 4 \/ param_bits m = 5) as Hpb by (unfold param_bits; case_test; lia).
  assert (2 ^ param_bits m - 1 = if m =? 0 then 15 else 31) as Hesc by (unfold param_bits; by case_test).
  unfold residual_partition, partition_code, part_ok in *. change (if m =? 0 then 4 else 5) with (param_bits m).
  destruct part as [[k|n] vs]; cbn [fst snd app] in *; rewrite !width_cons in *.
  - destruct Hok as [Hk Hvs].
    apply ready_get_bits in Hrd as [-> Hrd]; [|lia|destruct Hm as [-> | ->]; simpl in *; lia|rewrite width_app; pose proof (golomb_codes_width k vs ltac:(lia) Hvs); lia].
    cbn [mbind option_bind]. rewrite (proj2 (Z.eqb_neq k _)) by (destruct (m =? 0); lia).
    destruct (read_list (fun gb => get_sr_golomb_flac gb k INT_MAX 0) (golomb_code k) residual_ok)
      with (vs := vs) (gb := SKIP_COUNTER gb (param_bits m)) (dec := dec) (j := j)
      (i := i) (rest := l) as [E Hrd']; try done.
    + intros. apply golomb_code_read with l0; try done. destruct (m =? 0); lia.
    + intros v Hv. pose proof (sr_golomb_width v k ltac:(lia) Hv). unfold golomb_code. lia.
    + unfold for_range. replace (Z.to_nat (samples - i)) with (length vs) by lia.
      rewrite SKIP_SKIP in E, Hrd'. done.
  - destruct Hok as [Hn Hvs]. pose proof (raw_width n vs ltac:(lia)) as Hvw.
    apply ready_get_bits in Hrd as [-> Hrd]; [|lia|rewrite Hesc; destruct Hm as [-> | ->]; simpl in *; lia|rewrite width_cons, width_app; lia].
    rewrite Hesc. cbn [mbind option_bind]. rewrite Z.eqb_refl.
    apply ready_get_bits in Hrd as [-> Hrd]; [|lia|lia|rewrite width_app; lia]. cbn [mbind option_bind].
    rewrite SKIP_SKIP in *.
    destruct (read_list (fun gb => get_sbits_long gb n) (raw_code n) (signed_bits n))
      with (vs := vs) (gb := SKIP_COUNTER gb (param_bits m + 5)) (dec := dec) (j := j)
      (i := i) (rest := l) as [E Hrd']; try done.
    + intros gb' v l' Hv Hw' Hrd'. rewrite raw_code_width. by apply ready_get_sbits_long in Hrd' as [-> _]; [|lia|..].
    + intros v Hv. rewrite raw_code_width. lia.
    + unfold for_range. replace (Z.to_nat (samples - i)) with (length vs) by lia.
      rewrite SKIP_SKIP in E, Hrd'. replace (param_bits m + (5 + width (flat_map (raw_code n) vs))) with (param_bits m + 5 + width (flat_map (raw_code n) vs)) by lia. done.
Qed.

(** The partitions after the first one. *)
Lemma partitions_read m samples parts : m = 0 \/ m = 1 -> Forall (part_ok m) parts ->
  Forall (fun part => zlen part.2 = samples) parts ->
  forall gb dec j c l (i : Z -> Z), 0 <= width l -> ready gb (flat_map (partition_code m) parts ++ l) ->
  0 <= j -> j + zlen (flat_map snd parts) <= zlen dec ->
  (forall n, c <= n -> i n = 0) ->
  for_loop (length parts) c (fun n => residual_partition m samples (i n)) (j, gb, dec)
    = Some (j + zlen (flat_map snd parts),
            SKIP_COUNTER gb (width (flat_map (partition_code m) parts)),
            fill dec j (flat_map snd parts)) /\
  ready (SKIP_COUNTER gb (width (flat_map (partition_code m) parts))) l.
Proof.
  intros Hm Hok. induction Hok as [|part parts Hp Hok IH]; intros Hlen gb dec j c l i Hw Hrd Hj Hdec Hi.
  - simpl. change (width []) with 0. rewrite SKIP_0, fill_nil, Z.add_0_r. done.
  - apply Forall_cons in Hlen as [Hlp Hlen]. cbn [flat_map] in *.
    rewrite <- app_assoc in Hrd. rewrite length_app in Hdec.
    assert (0 <= width (flat_map (partition_code m) parts)) as Hpw.
    { apply (flat_width _ (part_ok m)); [|done]. intros. by apply partition_width. }
    change (for_loop (length (part :: parts)) c
      (fun n => residual_partition m samples (i n)) (j, gb, dec))
      with (s ← residual_partition m samples (i c) (j, gb, dec);
            for_loop (length parts) (c + 1) (fun n => residual_partition m samples (i n)) s).
    rewrite Hi by lia.
    destruct (residual_partition_read m samples 0 gb dec j part
      (flat_map (partition_code m) parts ++ l)) as [-> Hrd'];
      [done|done|rewrite width_app; lia|done|lia|done|lia|].
    cbn [mbind option_bind].
    destruct (IH Hlen (SKIP_COUNTER gb (width (partition_code m part))) (fill dec j part.2)
      (j + zlen part.2) (c + 1) l i) as [-> Hrd'']; [done|done|lia| | |].
    { rewrite fill_length by lia. lia. }
    { intros n Hn. apply Hi. lia. }
    rewrite SKIP_SKIP in *. rewrite width_app, fill_app, length_app by lia.
    split; [|done]. do 3 f_equal. lia.
Qed.

(** The partition sizes of a block: the first one is [pred_order] shorter. *)
Record parts_ok (m order blocksize pred_order : Z) (parts : list (coding * list Z)) : Prop := PartsOk {
  po_m : m = 0 \/ m = 1;
  po_order : 0 <= order < 16;
  po_count : zlen parts = 2 ^ order;
  po_ok : Forall (part_ok m) parts;
  po_pred : 0 <= pred_order <= blocksize / 2 ^ order;
  po_first : forall part, parts !! 0%nat = Some part ->
    zlen part.2 = blocksize / 2 ^ order - pred_order;
  po_rest : forall i part, parts !! S i = Some part -> zlen part.2 = blocksize / 2 ^ order
}.

Lemma residual_width m parts : Forall (part_ok m) parts ->
  0 <= width (flat_map (partition_code m) parts).
Proof. apply flat_width. intros. by apply partition_width. Qed.

Lemma decode_residuals_read m order parts gb dec blocksize pred_order l :
  parts_ok m order blocksize pred_order parts -> 0 <= width l ->
  ready gb (residual_code m order parts ++ l) ->
  pred_order + zlen (flat_map snd parts) <= zlen dec ->
  decode_residuals gb dec blocksize pred_order
    = Some (0, SKIP_COUNTER gb (width (residual_code m order parts)),
            fill dec pred_order (flat_map snd parts)) /\
  ready (SKIP_COUNTER gb (width (residual_code m order parts))) l.
Proof.
  intros [Hm Hord Hcnt Hok Hpred Hfirst Hrest] Hw Hrd Hdec.
  destruct parts as [|part parts].
  { pose proof (pow2_pos order). simpl in Hcnt. lia. }
  pose proof Hok as [Hp Hps]%Forall_cons.
  specialize (Hfirst part eq_refl).
  assert (Forall (fun part => zlen part.2 = blocksize / 2 ^ order) parts) as Hlens.
  { apply Forall_lookup_2. intros i q Hq. by apply (Hrest i). }
  pose proof (residual_width m parts Hps) as Hpsw.
  pose proof (partition_width m part Hp) as Hpw.
  unfold residual_code in *. cbn [app flat_map] in *. rewrite !width_cons, width_app.
  rewrite length_app in Hdec. rewrite <- app_assoc in Hrd.
  assert (0 <= width (partition_code m part ++ flat_map (partition_code m) parts ++ l)) as Hwl
    by (rewrite !width_app; lia).
  apply ready_get_bits in Hrd as [H1 Hrd]; [|lia|destruct Hm; subst; simpl; lia|rewrite width_cons; lia].
  apply ready_get_bits in Hrd as [H2 Hrd]; [|lia|simpl; lia|done].
  unfold decode_residuals. rewrite H1. cbn [mbind option_bind].
  rewrite (proj2 (Z.ltb_ge 1 m)) by (destruct Hm; subst; lia).
  rewrite H2. cbn [mbind option_bind]. rewrite Z.shiftr_div_pow2 by lia.
  rewrite (proj2 (Z.ltb_ge _ pred_order)) by lia.
  rewrite Z.shiftl_mul_pow2, Z.mul_1_l by lia. cbn [length] in Hcnt.
  unfold for_range. replace (Z.to_nat (2 ^ order - 0)) with (S (length parts)) by lia.
  rewrite for_loop_S. change (0 =? 0) with true. cbv iota.
  rewrite SKIP_SKIP in *.
  destruct (residual_partition_read m (blocksize / 2 ^ order) pred_order
    (SKIP_COUNTER gb (2 + 4)) dec pred_order part (flat_map (partition_code m) parts ++ l))
    as [-> Hrd']; [done|done|rewrite width_app; lia|done|done|lia|lia|].
  cbn [mbind option_bind].
  destruct (partitions_read m (blocksize / 2 ^ order) parts Hm Hps Hlens
    (SKIP_COUNTER (SKIP_COUNTER gb (2 + 4)) (width (partition_code m part)))
    (fill dec pred_order part.2) (pred_order + zlen part.2) (0 + 1) l
    (fun partition => if partition =? 0 then pred_order else 0)) as [-> Hrd''];
    [done|done|lia|rewrite fill_length by lia; lia| |].
  { intros n Hn. by rewrite (proj2 (Z.eqb_neq n 0)) by lia. }
  cbn [mbind option_bind]. rewrite fill_app by lia. rewrite !SKIP_SKIP in *.
  replace (2 + (4 + (width (partition_code m part) + width (flat_map (partition_code m) parts))))
    with (2 + 4 + (width (partition_code m part) + width (flat_map (partition_code m) parts)))
    by lia.
  done.
Qed.

(** ** Warm-up samples *)

Lemma warm_up_read n vs gb dec l : 1 <= n <= 32 -> Forall (signed_bits n) vs ->
  0 <= width l -> ready gb (flat_map (raw_code n) vs ++ l) -> zlen vs <= zlen dec ->
  warm_up gb dec (zlen vs) n
    = Some (SKIP_COUNTER gb (width (flat_map (raw_code n) vs)), fill dec 0 vs) /\
  ready (SKIP_COUNTER gb (width (flat_map (raw_code n) vs))) l.
Proof.
  intros Hn Hvs Hw Hrd Hl. unfold warm_up, for_range. rewrite Z.sub_0_r, Nat2Z.id.
  destruct (read_list (fun gb => get_sbits_long gb n) (raw_code n) (signed_bits n))
    with (vs := vs) (gb := gb) (dec := dec) (j := 0) (i := 0) (rest := l) as [E Hrd'];
    try done.
  - intros gb' v l' Hv Hw' Hrd'. rewrite raw_code_width. by apply ready_get_sbits_long in Hrd' as [-> _].
  - intros v Hv. rewrite raw_code_width. lia.
  - rewrite E. done.
Qed.

(** ** Coded subframes *)

Definition fixed_code (curr_bps p m order : Z) (x : list Z) (parts : list (coding * list Z))
    : list (Z * Z) :=
  [(1, 0); (6, 8 + p); (1, 0)] ++ flat_map (raw_code curr_bps) (take (Z.to_nat p) x) ++
  residual_code m order parts.

Definition lpc_code (curr_bps p prec q m order : Z) (coeffs x : list Z)
    (parts : list (coding * list Z)) : list (Z * Z) :=
  [(1, 0); (6, 31 + p); (1, 0)] ++ flat_map (raw_code curr_bps) (take (Z.to_nat p) x) ++
  [(4, prec - 1); (5, q)] ++ flat_map (raw_code prec) coeffs ++ residual_code m order parts.

Lemma residual_code_width m order parts : Forall (part_ok m) parts ->
  0 <= width (residual_code m order parts).
Proof.
  intros H. unfold residual_code. rewrite !width_cons.
  pose proof (residual_width m parts H). lia.
Qed.

(** The warm-up and the residuals make up the encoded block. *)
Lemma fill_encoded (x e dec vs : list Z) p :
  length e = length x -> 0 <= p <= zlen x -> take (Z.to_nat p) e = take (Z.to_nat p) x ->
  vs = drop (Z.to_nat p) e -> zlen x <= zlen dec ->
  fill (fill dec 0 (take (Z.to_nat p) x)) p vs = e ++ drop (length x) dec.
Proof.
  intros He Hp Ht -> Hl. replace p with (0 + zlen (take (Z.to_nat p) x)) at 2
    by (rewrite length_take; lia).
  rewrite fill_app by (rewrite ?length_take, ?length_drop; lia).
  rewrite <- Ht, take_drop. unfold fill. simpl. by rewrite He.
Qed.

Lemma encode_take (x e : list Z) p : length e = length x -> 0 <= p <= zlen x ->
  (forall i, 0 <= i < p -> samp x i = samp e i) ->
  take (Z.to_nat p) e = take (Z.to_nat p) x.
Proof.
  intros He Hp Hs. pose proof (part_start x e [] He p ltac:(lia) Hs ltac:(lia)) as H.
  unfold part in H. rewrite !app_nil_r in H. rewrite <- H.
  rewrite take_app_le, take_ge; rewrite ?length_take; [done|lia|lia].
Qed.

Lemma fixed_code_read gb dec x p m order parts curr_bps l :
  0 <= p <= 4 -> p <= zlen x -> zlen x <= zlen dec -> 1 <= curr_bps <= 32 ->
  Forall s32_ok x -> Forall (signed_bits curr_bps) (take (Z.to_nat p) x) ->
  parts_ok m order (zlen x) p parts ->
  flat_map snd parts = drop (Z.to_nat p) (fixed_encode x p) -> 0 <= width l ->
  ready gb ((flat_map (raw_code curr_bps) (take (Z.to_nat p) x) ++ residual_code m order parts)
            ++ l) ->
  decode_subframe_fixed gb dec (zlen x) curr_bps p
    = Some (0, SKIP_COUNTER gb (width (flat_map (raw_code curr_bps) (take (Z.to_nat p) x) ++
                                       residual_code m order parts)),
            x ++ drop (length x) dec).
Proof.
  intros Hp Hpx Hx Hbps Hs Hwarm Hparts Hvs Hw Hrd. unfold decode_subframe_fixed.
  pose proof (residual_code_width m order parts (po_ok _ _ _ _ _ Hparts)) as Hrw.
  rewrite <- app_assoc in Hrd. rewrite width_app.
  assert (zlen (take (Z.to_nat p) x) = p) as Htl by (rewrite length_take; lia).
  destruct (warm_up_read curr_bps (take (Z.to_nat p) x) gb dec (residual_code m order parts ++ l))
    as [E1 Hrd1]; [done|done|rewrite width_app; lia|done|lia|].
  rewrite Htl in E1. rewrite E1. cbn [mbind option_bind].
  pose proof (fixed_encode_length x p) as Hel.
  assert (zlen (flat_map snd parts) = zlen x - p) as Hvl
    by (rewrite Hvs, length_drop; lia).
  destruct (decode_residuals_read m order parts
    (SKIP_COUNTER gb (width (flat_map (raw_code curr_bps) (take (Z.to_nat p) x))))
    (fill dec 0 (take (Z.to_nat p) x)) (zlen x) p l) as [E2 Hrd2]; [done|done|done| |].
  { rewrite fill_length by lia. lia. }
  rewrite E2. cbn [mbind option_bind]. rewrite (proj2 (Z.ltb_ge 0 0)) by lia.
  rewrite (proj2 (Z.ltb_ge 4 p)) by lia.
  rewrite (fill_encoded x (fixed_encode x p)) by
    (done || lia || (apply encode_take; [done|lia|]; intros i Hi;
      rewrite fixed_encode_samp by lia; by rewrite (proj2 (Z.ltb_lt i p)) by lia)).
  rewrite fixed_restore_lossless by done. cbn [mbind option_bind]. by rewrite SKIP_SKIP.
Qed.

(** Coefficients beyond the order are never used. *)
Lemma dot_ext c1 c2 x i n : (forall j, 0 <= j < Z.of_nat n -> samp c1 j = samp c2 j) ->
  dot c1 x i n = dot c2 x i n.
Proof.
  induction n as [|n IH]; intros H; [done|]. cbn [dot].
  rewrite IH by (intros; apply H; lia). by rewrite H by lia.
Qed.

Lemma lpc_encode_ext w c1 c2 x p q : 0 <= p ->
  (forall j, 0 <= j < p -> samp c1 j = samp c2 j) ->
  lpc_encode w c1 x p q = lpc_encode w c2 x p q.
Proof.
  intros Hp H. unfold lpc_encode, lpc_pred. apply map_ext. intros i.
  rewrite (dot_ext c1 c2) by (intros; apply H; lia). done.
Qed.

(** Reading the coefficients. *)
Lemma coeffs_read prec cs gb l : 1 <= prec <= 25 -> Forall (signed_bits prec) cs ->
  zlen cs <= 32 -> 0 <= width l -> ready gb (flat_map (raw_code prec) cs ++ l) ->
  for_range 0 (zlen cs) (fun i '(gb, coeffs) =>
    '(v, gb) ← get_sbits gb prec; coeffs ← aset coeffs i v; Some (gb, coeffs))
    (gb, replicate 32 0)
  = Some (SKIP_COUNTER gb (width (flat_map (raw_code prec) cs)), fill (replicate 32 0) 0 cs) /\
  ready (SKIP_COUNTER gb (width (flat_map (raw_code prec) cs))) l.
Proof.
  intros Hprec Hcs Hl Hw Hrd.
  destruct (read_list (fun gb => get_sbits gb prec) (raw_code prec) (signed_bits prec))
    with (vs := cs) (gb := gb) (dec := replicate 32 0) (j := 0) (i := 0) (rest := l)
    as [E Hrd']; try done.
  - intros gb' v l' Hv Hw' Hrd'. rewrite raw_code_width.
    by apply ready_get_sbits in Hrd' as [-> _].
  - intros v Hv. rewrite raw_code_width. lia.
  - split; [|done]. unfold for_range. rewrite Z.sub_0_r, Nat2Z.id.
    assert (forall n i gb co, for_loop n i (fun i '(gb, coeffs) =>
        '(v, gb) ← get_sbits gb prec; coeffs ← aset coeffs i v; Some (gb, coeffs)) (gb, co) =
      ('(_, gb, co) ← for_loop n i (fun _ => store_with (fun gb => get_sbits gb prec)) (i, gb, co);
       Some (gb, co))) as Hsame.
    { clear. induction n as [|n IH]; intros i gb co; [done|]. rewrite !for_loop_S.
      change (store_with (fun gb => get_sbits gb prec) (i, gb, co)) with
        ('(v, gb) ← get_sbits gb prec; co ← aset co i v; Some (i + 1, gb, co)).
      destruct (get_sbits gb prec) as [[v gb']|]; [|done].
      cbn [mbind option_bind]. destruct (aset co i v) as [co'|]; [|done].
      cbn [mbind option_bind]. apply IH. }
    rewrite Hsame, E. done.
Qed.

Lemma lpc_code_read gb dec x p prec q m order coeffs parts bps curr_bps l :
  1 <= p <= 32 -> p <= zlen x -> zlen x <= zlen dec -> 1 <= curr_bps <= 32 ->
  1 <= prec <= 15 -> 0 <= q < 16 -> zlen coeffs = p -> Forall (signed_bits prec) coeffs ->
  Forall s32_ok x -> Forall (signed_bits curr_bps) (take (Z.to_nat p) x) ->
  parts_ok m order (zlen x) p parts ->
  flat_map snd parts
    = drop (Z.to_nat p) (lpc_encode (if 16 <? bps then 64 else 32) coeffs x p q) ->
  0 <= width l ->
  ready gb ((flat_map (raw_code curr_bps) (take (Z.to_nat p) x) ++ [(4, prec - 1); (5, q)] ++
             flat_map (raw_code prec) coeffs ++ residual_code m order parts) ++ l) ->
  decode_subframe_lpc gb dec (zlen x) bps curr_bps p
    = Some (0, SKIP_COUNTER gb (width (flat_map (raw_code curr_bps) (take (Z.to_nat p) x) ++
               [(4, prec - 1); (5, q)] ++ flat_map (raw_code prec) coeffs ++
               residual_code m order parts)),
            x ++ drop (length x) dec).
Proof.
  intros Hp Hpx Hx Hbps Hprec Hq Hcl Hcs Hs Hwarm Hparts Hvs Hw Hrd.
  unfold decode_subframe_lpc. set (w := if 16 <? bps then 64 else 32) in *.
  pose proof (residual_code_width m order parts (po_ok _ _ _ _ _ Hparts)) as Hrw.
  pose proof (raw_width prec coeffs ltac:(lia)) as Hcw.
  rewrite <- !app_assoc in Hrd. cbn [app] in *. rewrite width_app, !width_cons, width_app.
  assert (zlen (take (Z.to_nat p) x) = p) as Htl by (rewrite length_take; lia).
  destruct (warm_up_read curr_bps (take (Z.to_nat p) x) gb dec ((4, prec - 1) :: (5, q) ::
      flat_map (raw_code prec) coeffs ++ residual_code m order parts ++ l))
    as [E1 Hrd1]; [done|done|rewrite !width_cons, !width_app; lia|done|lia|].
  rewrite Htl in E1. rewrite E1. cbn [mbind option_bind].
  apply ready_get_bits in Hrd1 as [E2 Hrd2];
    [|lia|change (2 ^ 4) with 16; lia|rewrite width_cons, !width_app; lia].
  rewrite E2. cbn [mbind option_bind]. replace (prec - 1 + 1) with prec by lia.
  rewrite (proj2 (Z.eqb_neq prec 16)) by lia.
  apply ready_get_sbits in Hrd2 as [E3 Hrd3]; [|lia|change (2 ^ (5 - 1)) with 16; lia|rewrite !width_app; lia].
  rewrite E3. cbn [mbind option_bind]. rewrite (proj2 (Z.ltb_ge q 0)) by lia.
  destruct (coeffs_read prec coeffs _ (residual_code m order parts ++ l) ltac:(lia) Hcs ltac:(lia)
    ltac:(rewrite width_app; lia) Hrd3) as [E4 Hrd4].
  rewrite Hcl in E4. rewrite E4. cbn [mbind option_bind].
  assert (length (lpc_encode w coeffs x p q) = length x) as Hel by apply lpc_encode_length.
  assert (zlen (flat_map snd parts) = zlen x - p) as Hvl by (rewrite Hvs, length_drop; lia).
  destruct (decode_residuals_read m order parts _ (fill dec 0 (take (Z.to_nat p) x)) (zlen x) p
    l Hparts Hw Hrd4) as [E5 Hrd5].
  { rewrite fill_length by lia. lia. }
  rewrite E5. cbn [mbind option_bind]. rewrite (proj2 (Z.ltb_ge 0 0)) by lia.
  rewrite (fill_encoded x (lpc_encode w coeffs x p q)) by
    (done || lia || (apply encode_take; [done|lia|]; apply lpc_encode_lo; lia)).
  set (co := fill (replicate 32 0) 0 coeffs).
  assert (lpc_encode w coeffs x p q = lpc_encode w co x p q) as ->.
  { apply lpc_encode_ext; [lia|]. intros j Hj. unfold samp. rewrite !aget_lookup by lia.
    unfold co, fill. simpl. rewrite lookup_app_l by lia. done. }
  assert (zlen co = 32) as Hco by (unfold co; rewrite fill_length by (simpl; lia); done).
  subst w. destruct (16 <? bps).
  - rewrite lpc_wide_lossless by (done || lia). cbn [mbind option_bind].
    rewrite !SKIP_SKIP. repeat f_equal; lia.
  - rewrite lpc_narrow_lossless by (done || lia). cbn [mbind option_bind].
    rewrite !SKIP_SKIP. repeat f_equal; lia.
Qed.

(** The wasted-bits flag and count. *)
Definition wasted_code (w : Z) : list (Z * Z) :=
  if w =? 0 then [(1, 0)] else (1, 1) :: replicate (Z.to_nat (w - 1)) (1, 0) ++ [(1, 1)].

Definition subframe_code (t w : Z) (body : list (Z * Z)) : list (Z * Z) :=
  (1, 0) :: (6, t) :: wasted_code w ++ body.

Definition shift_all (w : Z) (y : list Z) : list Z :=
  if w =? 0 then y else map (fun v => s32 (v .<< w)) y.

(** What an encoder may write after the subframe header for the samples [y]
    with [cb] bits: the type code and the fields.  The parts of a fixed or
    linear-prediction body are any partitioned Rice coding of the residual. *)
Inductive body_code (bps cb : Z) : Z -> list (Z * Z) -> list Z -> Prop :=
| body_constant v n : signed_bits cb v -> body_code bps cb 0 [(cb, v)] (replicate n v)
| body_verbatim y : Forall (signed_bits cb) y ->
    body_code bps cb 1 (flat_map (raw_code cb) y) y
| body_fixed p m order y parts : 0 <= p <= 4 -> p <= zlen y -> Forall s32_ok y ->
    Forall (signed_bits cb) (take (Z.to_nat p) y) -> parts_ok m order (zlen y) p parts ->
    flat_map snd parts = drop (Z.to_nat p) (fixed_encode y p) ->
    body_code bps cb (8 + p)
      (flat_map (raw_code cb) (take (Z.to_nat p) y) ++ residual_code m order parts) y
| body_lpc p prec q m order coeffs y parts : 1 <= p <= 32 -> p <= zlen y ->
    1 <= prec <= 15 -> 0 <= q < 16 -> zlen coeffs = p -> Forall (signed_bits prec) coeffs ->
    Forall s32_ok y -> Forall (signed_bits cb) (take (Z.to_nat p) y) ->
    parts_ok m order (zlen y) p parts ->
    flat_map snd parts
      = drop (Z.to_nat p) (lpc_encode (if 16 <? bps then 64 else 32) coeffs y p q) ->
    body_code bps cb (31 + p)
      (flat_map (raw_code cb) (take (Z.to_nat p) y) ++ [(4, prec - 1); (5, q)] ++
       flat_map (raw_code prec) coeffs ++ residual_code m order parts) y.

Lemma zeros_code_width n : width (replicate n (1, 0)) = Z.of_nat n.
Proof. induction n as [|n IH]; [done|]. cbn [replicate]. rewrite width_cons. lia. Qed.

Lemma wasted_code_width w : 0 <= w -> width (wasted_code w) = w + 1.
Proof.
  intros. unfold wasted_code. case_test; zbool; [subst; done|].
  rewrite width_cons, width_app, zeros_code_width. change (width [(1, 1)]) with 1. lia.
Qed.

Lemma body_width bps cb t body y : 1 <= cb -> body_code bps cb t body y -> 0 <= width body.
Proof.
  intros Hcb [v n Hv|z Hz|p m order z parts ???? [????? _ _] _|
    p prec q m order coeffs z parts ???????? [????? _ _] _].
  - rewrite width_cons. change (width []) with 0. lia.
  - apply raw_width. lia.
  - rewrite width_app. pose proof (raw_width cb (take (Z.to_nat p) z) ltac:(lia)).
    pose proof (residual_code_width m order parts ltac:(done)). lia.
  - rewrite !width_app. pose proof (raw_width cb (take (Z.to_nat p) z) ltac:(lia)).
    pose proof (raw_width prec coeffs ltac:(lia)).
    pose proof (residual_code_width m order parts ltac:(done)).
    change (width [(4, prec - 1); (5, q)]) with 9. lia.
Qed.

Lemma subframe_code_width bps cb t w body y : 1 <= cb -> 0 <= w ->
  body_code bps cb t body y -> width (subframe_code t w body) = 8 + w + width body.
Proof.
  intros. unfold subframe_code. rewrite !width_cons, width_app, wasted_code_width by done. lia.
Qed.

Lemma wasted_bits_read fuel n gb acc l : (n < fuel)%nat -> 0 <= width l ->
  ready gb (replicate n (1, 0) ++ (1, 1) :: l) ->
  wasted_bits fuel gb acc = Some (acc + Z.of_nat n, SKIP_COUNTER gb (Z.of_nat n + 1)) /\
  ready (SKIP_COUNTER gb (Z.of_nat n + 1)) l.
Proof.
  intros Hf Hw. revert fuel Hf gb acc. induction n as [|n IH]; intros [|fuel] Hf gb acc Hrd;
    try lia; cbn [replicate app wasted_bits] in *.
  - apply ready_get_bits1 in Hrd as [-> Hrd]; [|lia|done]. cbn [mbind option_bind].
    change (1 =? 0) with false. cbv iota. split; [do 3 f_equal; lia|done].
  - apply ready_get_bits1 in Hrd as [-> Hrd];
      [|lia|rewrite width_app, zeros_code_width, width_cons; lia].
    cbn [mbind option_bind]. change (0 =? 0) with true. cbv iota.
    apply (IH fuel ltac:(lia) _ (acc + 1)) in Hrd as [-> Hrd]. rewrite SKIP_SKIP in *.
    replace (1 + (Z.of_nat n + 1)) with (Z.of_nat (S n) + 1) in * by lia.
    replace (acc + Z.of_nat (S n)) with (acc + 1 + Z.of_nat n) by lia. done.
Qed.

(** The subframe header. *)
Lemma subframe_header_read gb t w l : 0 <= t < 64 -> 0 <= w -> 0 <= width l ->
  ready gb ((1, 0) :: (6, t) :: wasted_code w ++ l) ->
  get_bits1 gb = Some (0, SKIP_COUNTER gb 1) /\
  get_bits (SKIP_COUNTER gb 1) 6 = Some (t, SKIP_COUNTER gb 7) /\
  ('(flag, gb) ← get_bits1 (SKIP_COUNTER gb 7);
   if negb (flag =? 0) then wasted_bits (zeros_fuel gb) gb 1 else Some (0, gb))
    = Some (w, SKIP_COUNTER gb (8 + w)) /\
  ready (SKIP_COUNTER gb (8 + w)) l.
Proof.
  intros Ht Hw0 Hw Hrd. pose proof (wasted_code_width w Hw0) as Hww.
  apply ready_get_bits1 in Hrd as [E1 Hrd]; [|lia|rewrite width_cons, width_app; lia].
  apply ready_get_bits in Hrd as [E2 Hrd]; [|lia|simpl; lia|rewrite width_app; lia].
  rewrite !SKIP_SKIP in *. change (1 + 6) with 7 in *. split; [done|]. split; [done|].
  unfold wasted_code in *. destruct (Z.eqb_spec w 0) as [->|Hne]; cbn [app] in Hrd.
  - apply ready_get_bits1 in Hrd as [E3 Hrd]; [|lia|done]. rewrite E3, SKIP_SKIP in *. done.
  - apply ready_get_bits1 in Hrd as [E3 Hrd].
    2: { lia. }
    2: { rewrite !width_app, zeros_code_width, width_cons. change (width []) with 0. lia. }
    rewrite E3. cbn [mbind option_bind]. change (negb (1 =? 0)) with true. cbv iota.
    rewrite SKIP_SKIP in *. rewrite <- app_assoc in Hrd. cbn [app] in Hrd.
    assert (Z.to_nat (w - 1) < zeros_fuel (SKIP_COUNTER gb (7 + 1)))%nat as Hf.
    { destruct Hrd as [[_ Hi] _ Hroom]. unfold zeros_fuel.
      rewrite width_app, width_cons, zeros_code_width in Hroom. zdiv. }
    destruct (wasted_bits_read (zeros_fuel (SKIP_COUNTER gb (7 + 1))) _ _ 1 l Hf Hw Hrd)
      as [-> Hrd']. rewrite SKIP_SKIP in *.
    replace (7 + 1 + (Z.of_nat (Z.to_nat (w - 1)) + 1)) with (8 + w) in * by lia.
    split; [do 3 f_equal; lia|done].
Qed.

(** The constant subframe's loop and the wasted-bits loop. *)
Lemma constant_fill (v : Z) (n : nat) (gb : GetBitContext) (dec : list Z) : Z.of_nat n <= zlen dec ->
  (dec ← for_range 0 (Z.of_nat n) (fun i dec => aset dec i v) dec; Some (0, gb, dec))
  = Some (0, gb, replicate n v ++ drop n dec).
Proof.
  intros Hn.
  destruct (for_range_inv (fun i (d : list Z) => d = replicate (Z.to_nat i) v ++ drop (Z.to_nat i) dec)
    0 (Z.of_nat n) (fun i dec => aset dec i v) dec) as (d&E&->); [lia|done| |].
  - intros i d Hi ->. rewrite aset_Some by (rewrite length_app, length_replicate, length_drop; lia).
    eexists. split; [done|]. rewrite insert_app_r_alt by (rewrite length_replicate; lia).
    rewrite length_replicate, Nat.sub_diag. replace (Z.to_nat (i + 1)) with (S (Z.to_nat i)) by lia.
    rewrite replicate_S_end, <- app_assoc.
    destruct (drop (Z.to_nat i) dec) as [|y l] eqn:E.
    { apply (f_equal length) in E. rewrite length_drop in E. simpl in E. lia. }
    replace (S (Z.to_nat i)) with (Z.to_nat i + 1)%nat by lia. by rewrite <- drop_drop, E.
  - rewrite E. cbn [mbind option_bind]. by rewrite Nat2Z.id.
Qed.

Lemma shift_wasted_spec y rest w : 0 < w < 32 ->
  shift_wasted (y ++ rest) (zlen y) w = Some (shift_all w y ++ rest).
Proof.
  intros Hw. unfold shift_wasted, shift_all. rewrite (proj2 (Z.eqb_neq w 0)) by lia.
  set (e := map (fun v => s32 (v .<< w)) y).
  assert (length y = length e) as Hl by (unfold e; by rewrite length_map).
  rewrite <- (part_start e y rest Hl 0) by (lia || done).
  destruct (for_range_inv (fun i (d : list Z) => d = part e y rest i) 0 (zlen y) (fun i dec =>
      v ← aget dec i; if w <? 32 then aset dec i (s32 (v .<< w)) else None)
    (part e y rest 0)) as (d&E&->); [lia|done| |].
  - intros i d Hi ->. rewrite part_todo by (done || lia). cbn [mbind option_bind].
    rewrite (proj2 (Z.ltb_lt w 32)) by lia. eexists. split; [|done].
    replace (s32 (samp y i .<< w)) with (samp e i); [apply part_step; [done|lia]|].
    unfold samp, e. rewrite !aget_lookup, list_lookup_fmap by lia.
    destruct (lookup_lt_is_Some_2 y (Z.to_nat i) ltac:(lia)) as [x ->]. done.
  - rewrite E. f_equal. replace (zlen y) with (zlen e) by lia. by apply part_end.
Qed.

(** Type dispatch of [decode_subframe]. *)
Definition decode_body (gb : GetBitContext) (dec : list Z) (blocksize bps cb t : Z) : sub_result :=
  if t =? 0 then
    '(tmp, gb) ← get_sbits_long gb cb;
    dec ← for_range 0 blocksize (fun i dec => aset dec i tmp) dec;
    Some (0, gb, dec)
  else if t =? 1 then
    '(gb, dec) ← warm_up gb dec blocksize cb; Some (0, gb, dec)
  else if (8 <=? t) && (t <=? 12) then decode_subframe_fixed gb dec blocksize cb (t .& Z.lnot 0x8)
  else if 32 <=? t then decode_subframe_lpc gb dec blocksize bps cb ((t .& Z.lnot 0x20) + 1)
  else Some (-1, gb, dec).

Lemma body_type bps cb t body y : body_code bps cb t body y -> 0 <= t < 64.
Proof. intros []; lia. Qed.

Lemma body_read gb dec bps cb t body y l :
  1 <= cb <= 32 -> body_code bps cb t body y -> zlen y <= zlen dec -> 0 <= width l ->
  ready gb (body ++ l) ->
  decode_body gb dec (zlen y) bps cb t
    = Some (0, SKIP_COUNTER gb (width body), y ++ drop (length y) dec).
Proof.
  intros Hcb [v n Hv|z Hz|p m order z parts Hp ?????|p prec q m order coeffs z parts Hp ?????????]
    Hl Hw Hrd; unfold decode_body.
  - change (0 =? 0) with true. cbv iota. cbn [app] in Hrd.
    apply ready_get_sbits_long in Hrd as [-> _]; [|done..]. cbn [mbind option_bind].
    rewrite length_replicate in *. rewrite width_cons. change (width []) with 0.
    rewrite Z.add_0_r. by apply constant_fill.
  - change (1 =? 0) with false. change (1 =? 1) with true. cbv iota.
    destruct (warm_up_read cb z gb dec l) as [-> _]; done.
  - rewrite (proj2 (Z.eqb_neq (8 + p) 0)), (proj2 (Z.eqb_neq (8 + p) 1)) by lia.
    rewrite (proj2 (Z.leb_le 8 (8 + p))), (proj2 (Z.leb_le (8 + p) 12)) by lia. cbn [andb].
    replace ((8 + p) .& Z.lnot 8) with p by
      (assert (p = 0 \/ p = 1 \/ p = 2 \/ p = 3 \/ p = 4) as [-> |[-> |[-> |[-> | ->]]]]
         by lia; reflexivity).
    by apply (fixed_code_read gb dec z p m order parts cb l).
  - rewrite (proj2 (Z.eqb_neq (31 + p) 0)), (proj2 (Z.eqb_neq (31 + p) 1)) by lia.
    rewrite (proj2 (Z.leb_gt (31 + p) 12)), andb_false_r, (proj2 (Z.leb_le 32 (31 + p))) by lia.
    replace ((31 + p) .& Z.lnot 32 + 1) with p.
    2: { assert (forallb (fun p => (31 + p) .& Z.lnot 32 + 1 =? p) (seqZ 1 32) = true) as Hall
           by reflexivity.
         pose proof (forall_range _ _ _ Hall p ltac:(lia)) as H'. cbv beta in H'. by zbool. }
    by apply (lpc_code_read gb dec z p prec q m order coeffs parts bps cb l).
Qed.

Lemma subframe_read gb dec bps ch_mode channel t w body y l :
  let cb := subframe_bps bps ch_mode channel - w in
  0 <= w < 32 -> 1 <= cb <= 32 -> body_code bps cb t body y -> zlen y <= zlen dec ->
  0 <= width l -> ready gb (subframe_code t w body ++ l) ->
  decode_subframe gb dec (zlen y) bps ch_mode channel
    = Some (0, cb, SKIP_COUNTER gb (width (subframe_code t w body)),
            shift_all w y ++ drop (length y) dec) /\
  ready (SKIP_COUNTER gb (width (subframe_code t w body))) l.
Proof.
  intros cb Hw Hcb Hbody Hl Hwl Hrd.
  pose proof (body_width bps cb t body y ltac:(lia) Hbody) as Hbw.
  pose proof (subframe_code_width bps cb t w body y ltac:(lia) ltac:(lia) Hbody) as Hsw.
  split; [|apply ready_app; [lia|done]].
  unfold subframe_code in Hrd. cbn [app] in Hrd. rewrite <- app_assoc in Hrd.
  destruct (subframe_header_read gb t w (body ++ l)) as (E1&E2&E3&Hrd');
    [by eapply body_type|lia|rewrite width_app; lia|done|].
  unfold decode_subframe. rewrite E1. cbn [mbind option_bind]. change (negb (0 =? 0)) with false.
  cbv iota. rewrite E2. cbn [mbind option_bind].
  apply bind_Some in E3 as ([flag gb']&E3&E4). rewrite E3. cbn [mbind option_bind].
  rewrite E4. cbn [mbind option_bind]. fold cb. rewrite (proj2 (Z.ltb_ge 32 cb)) by lia.
  pose proof (body_read _ dec _ _ _ _ _ _ Hcb Hbody Hl Hwl Hrd') as E5. unfold decode_body in E5.
  rewrite E5. cbn [mbind option_bind]. rewrite (proj2 (Z.ltb_ge 0 0)) by lia.
  rewrite SKIP_SKIP, Hsw. destruct (Z.eqb_spec w 0) as [->|Hne]; cbn [negb].
  - cbn [mbind option_bind]. unfold shift_all. simpl. do 3 f_equal; lia.
  - rewrite shift_wasted_spec by lia. cbn [mbind option_bind]. done.
Qed.

(** ** Claims *)

(** C2: a subframe is lossless.  For the samples of a block coded in any of the
    four subframe types (constant, verbatim, fixed order 0 to 4, linear
    prediction of any order 1 to 32, precision and shift, in the 64-bit and in
    the two-samples-at-a-time 32-bit restoring loop), with the residuals in any partitions, each in a Rice code
    (parameters up to 14 with the 4-bit method and up to 24 with the 5-bit one; 25 and above are misread, see
    [rice_parameter_25_misread]) or escaped with raw values of 1 to 31 bits, and any number of wasted bits,
    decoding the bits the encoder wrote returns success, leaves the reader exactly after them, and puts the samples,
    shifted back, at the head of the channel's buffer. *)
Theorem flac_subframe_lossless gb dec bps ch_mode channel t w body y :
  let cb := subframe_bps bps ch_mode channel - w in
  0 <= w < 32 -> 1 <= cb <= 32 -> body_code bps cb t body y -> zlen y <= zlen dec ->
  ready gb (subframe_code t w body) ->
  decode_subframe gb dec (zlen y) bps ch_mode channel
    = Some (0, cb, SKIP_COUNTER gb (width (subframe_code t w body)),
            shift_all w y ++ drop (length y) dec).
Proof.
  intros cb Hw Hcb Hbody Hl Hrd. apply (subframe_read _ _ _ _ _ _ _ _ _ []); try done.
  by rewrite app_nil_r.
Qed.

(** Side conditions on concrete lists. *)
Ltac concrete := repeat constructor; unfold residual_ok, signed_bits, s32_ok, byte_ok; simpl; lia.

(** An order-2 predictor, two partitions, the second one escaped. *)
Definition lpc_example_x : list Z := [100; 90; 85; 70; 60; 72; 81; 95].
Definition lpc_example_parts : list (coding * list Z) := [(Rice 3, [-10; -22]); (Raw 5, [-9; 11; -7; -1])].
Definition lpc_example_gb : GetBitContext :=
  MkGetBitContext
    [66; 0; 100; 0; 90; 81; 157; 216; 38; 88; 47; 203; 117; 231; 224; 0; 0; 0; 0; 0] 0 168.

Lemma lpc_example_body :
  body_code 16 16 (31 + 2)
    (flat_map (raw_code 16) (take 2 lpc_example_x) ++ [(4, 6 - 1); (5, 3)] ++
     flat_map (raw_code 6) [14; -5] ++ residual_code 0 1 lpc_example_parts) lpc_example_x.
Proof.
  apply (body_lpc 16 16 2 6 3 0 1 [14; -5] lpc_example_x lpc_example_parts);
    try done; try (change (zlen lpc_example_x) with 8); try lia.
  - concrete.
  - concrete.
  - concrete.
  - split.
    + by left.
    + lia.
    + reflexivity.
    + concrete.
    + change (8 / 2 ^ 1) with 4. lia.
    + intros part [= <-]. reflexivity.
    + intros i part Hi. destruct i as [|i]; simpl in Hi; [|done].
      injection Hi as <-. reflexivity.
Qed.

Lemma flac_subframe_lossless_witness :
  let body := flat_map (raw_code 16) (take 2 lpc_example_x) ++ [(4, 6 - 1); (5, 3)] ++
     flat_map (raw_code 6) [14; -5] ++ residual_code 0 1 lpc_example_parts in
  decode_subframe lpc_example_gb (replicate 8 0) (zlen lpc_example_x) 16 0 0
  = Some (0, 16, SKIP_COUNTER lpc_example_gb (width (subframe_code 33 0 body)),
          shift_all 0 lpc_example_x ++ drop (length lpc_example_x) (replicate 8 0)).
Proof.
  intros body.
  apply (flac_subframe_lossless lpc_example_gb (replicate 8 0) 16 0 0 33 0 body lpc_example_x).
  - lia.
  - change (subframe_bps 16 0 0 - 0) with 16. lia.
  - exact lpc_example_body.
  - simpl. lia.
  - split.
    + split; [concrete|simpl; lia].
    + repeat split; reflexivity.
    + apply Z.leb_le. reflexivity.
Defined.

(** An order-2 fixed predictor. *)
Definition fixed_example_x : list Z := [10; 12; 15; 15; 11; 4; -3; -20].
Definition fixed_example_parts : list (coding * list Z) := [(Rice 2, [1; -3]); (Rice 1, [-4; -3; 0; -10])].
Definition fixed_example_gb : GetBitContext :=
  MkGetBitContext [20; 0; 10; 0; 12; 4; 178; 136; 206; 0; 96; 0; 0; 0; 0; 0] 0 128.

Example fixed_example_decodes :
  decode_subframe fixed_example_gb (replicate 10 99) 8 16 0 0
  = Some (0, 16, SKIP_COUNTER fixed_example_gb 83, fixed_example_x ++ [99; 99]).
Proof. vm_compute. reflexivity. Qed.
