(* ===== verification/FlacDecoder.v ===== *)
(** The FLAC decoder: [src/libflac/flac_decode.c] with [flac.c] and
    [flacdata.c].

    The file-scope objects [flactext], [acodec] and the CRC-8 table are fields of
    one state.  A NULL channel buffer is the empty list, so an access to it is
    undefined like one past the end.  What a library call decides is a variable
    of the section: whether an allocation succeeds, what new memory holds, the
    address of the input.  [char_signed] is the target's choice for plain
    [char]. *)
From S2P Require Import Prelude BitString GetBits Golomb Crc FlacSubframe.

Definition FLAC_STREAMINFO_SIZE : Z := 34.
Definition FLAC_MAX_CHANNELS : Z := 8.
Definition FLAC_MIN_BLOCKSIZE : Z := 16.
Definition FLAC_MIN_FRAME_SIZE : Z := 11.
Definition FLAC_METADATA_TYPE_STREAMINFO : Z := 0.
Definition DefaultReadSize : Z := 1024 * 10.
Definition DefaultOutBufSize : Z := 1024 * 1024.

Definition sample_size_table : list Z := [0; 8; 12; 0; 16; 20; 24; 0].

Definition ff_flac_sample_rate_table : list Z :=
  [0; 88200; 176400; 192000; 8000; 16000; 22050; 24000; 32000; 44100; 48000; 96000;
   0; 0; 0; 0].

(** The elements are [int16_t]. *)
Definition ff_flac_blocksize_table : list Z :=
  map s16 [0; 192; 576 .<< 0; 576 .<< 1; 576 .<< 2; 576 .<< 3; 0; 0;
           256 .<< 0; 256 .<< 1; 256 .<< 2; 256 .<< 3; 256 .<< 4; 256 .<< 5; 256 .<< 6;
           256 .<< 7].

(** ** Data *)

Record FLACStreaminfo := MkStreaminfo {
  samplerate : Z; channels : Z; bps : Z;
  max_blocksize : Z; max_framesize : Z; samples : Z
}.

Record FLACFrameInfo := MkFrameInfo {
  fi_samplerate : Z; fi_channels : Z; fi_bps : Z; fi_blocksize : Z; fi_ch_mode : Z
}.

Inductive SampleFormat := SAMPLE_FMT_NONE | SAMPLE_FMT_U8 | SAMPLE_FMT_S16
  | SAMPLE_FMT_S32 | SAMPLE_FMT_FLT | SAMPLE_FMT_DBL | SAMPLE_FMT_NB.

(** [extradata] is [None] for NULL. *)
Record AVCodecContext := MkAVCodecContext {
  extradata : option (list Z); extradata_size : Z;
  sample_rate : Z; av_channels : Z; sample_fmt : SampleFormat; bits_per_raw_sample : Z
}.

Record FLACContext := MkFLACContext {
  info : FLACStreaminfo;
  avctx : AVCodecContext;
  gb : GetBitContext;
  blocksize : Z; curr_bps : Z; sample_shift : Z; is32 : bool; ch_mode : Z;
  got_streaminfo : bool;
  decoded : list (list Z);
  bitstream_size : Z; bitstream_index : Z; error_num : Z;
  crc8_table : list Z
}.

Definition set_info s v := MkFLACContext v (avctx s) (gb s) (blocksize s) (curr_bps s)
  (sample_shift s) (is32 s) (ch_mode s) (got_streaminfo s) (decoded s) (bitstream_size s)
  (bitstream_index s) (error_num s) (crc8_table s).
Definition set_avctx s v := MkFLACContext (info s) v (gb s) (blocksize s) (curr_bps s)
  (sample_shift s) (is32 s) (ch_mode s) (got_streaminfo s) (decoded s) (bitstream_size s)
  (bitstream_index s) (error_num s) (crc8_table s).
Definition set_gb s v := MkFLACContext (info s) (avctx s) v (blocksize s) (curr_bps s)
  (sample_shift s) (is32 s) (ch_mode s) (got_streaminfo s) (decoded s) (bitstream_size s)
  (bitstream_index s) (error_num s) (crc8_table s).
Definition set_blocksize s v := MkFLACContext (info s) (avctx s) (gb s) v (curr_bps s)
  (sample_shift s) (is32 s) (ch_mode s) (got_streaminfo s) (decoded s) (bitstream_size s)
  (bitstream_index s) (error_num s) (crc8_table s).
Definition set_curr_bps s v := MkFLACContext (info s) (avctx s) (gb s) (blocksize s) v
  (sample_shift s) (is32 s) (ch_mode s) (got_streaminfo s) (decoded s) (bitstream_size s)
  (bitstream_index s) (error_num s) (crc8_table s).
Definition set_shift s v b := MkFLACContext (info s) (avctx s) (gb s) (blocksize s)
  (curr_bps s) v b (ch_mode s) (got_streaminfo s) (decoded s) (bitstream_size s)
  (bitstream_index s) (error_num s) (crc8_table s).
Definition set_ch_mode s v := MkFLACContext (info s) (avctx s) (gb s) (blocksize s)
  (curr_bps s) (sample_shift s) (is32 s) v (got_streaminfo s) (decoded s) (bitstream_size s)
  (bitstream_index s) (error_num s) (crc8_table s).
Definition set_got s v := MkFLACContext (info s) (avctx s) (gb s) (blocksize s)
  (curr_bps s) (sample_shift s) (is32 s) (ch_mode s) v (decoded s) (bitstream_size s)
  (bitstream_index s) (error_num s) (crc8_table s).
Definition set_decoded s v := MkFLACContext (info s) (avctx s) (gb s) (blocksize s)
  (curr_bps s) (sample_shift s) (is32 s) (ch_mode s) (got_streaminfo s) v (bitstream_size s)
  (bitstream_index s) (error_num s) (crc8_table s).
Definition set_bitstream s sz ix := MkFLACContext (info s) (avctx s) (gb s) (blocksize s)
  (curr_bps s) (sample_shift s) (is32 s) (ch_mode s) (got_streaminfo s) (decoded s) sz ix
  (error_num s) (crc8_table s).
Definition set_error_num s v := MkFLACContext (info s) (avctx s) (gb s) (blocksize s)
  (curr_bps s) (sample_shift s) (is32 s) (ch_mode s) (got_streaminfo s) (decoded s)
  (bitstream_size s) (bitstream_index s) v (crc8_table s).
Definition set_crc8 s v := MkFLACContext (info s) (avctx s) (gb s) (blocksize s)
  (curr_bps s) (sample_shift s) (is32 s) (ch_mode s) (got_streaminfo s) (decoded s)
  (bitstream_size s) (bitstream_index s) (error_num s) v.

Definition set_max_framesize (i : FLACStreaminfo) (v : Z) : FLACStreaminfo :=
  MkStreaminfo (samplerate i) (channels i) (bps i) (max_blocksize i) v (samples i).
Definition set_samplerate (i : FLACStreaminfo) (v : Z) : FLACStreaminfo :=
  MkStreaminfo v (channels i) (bps i) (max_blocksize i) (max_framesize i) (samples i).

(** ** Metadata *)

(** [am_flac_get_max_frame_size] of [flac.c]; [/] truncates. *)
Definition am_flac_get_max_frame_size (blocksize ch bps : Z) : Z :=
  let count := 16 + ch * ((7 + bps + 7) ÷ 8) in
  let count := count + (if ch =? 2 then ((2 * bps + 1) * blocksize + 7) ÷ 8
                        else (ch * bps * blocksize + 7) ÷ 8) in
  count + 2.

(** The [last], [type] and [size] results. *)
Definition am_flac_parse_block_header (buf : list Z) (p : Z) : option (Z * Z * Z) :=
  tmp ← aget buf p;
  b0 ← aget buf (p + 1); b1 ← aget buf (p + 2); b2 ← aget buf (p + 3);
  Some (tmp .& 0x80, tmp .& 0x7F, b2 .| (b1 .<< 8) .| (b0 .<< 16)).

(** [buffer] starts at the 34-byte STREAMINFO data. *)
Definition am_flac_parse_streaminfo (av : AVCodecContext) (buffer : list Z)
    : option (AVCodecContext * FLACStreaminfo) :=
  let gb := init_get_bits buffer (FLAC_STREAMINFO_SIZE * 8) in
  gb ← skip_bits gb 16;
  '(maxb, gb) ← get_bits gb 16;
  let maxb := if maxb <? FLAC_MIN_BLOCKSIZE then 16 else maxb in
  gb ← skip_bits gb 24;
  '(maxf, gb) ← get_bits_long gb 24;
  '(sr, gb) ← get_bits_long gb 20;
  '(ch, gb) ← get_bits gb 3;
  '(bp, gb) ← get_bits gb 5;
  '(hi, gb) ← get_bits_long gb 32;
  '(lo, gb) ← get_bits gb 4;
  Some (MkAVCodecContext (extradata av) (extradata_size av) sr (ch + 1) (sample_fmt av)
          (bp + 1),
        MkStreaminfo sr (ch + 1) (bp + 1) maxb maxf (u32 (hi .<< 4) .| lo)).

(** Fuel: every block takes at least the four bytes of its header.  [p] is
    [buf]; the result is [buf_size - (buf_end - buf)]. *)
Fixpoint metadata_loop (fuel : nat) (buf : list Z) (p buf_end : Z) : option Z :=
  match fuel with
  | O => None
  | S fuel' =>
      '(metadata_last, _, metadata_size) ← am_flac_parse_block_header buf p;
      let p := p + 4 in
      if buf_end <? p + metadata_size then Some 0
      else
        let p := p + metadata_size in
        if metadata_last =? 0 then metadata_loop fuel' buf p buf_end else Some p
  end.

Definition get_metadata_size (buf : list Z) (buf_size : Z) : option Z :=
  metadata_loop (S (Z.to_nat buf_size)) buf 4 buf_size.

Inductive FLACExtradataFormat := FLAC_EXTRADATA_FORMAT_STREAMINFO
  | FLAC_EXTRADATA_FORMAT_FULL_HEADER.

(** ['fLaC'] in the byte order of [AV_RB32]. *)
Definition fLaC : Z := 0x664C6143.

Definition AV_RL32 (buf : list Z) (p : Z) : option Z :=
  b0 ← aget buf p; b1 ← aget buf (p + 1); b2 ← aget buf (p + 2); b3 ← aget buf (p + 3);
  Some ((b3 .<< 24) .| (b2 .<< 16) .| (b1 .<< 8) .| b0).

(** [None] inside is the result 0; otherwise the format and the offset of
    [streaminfo_start]. *)
Definition am_flac_is_extradata_valid (av : AVCodecContext)
    : option (option (FLACExtradataFormat * list Z)) :=
  match extradata av with
  | None => Some None
  | Some data =>
      if extradata_size av <? FLAC_STREAMINFO_SIZE then Some None
      else
        tag ← AV_RL32 data 0;
        if negb (tag =? 0x43614C66) then Some (Some (FLAC_EXTRADATA_FORMAT_STREAMINFO, data))
        else if extradata_size av <? 8 + FLAC_STREAMINFO_SIZE then Some None
        else Some (Some (FLAC_EXTRADATA_FORMAT_FULL_HEADER, drop 8 data))
  end.

Section Decoder.
Variable alloc_ok : Z -> bool.
Variable garbage : Z -> Z.
Variable addr : Z.
Variable char_signed : bool.

(** [realloc] of a channel buffer to [n] cells. *)
Definition av_realloc (ptr : list Z) (n : Z) : list Z :=
  if alloc_ok n
  then take (Z.to_nat n) ptr ++ map garbage (seqZ (zlen ptr) (n - zlen ptr)) else [].

Definition allocate_buffers (s : FLACContext) : option FLACContext :=
  let i := info s in
  let s := if (max_framesize i =? 0) && negb (max_blocksize i =? 0)
         then set_info s (set_max_framesize i
                (am_flac_get_max_frame_size (max_blocksize i) (channels i) (bps i)))
         else s in
  d ← for_range 0 (channels (info s)) (fun i d =>
  p ← aget d i; aset d i (av_realloc p (max_blocksize (info s)))) (decoded s);
  Some (set_decoded s d).

(** The result is the C one; the offsets are those of [buf]. *)
Definition parse_streaminfo (s : FLACContext) (buf : list Z) (buf_size : Z)
  : option (Z * FLACContext) :=
  if buf_size <? FLAC_STREAMINFO_SIZE + 8 then Some (0, s)
  else
  '(_, metadata_type, metadata_size) ← am_flac_parse_block_header buf 4;
  if negb (metadata_type =? FLAC_METADATA_TYPE_STREAMINFO) ||
     negb (metadata_size =? FLAC_STREAMINFO_SIZE) then Some (-1, s)
  else
    '(av, i) ← am_flac_parse_streaminfo (avctx s) (drop 8 buf);
    s ← allocate_buffers (set_info (set_avctx s av) i);
    Some (0, set_got s true).

(** ** Frames *)

(** [get_utf8]: -1 on an invalid sequence. *)
Definition get_utf8 (gb : GetBitContext) : option (Z * GetBitContext) :=
  '(val, gb) ← GET_UTF8 gb; Some (default (-1) val, gb).

(** The channel mode and the number of channels of a 4-bit code. *)
Definition channel_mode (code : Z) : option (Z * Z) :=
  if code <? FLAC_MAX_CHANNELS then Some (FLAC_CHMODE_INDEPENDENT, code + 1)
  else if code <=? FLAC_CHMODE_MID_SIDE then Some (code, 2) else None.

Definition header_blocksize (gb : GetBitContext) (bs_code : Z)
  : option (option Z * GetBitContext) :=
  if bs_code =? 0 then Some (None, gb)
  else if bs_code =? 6 then '(v, gb) ← get_bits gb 8; Some (Some (v + 1), gb)
  else if bs_code =? 7 then '(v, gb) ← get_bits gb 16; Some (Some (v + 1), gb)
  else v ← aget ff_flac_blocksize_table bs_code; Some (Some v, gb).

Definition header_samplerate (gb : GetBitContext) (sr_code : Z)
  : option (option Z * GetBitContext) :=
  if sr_code <? 12 then v ← aget ff_flac_sample_rate_table sr_code; Some (Some v, gb)
  else if sr_code =? 12 then '(v, gb) ← get_bits gb 8; Some (Some (v * 1000), gb)
  else if sr_code =? 13 then '(v, gb) ← get_bits gb 16; Some (Some v, gb)
  else if sr_code =? 14 then '(v, gb) ← get_bits gb 16; Some (Some (v * 10), gb)
  else Some (None, gb).

(** [None] inside is the result -1; the CRC table is the static one. *)
Definition decode_frame_header (gb : GetBitContext) (crc_tab : list Z)
  : option (option FLACFrameInfo * GetBitContext * list Z) :=
  '(sync, gb) ← get_bits gb 15;
  if negb (sync .& 0x7FFF =? 0x7FFC) then Some (None, gb, crc_tab) else
  gb ← skip_bits gb 1;
  '(bs_code, gb) ← get_bits gb 4;
  '(sr_code, gb) ← get_bits gb 4;
  '(ch_code, gb) ← get_bits gb 4;
  match channel_mode ch_code with
  | None => Some (None, gb, crc_tab)
  | Some (mode, ch) =>
    '(bps_code, gb) ← get_bits gb 3;
    if (bps_code =? 3) || (bps_code =? 7) then Some (None, gb, crc_tab) else
    bp ← aget sample_size_table bps_code;
    '(reserved, gb) ← get_bits1 gb;
    if negb (reserved =? 0) then Some (None, gb, crc_tab) else
    '(number, gb) ← get_utf8 gb;
    if number <? 0 then Some (None, gb, crc_tab) else
    '(bs, gb) ← header_blocksize gb bs_code;
    match bs with
    | None => Some (None, gb, crc_tab)
    | Some bs =>
        '(sr, gb) ← header_samplerate gb sr_code;
        match sr with
        | None => Some (None, gb, crc_tab)
        | Some sr =>
            gb ← skip_bits gb 8;
            tab ← av_crc_get_table (fun _ => crc_tab) AV_CRC_8_ATM;
            tab ← tab;
            crc ← av_crc tab 0 (gb_buffer gb) addr (get_bits_count gb ÷ 8);
            if negb (crc =? 0) then Some (None, gb, tab)
            else Some (Some (MkFrameInfo sr ch bp bs mode), gb, tab)
        end
    end
  end.

(** [for (i = 0; i < s->channels; i++) decode_subframe(s, i)]: the loop stops at
  the first failure. *)
Definition subframe_step (i : Z) (st : Z * FLACContext) : option (Z * FLACContext) :=
  let '(ret, s) := st in
  if ret <? 0 then Some st else
  dec ← aget (decoded s) i;
  '(ret, bps', g, dec) ←
  decode_subframe (gb s) dec (blocksize s) (bps (info s)) (ch_mode s) i;
  d ← aset (decoded s) i dec;
  Some (ret, set_curr_bps (set_decoded (set_gb s g) d) bps').

Definition decode_frame (s : FLACContext) : option (Z * FLACContext) :=
  '(fi, g, tab) ← decode_frame_header (gb s) (crc8_table s);
  let s := set_crc8 (set_gb s g) tab in
  match fi with
  | None => Some (-1, s)
  | Some fi =>
    if negb (fi_channels fi =? channels (info s)) then Some (-1, s) else
    let s := set_ch_mode s (fi_ch_mode fi) in
    if negb (fi_bps fi =? 0) && negb (fi_bps fi =? bps (info s)) then Some (-1, s) else
    let s := set_shift s (16 - bps (info s)) false in
    if max_blocksize (info s) <? fi_blocksize fi then Some (-1, s) else
    let s := set_blocksize s (fi_blocksize fi) in
    let sr := if fi_samplerate fi =? 0 then samplerate (info s) else fi_samplerate fi in
    let s := set_info s (set_samplerate (info s) sr) in
    let a := avctx s in
    let s := set_avctx s (MkAVCodecContext (extradata a) (extradata_size a) sr
                            (av_channels a) (sample_fmt a) (bits_per_raw_sample a)) in
    '(ret, s) ← for_range 0 (channels (info s)) subframe_step (0, s);
    if ret <? 0 then Some (-1, s) else
    g ← align_get_bits (gb s);
    g ← skip_bits g 16;
    Some (0, set_gb s g)
  end.

(** ** Output *)

(** [*samples_16++] and [*samples_32++]: sample [k] of the little-endian output
  buffer; [v] is converted on the store. *)
Definition put16 (out : list Z) (k v : Z) : option (list Z) :=
  ablit out (2 * k) [u16 v mod 256; u16 v / 256].

Definition put32 (out : list Z) (k v : Z) : option (list Z) :=
  let v := u32 v in
  ablit out (4 * k) [v mod 256; v / 2 ^ 8 mod 256; v / 2 ^ 16 mod 256; v / 2 ^ 24].

(** One sample scaled to the output width. *)
Definition put_sample (is32 : bool) (shift : Z) (out : list Z) (k v : Z) : option (list Z) :=
  if is32 then put32 out k (s32 (v .<< shift))
  else if 0 <=? shift then put16 out k (s32 (v .<< shift))
  else put16 out k (v .>> (- shift)).

(** The body of the [DECORRELATE] macro, with the left and right expressions. *)
Definition decorrelate (f : Z -> Z -> Z * Z) (s : FLACContext) (out : list Z)
  : option (list Z) :=
  for_range 0 (blocksize s) (fun i out =>
  d0 ← aget (decoded s) 0; a ← aget d0 i;
  d1 ← aget (decoded s) 1; b ← aget d1 i;
  let '(l, r) := f a b in
  out ← put_sample (is32 s) (sample_shift s) out (2 * i) l;
  put_sample (is32 s) (sample_shift s) out (2 * i + 1) r) out.

(** The expressions of the three uses; [int] arithmetic wraps. *)
Definition left_side (a b : Z) : Z * Z := (a, s32 (a - b)).
Definition right_side (a b : Z) : Z * Z := (s32 (a + b), b).
Definition mid_side (a b : Z) : Z * Z :=
  let a := s32 (a - (b .>> 1)) in (s32 (a + b), a).

(** One or two independent channels, interleaved. *)
Definition interleave (s : FLACContext) (out : list Z) : option (list Z) :=
  for_range 0 (blocksize s) (fun j out =>
  for_range 0 (channels (info s)) (fun i out =>
    d ← aget (decoded s) i; v ← aget d j;
    put_sample (is32 s) (sample_shift s) out (channels (info s) * j + i) v) out) out.

(** An integer as a [float]: 24 significant bits, ties to even.  All the sums
  of the downmix are integers below 2^40. *)
Definition f32_round (z : Z) : Z :=
  let n := Z.log2 (Z.abs z) - 23 in
  if n <=? 0 then z
  else
  let q := z / 2 ^ n in
  let r := 2 * (z mod 2 ^ n) in
  if (r <? 2 ^ n) || ((r =? 2 ^ n) && Z.even q) then q * 2 ^ n else (q + 1) * 2 ^ n.

(** The comparisons convert the bounds to [float]; the conversion of an
  out-of-range [float] to [int] is undefined. *)
Definition av_clipf1 (a amin amax : Z) : option Z :=
  if a <? f32_round amin then Some amin
  else if f32_round amax <? a then Some amax
  else if (- 2 ^ 31 <=? a) && (a <? 2 ^ 31) then Some a else None.

Definition scaled (s : FLACContext) (v : Z) : Z :=
  if is32 s then s32 (v .<< sample_shift s)
  else if 0 <=? sample_shift s then s32 (v .<< sample_shift s)
  else v .>> (- sample_shift s).

(** One surround channel added to both sums. *)
Definition surround_step (s : FLACContext) (j i : Z) (st : Z * Z) : option (Z * Z) :=
  let '(sum0, sum1) := st in
  d ← aget (decoded s) i; v ← aget d j;
  let x := f32_round (scaled s v .>> 1) in
  Some (f32_round (sum0 + x), f32_round (sum1 + x)).

Definition downmix (s : FLACContext) (out : list Z) : option (list Z) :=
  for_range 0 (blocksize s) (fun j out =>
  d0 ← aget (decoded s) 0; a ← aget d0 j;
  d1 ← aget (decoded s) 1; b ← aget d1 j;
  '(sum0, sum1) ← for_range 2 (channels (info s)) (surround_step s j)
    (f32_round (scaled s a), f32_round (scaled s b));
  if is32 s then
    l ← av_clipf1 sum0 (- 2 ^ 31) 0x7fffffff; out ← put32 out (2 * j) l;
    r ← av_clipf1 sum1 (- 2 ^ 31) 0x7fffffff; put32 out (2 * j + 1) r
  else
    l ← av_clipf1 sum0 (-32768) 32767; out ← put16 out (2 * j) l;
    r ← av_clipf1 sum1 (-32768) 32767; put16 out (2 * j + 1) r) out.

(** The [switch] on [ch_mode], which has no default case. *)
Definition write_output (s : FLACContext) (out : list Z) : option (list Z) :=
  if ch_mode s =? FLAC_CHMODE_INDEPENDENT then
  if channels (info s) <=? 2 then interleave s out else downmix s out
  else if ch_mode s =? FLAC_CHMODE_LEFT_SIDE then decorrelate left_side s out
  else if ch_mode s =? FLAC_CHMODE_RIGHT_SIDE then decorrelate right_side s out
  else if ch_mode s =? FLAC_CHMODE_MID_SIDE then decorrelate mid_side s out
  else Some out.

(** ** Entry points *)

Definition char_of (b : Z) : Z := if char_signed then s8 b else b.

(** The search of a short input for the next two frame headers.  The state is
  [inbufindex], [inlen], [frame_num] and whether [goto decodecontinue] was
  reached. *)
Definition prescan (inbuf : list Z) (para inlen : Z) : option (Z * Z * Z * bool) :=
  while_loop (S (Z.to_nat inlen))
  (fun '(i, inlen, _, found) => negb found && (i <? inlen - FLAC_MIN_FRAME_SIZE + 2))
  (fun '(i, inlen, frame_num, _) =>
     w ← AV_RB16 inbuf i;
     b ← (if negb (w .& 0xFFFF =? 0xFFF8) then Some true
          else b ← aget inbuf (i + 2); Some (negb (b =? para)));
     if b : bool then Some (i + 1, inlen, frame_num, false)
     else Some (i, i, frame_num + 1, 1 <? frame_num + 1))
  (11, inlen, 0, false).

(** [(AV_RB16(buf) & 0xFFFE) != 0xFFF8] *)
Definition no_sync (inbuf : list Z) (p : Z) : option bool :=
  w ← AV_RB16 inbuf p; Some (negb (w .& 0xFFFE =? 0xFFF8)).

(** The search for a sync word, from [p]. *)
Fixpoint sync_search (fuel : nat) (inbuf : list Z) (p buf_end : Z) : option Z :=
  match fuel with
  | O => None
  | S fuel' =>
    if p + 2 <? buf_end then
      b ← no_sync inbuf p;
      if b : bool then sync_search fuel' inbuf (p + 1) buf_end else Some p
    else Some p
  end.

(** From the label [FIND_SYNC_WORD]: [p] is the offset of [buf] and equals
  [last_sync_pos] there, [n] is [buf_size].  [inr] is the [goto end] with its
  [bytes_read]; [inl] a decoded frame. *)
Fixpoint find_sync_word (fuel : nat) (s : FLACContext) (inbuf : list Z) (p n : Z)
  : option (Z * FLACContext + Z * FLACContext) :=
  match fuel with
  | O => None
  | S fuel' =>
    b ← no_sync inbuf p;
    if b : bool then
      q ← sync_search (S (Z.to_nat n)) inbuf p (p + n);
      Some (inr (n - (p + n - q), s))
    else
      '(ret, s) ← decode_frame (set_gb s (init_get_bits (drop (Z.to_nat p) inbuf) (s32 (n * 8))));
      if ret <? 0 then
        find_sync_word fuel' (set_error_num s (u32 (error_num s + 1))) inbuf (p + 1)
          (u32 (bitstream_size s - (p + 1)))
      else Some (inl ((get_bits_count (gb s) + 7) ÷ 8, s))
  end.

(** The code after the label [end]; the results are the return value and, on
  success, [*outlen]. *)
Definition decode_end (s : FLACContext) (out : list Z) (bytes_read inlen output_size : Z)
  : Z * option Z * FLACContext * list Z :=
  if inlen <? bytes_read then (-1, None, set_bitstream s 0 0, out)
  else
  let s := if negb (bitstream_size s =? 0)
           then set_bitstream s (u32 (bitstream_size s - bytes_read))
                                (u32 (bitstream_index s + bytes_read))
           else s in
  (bytes_read, Some output_size, s, out).

Definition audio_dec_decode (s : FLACContext) (outbuf inbuf : list Z) (inlen : Z)
  : option (Z * option Z * FLACContext * list Z) :=
  let mf := max_framesize (info s) in
  let limit := Z.max ((17 * mf) ÷ 16 + 32) mf in
  scan ← (if inlen <? limit then
          para ← aget inbuf 2;
          '(_, inlen, _, found) ← prescan inbuf (char_of para) inlen;
          Some (if found : bool then Some inlen else None)
        else Some (Some inlen));
  match scan with
  | None => Some (-1, None, s, outbuf)
  | Some inlen =>
    let s := set_bitstream s inlen 0 in
    tag ← AV_RB32 inbuf 0;
    if tag =? fLaC then
      '(ret, s) ← (if got_streaminfo s then Some (0, s) else parse_streaminfo s inbuf inlen);
      if negb (ret =? 0) then Some (-1, None, s, outbuf)
      else
        bytes_read ← get_metadata_size inbuf inlen;
        Some (decode_end s outbuf bytes_read inlen 0)
    else
      r ← find_sync_word (S (Z.to_nat inlen)) s inbuf 0 inlen;
      match r with
      | inr (bytes_read, s) => Some (decode_end s outbuf bytes_read inlen 0)
      | inl (bytes_read, s) =>
          let ch := channels (info s) in
          let output_size := blocksize s * (if 2 <? ch then 2 else ch) *
                             (if is32 s then 4 else 2) in
          if DefaultOutBufSize <? output_size
          then Some (decode_end s outbuf bytes_read inlen output_size)
          else
            out ← write_output s outbuf;
            Some (decode_end s out bytes_read inlen output_size)
      end
  end.

(** [audio_dec_init]: the result, the context and, when they are assigned, the
  buffer sizes of [adec_ops].  The [memset]s make every field zero and every
  pointer NULL; the CRC table is another object. *)
Definition audio_dec_init (s : FLACContext) (data : option (list Z)) (size : Z)
  : option (Z * FLACContext * option (Z * Z)) :=
  let s := MkFLACContext (MkStreaminfo 0 0 0 0 0 0)
           (MkAVCodecContext data size 0 0 SAMPLE_FMT_S16 0)
           (MkGetBitContext [] 0 0) 0 0 0 false 0 false
           (replicate 8 []) 0 0 0 (crc8_table s) in
  if size =? 0 then Some (0, s, None)
  else
  v ← am_flac_is_extradata_valid (avctx s);
  match v with
  | None => Some (-1, s, None)
  | Some (_, streaminfo) =>
      '(av, i) ← am_flac_parse_streaminfo (avctx s) streaminfo;
      let fmt := if 16 <? bps i then SAMPLE_FMT_S32 else SAMPLE_FMT_S16 in
      s ← allocate_buffers (set_info s i);
      let s := set_got s true in
      let s := set_avctx s (MkAVCodecContext (extradata av) (extradata_size av)
                 (sample_rate av) (if 2 <? av_channels av then 2 else av_channels av)
                 fmt (bits_per_raw_sample av)) in
      Some (0, s, Some (DefaultReadSize, DefaultOutBufSize))
  end.

(** [outbuffer.outb] is never assigned a buffer, so only the channels are freed. *)
Definition audio_dec_release (s : FLACContext) : option FLACContext :=
  d ← for_range 0 (channels (info s)) (fun i d => aset d i []) (decoded s);
  Some (set_decoded s d).

(** The fields of [AudioInfo]: channels, samplerate, error_num, drop_num. *)
Definition audio_dec_getinfo (s : FLACContext) : Z * Z * Z * Z :=
  (channels (info s), samplerate (info s), error_num s, error_num s).
End Decoder.

(** ** The scan of a short input *)

Lemma AV_RB16_in buf p : 0 <= p -> p + 2 <= zlen buf -> exists w, AV_RB16 buf p = Some w.
Proof.
  intros. unfold AV_RB16. destruct (aget_Some buf p) as [b0 ->]; [lia|].
  destruct (aget_Some buf (p + 1)) as [b1 ->]; [lia|]. by eexists.
Qed.

(** The first match sets [inlen] to its own index, which ends the loop: a second
    one is never counted. *)
Lemma prescan_never_finds inbuf para inlen : 0 <= inlen <= zlen inbuf ->
  exists i n k, prescan inbuf para inlen = Some (i, n, k, false).
Proof.
  intros Hl. unfold prescan.
  destruct (while_loop_inv
    (fun '(i, n, k, found) => 11 <= i /\ found = false /\
       (k = 0 /\ n = inlen \/ k = 1 /\ n = i))
    (fun '(i, n, k, _) => if k =? 0 then inlen - i else 0)
    (S (Z.to_nat inlen))
    (fun '(i, inlen, _, found) => negb found && (i <? inlen - FLAC_MIN_FRAME_SIZE + 2))
    (fun '(i, inlen, frame_num, _) =>
       w ← AV_RB16 inbuf i;
       b ← (if negb (w .& 0xFFFF =? 0xFFF8) then Some true
            else b ← aget inbuf (i + 2); Some (negb (b =? para)));
       if b : bool then Some (i + 1, inlen, frame_num, false)
       else Some (i, i, frame_num + 1, 1 <? frame_num + 1)) (11, inlen, 0, false))
    as ([[[i n] k] found]&E&(?&->&_)&_); [split; [lia|]; split; [done|by left]|simpl; lia| |lia|].
  - intros [[[i n] k] found] (Hi&->&Hk) Hc. cbn [negb andb] in Hc. unfold FLAC_MIN_FRAME_SIZE in Hc.
    zbool. destruct Hk as [[-> ->]|[-> ->]]; [|lia]. simpl (0 =? 0). cbv iota.
    split; [lia|]. destruct (AV_RB16_in inbuf i) as [w ->]; [lia|lia|]. cbn [mbind option_bind].
    destruct (aget_Some inbuf (i + 2)) as [b ->]; [lia|]. cbn [mbind option_bind].
    destruct (negb (w .& 65535 =? 65528)); cbn [mbind option_bind].
    + eexists. split; [done|]. simpl. split; [|lia]. split; [lia|]. split; [done|by left].
    + destruct (negb (b =? para)).
      * eexists. split; [done|]. simpl. split; [|lia]. split; [lia|]. split; [done|by left].
      * eexists. split; [done|]. simpl. split; [|lia]. split; [lia|]. split; [done|by right].
  - rewrite E. by exists i, n, k.
Qed.

(** ** Finding the sync word *)

Definition is_sync (inbuf : list Z) (p : Z) : bool :=
  match no_sync inbuf p with Some b => negb b | None => false end.

Lemma no_sync_in inbuf p : 0 <= p -> p + 2 <= zlen inbuf ->
  no_sync inbuf p = Some (negb (is_sync inbuf p)).
Proof.
  intros. unfold is_sync, no_sync. destruct (AV_RB16_in inbuf p) as [w ->]; [done..|].
  cbn [mbind option_bind]. by rewrite negb_involutive.
Qed.

(** The first position from [p] on with a sync word, or the position two bytes
    before the end. *)
Lemma sync_search_spec fuel inbuf p e : 0 <= p -> p + 2 <= e -> e <= zlen inbuf ->
  (Z.to_nat (e - p) < fuel)%nat ->
  exists q, sync_search fuel inbuf p e = Some q /\ p <= q <= e - 2 /\
    (forall k, p <= k < q -> is_sync inbuf k = false) /\
    (is_sync inbuf q = true \/ q = e - 2).
Proof.
  revert p. induction fuel as [|fuel IH]; intros p Hp Hpe He Hf; [lia|]. cbn [sync_search].
  destruct (Z.ltb_spec (p + 2) e).
  - rewrite no_sync_in by lia. cbn [mbind option_bind].
    destruct (is_sync inbuf p) eqn:Es; cbn [negb].
    + exists p. split; [done|]. split; [lia|]. split; [intros; lia|by left].
    + destruct (IH (p + 1)) as (q&->&Hq&Hno&Hend); [lia..|].
      exists q. split; [done|]. split; [lia|]. split; [|done]. intros k Hk.
      destruct (decide (k = p)) as [->|]; [done|]. apply Hno. lia.
  - exists p. split; [done|]. split; [lia|]. split; [intros; lia|right; lia].
Qed.

(** ** Metadata blocks *)

Definition be24 (n : Z) : list Z := [n / 65536; n / 256 mod 256; n mod 256].

(** The blocks after the marker, the last one flagged. *)
Fixpoint metadata_bytes (blocks : list (Z * list Z)) : list Z :=
  match blocks with
  | [] => []
  | [(t, payload)] => (128 + t) :: be24 (zlen payload) ++ payload
  | (t, payload) :: bs => t :: be24 (zlen payload) ++ payload ++ metadata_bytes bs
  end.

Definition block_ok (b : Z * list Z) : Prop := 0 <= b.1 < 128 /\ zlen b.2 < 2 ^ 24.

Lemma byte_flag t : 0 <= t < 128 -> (128 + t) .& 0x80 = 128 /\ t .& 0x80 = 0.
Proof.
  intros Ht. assert (forallb (fun t => ((128 + t) .& 0x80 =? 128) && (t .& 0x80 =? 0))
    (seqZ 0 128) = true) as Hall by (vm_compute; reflexivity).
  pose proof (forall_range _ _ _ Hall t ltac:(lia)) as H. cbv beta in H. zbool. done.
Qed.

Lemma be24_value n : 0 <= n < 2 ^ 24 ->
  n mod 256 .| ((n / 256 mod 256) .<< 8) .| ((n / 65536) .<< 16) = n.
Proof.
  intros Hn. rewrite (lor_shiftl_add (n mod 256) _ 8) by (try (change (2 ^ 8) with 256); zdiv).
  rewrite lor_shiftl_add by (change (2 ^ 8) with 256; try (change (2 ^ 16) with 65536); zdiv).
  change (2 ^ 8) with 256. change (2 ^ 16) with 65536. zdiv.
Qed.

Lemma at_bytes_app_inv buf p l1 l2 : at_bytes buf p (l1 ++ l2) ->
  at_bytes buf p l1 /\ at_bytes buf (p + zlen l1) l2.
Proof.
  intros H. split; intros i x Hx.
  - apply H. by apply lookup_app_l_Some.
  - replace (p + zlen l1 + Z.of_nat i) with (p + Z.of_nat (length l1 + i)) by lia.
    apply H. rewrite lookup_app_r by lia. by replace (length l1 + i - length l1)%nat with i by lia.
Qed.

Lemma block_header_read buf p b0 (payload : list Z) : at_bytes buf p (b0 :: be24 (zlen payload)) ->
  zlen payload < 2 ^ 24 ->
  am_flac_parse_block_header buf p = Some (b0 .& 0x80, b0 .& 0x7F, zlen payload).
Proof.
  intros H Hl. apply at_bytes_cons in H as [E0 H].
  apply at_bytes_cons in H as [E1 H]. apply at_bytes_cons in H as [E2 H].
  apply at_bytes_cons in H as [E3 _].
  replace (p + 1 + 1) with (p + 2) in * by lia. replace (p + 2 + 1) with (p + 3) in * by lia.
  unfold am_flac_parse_block_header. rewrite E0, E1, E2, E3. cbn [mbind option_bind].
  by rewrite be24_value by lia.
Qed.

Lemma metadata_bytes_cons t payload b bs : metadata_bytes ((t, payload) :: b :: bs)
  = (t :: be24 (zlen payload)) ++ payload ++ metadata_bytes (b :: bs).
Proof. done. Qed.

Lemma metadata_bytes_last t payload :
  metadata_bytes [(t, payload)] = ((128 + t) :: be24 (zlen payload)) ++ payload.
Proof. done. Qed.

(** The whole list of blocks, or 0 when the input ends inside of it. *)
Lemma metadata_loop_spec blocks buf p e fuel : blocks <> [] -> Forall block_ok blocks ->
  0 <= p -> at_bytes buf p (metadata_bytes blocks) -> (length blocks <= fuel)%nat ->
  metadata_loop fuel buf p e = Some (if e <? p + zlen (metadata_bytes blocks) then 0
                                     else p + zlen (metadata_bytes blocks)).
Proof.
  intros Hne Hok. revert p fuel.
  induction Hok as [|[t payload] bs [Ht Hl] Hok IH]; intros p fuel Hp Hat Hf; [done|].
  destruct fuel as [|fuel]; [simpl in Hf; lia|]. cbn [fst snd] in *.
  pose proof (byte_flag t Ht) as [F1 F0]. cbn [metadata_loop].
  destruct bs as [|b bs]; rewrite ?metadata_bytes_last, ?metadata_bytes_cons in *.
  - rewrite length_app. change (length ((128 + t) :: be24 (zlen payload))) with 4%nat.
    apply at_bytes_app_inv in Hat as [Hat _].
    rewrite (block_header_read buf p _ _ Hat Hl). cbn [mbind option_bind]. rewrite F1.
    replace (p + Z.of_nat (4 + length payload)) with (p + 4 + zlen payload) by lia.
    by destruct (e <? p + 4 + zlen payload).
  - rewrite !length_app. change (length (t :: be24 (zlen payload))) with 4%nat.
    apply at_bytes_app_inv in Hat as [Hat Hrest].
    rewrite (block_header_read buf p _ _ Hat Hl). cbn [mbind option_bind].
    apply at_bytes_app_inv in Hrest as [_ Hrest].
    change (zlen (t :: be24 (zlen payload))) with 4 in Hrest.
    set (rest := metadata_bytes (b :: bs)) in *.
    replace (p + Z.of_nat (4 + (length payload + length rest)))
      with (p + 4 + zlen payload + zlen rest) by lia.
    destruct (Z.ltb_spec e (p + 4 + zlen payload)).
    { by rewrite (proj2 (Z.ltb_lt _ _)) by lia. }
    rewrite F0. change (0 =? 0) with true. cbv iota.
    apply IH; [done|lia|done|]. cbn [length] in *. lia.
Qed.

(** ** Frame headers *)

(** What the codes stand for, from the description of the format.  The code of a block size comes with the field
    it adds to the header; code 15 stands for 32768 samples, see [flac_blocksize_15_negative]. *)
Inductive blocksize_code : Z -> list (Z * Z) -> Z -> Prop :=
| bs_192 : blocksize_code 1 [] 192
| bs_576 c : 2 <= c <= 5 -> blocksize_code c [] (576 * 2 ^ (c - 2))
| bs_256 c : 8 <= c <= 14 -> blocksize_code c [] (256 * 2 ^ (c - 8))
| bs_8 v : 1 <= v <= 256 -> blocksize_code 6 [(8, v - 1)] v
| bs_16 v : 1 <= v <= 65536 -> blocksize_code 7 [(16, v - 1)] v.

(** Code 0 leaves the rate, and below the sample size, to the stream information. *)
Definition standard_rates : list (Z * Z) :=
  [(0, 0); (1, 88200); (2, 176400); (3, 192000); (4, 8000); (5, 16000); (6, 22050); (7, 24000); (8, 32000);
   (9, 44100); (10, 48000); (11, 96000)].

Inductive samplerate_code : Z -> list (Z * Z) -> Z -> Prop :=
| sr_standard c v : (c, v) ∈ standard_rates -> samplerate_code c [] v
| sr_khz v : 0 <= v < 256 -> samplerate_code 12 [(8, v)] (v * 1000)
| sr_hz v : 0 <= v < 65536 -> samplerate_code 13 [(16, v)] v
| sr_10hz v : 0 <= v < 65536 -> samplerate_code 14 [(16, v)] (v * 10).

(** The code with the channel mode and the number of channels. *)
Inductive channels_code : Z -> Z -> Z -> Prop :=
| ch_independent n : 1 <= n <= 8 -> channels_code (n - 1) FLAC_CHMODE_INDEPENDENT n
| ch_left_side : channels_code 8 FLAC_CHMODE_LEFT_SIDE 2
| ch_right_side : channels_code 9 FLAC_CHMODE_RIGHT_SIDE 2
| ch_mid_side : channels_code 10 FLAC_CHMODE_MID_SIDE 2.

Definition standard_sizes : list (Z * Z) := [(0, 0); (1, 8); (2, 12); (4, 16); (5, 20); (6, 24)].

Record frame_header := MkFrameHeader {
  h_blocking : Z; h_bs : Z; h_bs_ext : list (Z * Z); h_sr : Z; h_sr_ext : list (Z * Z);
  h_ch : Z; h_bps : Z; h_number : Z; h_utf8 : list Z; h_crc : Z
}.

Definition byte_code (b : Z) : list (Z * Z) := [(8, b)].

Definition header_code (h : frame_header) : list (Z * Z) :=
  [(15, 0x7FFC); (1, h_blocking h); (4, h_bs h); (4, h_sr h); (4, h_ch h); (3, h_bps h); (1, 0)]
  ++ flat_map byte_code (h_utf8 h) ++ h_bs_ext h ++ h_sr_ext h ++ [(8, h_crc h)].

(** A header whose fields mean [fi]. *)
Record header_ok (h : frame_header) (fi : FLACFrameInfo) : Prop := HeaderOk {
  ho_blocking : 0 <= h_blocking h < 2;
  ho_bs : blocksize_code (h_bs h) (h_bs_ext h) (fi_blocksize fi);
  ho_sr : samplerate_code (h_sr h) (h_sr_ext h) (fi_samplerate fi);
  ho_ch : channels_code (h_ch h) (fi_ch_mode fi) (fi_channels fi);
  ho_bps : (h_bps h, fi_bps fi) ∈ standard_sizes;
  ho_number : 0 <= h_number h < 2 ^ 31;
  ho_utf8 : PUT_UTF8 (h_number h) = Some (h_utf8 h);
  ho_crc : 0 <= h_crc h < 256
}.

Lemma byte_codes_width bs : width (flat_map byte_code bs) = 8 * zlen bs.
Proof.
  induction bs as [|b bs IH]; [done|]. cbn [flat_map byte_code app]. rewrite width_cons, IH.
  cbn [length]. lia.
Qed.

Lemma bs_ext_width c l v : blocksize_code c l v -> exists k, width l = 8 * k /\ 0 <= k <= 2.
Proof. intros []; [by exists 0|by exists 0|by exists 0|by exists 1|by exists 2]. Qed.

Lemma sr_ext_width c l v : samplerate_code c l v -> exists k, width l = 8 * k /\ 0 <= k <= 2.
Proof. intros []; [by exists 0|by exists 1|by exists 2|by exists 2]. Qed.

Lemma written_bytes buf p bs : bytes_ok buf -> bytes_ok bs -> 0 <= p -> p + zlen bs <= zlen buf ->
  written buf (8 * p) (flat_map byte_code bs) -> at_bytes buf p bs.
Proof.
  intros Hbuf Hbs. revert p. induction Hbs as [|b bs Hb Hbs IH]; intros p Hp Hl Hw i x Hx; [done|].
  cbn [flat_map byte_code app written] in Hw. destruct Hw as [Hb' Hw]. cbn [length] in Hl.
  destruct i as [|i]; simpl in Hx.
  - injection Hx as ->. rewrite Z.add_0_r. destruct (aget_Some buf p) as [y Ey]; [lia|].
    rewrite (bits_byte buf p y Hbuf Ey) in Hb'. rewrite Ey, Hb'. f_equal.
    apply Z.mod_small, Hb.
  - replace (p + Z.of_nat (S i)) with (p + 1 + Z.of_nat i) by lia.
    apply IH; [lia|lia| |done]. by replace (8 * (p + 1)) with (8 * p + 8) by lia.
Qed.

(** The frame number. *)
Lemma number_read gb v bytes p l : 0 <= v < 2 ^ 31 -> PUT_UTF8 v = Some bytes ->
  gb_index gb = 8 * p -> 8 <= width l -> ready gb (flat_map byte_code bytes ++ l) ->
  get_utf8 gb = Some (v, SKIP_COUNTER gb (8 * zlen bytes)) /\
  ready (SKIP_COUNTER gb (8 * zlen bytes)) l.
Proof.
  intros Hv Hput Hp Hw Hrd. pose proof (byte_codes_width bytes) as Hbw.
  destruct (PUT_UTF8_bytes v Hv) as (bytes'&Hput'&Hlen&Hok). rewrite Hput in Hput'.
  injection Hput' as <-. pose proof Hrd as [Hgb Hwr Hroom]. rewrite width_app, Hbw in Hroom.
  pose proof Hgb as [Hbuf Hi]. split.
  - unfold get_utf8. rewrite (utf8_read v bytes gb p Hv Hput Hgb Hp); [done| |zdiv].
    apply written_app in Hwr as [Hwr _]. rewrite Hp in Hwr.
    apply written_bytes; [done|done|lia|zdiv|done].
  - rewrite <- Hbw. apply ready_app; [lia|done].
Qed.

(** The tables of the code hold these values. *)
Lemma blocksize_entry c v : blocksize_code c [] v -> aget ff_flac_blocksize_table c = Some v /\ 1 <= c < 15 /\ c <> 6 /\ c <> 7.
Proof.
  intros H. inversion H as [|c' Hc|c' Hc| |]; subst; [done| |].
  - assert (c = 2 \/ c = 3 \/ c = 4 \/ c = 5) as [-> |[-> |[-> | ->]]] by lia; done.
  - assert (c = 8 \/ c = 9 \/ c = 10 \/ c = 11 \/ c = 12 \/ c = 13 \/ c = 14) as [-> |[-> |[-> |[-> |[-> |[-> | ->]]]]]] by lia; done.
Qed.

Lemma samplerate_entry c v : (c, v) ∈ standard_rates -> aget ff_flac_sample_rate_table c = Some v /\ 0 <= c < 12.
Proof.
  assert (Forall (fun p => aget ff_flac_sample_rate_table p.1 = Some p.2 /\ 0 <= p.1 < 12) standard_rates) as H by (repeat constructor; done).
  intros Hin. rewrite Forall_forall in H. by apply (H (c, v)).
Qed.

Lemma samplesize_entry c v : (c, v) ∈ standard_sizes -> aget sample_size_table c = Some v /\ 0 <= c < 8 /\ c <> 3 /\ c <> 7.
Proof.
  assert (Forall (fun p => aget sample_size_table p.1 = Some p.2 /\ 0 <= p.1 < 8 /\ p.1 <> 3 /\ p.1 <> 7) standard_sizes) as H by (repeat constructor; done).
  intros Hin. rewrite Forall_forall in H. by apply (H (c, v)).
Qed.

Lemma channels_entry c mode n : channels_code c mode n -> channel_mode c = Some (mode, n) /\ 0 <= c < 16.
Proof.
  intros [n' Hn| | |]; [|done..]. unfold channel_mode, FLAC_MAX_CHANNELS. rewrite (proj2 (Z.ltb_lt (n' - 1) 8)) by lia. split; [do 2 f_equal; lia|lia].
Qed.

Lemma blocksize_range c l v : blocksize_code c l v -> 1 <= c < 16.
Proof. intros []; lia. Qed.

Lemma samplerate_range c l v : samplerate_code c l v -> 0 <= c < 16.
Proof. intros [c' v' Hin| | |]; [pose proof (samplerate_entry _ _ Hin)|..]; lia. Qed.

Lemma blocksize_read gb c ext v l : blocksize_code c ext v -> 0 <= width l ->
  ready gb (ext ++ l) ->
  header_blocksize gb c = Some (Some v, SKIP_COUNTER gb (width ext)) /\
  ready (SKIP_COUNTER gb (width ext)) l.
Proof.
  intros Hc Hw Hrd. assert (ext = [] -> header_blocksize gb c = Some (Some v, gb)) as Htab.
  { intros ->. destruct (blocksize_entry c v Hc) as (E&?&?&?). unfold header_blocksize.
    rewrite (proj2 (Z.eqb_neq c 0)), (proj2 (Z.eqb_neq c 6)), (proj2 (Z.eqb_neq c 7)) by lia. by rewrite E. }
  destruct Hc as [|c Hc|c Hc|v' Hv|v' Hv]; [(rewrite Htab by done; change (width []) with 0; by rewrite SKIP_0)..| |]; unfold header_blocksize.
  - apply ready_get_bits in Hrd as [E Hrd]; [|lia|change (2 ^ 8) with 256; lia|done].
    change (6 =? 0) with false. change (6 =? 6) with true. cbv iota. rewrite E.
    cbn [mbind option_bind]. replace (v' - 1 + 1) with v' by lia. done.
  - apply ready_get_bits in Hrd as [E Hrd]; [|lia|change (2 ^ 16) with 65536; lia|done].
    change (7 =? 0) with false. change (7 =? 6) with false. change (7 =? 7) with true.
    cbv iota. rewrite E. cbn [mbind option_bind]. replace (v' - 1 + 1) with v' by lia. done.
Qed.

Lemma samplerate_read gb c ext v l : samplerate_code c ext v -> 0 <= width l ->
  ready gb (ext ++ l) ->
  header_samplerate gb c = Some (Some v, SKIP_COUNTER gb (width ext)) /\
  ready (SKIP_COUNTER gb (width ext)) l.
Proof.
  intros [c' v' Hin|v' Hv|v' Hv|v' Hv] Hw Hrd; unfold header_samplerate.
  - destruct (samplerate_entry _ _ Hin) as [E Hc]. rewrite (proj2 (Z.ltb_lt c' 12)) by lia. rewrite E. change (width []) with 0.
    by rewrite SKIP_0.
  - apply ready_get_bits in Hrd as [E Hrd]; [|lia|change (2 ^ 8) with 256; lia|done].
    simpl (12 <? 12). simpl (12 =? 12). cbv iota. by rewrite E.
  - apply ready_get_bits in Hrd as [E Hrd]; [|lia|change (2 ^ 16) with 65536; lia|done].
    simpl (13 <? 12). simpl (13 =? 12). simpl (13 =? 13). cbv iota. by rewrite E.
  - apply ready_get_bits in Hrd as [E Hrd]; [|lia|change (2 ^ 16) with 65536; lia|done].
    simpl (14 <? 12). simpl (14 =? 12). simpl (14 =? 13). simpl (14 =? 14). cbv iota.
    by rewrite E.
Qed.

Lemma ready_skip_bits gb n v l : 1 <= n -> 0 <= width l -> ready gb ((n, v) :: l) ->
  skip_bits gb n = Some (SKIP_COUNTER gb n) /\ ready (SKIP_COUNTER gb n) l.
Proof.
  intros Hn Hw Hrd. split.
  - apply skip_bits_spec; [by destruct Hrd|]. apply (ready_cache gb ((n, v) :: l)); [|done].
    rewrite width_cons. lia.
  - pose proof (ready_app gb [(n, v)] l) as H. rewrite width_cons in H.
    change (width []) with 0 in H. rewrite Z.add_0_r in H. apply H; [lia|done].
Qed.

Definition header_tail (h : frame_header) : list (Z * Z) :=
  h_bs_ext h ++ h_sr_ext h ++ [(8, h_crc h)].

Lemma header_width h fi : header_ok h fi ->
  exists k, width (header_code h) = 8 * k /\ width (header_tail h) <= 8 * k - 40 /\
            8 <= width (header_tail h) /\
            width (header_code h) = 32 + 8 * zlen (h_utf8 h) + width (header_tail h).
Proof.
  intros [_ Hbs Hsr _ _ Hn Hu _]. unfold header_code.
  destruct (bs_ext_width _ _ _ Hbs) as (k1&E1&?). destruct (sr_ext_width _ _ _ Hsr) as (k2&E2&?).
  destruct (PUT_UTF8_bytes _ Hn) as (bs&Hput&Hl&_). rewrite Hu in Hput. injection Hput as <-.
  assert (width (header_tail h) = 8 * (k1 + k2 + 1)) as Ht.
  { unfold header_tail. rewrite !width_app, E1, E2. change (width [(8, h_crc h)]) with 8. lia. }
  exists (5 + k1 + k2 + zlen (h_utf8 h)). fold (header_tail h).
  rewrite !width_app, byte_codes_width, Ht. cbn [width foldr fst]. lia.
Qed.

(** The code before the frame number is four bytes. *)
Lemma header_start_read gb h fi l : header_ok h fi -> gb_index gb = 0 -> 0 <= width l ->
  ready gb (header_code h ++ l) ->
  get_bits gb 15 = Some (0x7FFC, SKIP_COUNTER gb 15) /\
  skip_bits (SKIP_COUNTER gb 15) 1 = Some (SKIP_COUNTER gb 16) /\
  get_bits (SKIP_COUNTER gb 16) 4 = Some (h_bs h, SKIP_COUNTER gb 20) /\
  get_bits (SKIP_COUNTER gb 20) 4 = Some (h_sr h, SKIP_COUNTER gb 24) /\
  get_bits (SKIP_COUNTER gb 24) 4 = Some (h_ch h, SKIP_COUNTER gb 28) /\
  get_bits (SKIP_COUNTER gb 28) 3 = Some (h_bps h, SKIP_COUNTER gb 31) /\
  get_bits1 (SKIP_COUNTER gb 31) = Some (0, SKIP_COUNTER gb 32) /\
  ready (SKIP_COUNTER gb 32) (flat_map byte_code (h_utf8 h) ++ header_tail h ++ l).
Proof.
  intros Hok H0 Hw Hrd. destruct (header_width h fi Hok) as (k&_&_&Ht&_).
  pose proof Hok as [? Hbs Hsr Hch Hbp _ _ _].
  pose proof (blocksize_range _ _ _ Hbs). pose proof (samplerate_range _ _ _ Hsr).
  destruct (channels_entry _ _ _ Hch) as [_ ?]. destruct (samplesize_entry _ _ Hbp) as (_&?&_).
  unfold header_code in Hrd. fold (header_tail h) in Hrd. rewrite <- !app_assoc in Hrd.
  cbn [app] in Hrd.
  pose proof (byte_codes_width (h_utf8 h)) as Hbw.
  assert (0 <= width (flat_map byte_code (h_utf8 h) ++ header_tail h ++ l))
    by (rewrite !width_app; lia).
  apply ready_get_bits in Hrd as [E1 Hrd]; [|lia|change (2 ^ 15) with 32768; lia|rewrite !width_cons; lia].
  apply ready_skip_bits in Hrd as [E2 Hrd]; [|lia|rewrite !width_cons; lia].
  apply ready_get_bits in Hrd as [E3 Hrd]; [|lia|change (2 ^ 4) with 16; lia|rewrite !width_cons; lia].
  apply ready_get_bits in Hrd as [E4 Hrd]; [|lia|change (2 ^ 4) with 16; lia|rewrite !width_cons; lia].
  apply ready_get_bits in Hrd as [E5 Hrd]; [|lia|change (2 ^ 4) with 16; lia|rewrite !width_cons; lia].
  apply ready_get_bits in Hrd as [E6 Hrd]; [|lia|change (2 ^ 3) with 8; lia|rewrite !width_cons; lia].
  apply ready_get_bits1 in Hrd as [E7 Hrd]; [|lia|lia].
  rewrite !SKIP_SKIP in *. done.
Qed.

Lemma header_read addr gb tab h fi l : header_ok h fi -> gb_index gb = 0 -> 0 <= width l ->
  crc8_state tab -> ready gb (header_code h ++ l) ->
  crc8 (take (Z.to_nat (width (header_code h) / 8)) (gb_buffer gb)) 0 = 0 ->
  exists tab', decode_frame_header addr gb tab
      = Some (Some fi, SKIP_COUNTER gb (width (header_code h)), tab') /\
    crc8_state tab' /\ ready (SKIP_COUNTER gb (width (header_code h))) l.
Proof.
  intros Hok H0 Hw Hst Hrd Hcrc.
  destruct (header_width h fi Hok) as (k&Hhw&Hk&Ht&Hsum).
  destruct (header_start_read gb h fi l Hok H0 Hw Hrd) as (E1&E2&E3&E4&E5&E6&E7&Hrd8).
  pose proof Hok as [_ Hbs Hsr [Hch _]%channels_entry (Hbp&_&Hb3&Hb7)%samplesize_entry Hn Hu Hc].
  assert (Hsplit : ready gb (header_code h ++ l)) by done.
  apply ready_app in Hsplit as Hrest; [|lia].
  destruct (number_read (SKIP_COUNTER gb 32) _ _ 4 (header_tail h ++ l) Hn Hu)
    as [E8 Hrd9]; [cbn [SKIP_COUNTER gb_index]; lia|rewrite width_app; lia|done|].
  rewrite SKIP_SKIP in E8, Hrd9. unfold header_tail in Hrd9. rewrite <- !app_assoc in Hrd9.
  destruct (sr_ext_width _ _ _ Hsr) as (k2&Ek2&?). destruct (bs_ext_width _ _ _ Hbs) as (k1&Ek1&?).
  eapply blocksize_read in Hrd9 as [E9 Hrd10]; [|exact Hbs|].
  2: { rewrite !width_app. change (width [(8, h_crc h)]) with 8. lia. }
  eapply samplerate_read in Hrd10 as [E10 Hrd11]; [|exact Hsr|].
  2: { rewrite !width_app. change (width [(8, h_crc h)]) with 8. lia. }
  cbn [app] in Hrd11.
  apply ready_skip_bits in Hrd11 as [E11 _]; [|lia|done].
  destruct (crc8_get_table tab Hst) as (tab'&E12&Hl'&Hone&Htab).
  exists tab'. split; [|by split; [split; [done|by right]|]].
  unfold decode_frame_header.
  rewrite E1. cbn [mbind option_bind]. change (negb (32764 .& 32767 =? 32764)) with false. cbv iota.
  rewrite E2. cbn [mbind option_bind]. rewrite E3. cbn [mbind option_bind].
  rewrite E4. cbn [mbind option_bind]. rewrite E5. cbn [mbind option_bind]. rewrite Hch.
  rewrite E6. cbn [mbind option_bind].
  rewrite (proj2 (Z.eqb_neq _ 3)), (proj2 (Z.eqb_neq _ 7)) by done. cbn [orb].
  rewrite Hbp. cbn [mbind option_bind]. rewrite E7. cbn [mbind option_bind].
  change (negb (0 =? 0)) with false. cbv iota. rewrite E8. cbn [mbind option_bind].
  rewrite (proj2 (Z.ltb_ge (h_number h) 0)) by lia. rewrite E9. cbn [mbind option_bind].
  rewrite E10. cbn [mbind option_bind]. rewrite E11. cbn [mbind option_bind].
  rewrite E12. cbn [mbind option_bind].
  set (n := width (header_code h)) in *.
  rewrite !SKIP_SKIP. match goal with |- context [SKIP_COUNTER gb ?e] => replace e with n end.
  2: { rewrite Hsum. unfold header_tail. rewrite !width_app. change (width [(8, h_crc h)]) with 8. lia. }
  unfold get_bits_count. cbn [SKIP_COUNTER gb_index gb_buffer]. rewrite H0, Z.add_0_l.
  replace (n ÷ 8) with (n / 8) by (rewrite Z.quot_div_nonneg by lia; done).
  set (m := Z.to_nat (n / 8)) in *.
  assert (n / 8 = zlen (take m (gb_buffer gb))) as ->.
  { rewrite length_take. destruct Hrd as [_ _ Hroom]. rewrite width_app in Hroom.
    fold n in Hroom. subst m. rewrite H0 in Hroom. zdiv. }
  rewrite <- (take_drop m (gb_buffer gb)) at 1.
  destruct Hrd as [[Hbuf _] _ _].
  rewrite av_crc8_read by (done || by apply Forall_take).
  cbn [mbind option_bind]. rewrite Hcrc. change (negb (0 =? 0)) with false. cbv iota.
  by destruct fi.
Qed.

(** ** Frames *)

Record coded_subframe := MkSubframe {
  sf_type : Z; sf_wasted : Z; sf_body : list (Z * Z); sf_samples : list Z
}.

Definition sf_code (sf : coded_subframe) : list (Z * Z) :=
  subframe_code (sf_type sf) (sf_wasted sf) (sf_body sf).

Definition sf_out (sf : coded_subframe) : list Z := shift_all (sf_wasted sf) (sf_samples sf).

Record sf_ok (bps mode i n : Z) (sf : coded_subframe) : Prop := SfOk {
  so_wasted : 0 <= sf_wasted sf < 32;
  so_bps : 1 <= subframe_bps bps mode i - sf_wasted sf <= 32;
  so_body : body_code bps (subframe_bps bps mode i - sf_wasted sf) (sf_type sf) (sf_body sf)
              (sf_samples sf);
  so_length : zlen (sf_samples sf) = n
}.

(** Padding to a byte boundary. *)
Definition pad_code (n : Z) : list (Z * Z) :=
  if (- n) mod 8 =? 0 then [] else [((- n) mod 8, 0)].

Definition frame_code (h : frame_header) (sfs : list coded_subframe) (crc : Z)
    : list (Z * Z) :=
  header_code h ++ flat_map sf_code sfs ++
  pad_code (width (header_code h ++ flat_map sf_code sfs)) ++ [(16, crc)].

(** Buffers for the announced block size, and the CRC-8 table. *)
Record decoder_ready (s : FLACContext) : Prop := DecoderReady {
  dr_buffers : forall i, 0 <= i < channels (info s) ->
    exists d, aget (decoded s) i = Some d /\ max_blocksize (info s) <= zlen d;
  dr_crc : crc8_state (crc8_table s)
}.

Lemma sf_code_width bps mode i n sf : sf_ok bps mode i n sf -> 0 <= width (sf_code sf).
Proof.
  intros [Hw Hcb Hb _]. unfold sf_code.
  rewrite (subframe_code_width bps _ _ _ _ _ (proj1 Hcb) (proj1 Hw) Hb).
  pose proof (body_width _ _ _ _ _ (proj1 Hcb) Hb). lia.
Qed.

Lemma sf_out_length bps mode i n sf : sf_ok bps mode i n sf -> zlen (sf_out sf) = n.
Proof.
  intros [_ _ _ <-]. unfold sf_out, shift_all. case_test; [done|]. by rewrite length_map.
Qed.

(** The subframes from number [j] on. *)
Definition sfs_ok (bps mode n j : Z) (sfs : list coded_subframe) : Prop :=
  forall i sf, sfs !! i = Some sf -> sf_ok bps mode (j + Z.of_nat i) n sf.

Lemma sfs_ok_cons bps mode n j sf sfs : sfs_ok bps mode n j (sf :: sfs) ->
  sf_ok bps mode j n sf /\ sfs_ok bps mode n (j + 1) sfs.
Proof.
  intros H. split.
  - specialize (H O sf eq_refl). by rewrite Z.add_0_r in H.
  - intros i sf' Hi. specialize (H (S i) sf' Hi).
    by replace (j + 1 + Z.of_nat i) with (j + Z.of_nat (S i)) by lia.
Qed.

Lemma sfs_width bps mode n j sfs : sfs_ok bps mode n j sfs -> 0 <= width (flat_map sf_code sfs).
Proof.
  revert j. induction sfs as [|sf sfs IH]; intros j H; [done|].
  apply sfs_ok_cons in H as [H1 H2]. cbn [flat_map]. rewrite width_app.
  apply IH in H2. apply sf_code_width in H1. lia.
Qed.

(** The channel buffers after the subframes from [j] on. *)
Record channels_hold (j : Z) (sfs : list coded_subframe) (d d' : list (list Z)) : Prop :=
  ChannelsHold {
  ch_len : length d' = length d;
  ch_before : forall k, 0 <= k < j -> aget d' k = aget d k;
  ch_held : forall i sf, sfs !! i = Some sf -> exists old,
    aget d (j + Z.of_nat i) = Some old /\
    aget d' (j + Z.of_nat i) = Some (sf_out sf ++ drop (length (sf_samples sf)) old)
}.

Lemma subframes_read sfs j s l : 0 <= j ->
  sfs_ok (bps (info s)) (ch_mode s) (blocksize s) j sfs ->
  (forall i, j <= i < j + zlen sfs -> exists d, aget (decoded s) i = Some d /\
     blocksize s <= zlen d) ->
  0 <= width l -> ready (gb s) (flat_map sf_code sfs ++ l) ->
  exists cb d', for_loop (length sfs) j subframe_step (0, s) =
      Some (0, set_curr_bps (set_decoded
        (set_gb s (SKIP_COUNTER (gb s) (width (flat_map sf_code sfs)))) d') cb) /\
    channels_hold j sfs (decoded s) d' /\
    ready (SKIP_COUNTER (gb s) (width (flat_map sf_code sfs))) l.
Proof.
  revert j s. induction sfs as [|sf sfs IH]; intros j s Hj Hok Hbuf Hw Hrd.
  { exists (curr_bps s), (decoded s). cbn [flat_map app length]. change (width []) with 0.
    rewrite SKIP_0. split; [by destruct s|]. split; [|done]. by split. }
  apply sfs_ok_cons in Hok as [[Hwst Hcb Hbody Hlen] Hoks].
  pose proof (sfs_width _ _ _ _ _ Hoks) as Hsw.
  cbn [flat_map] in *. rewrite <- app_assoc in Hrd. rewrite width_app.
  destruct (Hbuf j) as (d0&Ed&Hd); [cbn [length]; lia|].
  cbn [length]. rewrite for_loop_S.
  change (subframe_step j (0, s)) with
    (if 0 <? 0 then Some (0, s) else
     dec ← aget (decoded s) j;
     '(ret, bps', g, dec) ←
       decode_subframe (gb s) dec (blocksize s) (bps (info s)) (ch_mode s) j;
     d ← aset (decoded s) j dec;
     Some (ret, set_curr_bps (set_decoded (set_gb s g) d) bps')).
  change (0 <? 0) with false. cbv iota. rewrite Ed. cbn [mbind option_bind].
  destruct (subframe_read (gb s) d0 (bps (info s)) (ch_mode s) j (sf_type sf) (sf_wasted sf)
    (sf_body sf) (sf_samples sf) (flat_map sf_code sfs ++ l)) as [E Hrd'];
    [done|done|done|lia|rewrite width_app; lia|done|].
  rewrite <- Hlen, E. fold (sf_code sf) in *. cbn [mbind option_bind].
  pose proof (aget_inv _ _ _ Ed) as Hjl. rewrite aset_Some by lia. cbn [mbind option_bind].
  set (d1 := <[Z.to_nat j := _]> (decoded s)).
  set (cb := subframe_bps _ _ _ - _).
  set (s1 := set_curr_bps _ _).
  destruct (IH (j + 1) s1) as (cb'&d'&E'&[Hl' Hb' Hh']&Hrd''); [lia|done| |done|done|].
  { intros i Hi. unfold s1, d1. cbn [decoded set_curr_bps set_decoded blocksize set_gb].
    rewrite aget_insert_ne by lia. apply Hbuf. cbn [length]. lia. }
  rewrite E'. exists cb', d'. unfold s1 in *.
  cbn [gb decoded set_curr_bps set_decoded set_gb blocksize ch_mode info] in *.
  rewrite SKIP_SKIP in *. split; [done|]. split; [|done].
  assert (forall k, k <> j -> 0 <= k -> aget d1 k = aget (decoded s) k) as Hne.
  { intros k Hk Hk0. unfold d1. by rewrite aget_insert_ne by lia. }
  split.
  - rewrite Hl'. unfold d1. apply length_insert.
  - intros k Hk. rewrite Hb' by lia. apply Hne; lia.
  - intros [|i] sf' Hi; simpl in Hi.
    + injection Hi as <-. rewrite Z.add_0_r. exists d0. split; [done|].
      rewrite Hb' by lia. unfold d1. by rewrite aget_insert_eq by lia.
    + destruct (Hh' i sf' Hi) as (old&Eo&En). exists old.
      replace (j + 1 + Z.of_nat i) with (j + Z.of_nat (S i)) in * by lia.
      split; [|done]. rewrite <- Eo. symmetry. apply Hne; lia.
Qed.

Lemma pad_width n : 0 <= width (pad_code n) < 8 /\ (n + width (pad_code n)) mod 8 = 0 /\
  width (pad_code n) = (- n) mod 8.
Proof.
  assert (width (pad_code n) = (- n) mod 8) as ->.
  { unfold pad_code. case_test; zbool; [by rewrite Heqb|]. apply Z.add_0_r. }
  split; [zdiv|]. split; [|done]. zdiv.
Qed.

Lemma align_read gb n l : gb_index gb = n -> 8 <= width l -> ready gb (pad_code n ++ l) ->
  align_get_bits gb = Some (SKIP_COUNTER gb (width (pad_code n))) /\
  ready (SKIP_COUNTER gb (width (pad_code n))) l.
Proof.
  intros Hi Hw Hrd. unfold align_get_bits, get_bits_count. rewrite Hi.
  destruct (pad_width n) as (Hp&_&Epw).
  assert ((- n) .& 7 = width (pad_code n)) as ->.
  { rewrite Epw. change 7 with (Z.ones 3). by rewrite Z.land_ones. }
  unfold pad_code in *. destruct (Z.eqb_spec ((- n) mod 8) 0) as [E|E].
  - change (width []) with 0. rewrite SKIP_0. done.
  - rewrite width_cons in *. change (width []) with 0 in *. rewrite Z.add_0_r in *.
    cbn [app] in Hrd. rewrite (proj2 (Z.eqb_neq _ 0)) by done. cbn [negb].
    apply (ready_skip_bits _ _ 0); [zdiv|lia|done].
Qed.

(** The context after a frame. *)
Record frame_decoded (s s' : FLACContext) (fi : FLACFrameInfo) (sfs : list coded_subframe)
    : Prop := FrameDecoded {
  fd_channels : channels (info s') = channels (info s);
  fd_bps : bps (info s') = bps (info s);
  fd_max : max_blocksize (info s') = max_blocksize (info s);
  fd_maxf : max_framesize (info s') = max_framesize (info s);
  fd_blocksize : blocksize s' = fi_blocksize fi;
  fd_mode : ch_mode s' = fi_ch_mode fi;
  fd_shift : sample_shift s' = 16 - bps (info s);
  fd_is32 : is32 s' = false;
  fd_size : bitstream_size s' = bitstream_size s;
  fd_hold : channels_hold 0 sfs (decoded s) (decoded s');
  fd_crc : crc8_state (crc8_table s')
}.

(** The frame matches the stream information. *)
Record frame_fits (s : FLACContext) (fi : FLACFrameInfo) (sfs : list coded_subframe) : Prop :=
  FrameFits {
  ff_channels : fi_channels fi = channels (info s);
  ff_count : zlen sfs = channels (info s);
  ff_bps : fi_bps fi = 0 \/ fi_bps fi = bps (info s);
  ff_blocksize : fi_blocksize fi <= max_blocksize (info s);
  ff_subframes : sfs_ok (bps (info s)) (fi_ch_mode fi) (fi_blocksize fi) 0 sfs
}.

Lemma frame_read addr s h fi sfs crc : header_ok h fi -> decoder_ready s ->
  frame_fits s fi sfs -> gb_index (gb s) = 0 -> ready (gb s) (frame_code h sfs crc) ->
  crc8 (take (Z.to_nat (width (header_code h) / 8)) (gb_buffer (gb s))) 0 = 0 ->
  exists s', decode_frame addr s = Some (0, s') /\ frame_decoded s s' fi sfs /\
    gb s' = SKIP_COUNTER (gb s) (width (frame_code h sfs crc)).
Proof.
  intros Hok [Hbufs Hst] [Hch Hcnt Hbp Hbs Hsub] H0 Hrd Hcrc.
  pose proof (sfs_width _ _ _ _ _ Hsub) as Hsw.
  destruct (header_width h fi Hok) as (k&Hk1&Hk2&Hk3&_).
  set (nh := width (header_code h ++ flat_map sf_code sfs)).
  assert (nh = width (header_code h) + width (flat_map sf_code sfs)) as Hnh by apply width_app.
  destruct (pad_width nh) as (Hp&_&_).
  assert (width (frame_code h sfs crc) = nh + width (pad_code nh) + 16) as Hfw.
  { unfold frame_code. fold nh. rewrite !width_app. change (width [(16, crc)]) with 16. lia. }
  unfold frame_code in Hrd. fold nh in Hrd.
  destruct (header_read addr (gb s) (crc8_table s) h fi
    (flat_map sf_code sfs ++ pad_code nh ++ [(16, crc)]) Hok H0)
    as (tab'&E1&Hst'&Hrd1); [|done|done|done|].
  { rewrite !width_app. change (width [(16, crc)]) with 16. lia. }
  unfold decode_frame. rewrite E1. cbn [mbind option_bind].
  cbn [info set_crc8 set_gb]. rewrite (proj2 (Z.eqb_eq (fi_channels fi) _)) by done. cbn [negb].
  cbn [info set_ch_mode set_shift set_blocksize set_info set_avctx set_crc8 set_gb
       max_blocksize set_samplerate channels bps].
  replace (negb (fi_bps fi =? 0) && negb (fi_bps fi =? bps (info s))) with false
    by (destruct Hbp as [-> | ->]; rewrite ?Z.eqb_refl, ?andb_false_r; done).
  rewrite (proj2 (Z.ltb_ge (max_blocksize (info s)) _)) by done.
  set (sr := if fi_samplerate fi =? 0 then samplerate (info s) else fi_samplerate fi).
  set (s1 := set_avctx _ _).
  destruct (subframes_read sfs 0 s1 (pad_code nh ++ [(16, crc)])) as (cb&d'&E2&Hhold&Hrd2);
    [lia|done| | |done|].
  { intros i Hi. destruct (Hbufs i) as (d&Ed&Hd); [lia|]. exists d. split; [done|].
    change (blocksize s1) with (fi_blocksize fi). lia. }
  { rewrite width_app. change (width [(16, crc)]) with 16. lia. }
  unfold for_range. replace (Z.to_nat (channels (info s) - 0)) with (length sfs) by lia.
  rewrite E2. cbn [mbind option_bind]. rewrite (proj2 (Z.ltb_ge 0 0)) by lia.
  cbn [gb set_curr_bps set_decoded set_gb].
  change (gb s1) with (SKIP_COUNTER (gb s) (width (header_code h))) in *.
  rewrite SKIP_SKIP in *. rewrite <- Hnh in *.
  destruct (align_read (SKIP_COUNTER (gb s) nh) nh [(16, crc)]) as [E3 Hrd3];
    [cbn [gb_index SKIP_COUNTER]; lia|done|done|].
  rewrite E3. cbn [mbind option_bind]. rewrite SKIP_SKIP in *.
  apply ready_skip_bits in Hrd3 as [E4 _]; [|lia|done].
  rewrite E4. cbn [mbind option_bind]. eexists. split; [done|]. split; [by split|].
  cbn [gb set_gb]. by rewrite SKIP_SKIP, Hfw.
Qed.

Lemma frame_decoded_ready s s' fi sfs : decoder_ready s -> frame_fits s fi sfs ->
  frame_decoded s s' fi sfs -> 0 <= fi_blocksize fi -> decoder_ready s'.
Proof.
  intros [Hb _] [_ Hcnt _ Hbs Hsub] [Hc _ Hm _ _ _ _ _ _ [Hl _ Hh] Hcrc] H0.
  split; [|done]. rewrite Hc, Hm. intros i Hi.
  destruct (Hb i Hi) as (d&Ed&Hd).
  destruct (lookup_lt_is_Some_2 sfs (Z.to_nat i)) as [sf Esf]; [lia|].
  destruct (Hh (Z.to_nat i) sf Esf) as (old&Eo&En).
  replace (0 + Z.of_nat (Z.to_nat i)) with i in * by lia. rewrite Ed in Eo. injection Eo as <-.
  eexists. split; [done|]. pose proof (Hsub _ _ Esf) as Hsf.
  pose proof (sf_out_length _ _ _ _ _ Hsf). destruct Hsf as [_ _ _ Hsl].
  rewrite length_app, length_drop. lia.
Qed.

(** ** PCM output *)

Definition le16 (v : Z) : list Z := [u16 v mod 256; u16 v / 256].

(** A sample of [bps] bits as 16 bits: [shift] is [16 - bps]. *)
Definition scale (shift v : Z) : Z := if 0 <=? shift then v .<< shift else v .>> (- shift).

Definition pcm (shift : Z) (vs : list Z) : list Z := flat_map (fun v => le16 (scale shift v)) vs.

(** [pre] written over the start of the output buffer. *)
Definition over (pre out : list Z) : list Z := pre ++ drop (length pre) out.

Lemma pcm_app shift a b : pcm shift (a ++ b) = pcm shift a ++ pcm shift b.
Proof. apply flat_map_app. Qed.

Lemma pcm_length shift vs : length (pcm shift vs) = (2 * length vs)%nat.
Proof.
  induction vs as [|v vs IH]; [done|].
  change (pcm shift (v :: vs)) with (le16 (scale shift v) ++ pcm shift vs).
  rewrite length_app, IH. simpl. lia.
Qed.

Lemma put16_next out pre k v : zlen pre = 2 * k -> zlen pre + 2 <= zlen out ->
  put16 (over pre out) k v = Some (over (pre ++ le16 v) out).
Proof.
  intros Hk Hl. unfold put16, over. fold (le16 v).
  replace (length pre) with (Z.to_nat (2 * k)) by lia.
  rewrite ablit_app by (simpl; lia). rewrite length_app.
  by replace (Z.to_nat (2 * k)) with (length pre) by lia.
Qed.

Lemma put_sample_next shift out vs v k : k = zlen vs -> 2 * (k + 1) <= zlen out ->
  put_sample false shift (over (pcm shift vs) out) k v
    = Some (over (pcm shift (vs ++ [v])) out).
Proof.
  intros -> Hl. pose proof (pcm_length shift vs) as Hp. unfold put_sample.
  rewrite pcm_app. change (pcm shift [v]) with (le16 (scale shift v) ++ []).
  rewrite app_nil_r. unfold scale. destruct (0 <=? shift).
  - rewrite put16_next by lia.
    assert (le16 (s32 (v .<< shift)) = le16 (v .<< shift)) as ->; [|done].
    unfold le16. assert (u16 (s32 (v .<< shift)) = u16 (v .<< shift)) as ->; [|done].
    unfold wrapu, wraps. change (2 ^ 16) with 65536. change (2 ^ 32) with 4294967296.
    change (2 ^ (32 - 1)) with 2147483648. zdiv.
  - by rewrite put16_next by lia.
Qed.

(** Interleaved samples, [f j] those of instant [j]. *)
Definition instants (f : Z -> list Z) (n : Z) : list Z := flat_map f (seqZ 0 n).

Lemma instants_succ f n : 0 <= n -> instants f (n + 1) = instants f n ++ f n.
Proof.
  intros Hn. unfold instants. rewrite seqZ_app, flat_map_app by lia.
  rewrite Z.add_0_l. change (seqZ n 1) with [0 + n]. cbn [flat_map].
  by rewrite Z.add_0_l, app_nil_r.
Qed.

Lemma instants_length f c n : 0 <= n -> (forall j, zlen (f j) = c) -> zlen (instants f n) = c * n.
Proof.
  intros Hn Hf. unfold instants. assert (forall l, zlen (flat_map f l) = c * zlen l) as H.
  { induction l as [|x l IH]; [simpl; lia|]. cbn [flat_map length]. rewrite length_app.
    rewrite Nat2Z.inj_add, Hf, IH, Nat2Z.inj_succ. ring. }
  rewrite H, length_seqZ. by rewrite Z2Nat.id by lia.
Qed.

(** A loop that writes the samples of one instant per iteration. *)
Lemma output_loop shift f c n body out : 0 <= n -> (forall j, zlen (f j) = c) ->
  2 * (c * n) <= zlen out -> 0 <= c ->
  (forall j, 0 <= j < n -> body j (over (pcm shift (instants f j)) out)
     = Some (over (pcm shift (instants f j ++ f j)) out)) ->
  for_range 0 n body out = Some (over (pcm shift (instants f n)) out).
Proof.
  intros Hn Hf Hl Hc Hbody.
  destruct (for_range_inv (fun j o => o = over (pcm shift (instants f j)) out) 0 n body out)
    as (o&E&->); [lia|done| |done].
  intros j o Hj ->. rewrite Hbody by done. eexists. split; [done|].
  by rewrite instants_succ by lia.
Qed.

(** The two samples of one instant. *)
Lemma put_pair shift f out j l r : (forall j, zlen (f j) = 2) -> f j = [l; r] ->
  0 <= j -> 2 * (2 * (j + 1)) <= zlen out ->
  (out ← put_sample false shift (over (pcm shift (instants f j)) out) (2 * j) l;
   put_sample false shift out (2 * j + 1) r)
  = Some (over (pcm shift (instants f j ++ f j)) out).
Proof.
  intros Hf E Hj Hl. pose proof (instants_length f 2 j Hj Hf) as Hi.
  rewrite put_sample_next by lia. cbn [mbind option_bind].
  rewrite put_sample_next by (rewrite ?length_app; simpl length; lia).
  rewrite E, <- app_assoc. done.
Qed.

(** ** Stereo decorrelation *)

(** The two channels an encoder stores for a left and a right channel. *)
Definition stereo_encode (mode : Z) (l r : list Z) : list Z * list Z :=
  if mode =? FLAC_CHMODE_LEFT_SIDE then (l, zip_with Z.sub l r)
  else if mode =? FLAC_CHMODE_RIGHT_SIDE then (zip_with Z.sub l r, r)
  else if mode =? FLAC_CHMODE_MID_SIDE then
    (zip_with (fun a b => (a + b) .>> 1) l r, zip_with Z.sub l r)
  else (l, r).

Definition stereo_frames (l r : list Z) (j : Z) : list Z := [samp l j; samp r j].

Lemma samp_zip_with f l r j : length l = length r -> 0 <= j < zlen l ->
  samp (zip_with f l r) j = f (samp l j) (samp r j).
Proof.
  intros Hl Hj. unfold samp. rewrite !aget_lookup, lookup_zip_with by lia.
  destruct (lookup_lt_is_Some_2 l (Z.to_nat j)) as [x ->]; [lia|].
  destruct (lookup_lt_is_Some_2 r (Z.to_nat j)) as [y ->]; [lia|]. done.
Qed.

(** Each decorrelation undoes its encoding. *)
Lemma left_side_spec l r : s32_ok l -> s32_ok r -> left_side l (l - r) = (l, r).
Proof. intros. unfold left_side. f_equal. rewrite s32_id; [lia|]. by replace (l - (l - r)) with r by lia. Qed.

Lemma right_side_spec l r : s32_ok l -> s32_ok r -> right_side (l - r) r = (l, r).
Proof. intros. unfold right_side. f_equal. rewrite s32_id; [lia|]. by replace (l - r + r) with l by lia. Qed.

Lemma mid_side_spec l r : s32_ok l -> s32_ok r -> mid_side ((l + r) .>> 1) (l - r) = (l, r).
Proof.
  intros. unfold mid_side. rewrite !Z.shiftr_div_pow2 by lia. change (2 ^ 1) with 2.
  replace ((l + r) / 2 - (l - r) / 2) with r by zdiv. rewrite (s32_id r) by done.
  replace (r + (l - r)) with l by lia. by rewrite (s32_id l).
Qed.

(** The decoded channels [c0] and [c1]. *)
Definition holds (s : FLACContext) (i : Z) (c : list Z) : Prop :=
  exists rest, aget (decoded s) i = Some (c ++ rest).

Lemma holds_get s i c j : holds s i c -> 0 <= j < zlen c ->
  exists d, aget (decoded s) i = Some d /\ aget d j = Some (samp c j).
Proof.
  intros [rest E] Hj. exists (c ++ rest). split; [done|].
  rewrite <- samp_get by done. rewrite !aget_lookup by lia. by rewrite lookup_app_l by lia.
Qed.

Lemma decorrelate_spec g s out l r : is32 s = false -> length l = length r ->
  blocksize s = zlen l -> 4 * zlen l <= zlen out -> 
  (forall j, 0 <= j < zlen l -> exists c0 c1 a b, aget (decoded s) 0 = Some c0 /\
     aget (decoded s) 1 = Some c1 /\ aget c0 j = Some a /\ aget c1 j = Some b /\
     g a b = (samp l j, samp r j)) ->
  decorrelate g s out
    = Some (over (pcm (sample_shift s) (instants (stereo_frames l r) (zlen l))) out).
Proof.
  intros H32 Hlr Hbs Hout Hg. unfold decorrelate. rewrite H32, Hbs.
  apply (output_loop _ _ 2); [lia|done|lia|lia|]. intros j Hj.
  destruct (Hg j Hj) as (c0&c1&a&b&E0&E1&Ea&Eb&Eg).
  rewrite E0. cbn [mbind option_bind]. rewrite Ea. cbn [mbind option_bind].
  rewrite E1. cbn [mbind option_bind]. rewrite Eb. cbn [mbind option_bind]. rewrite Eg.
  apply put_pair; [done|done|lia|lia].
Qed.

Lemma interleave_mono s out x : is32 s = false -> channels (info s) = 1 ->
  blocksize s = zlen x -> 2 * zlen x <= zlen out -> holds s 0 x ->
  interleave s out = Some (over (pcm (sample_shift s) (instants (fun j => [samp x j]) (zlen x))) out).
Proof.
  intros H32 Hch Hbs Hout Hx. unfold interleave. rewrite H32, Hch, Hbs.
  apply (output_loop _ _ 1); [lia|done|lia|lia|]. intros j Hj.
  rewrite for_range_step by lia. destruct (holds_get s 0 x j Hx Hj) as (d&E&Ev).
  rewrite E. cbn [mbind option_bind]. rewrite Ev. cbn [mbind option_bind].
  pose proof (instants_length (fun j => [samp x j]) 1 j ltac:(lia) ltac:(done)).
  rewrite put_sample_next by lia. cbn [mbind option_bind]. by rewrite for_range_empty by lia.
Qed.

Lemma interleave_stereo s out l r : is32 s = false -> channels (info s) = 2 ->
  length l = length r -> blocksize s = zlen l -> 4 * zlen l <= zlen out ->
  holds s 0 l -> holds s 1 r ->
  interleave s out
    = Some (over (pcm (sample_shift s) (instants (stereo_frames l r) (zlen l))) out).
Proof.
  intros H32 Hch Hlr Hbs Hout Hl Hr. unfold interleave. rewrite H32, Hch, Hbs.
  apply (output_loop _ _ 2); [lia|done|lia|lia|]. intros j Hj.
  destruct (holds_get s 0 l j Hl Hj) as (d0&E0&Ev0).
  destruct (holds_get s 1 r j Hr ltac:(lia)) as (d1&E1&Ev1).
  pose proof (instants_length (stereo_frames l r) 2 j ltac:(lia) ltac:(done)).
  rewrite for_range_step by lia. rewrite E0. cbn [mbind option_bind]. rewrite Ev0.
  cbn [mbind option_bind]. rewrite put_sample_next by lia. cbn [mbind option_bind].
  rewrite for_range_step by lia. change (0 + 1) with 1. rewrite E1. cbn [mbind option_bind]. rewrite Ev1.
  cbn [mbind option_bind]. rewrite put_sample_next by (rewrite ?length_app; simpl length; lia).
  cbn [mbind option_bind]. rewrite for_range_empty by lia. by rewrite <- app_assoc.
Qed.

(** The output of one decoded stereo frame, in each of the four modes. *)
Lemma stereo_output s out l r : is32 s = false -> channels (info s) = 2 ->
  ch_mode s = 0 \/ 8 <= ch_mode s <= 10 -> length l = length r -> blocksize s = zlen l ->
  4 * zlen l <= zlen out -> Forall s32_ok l -> Forall s32_ok r ->
  holds s 0 (stereo_encode (ch_mode s) l r).1 -> holds s 1 (stereo_encode (ch_mode s) l r).2 ->
  write_output s out
    = Some (over (pcm (sample_shift s) (instants (stereo_frames l r) (zlen l))) out).
Proof.
  intros H32 Hch Hm Hlr Hbs Hout Hl Hr H0 H1. unfold write_output, stereo_encode in *.
  assert (ch_mode s = 0 \/ ch_mode s = 8 \/ ch_mode s = 9 \/ ch_mode s = 10) as Hm' by lia.
  assert (zlen (zip_with Z.sub l r) = zlen l) as Hzl by (rewrite length_zip_with; lia).
  destruct Hm' as [E|[E|[E|E]]]; rewrite E in *; cbn -[decorrelate interleave] in *.
  - rewrite Hch. simpl (2 <=? 2). cbv iota. by apply interleave_stereo.
  - apply decorrelate_spec; [done..|]. intros j Hj.
    destruct (holds_get _ _ _ j H0 Hj) as (d0&E0&Ev0).
    destruct (holds_get _ _ _ j H1 ltac:(lia)) as (d1&E1&Ev1).
    rewrite samp_zip_with in Ev1 by done. exists d0, d1, (samp l j), (samp l j - samp r j).
    do 4 (split; [done|]). apply left_side_spec; by apply samp_ok.
  - apply decorrelate_spec; [done..|]. intros j Hj.
    destruct (holds_get _ _ _ j H0 ltac:(lia)) as (d0&E0&Ev0).
    destruct (holds_get _ _ _ j H1 ltac:(lia)) as (d1&E1&Ev1).
    rewrite samp_zip_with in Ev0 by done. exists d0, d1, (samp l j - samp r j), (samp r j).
    do 4 (split; [done|]). apply right_side_spec; by apply samp_ok.
  - apply decorrelate_spec; [done..|]. intros j Hj.
    destruct (holds_get _ _ _ j H0 ltac:(rewrite length_zip_with; lia)) as (d0&E0&Ev0).
    destruct (holds_get _ _ _ j H1 ltac:(lia)) as (d1&E1&Ev1).
    rewrite samp_zip_with in Ev0, Ev1 by done.
    exists d0, d1, ((samp l j + samp r j) .>> 1), (samp l j - samp r j).
    do 4 (split; [done|]). apply mid_side_spec; by apply samp_ok.
Qed.

(** ** A whole call *)

(** The stored channels of a mode and the samples of each instant. *)
Inductive coded_channels (n : Z) : Z -> list (list Z) -> (Z -> list Z) -> Prop :=
| coded_mono x : zlen x = n -> coded_channels n 0 [x] (fun j => [samp x j])
| coded_stereo mode l r : mode = 0 \/ 8 <= mode <= 10 -> zlen l = n -> zlen r = n ->
    Forall s32_ok l -> Forall s32_ok r ->
    coded_channels n mode [(stereo_encode mode l r).1; (stereo_encode mode l r).2]
      (stereo_frames l r).

Lemma frame_holds s s' fi sfs i c : frame_decoded s s' fi sfs ->
  map sf_out sfs !! i = Some c -> holds s' (Z.of_nat i) c.
Proof.
  intros H Hc. rewrite list_lookup_fmap in Hc. apply fmap_Some in Hc as (sf&Esf&->).
  destruct (ch_held _ _ _ _ (fd_hold _ _ _ _ H) i sf Esf) as (old&_&E).
  eexists. by rewrite Z.add_0_l in E.
Qed.

Lemma coded_output n mode stored f s s' fi sfs out : coded_channels n mode stored f ->
  frame_decoded s s' fi sfs -> map sf_out sfs = stored -> fi_ch_mode fi = mode ->
  fi_blocksize fi = n -> channels (info s) = zlen stored -> 2 * zlen stored * n <= zlen out ->
  write_output s' out = Some (over (pcm (16 - bps (info s)) (instants f n)) out).
Proof.
  intros Hc Hd Hs Hm Hn Hch Hout.
  pose proof (frame_holds s s' fi sfs 0) as H0. pose proof (frame_holds s s' fi sfs 1) as H1.
  rewrite Hs in H0, H1.
  pose proof Hd as [Ec Eb _ _ Ebs Emode Esh E32 _ _ _]. rewrite <- Esh.
  destruct Hc as [x Hx|mode l r Hmode Hl Hr Hlo Hro]; cbn [length] in *.
  - specialize (H0 x Hd eq_refl). unfold write_output.
    rewrite Emode, Hm. change (0 =? FLAC_CHMODE_INDEPENDENT) with true. cbv iota.
    rewrite Ec, Hch. change (Z.of_nat 1 <=? 2) with true. cbv iota. rewrite <- Hx.
    apply interleave_mono; [done|by rewrite Ec|congruence|lia|done].
  - specialize (H0 _ Hd eq_refl). specialize (H1 _ Hd eq_refl). rewrite <- Hl.
    apply stereo_output; rewrite ?Emode, ?Hm; try done; try congruence; try lia.
Qed.

Lemma AV_RB16_spec buf p : bytes_ok buf -> 0 <= p -> p + 2 <= zlen buf ->
  AV_RB16 buf p = Some (bits buf (8 * p) 16).
Proof.
  intros Hb Hp Hl. unfold AV_RB16.
  destruct (aget_Some buf p) as [b0 E0]; [lia|]. destruct (aget_Some buf (p + 1)) as [b1 E1]; [lia|].
  rewrite E0, E1. cbn [mbind option_bind].
  change 16 with (8 + 8) at 1. rewrite bits_app by lia.
  replace (8 * p + 8) with (8 * (p + 1)) by lia.
  rewrite (bits_byte buf p b0), (bits_byte buf (p + 1) b1) by done.
  rewrite lor_byte; [done|lia|]. by apply (aget_Forall byte_ok buf (p + 1)).
Qed.

(** A frame starts with the sync code and not with the stream marker. *)
Lemma sync_start inbuf v l : bytes_ok inbuf -> 4 <= zlen inbuf ->
  written inbuf 0 ((15, 0x7FFC) :: (1, v) :: l) ->
  is_sync inbuf 0 = true /\ exists tag, AV_RB32 inbuf 0 = Some tag /\ (tag =? fLaC) = false.
Proof.
  intros Hb Hl [H15 _]. split.
  - unfold is_sync, no_sync. rewrite AV_RB16_spec by (done || lia). cbn [mbind option_bind].
    pose proof (bits_sub inbuf 0 16 0 15 ltac:(lia) ltac:(lia) ltac:(lia) ltac:(lia)) as H.
    pose proof (bits_range inbuf 0 16 ltac:(lia)) as Hr.
    change (8 * 0) with 0. set (w := bits inbuf 0 16) in *.
    change (0 + 0) with 0 in H. rewrite H15 in H. change (16 - 0 - 15) with 1 in H.
    change (2 ^ 1) with 2 in H. change (2 ^ 15) with 32768 in H. change (2 ^ 16) with 65536 in Hr.
    change (32764 mod 32768) with 32764 in H.
    assert (w = 65528 \/ w = 65529) as [-> | ->] by zdiv; done.
  - rewrite AV_RB32_spec by (done || lia). eexists. split; [done|]. apply Z.eqb_neq.
    pose proof (bits_sub inbuf 0 32 0 15 ltac:(lia) ltac:(lia) ltac:(lia) ltac:(lia)) as H.
    change (8 * 0) with 0. set (w := bits inbuf 0 32) in *.
    change (0 + 0) with 0 in H. rewrite H15 in H. intros E. rewrite E in H. vm_compute in H. lia.
Qed.

Lemma ready_init inbuf size l : ready (MkGetBitContext inbuf 0 0) l ->
  ready (MkGetBitContext inbuf 0 size) l.
Proof. intros [[? ?] ? ?]. by split. Qed.

Lemma init_get_bits_ok inbuf n : 0 <= n < 2 ^ 28 ->
  init_get_bits inbuf (s32 (n * 8)) = MkGetBitContext inbuf 0 (n * 8).
Proof.
  intros Hn. rewrite wraps_small by (change (2 ^ (32 - 1)) with 2147483648; lia).
  unfold init_get_bits. rewrite Z.shiftr_div_pow2 by lia. change (2 ^ 3) with 8.
  rewrite (proj2 (Z.ltb_ge ((n * 8 + 7) / 8) 0)), (proj2 (Z.ltb_ge (n * 8) 0)) by zdiv. done.
Qed.

(** Enough input that no scan is needed. *)
Definition input_limit (s : FLACContext) : Z :=
  Z.max ((17 * max_framesize (info s)) ÷ 16 + 32) (max_framesize (info s)).

Lemma frame_width h fi sfs crc bps mode n : header_ok h fi -> sfs_ok bps mode n 0 sfs ->
  width (frame_code h sfs crc) mod 8 = 0 /\ 40 <= width (frame_code h sfs crc).
Proof.
  intros Hok Hsub. destruct (header_width h fi Hok) as (k&Hk&?&?&?).
  pose proof (sfs_width _ _ _ _ _ Hsub).
  unfold frame_code. rewrite app_assoc, !width_app.
  set (m := width (header_code h) + _). pose proof (pad_width m) as (?&?&?).
  change (width [(16, crc)]) with 16. split; [zdiv|]. subst m. lia.
Qed.

(** ** STREAMINFO *)

Lemma ready_get_bits_long gb n v l : 1 <= n <= 32 -> 0 <= v < 2 ^ n -> 0 <= width l ->
  ready gb ((n, v) :: l) ->
  get_bits_long gb n = Some (v, SKIP_COUNTER gb n) /\ ready (SKIP_COUNTER gb n) l.
Proof.
  intros Hn Hv Hw Hrd. split.
  - pose proof Hrd as [Hok [Hb _] Hr]. rewrite width_cons in Hr.
    rewrite get_bits_long_slice by (done || zdiv). by rewrite Hb, Z.mod_small.
  - pose proof (ready_app gb [(n, v)] l) as H. rewrite width_cons in H.
    change (width []) with 0 in H. rewrite Z.add_0_r in H. apply H; [lia|done].
Qed.

(** The fields of a STREAMINFO block up to the MD5 sum; the 36-bit number of
    samples is written as its upper 32 and its lower 4 bits. *)
Definition streaminfo_code (minb maxb minf maxf sr ch bps total : Z) : list (Z * Z) :=
  [(16, minb); (16, maxb); (24, minf); (24, maxf); (20, sr); (3, ch - 1); (5, bps - 1);
   (32, total / 16); (4, total mod 16)].

Lemma samples_truncated total : 0 <= total ->
  u32 ((total / 16) .<< 4) .| total mod 16 = total mod 2 ^ 32.
Proof.
  intros Ht. unfold wrapu. rewrite Z.shiftl_mul_pow2 by lia. change (2 ^ 4) with 16.
  assert (total / 16 * 16 mod 2 ^ 32 = ((total / 16) mod 2 ^ 28) .<< 4) as ->.
  { rewrite Z.shiftl_mul_pow2 by lia. change (2 ^ 4) with 16.
    change (2 ^ 32) with 4294967296. change (2 ^ 28) with 268435456. zdiv. }
  rewrite lor_byte by (change (2 ^ 4) with 16; zdiv). change (2 ^ 4) with 16.
  change (2 ^ 32) with 4294967296. change (2 ^ 28) with 268435456. zdiv.
Qed.

Lemma streaminfo_read av buffer minb maxb minf maxf sr ch bps total :
  0 <= maxb < 2 ^ 16 -> 0 <= maxf < 2 ^ 24 -> 0 <= sr < 2 ^ 20 -> 1 <= ch <= 8 ->
  1 <= bps <= 32 -> 0 <= total < 2 ^ 36 ->
  ready (MkGetBitContext buffer 0 0) (streaminfo_code minb maxb minf maxf sr ch bps total) ->
  am_flac_parse_streaminfo av buffer
    = Some (MkAVCodecContext (extradata av) (extradata_size av) sr ch (sample_fmt av) bps,
            MkStreaminfo sr ch bps (Z.max 16 maxb) maxf (total mod 2 ^ 32)).
Proof.
  intros Hmb Hmf Hsr Hch Hbps Htot Hrd. apply (ready_init _ (34 * 8)) in Hrd.
  unfold am_flac_parse_streaminfo. change (init_get_bits buffer (FLAC_STREAMINFO_SIZE * 8))
    with (MkGetBitContext buffer 0 (34 * 8)).
  unfold streaminfo_code in Hrd.
  apply ready_skip_bits in Hrd as [-> Hrd]; [|lia|simpl; lia]. cbn [mbind option_bind].
  apply ready_get_bits in Hrd as [-> Hrd]; [|lia|done|simpl; lia]. cbn [mbind option_bind].
  apply ready_skip_bits in Hrd as [-> Hrd]; [|lia|simpl; lia]. cbn [mbind option_bind].
  apply ready_get_bits_long in Hrd as [-> Hrd]; [|lia|done|simpl; lia]. cbn [mbind option_bind].
  apply ready_get_bits_long in Hrd as [-> Hrd]; [|lia|done|simpl; lia]. cbn [mbind option_bind].
  apply ready_get_bits in Hrd as [-> Hrd]; [|lia|change (2 ^ 3) with 8; lia|simpl; lia].
  cbn [mbind option_bind].
  apply ready_get_bits in Hrd as [-> Hrd]; [|lia|change (2 ^ 5) with 32; lia|simpl; lia].
  cbn [mbind option_bind].
  apply ready_get_bits_long in Hrd as [-> Hrd]; [|lia| |simpl; lia].
  2: { change (2 ^ 32) with 4294967296. change (2 ^ 36) with 68719476736 in Htot. zdiv. }
  cbn [mbind option_bind].
  apply ready_get_bits in Hrd as [-> Hrd]; [|lia|change (2 ^ 4) with 16; zdiv|done].
  cbn [mbind option_bind]. rewrite samples_truncated by lia.
  replace (ch - 1 + 1) with ch by lia. replace (bps - 1 + 1) with bps by lia.
  do 4 f_equal. unfold FLAC_MIN_BLOCKSIZE. destruct (Z.ltb_spec maxb 16); lia.
Qed.

(** ** Allocation *)

Lemma av_realloc_length alloc_ok garbage ptr n : alloc_ok n = true -> 0 <= n ->
  zlen (av_realloc alloc_ok garbage ptr n) = n.
Proof.
  intros E Hn. unfold av_realloc. rewrite E, length_app, length_take, length_map, length_seqZ.
  lia.
Qed.

(** Every channel gets a buffer of [max_blocksize] cells. *)
Lemma allocate_buffers_spec alloc_ok garbage s :
  0 <= channels (info s) <= zlen (decoded s) -> 0 <= max_blocksize (info s) ->
  alloc_ok (max_blocksize (info s)) = true ->
  exists s', allocate_buffers alloc_ok garbage s = Some s' /\
    (forall i, 0 <= i < channels (info s) ->
       exists d, aget (decoded s') i = Some d /\ zlen d = max_blocksize (info s)) /\
    length (decoded s') = length (decoded s) /\
    info s' = (if (max_framesize (info s) =? 0) && negb (max_blocksize (info s) =? 0)
               then set_max_framesize (info s) (am_flac_get_max_frame_size
                      (max_blocksize (info s)) (channels (info s)) (bps (info s)))
               else info s) /\
    s' = set_info (set_decoded s (decoded s')) (info s').
Proof.
  intros Hch Hm Hal. unfold allocate_buffers.
  set (s0 := if _ && _ then _ else _).
  assert (channels (info s0) = channels (info s) /\
    max_blocksize (info s0) = max_blocksize (info s) /\ decoded s0 = decoded s) as (E1&E2&E3)
    by (unfold s0; by destruct (_ && _)).
  rewrite E1, E2, E3.
  destruct (for_range_inv (fun j d => length d = length (decoded s) /\
      forall i, 0 <= i < j -> exists b, aget d i = Some b /\ zlen b = max_blocksize (info s))
    0 (channels (info s)) (fun i d => p ← aget d i;
      aset d i (av_realloc alloc_ok garbage p (max_blocksize (info s)))) (decoded s))
    as (d&E&Hl&Hd); [lia|split; [done|intros; lia]| |].
  - intros j d Hj (Hl&Hd). destruct (aget_Some d j) as [p Ep]; [lia|]. rewrite Ep.
    cbn [mbind option_bind]. rewrite aset_Some by lia. eexists. split; [done|].
    split; [by rewrite length_insert|]. intros i Hi. destruct (decide (i = j)) as [->|Hne].
    + rewrite aget_insert_eq by lia. eexists. split; [done|]. by apply av_realloc_length.
    + rewrite aget_insert_ne by lia. apply Hd. lia.
  - rewrite E. cbn [mbind option_bind]. eexists. split; [done|]. cbn [decoded set_decoded info].
    split; [exact Hd|]. split; [done|]. unfold s0.
    destruct (_ && _); (split; [done|]); by destruct s.
Qed.

(** ** Claims *)

(** C1: the decoder is lossless.  An input that starts with a frame (a valid
    header with its CRC-8, one coded subframe per channel in any of the subframe
    types, padding, footer) whose subframes hold the channels of a mono or a
    stereo signal in any of the four stereo modes, given with enough bytes to
    skip the scan, is decoded in one call: the call consumes exactly the bytes of
    the frame, reports the output size, writes the interleaved samples as
    little-endian 16-bit PCM, leaves the rest of the output buffer alone, and
    leaves a context that can decode the next frame. *)
Theorem flac_decode_lossless alloc_ok garbage addr char_signed s outbuf inbuf inlen
    h fi sfs crc stored f :
  header_ok h fi -> decoder_ready s -> frame_fits s fi sfs ->
  coded_channels (fi_blocksize fi) (fi_ch_mode fi) stored f -> map sf_out sfs = stored ->
  ready (MkGetBitContext inbuf 0 0) (frame_code h sfs crc) ->
  crc8 (take (Z.to_nat (width (header_code h) / 8)) inbuf) 0 = 0 ->
  input_limit s <= inlen < 2 ^ 28 -> width (frame_code h sfs crc) <= 8 * inlen ->
  2 * zlen stored * fi_blocksize fi <= zlen outbuf -> zlen outbuf <= DefaultOutBufSize ->
  exists s', audio_dec_decode alloc_ok garbage addr char_signed s outbuf inbuf inlen
      = Some (width (frame_code h sfs crc) / 8, Some (2 * zlen stored * fi_blocksize fi), s',
              over (pcm (16 - bps (info s)) (instants f (fi_blocksize fi))) outbuf) /\
    decoder_ready s' /\ channels (info s') = channels (info s) /\
    bps (info s') = bps (info s) /\ max_blocksize (info s') = max_blocksize (info s) /\
    max_framesize (info s') = max_framesize (info s).
Proof.
  intros Hok Hdr Hff Hcc Hst Hrd Hcrc Hlim Hw Hout Hmax.
  assert (0 <= fi_blocksize fi) as Hn0 by (destruct Hcc; lia).
  pose proof Hrd as [[Hbuf Hi0] Hwr Hroom]. cbn [gb_buffer gb_index] in *.
  unfold input_limit in *. set (mf := max_framesize (info s)) in *.
  pose proof (frame_width h fi sfs crc _ _ _ Hok (ff_subframes _ _ _ Hff)) as [Hmod8 H40].
  destruct (sync_start inbuf (h_blocking h) (drop 2 (frame_code h sfs crc)))
    as (Hsync&tag&Etag&Htag); [done|zdiv|exact Hwr|].
  unfold audio_dec_decode. fold mf. rewrite (proj2 (Z.ltb_ge inlen _)) by lia.
  cbn [mbind option_bind]. rewrite Etag. cbn [mbind option_bind]. rewrite Htag.
  cbn [find_sync_word]. rewrite no_sync_in by zdiv. rewrite Hsync. cbn [negb mbind option_bind].
  change (Z.to_nat 0) with O. rewrite drop_0, init_get_bits_ok by lia.
  set (s0 := set_gb (set_bitstream s inlen 0) (MkGetBitContext inbuf 0 (inlen * 8))).
  destruct (frame_read addr s0 h fi sfs crc Hok) as (s'&E&Hfd&Hgb);
    [by destruct Hdr|by destruct Hff|done|by apply ready_init|done|].
  rewrite E. cbn [mbind option_bind]. rewrite (proj2 (Z.ltb_ge 0 0)) by lia.
  cbn [mbind option_bind]. pose proof Hff as [_ Hcnt _ _ _].
  assert (channels (info s) = zlen stored) as Hch by (rewrite <- Hst, length_map; lia).
  assert (1 <= zlen stored <= 2) as Hst12 by (destruct Hcc; simpl; lia).
  rewrite (fd_channels _ _ _ _ Hfd), (fd_blocksize _ _ _ _ Hfd), (fd_is32 _ _ _ _ Hfd).
  change (channels (info s0)) with (channels (info s)). rewrite Hch.
  rewrite (proj2 (Z.ltb_ge 2 (zlen stored))) by lia.
  rewrite (proj2 (Z.ltb_ge DefaultOutBufSize _)) by lia.
  rewrite (coded_output _ _ _ _ s0 s' fi sfs outbuf Hcc Hfd Hst) by (done || lia).
  cbn [mbind option_bind]. rewrite Hgb. unfold get_bits_count. cbn [gb_index SKIP_COUNTER].
  change (gb_index (gb s0)) with 0. rewrite Z.add_0_l.
  replace ((width (frame_code h sfs crc) + 7) ÷ 8) with (width (frame_code h sfs crc) / 8)
    by zdiv.
  unfold decode_end. rewrite (proj2 (Z.ltb_ge inlen _)) by zdiv.
  set (s1 := if negb _ then _ else _). exists s1. split; [do 5 f_equal; lia|].
  assert (decoder_ready s') as [Hd1 Hd2].
  { apply (frame_decoded_ready s0 s' fi sfs); [by destruct Hdr|by destruct Hff|done|done]. }
  destruct Hfd as [F1 F2 F3 F4 _ _ _ _ _ _ _]. subst s1.
  destruct (negb (bitstream_size s' =? 0)); (split; [by split|]);
    exact (conj (eq_trans F1 Hch) (conj F2 (conj F3 F4))).
Qed.

(** C19: what the frame header fields mean.  The format gives every code its
    meaning, stated here apart from the tables of the code: block sizes 192, 576 and 256 times a power of two
    up to 16384, or an 8- or 16-bit field; the eleven standard rates or a field in kHz, Hz or tens of Hz; the channel
    modes; the sample sizes.  For every combination of these codes and every frame number below 2^31, a header whose
    CRC-8 is right is decoded to the values it stands for with exactly its bytes consumed, also when the CRC table
    is still to be built.  (Block size code 15 is the fault that [flac_blocksize_15_negative] shows.) *)
Theorem flac_header_correct addr gb tab h fi :
  header_ok h fi -> gb_index gb = 0 -> crc8_state tab -> ready gb (header_code h) ->
  crc8 (take (Z.to_nat (width (header_code h) / 8)) (gb_buffer gb)) 0 = 0 ->
  exists tab', decode_frame_header addr gb tab
      = Some (Some fi, SKIP_COUNTER gb (width (header_code h)), tab') /\ crc8_state tab'.
Proof.
  intros Hok H0 Hst Hrd Hcrc.
  destruct (header_read addr gb tab h fi [] Hok H0) as (tab'&E&Hst'&_); try done.
  - by rewrite app_nil_r.
  - by exists tab'.
Qed.

(** An input shorter than the limit is never decoded.  The scan for the
    next two frame headers shortens the input at the first match, which ends its
    own loop, so the second match that would reach the decoding code is never
    found: the call returns -1 and changes nothing, whatever the bytes are. *)
Theorem flac_short_input_refused alloc_ok garbage addr char_signed s outbuf inbuf inlen :
  3 <= inlen <= zlen inbuf -> inlen < input_limit s ->
  audio_dec_decode alloc_ok garbage addr char_signed s outbuf inbuf inlen
    = Some (-1, None, s, outbuf).
Proof.
  intros Hl Hlim. unfold audio_dec_decode. fold (input_limit s).
  rewrite (proj2 (Z.ltb_lt inlen _)) by done.
  destruct (aget_Some inbuf 2) as [b ->]; [lia|]. cbn [mbind option_bind].
  destruct (prescan_never_finds inbuf (char_of char_signed b) inlen) as (i&n&k&->); [lia|].
  done.
Qed.

(** Resynchronisation.  An input that starts with neither the stream marker
    nor a frame is skipped up to the first sync word, or to the last two bytes:
    the call consumes exactly these bytes, produces no output and leaves the
    stream information, the buffers and the error count alone. *)
Theorem flac_resync alloc_ok garbage addr char_signed s outbuf inbuf inlen tag :
  4 <= inlen <= zlen inbuf -> inlen < 2 ^ 32 -> input_limit s <= inlen ->
  AV_RB32 inbuf 0 = Some tag -> tag <> fLaC -> is_sync inbuf 0 = false ->
  exists q, 0 <= q <= inlen - 2 /\ (forall k, 0 <= k < q -> is_sync inbuf k = false) /\
    (is_sync inbuf q = true \/ q = inlen - 2) /\
    audio_dec_decode alloc_ok garbage addr char_signed s outbuf inbuf inlen
      = Some (q, Some 0, set_bitstream s (inlen - q) q, outbuf).
Proof.
  intros Hl H32 Hlim Htag Hne Hs.
  destruct (sync_search_spec (S (Z.to_nat inlen)) inbuf 0 inlen) as (q&E&Hq&Hno&Hend);
    [lia..|].
  exists q. split; [lia|]. split; [done|]. split; [done|].
  unfold audio_dec_decode. fold (input_limit s). rewrite (proj2 (Z.ltb_ge inlen _)) by done.
  cbn [mbind option_bind]. rewrite Htag. cbn [mbind option_bind].
  rewrite (proj2 (Z.eqb_neq tag fLaC)) by done. cbn [find_sync_word].
  rewrite no_sync_in by lia. rewrite Hs. cbn [negb mbind option_bind].
  rewrite Z.add_0_l, E. cbn [mbind option_bind].
  replace (inlen - (inlen - q)) with q by lia. unfold decode_end.
  rewrite (proj2 (Z.ltb_ge inlen q)) by lia. cbn [bitstream_size set_bitstream].
  rewrite (proj2 (Z.eqb_neq inlen 0)) by lia. cbn [negb bitstream_index set_bitstream].
  rewrite !wrapu_small by lia. done.
Qed.

(** The size of an inline header.  After the stream marker and any list of
    metadata blocks, [get_metadata_size] is the offset of the first frame, or 0
    when the input ends inside of the blocks; the loop ends at the block flagged
    as last. *)
Theorem metadata_size_correct blocks pre post buf_size :
  blocks <> [] -> Forall block_ok blocks -> zlen pre = 4 ->
  zlen blocks <= buf_size ->
  get_metadata_size (pre ++ metadata_bytes blocks ++ post) buf_size
    = Some (if buf_size <? 4 + zlen (metadata_bytes blocks) then 0
            else 4 + zlen (metadata_bytes blocks)).
Proof.
  intros Hne Hok Hpre Hl. unfold get_metadata_size.
  apply metadata_loop_spec; [done|done|lia| |lia].
  rewrite <- Hpre. apply at_bytes_app.
Qed.

(** STREAMINFO.  [parse_streaminfo] reads the maximum block size (at least
    16), the maximum frame size, the sample rate, the channels and the sample
    size an encoder wrote, but only the low 32 bits of the 36-bit number of
    samples; it allocates one buffer of the maximum block size per channel, so
    the context is ready for frames, and replaces an unknown maximum frame size
    by the size of a verbatim frame. *)
Theorem parse_streaminfo_correct alloc_ok garbage s marker buf minb maxb minf maxf sr ch bps
    total buf_size :
  zlen marker = 4 ->
  34 <= zlen buf -> 42 <= buf_size ->
  0 <= maxb < 2 ^ 16 -> 0 <= maxf < 2 ^ 24 -> 0 <= sr < 2 ^ 20 -> 1 <= ch <= 8 ->
  1 <= bps <= 32 -> 0 <= total < 2 ^ 36 -> zlen (decoded s) = 8 -> crc8_state (crc8_table s) ->
  alloc_ok (Z.max 16 maxb) = true ->
  ready (MkGetBitContext buf 0 0) (streaminfo_code minb maxb minf maxf sr ch bps total) ->
  exists s', parse_streaminfo alloc_ok garbage s (marker ++ [128] ++ be24 34 ++ buf) buf_size
      = Some (0, s') /\
    decoder_ready s' /\ got_streaminfo s' = true /\
    info s' = MkStreaminfo sr ch bps (Z.max 16 maxb)
      (if maxf =? 0 then am_flac_get_max_frame_size (Z.max 16 maxb) ch bps else maxf)
      (total mod 2 ^ 32) /\
    avctx s' = MkAVCodecContext (extradata (avctx s)) (extradata_size (avctx s)) sr ch
                 (sample_fmt (avctx s)) bps.
Proof.
  intros Hmk Hbuf Hsz Hmb Hmf Hsr Hch Hbps Htot H8 Hcrc Hal Hrd.
  unfold parse_streaminfo. rewrite (proj2 (Z.ltb_ge buf_size _)) by (unfold FLAC_STREAMINFO_SIZE; lia).
  rewrite (block_header_read _ 4 128 (replicate 34 0)).
  3: { done. }
  2: { change (zlen (replicate 34 0)) with 34. rewrite <- Hmk.
       rewrite (app_assoc [128]). apply at_bytes_app. }
  cbn [mbind option_bind]. change (128 .& 0x7F =? FLAC_METADATA_TYPE_STREAMINFO) with true.
  change (zlen (replicate 34 0) =? FLAC_STREAMINFO_SIZE) with true. cbn [negb orb].
  replace (drop 8 (marker ++ [128] ++ be24 34 ++ buf)) with buf.
  2: { rewrite (drop_app_ge marker) by lia. replace (8 - length marker)%nat with 4%nat by lia. done. }
  rewrite (streaminfo_read _ _ minb maxb minf maxf sr ch bps total) by done.
  cbn [mbind option_bind].
  set (s1 := set_info _ _).
  destruct (allocate_buffers_spec alloc_ok garbage s1) as (s'&->&Hb&_&Hi&Hs');
    [cbn; lia|cbn; lia|done|].
  cbn [mbind option_bind]. eexists. split; [done|].
  cbn -[Z.max Z.pow Z.modulo am_flac_get_max_frame_size] in Hi.
  rewrite (proj2 (Z.eqb_neq (Z.max 16 maxb) 0)) in Hi by lia. rewrite andb_true_r in Hi.
  split; [|split; [done|split]].
  - split.
    + intros i Hir. cbn [info set_got decoded] in *.
      assert (channels (info s') = ch /\ max_blocksize (info s') = Z.max 16 maxb) as [Ec Em]
        by (rewrite Hi; by destruct (maxf =? 0)).
      rewrite Ec in Hir. rewrite Em. destruct (Hb i) as (d&Ed&Hd); [done|].
      exists d. split; [done|]. rewrite Hd. done.
    + rewrite Hs'. done.
  - cbn [info set_got]. rewrite Hi. by destruct (maxf =? 0).
  - rewrite Hs'. done.
Qed.

(** ** Multi-channel streams *)

Lemma f32_exact z : Z.abs z < 2 ^ 24 -> f32_round z = z.
Proof.
  intros Hz. unfold f32_round. rewrite (proj2 (Z.leb_le _ 0)); [done|].
  destruct (Z.eq_dec (Z.abs z) 0) as [->|Hne]; [simpl; lia|].
  assert (Z.log2 (Z.abs z) < 24) by (apply Z.log2_lt_pow2; lia). lia.
Qed.

Lemma av_clipf1_16 a : Z.abs a < 2 ^ 24 ->
  av_clipf1 a (-32768) 32767 = Some (zclamp (-32768) 32767 a).
Proof.
  intros Ha. unfold av_clipf1, zclamp. rewrite !f32_exact by (simpl; lia).
  destruct (Z.ltb_spec a (-32768)), (Z.ltb_spec 32767 a); try lia; try done.
  rewrite (proj2 (Z.leb_le _ a)), (proj2 (Z.ltb_lt a _)) by lia. done.
Qed.

Lemma scale_range b v : 1 <= b <= 32 -> signed_bits b v ->
  -32768 <= scale (16 - b) v < 32768.
Proof.
  intros Hb Hv. unfold signed_bits in Hv. unfold scale.
  destruct (Z.leb_spec 0 (16 - b)).
  - rewrite Z.shiftl_mul_pow2 by lia. pose proof (pow2_pos (16 - b) ltac:(lia)).
    assert (2 ^ (b - 1) * 2 ^ (16 - b) = 32768) by
      (rewrite <- Z.pow_add_r by lia; by replace (b - 1 + (16 - b)) with 15 by lia). nia.
  - rewrite Z.shiftr_div_pow2 by lia. set (m := 2 ^ (- (16 - b))).
    assert (0 < m) by (apply pow2_pos; lia).
    assert (2 ^ (b - 1) = 32768 * m) by
      (unfold m; change 32768 with (2 ^ 15); rewrite <- Z.pow_add_r by lia; f_equal; lia).
    split; [apply Z.div_le_lower_bound; lia|apply Z.div_lt_upper_bound; lia].
Qed.

(** The 16-bit value the C code computes for a sample. *)
Lemma scaled_scale s v : is32 s = false -> -32768 <= scale (sample_shift s) v < 32768 ->
  scaled s v = scale (sample_shift s) v.
Proof.
  intros H32 Hr. unfold scaled, scale in *. rewrite H32. destruct (0 <=? sample_shift s); [|done].
  apply s32_id. unfold s32_ok. lia.
Qed.

(** The sum of the halved surround channels, from channel 2. *)
Definition surround (shift : Z) (chans : list (list Z)) (j : Z) : Z :=
  foldr (fun c a => (scale shift (samp c j) .>> 1) + a) 0 (drop 2 chans).

Definition mixed (shift : Z) (chans : list (list Z)) (j : Z) : list Z :=
  map (fun i => zclamp (-32768) 32767
    (scale shift (samp (nth i chans []) j) + surround shift chans j)) [0%nat; 1%nat].

(** The channels of the context, all of [n] samples of [b] bits. *)
Definition channels_are (s : FLACContext) (b n : Z) (chans : list (list Z)) : Prop :=
  forall i c, chans !! i = Some c ->
    holds s (Z.of_nat i) c /\ zlen c = n /\ Forall (signed_bits b) c.

Lemma channel_sample s b n chans i c j : channels_are s b n chans -> chans !! i = Some c ->
  1 <= b <= 32 -> 0 <= j < n -> is32 s = false -> sample_shift s = 16 - b ->
  exists d, aget (decoded s) (Z.of_nat i) = Some d /\ aget d j = Some (samp c j) /\
    scaled s (samp c j) = scale (16 - b) (samp c j) /\
    -32768 <= scale (16 - b) (samp c j) < 32768.
Proof.
  intros Hc Hi Hb Hj H32 Hsh. destruct (Hc i c Hi) as (Hh&Hl&Hv).
  destruct (holds_get s (Z.of_nat i) c j Hh ltac:(lia)) as (d&E&Ev).
  exists d. split; [done|]. split; [done|].
  assert (signed_bits b (samp c j)) as Hs.
  { apply (aget_Forall _ c j); [done|]. apply samp_get. lia. }
  pose proof (scale_range b _ Hb Hs) as Hr. split; [|done].
  rewrite scaled_scale by (rewrite ?Hsh; done). by rewrite Hsh.
Qed.

(** The inner loop adds the halves exactly. *)
Lemma surround_loop s b n chans j sum0 sum1 : channels_are s b n chans -> 1 <= b <= 32 ->
  0 <= j < n -> is32 s = false -> sample_shift s = 16 - b -> 2 <= zlen chans <= 8 ->
  -32768 <= sum0 < 32768 -> -32768 <= sum1 < 32768 ->
  for_range 2 (zlen chans) (surround_step s j) (sum0, sum1)
    = Some (sum0 + surround (16 - b) chans j, sum1 + surround (16 - b) chans j) /\
  - 16384 * 6 <= surround (16 - b) chans j <= 16384 * 6.
Proof.
  intros Hc Hb Hj H32 Hsh H8 H0 H1.
  set (part k := foldr (fun c a => (scale (16 - b) (samp c j) .>> 1) + a) 0
                   (take (Z.to_nat (k - 2)) (drop 2 chans))).
  assert (part (zlen chans) = surround (16 - b) chans j) as Hend.
  { unfold part, surround. rewrite take_ge; [done|]. rewrite length_drop. lia. }
  rewrite <- Hend.
  destruct (for_range_inv (fun k st => st = (sum0 + part k, sum1 + part k) /\
      - 16384 * (k - 2) <= part k <= 16384 * (k - 2)) 2 (zlen chans)
    (surround_step s j) (sum0, sum1))
    as (st&E&->&Hr); [lia| | |split; [done|lia]].
  - unfold part. simpl. split; [f_equal; lia|lia].
  - intros k st Hk (->&Hr). destruct (lookup_lt_is_Some_2 chans (Z.to_nat k)) as [c Ec]; [lia|].
    destruct (channel_sample _ _ _ _ _ _ j Hc Ec Hb Hj H32 Hsh) as (d&Ed&Ev&Es&Hsr).
    rewrite Z2Nat.id in Ed by lia. unfold surround_step. rewrite Ed. cbn [mbind option_bind].
    rewrite Ev. cbn [mbind option_bind]. rewrite Es.
    set (x := scale (16 - b) (samp c j)) in *.
    assert (-16384 <= x .>> 1 < 16384) as Hx.
    { rewrite Z.shiftr_div_pow2 by lia. change (2 ^ 1) with 2. zdiv. }
    assert (part (k + 1) = part k + (x .>> 1)) as Hp.
    { unfold part. replace (Z.to_nat (k + 1 - 2)) with (S (Z.to_nat (k - 2))) by lia.
      rewrite (take_S_r _ _ c).
      2: { rewrite lookup_drop. by replace (2 + Z.to_nat (k - 2))%nat with (Z.to_nat k) by lia. }
      rewrite foldr_app. cbn [foldr]. fold x.
      generalize (take (Z.to_nat (k - 2)) (drop 2 chans)). clear.
      intros l. induction l as [|y l IH]; simpl; lia. }
    rewrite Hp. cbv zeta. change (2 ^ 24) with 16777216 in *.
    rewrite (f32_exact (x .>> 1)) by (change (2 ^ 24) with 16777216; lia).
    rewrite !f32_exact by (change (2 ^ 24) with 16777216; lia).
    eexists. split; [done|]. split; [f_equal; lia|lia].
Qed.

Lemma put16_pcm out vs k v : k = zlen vs -> 2 * (k + 1) <= zlen out ->
  put16 (over (pcm 0 vs) out) k v = Some (over (pcm 0 (vs ++ [v])) out).
Proof.
  intros -> Hl. pose proof (pcm_length 0 vs). rewrite put16_next by lia.
  rewrite pcm_app. change (pcm 0 [v]) with (le16 (v .<< 0) ++ []).
  by rewrite Z.shiftl_0_r, app_nil_r.
Qed.

(** The downmix.  For three to eight channels of samples of at most 32 bits
    the float arithmetic of the downmix is exact: the output is, for every
    instant, the first and the second channel scaled to 16 bits, plus half of
    each other channel, clipped to 16 bits and interleaved. *)
Theorem flac_downmix_exact s b n chans out :
  is32 s = false -> 1 <= b <= 32 -> sample_shift s = 16 - b ->
  channels (info s) = zlen chans -> 3 <= zlen chans <= 8 -> ch_mode s = 0 ->
  0 <= n -> blocksize s = n -> 4 * n <= zlen out -> channels_are s b n chans ->
  write_output s out = Some (over (pcm 0 (instants (mixed (16 - b) chans) n)) out).
Proof.
  intros H32 Hb Hsh Hch H8 Hm Hn Hbs Hout Hc. unfold write_output. rewrite Hm.
  change (0 =? FLAC_CHMODE_INDEPENDENT) with true. cbv iota.
  rewrite Hch, (proj2 (Z.leb_gt _ 2)) by lia. unfold downmix. rewrite Hbs, Hch, H32.
  apply (output_loop 0 _ 2); [lia|done|lia|lia|]. intros j Hj.
  destruct chans as [|c0 [|c1 chans]]; [simpl in *; lia..|].
  destruct (channel_sample s b n _ 0 c0 j Hc eq_refl Hb Hj H32 Hsh) as (d0&E0&Ev0&Es0&Hr0).
  destruct (channel_sample s b n _ 1 c1 j Hc eq_refl Hb Hj H32 Hsh) as (d1&E1&Ev1&Es1&Hr1).
  change (Z.of_nat 0) with 0 in E0. change (Z.of_nat 1) with 1 in E1.
  rewrite E0. cbn [mbind option_bind]. rewrite Ev0. cbn [mbind option_bind].
  rewrite E1. cbn [mbind option_bind]. rewrite Ev1. cbn [mbind option_bind].
  rewrite Es0, Es1. rewrite !f32_exact by (change (2 ^ 24) with 16777216; lia).
  destruct (surround_loop s b n _ j _ _ Hc Hb Hj H32 Hsh ltac:(lia) Hr0 Hr1) as [-> Hsr].
  cbn [mbind option_bind].
  rewrite !av_clipf1_16 by (change (2 ^ 24) with 16777216; lia). cbn [mbind option_bind].
  pose proof (instants_length (mixed (16 - b) (c0 :: c1 :: chans)) 2 j ltac:(lia) ltac:(done))
    as Hi.
  rewrite put16_pcm by lia. cbn [mbind option_bind].
  rewrite put16_pcm by (rewrite ?length_app; simpl length; lia). by rewrite <- app_assoc.
Qed.

(** ** Initialisation and refused streams *)

(** The two forms of extradata: the marker, a block header and the STREAMINFO
    data, or the data alone. *)
Definition extradata_form (data buf : list Z) (size : Z) : Prop :=
  (data = buf /\ 34 <= size /\ exists tag, AV_RL32 buf 0 = Some tag /\ tag <> 0x43614C66) \/
  (exists header, data = [0x66; 0x4C; 0x61; 0x43] ++ header ++ buf /\ zlen header = 4 /\
     42 <= size).

Lemma extradata_valid av data buf size : extradata_form data buf size ->
  extradata av = Some data -> extradata_size av = size ->
  exists fmt, am_flac_is_extradata_valid av = Some (Some (fmt, buf)).
Proof.
  intros H Hd Hs. unfold am_flac_is_extradata_valid, FLAC_STREAMINFO_SIZE. rewrite Hd, Hs.
  destruct H as [(->&Hz&tag&->&Hne)|(header&->&Hh&Hz)].
  - rewrite (proj2 (Z.ltb_ge size 34)) by lia. cbn [mbind option_bind].
    rewrite (proj2 (Z.eqb_neq tag _)) by done. cbn [negb]. by eexists.
  - rewrite (proj2 (Z.ltb_ge size 34)) by lia.
    assert (AV_RL32 ([0x66; 0x4C; 0x61; 0x43] ++ header ++ buf) 0 = Some 0x43614C66) as ->
      by reflexivity.
    cbn [mbind option_bind]. change (negb (0x43614C66 =? 0x43614C66)) with false. cbv iota.
    rewrite (proj2 (Z.ltb_ge size (8 + 34))) by lia. eexists. do 4 f_equal.
    change ([0x66; 0x4C; 0x61; 0x43] ++ header ++ buf) with
      (0x66 :: 0x4C :: 0x61 :: 0x43 :: header ++ buf). cbn [drop].
    rewrite drop_app_ge by lia. by replace (4 - length header)%nat with O by lia.
Qed.

(** Initialisation.  From either form of extradata [audio_dec_init] resets
    the context, reads the stream information, allocates a buffer of the maximum
    block size for every channel, announces at most two output channels and the
    sample format, and returns the buffer sizes; the context is ready for
    frames. *)
Theorem audio_dec_init_correct alloc_ok garbage s data buf size minb maxb minf maxf sr ch bp
    total :
  extradata_form data buf size ->
  0 <= maxb < 2 ^ 16 -> 0 <= maxf < 2 ^ 24 -> 0 <= sr < 2 ^ 20 -> 1 <= ch <= 8 ->
  1 <= bp <= 32 -> 0 <= total < 2 ^ 36 -> crc8_state (crc8_table s) ->
  alloc_ok (Z.max 16 maxb) = true ->
  ready (MkGetBitContext buf 0 0) (streaminfo_code minb maxb minf maxf sr ch bp total) ->
  exists s', audio_dec_init alloc_ok garbage s (Some data) size
      = Some (0, s', Some (DefaultReadSize, DefaultOutBufSize)) /\
    decoder_ready s' /\ audio_dec_getinfo s' = (ch, sr, 0, 0) /\ bps (info s') = bp /\
    av_channels (avctx s') = Z.min 2 ch /\
    sample_fmt (avctx s') = (if 16 <? bp then SAMPLE_FMT_S32 else SAMPLE_FMT_S16).
Proof.
  intros Hform Hmb Hmf Hsr Hch Hbps Htot Hcrc Hal Hrd. unfold audio_dec_init.
  assert (size <> 0) by (destruct Hform as [(_&?&_)|(?&_&_&?)]; lia).
  rewrite (proj2 (Z.eqb_neq size 0)) by done. set (s0 := MkFLACContext _ _ _ _ _ _ _ _ _ _ _ _ _ _).
  destruct (extradata_valid (avctx s0) data buf size Hform eq_refl eq_refl) as [fmt ->].
  cbn [mbind option_bind].
  rewrite (streaminfo_read _ _ minb maxb minf maxf sr ch bp total) by done.
  cbn [mbind option_bind]. set (s1 := set_info _ _).
  destruct (allocate_buffers_spec alloc_ok garbage s1) as (s'&->&Hb&_&Hi&Hs');
    [cbn; lia|cbn; lia|done|].
  cbn [mbind option_bind]. eexists. split; [done|].
  cbn -[Z.max Z.pow Z.modulo am_flac_get_max_frame_size] in Hi.
  rewrite (proj2 (Z.eqb_neq (Z.max 16 maxb) 0)) in Hi by lia. rewrite andb_true_r in Hi.
  assert (channels (info s') = ch /\ max_blocksize (info s') = Z.max 16 maxb /\
    samplerate (info s') = sr /\ bps (info s') = bp) as (Ec&Em&Er&Ebp)
    by (rewrite Hi; by destruct (maxf =? 0)).
  split; [split|split; [|split; [done|split; [|done]]]].
  - cbn [info set_avctx set_got decoded]. rewrite Ec, Em. intros i Hir.
    destruct (Hb i) as (d&Ed&Hd); [done|]. exists d. split; [done|]. by rewrite Hd.
  - rewrite Hs'. done.
  - unfold audio_dec_getinfo. cbn [info set_avctx set_got error_num]. rewrite Ec, Er.
    by rewrite Hs'.
  - cbn [avctx set_avctx set_got av_channels]. destruct (Z.ltb_spec 2 ch); lia.
Qed.

Lemma for_loop_add {St} (a b : nat) i (body : Z -> St -> option St) st :
  for_loop (a + b) i body st
  = (st' ← for_loop a i body st; for_loop b (i + Z.of_nat a) body st').
Proof.
  revert i st. induction a as [|a IH]; intros i st.
  - cbn [for_loop mbind option_bind]. by rewrite Z.add_0_r.
  - cbn [Nat.add]. rewrite !for_loop_S. destruct (body i st) as [st'|]; [|done].
    cbn [mbind option_bind]. rewrite IH. by replace (i + 1 + Z.of_nat a) with (i + Z.of_nat (S a)) by lia.
Qed.

Lemma store_with_eq read j gb dec : store_with read (j, gb, dec)
  = ('(v, gb) ← read gb; dec ← aset dec j v; Some (j + 1, gb, dec)).
Proof. done. Qed.

(** A buffer overrun.  The warm-up samples of a linear-prediction subframe
    are stored before the order is compared with the block size, and the buffers
    have only [max_blocksize] cells, 16 at least: a subframe of a larger order,
    up to 32, writes past the end of its channel's buffer. *)
Theorem flac_warm_up_overrun gb dec bsz bps ch_mode channel p vs l :
  let cb := subframe_bps bps ch_mode channel in
  1 <= cb <= 32 -> zlen dec < p <= 32 -> zlen vs = p -> Forall (signed_bits cb) vs ->
  0 <= width l ->
  ready gb (subframe_code (31 + p) 0 (flat_map (raw_code cb) vs ++ l)) ->
  decode_subframe gb dec bsz bps ch_mode channel = None.
Proof.
  intros cb Hcb Hp Hvs Hok Hw Hrd. unfold subframe_code in Hrd.
  pose proof (raw_width cb vs ltac:(lia)) as Hrw.
  destruct (subframe_header_read gb (31 + p) 0 (flat_map (raw_code cb) vs ++ l))
    as (E1&E2&E3&Hrd'); [lia|lia|rewrite width_app; lia|done|].
  unfold decode_subframe. rewrite E1. cbn [mbind option_bind]. change (negb (0 =? 0)) with false.
  cbv iota. rewrite E2. cbn [mbind option_bind].
  apply bind_Some in E3 as ([flag gb']&E3&E4). rewrite E3. cbn [mbind option_bind].
  rewrite E4. cbn [mbind option_bind]. rewrite Z.sub_0_r. fold cb.
  rewrite (proj2 (Z.ltb_ge 32 cb)) by lia.
  rewrite (proj2 (Z.eqb_neq (31 + p) 0)), (proj2 (Z.eqb_neq (31 + p) 1)) by lia.
  rewrite (proj2 (Z.leb_gt (31 + p) 12)), andb_false_r, (proj2 (Z.leb_le 32 (31 + p))) by lia.
  replace ((31 + p) .& Z.lnot 32 + 1) with p.
  2: { assert (forallb (fun p => (31 + p) .& Z.lnot 32 + 1 =? p) (seqZ 1 32) = true) as Hall
         by reflexivity.
       pose proof (forall_range _ _ _ Hall p ltac:(lia)) as H'. cbv beta in H'. by zbool. }
  unfold decode_subframe_lpc.
  assert (warm_up (SKIP_COUNTER gb (8 + 0)) dec p cb = None) as ->; [|done].
  rewrite <- (take_drop (length dec) vs) in Hrd', Hok. rewrite flat_map_app, <- app_assoc in Hrd'.
  apply Forall_app in Hok as [Hok1 Hok2].
  assert (length (take (length dec) vs) = length dec) as Htl by (rewrite length_take; lia).
  pose proof (raw_width cb (drop (length dec) vs) ltac:(lia)) as Hdw.
  destruct (read_list (fun gb => get_sbits_long gb cb) (raw_code cb) (signed_bits cb))
    with (vs := take (length dec) vs) (gb := SKIP_COUNTER gb (8 + 0)) (dec := dec) (j := 0)
      (i := 0) (rest := flat_map (raw_code cb) (drop (length dec) vs) ++ l) as [E Hrd2];
    try done; try lia.
  { intros g v l' Hv Hw' Hg. rewrite raw_code_width. by apply ready_get_sbits_long in Hg as [-> _]. }
  { intros v _. rewrite raw_code_width. lia. }
  { rewrite width_app. lia. }
  unfold warm_up, for_range. rewrite Z.sub_0_r.
  replace (Z.to_nat p) with (length dec + S (length vs - length dec - 1))%nat by lia.
  rewrite for_loop_add. rewrite Htl in E. rewrite E. cbn [mbind option_bind].
  rewrite for_loop_S. destruct (drop (length dec) vs) as [|v vs'] eqn:Ed.
  { apply (f_equal length) in Ed. rewrite length_drop in Ed. simpl in Ed. lia. }
  apply Forall_cons in Hok2 as [Hv _]. cbn [flat_map raw_code app] in Hrd2.
  apply ready_get_sbits_long in Hrd2 as [E5 _]; [|lia|done|].
  2: { rewrite width_app. pose proof (raw_width cb vs' ltac:(lia)). lia. }
  rewrite store_with_eq, E5. cbn [mbind option_bind].
  rewrite aset_None; [done|]. rewrite fill_length by lia. lia.
Qed.

(** ** A concrete stream *)

Definition example_context (sr ch bp maxb maxf : Z) : FLACContext :=
  MkFLACContext (MkStreaminfo sr ch bp maxb maxf 0)
    (MkAVCodecContext None 0 sr ch SAMPLE_FMT_S16 bp) (MkGetBitContext [] 0 0)
    0 0 0 false 0 true
    (replicate (Z.to_nat ch) (replicate (Z.to_nat maxb) 0) ++ replicate (8 - Z.to_nat ch) [])
    0 0 0 (replicate 257 0).

(** Mid/side, four samples: the middle channel verbatim, the difference constant. *)
Definition example_header : frame_header :=
  MkFrameHeader 0 6 [(8, 3)] 9 [] 10 4 0 [0] 92.
Definition example_info : FLACFrameInfo := MkFrameInfo 44100 2 16 4 10.
Definition example_left : list Z := [100; 200; -3; 7].
Definition example_right : list Z := [90; 190; -13; -3].
Definition example_sfs : list coded_subframe :=
  [MkSubframe 1 0 (flat_map (raw_code 16) [95; 195; -8; 2]) [95; 195; -8; 2];
   MkSubframe 0 0 [(17, 10)] (replicate 4 10)].
Definition example_input : list Z :=
  [255; 248; 105; 168; 0; 3; 92; 2; 0; 95; 0; 195; 255; 248; 0; 2; 0; 0; 5; 0; 0; 0]
  ++ replicate 40 0.

Lemma zero_table : crc8_state (replicate 257 0).
Proof. split; [by rewrite length_replicate|by left]. Qed.

Lemma example_bytes n : Forall byte_ok (replicate n 0).
Proof. apply Forall_replicate. unfold byte_ok. lia. Qed.

Lemma example_header_ok : header_ok example_header example_info.
Proof.
  split; try (simpl; lia); try reflexivity.
  - exact (bs_8 4 ltac:(lia)).
  - apply sr_standard. apply (bool_decide_unpack _). vm_compute. exact I.
  - exact ch_mid_side.
  - apply (bool_decide_unpack _). vm_compute. exact I.
Qed.

Lemma example_ready_context sr ch bp maxb maxf : 0 <= ch <= 8 -> 0 <= maxb ->
  decoder_ready (example_context sr ch bp maxb maxf).
Proof.
  intros Hc Hm. split; [|apply zero_table]. cbn [info channels max_blocksize decoded example_context].
  intros i Hi. exists (replicate (Z.to_nat maxb) 0). split; [|rewrite length_replicate; lia].
  rewrite aget_lookup, lookup_app_l by (rewrite ?length_replicate; lia).
  apply lookup_replicate_2. lia.
Qed.

Lemma example_sfs_ok : sfs_ok 16 10 4 0 example_sfs.
Proof.
  intros [|[|i]] sf H; [injection H as <-|injection H as <-|done].
  - split; [simpl; lia|vm_compute; split; discriminate| |reflexivity].
    refine (body_verbatim 16 16 [95; 195; -8; 2] _). concrete.
  - split; [simpl; lia|vm_compute; split; discriminate| |reflexivity].
    refine (body_constant 16 17 10 4 _). unfold signed_bits. lia.
Qed.

Lemma example_written : ready (MkGetBitContext example_input 0 0)
  (frame_code example_header example_sfs 0).
Proof.
  split.
  - split; [|simpl; lia]. apply Forall_app_2; [concrete|apply example_bytes].
  - vm_compute. repeat split; reflexivity.
  - apply Z.leb_le. vm_compute. reflexivity.
Qed.

Lemma flac_decode_lossless_witness :
  let s := example_context 44100 2 16 16 20 in
  let out := replicate 20 7 in
  exists s', audio_dec_decode (fun _ => true) (fun _ => 0) 1 true s out example_input 62
      = Some (width (frame_code example_header example_sfs 0) / 8, Some (2 * 2 * 4), s',
              over (pcm (16 - 16) (instants (stereo_frames example_left example_right) 4)) out) /\
    decoder_ready s' /\ channels (info s') = 2 /\ bps (info s') = 16 /\
    max_blocksize (info s') = 16 /\ max_framesize (info s') = 20.
Proof.
  intros s out.
  apply (flac_decode_lossless (fun _ => true) (fun _ => 0) 1 true s out example_input 62
    example_header example_info example_sfs 0
    [(stereo_encode 10 example_left example_right).1;
     (stereo_encode 10 example_left example_right).2]
    (stereo_frames example_left example_right)).
  - exact example_header_ok.
  - apply example_ready_context; lia.
  - split; [reflexivity|reflexivity|by right|simpl; lia|exact example_sfs_ok].
  - apply coded_stereo; [lia|reflexivity|reflexivity|concrete|concrete].
  - reflexivity.
  - exact example_written.
  - vm_compute. reflexivity.
  - split; [apply Z.leb_le|apply Z.ltb_lt]; vm_compute; reflexivity.
  - apply Z.leb_le. vm_compute. reflexivity.
  - apply Z.leb_le. vm_compute. reflexivity.
  - apply Z.leb_le. vm_compute. reflexivity.
Defined.

Lemma flac_header_correct_witness :
  exists tab', decode_frame_header 1 (MkGetBitContext example_input 0 0) (replicate 257 0)
      = Some (Some example_info, SKIP_COUNTER (MkGetBitContext example_input 0 0)
                                   (width (header_code example_header)), tab') /\
    crc8_state tab'.
Proof.
  apply (flac_header_correct 1 (MkGetBitContext example_input 0 0) (replicate 257 0)
    example_header example_info).
  - exact example_header_ok.
  - reflexivity.
  - exact zero_table.
  - apply (ready_prefix _ _ (flat_map sf_code example_sfs ++
      pad_code (width (header_code example_header ++ flat_map sf_code example_sfs)) ++ [(16, 0)])).
    + apply Z.leb_le. vm_compute. reflexivity.
    + exact example_written.
  - vm_compute. reflexivity.
Defined.

Lemma flac_short_input_refused_witness :
  let s := example_context 44100 2 16 16 20 in
  audio_dec_decode (fun _ => true) (fun _ => 0) 1 true s [7] example_input 50
    = Some (-1, None, s, [7]).
Proof.
  intros s. apply flac_short_input_refused.
  - split; [lia|]. apply Z.leb_le. reflexivity.
  - apply Z.ltb_lt. reflexivity.
Defined.

Lemma flac_resync_witness :
  let s := example_context 44100 2 16 16 20 in
  let inbuf := [1; 2; 3; 255; 249] ++ replicate 60 0 in
  exists q, 0 <= q <= 65 - 2 /\ (forall k, 0 <= k < q -> is_sync inbuf k = false) /\
    (is_sync inbuf q = true \/ q = 65 - 2) /\
    audio_dec_decode (fun _ => true) (fun _ => 0) 1 true s [] inbuf 65
      = Some (q, Some 0, set_bitstream s (65 - q) q, []).
Proof.
  intros s inbuf. apply (flac_resync (fun _ => true) (fun _ => 0) 1 true s [] inbuf 65 0x010203FF).
  - split; [lia|]. apply Z.leb_le. reflexivity.
  - lia.
  - apply Z.leb_le. reflexivity.
  - reflexivity.
  - done.
  - reflexivity.
Defined.

Lemma metadata_size_correct_witness :
  let blocks := [(0, replicate 34 1); (4, [5; 6; 7])] in
  get_metadata_size ([102; 76; 97; 67] ++ metadata_bytes blocks ++ [255]) 60 = Some 49 /\
  get_metadata_size ([102; 76; 97; 67] ++ metadata_bytes blocks ++ [255]) 60
    = Some (if 60 <? 4 + zlen (metadata_bytes blocks) then 0
            else 4 + zlen (metadata_bytes blocks)).
Proof.
  intros blocks. split; [reflexivity|]. apply metadata_size_correct.
  - done.
  - repeat constructor; simpl; lia.
  - reflexivity.
  - simpl. lia.
Defined.

(** The STREAMINFO data of a 48 kHz stereo 24-bit stream. *)
Definition example_streaminfo : list Z :=
  [16; 0; 16; 0; 0; 0; 0; 0; 0; 0; 11; 184; 3; 112; 0; 0; 0; 100] ++ replicate 16 0.

Lemma example_streaminfo_ready : ready (MkGetBitContext example_streaminfo 0 0)
  (streaminfo_code 4096 4096 0 0 48000 2 24 100).
Proof.
  split.
  - split; [|simpl; lia]. apply Forall_app_2; [concrete|apply example_bytes].
  - vm_compute. repeat split; reflexivity.
  - apply Z.leb_le. reflexivity.
Qed.

Lemma parse_streaminfo_correct_witness :
  let s := example_context 0 0 0 0 0 in
  exists s', parse_streaminfo (fun _ => true) (fun _ => 0) s
      ([102; 76; 97; 67] ++ [128] ++ be24 34 ++ example_streaminfo) 42 = Some (0, s') /\
    decoder_ready s' /\ got_streaminfo s' = true /\
    info s' = MkStreaminfo 48000 2 24 4096 (am_flac_get_max_frame_size 4096 2 24) 100 /\
    avctx s' = MkAVCodecContext None 0 48000 2 SAMPLE_FMT_S16 24.
Proof.
  intros s. apply (parse_streaminfo_correct (fun _ => true) (fun _ => 0) s [102; 76; 97; 67]
    example_streaminfo 4096 4096 0 0 48000 2 24 100 42).
  - reflexivity.
  - apply Z.leb_le. reflexivity.
  - lia.
  - simpl. lia.
  - simpl. lia.
  - simpl. lia.
  - lia.
  - lia.
  - simpl. lia.
  - reflexivity.
  - exact zero_table.
  - reflexivity.
  - exact example_streaminfo_ready.
Defined.

Lemma audio_dec_init_correct_witness :
  exists s', audio_dec_init (fun _ => true) (fun _ => 0) (example_context 0 0 0 0 0)
      (Some example_streaminfo) 34 = Some (0, s', Some (DefaultReadSize, DefaultOutBufSize)) /\
    decoder_ready s' /\ audio_dec_getinfo s' = (2, 48000, 0, 0) /\ bps (info s') = 24 /\
    av_channels (avctx s') = Z.min 2 2 /\
    sample_fmt (avctx s') = (if 16 <? 24 then SAMPLE_FMT_S32 else SAMPLE_FMT_S16).
Proof.
  apply (audio_dec_init_correct (fun _ => true) (fun _ => 0) _ example_streaminfo
    example_streaminfo 34 4096 4096 0 0 48000 2 24 100).
  - left. split; [done|]. split; [lia|]. exists 0x00100010. split; [reflexivity|done].
  - simpl. lia.
  - simpl. lia.
  - simpl. lia.
  - lia.
  - lia.
  - simpl. lia.
  - exact zero_table.
  - reflexivity.
  - exact example_streaminfo_ready.
Defined.

Lemma flac_warm_up_overrun_witness :
  decode_subframe (MkGetBitContext (96 :: replicate 70 0) 0 0) (replicate 16 0) 16 16 0 0 = None.
Proof.
  apply (flac_warm_up_overrun _ (replicate 16 0) 16 16 0 0 17 (replicate 17 0) []).
  - change (subframe_bps 16 0 0) with 16. lia.
  - simpl. lia.
  - reflexivity.
  - concrete.
  - done.
  - split.
    + split; [|simpl; lia]. constructor; [unfold byte_ok; lia|apply example_bytes].
    + vm_compute. repeat split; reflexivity.
    + apply Z.leb_le. reflexivity.
Defined.

Definition surround_context : FLACContext :=
  set_shift (set_blocksize (set_decoded (example_context 48000 3 16 16 0)
    [[30000; -5]; [1; -30000]; [9000; -5600]]) 2) 0 false.

Lemma flac_downmix_exact_witness :
  let chans := [[30000; -5]; [1; -30000]; [9000; -5600]] in
  write_output surround_context (replicate 9 1)
    = Some (over (pcm 0 [32767; 4501; -2805; -32768]) (replicate 9 1)) /\
  write_output surround_context (replicate 9 1)
    = Some (over (pcm 0 (instants (mixed (16 - 16) chans) 2)) (replicate 9 1)).
Proof.
  intros chans. split; [vm_compute; reflexivity|].
  apply (flac_downmix_exact surround_context 16 2 chans).
  - reflexivity.
  - lia.
  - reflexivity.
  - reflexivity.
  - simpl. lia.
  - reflexivity.
  - lia.
  - reflexivity.
  - simpl. lia.
  - intros [|[|[|i]]] c H; try done; injection H as <-;
      (split; [by exists []|]; split; [done|concrete]).
Defined.

(** Block size code 15.  The table of block sizes has [int16_t] elements, so
    its last entry, 32768, is -32768: it passes the comparison with the maximum
    block size, a frame of constant subframes with this code is accepted, and
    the call reports a negative output length. *)
Theorem flac_blocksize_15_negative :
  aget ff_flac_blocksize_table 15 = Some (-32768) /\
  exists s', audio_dec_decode (fun _ => true) (fun _ => 0) 1 true
      (example_context 44100 1 16 4096 20) [7; 7]
      ([255; 248; 249; 8; 0; 116; 0; 0; 5; 0; 0] ++ replicate 50 0) 61
    = Some (11, Some (-65536), s', [7; 7]).
Proof.
  split; [reflexivity|]. set (call := audio_dec_decode _ _ _ _ _ _ _ _).
  assert (match call with
          | Some (a, Some b, _, o) => (a =? 11) && (b =? -65536) && bool_decide (o = [7; 7])
          | _ => false
          end = true) as H by (vm_compute; reflexivity).
  destruct call as [[[[a [b|]] s'] o]|]; [|done..]. zbool.
  apply bool_decide_eq_true_1 in H0. subst. by exists s'.
Qed.
