(* ===== verification/PlayerQueue.v ===== *)
(** The player's message queue:
    [src/gst-app/gst-app-0.11.0/amlplay/fsl_player_queue.c] and
    [fsl_player_ui_message.c].

    Nodes, messages and message bodies live in one heap; an address is a [Z], 0
    is NULL, and an access to a free cell, a double [free] or a failed assertion
    is [None].  The section of a call that holds the mutex is one function of the
    queue and the heap; the calls of several threads, their waits on the two
    condition variables and the mutex are the step relation at the end. *)
From stdpp Require Import gmap.
From S2P Require Import Prelude.

(** ** Data *)

Inductive fsl_player_ui_msg_id :=
| FSL_PLAYER_UI_MSG_NONE | FSL_PLAYER_UI_MSG_EOS | FSL_PLAYER_UI_MSG_EXIT
| FSL_PLAYER_UI_MSG_INTERNAL_ERROR | FSL_PLAYER_UI_MSG_FF | FSL_PLAYER_UI_MSG_SF
| FSL_PLAYER_UI_MSG_PAUSE | FSL_PLAYER_UI_MSG_RESUME | FSL_PLAYER_UI_MSG_START_STOP
| FSL_PLAYER_UI_MSG_SEEK | FSL_PLAYER_UI_MSG_SEL_AUDIO | FSL_PLAYER_UI_MSG_SEL_SUBTITLE
| FSL_PLAYER_UI_MSG_TOGGLE_SUBTITLE | FSL_PLAYER_UI_MSG_TOGGLE_PLAY_DIRECTION
| FSL_PLAYER_UI_MSG_TRICKMODE | FSL_PLAYER_UI_MSG_VOLUME_ADD
| FSL_PLAYER_UI_MSG_VOLUME_DEC | FSL_PLAYER_UI_MSG_GET_MEDIA_INFO
| FSL_PLAYER_UI_MSG_GET_PLAY_STATUS | FSL_PLAYER_UI_MSG_TOGGLE_DISPLAY
| FSL_PLAYER_UI_MSG_TOGGLE_FULL_SCREEN | FSL_PLAYER_UI_MSG_TOGGLE_DISPLAY_SIZE
| FSL_PLAYER_UI_MSG_ROTATE | FSL_PLAYER_UI_MSG_TOGGLE_MUTE
| FSL_PLAYER_UI_MSG_TOGGLE_SKIP_FRAME | FSL_PLAYER_UI_MSG_TEST
| FSL_PLAYER_UI_MSG_BUFFERING | FSL_PLAYER_UI_MSG_REDIRECT.

#[export] Instance msg_id_eq_dec : EqDecision fsl_player_ui_msg_id.
Proof. solve_decision. Defined.

Inductive fsl_player_ui_msg_put_method := FSL_PLAYER_UI_MSG_PUT_NEW
  | FSL_PLAYER_UI_MSG_REPLACE.

#[export] Instance put_method_eq_dec : EqDecision fsl_player_ui_msg_put_method.
Proof. solve_decision. Defined.

Inductive fsl_player_ret_val := FSL_PLAYER_FAILURE | FSL_PLAYER_SUCCESS
  | FSL_PLAYER_ERROR_BAD_PARAM | FSL_PLAYER_ERROR_NOT_SUPPORT
  | FSL_PLAYER_ERROR_DEVICE_UNAVAILABLE | FSL_PLAYER_ERROR_CANCELLED
  | FSL_PLAYER_ERROR_TIMEOUT.

Definition NULL : Z := 0.

(** What the queue code allocates or frees. *)
Inductive cell :=
| Node (next priv : Z)
| Msg (msg_id : fsl_player_ui_msg_id) (msg_body : Z)
| Body
| Klass.

Abbreviation heap := (gmap Z cell).

Record fsl_player_queue := MkQueue {
  klass : Z; head : Z; tail : Z; len : Z; max_len : Z
}.

Definition MAX_QUEUE_LEN : Z := 2 ^ 32 - 1.

(** ** Memory *)

Definition free (h : heap) (p : Z) : option heap := _ ← h !! p; Some (delete p h).

Definition get_node (h : heap) (p : Z) : option (Z * Z) :=
  match h !! p with Some (Node next priv) => Some (next, priv) | _ => None end.

Definition get_msg (h : heap) (p : Z) : option (fsl_player_ui_msg_id * Z) :=
  match h !! p with Some (Msg id body) => Some (id, body) | _ => None end.

(** [free] of a message body. *)
Definition free_body (h : heap) (p : Z) : option heap :=
  match h !! p with Some Body => Some (delete p h) | _ => None end.

(** [malloc] returned [p], NULL on failure. *)
Definition fsl_player_ui_msg_new_empty (h : heap) (p : Z) (id : fsl_player_ui_msg_id)
    : Z * heap :=
  if p =? NULL then (NULL, h) else (p, <[p := Msg id NULL]> h).

Definition fsl_player_ui_msg_free (h : heap) (msg : Z) : option (Z * heap) :=
  if msg =? NULL then Some (0, h)
  else
    '(_, body) ← get_msg h msg;
    h ← (if negb (body =? NULL) then free_body h body else Some h);
    h ← free h msg;
    Some (1, h).

(** ** Construction *)

(** [p] is the result of [malloc] for [klass]. *)
Definition fsl_player_queue_inst_init (h : heap) (p : Z) : Z * fsl_player_queue * heap :=
  if p =? NULL then (1, MkQueue NULL NULL NULL 0 MAX_QUEUE_LEN, h)
  else (0, MkQueue p NULL NULL 0 MAX_QUEUE_LEN, <[p := Klass]> h).

Definition fsl_player_queue_config (q : fsl_player_queue) (n : Z) : fsl_player_queue :=
  if negb (n =? 0) then
    if len q <=? n then MkQueue (klass q) (head q) (tail q) (len q) n else q
  else q.

(** ** Calls

    How a pass with the mutex held ends: the call returns, with the condition it
    signals if any, or it waits on its condition, for a time or forever. *)
Inductive outcome :=
| Return (ret : fsl_player_ret_val) (msg : Z) (signal : bool)
| Wait (timed : bool).

(** From [QueuePutStart]; [node] is the result of [malloc]. *)
Definition queue_put_start (q : fsl_player_queue) (h : heap) (msg time_out node : Z)
    : option (fsl_player_queue * heap * outcome) :=
  if len q <? max_len q then
    if node =? NULL then Some (q, h, Return FSL_PLAYER_FAILURE NULL false)
    else
      let h := <[node := Node NULL msg]> h in
      h ← (if negb (tail q =? NULL)
           then '(_, priv) ← get_node h (tail q); Some (<[tail q := Node node priv]> h)
           else Some h);
      let head' := if head q =? NULL then node else head q in
      let queue_prev_len := len q in
      Some (MkQueue (klass q) head' node (u32 (len q + 1)) (max_len q), h,
            Return FSL_PLAYER_SUCCESS NULL (queue_prev_len =? 0))
  else if time_out <? 0 then Some (q, h, Wait false)
  else if time_out =? 0 then Some (q, h, Return FSL_PLAYER_ERROR_TIMEOUT NULL false)
  else Some (q, h, Wait true).

(** The [FSL_PLAYER_UI_MSG_REPLACE] branch: the loop returns at the end of its
    first iteration, whether it has replaced a message or not. *)
Definition queue_replace (q : fsl_player_queue) (h : heap) (msg : Z)
    : option (option (fsl_player_queue * heap * outcome)) :=
  if head q =? NULL then Some None
  else
    '(next, priv) ← get_node h (head q);
    '(old_id, _) ← get_msg h priv;
    '(new_id, _) ← get_msg h msg;
    h ← (if decide (old_id = new_id)
         then '(_, h) ← fsl_player_ui_msg_free h priv; Some (<[head q := Node next msg]> h)
         else Some h);
    Some (Some (q, h, Return FSL_PLAYER_SUCCESS NULL false)).

(** The first pass of a put with a non-NULL message. *)
Definition queue_put_first (q : fsl_player_queue) (h : heap) (msg time_out : Z)
    (method : fsl_player_ui_msg_put_method) (node : Z)
    : option (fsl_player_queue * heap * outcome) :=
  if decide (method = FSL_PLAYER_UI_MSG_REPLACE) then
    r ← queue_replace q h msg;
    match r with
    | Some res => Some res
    | None => queue_put_start q h msg time_out node
    end
  else queue_put_start q h msg time_out node.

(** From [QueueGetStart]. *)
Definition queue_get_start (q : fsl_player_queue) (h : heap) (time_out : Z)
    : option (fsl_player_queue * heap * outcome) :=
  if negb (head q =? NULL) then
    let mynode := head q in
    '(next, priv) ← get_node h mynode;
    let queue_prev_len := len q in
    let len' := u32 (len q - 1) in
    tail' ← (if len' =? 0 then if next =? NULL then Some NULL else None else Some (tail q));
    h ← free h mynode;
    Some (MkQueue (klass q) next tail' len' (max_len q), h,
          Return FSL_PLAYER_SUCCESS priv (queue_prev_len =? max_len q))
  else if time_out <? 0 then Some (q, h, Wait false)
  else if time_out =? 0 then Some (q, h, Return FSL_PLAYER_ERROR_TIMEOUT NULL false)
  else Some (q, h, Wait true).

(** The loop of a flush frees the nodes, not the messages.  Fuel: the number of
    heap cells. *)
Fixpoint free_nodes (fuel : nat) (h : heap) (mynode : Z) : option heap :=
  match fuel with
  | O => None
  | S fuel' =>
      if mynode =? NULL then Some h
      else
        '(next, _) ← get_node h mynode; h ← free h mynode; free_nodes fuel' h next
  end.

Definition fsl_player_queue_flush (q : fsl_player_queue) (h : heap)
    : option (fsl_player_queue * heap) :=
  h ← free_nodes (S (size h)) h (head q);
  Some (MkQueue (klass q) NULL NULL 0 (max_len q), h).

Definition fsl_player_queue_inst_deinit (q : fsl_player_queue) (h : heap)
    : option (fsl_player_queue * heap) :=
  '(q, h) ← fsl_player_queue_flush q h;
  h ← (if negb (klass q =? NULL) then free h (klass q) else Some h);
  Some (q, h).

(** ** Threads

    A call is before its [MUTEX_LOCK], or asleep on [cond_empty] or [cond_full],
    or woken and about to take the mutex again, or finished. *)
Inductive call :=
| CallPut (msg time_out : Z) (method : fsl_player_ui_msg_put_method)
| CallGet (time_out : Z)
| CallFlush
| CallConfig (n : Z).

Inductive thread :=
| Calling (c : call)
| Waiting (c : call) (timed : bool)
| Woken (c : call) (timed timed_out : bool)
| Finished (ret : fsl_player_ret_val) (msg : Z).

(** [cfg_locked]: the mutex was left locked by a call that has returned. *)
Record config := MkConfig {
  cfg_queue : fsl_player_queue; cfg_heap : heap; cfg_locked : bool;
  cfg_threads : gmap nat thread
}.

(** The pass of a call from its entry, with the mutex held; [node] is what
    [malloc] returns. *)
Definition call_pass (q : fsl_player_queue) (h : heap) (c : call) (node : Z)
    : option (fsl_player_queue * heap * outcome) :=
  match c with
  | CallPut msg time_out method => queue_put_first q h msg time_out method node
  | CallGet time_out => queue_get_start q h time_out
  | CallFlush =>
      '(q, h) ← fsl_player_queue_flush q h;
      Some (q, h, Return FSL_PLAYER_SUCCESS NULL true)
  | CallConfig n =>
      Some (fsl_player_queue_config q (u32 n), h, Return FSL_PLAYER_SUCCESS NULL false)
  end.

(** The pass after a wait.  A timed wait that timed out, or that finds the queue
    full (empty) again, returns [FSL_PLAYER_ERROR_TIMEOUT]; otherwise the call
    goes back to its start label. *)
Definition woken_pass (q : fsl_player_queue) (h : heap) (c : call) (timed timed_out : bool)
    (node : Z) : option (fsl_player_queue * heap * outcome) :=
  match c with
  | CallPut msg time_out _ =>
      if timed && (timed_out || negb (len q <? max_len q))
      then Some (q, h, Return FSL_PLAYER_ERROR_TIMEOUT NULL false)
      else queue_put_start q h msg time_out node
  | CallGet time_out =>
      if timed && (timed_out || (head q =? NULL))
      then Some (q, h, Return FSL_PLAYER_ERROR_TIMEOUT NULL false)
      else queue_get_start q h time_out
  | _ => None
  end.

(** Which condition a sleeping call waits for, and which one a call signals:
    [true] is [cond_full], "there is a message". *)
Definition waits_full (c : call) : bool := match c with CallGet _ => true | _ => false end.
Definition signals_full (c : call) : bool := match c with CallPut _ _ _ => true | _ => false end.

(** [malloc]: NULL or a fresh address. *)
Definition fresh (h : heap) (node : Z) : Prop := node = NULL \/ (node <> NULL /\ h !! node = None).

(** [pthread_cond_signal]: one sleeping thread wakes, or none sleeps. *)
Inductive signalled (full : bool) (ts : gmap nat thread) : gmap nat thread -> Prop :=
| signal_one t c timed : ts !! t = Some (Waiting c timed) -> waits_full c = full ->
    signalled full ts (<[t := Woken c timed false]> ts)
| signal_none : (forall t c timed, ts !! t = Some (Waiting c timed) -> waits_full c <> full) ->
    signalled full ts ts.

(** The end of a pass of thread [t]. *)
Inductive finish (t : nat) (c : call) (ts : gmap nat thread) : outcome -> gmap nat thread -> Prop :=
| finish_wait timed : finish t c ts (Wait timed) (<[t := Waiting c timed]> ts)
| finish_quiet ret msg : finish t c ts (Return ret msg false) (<[t := Finished ret msg]> ts)
| finish_signal ret msg ts' : signalled (signals_full c) ts ts' ->
    finish t c ts (Return ret msg true) (<[t := Finished ret msg]> ts').

Inductive step : config -> config -> Prop :=
| step_null t q h ts time_out method :
    ts !! t = Some (Calling (CallPut NULL time_out method)) ->
    step (MkConfig q h false ts)
         (MkConfig q h true (<[t := Finished FSL_PLAYER_FAILURE NULL]> ts))
| step_call t c q h ts node q' h' o ts' :
    ts !! t = Some (Calling c) -> (forall time_out method, c <> CallPut NULL time_out method) ->
    fresh h node -> call_pass q h c node = Some (q', h', o) -> finish t c ts o ts' ->
    step (MkConfig q h false ts) (MkConfig q' h' false ts')
| step_woken t c timed timed_out q h ts node q' h' o ts' :
    ts !! t = Some (Woken c timed timed_out) -> fresh h node ->
    woken_pass q h c timed timed_out node = Some (q', h', o) -> finish t c ts o ts' ->
    step (MkConfig q h false ts) (MkConfig q' h' false ts')
| step_time_out t c q h l ts :
    ts !! t = Some (Waiting c true) ->
    step (MkConfig q h l ts) (MkConfig q h l (<[t := Woken c true true]> ts))
| step_spurious t c timed q h l ts :
    ts !! t = Some (Waiting c timed) ->
    step (MkConfig q h l ts) (MkConfig q h l (<[t := Woken c timed false]> ts)).

(** ** The list of nodes *)

(** [l]: the nodes from [p] on, with their messages. *)
Fixpoint queue_at (h : heap) (p : Z) (l : list (Z * Z)) : Prop :=
  match l with
  | [] => p = NULL
  | (a, m) :: l =>
      p = a /\ a <> NULL /\ exists next, h !! a = Some (Node next m) /\ queue_at h next l
  end.

Definition last_node (l : list (Z * Z)) : Z := from_option fst NULL (last l).

(** The queue is the well-formed list [l]. *)
Record wf (q : fsl_player_queue) (h : heap) (l : list (Z * Z)) : Prop := Wf {
  wf_list : queue_at h (head q) l;
  wf_nodup : NoDup l.*1;
  wf_tail : tail q = last_node l;
  wf_len : len q = zlen l;
  wf_max : zlen l <= max_len q < 2 ^ 32
}.

Lemma queue_at_agree h h' p l : (forall a, a ∈ l.*1 -> h' !! a = h !! a) ->
  queue_at h p l -> queue_at h' p l.
Proof.
  revert p. induction l as [|[a m] l IH]; intros p He; [done|].
  intros (->&Ha&next&Hn&Hl). split; [done|]. split; [done|]. exists next.
  split; [rewrite He by (left; done); done|]. apply IH; [|done]. intros b Hb. apply He. by right.
Qed.

Lemma queue_at_node h p l a m : queue_at h p l -> (a, m) ∈ l ->
  a <> NULL /\ exists next, h !! a = Some (Node next m).
Proof.
  revert p. induction l as [|[b mb] l IH]; intros p Hq Hin; [by apply elem_of_nil in Hin|].
  destruct Hq as (->&Hb&next&Hn&Hl). apply elem_of_cons in Hin as [[= -> ->]|Hin].
  - split; [done|]. by exists next.
  - by apply (IH next).
Qed.

Lemma queue_at_addr h p l a : queue_at h p l -> a ∈ l.*1 ->
  a <> NULL /\ exists next m, h !! a = Some (Node next m).
Proof.
  intros Hq Hin. apply list_elem_of_fmap in Hin as ([b m]&->&Hin).
  destruct (queue_at_node _ _ _ _ _ Hq Hin) as (?&next&?). split; [done|]. by exists next, m.
Qed.

Lemma queue_at_not_node h p l a : queue_at h p l ->
  (forall next m, h !! a <> Some (Node next m)) -> a ∉ l.*1.
Proof.
  intros Hq Hne Hin. destruct (queue_at_addr _ _ _ _ Hq Hin) as (_&next&m&E). by apply (Hne next m).
Qed.

Lemma queue_at_nil h l : queue_at h NULL l -> l = [].
Proof. destruct l as [|[a m] l]; [done|]. intros (<-&?&_). done. Qed.

Lemma queue_at_cons h p l : queue_at h p l -> p <> NULL ->
  exists m next l', l = (p, m) :: l' /\ h !! p = Some (Node next m) /\ queue_at h next l'.
Proof.
  destruct l as [|[a m] l]; [intros -> ?; done|]. intros (->&_&next&E&Hl) _. by exists m, next, l.
Qed.

(** A node appended to a list that is not empty. *)
Lemma queue_at_snoc h p l a m node msg : queue_at h p (l ++ [(a, m)]) ->
  NoDup (l ++ [(a, m)]).*1 -> node <> NULL -> h !! node = Some (Node NULL msg) ->
  node ∉ (l ++ [(a, m)]).*1 ->
  h !! a = Some (Node NULL m) /\
  queue_at (<[a := Node node m]> h) p ((l ++ [(a, m)]) ++ [(node, msg)]).
Proof.
  revert p. induction l as [|[b mb] l IH]; intros p Hq Hnd Hn E Hnin; cbn [app] in *.
  - destruct Hq as (->&Ha&next&Ea&->). split; [done|]. split; [done|]. split; [done|].
    exists node. rewrite lookup_insert_eq. split; [done|]. split; [done|]. split; [done|].
    exists NULL. split; [|done]. rewrite lookup_insert_ne; [done|].
    intros ->. apply Hnin. by left.
  - destruct Hq as (->&Hb&next&Eb&Hq). cbn [fmap list_fmap fst] in *.
    apply NoDup_cons in Hnd as [Hbn Hnd]. apply not_elem_of_cons in Hnin as [_ Hnin].
    destruct (IH next Hq Hnd Hn E Hnin) as [Ea Hq']. split; [done|].
    split; [done|]. split; [done|]. exists next. split; [|done].
    rewrite lookup_insert_ne; [done|]. intros ->. apply Hbn.
    rewrite fmap_app. apply elem_of_app. right. by left.
Qed.

Lemma last_node_snoc l a m : last_node (l ++ [(a, m)]) = a.
Proof. unfold last_node. by rewrite last_snoc. Qed.

(** A node is also the last one of its own list only. *)
Lemma last_node_cons a m l : l <> [] -> last_node ((a, m) :: l) = last_node l.
Proof. destruct l as [|x l]; [done|]. intros _. unfold last_node. by rewrite last_cons_cons. Qed.

(** ** Each pass, against a list of messages *)

(** What a put does to the messages [ms]. *)
Definition fifo_put (ms : list Z) (max msg time_out node : Z) : list Z * outcome :=
  if zlen ms <? max then
    if node =? NULL then (ms, Return FSL_PLAYER_FAILURE NULL false)
    else (ms ++ [msg], Return FSL_PLAYER_SUCCESS NULL (zlen ms =? 0))
  else (ms, if time_out <? 0 then Wait false
            else if time_out =? 0 then Return FSL_PLAYER_ERROR_TIMEOUT NULL false
            else Wait true).

Definition fifo_get (ms : list Z) (max time_out : Z) : list Z * outcome :=
  match ms with
  | m :: ms' => (ms', Return FSL_PLAYER_SUCCESS m (zlen ms =? max))
  | [] => (ms, if time_out <? 0 then Wait false
               else if time_out =? 0 then Return FSL_PLAYER_ERROR_TIMEOUT NULL false
               else Wait true)
  end.

(** Cells that are not nodes of the queue. *)
Definition same_messages (h h' : heap) : Prop :=
  forall p id body, h !! p = Some (Msg id body) <-> h' !! p = Some (Msg id body).

Lemma same_messages_refl h : same_messages h h.
Proof. done. Qed.

(** A change of a node, or of a free cell into one. *)
Lemma same_messages_node h a next m : (h !! a = None \/ exists n m', h !! a = Some (Node n m')) ->
  same_messages h (<[a := Node next m]> h).
Proof.
  intros Ha p id body. destruct (decide (a = p)) as [->|Hne].
  - rewrite lookup_insert_eq. destruct Ha as [E|(n&m'&E)]; rewrite E; split; discriminate.
  - by rewrite lookup_insert_ne.
Qed.

Lemma same_messages_delete h a next m : h !! a = Some (Node next m) ->
  same_messages h (delete a h).
Proof.
  intros Ha p id body. destruct (decide (a = p)) as [->|Hne].
  - rewrite lookup_delete_eq, Ha. split; discriminate.
  - by rewrite lookup_delete_ne.
Qed.

Lemma same_messages_trans h1 h2 h3 : same_messages h1 h2 -> same_messages h2 h3 ->
  same_messages h1 h3.
Proof. intros H1 H2 p id body. by rewrite (H1 p). Qed.

Lemma put_start_refines q h l msg time_out node : wf q h l -> fresh h node ->
  exists q' h' l' o, queue_put_start q h msg time_out node = Some (q', h', o) /\
    wf q' h' l' /\ (l'.*2, o) = fifo_put (l.*2) (max_len q) msg time_out node /\
    max_len q' = max_len q /\ klass q' = klass q /\ same_messages h h'.
Proof.
  intros [Hq Hnd Ht Hlen Hmax] Hf. unfold queue_put_start, fifo_put.
  rewrite length_fmap, Hlen. destruct (Z.ltb_spec (zlen l) (max_len q)) as [Hlt|Hge].
  2: { exists q, h, l. destruct (time_out <? 0); [|destruct (time_out =? 0)]; by eexists. }
  destruct Hf as [->|[Hn Hfree]].
  { exists q, h, l. by eexists. }
  rewrite (proj2 (Z.eqb_neq node NULL)) by done.
  assert (node ∉ l.*1) as Hnin.
  { apply (queue_at_not_node h (head q)); [done|]. intros ? ?. by rewrite Hfree. }
  set (h1 := <[node := Node NULL msg]> h).
  assert (h1 !! node = Some (Node NULL msg)) as E1 by apply lookup_insert_eq.
  assert (queue_at h1 (head q) l) as Hq1.
  { apply (queue_at_agree h); [|done]. intros a Ha. apply lookup_insert_ne. by intros ->. }
  assert (same_messages h h1) as Hs1 by (apply same_messages_node; by left).
  assert (u32 (zlen l + 1) = zlen (l ++ [(node, msg)])) as Elen.
  { rewrite length_app. simpl. rewrite wrapu_small by lia. lia. }
  destruct l as [|[a m] l _] using rev_ind.
  - change (last_node []) with NULL in Ht. rewrite Ht. change (negb (NULL =? NULL)) with false.
    cbn [mbind option_bind]. change (queue_at h (head q) []) with (head q = NULL) in Hq.
    rewrite Hq. change (NULL =? NULL) with true. cbv iota.
    eexists _, h1, [(node, msg)], _. split; [done|]. split; [|done].
    split; cbn [head tail len max_len] in *; [|apply NoDup_singleton|done|done|simpl; lia].
    split; [done|]. split; [done|]. by exists NULL.
  - rewrite last_node_snoc in Ht.
    destruct (queue_at_snoc h1 (head q) l a m node msg Hq1 Hnd Hn E1 Hnin) as [Ea Hq'].
    destruct (queue_at_node _ _ _ a m Hq1) as [Ha _]; [apply elem_of_app; right; by left|].
    rewrite Ht, (proj2 (Z.eqb_neq a NULL)) by done. cbn [negb]. unfold get_node.
    rewrite Ea. cbn [mbind option_bind].
    assert (head q <> NULL) as Hh.
    { intros E. rewrite E in Hq. apply queue_at_nil in Hq. by destruct l. }
    rewrite (proj2 (Z.eqb_neq (head q) NULL)) by done.
    eexists _, _, ((l ++ [(a, m)]) ++ [(node, msg)]), _. split; [done|].
    split; [|split; [by rewrite !fmap_app|split; [done|split; [done|]]]].
    + split; cbn [head tail len max_len]; [done| | |done|rewrite length_app; simpl; lia].
      * rewrite fmap_app. apply NoDup_app. split; [done|]. split; [|apply NoDup_singleton].
        intros x Hx Hx'. apply list_elem_of_singleton in Hx'. subst x. by apply Hnin.
      * by rewrite last_node_snoc.
    + eapply same_messages_trans; [exact Hs1|]. apply same_messages_node. right. by exists NULL, m.
Qed.

Lemma get_start_refines q h l time_out : wf q h l ->
  exists q' h' l' o, queue_get_start q h time_out = Some (q', h', o) /\
    wf q' h' l' /\ (l'.*2, o) = fifo_get (l.*2) (max_len q) time_out /\
    max_len q' = max_len q /\ klass q' = klass q /\ same_messages h h'.
Proof.
  intros [Hq Hnd Ht Hlen Hmax]. unfold queue_get_start, fifo_get.
  destruct l as [|[a m] l].
  - change (queue_at h (head q) []) with (head q = NULL) in Hq. rewrite Hq.
    change (negb (NULL =? NULL)) with false. cbv iota.
    exists q, h, []. destruct (time_out <? 0); [|destruct (time_out =? 0)]; eexists;
      (split; [done|]; split; [by split|done]).
  - destruct Hq as (Eh&Ha&next&Ea&Hq). rewrite Eh, (proj2 (Z.eqb_neq a NULL)) by done.
    cbn [negb]. unfold get_node. rewrite Ea. cbn [mbind option_bind].
    cbn [length] in Hlen, Hmax. apply NoDup_cons in Hnd as [Hnin Hnd].
    assert (u32 (len q - 1) = zlen l) as El by (rewrite Hlen, wrapu_small by lia; lia).
    rewrite El. assert ((if zlen l =? 0 then if next =? NULL then Some NULL else None
      else Some (tail q)) = Some (last_node l)) as ->.
    { destruct l as [|x l].
      - change (queue_at h next []) with (next = NULL) in Hq. rewrite Hq. done.
      - rewrite (proj2 (Z.eqb_neq _ 0)) by (simpl; lia). rewrite Ht, last_node_cons by done. done. }
    cbn [mbind option_bind]. unfold free. rewrite Ea. cbn [mbind option_bind].
    eexists _, _, l, _. split; [done|]. split; [|split; [|split; [done|split; [done|]]]].
    + split; cbn [head tail len max_len]; [|done|done|done|lia].
      apply (queue_at_agree h); [|done]. intros b Hb. apply lookup_delete_ne. by intros ->.
    + cbn [fmap list_fmap snd length]. rewrite length_fmap, Hlen. done.
    + by apply (same_messages_delete h a next m).
Qed.

(** Freeing the nodes leaves every other cell. *)
Lemma free_nodes_spec l h p fuel : queue_at h p l -> NoDup l.*1 -> (length l < fuel)%nat ->
  exists h', free_nodes fuel h p = Some h' /\
    (forall a, a ∈ l.*1 -> h' !! a = None) /\ (forall a, a ∉ l.*1 -> h' !! a = h !! a).
Proof.
  revert h p fuel. induction l as [|[a m] l IH]; intros h p [|fuel] Hq Hnd Hf; try (simpl in Hf; lia).
  - change (queue_at h p []) with (p = NULL) in Hq. subst p. exists h. split; [done|].
    split; [intros a Ha; by apply elem_of_nil in Ha|done].
  - destruct Hq as (->&Ha&next&Ea&Hq). cbn [fmap list_fmap fst] in *.
    apply NoDup_cons in Hnd as [Hnin Hnd]. cbn [free_nodes].
    rewrite (proj2 (Z.eqb_neq a NULL)) by done. unfold get_node, free. rewrite Ea.
    cbn [mbind option_bind].
    destruct (IH (delete a h) next fuel) as (h'&->&Hin&Hout); [|done|simpl in Hf; lia|].
    { apply (queue_at_agree h); [|done]. intros b Hb. apply lookup_delete_ne. by intros ->. }
    exists h'. split; [done|]. split.
    + intros b Hb. apply elem_of_cons in Hb as [->|Hb]; [|by apply Hin].
      rewrite Hout by done. apply lookup_delete_eq.
    + intros b Hb. apply not_elem_of_cons in Hb as [Hne Hb]. rewrite Hout by done.
      by apply lookup_delete_ne.
Qed.

Lemma queue_at_size h p l : queue_at h p l -> NoDup l.*1 -> (length l <= size h)%nat.
Proof.
  intros Hq Hnd. rewrite <- (length_fmap fst l), <- (size_list_to_set (C := gset Z)) by done.
  rewrite <- size_dom. apply subseteq_size. intros a Ha. apply elem_of_list_to_set in Ha.
  destruct (queue_at_addr _ _ _ _ Hq Ha) as (_&next&m&E). by apply elem_of_dom_2 in E.
Qed.

Lemma flush_refines q h l : wf q h l ->
  exists h', fsl_player_queue_flush q h = Some (MkQueue (klass q) NULL NULL 0 (max_len q), h') /\
    wf (MkQueue (klass q) NULL NULL 0 (max_len q)) h' [] /\ same_messages h h' /\
    (forall a, a ∈ l.*1 -> h' !! a = None) /\ (forall a, a ∉ l.*1 -> h' !! a = h !! a).
Proof.
  intros [Hq Hnd Ht Hlen Hmax]. unfold fsl_player_queue_flush.
  pose proof (queue_at_size _ _ _ Hq Hnd) as Hsz.
  destruct (free_nodes_spec l h (head q) (S (size h)) Hq Hnd) as (h'&->&Hin&Hout); [lia|].
  cbn [mbind option_bind]. exists h'. split; [done|]. split; [|split; [|done]].
  - split; cbn [head tail len max_len]; [done|constructor|done|done|simpl; lia].
  - intros p id body. destruct (decide (p ∈ l.*1)) as [Hp|Hp].
    + rewrite (Hin p Hp). destruct (queue_at_addr _ _ _ _ Hq Hp) as (_&next&m&E). rewrite E.
      split; discriminate.
    + by rewrite Hout.
Qed.

Lemma config_wf q h l n : wf q h l -> 0 <= n < 2 ^ 32 -> wf (fsl_player_queue_config q n) h l.
Proof.
  intros [Hq Hnd Ht Hlen Hmax] Hn. unfold fsl_player_queue_config.
  destruct (negb (n =? 0)); [|done]. destruct (Z.leb_spec (len q) n); [|done].
  split; cbn [head tail len max_len]; [done..|lia].
Qed.

Lemma free_body_nodes h p h' : free_body h p = Some h' ->
  forall a next m, h !! a = Some (Node next m) -> h' !! a = Some (Node next m).
Proof.
  unfold free_body. destruct (h !! p) as [[]|] eqn:E; try discriminate. intros [= <-] a next m Ha.
  rewrite lookup_delete_ne; [done|]. intros ->. congruence.
Qed.

Lemma msg_free_nodes h p r h' : fsl_player_ui_msg_free h p = Some (r, h') ->
  forall a next m, h !! a = Some (Node next m) -> h' !! a = Some (Node next m).
Proof.
  unfold fsl_player_ui_msg_free. destruct (p =? NULL); [by intros [= <- <-]|].
  unfold get_msg. destruct (h !! p) as [[]|] eqn:E; try discriminate. cbn [mbind option_bind].
  intros H a next m Ha. apply bind_Some in H as (h1&H1&H). apply bind_Some in H as (h2&H2&H).
  injection H as <- <-. unfold free in H2. apply bind_Some in H2 as (x&Hx&[= <-]).
  assert (h1 !! a = Some (Node next m)) as Ha1.
  { destruct (negb (msg_body =? NULL)); [by eapply free_body_nodes|by injection H1 as <-]. }
  rewrite lookup_delete_ne; [done|]. intros ->.
  destruct (negb (msg_body =? NULL)); [|injection H1 as <-; congruence].
  unfold free_body in H1. destruct (h !! msg_body) as [[]|] eqn:Eb; try discriminate.
  injection H1 as <-. rewrite lookup_delete_Some in Ha1. destruct Ha1. congruence.
Qed.

(** The replacing branch keeps the list; only the first message can change. *)
Lemma replace_wf q h l msg q' h' o : wf q h l -> queue_replace q h msg = Some (Some (q', h', o)) ->
  exists a m l', l = (a, m) :: l' /\ q' = q /\ o = Return FSL_PLAYER_SUCCESS NULL false /\
    (wf q h' ((a, m) :: l') /\ h' = h \/ wf q h' ((a, msg) :: l')).
Proof.
  intros [Hq Hnd Ht Hlen Hmax] H. unfold queue_replace in H.
  destruct (Z.eqb_spec (head q) NULL) as [|Hh]; [discriminate|].
  destruct (queue_at_cons _ _ _ Hq Hh) as (m&next&l'&->&Ea&Hl). set (a := head q) in *.
  unfold get_node in H. rewrite Ea in H. cbn [mbind option_bind] in H.
  destruct (get_msg h m) as [[old_id ?]|]; [|discriminate].
  destruct (get_msg h msg) as [[new_id ?]|]; [|discriminate]. cbn [mbind option_bind] in H.
  exists a, m, l'. split; [done|].
  destruct (decide (old_id = new_id)).
  - destruct (fsl_player_ui_msg_free h m) as [[r h1]|] eqn:E; [|discriminate].
    cbn [mbind option_bind] in H. injection H as <- <- <-. split; [done|]. split; [done|]. right.
    cbn [fmap list_fmap fst] in Hnd. apply NoDup_cons in Hnd as [Hnin Hnd].
    split; cbn [head]; [|by apply NoDup_cons| |done|done].
    + split; [done|]. split; [done|]. exists next. rewrite lookup_insert_eq. split; [done|].
      apply (queue_at_agree h1).
      { intros b Hb. apply lookup_insert_ne. by intros ->. }
      clear -Hl E. revert next Hl. induction l' as [|[b mb] l' IH]; intros next Hl; [done|].
      destruct Hl as (->&Hb&nx&Eb&Hl). split; [done|]. split; [done|]. exists nx.
      split; [by eapply msg_free_nodes|]. by apply IH.
    + rewrite Ht. unfold last_node. by destruct l'.
  - injection H as <- <- <-. split; [done|]. split; [done|]. left. split; [by split|done].
Qed.

(** A message that can be read and freed. *)
Definition live (h : heap) (m : Z) (id : fsl_player_ui_msg_id) : Prop :=
  m <> NULL /\ exists body, h !! m = Some (Msg id body) /\ (body = NULL \/ h !! body = Some Body).

(** What a replacing put does to the messages of a queue that is not empty: it looks at the first one only. *)
Definition replaced (old_id new_id : fsl_player_ui_msg_id) (m msg : Z) (ms : list Z) : list Z :=
  (if decide (old_id = new_id) then msg else m) :: ms.

Lemma msg_free_live h m id : live h m id ->
  exists h', fsl_player_ui_msg_free h m = Some (1, h') /\ h' !! m = None /\
    forall p i b, p <> m -> h !! p = Some (Msg i b) <-> h' !! p = Some (Msg i b).
Proof.
  intros (Hm&body&E&Hb). unfold fsl_player_ui_msg_free, get_msg. rewrite (proj2 (Z.eqb_neq m NULL)) by done. rewrite E. cbn [mbind option_bind].
  destruct (Z.eqb_spec body NULL) as [->|Hne]; cbn [negb mbind option_bind].
  - unfold free. rewrite E. cbn [mbind option_bind]. eexists. split; [done|]. split; [apply lookup_delete_eq|]. intros p i b Hp. by rewrite lookup_delete_ne by congruence.
  - destruct Hb as [|Hb]; [done|]. unfold free_body. rewrite Hb. cbn [mbind option_bind]. assert (body <> m) by congruence. unfold free.
    rewrite lookup_delete_ne by done. rewrite E. cbn [mbind option_bind]. eexists. split; [done|]. split; [apply lookup_delete_eq|]. intros p i b Hp.
    rewrite lookup_delete_ne by congruence. destruct (decide (body = p)) as [->|Hbp]; [rewrite Hb, lookup_delete_eq; done|by rewrite lookup_delete_ne].
Qed.

Lemma replace_refines q h a m l msg old_id new_id : wf q h ((a, m) :: l) -> live h m old_id -> live h msg new_id ->
  exists h' l', queue_replace q h msg = Some (Some (q, h', Return FSL_PLAYER_SUCCESS NULL false)) /\ wf q h' l' /\
    l'.*2 = replaced old_id new_id m msg (l.*2) /\ (old_id <> new_id -> h' = h) /\ (old_id = new_id -> h' !! m = None) /\
    forall p i b, p <> m -> h !! p = Some (Msg i b) <-> h' !! p = Some (Msg i b).
Proof.
  intros Hwf Hm Hmsg. pose proof Hm as (_&ob&Eo&_). pose proof Hmsg as (_&nb&En&_). destruct (msg_free_live _ _ _ Hm) as (h1&Ef&Hf1&Hf2).
  pose proof Hwf as [(Eh&Ha&next&Ea&_) _ _ _ _].
  assert (queue_replace q h msg = Some (Some (q, if decide (old_id = new_id) then <[a := Node next msg]> h1 else h, Return FSL_PLAYER_SUCCESS NULL false))) as E.
  { unfold queue_replace, get_node, get_msg. rewrite Eh, (proj2 (Z.eqb_neq a NULL)) by done. rewrite Ea. cbn [mbind option_bind]. rewrite Eo, En. cbn [mbind option_bind].
    rewrite Ef. by destruct (decide (old_id = new_id)). }
  assert (m <> a) by congruence. assert (h1 !! a = Some (Node next m)) as Ea1 by (by apply (msg_free_nodes _ _ _ _ Ef)).
  destruct (replace_wf _ _ _ _ _ _ _ Hwf E) as (a'&m'&l'&[= <- <- <-]&_&_&Hor). unfold replaced. eexists. exists ((a, if decide (old_id = new_id) then msg else m) :: l).
  split; [exact E|]. destruct (decide (old_id = new_id)) as [Heq|Hne].
  - split; [destruct Hor as [[Hw Eq]|Hw]; [|done]|].
    { exfalso. assert (<[a := Node next msg]> h1 !! m = h !! m) as E1 by (by rewrite Eq). rewrite lookup_insert_ne, Hf1, Eo in E1 by done. discriminate. }
    split; [done|]. split; [done|]. split; [intros _; by rewrite lookup_insert_ne|].
    intros p i b Hp. rewrite Hf2 by done. destruct (decide (a = p)) as [->|Hap]; [rewrite lookup_insert_eq, Ea1; by split|by rewrite lookup_insert_ne].
  - split; [exact Hwf|]. done.
Qed.

Lemma wrapu32 n : 0 <= u32 n < 2 ^ 32.
Proof. by apply wrapu_range. Qed.

Lemma call_pass_wf q h l c node q' h' o : wf q h l -> fresh h node ->
  call_pass q h c node = Some (q', h', o) -> exists l', wf q' h' l'.
Proof.
  intros Hwf Hf H. destruct c as [msg time_out method|time_out| |n]; cbn [call_pass] in H.
  - assert (forall q1 h1 o1, queue_put_start q h msg time_out node = Some (q1, h1, o1) ->
      exists l', wf q1 h1 l') as Hput.
    { intros q1 h1 o1 E. destruct (put_start_refines q h l msg time_out node Hwf Hf)
        as (q2&h2&l'&o2&E2&Hwf'&_). rewrite E2 in E. injection E as <- <- <-. by exists l'. }
    unfold queue_put_first in H. destruct (decide (method = FSL_PLAYER_UI_MSG_REPLACE)); [|by apply Hput in H].
    apply bind_Some in H as (r&Hr&H). destruct r as [[[q1 h1] o1]|]; [|by apply Hput in H].
    injection H as <- <- <-.
    destruct (replace_wf _ _ _ _ _ _ _ Hwf Hr) as (a&m&l'&->&->&_&[[? _]|?]); by eexists.
  - destruct (get_start_refines q h l time_out Hwf) as (q1&h1&l'&o1&E&Hwf'&_).
    rewrite E in H. injection H as <- <- <-. by exists l'.
  - destruct (flush_refines q h l Hwf) as (h1&E&Hwf'&_). rewrite E in H.
    cbn [mbind option_bind] in H. injection H as <- <- <-. by exists [].
  - injection H as <- <- <-. exists l. by apply config_wf, wrapu32.
Qed.

Lemma woken_pass_wf q h l c timed timed_out node q' h' o : wf q h l -> fresh h node ->
  woken_pass q h c timed timed_out node = Some (q', h', o) -> exists l', wf q' h' l'.
Proof.
  intros Hwf Hf H. destruct c as [msg time_out method|time_out| |n]; cbn [woken_pass] in H;
    try discriminate.
  - destruct (timed && _); [injection H as <- <- <-; by exists l|].
    destruct (put_start_refines q h l msg time_out node Hwf Hf) as (q1&h1&l'&o1&E&Hwf'&_).
    rewrite E in H. injection H as <- <- <-. by exists l'.
  - destruct (timed && _); [injection H as <- <- <-; by exists l|].
    destruct (get_start_refines q h l time_out Hwf) as (q1&h1&l'&o1&E&Hwf'&_).
    rewrite E in H. injection H as <- <- <-. by exists l'.
Qed.

(** ** Claims *)

(** C13: the queue is a FIFO, but for a replacing put.  On a well-formed queue a pass of each call (put of either
    method, get, flush, configuration; first pass or after a wait) never touches a free
    cell and does to the linked list exactly what the specification does to a
    list of messages: a new put appends, or fails when [malloc] does, or waits or
    times out when the queue is full; a replacing put does the same on an empty queue, and on any other one it frees the
    first message and takes its place when the two have the same id, or changes nothing at all and reports
    success; a get returns and removes the first
    message; a flush empties; a configuration sets the bound when it is not zero and not below the length, and changes nothing else.  The
    result, the signal and the bound are those of the
    specification, and all messages but the one replaced are left alone. *)
Theorem player_queue_refines_fifo q h l msg time_out node n :
  wf q h l -> fresh h node ->
  (forall put, put = queue_put_start q h msg time_out node \/ put = queue_put_first q h msg time_out FSL_PLAYER_UI_MSG_PUT_NEW node \/
     l = [] /\ put = queue_put_first q h msg time_out FSL_PLAYER_UI_MSG_REPLACE node ->
   exists q' h' l' o, put = Some (q', h', o) /\ wf q' h' l' /\
     (l'.*2, o) = fifo_put (l.*2) (max_len q) msg time_out node /\ max_len q' = max_len q /\ same_messages h h') /\
  (forall a m rest old_id new_id, l = (a, m) :: rest -> live h m old_id -> live h msg new_id ->
   exists h' l', queue_put_first q h msg time_out FSL_PLAYER_UI_MSG_REPLACE node = Some (q, h', Return FSL_PLAYER_SUCCESS NULL false) /\ wf q h' l' /\
     l'.*2 = replaced old_id new_id m msg (rest.*2) /\ (old_id <> new_id -> h' = h) /\ (old_id = new_id -> h' !! m = None) /\
     forall p i b, p <> m -> h !! p = Some (Msg i b) <-> h' !! p = Some (Msg i b)) /\
  (exists q' h' l' o, queue_get_start q h time_out = Some (q', h', o) /\ wf q' h' l' /\
     (l'.*2, o) = fifo_get (l.*2) (max_len q) time_out /\ max_len q' = max_len q /\ same_messages h h') /\
  (exists q' h', fsl_player_queue_flush q h = Some (q', h') /\ wf q' h' [] /\ max_len q' = max_len q /\
     same_messages h h' /\ forall a, a ∈ l.*1 -> h' !! a = None) /\
  (let q' := fsl_player_queue_config q (u32 n) in
   wf q' h l /\ max_len q' = (if decide (u32 n <> 0 /\ zlen l <= u32 n) then u32 n else max_len q) /\
   klass q' = klass q /\ head q' = head q /\ tail q' = tail q /\ len q' = len q).
Proof.
  intros Hwf Hf. split; [|split; [|split; [|split]]].
  - intros put Hput. assert (put = queue_put_start q h msg time_out node) as ->.
    { destruct Hput as [->|[->|[-> ->]]]; [done|done|]. unfold queue_put_first, queue_replace. rewrite decide_True by done. by rewrite (wf_list _ _ _ Hwf). }
    destruct (put_start_refines q h l msg time_out node Hwf Hf) as (q'&h'&l'&o&?&?&?&?&_&?).
    by exists q', h', l', o.
  - intros a m rest old_id new_id -> Hm Hmsg. destruct (replace_refines _ _ _ _ _ _ _ _ Hwf Hm Hmsg) as (h'&l'&E&H).
    exists h', l'. split; [|done]. unfold queue_put_first. rewrite decide_True by done. by rewrite E.
  - destruct (get_start_refines q h l time_out Hwf) as (q'&h'&l'&o&?&?&?&?&_&?).
    by exists q', h', l', o.
  - destruct (flush_refines q h l Hwf) as (h'&?&?&?&?&_). by eexists _, h'.
  - cbv zeta. split; [by apply config_wf, wrapu32|]. unfold fsl_player_queue_config. rewrite (wf_len _ _ _ Hwf).
    destruct (Z.eqb_spec (u32 n) 0), (Z.leb_spec (zlen l) (u32 n)); cbn [negb max_len klass head tail len]; (split; [destruct (decide _); [lia|lia]|]); repeat split; by rewrite ?(wf_len _ _ _ Hwf).
Qed.

Definition two_nodes : heap :=
  <[10 := Node 20 1]> (<[20 := Node NULL 2]> (<[1 := Msg FSL_PLAYER_UI_MSG_EOS NULL]> (<[3 := Msg FSL_PLAYER_UI_MSG_EOS NULL]> ∅))).

Lemma player_queue_refines_fifo_witness :
  let q := MkQueue 5 10 20 2 3 in
  (exists q' h' l' o, queue_put_start q two_nodes 3 0 30 = Some (q', h', o) /\ wf q' h' l' /\
     (l'.*2, o) = ([1; 2; 3], Return FSL_PLAYER_SUCCESS NULL false) /\ max_len q' = 3 /\ same_messages two_nodes h') /\
  (exists h' l', queue_put_first q two_nodes 3 0 FSL_PLAYER_UI_MSG_REPLACE 30 = Some (q, h', Return FSL_PLAYER_SUCCESS NULL false) /\ wf q h' l' /\
     l'.*2 = [3; 2] /\ (FSL_PLAYER_UI_MSG_EOS <> FSL_PLAYER_UI_MSG_EOS -> h' = two_nodes) /\ (FSL_PLAYER_UI_MSG_EOS = FSL_PLAYER_UI_MSG_EOS -> h' !! 1 = None) /\
     forall p i b, p <> 1 -> two_nodes !! p = Some (Msg i b) <-> h' !! p = Some (Msg i b)).
Proof.
  intros q.
  assert (wf q two_nodes [(10, 1); (20, 2)]) as Hwf.
  { split; [|by apply (bool_decide_unpack _); vm_compute|done|done|simpl; lia].
    split; [done|]. split; [done|]. exists 20. split; [reflexivity|].
    split; [done|]. split; [done|]. exists NULL. split; reflexivity. }
  destruct (player_queue_refines_fifo q two_nodes [(10, 1); (20, 2)] 3 0 30 8 Hwf) as (Hput&Hrep&_); [right; split; [done|reflexivity]|].
  split; [apply Hput; by left|]. apply (Hrep 10 1 [(20, 2)] FSL_PLAYER_UI_MSG_EOS FSL_PLAYER_UI_MSG_EOS eq_refl).
  - split; [done|]. exists NULL. split; [reflexivity|by left].
  - split; [done|]. exists NULL. split; [reflexivity|by left].
Defined.

(** A started program: a new queue and threads about to make calls. *)
Definition started (cfg : config) : Prop :=
  cfg_locked cfg = false /\
  (exists h0 p, p <> NULL /\
     (0, cfg_queue cfg, cfg_heap cfg) = fsl_player_queue_inst_init h0 p) /\
  forall t th, cfg_threads cfg !! t = Some th -> exists c, th = Calling c.

(** C14: the queue stays well formed under concurrency.  Whatever calls any
    number of threads make, in any interleaving, with waits, time-outs, spurious
    wake-ups and failing allocations, the queue of every reachable configuration
    is a list of distinct nodes ending at [tail], of [len] nodes, no more than
    [max_len]. *)
Theorem player_queue_invariant cfg cfg' :
  started cfg -> rtc step cfg cfg' -> exists l, wf (cfg_queue cfg') (cfg_heap cfg') l.
Proof.
  intros (_&(h0&p&Hp&E)&_) Hr.
  assert (exists l, wf (cfg_queue cfg) (cfg_heap cfg) l) as Hinit.
  { exists []. unfold fsl_player_queue_inst_init in E.
    rewrite (proj2 (Z.eqb_neq p NULL)) in E by done. injection E as -> ->.
    split; cbn; [done|constructor|done|done|]. unfold MAX_QUEUE_LEN. lia. }
  clear E. induction Hr as [cfg|cfg1 cfg2 cfg3 Hs _ IH]; [done|]. apply IH. clear IH.
  destruct Hinit as [l Hwf].
  destruct Hs; cbn [cfg_queue cfg_heap] in *; try (by exists l).
  - by eapply call_pass_wf.
  - by eapply woken_pass_wf.
Qed.

Lemma player_queue_invariant_witness :
  let q := MkQueue 5 NULL NULL 0 MAX_QUEUE_LEN in
  let h := <[5 := Klass]> (∅ : heap) in
  let ts : gmap nat thread := <[1%nat := Calling (CallGet (-1))]> ∅ in
  exists l, wf q h l.
Proof.
  intros q h ts.
  apply (player_queue_invariant (MkConfig q h false ts)
    (MkConfig q h false (<[1%nat := Waiting (CallGet (-1)) false]> ts))).
  - split; [done|]. split; [by exists ∅, 5|].
    intros t th. cbn [cfg_threads]. unfold ts. rewrite lookup_insert_Some, lookup_empty.
    intros [[_ <-]|[_ ?]]; [by eexists|done].
  - apply rtc_once.
    apply (step_call 1 (CallGet (-1)) q h ts NULL q h (Wait false)); [done|done|by left|done|].
    constructor.
Defined.

(** C40: a NULL message locks the queue for good.  The NULL test of a put comes
    after [MUTEX_LOCK] and returns without unlocking: from then on, in every
    execution, no call that has not finished ever finishes. *)
Theorem put_null_deadlocks t q h ts time_out method cfg :
  ts !! t = Some (Calling (CallPut NULL time_out method)) ->
  rtc step (MkConfig q h true (<[t := Finished FSL_PLAYER_FAILURE NULL]> ts)) cfg ->
  step (MkConfig q h false ts)
       (MkConfig q h true (<[t := Finished FSL_PLAYER_FAILURE NULL]> ts)) /\
  cfg_locked cfg = true /\
  forall t' ret msg, t' <> t -> cfg_threads cfg !! t' = Some (Finished ret msg) ->
    ts !! t' = Some (Finished ret msg).
Proof.
  intros Ht Hr. split; [by eapply step_null|].
  set (ts0 := <[t := _]> ts) in *.
  enough (cfg_locked cfg = true /\ forall t' ret msg,
    cfg_threads cfg !! t' = Some (Finished ret msg) -> ts0 !! t' = Some (Finished ret msg))
    as [Hl Hf].
  { split; [done|]. intros t' ret msg Hne E. apply Hf in E. unfold ts0 in E.
    by rewrite lookup_insert_ne in E. }
  remember (MkConfig q h true ts0) as cfg0 eqn:E0.
  assert (cfg_locked cfg0 = true) as Hl0 by (by subst).
  assert (cfg_threads cfg0 = ts0) as <- by (by subst). clear E0 Ht.
  induction Hr as [cfg|cfg1 cfg2 cfg3 Hs _ IH]; [done|].
  destruct Hs; cbn [cfg_locked cfg_threads] in *; try discriminate;
    (destruct IH as [Hl Hf]; [done|]; split; [done|]; intros t' ret msg E; apply Hf in E;
     rewrite lookup_insert_Some in E; destruct E as [[_ ?]|[_ ?]]; [discriminate|done]).
Qed.

Lemma put_null_deadlocks_witness :
  let q := MkQueue 5 NULL NULL 0 4 in
  let ts : gmap nat thread :=
    <[1%nat := Calling (CallPut NULL 0 FSL_PLAYER_UI_MSG_PUT_NEW)]>
      (<[2%nat := Calling (CallGet 0)]> ∅) in
  let cfg := MkConfig q ∅ true (<[1%nat := Finished FSL_PLAYER_FAILURE NULL]> ts) in
  step (MkConfig q ∅ false ts) cfg /\ cfg_locked cfg = true /\
  forall t' ret msg, t' <> 1%nat -> cfg_threads cfg !! t' = Some (Finished ret msg) ->
    ts !! t' = Some (Finished ret msg).
Proof.
  intros q ts cfg.
  apply (put_null_deadlocks 1 q ∅ ts 0 FSL_PLAYER_UI_MSG_PUT_NEW cfg); [reflexivity|apply rtc_refl].
Defined.

(** A replacing put loses its message.  The loop over the queued messages
    returns at the end of its first iteration: on a queue that is not empty, a
    put with [FSL_PLAYER_UI_MSG_REPLACE] looks at the first message only; when
    its id is another one the call reports success and neither the queue nor the
    heap has changed, so the new message is in no queue. *)
Theorem replace_loses_message q h a m l msg old_id old_body new_id new_body time_out node :
  wf q h ((a, m) :: l) -> h !! m = Some (Msg old_id old_body) ->
  h !! msg = Some (Msg new_id new_body) -> old_id <> new_id ->
  queue_put_first q h msg time_out FSL_PLAYER_UI_MSG_REPLACE node
    = Some (q, h, Return FSL_PLAYER_SUCCESS NULL false).
Proof.
  intros [(Eh&Ha&next&Ea&_) _ _ _ _] Hm Hmsg Hne. unfold queue_put_first, queue_replace.
  rewrite decide_True by done. rewrite Eh, (proj2 (Z.eqb_neq a NULL)) by done.
  unfold get_node, get_msg. rewrite Ea. cbn [mbind option_bind]. rewrite Hm, Hmsg.
  cbn [mbind option_bind]. by rewrite decide_False.
Qed.

Lemma replace_loses_message_witness :
  let h := <[7 := Msg FSL_PLAYER_UI_MSG_BUFFERING NULL]> (<[1 := Msg FSL_PLAYER_UI_MSG_EOS NULL]>
             (<[10 := Node NULL 1]> ∅)) in
  let q := MkQueue 5 10 10 1 MAX_QUEUE_LEN in
  queue_put_first q h 7 (-1) FSL_PLAYER_UI_MSG_REPLACE 30
    = Some (q, h, Return FSL_PLAYER_SUCCESS NULL false).
Proof.
  intros h q. apply (replace_loses_message q h 10 1 [] 7 FSL_PLAYER_UI_MSG_EOS NULL
    FSL_PLAYER_UI_MSG_BUFFERING NULL).
  - split; [|apply NoDup_singleton|done|done|split; [apply Z.leb_le|apply Z.ltb_lt]; reflexivity].
    split; [done|]. split; [done|]. exists NULL. split; reflexivity.
  - reflexivity.
  - reflexivity.
  - done.
Defined.

(** Two threads waiting for messages for ever, two about to put one each. *)
Definition two_and_two : gmap nat thread :=
  <[1%nat := Calling (CallGet (-1))]> (<[2%nat := Calling (CallGet (-1))]>
  (<[3%nat := Calling (CallPut 100 (-1) FSL_PLAYER_UI_MSG_PUT_NEW)]>
  (<[4%nat := Calling (CallPut 101 (-1) FSL_PLAYER_UI_MSG_PUT_NEW)]> ∅))).

Definition empty_queue : fsl_player_queue := MkQueue 5 NULL NULL 0 MAX_QUEUE_LEN.
Definition empty_heap : heap := <[5 := Klass]> ∅.

(** The threads of the schedule below, after each of its steps. *)
Definition asleep : thread := Waiting (CallGet (-1)) false.
Definition stuck_threads : gmap nat thread :=
  <[1%nat := Finished FSL_PLAYER_SUCCESS 100]> (<[4%nat := Finished FSL_PLAYER_SUCCESS NULL]>
  (<[3%nat := Finished FSL_PLAYER_SUCCESS NULL]> (<[1%nat := Woken (CallGet (-1)) false false]>
  (<[2%nat := asleep]> (<[1%nat := asleep]> two_and_two))))).
Definition stuck_config : config :=
  MkConfig (MkQueue 5 20 20 1 MAX_QUEUE_LEN) (<[20 := Node NULL 101]> empty_heap) false
    stuck_threads.

(** A call made at a position of the schedule. *)
Ltac run_call t c node :=
  eapply rtc_l; [eapply (step_call t c _ _ _ node);
    [reflexivity|(let E := fresh in intros ? ? E; unfold NULL in E; discriminate)|(by left) || (right; split; [done|reflexivity])
    |vm_compute; reflexivity|]|].

(** A lost wake-up.  A put signals [cond_full] only when the queue was
    empty.  With two threads asleep in a get without time limit, two puts in a
    row send one signal: the first thread takes the first message, and the second
    one sleeps on while a message is in the queue and every other call has
    finished; only a spurious wake-up of the thread library can still run it. *)
Theorem lost_wakeup :
  rtc step (MkConfig empty_queue empty_heap false two_and_two) stuck_config /\
  len (cfg_queue stuck_config) = 1 /\ stuck_threads !! 2%nat = Some asleep /\
  forall cfg', step stuck_config cfg' ->
    cfg' = MkConfig (cfg_queue stuck_config) (cfg_heap stuck_config) false
             (<[2%nat := Woken (CallGet (-1)) false false]> stuck_threads).
Proof.
  split.
  - run_call 1%nat (CallGet (-1)) NULL; [constructor|].
    run_call 2%nat (CallGet (-1)) NULL; [constructor|].
    run_call 3%nat (CallPut 100 (-1) FSL_PLAYER_UI_MSG_PUT_NEW) 10.
    { apply finish_signal. apply (signal_one _ _ 1 (CallGet (-1)) false); reflexivity. }
    run_call 4%nat (CallPut 101 (-1) FSL_PLAYER_UI_MSG_PUT_NEW) 20; [constructor|].
    eapply rtc_l.
    { eapply (step_woken 1 (CallGet (-1)) false false _ _ _ NULL);
        [reflexivity|by left|vm_compute; reflexivity|constructor]. }
    match goal with |- rtc _ ?a ?b => replace a with b by reflexivity end. apply rtc_refl.
  - split; [done|]. split; [reflexivity|].
    assert (forall t th, stuck_threads !! t = Some th ->
      t = 2%nat /\ th = asleep \/ exists ret msg, th = Finished ret msg) as Hts.
    { intros t th H. unfold stuck_threads, two_and_two in H.
      repeat (rewrite lookup_insert_Some in H; destruct H as [[<- <-]|[? H]];
        [first [by left|by right; eexists _, _|congruence]|]).
      by rewrite lookup_empty in H. }
    intros cfg' H. remember stuck_config as cfg eqn:E.
    destruct H as [t q h ts time_out method Ht|t c q h ts node q' h' o ts' Ht|
      t c timed timed_out q h ts node q' h' o ts' Ht|t c q h l ts Ht|t c timed q h l ts Ht];
      unfold stuck_config in E; injection E; intros; subst;
      apply Hts in Ht as [[-> Ht]|(?&?&?)]; try discriminate.
    unfold asleep in Ht. injection Ht as -> ->. done.
Qed.
