(* ===== verification/Vp9Superframe.v ===== *)
(** VP9 input of the V4L2 player: [src/v4l2-uvm-test/src/vp9.c] and the packing
    of its frames by [v4l2_dec_frame_done] of [v4l2-dec.c].

    [vp9_superframe_split_filter] finds the frames of a superframe from the index
    at its end; the packer copies them to secure memory, each behind a 16-byte
    header. *)
From S2P Require Import Prelude.

(** ** Splitting *)

Record vp9_superframe_split := MkSplit {
  data : option (list Z); data_size : Z;
  nb_frames : Z; size : Z; next_frame : Z; next_frame_offset : Z; prefix_size : Z;
  sizes : list Z
}.

Definition set_sizes (s : vp9_superframe_split) (v : list Z) : vp9_superframe_split :=
  MkSplit (data s) (data_size s) (nb_frames s) (size s) (next_frame s) (next_frame_offset s)
    (prefix_size s) v.

(** [for (j = 0; j < length_size; j++) frame_size |= s->data[idx++] << (j * 8)] *)
Definition read_size (d : list Z) (length_size idx : Z) : option (Z * Z) :=
  for_range 0 length_size (fun j '(frame_size, idx) =>
    b ← aget d idx; Some (s32 (frame_size .| (b .<< (j * 8))), idx + 1)) (0, idx).

(** Body of the loop over the frames; the state is [total_size], [idx], the
    context and whether the loop has failed.  The comparison with
    [s->data_size - idx_size] is unsigned. *)
Definition index_step (d : list Z) (length_size idx_size i : Z)
    (st : Z * Z * vp9_superframe_split * bool) : option (Z * Z * vp9_superframe_split * bool) :=
  let '(total_size, idx, s, failed) := st in
  if failed : bool then Some st
  else
    '(frame_size, idx) ← read_size d length_size idx;
    let total_size := s32 (total_size + frame_size) in
    if (frame_size <? 0) || (u32 (data_size s - idx_size) <? u32 total_size)
    then Some (total_size, idx, s, true)
    else sz ← aset (sizes s) i frame_size; Some (total_size, idx, set_sizes s sz, false).

Definition vp9_superframe_split_filter (s : vp9_superframe_split)
    : option (Z * vp9_superframe_split) :=
  match data s with
  | None => Some (-1, s)
  | Some d =>
      marker ← aget d (data_size s - 1);
      if marker .& 0xe0 =? 0xc0 then
        let length_size := 1 + ((marker .>> 3) .& 0x3) in
        let nb := 1 + (marker .& 0x7) in
        let idx_size := 2 + nb * length_size in
        first ← (if idx_size <=? data_size s
                 then b ← aget d (data_size s - idx_size); Some (b =? marker) else Some false);
        if first : bool then
          '(total_size, _, s, failed) ←
            for_range 0 nb (index_step d length_size idx_size)
              (0, data_size s + 1 - idx_size, s, false);
          if failed : bool then Some (-1, s)
          else Some (0, MkSplit (data s) (data_size s) nb total_size 0 0 (prefix_size s) (sizes s))
        else Some (0, s)
      else
        sz ← aset (sizes s) 0 (s32 (data_size s));
        Some (0, MkSplit (data s) (data_size s) 1 (s32 (data_size s)) (next_frame s)
                   (next_frame_offset s) (prefix_size s) sz)
  end.

(** ** Packing *)

(** The bytes of [fill_vp9_header]; its NULL test is the caller's. *)
Definition fill_vp9_header (len : Z) : list Z :=
  let len := s32 (len + 4) in
  let b0 := (len .>> 24) .& 0xff in
  let b1 := (len .>> 16) .& 0xff in
  let b2 := (len .>> 8) .& 0xff in
  let b3 := (len .>> 0) .& 0xff in
  [b0; b1; b2; b3; b0 .^ 0xff; b1 .^ 0xff; b2 .^ 0xff; b3 .^ 0xff;
   0; 0; 0; 1; 0x41; 0x4D; 0x4C; 0x56].

(** The secure memory library: [secmem_fill smem offset bytes] for
    [secmem_fill(smem, buf, offset, size)], and [secmem_alloc], which may fail. *)
Section Pack.
Variable secmem_fill : list Z -> Z -> list Z -> option (list Z).
Variable secmem_alloc : Z -> option (list Z).

(** [for (int i = s.nb_frames; i > 0; i--)]: the frames are copied from the last
    one to the first one. *)
Fixpoint pack_frames (n : nat) (s : vp9_superframe_split) (es_buf smem : list Z)
    (offset stream_offset : Z) : option (list Z) :=
  match n with
  | O => Some smem
  | S n' =>
      sub_size ← aget (sizes s) (Z.of_nat n');
      let offset := offset - sub_size in
      let stream_offset := stream_offset - sub_size in
      body ← asub es_buf stream_offset sub_size;
      smem ← secmem_fill smem offset body;
      let offset := offset - 16 in
      smem ← secmem_fill smem offset (fill_vp9_header sub_size);
      pack_frames n' s es_buf smem offset stream_offset
  end.

(** The VP9 part of [v4l2_dec_frame_done]: [s] is the local, uninitialised
    structure.  The result is the filled buffer, or nothing on an early return. *)
Definition pack_vp9 (s : vp9_superframe_split) (es_buf : list Z) (used : Z)
    : option (option (list Z)) :=
  '(ret, s) ← vp9_superframe_split_filter
                (MkSplit (Some es_buf) used (nb_frames s) (size s) (next_frame s)
                   (next_frame_offset s) (prefix_size s) (sizes s));
  if negb (ret =? 0) then Some None
  else
    let frame_size := s32 (size s + nb_frames s * 16) in
    match secmem_alloc frame_size with
    | None => Some None
    | Some smem =>
        smem ← pack_frames (Z.to_nat (nb_frames s)) s es_buf smem frame_size (size s);
        Some (Some smem)
    end.
End Pack.


(** ** The index of a superframe *)

Definition le_byte (n j : Z) : Z := (n / 2 ^ (8 * j)) mod 256.

(** [n] as [k] little-endian bytes. *)
Definition le_bytes (k n : Z) : list Z := map (le_byte n) (seqZ 0 k).

Definition marker_of (ls nb : Z) : Z := 0xC0 + 8 * (ls - 1) + (nb - 1).

Definition index_bytes (ls : Z) (frames : list (list Z)) : list Z :=
  marker_of ls (zlen frames) :: flat_map (fun f : list Z => le_bytes ls (zlen f)) frames ++
  [marker_of ls (zlen frames)].

(** What an encoder writes: the frames, then the index. *)
Definition superframe (ls : Z) (frames : list (list Z)) : list Z :=
  concat frames ++ index_bytes ls frames.

(** One to eight frames whose sizes fit the index and a 32-bit [int]. *)
Record frames_ok (ls : Z) (frames : list (list Z)) : Prop := FramesOk {
  fo_ls : 1 <= ls <= 4;
  fo_count : 1 <= zlen frames <= 8;
  fo_sizes : Forall (fun f => zlen f < 2 ^ (8 * ls)) frames;
  fo_total : zlen (superframe ls frames) < 2 ^ 31
}.

Lemma marker_fields ls nb : 1 <= ls <= 4 -> 1 <= nb <= 8 ->
  marker_of ls nb .& 0xe0 = 0xc0 /\ 1 + ((marker_of ls nb .>> 3) .& 0x3) = ls /\
  1 + (marker_of ls nb .& 0x7) = nb.
Proof.
  intros Hl Hn. assert (forallb (fun l => forallb (fun n =>
    (marker_of l n .& 0xe0 =? 0xc0) && (1 + ((marker_of l n .>> 3) .& 0x3) =? l) &&
    (1 + (marker_of l n .& 0x7) =? n)) (seqZ 1 8)) (seqZ 1 4) = true) as Hall
    by (vm_compute; reflexivity).
  pose proof (forall_range _ _ _ Hall ls ltac:(lia)) as H. cbv beta in H.
  pose proof (forall_range _ _ _ H nb ltac:(lia)) as H'. cbv beta in H'. by zbool.
Qed.

Lemma le_bytes_length k n : 0 <= k -> zlen (le_bytes k n) = k.
Proof. intros. unfold le_bytes. rewrite length_map, length_seqZ. lia. Qed.

Lemma le_bytes_get k n j : 0 <= j < k -> aget (le_bytes k n) j = Some (le_byte n j).
Proof.
  intros. rewrite aget_lookup by lia. unfold le_bytes. rewrite list_lookup_fmap.
  rewrite lookup_seqZ_lt by lia. cbn. do 2 f_equal. lia.
Qed.

(** Reading one size of the index. *)
Lemma read_size_spec d ls idx n : 1 <= ls <= 4 -> 0 <= n < 2 ^ 31 -> n < 2 ^ (8 * ls) ->
  (forall j, 0 <= j < ls -> aget d (idx + j) = Some (le_byte n j)) ->
  read_size d ls idx = Some (n, idx + ls).
Proof.
  intros Hls Hn Hn' Hd. unfold read_size.
  destruct (for_range_inv (fun j st => st = (n mod 2 ^ (8 * j), idx + j)) 0 ls
    (fun j '(frame_size, idx) =>
      b ← aget d idx; Some (s32 (frame_size .| (b .<< (j * 8))), idx + 1)) (0, idx))
    as (st&E&->); [lia| | |].
  - change (2 ^ (8 * 0)) with 1. rewrite Z.mod_1_r. f_equal. lia.
  - intros j st Hj ->. rewrite Hd by lia. cbn [mbind option_bind]. eexists. split; [done|].
    replace (j * 8) with (8 * j) by lia.
    rewrite lor_shiftl_add; [|lia|apply Z.mod_pos_bound, pow2_pos; lia].
    assert (n mod 2 ^ (8 * j) + le_byte n j * 2 ^ (8 * j) = n mod 2 ^ (8 * (j + 1))) as ->.
    { unfold le_byte. replace (8 * (j + 1)) with (8 * j + 8) by lia. rewrite Z.pow_add_r by lia.
      rewrite Z.rem_mul_r; [|apply Z.pow_nonzero; lia|done].
      change (2 ^ 8) with 256. lia. }
    pose proof (Z.mod_pos_bound n (2 ^ (8 * (j + 1))) (pow2_pos (8 * (j + 1)) ltac:(lia))).
    pose proof (Z.mod_le n (2 ^ (8 * (j + 1))) ltac:(lia) (pow2_pos (8 * (j + 1)) ltac:(lia))).
    rewrite wraps_small by (change (2 ^ (32 - 1)) with (2 ^ 31); lia). f_equal. lia.
  - rewrite E. by rewrite Z.mod_small by lia.
Qed.

Lemma sum_take_le l n : Forall (fun x => 0 <= x) l -> 0 <= sum (take n l) <= sum l.
Proof.
  intros H. rewrite <- (take_drop n l) at 3. rewrite sum_app.
  assert (forall k, Forall (fun x => 0 <= x) k -> 0 <= sum k) as Hs.
  { unfold sum. induction 1; simpl; lia. }
  pose proof (Hs (take n l) (Forall_take _ _ _ H)).
  pose proof (Hs (drop n l) (Forall_drop _ _ _ H)). lia.
Qed.

Lemma index_length ls frames : 0 <= ls ->
  zlen (flat_map (fun f : list Z => le_bytes ls (zlen f)) frames) = zlen frames * ls.
Proof.
  intros. induction frames as [|f frames IH]; [done|]. cbn [flat_map length].
  rewrite length_app, Nat2Z.inj_add, IH, le_bytes_length by done. lia.
Qed.

(** Byte [j] of entry [i] of the index. *)
Lemma index_get ls frames i f j : frames !! i = Some f -> 0 <= j < ls ->
  aget (flat_map (fun f : list Z => le_bytes ls (zlen f)) frames) (Z.of_nat i * ls + j)
    = Some (le_byte (zlen f) j).
Proof.
  intros Hi Hj. revert i Hi. induction frames as [|g frames IH]; intros i Hi; [done|].
  pose proof (le_bytes_length ls (zlen g) ltac:(lia)) as Hl.
  cbn [flat_map]. destruct i as [|i]; simpl in Hi.
  - injection Hi as ->. rewrite aget_lookup by lia. rewrite lookup_app_l by lia.
    rewrite <- aget_lookup by lia. rewrite Z.mul_0_l, Z.add_0_l. by apply le_bytes_get.
  - rewrite <- (IH i Hi). rewrite !aget_lookup by nia. rewrite lookup_app_r by nia.
    f_equal. nia.
Qed.

Lemma lookup_S (x : Z) l n : (x :: l) !! S n = l !! n.
Proof. done. Qed.

Section Superframe.
Variables (ls : Z) (frames : list (list Z)).
Hypothesis Hok : frames_ok ls frames.

Abbreviation nb := (zlen frames).
Abbreviation idx_size := (2 + nb * ls).
Abbreviation d := (superframe ls frames).
Abbreviation sz := (map (fun f : list Z => zlen f) frames).

Lemma superframe_length : zlen d = zlen (concat frames) + idx_size.
Proof.
  destruct Hok. unfold superframe, index_bytes. rewrite length_app. cbn [length].
  rewrite length_app, Nat2Z.inj_add, Nat2Z.inj_succ, Nat2Z.inj_add, index_length by lia.
  simpl length. lia.
Qed.

Lemma superframe_marker : aget d (zlen d - 1) = Some (marker_of ls nb) /\
  aget d (zlen d - idx_size) = Some (marker_of ls nb).
Proof.
  destruct Hok. pose proof superframe_length as Hl. split.
  - rewrite Hl. rewrite aget_lookup by lia. unfold superframe.
    rewrite lookup_app_r by lia. unfold index_bytes.
    replace (Z.to_nat (zlen (concat frames) + idx_size - 1) - length (concat frames))%nat
      with (S (length (flat_map (fun f : list Z => le_bytes ls (zlen f)) frames)))
      by (pose proof (index_length ls frames ltac:(lia)); lia).
    rewrite lookup_S, lookup_app_r by lia. by rewrite Nat.sub_diag.
  - rewrite Hl. rewrite aget_lookup by lia. unfold superframe.
    rewrite lookup_app_r by lia.
    by replace (Z.to_nat (zlen (concat frames) + idx_size - idx_size) - length (concat frames))%nat
      with O by lia.
Qed.

Lemma superframe_entry i f j : frames !! i = Some f -> 0 <= j < ls ->
  aget d (zlen d + 1 - idx_size + Z.of_nat i * ls + j) = Some (le_byte (zlen f) j).
Proof.
  intros Hi Hj. destruct Hok. pose proof superframe_length as Hl. rewrite Hl.
  pose proof (lookup_lt_Some _ _ _ Hi) as Hil.
  assert (Z.of_nat i * ls + j < nb * ls) as Hb by nia.
  pose proof (index_length ls frames ltac:(lia)) as Hix.
  rewrite <- (index_get ls frames i f j Hi Hj). rewrite !aget_lookup by nia.
  unfold superframe. rewrite lookup_app_r by nia. unfold index_bytes.
  replace (Z.to_nat (zlen (concat frames) + idx_size + 1 - idx_size + Z.of_nat i * ls + j)
    - length (concat frames))%nat with (S (Z.to_nat (Z.of_nat i * ls + j))) by nia.
  by rewrite lookup_S, lookup_app_l by lia.
Qed.

Lemma sizes_nonneg : Forall (fun x => 0 <= x) sz.
Proof. apply Forall_map, Forall_true. intros f. lia. Qed.

Lemma index_loop s : data_size s = zlen d -> length (sizes s) = 8%nat ->
  for_range 0 nb (index_step d ls idx_size) (0, zlen d + 1 - idx_size, s, false)
  = Some (sum sz, zlen d + 1 - idx_size + nb * ls, set_sizes s (sz ++ drop (length frames) (sizes s)),
          false).
Proof.
  intros Hds H8. destruct Hok as [Hls Hc Hsz Ht]. pose proof superframe_length as Hl.
  destruct (for_range_inv (fun i st => st = (sum (take (Z.to_nat i) sz),
      zlen d + 1 - idx_size + i * ls,
      set_sizes s (take (Z.to_nat i) sz ++ drop (Z.to_nat i) (sizes s)), false)) 0 nb
    (index_step d ls idx_size) (0, zlen d + 1 - idx_size, s, false)) as (st&E&->);
    [lia| | |].
  - cbn. unfold set_sizes. destruct s. cbn. repeat f_equal; lia.
  - intros i st Hi ->. destruct (lookup_lt_is_Some_2 frames (Z.to_nat i)) as [f Ef]; [lia|].
    assert (sz !! Z.to_nat i = Some (zlen f)) as Es by (rewrite list_lookup_fmap, Ef; done).
    pose proof (sum_take_le sz (Z.to_nat (i + 1)) sizes_nonneg) as Hsum.
    pose proof (sum_take_le sz (Z.to_nat i) sizes_nonneg) as Hsum'.
    rewrite sum_concat in Hsum, Hsum'.
    assert (take (Z.to_nat (i + 1)) sz = take (Z.to_nat i) sz ++ [zlen f]) as Et.
    { replace (Z.to_nat (i + 1)) with (S (Z.to_nat i)) by lia. by apply take_S_r. }
    assert (sum (take (Z.to_nat (i + 1)) sz) = sum (take (Z.to_nat i) sz) + zlen f) as Es'.
    { rewrite Et, sum_app. unfold sum at 2. simpl. lia. }
    unfold index_step.
    rewrite (read_size_spec d ls _ (zlen f)).
    + cbn [mbind option_bind]. rewrite (proj2 (Z.ltb_ge (zlen f) 0)) by lia.
      change (data_size (set_sizes s _)) with (data_size s). rewrite Hds.
      assert (forall x, 0 <= x <= zlen d -> u32 (s32 x) = x /\ s32 x = x /\ u32 x = x) as Hw.
      { intros x Hx. assert (s32 x = x) as Ex by (apply wraps_small; [done|change (2 ^ (32 - 1)) with (2 ^ 31); lia]).
        rewrite Ex, wrapu_small by lia. done. }
      destruct (Hw (sum (take (Z.to_nat i) sz) + zlen f)) as (Hw1&Hw2&_); [lia|].
      destruct (Hw (zlen d - idx_size)) as (_&_&Hw3); [lia|]. rewrite Hw1, Hw3.
      rewrite (proj2 (Z.ltb_ge (zlen d - idx_size) _)) by lia. cbn [orb].
      change (sizes (set_sizes s ?v)) with v.
      rewrite aset_Some by (rewrite length_app, length_take, length_drop, length_map; lia).
      cbn [mbind option_bind]. eexists. split; [done|].
      rewrite Hw2, Es'. unfold set_sizes. cbn -[Z.mul Z.add Z.of_nat]. do 3 f_equal; [lia|].
      f_equal. rewrite Et, <- app_assoc. cbn [app].
      rewrite insert_app_r_alt by (rewrite length_take, length_map; lia).
      rewrite length_take, length_map, Nat.min_l, Nat.sub_diag by lia. f_equal.
      destruct (drop (Z.to_nat i) (sizes s)) as [|y l'] eqn:Ed.
      { apply (f_equal length) in Ed. rewrite length_drop in Ed. simpl in Ed. lia. }
      cbn [insert list_insert]. f_equal.
      replace (Z.to_nat (i + 1)) with (Z.to_nat i + 1)%nat by lia. by rewrite <- drop_drop, Ed.
    + lia.
    + lia.
    + rewrite Forall_forall in Hsz. apply Hsz. by eapply list_elem_of_lookup_2.
    + intros j Hj. rewrite <- (superframe_entry (Z.to_nat i) f j Ef Hj). f_equal. lia.
  - rewrite E. rewrite take_ge by (rewrite length_map; lia). by rewrite Nat2Z.id.
Qed.

Lemma split_superframe s : data s = Some d -> data_size s = zlen d -> length (sizes s) = 8%nat ->
  vp9_superframe_split_filter s
    = Some (0, MkSplit (Some d) (zlen d) nb (zlen (concat frames)) 0 0 (prefix_size s)
                 (sz ++ drop (length frames) (sizes s))).
Proof.
  intros Hd Hds H8. destruct Hok as [Hls Hc Hsz Ht]. pose proof superframe_length as Hl.
  destruct superframe_marker as [Em1 Em2].
  destruct (marker_fields ls nb Hls Hc) as (F1&F2&F3).
  unfold vp9_superframe_split_filter. rewrite Hd, Hds, Em1. cbn [mbind option_bind].
  rewrite F1. change (0xc0 =? 0xc0) with true. cbv iota. rewrite F2, F3.
  rewrite (proj2 (Z.leb_le _ (zlen d))) by lia. rewrite Em2. cbn [mbind option_bind].
  rewrite Z.eqb_refl. rewrite index_loop by done. cbn [mbind option_bind].
  rewrite sum_concat. unfold set_sizes. cbn. by rewrite Hd, Hds.
Qed.
End Superframe.

(** ** Packing the frames *)

(** The 16 bytes in front of a frame of [n] bytes: its size and the marker's in
    big-endian order, their complement, and the marker. *)
Definition frame_header (n : Z) : list Z :=
  let b := [(n + 4) / 2 ^ 24; (n + 4) / 2 ^ 16 mod 256; (n + 4) / 2 ^ 8 mod 256; (n + 4) mod 256] in
  b ++ map (fun x => 255 - x) b ++ [0; 0; 0; 1] ++ [0x41; 0x4D; 0x4C; 0x56].

Definition packed (f : list Z) : list Z := frame_header (zlen f) ++ f.

Lemma fill_header_spec n : 0 <= n -> n + 4 < 2 ^ 31 -> fill_vp9_header n = frame_header n.
Proof.
  intros H0 H1. unfold fill_vp9_header, frame_header. rewrite wraps_small by (change (2 ^ (32 - 1)) with (2 ^ 31); lia).
  assert (forall x, x .& 0xff = x mod 256) as Ea by (intros; change 0xff with (Z.ones 8); by rewrite Z.land_ones).
  assert (forall x, x mod 256 .^ 0xff = 255 - x mod 256) as Ex.
  { intros x. apply Z.eqb_eq. revert x. assert (forall y, 0 <= y < 256 -> (y .^ 0xff =? 255 - y) = true) as H.
    { apply (forall_range _ 0 256). vm_compute. reflexivity. }
    intros x. apply H, Z.mod_pos_bound. lia. }
  cbv zeta. rewrite !Ea, !Ex, !Z.shiftr_div_pow2 by done. change (2 ^ 0) with 1. rewrite Z.div_1_r.
  rewrite (Z.mod_small ((n + 4) / 2 ^ 24)) by (change (2 ^ 24) with 16777216; zdiv). done.
Qed.

(** The same with the header the code writes. *)
Definition coded (f : list Z) : list Z := fill_vp9_header (zlen f) ++ f.

Lemma header_length n : length (fill_vp9_header n) = 16%nat.
Proof. done. Qed.

Lemma coded_length frames : zlen (flat_map coded frames) = 16 * zlen frames + zlen (concat frames).
Proof.
  induction frames as [|f frames IH]; [done|]. cbn [flat_map concat length].
  rewrite !length_app. unfold coded at 1. rewrite length_app, header_length. lia.
Qed.

Lemma packed_coded frames : zlen (flat_map packed frames) < 2 ^ 31 -> flat_map coded frames = flat_map packed frames.
Proof.
  induction frames as [|f frames IH]; [done|]. cbn [flat_map]. unfold packed at 1. rewrite !length_app.
  change (length (frame_header (zlen f))) with 16%nat. intros H. unfold coded at 1, packed at 1.
  rewrite IH by lia. rewrite fill_header_spec by lia. done.
Qed.

Section PackProof.
Variables (secmem_fill : list Z -> Z -> list Z -> option (list Z)).
Variable secmem_alloc : Z -> option (list Z).
Hypothesis fill_copies : forall smem off src smem',
  ablit smem off src = Some smem' -> secmem_fill smem off src = Some smem'.

Lemma fill_prefix (pre src post : list Z) : zlen src <= zlen pre ->
  secmem_fill (pre ++ post) (zlen pre - zlen src) src
    = Some (take (length pre - length src) pre ++ src ++ post).
Proof.
  intros Hl. apply fill_copies. rewrite ablit_Some by (rewrite ?length_app; lia). f_equal.
  replace (Z.to_nat (zlen pre - zlen src)) with (length pre - length src)%nat by lia.
  rewrite take_app_le by lia. f_equal. f_equal.
  rewrite drop_app_ge by lia. by replace (length pre - length src + length src - length pre)%nat with O by lia.
Qed.

Lemma pack_frames_spec s tail frames n : forall pre post,
  (n <= length frames)%nat -> take (length frames) (sizes s) = map (fun f : list Z => zlen f) frames ->
  length pre = length (flat_map coded (take n frames)) ->
  pack_frames secmem_fill n s (concat frames ++ tail) (pre ++ post) (zlen pre)
    (zlen (concat (take n frames))) = Some (flat_map coded (take n frames) ++ post).
Proof.
  induction n as [|n IH]; intros pre post Hn Hs Hpre.
  - change (take 0 frames) with (@nil (list Z)) in *. apply length_zero_iff_nil in Hpre as ->. done.
  - destruct (lookup_lt_is_Some_2 frames n ltac:(lia)) as [f Ef].
    rewrite (take_S_r _ _ f Ef) in *. rewrite flat_map_app, concat_app, !length_app in *.
    cbn [flat_map concat] in *. rewrite !app_nil_r in *. unfold coded at 2 in Hpre.
    rewrite length_app, header_length in Hpre. cbn [pack_frames].
    assert (aget (sizes s) (Z.of_nat n) = Some (zlen f)) as ->.
    { rewrite aget_lookup, Nat2Z.id by lia.
      assert (take (length frames) (sizes s) !! n = Some (zlen f)) as E
        by (rewrite Hs, list_lookup_fmap, Ef; done).
      by apply lookup_take_Some in E as [? _]. }
    cbn [mbind option_bind].
    assert (concat frames = concat (take n frames) ++ f ++ concat (drop (S n) frames)) as Ec.
    { rewrite <- (take_drop_middle frames n f Ef) at 1. rewrite concat_app. done. }
    replace (Z.of_nat (length (concat (take n frames)) + length f) - zlen f)
      with (zlen (concat (take n frames))) by lia.
    assert (length (concat frames) = length (concat (take n frames)) +
      (length f + length (concat (drop (S n) frames))))%nat as El by (rewrite Ec at 1; by rewrite !length_app).
    assert (asub (concat frames ++ tail) (zlen (concat (take n frames))) (zlen f) = Some f) as ->.
    { rewrite asub_Some by (rewrite ?length_app; lia). rewrite Ec, <- !app_assoc, !Nat2Z.id.
      by rewrite drop_app_length, take_app_length. }
    cbn [mbind option_bind]. rewrite fill_prefix by lia. cbn [mbind option_bind].
    set (pre1 := take (length pre - length f) pre).
    assert (zlen pre1 = zlen pre - zlen f) as Hp1 by (unfold pre1; rewrite length_take; lia).
    rewrite <- Hp1. pose proof (header_length (zlen f)) as Hh.
    replace (zlen pre1 - 16) with (zlen pre1 - zlen (fill_vp9_header (zlen f))) by lia.
    rewrite fill_prefix by lia. cbn [mbind option_bind].
    set (pre2 := take (length pre1 - length (fill_vp9_header (zlen f))) pre1).
    assert (zlen pre2 = zlen pre1 - zlen (fill_vp9_header (zlen f))) as Hp2
      by (unfold pre2; rewrite length_take; lia).
    rewrite <- Hp2. rewrite IH; [|lia|done|lia]. unfold coded at 2.
    by rewrite <- !app_assoc.
Qed.
End PackProof.

(** ** Arbitrary input *)

(** The sizes the filter has stored for the first [n] frames. *)
Record sizes_ok (s : vp9_superframe_split) (n total limit : Z) : Prop := SizesOk {
  zo_len : length (sizes s) = 8%nat;
  zo_nonneg : Forall (fun x => 0 <= x) (take (Z.to_nat n) (sizes s));
  zo_sum : sum (take (Z.to_nat n) (sizes s)) = total;
  zo_total : 0 <= total <= limit
}.

Lemma read_size_in d ls idx : 1 <= ls <= 4 -> 0 <= idx -> idx + ls <= zlen d ->
  exists n, read_size d ls idx = Some (n, idx + ls) /\ - 2 ^ 31 <= n < 2 ^ 31.
Proof.
  intros Hls Hi Hl. unfold read_size.
  destruct (for_range_inv (fun j st => exists n, st = (n, idx + j) /\ - 2 ^ 31 <= n < 2 ^ 31) 0 ls
    (fun j '(frame_size, idx) =>
      b ← aget d idx; Some (s32 (frame_size .| (b .<< (j * 8))), idx + 1)) (0, idx))
    as (st&E&n&->&Hn); [lia| | |].
  - exists 0. split; [f_equal; lia|lia].
  - intros j st Hj (n&->&Hn). destruct (aget_Some d (idx + j)) as [b ->]; [lia|].
    cbn [mbind option_bind]. eexists. split; [done|]. eexists. split; [f_equal; lia|].
    by apply (wraps_range 32).
  - rewrite E. by exists n.
Qed.

Lemma index_loop_safe d ls nb s : 1 <= ls <= 4 -> 1 <= nb <= 8 -> data_size s = zlen d ->
  zlen d < 2 ^ 31 -> 2 + nb * ls <= zlen d -> length (sizes s) = 8%nat ->
  exists total idx s' failed,
    for_range 0 nb (index_step d ls (2 + nb * ls)) (0, zlen d + 1 - (2 + nb * ls), s, false)
      = Some (total, idx, s', failed) /\
    (failed = false -> sizes_ok s' nb total (zlen d - (2 + nb * ls))).
Proof.
  intros Hls Hnb Hds Ht Hix H8.
  destruct (for_range_inv (fun i st => exists total idx s' failed, st = (total, idx, s', failed) /\
      data_size s' = zlen d /\
      (failed = false -> idx = zlen d + 1 - (2 + nb * ls) + i * ls /\
         sizes_ok s' i total (zlen d - (2 + nb * ls)))) 0 nb
    (index_step d ls (2 + nb * ls)) (0, zlen d + 1 - (2 + nb * ls), s, false))
    as (st&E&total&idx&s'&failed&->&_&Hf); [lia| | |].
  - eexists _, _, _, _. split; [done|]. split; [done|]. intros _. split; [lia|].
    split; [done|constructor|done|lia].
  - intros i st Hi (total&idx&s'&failed&->&Hd'&Hf). unfold index_step.
    destruct failed.
    { eexists. split; [done|]. by exists total, idx, s', true. }
    destruct (Hf eq_refl) as (->&[Hl Hnn Hsum Htot]).
    destruct (read_size_in d ls (zlen d + 1 - (2 + nb * ls) + i * ls)) as (n&->&Hn); [done|nia|nia|].
    cbn [mbind option_bind]. rewrite Hd'.
    rewrite (wrapu_small 32 (zlen d - (2 + nb * ls))) by lia.
    destruct (Z.ltb_spec n 0); cbn [orb].
    { eexists. split; [done|]. by eexists _, _, _, true. }
    destruct (Z.ltb_spec (zlen d - (2 + nb * ls)) (u32 (s32 (total + n)))) as [|Hle].
    { eexists. split; [done|]. by eexists _, _, _, true. }
    assert (total + n < 2 ^ 31 /\ s32 (total + n) = total + n /\ u32 (s32 (total + n)) = total + n)
      as (Hsm&Es&Eu).
    { rewrite (wrapu_wraps 32) in Hle by lia. rewrite wrapu_small in Hle by lia.
      assert (s32 (total + n) = total + n) as Es
        by (apply wraps_small; [done|change (2 ^ (32 - 1)) with (2 ^ 31); lia]).
      split; [lia|]. split; [done|]. rewrite Es. apply wrapu_small. lia. }
    rewrite Eu in Hle. rewrite Es. rewrite aset_Some by lia. cbn [mbind option_bind].
    eexists. split; [done|]. eexists _, _, _, false. split; [done|]. split; [done|].
    intros _. split; [lia|]. change (sizes (set_sizes s' ?v)) with v.
    assert (take (Z.to_nat (i + 1)) (<[Z.to_nat i:=n]> (sizes s')) =
      take (Z.to_nat i) (sizes s') ++ [n]) as Et.
    { replace (Z.to_nat (i + 1)) with (S (Z.to_nat i)) by lia.
      rewrite (take_S_r _ _ n) by (apply list_lookup_insert_eq; lia). by rewrite take_insert_ge. }
    split.
    + change (sizes (set_sizes s' ?v)) with v. by rewrite length_insert.
    + change (sizes (set_sizes s' ?v)) with v. rewrite Et. apply Forall_app_2; [done|].
      by constructor.
    + change (sizes (set_sizes s' ?v)) with v. rewrite Et, sum_app, Hsum. unfold sum. simpl. lia.
    + lia.
  - rewrite E. eexists _, _, _, _. split; [done|]. intros Hff. by apply Hf.
Qed.

(** ** Claims *)

(** C17: superframes reach the decoder frame by frame.  For one to eight frames
    with an index of one to four bytes per size, the filter recovers every size,
    and the buffer handed to the driver is, for each frame in order, its 16-byte
    header and its bytes, whatever the uninitialised structure contained. *)
Theorem vp9_pack_correct secmem_fill secmem_alloc ls frames s smem :
  (forall m off src m', ablit m off src = Some m' -> secmem_fill m off src = Some m') ->
  secmem_alloc (zlen (flat_map packed frames)) = Some smem ->
  zlen smem = zlen (flat_map packed frames) ->
  frames_ok ls frames -> zlen (flat_map packed frames) < 2 ^ 31 -> length (sizes s) = 8%nat ->
  pack_vp9 secmem_fill secmem_alloc s (superframe ls frames) (zlen (superframe ls frames))
    = Some (Some (flat_map packed frames)).
Proof.
  intros Hfill Halloc Hsm Hok Hmax H8. pose proof (packed_coded frames Hmax) as Ep.
  rewrite <- Ep in Hmax, Halloc, Hsm |- *. clear Ep. unfold pack_vp9.
  rewrite (split_superframe ls frames Hok) by done. cbn [mbind option_bind].
  change (negb (0 =? 0)) with false. cbv iota. cbn [size nb_frames].
  pose proof (coded_length frames) as Hp. pose proof Hok as [_ Hc _ _].
  rewrite wraps_small by (done || (change (2 ^ (32 - 1)) with (2 ^ 31); lia)).
  replace (zlen (concat frames) + zlen frames * 16) with (zlen (flat_map coded frames)) by lia.
  rewrite Halloc. rewrite Nat2Z.id.
  match goal with |- context [pack_frames _ _ ?s' _ _ _ _] =>
    pose proof (pack_frames_spec secmem_fill Hfill s' (index_bytes ls frames) frames
      (length frames) smem []) as H end.
  rewrite (take_ge frames), app_nil_r, Hsm in H by done.
  change (concat frames ++ index_bytes ls frames) with (superframe ls frames) in H. rewrite H.
  - cbn [mbind option_bind]. by rewrite app_nil_r.
  - lia.
  - cbn [sizes]. rewrite take_app_le, take_ge; rewrite ?length_map; done.
  - lia.
Qed.

Lemma vp9_pack_correct_witness :
  let frames := [[1; 2; 3]; [4]] in
  let s := MkSplit None 0 7 7 7 7 7 (replicate 8 7) in
  superframe 1 frames = [1; 2; 3; 4; 0xC1; 3; 1; 0xC1] /\
  pack_vp9 ablit (fun n => Some (replicate (Z.to_nat n) 0)) s (superframe 1 frames)
    (zlen (superframe 1 frames)) = Some (Some (flat_map packed frames)).
Proof.
  intros frames s. split; [reflexivity|].
  apply (vp9_pack_correct ablit (fun n => Some (replicate (Z.to_nat n) 0)) 1 frames s (replicate 36 0)).
  - done.
  - reflexivity.
  - reflexivity.
  - split; [lia|simpl; lia|repeat constructor; simpl; lia|apply Z.ltb_lt; reflexivity].
  - apply Z.ltb_lt. reflexivity.
  - reflexivity.
Defined.

(** On data of at least one byte. *)
Lemma split_nonempty s d :
  data s = Some d -> data_size s = zlen d -> 1 <= zlen d < 2 ^ 31 -> length (sizes s) = 8%nat ->
  exists r s', vp9_superframe_split_filter s = Some (r, s') /\ (r = 0 \/ r = -1) /\
    (r = 0 -> s' = s \/ 1 <= nb_frames s' <= 8 /\
                        sizes_ok s' (nb_frames s') (size s') (zlen d)).
Proof.
  intros Hd Hds Hl H8. unfold vp9_superframe_split_filter. rewrite Hd, Hds.
  destruct (aget_Some d (zlen d - 1)) as [marker ->]; [lia|]. cbn [mbind option_bind].
  destruct (marker .& 0xe0 =? 0xc0).
  - set (ls := 1 + ((marker .>> 3) .& 0x3)). set (nb := 1 + (marker .& 0x7)).
    assert (1 <= ls <= 4) as Hls by (unfold ls; pose proof (land_ones_range (marker .>> 3) 2 ltac:(lia)) as H;
      change (Z.ones 2) with 3 in H; change (2 ^ 2) with 4 in H; lia).
    assert (1 <= nb <= 8) as Hnb by (unfold nb; pose proof (land_ones_range marker 3 ltac:(lia)) as H;
      change (Z.ones 3) with 7 in H; change (2 ^ 3) with 8 in H; lia).
    destruct (Z.leb_spec (2 + nb * ls) (zlen d)) as [Hix|Hix].
    + destruct (aget_Some d (zlen d - (2 + nb * ls))) as [b ->]; [lia|]. cbn [mbind option_bind].
      destruct (b =? marker).
      * destruct (index_loop_safe d ls nb s Hls Hnb Hds) as (total&idx&s'&failed&->&Hf);
          [lia|done|done|]. cbn [mbind option_bind]. destruct failed.
        { eexists _, _. split; [done|]. split; [by right|]. done. }
        destruct (Hf eq_refl) as [Z1 Z2 Z3 Z4]. eexists _, _. split; [done|]. split; [by left|].
        intros _. right. split; [done|]. split; cbn [sizes size nb_frames]; [done..|lia].
      * eexists _, _. split; [done|]. split; [by left|]. intros _. by left.
    + cbn [mbind option_bind]. eexists _, _. split; [done|]. split; [by left|]. intros _. by left.
  - rewrite aset_Some by lia. cbn [mbind option_bind].
    rewrite wraps_small by (done || (change (2 ^ (32 - 1)) with (2 ^ 31); lia)).
    eexists _, _. split; [done|]. split; [by left|]. intros _. right. cbn [nb_frames size sizes].
    split; [lia|]. change (Z.to_nat 0) with O.
    destruct (sizes s) as [|x l] eqn:E; [done|]. cbn [insert list_insert].
    split; cbn [sizes size nb_frames]; [done|repeat constructor; lia|simpl; unfold sum; simpl; lia|lia].
Qed.

(** Without data the filter fails; with none of the bytes it announces it reads the marker in front of the buffer. *)
Lemma split_no_data s : data s = None -> vp9_superframe_split_filter s = Some (-1, s).
Proof. intros H. unfold vp9_superframe_split_filter. by rewrite H. Qed.

Lemma split_empty_outside s : data s = Some [] -> data_size s = 0 -> vp9_superframe_split_filter s = None.
Proof. intros H H0. unfold vp9_superframe_split_filter. by rewrite H, H0. Qed.

(** C37: what the filter reads and stores on any data below 2 GB.  A null pointer is refused.  On one byte or more,
    whatever they are, the filter reads inside of the data and terminates; when it reports success it has either left the
    frame count and the sizes untouched, or stored one to eight sizes that are not negative and
    whose sum, stored as [size], is within the data.  On data of size 0 it is not safe: the marker is read at
    [data[-1]], outside of the buffer. *)
Theorem vp9_split_safe s : length (sizes s) = 8%nat ->
  (data s = None -> vp9_superframe_split_filter s = Some (-1, s)) /\
  (forall d, data s = Some d -> data_size s = zlen d -> zlen d < 2 ^ 31 ->
    (d = [] -> vp9_superframe_split_filter s = None) /\
    (d <> [] -> exists r s', vp9_superframe_split_filter s = Some (r, s') /\ (r = 0 \/ r = -1) /\
      (r = 0 -> s' = s \/ 1 <= nb_frames s' <= 8 /\ sizes_ok s' (nb_frames s') (size s') (zlen d)))).
Proof.
  intros H8. split; [apply split_no_data|]. intros d Hd Hs Hl. split; [intros ->; by apply split_empty_outside|].
  intros Hne. apply (split_nonempty s d Hd Hs); [|done]. destruct d; [done|]. cbn [length] in *. lia.
Qed.

Lemma vp9_split_safe_witness :
  let s := MkSplit (Some [9; 9; 0xC8; 200; 1; 0xC8]) 6 0 0 0 0 0 (replicate 8 0) in
  exists r s', vp9_superframe_split_filter s = Some (r, s') /\ (r = 0 \/ r = -1) /\
    (r = 0 -> s' = s \/ 1 <= nb_frames s' <= 8 /\ sizes_ok s' (nb_frames s') (size s') 6).
Proof.
  intros s. destruct (vp9_split_safe s eq_refl) as [_ H].
  apply (H [9; 9; 0xC8; 200; 1; 0xC8]); [reflexivity..|discriminate].
Defined.

(** An inconsistent index is reported as success.  When the last byte looks
    like a superframe marker but the data is shorter than the index it announces,
    or the index does not start with the same byte, the filter returns 0 without
    storing a frame count or a size: its caller goes on with an uninitialised
    structure. *)
Theorem vp9_index_mismatch_unset s d marker :
  data s = Some d -> data_size s = zlen d -> aget d (zlen d - 1) = Some marker ->
  marker .& 0xe0 = 0xc0 ->
  let idx_size := 2 + (1 + (marker .& 0x7)) * (1 + ((marker .>> 3) .& 0x3)) in
  zlen d < idx_size \/ (exists b, aget d (zlen d - idx_size) = Some b /\ b <> marker) ->
  vp9_superframe_split_filter s = Some (0, s).
Proof.
  intros Hd Hds Hm Hmk idx_size Hc. unfold vp9_superframe_split_filter. rewrite Hd, Hds, Hm.
  cbn [mbind option_bind]. rewrite Hmk. change (0xc0 =? 0xc0) with true. cbv iota. fold idx_size.
  destruct Hc as [Hc|(b&Eb&Hne)].
  - by rewrite (proj2 (Z.leb_gt idx_size (zlen d))) by lia.
  - pose proof (aget_inv _ _ _ Eb). rewrite (proj2 (Z.leb_le idx_size (zlen d))) by lia.
    rewrite Eb. cbn [mbind option_bind]. by rewrite (proj2 (Z.eqb_neq b marker)) by done.
Qed.

Lemma vp9_index_mismatch_unset_witness :
  let s := MkSplit (Some [1; 2; 0xC1]) 3 99 99 0 0 0 (replicate 8 99) in
  vp9_superframe_split_filter s = Some (0, s).
Proof.
  intros s. apply (vp9_index_mismatch_unset s [1; 2; 0xC1] 0xC1); [done|done|done|done|].
  left. apply Z.ltb_lt. reflexivity.
Defined.
