(* ===== verification/EsDemux.v ===== *)
(** The demuxer of the V4L2 player, [src/v4l2-uvm-test/src/demux.c].

    It turns the packets that libavformat reads from a container into an Annex B
    elementary stream and hands it to the decoder through the callbacks of
    [struct dmx_cb].  The calls of the callbacks are the observable behaviour: the
    state carries them as a trace. *)
From S2P Require Import Prelude.

(** ** Data *)

(** The identifiers of libavcodec the source names. *)
Inductive AVCodecID :=
  | AV_CODEC_ID_H264 | AV_CODEC_ID_H265 | AV_CODEC_ID_MPEG2VIDEO | AV_CODEC_ID_VP9
  | AV_CODEC_ID_AV1 | AV_CODEC_ID_MJPEG | AV_CODEC_ID_other (n : Z).

Inductive vtype :=
  | VIDEO_TYPE_MPEG2 | VIDEO_TYPE_H264 | VIDEO_TYPE_H265 | VIDEO_TYPE_VP9
  | VIDEO_TYPE_AV1 | VIDEO_TYPE_MJPEG.

Record dmx_v_data := MkVData { width : Z; height : Z; type : vtype }.

(** The calls of [dec_cb]. *)
Inductive dmx_cb :=
  | write (data : list Z)
  | frame_done (pts : Z)
  | meta_done (v : dmx_v_data)
  | eos.

(** The fields of libavformat's structures the source uses.  [pkt_data] and
    [extradata] are the whole allocations, padding included; the sizes are the
    fields of the structures. *)
Record AVPacket := MkPacket {
  pkt_data : list Z; pkt_size : Z; stream_index : Z; pts : Z; duration : Z; flags : Z
}.
Record AVCodecParameters := MkParams {
  codec_id : AVCodecID; par_width : Z; par_height : Z;
  extradata : option (list Z); extradata_size : Z
}.

(** The static variables of the file, and the calls made so far. *)
Record dmx := MkDmx {
  raw_stream : Z; keyframe_seen : Z; nal_size : Z; fake_pts : Z; video_frame_count : Z;
  out : list dmx_cb
}.

Definition emit (e : dmx_cb) (d : dmx) : dmx :=
  MkDmx (raw_stream d) (keyframe_seen d) (nal_size d) (fake_pts d) (video_frame_count d) (out d ++ [e]).
Definition set_keyframe_seen (d : dmx) (v : Z) : dmx :=
  MkDmx (raw_stream d) v (nal_size d) (fake_pts d) (video_frame_count d) (out d).
Definition count_frame (d : dmx) (pts_us : Z) : dmx :=
  MkDmx (raw_stream d) (keyframe_seen d) (nal_size d) pts_us (s32 (video_frame_count d + 1)) (out d).
Definition set_nal (d : dmx) (nal raw : Z) : dmx :=
  MkDmx raw (keyframe_seen d) nal (fake_pts d) (video_frame_count d) (out d).

(** The initial values of the static variables. *)
Definition dmx_start : dmx := MkDmx 0 0 0 0 0 [].

Definition DMX_SECOND : Z := 1000000.
Definition s_nal_3 : list Z := [0; 0; 1].
Definition s_nal_4 : list Z := [0; 0; 0; 1].

Definition H2645 (c : AVCodecID) : bool :=
  match c with AV_CODEC_ID_H264 | AV_CODEC_ID_H265 => true | _ => false end.

Definition WORD_BE (d : list Z) (p : Z) : option Z :=
  a ← aget d p; b ← aget d (p + 1); Some ((a .<< 8) .| b).

Definition HEVC_NAL_VPS : Z := 32.
Definition HEVC_NAL_SPS : Z := 33.
Definition HEVC_NAL_PPS : Z := 34.

(** ** Packets *)

Definition insert_nal (d : dmx) : Z * dmx :=
  if nal_size d =? 3 then (3, emit (write s_nal_3) d) else (4, emit (write s_nal_4) d).

(** [for (i = 0; i < length_size; i++) nalu_size = (nalu_size << 8) | ( *p++)] *)
Definition read_nalu_size (data : list Z) (length_size nalu_size p : Z) : option (Z * Z) :=
  for_range 0 length_size (fun _ '(n, p) =>
    b ← aget data p; Some (s32 (n .<< 8) .| b, p + 1)) (nalu_size, p).

(** Body of the loop over the units of a packet; the state is [p], [nalu_size],
    [processed] and the globals.  [nalu_size] is not reset between units. *)
Definition nalu_step (data : list Z) (length_size : Z) (st : Z * Z * Z * dmx)
    : option (Z * Z * Z * dmx) :=
  let '(p, nalu_size, processed, d) := st in
  '(nalu_size, p) ← read_nalu_size data length_size nalu_size p;
  let processed := processed + length_size in
  let '(_, d) := insert_nal d in
  unit ← asub data p nalu_size;
  Some (p + nalu_size, nalu_size, processed + nalu_size, emit (write unit) d).

Definition nalu_loop (fuel : nat) (data : list Z) (size length_size : Z) (st : Z * Z * Z * dmx) :=
  while_loop fuel (fun '(_, _, processed, _) => processed <? size) (nalu_step data length_size) st.

(** The functions and constants of libavutil and libavcodec. *)
Section Demux.
Variable av_rescale_q : Z -> Z * Z -> Z * Z -> Z.
Variables AV_NOPTS_VALUE AV_PKT_FLAG_KEY : Z.

(** The selected stream: [video_stream_idx] and fields of [video_stream]. *)
Record AVStream := MkStream { video_stream_idx : Z; codec : AVCodecID; time_base : Z * Z }.
Variable vs : AVStream.

Definition packet_pts (pkt : AVPacket) (fake_pts : Z) : Z :=
  if negb (pts pkt =? AV_NOPTS_VALUE) then av_rescale_q (pts pkt) (time_base vs) (1, DMX_SECOND)
  else s64 (fake_pts + av_rescale_q (duration pkt) (time_base vs) (1, DMX_SECOND)).

(** Every turn of the loop consumes at least one byte unless it never ends, so
    [pkt_size] turns are enough. *)
Definition demux_packet (pkt : AVPacket) (d : dmx) : option (Z * dmx) :=
  let decoded := pkt_size pkt in
  if negb (stream_index pkt =? video_stream_idx vs) then Some (decoded, d)
  else
    let pts_us := packet_pts pkt (fake_pts d) in
    let d := count_frame d pts_us in
    if H2645 (codec vs) then
      '(processed, d) ← (if negb (raw_stream d =? 0)
                         then w ← asub (pkt_data pkt) 0 (pkt_size pkt);
                              Some (pkt_size pkt, emit (write w) d)
                         else Some (0, d));
      if (keyframe_seen d =? 0) && negb (bitset (flags pkt) AV_PKT_FLAG_KEY) then Some (decoded, d)
      else
        let d := if (keyframe_seen d =? 0) && bitset (flags pkt) AV_PKT_FLAG_KEY
                 then set_keyframe_seen d 1 else d in
        '(_, _, _, d) ← nalu_loop (S (Z.to_nat (pkt_size pkt))) (pkt_data pkt) (pkt_size pkt)
                          (nal_size d) (0, 0, processed, d);
        Some (decoded, emit (frame_done pts_us) d)
    else
      w ← asub (pkt_data pkt) 0 (pkt_size pkt);
      Some (decoded, emit (frame_done pts_us) (emit (write w) d)).

(** [reads] are the packets [av_read_frame] delivers, each with the value of
    [thread_quit] read after it; [quit] is its value after the loop. *)
Fixpoint dmx_thread_func (reads : list (AVPacket * bool)) (quit : bool) (d : dmx) : option dmx :=
  match reads with
  | [] => Some (if quit then d else emit eos d)
  | (_, true) :: _ => Some (if quit then d else emit eos d)
  | (pkt, false) :: reads => '(_, d) ← demux_packet pkt d; dmx_thread_func reads quit d
  end.
End Demux.

(** ** Headers *)

(** The results of a header parser: its return value, the output parameters and
    [raw_stream]. *)
Record parsed := MkParsed { ret : Z; o_data : list Z; o_size : Z; o_nal_size : Z; o_raw : Z }.

(** Copies a start code; [None] inside is [goto err_exit]. *)
Definition put_nal (nal_size : Z) (o : list Z) (cur_size : Z) : option (option (list Z * Z)) :=
  if nal_size =? 3 then o ← ablit o cur_size s_nal_3; Some (Some (o, cur_size + 3))
  else if nal_size =? 4 then o ← ablit o cur_size s_nal_4; Some (Some (o, cur_size + 4))
  else Some None.

(** Body of the loops over SPSs and PPSs; the state is [p], the buffer and
    [cur_size]. *)
Definition copy_set (data : list Z) (size : Z) (_ : Z) (st : option (Z * list Z * Z))
    : option (option (Z * list Z * Z)) :=
  match st with
  | None => Some None
  | Some (p, o, cur_size) =>
      nalsize ← WORD_BE data p;
      let p := p + 2 in
      if size - p <? nalsize then Some None
      else
        nal ← asub data p nalsize;
        o ← ablit o cur_size nal;
        Some (Some (p + nalsize, o, cur_size + nalsize))
  end.

(** The start code, if there is a set, and the sets. *)
Definition copy_sets (data : list Z) (size nal_size cnt p : Z) (o : list Z) (cur_size : Z)
    : option (option (Z * list Z * Z)) :=
  st ← (if negb (cnt =? 0) then put_nal nal_size o cur_size else Some (Some (o, cur_size)));
  match st with
  | None => Some None
  | Some (o, cur_size) => for_range 0 cnt (copy_set data size) (Some (p, o, cur_size))
  end.

(** [mem] is the result of [malloc(4096)], [nal] and [raw] the values the output
    parameter and [raw_stream] have before the call. *)
Definition h264_header_parse (data : option (list Z)) (size : Z) (mem : option (list Z)) (nal raw : Z)
    : option parsed :=
  match data with
  | None => Some (MkParsed (-1) [] 0 nal raw)
  | Some data =>
    if size <=? 0 then Some (MkParsed (-1) [] 0 nal raw)
    else
      d0 ← aget data 0;
      if negb (d0 =? 1) then
        if size <? 7 then Some (MkParsed (-1) [] 0 nal raw)
        else
          d1 ← aget data 1; d2 ← aget data 2; d3 ← aget data 3; d4 ← aget data 4;
          if (d0 =? 0) && (d1 =? 0) && (d2 =? 1) || (d0 =? 0) && (d1 =? 0) && (d3 =? 0) && (d4 =? 1)
          then
            let nal := if (d0 =? 0) && (d1 =? 0) && (d2 =? 1) then 3 else 4 in
            match mem with
            | None => Some (MkParsed (-1) [] 0 nal 1)
            | Some o =>
                src ← asub data 0 size;
                o ← ablit o 0 src;
                Some (MkParsed 0 o size nal 1)
            end
          else Some (MkParsed (-1) [] 0 nal raw)
      else if size <? 7 then Some (MkParsed (-1) [] 0 nal raw)
      else
        match mem with
        | None => Some (MkParsed (-1) [] 0 nal raw)
        | Some o =>
            d4 ← aget data 4;
            let nal := (d4 .& 0x03) + 1 in
            d5 ← aget data 5;
            st ← copy_sets data size nal (d5 .& 0x1f) 6 o 0;
            match st with
            | None => Some (MkParsed (-2) [] 0 nal raw)
            | Some (p, o, cur_size) =>
                cnt ← aget data p;
                st ← copy_sets data size nal cnt (p + 1) o cur_size;
                match st with
                | None => Some (MkParsed (-2) [] 0 nal raw)
                | Some (_, o, cur_size) => Some (MkParsed 0 o cur_size nal raw)
                end
            end
        end
  end.

Definition parameter_set (nal_type : Z) : bool :=
  (nal_type =? HEVC_NAL_VPS) || (nal_type =? HEVC_NAL_SPS) || (nal_type =? HEVC_NAL_PPS).

(** Body of the inner loop of the hvcC parser; nothing checks [nalsize]. *)
Definition hvcc_nalu (data : list Z) (nal_size nal_type : Z) (_ : Z) (st : option (Z * list Z * Z))
    : option (option (Z * list Z * Z)) :=
  match st with
  | None => Some None
  | Some (p, o, cur_size) =>
      nalsize ← WORD_BE data p;
      let nalsize := u16 nalsize in
      let p := p + 2 in
      if parameter_set nal_type then
        st ← put_nal nal_size o cur_size;
        match st with
        | None => Some None
        | Some (o, cur_size) =>
            nal ← asub data p nalsize;
            o ← ablit o cur_size nal;
            Some (Some (p + nalsize, o, cur_size + nalsize))
        end
      else Some (Some (p + nalsize, o, cur_size))
  end.

(** Body of the outer loop. *)
Definition hvcc_array (data : list Z) (nal_size : Z) (_ : Z) (st : option (Z * list Z * Z))
    : option (option (Z * list Z * Z)) :=
  match st with
  | None => Some None
  | Some (p, o, cur_size) =>
      b ← aget data p;
      numNalus ← WORD_BE data (p + 1);
      for_range 0 (u16 numNalus) (hvcc_nalu data nal_size (b .& 0x3F)) (Some (p + 3, o, cur_size))
  end.

Definition h265_header_parse (data : option (list Z)) (size : Z) (mem : option (list Z)) (nal raw : Z)
    : option parsed :=
  match data with
  | None => Some (MkParsed (-1) [] 0 nal raw)
  | Some data =>
    if (size <=? 0) || (size <? 7) then Some (MkParsed (-1) [] 0 nal raw)
    else
      match mem with
      | None => Some (MkParsed (-1) [] 0 nal raw)
      | Some o =>
          d0 ← aget data 0; d1 ← aget data 1; d2 ← aget data 2; d3 ← aget data 3;
          if (d0 =? 0) && (d1 =? 0) && (d2 =? 1) || (d0 =? 0) && (d1 =? 0) && (d2 =? 0) && (d3 =? 1)
          then Some (MkParsed 0 o 0 4 1)
          else
            b ← aget data 21;
            let nal := (b .& 0x03) + 1 in
            num_arrays ← aget data 22;
            st ← for_range 0 num_arrays (hvcc_array data nal) (Some (23, o, 0));
            match st with
            | None => Some (MkParsed (-2) [] 0 nal raw)
            | Some (_, o, cur_size) => Some (MkParsed 0 o cur_size nal raw)
            end
      end
  end.

(** ** Initialisation *)

Definition video_type (c : AVCodecID) : option vtype :=
  match c with
  | AV_CODEC_ID_H264 => Some VIDEO_TYPE_H264
  | AV_CODEC_ID_H265 => Some VIDEO_TYPE_H265
  | AV_CODEC_ID_MPEG2VIDEO => Some VIDEO_TYPE_MPEG2
  | AV_CODEC_ID_VP9 => Some VIDEO_TYPE_VP9
  | AV_CODEC_ID_AV1 => Some VIDEO_TYPE_AV1
  | AV_CODEC_ID_MJPEG => Some VIDEO_TYPE_MJPEG
  | AV_CODEC_ID_other _ => None
  end.

(** The part of [demux_init] that handles the video stream it found: the result
    is the value it returns when that is not 0. *)
Definition demux_init_stream (dec_ctx : AVCodecParameters) (mem : option (list Z)) (d : dmx)
    : option (Z * dmx) :=
  match video_type (codec_id dec_ctx) with
  | None => Some (3, d)
  | Some t =>
      let d := emit (meta_done (MkVData (par_width dec_ctx) (par_height dec_ctx) t)) d in
      let size := extradata_size dec_ctx in
      if size =? 0 then Some (0, d)
      else
        match codec_id dec_ctx with
        | AV_CODEC_ID_H264 =>
            h ← h264_header_parse (extradata dec_ctx) size mem (nal_size d) (raw_stream d);
            let d := set_nal d (o_nal_size h) (o_raw h) in
            if negb (ret h =? 0) then Some (5, d)
            else header ← asub (o_data h) 0 (o_size h); Some (0, emit (write header) d)
        | AV_CODEC_ID_H265 =>
            h ← h265_header_parse (extradata dec_ctx) size mem (nal_size d) (raw_stream d);
            let d := set_nal d (o_nal_size h) (o_raw h) in
            if negb (ret h =? 0) then Some (6, d)
            else if negb (o_size h =? 0)
            then header ← asub (o_data h) 0 (o_size h); Some (0, emit (write header) d)
            else Some (0, d)
        | _ =>
            match extradata dec_ctx with
            | None => None
            | Some e => w ← asub e 0 size; Some (0, emit (write w) d)
            end
        end
  end.

(** ** Length-prefixed units *)

Definition emits (es : list dmx_cb) (d : dmx) : dmx :=
  MkDmx (raw_stream d) (keyframe_seen d) (nal_size d) (fake_pts d) (video_frame_count d) (out d ++ es).

Lemma emit_emits es e d : emit e (emits es d) = emits (es ++ [e]) d.
Proof. unfold emit, emits. simpl. by rewrite app_assoc. Qed.

Lemma emits_emit es e d : emits es (emit e d) = emits (e :: es) d.
Proof. unfold emit, emits. simpl. by rewrite <- app_assoc. Qed.

Lemma emits_nil d : emits [] d = d.
Proof. unfold emits. rewrite app_nil_r. by destruct d. Qed.

(** Big-endian encodings. *)
Definition put_be16 (v : Z) : list Z := [v / 2 ^ 8; v mod 2 ^ 8].
Definition put_be32 (v : Z) : list Z :=
  [v / 2 ^ 24; v / 2 ^ 16 mod 2 ^ 8; v / 2 ^ 8 mod 2 ^ 8; v mod 2 ^ 8].

(** A unit of a packet whose lengths have four bytes. *)
Definition unit32 (u : list Z) : list Z := put_be32 (zlen u) ++ u.

Lemma shift_in_byte n b : 0 <= b < 2 ^ 8 -> s32 (n .<< 8) .| b = s32 (n * 2 ^ 8 + b).
Proof.
  intros Hb. rewrite Z.shiftl_mul_pow2 by lia.
  assert (s32 (n * 2 ^ 8) = wraps 24 n * 2 ^ 8) as E.
  { unfold wraps. change (2 ^ (32 - 1)) with (2 ^ (24 - 1) * 2 ^ 8). change (2 ^ 32) with (2 ^ 24 * 2 ^ 8).
    rewrite <- Z.mul_add_distr_r, Zmult_mod_distr_r. lia. }
  rewrite E, Z.lor_comm, <- Z.shiftl_mul_pow2, lor_shiftl_add by lia.
  pose proof (wraps_range 24 n ltac:(lia)) as Hr. change (2 ^ (24 - 1)) with 8388608 in Hr.
  rewrite <- (wraps_small 32 (b + _)) by (try change (2 ^ (32 - 1)) with 2147483648; lia).
  rewrite <- (wraps_add_l 32 (n * 2 ^ 8)), E by lia. f_equal. lia.
Qed.

Lemma shift_in_mod x b : s32 (s32 x * 2 ^ 8 + b) = s32 (x * 2 ^ 8 + b).
Proof.
  apply wraps_eq_mod. rewrite <- Zplus_mod_idemp_l, <- Zmult_mod_idemp_l, wraps_mod by lia.
  by rewrite Zmult_mod_idemp_l, Zplus_mod_idemp_l.
Qed.

Lemma read_nalu_size_step data (n : nat) ls i v p b :
  ls - i = Z.of_nat (S n) -> aget data p = Some b -> 0 <= b < 2 ^ 8 ->
  for_range i ls (fun _ '(n, p) => b ← aget data p; Some (s32 (n .<< 8) .| b, p + 1)) (v, p) =
  for_range (i + 1) ls (fun _ '(n, p) => b ← aget data p; Some (s32 (n .<< 8) .| b, p + 1))
    (s32 (v * 2 ^ 8 + b), p + 1).
Proof.
  intros Hn Hb Hr. rewrite for_range_step by lia. rewrite Hb. cbn [mbind option_bind].
  by rewrite shift_in_byte.
Qed.

Lemma aget_mid (pre l post : list Z) k x : l !! k = Some x ->
  aget (pre ++ l ++ post) (zlen pre + Z.of_nat k) = Some x.
Proof.
  intros H. rewrite aget_lookup by lia. rewrite lookup_app_r by lia.
  replace (Z.to_nat (zlen pre + Z.of_nat k) - length pre)%nat with k by lia.
  by apply lookup_app_l_Some.
Qed.

(** A four-byte length, whatever was in [nalu_size]. *)
Lemma read_be32 pre v n post : 0 <= v < 2 ^ 31 ->
  read_nalu_size (pre ++ put_be32 v ++ post) 4 n (zlen pre) = Some (v, zlen pre + 4).
Proof.
  intros Hv. unfold read_nalu_size.
  assert (forall k x, put_be32 v !! k = Some x ->
    aget (pre ++ put_be32 v ++ post) (zlen pre + Z.of_nat k) = Some x) as Hg by (intros; by apply aget_mid).
  pose proof (Hg 0%nat _ eq_refl) as G0. pose proof (Hg 1%nat _ eq_refl) as G1.
  pose proof (Hg 2%nat _ eq_refl) as G2. pose proof (Hg 3%nat _ eq_refl) as G3.
  rewrite (read_nalu_size_step _ 3 4 0 n (zlen pre) (v / 2 ^ 24));
    [|lia|by rewrite <- G0; f_equal; lia|zdiv].
  rewrite (read_nalu_size_step _ 2 4 1 _ (zlen pre + 1) (v / 2 ^ 16 mod 2 ^ 8)); [|lia|done|zdiv].
  rewrite shift_in_mod.
  rewrite (read_nalu_size_step _ 1 4 2 _ (zlen pre + 1 + 1) (v / 2 ^ 8 mod 2 ^ 8));
    [|lia|by rewrite <- G2; f_equal; lia|zdiv].
  rewrite shift_in_mod.
  rewrite (read_nalu_size_step _ 0 4 3 _ (zlen pre + 1 + 1 + 1) (v mod 2 ^ 8));
    [|lia|by rewrite <- G3; f_equal; lia|zdiv].
  rewrite shift_in_mod, for_range_empty by lia. f_equal. f_equal; [|lia].
  rewrite <- (wraps_small 32 v) at 5 by (try change (2 ^ (32 - 1)) with (2 ^ 31); lia).
  apply wraps_eq_mod.
  replace ((((n * 2 ^ 8 + v / 2 ^ 24) * 2 ^ 8 + v / 2 ^ 16 mod 2 ^ 8) * 2 ^ 8 + v / 2 ^ 8 mod 2 ^ 8) * 2 ^ 8
    + v mod 2 ^ 8) with (v + n * 2 ^ 32) by zdiv.
  apply Z.mod_add. lia.
Qed.

(** The calls for a unit. *)
Definition unit_calls (u : list Z) : list dmx_cb := [write [0; 0; 0; 1]; write u].

Lemma insert_nal_4 d : nal_size d <> 3 -> insert_nal d = (4, emit (write s_nal_4) d).
Proof. intros. unfold insert_nal. by rewrite (proj2 (Z.eqb_neq _ _)). Qed.

Lemma asub_mid {A} (pre l post : list A) :
  asub (pre ++ l ++ post) (zlen pre) (zlen l) = Some l.
Proof.
  rewrite asub_Some by (rewrite ?length_app; lia). rewrite !Nat2Z.id.
  by rewrite drop_app_length, take_app_length.
Qed.

Lemma nalu_step_unit pre u post n d : nal_size d <> 3 -> zlen u < 2 ^ 31 ->
  nalu_step (pre ++ unit32 u ++ post) 4 (zlen pre, n, zlen pre, d) =
  Some (zlen (pre ++ unit32 u), zlen u, zlen (pre ++ unit32 u), emits (unit_calls u) d).
Proof.
  intros Hn Hu. cbv beta iota delta [nalu_step]. unfold unit32 at 1 2. rewrite <- app_assoc.
  rewrite read_be32 by lia. cbn [mbind option_bind]. rewrite insert_nal_4 by done.
  replace (zlen pre + 4) with (zlen (pre ++ put_be32 (zlen u))) by (rewrite length_app; simpl length; lia).
  rewrite app_assoc, asub_mid. cbn [mbind option_bind]. unfold unit32.
  rewrite app_assoc, (length_app (pre ++ _)), <- Nat2Z.inj_add.
  f_equal. f_equal. unfold emits, emit, unit_calls. simpl. by rewrite <- app_assoc.
Qed.

Lemma nalu_loop_units pad units : Forall (fun u : list Z => zlen u < 2 ^ 31) units ->
  forall pre n d (fuel : nat), nal_size d <> 3 -> (length units < fuel)%nat ->
  let size := zlen (pre ++ flat_map unit32 units) in
  exists n', nalu_loop fuel (pre ++ flat_map unit32 units ++ pad) size 4 (zlen pre, n, zlen pre, d) =
    Some (size, n', size, emits (flat_map unit_calls units) d).
Proof.
  induction 1 as [|u units Hu Hall IH]; intros pre n d fuel Hd Hf size; subst size.
  - destruct fuel as [|fuel]; [lia|]. unfold nalu_loop. rewrite while_loop_S.
    cbn [flat_map]. rewrite app_nil_r, Z.ltb_irrefl, emits_nil. by exists n.
  - destruct fuel as [|fuel]; [simpl in Hf; lia|]. unfold nalu_loop. rewrite while_loop_S.
    cbn [flat_map]. rewrite (proj2 (Z.ltb_lt (zlen pre) _)); [|rewrite !length_app; simpl; lia].
    rewrite <- app_assoc, nalu_step_unit by done. cbn [mbind option_bind].
    destruct (IH (pre ++ unit32 u) (zlen u) (emits (unit_calls u) d) fuel) as (n'&E);
      [done|simpl in Hf; lia|].
    exists n'. rewrite <- !app_assoc in E. unfold nalu_loop in E. rewrite E.
    f_equal. f_equal. unfold emits. simpl. by rewrite <- app_assoc.
Qed.

(** ** The byte stream of a file *)

(** A packet of the container, with its units; not every packet has a time stamp. *)
Record frame := MkFrame {
  f_units : list (list Z); f_pad : list Z; f_stream : Z; f_time : option Z; f_duration : Z; f_flags : Z
}.

Section Stream.
Variable av_rescale_q : Z -> Z * Z -> Z * Z -> Z.
Variables AV_NOPTS_VALUE AV_PKT_FLAG_KEY : Z.
Variable vs : AVStream.

Definition packet_of (f : frame) : AVPacket :=
  MkPacket (flat_map unit32 (f_units f) ++ f_pad f) (zlen (flat_map unit32 (f_units f)))
    (f_stream f) (default AV_NOPTS_VALUE (f_time f)) (f_duration f) (f_flags f).

(** Units that a length can hold, and a time stamp that is one. *)
Definition frame_ok (f : frame) : Prop :=
  Forall (fun u : list Z => zlen u < 2 ^ 31) (f_units f) /\ f_time f <> Some AV_NOPTS_VALUE.

Abbreviation packet := (demux_packet av_rescale_q AV_NOPTS_VALUE AV_PKT_FLAG_KEY vs).
Abbreviation thread := (dmx_thread_func av_rescale_q AV_NOPTS_VALUE AV_PKT_FLAG_KEY vs).
Abbreviation is_key f := (bitset (f_flags f) AV_PKT_FLAG_KEY).

(** Ticks of the stream in microseconds. *)
Definition us (ticks : Z) : Z := av_rescale_q ticks (time_base vs) (1, 1000000).

(** When a frame is shown: at its time stamp, or its duration after the frame before it. *)
Definition frame_time (last : Z) (f : frame) : Z :=
  match f_time f with Some p => us p | None => s64 (last + us (f_duration f)) end.

Lemma packet_time f last : frame_ok f -> packet_pts av_rescale_q AV_NOPTS_VALUE vs (packet_of f) last = frame_time last f.
Proof.
  intros [_ Ht]. unfold packet_pts, frame_time, us, packet_of, DMX_SECOND. cbn [pts duration]. destruct (f_time f) as [p|]; cbn [default].
  - unfold id. rewrite (proj2 (Z.eqb_neq p AV_NOPTS_VALUE)) by congruence. done.
  - rewrite Z.eqb_refl. done.
Qed.

(** What the decoder has to receive: the frames of the video stream from the
    first key frame on, each unit behind a start code. *)
Fixpoint annexb (seen : bool) (last_pts : Z) (fs : list frame) : list dmx_cb :=
  match fs with
  | [] => []
  | f :: fs =>
      if negb (f_stream f =? video_stream_idx vs) then annexb seen last_pts fs
      else
        let t := frame_time last_pts f in
        if seen || is_key f
        then flat_map unit_calls (f_units f) ++ [frame_done t] ++ annexb true t fs
        else annexb false t fs
  end.

(** A demuxer that reads four-byte lengths. *)
Definition length_prefixed (seen : bool) (d : dmx) : Prop :=
  raw_stream d = 0 /\ nal_size d = 4 /\ keyframe_seen d = (if seen then 1 else 0).

Lemma demux_packet_units f d seen :
  H2645 (codec vs) = true -> length_prefixed seen d ->
  frame_ok f ->
  exists d', packet (packet_of f) d = Some (pkt_size (packet_of f), d') /\
    exists seen' t, length_prefixed seen' d' /\ fake_pts d' = t /\
      forall fs, out d ++ annexb seen (fake_pts d) (f :: fs) = out d' ++ annexb seen' t fs.
Proof.
  intros Hc (Hr&Hn&Hk) Hok. pose proof Hok as [Hu _]. unfold demux_packet. rewrite packet_time by done. cbn [annexb stream_index packet_of].
  destruct (negb (f_stream f =? video_stream_idx vs)).
  { exists d. split; [done|]. exists seen, (fake_pts d). done. }
  rewrite Hc. cbn [raw_stream count_frame]. rewrite Hr. change (negb (0 =? 0)) with false. cbv iota.
  cbn [mbind option_bind keyframe_seen count_frame]. rewrite Hk.
  change (flags (packet_of f)) with (f_flags f).
  fold (count_frame d (frame_time (fake_pts d) f)).
  set (d1 := count_frame d _).
  assert (forall s, (seen || is_key f = true) -> keyframe_seen s = 1 -> raw_stream s = 0 ->
     nal_size s = 4 -> fake_pts s = fake_pts d1 -> out s = out d ->
    exists d', ('(_, _, _, d0) ← nalu_loop (S (Z.to_nat (pkt_size (packet_of f)))) (pkt_data (packet_of f))
                  (pkt_size (packet_of f)) (nal_size s) (0, 0, 0, s);
      Some (pkt_size (packet_of f), emit (frame_done (fake_pts d1)) d0)) = Some (pkt_size (packet_of f), d') /\
    exists seen' t, length_prefixed seen' d' /\ fake_pts d' = t /\
      forall fs, out d ++ flat_map unit_calls (f_units f) ++ [frame_done (fake_pts d1)] ++
        annexb true (fake_pts d1) fs = out d' ++ annexb seen' t fs) as Hgo.
  { intros s _ Hks Hrs Hns Hfs Hos. rewrite Hns.
    destruct (nalu_loop_units (f_pad f) (f_units f) Hu [] 0 s (S (Z.to_nat (pkt_size (packet_of f)))))
      as (n'&E).
    - lia.
    - cbn [pkt_size packet_of]. rewrite Nat2Z.id. apply le_n_S.
      clear. induction (f_units f) as [|u us IH]; [done|]. cbn [flat_map]. rewrite length_app. simpl. lia.
    - change ((@nil Z) ++ ?l) with l in E. change (zlen (@nil Z)) with 0 in E.
      cbn [pkt_data pkt_size packet_of] in E |- *. rewrite E. cbn [mbind option_bind].
      eexists. split; [done|]. exists true, (fake_pts d1). split; [|split].
      + done.
      + cbn. done.
      + intros fs. cbn. rewrite Hos. by rewrite <- !app_assoc. }
  destruct seen; cbn [negb andb orb].
  - change (1 =? 0) with false. cbn [andb]. apply (Hgo d1); done.
  - change (0 =? 0) with true. cbn [andb]. destruct (is_key f) eqn:Ek; cbv iota beta delta [negb].
    + apply (Hgo (set_keyframe_seen d1 1)); done.
    + exists d1. split; [done|]. exists false, (fake_pts d1). done.
Qed.

Lemma thread_units fs quit : H2645 (codec vs) = true ->
  Forall frame_ok fs ->
  forall seen d, length_prefixed seen d ->
  exists d', thread (map (fun f => (packet_of f, false)) fs) quit d = Some d' /\
    out d' = out d ++ annexb seen (fake_pts d) fs ++ (if quit : bool then [] else [eos]).
Proof.
  intros Hc. induction 1 as [|f fs Hf _ IH]; intros seen d Hd.
  - eexists. split; [done|]. destruct quit; simpl; by rewrite ?app_nil_r.
  - cbn [map dmx_thread_func].
    destruct (demux_packet_units f d seen Hc Hd Hf) as (d1&->&seen1&t&Hd1&Ht&Hout).
    cbn [mbind option_bind]. destruct (IH seen1 d1 Hd1) as (d'&E&Ho). exists d'. split; [done|].
    rewrite Ho, Ht, app_assoc, <- Hout. by rewrite <- app_assoc.
Qed.
End Stream.

(** ** Parameter sets *)

(** A buffer whose first bytes have been written. *)
Definition written (o pre : list Z) : list Z := pre ++ drop (length pre) o.

Lemma written_nil o : written o [] = o.
Proof. done. Qed.

Lemma written_length o pre : zlen pre <= zlen o -> length (written o pre) = length o.
Proof. intros. unfold written. rewrite length_app, length_drop. lia. Qed.

Lemma ablit_written o pre s : zlen pre <= zlen o ->
  ablit (written o pre) (zlen pre) s =
  if zlen (pre ++ s) <=? zlen o then Some (written o (pre ++ s)) else None.
Proof.
  intros Hp. destruct (Z.leb_spec (zlen (pre ++ s)) (zlen o)) as [Hl|Hl].
  - rewrite length_app in Hl. pose proof (ablit_app pre s o (zlen pre) eq_refl ltac:(lia)) as H.
    rewrite Nat2Z.id in H. unfold written. by rewrite H, length_app.
  - unfold ablit. rewrite written_length by done. rewrite length_app in Hl.
    rewrite (proj2 (Z.leb_gt _ (zlen o))) by lia. by rewrite andb_false_r.
Qed.

(** A unit behind its two-byte length. *)
Definition unit16 (u : list Z) : list Z := put_be16 (zlen u) ++ u.

Lemma WORD_BE_16 pre v post : 0 <= v < 2 ^ 16 ->
  WORD_BE (pre ++ put_be16 v ++ post) (zlen pre) = Some v.
Proof.
  intros Hv. unfold WORD_BE.
  pose proof (aget_mid pre (put_be16 v) post 0 _ eq_refl) as E0.
  pose proof (aget_mid pre (put_be16 v) post 1 _ eq_refl) as E1.
  rewrite Z.add_0_r in E0. rewrite E0. change (Z.of_nat 1) with 1 in E1. rewrite E1.
  cbn [mbind option_bind]. rewrite Z.lor_comm, lor_shiftl_add by zdiv. f_equal. zdiv.
Qed.

Lemma unit16_length u : zlen (unit16 u) = zlen u + 2.
Proof. unfold unit16. rewrite length_app. simpl length. lia. Qed.

Section Sets.
Variables (o : list Z) (size : Z).

(** A set is copied behind what has been written, or past the end of the buffer,
    which is undefined. *)
Lemma copy_set_step pre u post w i : zlen w <= zlen o -> zlen u < 2 ^ 16 ->
  zlen (pre ++ unit16 u) <= size ->
  copy_set (pre ++ unit16 u ++ post) size i (Some (zlen pre, written o w, zlen w)) =
  if zlen (w ++ u) <=? zlen o
  then Some (Some (zlen (pre ++ unit16 u), written o (w ++ u), zlen (w ++ u))) else None.
Proof.
  intros Hw Hu Hs. cbv beta iota delta [copy_set]. rewrite length_app in Hs.
  pose proof (unit16_length u) as Hl. unfold unit16 at 1 2. rewrite <- app_assoc.
  rewrite WORD_BE_16 by lia. cbn [mbind option_bind].
  rewrite (proj2 (Z.ltb_ge _ _)) by lia.
  replace (zlen pre + 2) with (zlen (pre ++ put_be16 (zlen u))) by (rewrite length_app; simpl length; lia).
  rewrite app_assoc, asub_mid. cbn [mbind option_bind]. rewrite ablit_written by done.
  destruct (zlen (w ++ u) <=? zlen o); [|done]. cbn [mbind option_bind]. unfold unit16.
  assert (zlen (pre ++ put_be16 (zlen u)) + zlen u = zlen (pre ++ put_be16 (zlen u) ++ u)) as ->
    by (rewrite !length_app; lia).
  assert (zlen w + zlen u = zlen (w ++ u)) as -> by (rewrite length_app; lia). done.
Qed.

Lemma copy_set_loop post sets : Forall (fun u : list Z => zlen u < 2 ^ 16) sets ->
  forall pre w i, zlen w <= zlen o -> zlen (pre ++ flat_map unit16 sets) <= size ->
  for_loop (length sets) i (copy_set (pre ++ flat_map unit16 sets ++ post) size)
    (Some (zlen pre, written o w, zlen w)) =
  if zlen (w ++ concat sets) <=? zlen o
  then Some (Some (zlen (pre ++ flat_map unit16 sets), written o (w ++ concat sets),
                   zlen (w ++ concat sets)))
  else None.
Proof.
  induction 1 as [|u sets Hu _ IH]; intros pre w i Hw Hs.
  - cbn [flat_map concat]. rewrite !app_nil_r. by rewrite (proj2 (Z.leb_le _ _)).
  - cbn [flat_map concat length] in *. rewrite for_loop_S, <- app_assoc.
    rewrite app_assoc, !length_app in Hs.
    rewrite copy_set_step by (rewrite ?length_app; lia).
    destruct (Z.leb_spec (zlen (w ++ u)) (zlen o)) as [Hl|Hl].
    + cbn [mbind option_bind]. rewrite (app_assoc pre (unit16 u)).
      rewrite IH; [by rewrite !app_assoc|done|rewrite !length_app; lia].
    + cbn [mbind option_bind]. rewrite (proj2 (Z.leb_gt _ _)); [done|].
      rewrite !length_app in *. lia.
Qed.
End Sets.

(** The start code the parsers write for a length size. *)
Definition start_code (nal_size : Z) : list Z := if nal_size =? 3 then [0; 0; 1] else [0; 0; 0; 1].

Lemma put_nal_spec nal o w : nal = 3 \/ nal = 4 -> zlen w <= zlen o ->
  put_nal nal (written o w) (zlen w) =
  if zlen (w ++ start_code nal) <=? zlen o
  then Some (Some (written o (w ++ start_code nal), zlen (w ++ start_code nal))) else None.
Proof.
  intros Hn Hw. unfold put_nal, start_code. destruct Hn as [->| ->].
  - change (3 =? 3) with true. cbv iota. rewrite ablit_written by done.
    destruct (_ <=? _); [|done]. cbn [mbind option_bind]. rewrite length_app, Nat2Z.inj_add. done.
  - change (4 =? 3) with false. change (4 =? 4) with true. cbv iota. rewrite ablit_written by done.
    destruct (_ <=? _); [|done]. cbn [mbind option_bind]. rewrite length_app, Nat2Z.inj_add. done.
Qed.

(** One start code in front of all the sets. *)
Definition sets_bytes (nal : Z) (sets : list (list Z)) : list Z :=
  match sets with [] => [] | _ => start_code nal ++ concat sets end.

Lemma copy_sets_spec o size nal sets pre w post :
  nal = 3 \/ nal = 4 -> Forall (fun u : list Z => zlen u < 2 ^ 16) sets ->
  zlen w <= zlen o -> zlen (pre ++ flat_map unit16 sets) <= size ->
  copy_sets (pre ++ flat_map unit16 sets ++ post) size nal (zlen sets) (zlen pre) (written o w) (zlen w) =
  if zlen (w ++ sets_bytes nal sets) <=? zlen o
  then Some (Some (zlen (pre ++ flat_map unit16 sets), written o (w ++ sets_bytes nal sets),
                   zlen (w ++ sets_bytes nal sets)))
  else None.
Proof.
  intros Hn Hs Hw Hp. unfold copy_sets. destruct sets as [|u sets].
  - change (zlen []) with 0. change (negb (0 =? 0)) with false. cbn [mbind option_bind flat_map sets_bytes].
    rewrite !app_nil_r. by rewrite for_range_empty, (proj2 (Z.leb_le _ _)).
  - change (negb (zlen (u :: sets) =? 0)) with true. cbv iota. rewrite put_nal_spec by done.
    unfold for_range. rewrite Z.sub_0_r, Nat2Z.id.
    destruct (Z.leb_spec (zlen (w ++ start_code nal)) (zlen o)) as [Hl|Hl].
    + cbn [mbind option_bind]. rewrite copy_set_loop by done. unfold sets_bytes.
      by rewrite <- !app_assoc.
    + cbn [mbind option_bind]. rewrite (proj2 (Z.leb_gt _ _)); [done|]. unfold sets_bytes.
      rewrite !length_app in *. lia.
Qed.

(** The length size 1 or 2 is refused when there is a set. *)
Lemma copy_sets_refused nal data size cnt p o w : nal <> 3 -> nal <> 4 -> cnt <> 0 ->
  copy_sets data size nal cnt p o w = Some None.
Proof.
  intros H3 H4 Hc. unfold copy_sets, put_nal.
  rewrite !(proj2 (Z.eqb_neq _ _)) by done. done.
Qed.

(** ** Configuration records *)

(** AVCDecoderConfigurationRecord. *)
Definition avcC (profile compat level nal : Z) (spss ppss : list (list Z)) : list Z :=
  [1; profile; compat; level; 252 + (nal - 1); 224 + zlen spss] ++ flat_map unit16 spss ++
  [zlen ppss] ++ flat_map unit16 ppss.

(** An array of HEVCDecoderConfigurationRecord: its type byte and its units. *)
Definition hvcC_array (a : Z * list (list Z)) : list Z :=
  [a.1] ++ put_be16 (zlen a.2) ++ flat_map unit16 a.2.

Definition hvcC (head : list Z) (nal : Z) (arrays : list (Z * list (list Z))) : list Z :=
  [1] ++ head ++ [252 + (nal - 1); zlen arrays] ++ flat_map hvcC_array arrays.

(** What the parser keeps of an array. *)
Definition array_bytes (nal : Z) (a : Z * list (list Z)) : list Z :=
  if parameter_set (a.1 .& 0x3F) then flat_map (fun u => start_code nal ++ u) a.2 else [].

Lemma lengths_field nal : 1 <= nal <= 4 -> ((252 + (nal - 1)) .& 0x03) + 1 = nal.
Proof. intros. assert (nal = 1 \/ nal = 2 \/ nal = 3 \/ nal = 4) as [->|[->|[->| ->]]] by lia; done. Qed.

Section Hvcc.
Variables (o : list Z) (nal : Z).
Hypothesis Hnal : nal = 3 \/ nal = 4.

Lemma hvcc_nalu_step t pre u post w i : zlen w <= zlen o -> zlen u < 2 ^ 16 ->
  let w' := w ++ (if parameter_set t then start_code nal ++ u else []) in
  hvcc_nalu (pre ++ unit16 u ++ post) nal t i (Some (zlen pre, written o w, zlen w)) =
  if zlen w' <=? zlen o then Some (Some (zlen (pre ++ unit16 u), written o w', zlen w')) else None.
Proof.
  intros Hw Hu w'. subst w'. cbv beta iota delta [hvcc_nalu]. unfold unit16 at 1 2. rewrite <- app_assoc.
  rewrite WORD_BE_16 by lia. cbn [mbind option_bind]. rewrite wrapu_small by lia.
  assert (zlen pre + 2 = zlen (pre ++ put_be16 (zlen u))) as -> by (rewrite length_app; simpl length; lia).
  assert (zlen (pre ++ put_be16 (zlen u)) + zlen u = zlen (pre ++ unit16 u)) as El
    by (unfold unit16; rewrite !length_app; lia).
  destruct (parameter_set t).
  - rewrite put_nal_spec by done.
    destruct (Z.leb_spec (zlen (w ++ start_code nal)) (zlen o)) as [Hl|Hl].
    + cbn [mbind option_bind]. rewrite app_assoc, asub_mid. cbn [mbind option_bind].
      rewrite ablit_written, El, <- app_assoc by done. destruct (_ <=? _); [|done]. cbn [mbind option_bind].
      do 3 f_equal. rewrite !length_app. lia.
    + cbn [mbind option_bind]. rewrite (proj2 (Z.leb_gt _ _)); [done|]. rewrite !length_app in *. lia.
  - rewrite app_nil_r, El. by rewrite (proj2 (Z.leb_le _ _)).
Qed.

Lemma hvcc_nalu_loop t post nals : Forall (fun u : list Z => zlen u < 2 ^ 16) nals ->
  forall pre w i, zlen w <= zlen o ->
  let w' := w ++ (if parameter_set t then flat_map (fun u => start_code nal ++ u) nals else []) in
  for_loop (length nals) i (hvcc_nalu (pre ++ flat_map unit16 nals ++ post) nal t)
    (Some (zlen pre, written o w, zlen w)) =
  if zlen w' <=? zlen o
  then Some (Some (zlen (pre ++ flat_map unit16 nals), written o w', zlen w')) else None.
Proof.
  induction 1 as [|u nals Hu _ IH]; intros pre w i Hw w'; subst w'.
  - destruct (parameter_set t); cbn [flat_map]; rewrite !app_nil_r; by rewrite (proj2 (Z.leb_le _ _)).
  - cbn [flat_map length]. rewrite for_loop_S, <- app_assoc. rewrite hvcc_nalu_step by done.
    destruct (Z.leb_spec (zlen (w ++ (if parameter_set t then start_code nal ++ u else []))) (zlen o)) as [Hl|Hl].
    + cbn [mbind option_bind]. rewrite (app_assoc pre (unit16 u)), IH by done.
      destruct (parameter_set t); rewrite ?app_nil_r, <- ?app_assoc; done.
    + cbn [mbind option_bind]. rewrite (proj2 (Z.leb_gt _ _)); [done|].
      destruct (parameter_set t); rewrite !length_app in *; lia.
Qed.

Lemma hvcc_array_step pre a post w i : zlen w <= zlen o -> zlen a.2 < 2 ^ 16 ->
  Forall (fun u : list Z => zlen u < 2 ^ 16) a.2 ->
  let w' := w ++ array_bytes nal a in
  hvcc_array (pre ++ hvcC_array a ++ post) nal i (Some (zlen pre, written o w, zlen w)) =
  if zlen w' <=? zlen o then Some (Some (zlen (pre ++ hvcC_array a), written o w', zlen w')) else None.
Proof.
  intros Hw Hc Ha w'. subst w'. cbv beta iota delta [hvcc_array]. unfold hvcC_array.
  assert (aget (pre ++ ([a.1] ++ put_be16 (zlen a.2) ++ flat_map unit16 a.2) ++ post) (zlen pre) = Some a.1) as ->.
  { pose proof (aget_mid pre [a.1] ((put_be16 (zlen a.2) ++ flat_map unit16 a.2) ++ post) 0 _ eq_refl) as E.
    rewrite Z.add_0_r in E. by rewrite <- E, <- !app_assoc. }
  cbn [mbind option_bind].
  replace (pre ++ ([a.1] ++ put_be16 (zlen a.2) ++ flat_map unit16 a.2) ++ post)
    with ((pre ++ [a.1]) ++ put_be16 (zlen a.2) ++ (flat_map unit16 a.2 ++ post)) by (by rewrite <- !app_assoc).
  assert (zlen pre + 1 = zlen (pre ++ [a.1])) as -> by (rewrite length_app; simpl length; lia).
  rewrite WORD_BE_16 by lia. cbn [mbind option_bind]. rewrite wrapu_small by lia.
  rewrite app_assoc.
  assert (zlen pre + 3 = zlen ((pre ++ [a.1]) ++ put_be16 (zlen a.2))) as ->
    by (rewrite !length_app; simpl length; lia).
  unfold for_range. rewrite Z.sub_0_r, Nat2Z.id, hvcc_nalu_loop by done. unfold array_bytes.
  by rewrite <- !app_assoc.
Qed.

Lemma hvcc_arrays post arrays : Forall (fun a => zlen a.2 < 2 ^ 16 /\
    Forall (fun u : list Z => zlen u < 2 ^ 16) a.2) arrays ->
  forall pre w i, zlen w <= zlen o ->
  let w' := w ++ flat_map (array_bytes nal) arrays in
  for_loop (length arrays) i (hvcc_array (pre ++ flat_map hvcC_array arrays ++ post) nal)
    (Some (zlen pre, written o w, zlen w)) =
  if zlen w' <=? zlen o
  then Some (Some (zlen (pre ++ flat_map hvcC_array arrays), written o w', zlen w')) else None.
Proof.
  induction 1 as [|a arrays [Hc Ha] _ IH]; intros pre w i Hw w'; subst w'.
  - cbn [flat_map]. rewrite !app_nil_r. by rewrite (proj2 (Z.leb_le _ _)).
  - cbn [flat_map length]. rewrite for_loop_S, <- app_assoc. rewrite hvcc_array_step by done.
    destruct (Z.leb_spec (zlen (w ++ array_bytes nal a)) (zlen o)) as [Hl|Hl].
    + cbn [mbind option_bind]. rewrite (app_assoc pre (hvcC_array a)), IH by done. by rewrite <- !app_assoc.
    + cbn [mbind option_bind]. rewrite (proj2 (Z.leb_gt _ _)); [done|]. rewrite !length_app in *. lia.
Qed.
End Hvcc.

Definition short_units (us : list (list Z)) : Prop := Forall (fun u : list Z => zlen u < 2 ^ 16) us.

(** The bytes of an AVCDecoderConfigurationRecord before its sets. *)
Definition avcC_head (p c l nal : Z) (spss : list (list Z)) : list Z :=
  [1; p; c; l; 252 + (nal - 1); 224 + zlen spss].

Lemma avcC_split p c l nal spss ppss pad :
  avcC p c l nal spss ppss ++ pad =
  avcC_head p c l nal spss ++ flat_map unit16 spss ++ ([zlen ppss] ++ flat_map unit16 ppss ++ pad).
Proof. unfold avcC. by rewrite <- !app_assoc. Qed.

Lemma count_field n : 0 <= n < 32 -> (224 + n) .& 0x1f = n.
Proof. intros. change 0x1f with (Z.ones 5). rewrite Z.land_ones by lia. zdiv. Qed.

Section Avcc.
Variables (p c l nal : Z) (spss ppss : list (list Z)) (pad o : list Z).
Hypotheses (Hs : zlen spss < 32) (Hss : short_units spss) (Hps : short_units ppss) (Hl : 1 <= nal <= 4).

Abbreviation data := (avcC p c l nal spss ppss ++ pad).
Abbreviation size := (zlen (avcC p c l nal spss ppss)).

Lemma h264_parse_sets n0 r0 :
  h264_header_parse (Some data) size (Some o) n0 r0 =
  (st ← copy_sets data size nal (zlen spss) 6 o 0;
   match st with
   | None => Some (MkParsed (-2) [] 0 nal r0)
   | Some (p, o, cur_size) =>
       cnt ← aget data p;
       st ← copy_sets data size nal cnt (p + 1) o cur_size;
       match st with
       | None => Some (MkParsed (-2) [] 0 nal r0)
       | Some (_, o, cur_size) => Some (MkParsed 0 o cur_size nal r0)
       end
   end).
Proof.
  assert (7 <= size) as H7 by (unfold avcC; rewrite !length_app; simpl length; lia).
  unfold h264_header_parse. rewrite (proj2 (Z.leb_gt size 0)) by lia.
  change (aget data 0) with (Some 1). cbn [mbind option_bind]. change (negb (1 =? 1)) with false. cbv iota.
  rewrite (proj2 (Z.ltb_ge size 7)) by lia.
  change (aget data 4) with (Some (252 + (nal - 1))). change (aget data 5) with (Some (224 + zlen spss)).
  cbn [mbind option_bind]. by rewrite lengths_field, count_field by lia.
Qed.

Lemma h264_parse_avcC n0 r0 : nal = 3 \/ nal = 4 ->
  let header := sets_bytes nal spss ++ sets_bytes nal ppss in
  h264_header_parse (Some data) size (Some o) n0 r0 =
  if zlen header <=? zlen o then Some (MkParsed 0 (written o header) (zlen header) nal r0) else None.
Proof.
  intros Hn header. subst header. rewrite h264_parse_sets.
  pose proof (copy_sets_spec o size nal spss (avcC_head p c l nal spss) []
    ([zlen ppss] ++ flat_map unit16 ppss ++ pad) Hn Hss) as E1.
  rewrite <- avcC_split in E1. cbn [app] in E1. change (zlen (avcC_head p c l nal spss)) with 6 in E1.
  rewrite written_nil in E1. change (zlen (@nil Z)) with 0 in E1.
  assert (size = zlen (avcC_head p c l nal spss ++ flat_map unit16 spss) + 1 + zlen (flat_map unit16 ppss)) as Hsz
    by (unfold avcC; rewrite !length_app; simpl length; lia).
  rewrite E1 by lia.
  destruct (Z.leb_spec (zlen (sets_bytes nal spss)) (zlen o)) as [Hf|Hf].
  - cbn [mbind option_bind]. rewrite avcC_split at 1. rewrite app_assoc.
    pose proof (aget_mid (avcC_head p c l nal spss ++ flat_map unit16 spss) [zlen ppss]
      (flat_map unit16 ppss ++ pad) 0 _ eq_refl) as Eg. rewrite Z.add_0_r in Eg. rewrite Eg.
    cbn [mbind option_bind].
    pose proof (copy_sets_spec o size nal ppss
      ((avcC_head p c l nal spss ++ flat_map unit16 spss) ++ [zlen ppss]) (sets_bytes nal spss) pad
      Hn Hps Hf) as E2.
    rewrite (length_app _ [zlen ppss]), Nat2Z.inj_add in E2. change (zlen [zlen ppss]) with 1 in E2.
    replace (((avcC_head p c l nal spss ++ flat_map unit16 spss) ++ [zlen ppss]) ++ flat_map unit16 ppss ++ pad)
      with data in E2 by (rewrite avcC_split, <- !app_assoc; done).
    rewrite E2 by (rewrite !length_app in *; simpl length in *; lia). by destruct (_ <=? _).
  - cbn [mbind option_bind]. rewrite (proj2 (Z.leb_gt _ _)); [done|]. rewrite length_app. lia.
Qed.

Lemma h264_parse_refused n0 r0 : nal = 1 \/ nal = 2 -> spss <> [] ->
  h264_header_parse (Some data) size (Some o) n0 r0 = Some (MkParsed (-2) [] 0 nal r0).
Proof.
  intros Hn Hne. rewrite h264_parse_sets, copy_sets_refused; [done|lia|lia|].
  destruct spss; [done|simpl; lia].
Qed.
End Avcc.

Lemma asub_written o header : zlen header <= zlen o ->
  asub (written o header) 0 (zlen header) = Some header.
Proof. intros. unfold written. apply (asub_mid []). Qed.

Lemma h265_parse_hvcC head nal arrays pad o n0 r0 : nal = 3 \/ nal = 4 -> length head = 20%nat ->
  Forall (fun a => zlen a.2 < 2 ^ 16 /\ short_units a.2) arrays ->
  let header := flat_map (array_bytes nal) arrays in
  h265_header_parse (Some (hvcC head nal arrays ++ pad)) (zlen (hvcC head nal arrays)) (Some o) n0 r0 =
  if zlen header <=? zlen o then Some (MkParsed 0 (written o header) (zlen header) nal r0) else None.
Proof.
  intros Hn Hh Ha header. subst header.
  assert (23 <= zlen (hvcC head nal arrays)) as H7 by (unfold hvcC; rewrite !length_app, Hh; simpl length; lia).
  unfold h265_header_parse. rewrite (proj2 (Z.leb_gt _ 0)), (proj2 (Z.ltb_ge _ 7)) by lia. cbn [orb].
  set (data := hvcC head nal arrays ++ pad).
  assert (forall k, 0 <= k < 23 -> exists b, aget data k = Some b) as Hg.
  { intros k Hk. apply aget_Some. unfold data. rewrite length_app. lia. }
  destruct (Hg 1) as [d1 E1]; [lia|]. destruct (Hg 2) as [d2 E2]; [lia|]. destruct (Hg 3) as [d3 E3]; [lia|].
  rewrite E1, E2, E3. change (aget data 0) with (Some 1). cbn [mbind option_bind].
  change (1 =? 0) with false. cbn [andb orb].
  set (pre := [1] ++ head ++ [252 + (nal - 1); zlen arrays]).
  assert (data = pre ++ flat_map hvcC_array arrays ++ pad) as Ed
    by (unfold data, hvcC, pre; by rewrite <- !app_assoc).
  assert (data = ([1] ++ head) ++ [252 + (nal - 1); zlen arrays] ++ flat_map hvcC_array arrays ++ pad) as Ed'
    by (rewrite Ed; unfold pre; by rewrite <- !app_assoc).
  assert (zlen ([1] ++ head) = 21) as Hp by (rewrite length_app, Hh; done).
  pose proof (aget_mid ([1] ++ head) [252 + (nal - 1); zlen arrays] (flat_map hvcC_array arrays ++ pad)
    0 _ eq_refl) as G0.
  pose proof (aget_mid ([1] ++ head) [252 + (nal - 1); zlen arrays] (flat_map hvcC_array arrays ++ pad)
    1 _ eq_refl) as G1.
  rewrite Hp, <- Ed' in G0, G1. change (21 + Z.of_nat 0) with 21 in G0. change (21 + Z.of_nat 1) with 22 in G1.
  rewrite G0, G1. cbn [mbind option_bind]. rewrite lengths_field by lia.
  pose proof (hvcc_arrays o nal Hn pad arrays Ha pre [] 0 ltac:(simpl; lia)) as E. cbv zeta in E.
  cbn [app] in E. rewrite written_nil, <- Ed in E. change (zlen (@nil Z)) with 0 in E.
  assert (zlen pre = 23) as Hpre by (unfold pre; rewrite !length_app, Hh; done).
  unfold for_range. rewrite Z.sub_0_r, Nat2Z.id. rewrite Hpre in E. cbn [app] in E. rewrite E.
  by destruct (_ <=? _).
Qed.

(** ** Other length sizes *)

(** A unit of a packet whose lengths have three bytes. *)
Definition unit24 (u : list Z) : list Z :=
  [zlen u / 2 ^ 16; zlen u / 2 ^ 8 mod 2 ^ 8; zlen u mod 2 ^ 8] ++ u.

Lemma read_be24 pre u n post : zlen u < 2 ^ 24 ->
  read_nalu_size (pre ++ unit24 u ++ post) 3 n (zlen pre) = Some (s32 (n * 2 ^ 24 + zlen u), zlen pre + 3).
Proof.
  intros Hv. unfold read_nalu_size. set (v := zlen u) in *.
  assert (forall k x, [v / 2 ^ 16; v / 2 ^ 8 mod 2 ^ 8; v mod 2 ^ 8] !! k = Some x ->
    aget (pre ++ unit24 u ++ post) (zlen pre + Z.of_nat k) = Some x) as Hg.
  { intros k x Hk. unfold unit24. fold v. rewrite <- app_assoc. by apply aget_mid. }
  pose proof (Hg 0%nat _ eq_refl) as G0. pose proof (Hg 1%nat _ eq_refl) as G1.
  pose proof (Hg 2%nat _ eq_refl) as G2. assert (0 <= v) by lia.
  rewrite (read_nalu_size_step _ 2 3 0 n (zlen pre) (v / 2 ^ 16));
    [|lia|by rewrite <- G0; f_equal; lia|zdiv].
  rewrite (read_nalu_size_step _ 1 3 1 _ (zlen pre + 1) (v / 2 ^ 8 mod 2 ^ 8)); [|lia|done|zdiv].
  rewrite shift_in_mod.
  rewrite (read_nalu_size_step _ 0 3 2 _ (zlen pre + 1 + 1) (v mod 2 ^ 8));
    [|lia|by rewrite <- G2; f_equal; lia|zdiv].
  rewrite shift_in_mod, for_range_empty by lia. f_equal. f_equal; [f_equal; zdiv|lia].
Qed.

Lemma asub_too_long {A} (l : list A) off n : zlen l < n -> asub l off n = None.
Proof.
  intros. unfold asub. destruct (Z.leb_spec 0 off); [|done].
  rewrite (proj2 (Z.leb_gt (off + n) _)) by lia. by rewrite andb_false_r.
Qed.

Lemma asub_negative {A} (l : list A) off n : n < 0 -> asub l off n = None.
Proof.
  intros. unfold asub. rewrite (proj2 (Z.leb_gt 0 n)) by lia. by rewrite andb_false_r.
Qed.

Lemma nalu_step_24 pre u post d : zlen u < 2 ^ 24 ->
  nalu_step (pre ++ unit24 u ++ post) 3 (zlen pre, 0, zlen pre, d) =
  Some (zlen (pre ++ unit24 u), zlen u, zlen (pre ++ unit24 u),
        emit (write u) (insert_nal d).2).
Proof.
  intros Hu. cbv beta iota delta [nalu_step]. rewrite read_be24 by done. cbn [mbind option_bind].
  rewrite wraps_small by (try change (2 ^ (32 - 1)) with (2 ^ 31); lia).
  destruct (insert_nal d) as [sz d1]. unfold unit24 at 1. rewrite Z.mul_0_l, Z.add_0_l.
  set (l3 := [zlen u / 2 ^ 16; zlen u / 2 ^ 8 mod 2 ^ 8; zlen u mod 2 ^ 8]).
  assert (zlen pre + 3 = zlen (pre ++ l3)) as -> by (rewrite length_app; simpl length; lia).
  rewrite <- app_assoc, app_assoc, asub_mid. cbn [mbind option_bind snd].
  assert (zlen (pre ++ l3) + zlen u = zlen (pre ++ unit24 u)) as ->; [|done].
  unfold unit24. fold l3. rewrite app_assoc, (length_app (pre ++ l3)). lia.
Qed.

(** After a unit whose size is not a multiple of 256, the size of the next one is
    read wrong, and the read leaves the packet. *)
Lemma nalu_step_24_next pre u2 post n d : 0 <= n < 2 ^ 24 -> n mod 2 ^ 8 <> 0 ->
  zlen u2 < 2 ^ 24 -> zlen (pre ++ unit24 u2 ++ post) < 2 ^ 24 ->
  nalu_step (pre ++ unit24 u2 ++ post) 3 (zlen pre, n, zlen pre, d) = None.
Proof.
  intros Hn Hm Hu Hl. cbv beta iota delta [nalu_step]. rewrite read_be24 by done. cbn [mbind option_bind].
  destruct (insert_nal d) as [sz d1].
  assert (s32 (n * 2 ^ 24 + zlen u2) < 0 \/ 2 ^ 24 <= s32 (n * 2 ^ 24 + zlen u2)) as [Hs|Hs].
  { unfold wraps. change (2 ^ (32 - 1)) with 2147483648. change (2 ^ 32) with 4294967296. zdiv. }
  - by rewrite asub_negative.
  - by rewrite asub_too_long by lia.
Qed.

(** Without lengths the loop of [demux_packet] makes no progress. *)
Lemma nalu_step_zero data d : nal_size d <> 3 ->
  nalu_step data 0 (0, 0, 0, d) = Some (0, 0, 0, emits [write s_nal_4; write []] d).
Proof.
  intros Hn. cbv beta iota delta [nalu_step]. change (read_nalu_size data 0 0 0) with (Some (0, 0)).
  cbn [mbind option_bind]. rewrite insert_nal_4 by done.
  rewrite asub_Some by lia. change (Z.to_nat 0) with O. rewrite take_0. cbn [mbind option_bind].
  f_equal. f_equal. unfold emit, emits. simpl. by rewrite <- app_assoc.
Qed.

Fixpoint repeated (k : nat) : list dmx_cb :=
  match k with O => [] | S k => [write s_nal_4; write []] ++ repeated k end.

Lemma nalu_turns data (k : nat) : forall i d, nal_size d <> 3 ->
  for_loop k i (fun _ => nalu_step data 0) (0, 0, 0, d) = Some (0, 0, 0, emits (repeated k) d).
Proof.
  induction k as [|k IH]; intros i d Hd; [unfold for_loop; by rewrite emits_nil|].
  rewrite for_loop_S, nalu_step_zero by done. cbn [mbind option_bind]. rewrite IH by done.
  unfold emits. cbn [repeated out raw_stream keyframe_seen nal_size fake_pts video_frame_count].
  by rewrite <- app_assoc.
Qed.

Lemma nalu_loop_zero data size (fuel : nat) : 0 < size -> forall d, nal_size d <> 3 ->
  nalu_loop fuel data size 0 (0, 0, 0, d) = None.
Proof.
  intros Hs. induction fuel as [|fuel IH]; intros d Hd; [done|]. unfold nalu_loop.
  rewrite while_loop_S, (proj2 (Z.ltb_lt 0 size)), nalu_step_zero by done. cbn [mbind option_bind].
  by apply IH.
Qed.

(** ** Claims *)

(** The configuration records whose bytes are a header of an Annex B stream with
    four-byte start codes. *)
Inductive configuration : AVCodecID -> list Z -> list Z -> Prop :=
  | config_avcC p c l sps pps : zlen sps < 2 ^ 16 -> zlen pps < 2 ^ 16 ->
      configuration AV_CODEC_ID_H264 (avcC p c l 4 [sps] [pps]) ([0; 0; 0; 1] ++ sps ++ [0; 0; 0; 1] ++ pps)
  | config_hvcC head arrays : length head = 20%nat ->
      Forall (fun a => zlen a.2 < 2 ^ 16 /\ short_units a.2) arrays ->
      configuration AV_CODEC_ID_H265 (hvcC head 4 arrays) (flat_map (array_bytes 4) arrays).

Lemma demux_init_configuration c record header pad mem w h :
  configuration c record header -> zlen header <= zlen mem ->
  exists d t, video_type c = Some t /\
    demux_init_stream (MkParams c w h (Some (record ++ pad)) (zlen record)) (Some mem) dmx_start = Some (0, d) /\
    length_prefixed false d /\ fake_pts d = 0 /\
    out d = [meta_done (MkVData w h t)] ++ match header with [] => [] | _ => [write header] end.
Proof.
  intros Hc Hh. destruct Hc as [p c l sps pps Hs Hp|head arrays Hl Ha].
  - unfold demux_init_stream. cbn [video_type codec_id extradata_size par_width par_height extradata].
    rewrite (proj2 (Z.eqb_neq _ 0)) by (unfold avcC; rewrite !length_app; simpl length; lia).
    rewrite h264_parse_avcC; [|simpl; lia|by repeat constructor|by repeat constructor|lia|by right].
    assert (sets_bytes 4 [sps] ++ sets_bytes 4 [pps] = s_nal_4 ++ sps ++ s_nal_4 ++ pps) as ->
      by (cbn [sets_bytes concat]; unfold start_code; simpl; by rewrite !app_nil_r).
    rewrite (proj2 (Z.leb_le _ _)) by done. cbn [mbind option_bind ret o_data o_size].
    change (negb (0 =? 0)) with false. cbv iota. rewrite asub_written by done. cbn [mbind option_bind].
    eexists _, _. split; [done|]. split; [done|]. done.
  - unfold demux_init_stream. cbn [video_type codec_id extradata_size par_width par_height extradata].
    rewrite (proj2 (Z.eqb_neq _ 0)) by (unfold hvcC; rewrite !length_app; simpl length; lia).
    rewrite h265_parse_hvcC; [|by right|done|done].
    rewrite (proj2 (Z.leb_le _ _)) by done. cbn [mbind option_bind ret o_data o_size].
    change (negb (0 =? 0)) with false. cbv iota. rewrite asub_written by done.
    destruct (flat_map (array_bytes 4) arrays) as [|b bs].
    + eexists _, _. split; [done|]. split; [done|]. done.
    + change (negb (zlen (b :: bs) =? 0)) with true. cbn [mbind option_bind].
      eexists _, _. split; [done|]. split; [done|]. done.
Qed.



(** The frames of the example, as the decoder receives them. *)
Example annexb_example :
  annexb (fun p (a b : Z * Z) => p * a.1 * b.2 / (a.2 * b.1)) 1
    (MkStream 0 AV_CODEC_ID_H264 (1, 90000)) false 0
    [MkFrame [[0x61; 9]] [] 0 (Some 3003) 0 0; MkFrame [[0x65; 1]; [0x65; 2]] [0] 0 (Some 6006) 0 1;
     MkFrame [[0x61; 3]] [] 0 None 3003 0] =
  [write [0; 0; 0; 1]; write [0x65; 1]; write [0; 0; 0; 1]; write [0x65; 2]; frame_done 66733;
   write [0; 0; 0; 1]; write [0x61; 3]; frame_done 100099].
Proof. reflexivity. Qed.

(** C35: the avcC parser, on every well-formed record.  With lengths of three or
    four bytes it returns one start code and the SPSs, then one start code and
    the PPSs, if they fit the buffer; if they do not, it writes past the buffer.
    Only the first set of each kind has a start code.  Lengths of one or two bytes
    are refused with -2. *)
Theorem h264_header_correct p c l nal spss ppss pad o n0 r0 :
  zlen spss < 32 -> short_units spss -> short_units ppss -> 1 <= nal <= 4 -> spss <> [] ->
  let header := sets_bytes nal spss ++ sets_bytes nal ppss in
  h264_header_parse (Some (avcC p c l nal spss ppss ++ pad)) (zlen (avcC p c l nal spss ppss)) (Some o) n0 r0 =
  if nal <=? 2 then Some (MkParsed (-2) [] 0 nal r0)
  else if zlen header <=? zlen o
  then Some (MkParsed 0 (header ++ drop (length header) o) (zlen header) nal r0)
  else None.
Proof.
  intros Hs Hss Hps Hl Hne header. destruct (Z.leb_spec nal 2).
  - by apply h264_parse_refused; [..|lia|].
  - by apply h264_parse_avcC; [..|lia].
Qed.

Lemma h264_header_correct_witness :
  h264_header_parse (Some (avcC 66 0 30 3 [[1; 2]; [3]] [[4]] ++ [])) (zlen (avcC 66 0 30 3 [[1; 2]; [3]] [[4]]))
    (Some (replicate 10 0)) 0 0 = Some (MkParsed 0 [0; 0; 1; 1; 2; 3; 0; 0; 1; 4] 10 3 0).
Proof.
  apply (h264_header_correct 66 0 30 3 [[1; 2]; [3]] [[4]] [] (replicate 10 0) 0 0);
    [simpl; lia|repeat constructor; simpl; lia|repeat constructor; simpl; lia|lia|done].
Defined.

(** C36: the hvcC parser, on every well-formed record.  It returns every VPS, SPS
    and PPS behind a start code, in order, and skips the other arrays; it never
    compares with the size of the buffer, so larger headers are written past it. *)
Theorem h265_header_correct head nal arrays pad o n0 r0 :
  nal = 3 \/ nal = 4 -> length head = 20%nat ->
  Forall (fun a => zlen a.2 < 2 ^ 16 /\ short_units a.2) arrays ->
  let header := flat_map (array_bytes nal) arrays in
  h265_header_parse (Some (hvcC head nal arrays ++ pad)) (zlen (hvcC head nal arrays)) (Some o) n0 r0 =
  if zlen header <=? zlen o
  then Some (MkParsed 0 (header ++ drop (length header) o) (zlen header) nal r0)
  else None.
Proof. intros. by apply h265_parse_hvcC. Qed.

Lemma h265_header_correct_witness :
  h265_header_parse (Some (hvcC (replicate 20 1) 4 [(0xA0, [[1; 2]]); (39, [[9]]); (33, [[3]; [4]])] ++ []))
    (zlen (hvcC (replicate 20 1) 4 [(0xA0, [[1; 2]]); (39, [[9]]); (33, [[3]; [4]])]))
    (Some (replicate 18 7)) 0 0 =
  Some (MkParsed 0 [0; 0; 0; 1; 1; 2; 0; 0; 0; 1; 3; 0; 0; 0; 1; 4; 7; 7] 16 4 0).
Proof.
  apply (h265_header_correct (replicate 20 1) 4 [(0xA0, [[1; 2]]); (39, [[9]]); (33, [[3]; [4]])] []
    (replicate 18 7) 0 0); [by right|done|repeat constructor; simpl; lia].
Defined.

(** Three-byte lengths are misread after the first unit.  The size of a unit
    is not reset before the next length is shifted in, so with three-byte lengths
    the low byte of the previous size becomes the top byte of the next: unless it
    is zero, a packet with a second unit is read out of its bounds. *)
Theorem demux_nal3_misread av_rescale_q NOPTS KEY vs u1 u2 rest pts dur d :
  H2645 (codec vs) = true -> raw_stream d = 0 -> nal_size d = 3 -> keyframe_seen d = 1 ->
  let data := unit24 u1 ++ unit24 u2 ++ rest in
  zlen data < 2 ^ 24 -> zlen u1 mod 256 <> 0 ->
  demux_packet av_rescale_q NOPTS KEY vs
    (MkPacket data (zlen data) (video_stream_idx vs) pts dur 0) d = None.
Proof.
  intros Hc Hr Hn Hk data Hl Hm. unfold demux_packet. cbn [stream_index].
  rewrite Z.eqb_refl, Hc. change (negb true) with false. cbv iota.
  cbn [raw_stream count_frame]. rewrite Hr. change (negb (0 =? 0)) with false. cbv iota.
  cbn [mbind option_bind keyframe_seen count_frame]. rewrite Hk. change (1 =? 0) with false. cbn [andb].
  cbn [nal_size count_frame pkt_size pkt_data]. rewrite Hn. unfold data in Hl. rewrite !length_app in Hl.
  assert (zlen (unit24 u1) = zlen u1 + 3 /\ zlen (unit24 u2) = zlen u2 + 3) as [L1 L2]
    by (unfold unit24; rewrite !length_app; simpl length; lia).
  replace (Z.to_nat (zlen data)) with (S (pred (length data)))
    by (unfold data; rewrite !length_app; lia).
  unfold nalu_loop. rewrite while_loop_S.
  rewrite (proj2 (Z.ltb_lt 0 _)) by (unfold data; rewrite !length_app; lia).
  set (d1 := count_frame d _).
  pose proof (nalu_step_24 [] u1 (unit24 u2 ++ rest) d1 ltac:(lia)) as E1. cbn [app] in E1.
  change (zlen (@nil Z)) with 0 in E1. fold data in E1. rewrite E1. cbn [mbind option_bind].
  rewrite while_loop_S. rewrite (proj2 (Z.ltb_lt (zlen (unit24 u1)) _)) by (unfold data; rewrite !length_app; lia).
  pose proof (nalu_step_24_next (unit24 u1) u2 rest (zlen u1) (emit (write u1) (insert_nal d1).2)) as E2.
  fold data in E2. by rewrite E2 by (unfold data; rewrite ?length_app; lia || done).
Qed.

Lemma demux_nal3_misread_witness :
  let vs := MkStream 0 AV_CODEC_ID_H264 (1, 90000) in
  let data := unit24 [1; 2] ++ unit24 [3] ++ replicate 64 0 in
  demux_packet (fun p (_ _ : Z * Z) => p) (- 2 ^ 63) 1 vs (MkPacket data (zlen data) 0 0 0 0)
    (MkDmx 0 1 3 0 0 []) = None.
Proof.
  intros vs data.
  apply (demux_nal3_misread (fun p (_ _ : Z * Z) => p) (- 2 ^ 63) 1 vs [1; 2] [3] (replicate 64 0) 0 0
    (MkDmx 0 1 3 0 0 [])); [done|done|done|done|apply Z.ltb_lt; reflexivity|done].
Defined.

(** C39: H.264 or H.265 without a configuration record is demuxed forever.
    Initialisation accepts the stream and leaves the length size at 0; then, for
    the first key packet that is not empty, every turn of the loop writes a start
    code and no data and consumes nothing, so no number of turns ends it. *)
Theorem demux_no_extradata_diverges c w h e mem data size :
  H2645 c = true -> 0 < size ->
  exists d, demux_init_stream (MkParams c w h e 0) mem dmx_start = Some (0, d) /\
    raw_stream d = 0 /\ nal_size d = 0 /\
    forall s, nal_size s = nal_size d -> forall k : nat,
      for_loop k 0 (fun _ => nalu_step data (nal_size s)) (0, 0, 0, s)
        = Some (0, 0, 0, emits (repeated k) s) /\
      nalu_loop k data size (nal_size s) (0, 0, 0, s) = None.
Proof.
  intros Hc Hs. destruct c; try done.
  - eexists. split; [done|]. split; [done|]. split; [done|]. intros s Hn k. rewrite Hn. cbn.
    rewrite nalu_turns, nalu_loop_zero; rewrite ?Hn; done.
  - eexists. split; [done|]. split; [done|]. split; [done|]. intros s Hn k. rewrite Hn. cbn.
    rewrite nalu_turns, nalu_loop_zero; rewrite ?Hn; done.
Qed.

Lemma demux_no_extradata_diverges_witness :
  exists d, demux_init_stream (MkParams AV_CODEC_ID_H264 16 8 None 0) None dmx_start = Some (0, d) /\
    raw_stream d = 0 /\ nal_size d = 0 /\
    forall s, nal_size s = nal_size d -> forall k : nat,
      for_loop k 0 (fun _ => nalu_step [0; 0; 0; 1; 0x65] (nal_size s)) (0, 0, 0, s)
        = Some (0, 0, 0, emits (repeated k) s) /\
      nalu_loop k [0; 0; 0; 1; 0x65] 5 (nal_size s) (0, 0, 0, s) = None.
Proof. apply (demux_no_extradata_diverges AV_CODEC_ID_H264 16 8 None None [0; 0; 0; 1; 0x65] 5); done. Defined.
