(* ===== verification/MadBit.v ===== *)
(** The bit pointers of libmad: [src/libmad/bit.h] and [bit.c].

    A pointer is a position in a byte buffer; [mad_bit_read] returns the next bits
    as an unsigned number and [mad_bit_crc] their CRC-16.  [unsigned long] has
    [long_bits] bits, 32 or 64 on the targets of the library. *)
From S2P Require Import Prelude BitString Crc.

(** ** Pointers *)

(** [byte] is an offset into the buffer. *)
Record mad_bitptr := MkBitptr { byte : Z; cache : Z; left : Z }.

Definition CHAR_BIT : Z := 8.

Definition mad_bit_init (p : Z) : mad_bitptr := MkBitptr p 0 CHAR_BIT.

Definition mad_bit_length (b e : mad_bitptr) : Z :=
  u32 (left b + CHAR_BIT * (byte e - (byte b + 1)) + (CHAR_BIT - left e)).

Definition mad_bit_bitsleft (b : mad_bitptr) : Z := left b.

Definition mad_bit_nextbyte (b : mad_bitptr) : Z :=
  if left b =? CHAR_BIT then byte b else byte b + 1.

Section Bit.
Variable long_bits : Z.
Variable mem : list Z.

Definition mad_bit_skip (b : mad_bitptr) (len : Z) : option mad_bitptr :=
    let p := byte b + len / CHAR_BIT in
    let l := u16 (left b - len mod CHAR_BIT) in
    let '(p, l) := if CHAR_BIT <? l then (p + 1, u16 (l + CHAR_BIT)) else (p, l) in
    c ← (if l <? CHAR_BIT then aget mem p else Some (cache b));
    Some (MkBitptr p c l).

(** Body of the loop over the whole bytes; the state is [value], [byte] and
      [len]. *)
Definition read_step (st : Z * Z * Z) : option (Z * Z * Z) :=
    let '(value, p, len) := st in
    b ← aget mem p; Some (wrapu long_bits (value .<< CHAR_BIT) .| b, p + 1, len - CHAR_BIT).

Definition mad_bit_read (b : mad_bitptr) (len : Z) : option (Z * mad_bitptr) :=
    c ← (if left b =? CHAR_BIT then aget mem (byte b) else Some (cache b));
    if len <? left b then
      Some ((c .& ((1 .<< left b) - 1)) .>> (left b - len), MkBitptr (byte b) c (left b - len))
    else
      '(value, p, len) ←
        while_loop (S (Z.to_nat (len / CHAR_BIT))) (fun '(_, _, len) => CHAR_BIT <=? len) read_step
          (c .& ((1 .<< left b) - 1), byte b + 1, len - left b);
      if 0 <? len then
        c ← aget mem p;
        Some (wrapu long_bits (value .<< len) .| (c .>> (CHAR_BIT - len)), MkBitptr p c (CHAR_BIT - len))
      else Some (value, MkBitptr p c CHAR_BIT).

(** ** The CRC *)

Definition crc_table : list Z := [
    0x0000; 0x8005; 0x800f; 0x000a; 0x801b; 0x001e; 0x0014; 0x8011;
    0x8033; 0x0036; 0x003c; 0x8039; 0x0028; 0x802d; 0x8027; 0x0022;
    0x8063; 0x0066; 0x006c; 0x8069; 0x0078; 0x807d; 0x8077; 0x0072;
    0x0050; 0x8055; 0x805f; 0x005a; 0x804b; 0x004e; 0x0044; 0x8041;
    0x80c3; 0x00c6; 0x00cc; 0x80c9; 0x00d8; 0x80dd; 0x80d7; 0x00d2;
    0x00f0; 0x80f5; 0x80ff; 0x00fa; 0x80eb; 0x00ee; 0x00e4; 0x80e1;
    0x00a0; 0x80a5; 0x80af; 0x00aa; 0x80bb; 0x00be; 0x00b4; 0x80b1;
    0x8093; 0x0096; 0x009c; 0x8099; 0x0088; 0x808d; 0x8087; 0x0082;
    0x8183; 0x0186; 0x018c; 0x8189; 0x0198; 0x819d; 0x8197; 0x0192;
    0x01b0; 0x81b5; 0x81bf; 0x01ba; 0x81ab; 0x01ae; 0x01a4; 0x81a1;
    0x01e0; 0x81e5; 0x81ef; 0x01ea; 0x81fb; 0x01fe; 0x01f4; 0x81f1;
    0x81d3; 0x01d6; 0x01dc; 0x81d9; 0x01c8; 0x81cd; 0x81c7; 0x01c2;
    0x0140; 0x8145; 0x814f; 0x014a; 0x815b; 0x015e; 0x0154; 0x8151;
    0x8173; 0x0176; 0x017c; 0x8179; 0x0168; 0x816d; 0x8167; 0x0162;
    0x8123; 0x0126; 0x012c; 0x8129; 0x0138; 0x813d; 0x8137; 0x0132;
    0x0110; 0x8115; 0x811f; 0x011a; 0x810b; 0x010e; 0x0104; 0x8101;
    0x8303; 0x0306; 0x030c; 0x8309; 0x0318; 0x831d; 0x8317; 0x0312;
    0x0330; 0x8335; 0x833f; 0x033a; 0x832b; 0x032e; 0x0324; 0x8321;
    0x0360; 0x8365; 0x836f; 0x036a; 0x837b; 0x037e; 0x0374; 0x8371;
    0x8353; 0x0356; 0x035c; 0x8359; 0x0348; 0x834d; 0x8347; 0x0342;
    0x03c0; 0x83c5; 0x83cf; 0x03ca; 0x83db; 0x03de; 0x03d4; 0x83d1;
    0x83f3; 0x03f6; 0x03fc; 0x83f9; 0x03e8; 0x83ed; 0x83e7; 0x03e2;
    0x83a3; 0x03a6; 0x03ac; 0x83a9; 0x03b8; 0x83bd; 0x83b7; 0x03b2;
    0x0390; 0x8395; 0x839f; 0x039a; 0x838b; 0x038e; 0x0384; 0x8381;
    0x0280; 0x8285; 0x828f; 0x028a; 0x829b; 0x029e; 0x0294; 0x8291;
    0x82b3; 0x02b6; 0x02bc; 0x82b9; 0x02a8; 0x82ad; 0x82a7; 0x02a2;
    0x82e3; 0x02e6; 0x02ec; 0x82e9; 0x02f8; 0x82fd; 0x82f7; 0x02f2;
    0x02d0; 0x82d5; 0x82df; 0x02da; 0x82cb; 0x02ce; 0x02c4; 0x82c1;
    0x8243; 0x0246; 0x024c; 0x8249; 0x0258; 0x825d; 0x8257; 0x0252;
    0x0270; 0x8275; 0x827f; 0x027a; 0x826b; 0x026e; 0x0264; 0x8261;
    0x0220; 0x8225; 0x822f; 0x022a; 0x823b; 0x023e; 0x0234; 0x8231;
    0x8213; 0x0216; 0x021c; 0x8219; 0x0208; 0x820d; 0x8207; 0x0202
  ].

Definition CRC_POLY : Z := 0x8005.

(** [crc = (crc << 8) ^ crc_table[((crc >> 8) ^ data) & 0xff]] *)
Definition crc_update (crc data : Z) : option Z :=
    t ← aget crc_table (((crc .>> 8) .^ data) .& 0xff); Some (u32 (crc .<< 8) .^ t).

(** Body of the loop over the 32-bit words; the state is [bitptr], [len] and
      [crc]. *)
Definition crc_word (st : mad_bitptr * Z * Z) : option (mad_bitptr * Z * Z) :=
    let '(b, len, crc) := st in
    '(data, b) ← mad_bit_read b 32;
    crc ← crc_update crc (data .>> 24);
    crc ← crc_update crc (data .>> 16);
    crc ← crc_update crc (data .>> 8);
    crc ← crc_update crc (data .>> 0);
    Some (b, len - 32, crc).

(** A case of the switch, which falls through to the next ones. *)
Definition crc_case (_ : Z) (st : mad_bitptr * Z) : option (mad_bitptr * Z) :=
    let '(b, crc) := st in
    '(v, b) ← mad_bit_read b 8; crc ← crc_update crc v; Some (b, crc).

(** Body of [while (len--)]. *)
Definition crc_bit (_ : Z) (st : mad_bitptr * Z) : option (mad_bitptr * Z) :=
    let '(b, crc) := st in
    '(v, b) ← mad_bit_read b 1;
    let msb := v .^ (crc .>> 15) in
    let crc := u32 (crc .<< 1) in
    Some (b, if bitset msb 1 then crc .^ CRC_POLY else crc).

Definition mad_bit_crc (b : mad_bitptr) (len init : Z) : option Z :=
    '(b, len, crc) ← while_loop (S (Z.to_nat (len / 32))) (fun '(_, len, _) => 32 <=? len) crc_word
                       (b, len, init);
    '(b, crc) ← for_range 0 (len / 8) crc_case (b, crc);
    let len := if 0 <? len / 8 then len mod 8 else len in
    '(_, crc) ← for_range 0 len crc_bit (b, crc);
    Some (crc .& 0xffff).
End Bit.

(** ** Positions *)

Definition pos (b : mad_bitptr) : Z := 8 * byte b + (8 - left b).

Section Reading.
Variable long_bits : Z.
Variable mem : list Z.
Hypothesis Hlong : 8 <= long_bits.
Hypothesis Hmem : bytes_ok mem.

(** A pointer into the buffer: inside of a byte, [cache] is that byte.  [left] is 0
    when a skip stops at the end of a byte. *)
Record bitptr_ok (b : mad_bitptr) : Prop := BitptrOk {
  bp_left : 0 <= left b <= 8;
  bp_byte : 0 <= byte b;
  bp_cache : left b < 8 -> aget mem (byte b) = Some (cache b)
}.

Lemma bit_init_ok p : 0 <= p -> bitptr_ok (mad_bit_init p) /\ pos (mad_bit_init p) = 8 * p.
Proof. intros. split; [|unfold pos; cbn; unfold CHAR_BIT; lia]. by split. Qed.

Lemma nextbyte_spec b : bitptr_ok b -> mad_bit_nextbyte b = (pos b + 7) / 8.
Proof.
  intros [H1 H2 H3]. unfold mad_bit_nextbyte, pos, CHAR_BIT. destruct (Z.eqb_spec (left b) 8); zdiv.
Qed.

Lemma bit_length_spec b e : bitptr_ok b -> bitptr_ok e -> pos b <= pos e < 2 ^ 32 ->
  mad_bit_length b e = pos e - pos b.
Proof.
  intros [H1 H2 H3] [H4 H5 H6]. unfold mad_bit_length, pos, CHAR_BIT. intros.
  rewrite wrapu_small by lia. lia.
Qed.

Lemma bit_skip_spec b len : bitptr_ok b -> 0 <= len -> pos b + len <= 8 * zlen mem ->
  exists b', mad_bit_skip mem b len = Some b' /\ bitptr_ok b' /\ pos b' = pos b + len.
Proof.
  intros [H1 H2 H3] Hl Hin. unfold mad_bit_skip, pos, CHAR_BIT in *.
  assert (0 <= len mod 8 < 8 /\ len = 8 * (len / 8) + len mod 8) as [Hm Hd] by zdiv.
  set (q := len / 8) in *. set (r := len mod 8) in *.
  assert (exists p l, (if 8 <? u16 (left b - r) then (byte b + q + 1, u16 (u16 (left b - r) + 8))
                       else (byte b + q, u16 (left b - r))) = (p, l) /\
    0 <= l <= 8 /\ 0 <= p /\ 8 * p + (8 - l) = 8 * byte b + (8 - left b) + len) as (p&l&E&Hl1&Hp&Hpos).
  { destruct (Z.leb_spec r (left b)).
    - rewrite wrapu_small by lia. rewrite (proj2 (Z.ltb_ge 8 (left b - r))) by lia.
      eexists _, _. split; [done|]. lia.
    - assert (u16 (left b - r) = left b - r + 2 ^ 16) as E.
      { unfold wrapu. rewrite <- (Z.mod_add _ 1) by lia. apply Z.mod_small. lia. }
      rewrite E, (proj2 (Z.ltb_lt 8 (left b - r + 2 ^ 16))) by lia. eexists _, _. split; [done|].
      replace (left b - r + 2 ^ 16 + 8) with (left b - r + 8 + 1 * 2 ^ 16) by lia.
      unfold wrapu. rewrite Z.mod_add, Z.mod_small by lia. lia. }
  rewrite E. destruct (Z.ltb_spec l 8).
  - destruct (aget_Some mem p) as [c Ec]; [lia|]. rewrite Ec. cbn [mbind option_bind].
    eexists. split; [done|]. split; [|done]. by split.
  - cbn [mbind option_bind]. eexists. split; [done|]. split; [|done]. split; cbn; [done|done|lia].
Qed.

(** ** Reading *)

Lemma wrap_lor x b n : 0 <= n <= long_bits -> 0 <= b < 2 ^ n ->
  wrapu long_bits (x .<< n) .| b = wrapu long_bits (x * 2 ^ n + b).
Proof.
  intros Hn Hb. rewrite Z.shiftl_mul_pow2 by lia. unfold wrapu.
  replace (2 ^ long_bits) with (2 ^ (long_bits - n) * 2 ^ n)
    by (rewrite <- Z.pow_add_r by lia; f_equal; lia).
  pose proof (pow2_pos n ltac:(lia)). pose proof (pow2_pos (long_bits - n) ltac:(lia)).
  rewrite Zmult_mod_distr_r, <- (Z.shiftl_mul_pow2 _ n), lor_byte by lia.
  symmetry. rewrite (Z.mul_comm (2 ^ (long_bits - n))).
  rewrite Z.rem_mul_r by lia. rewrite Z.div_add_l, (Z.div_small b) by lia.
  rewrite (Z.add_comm (x * 2 ^ n) b), Z.mod_add, (Z.mod_small b) by lia. rewrite Z.add_0_r. lia.
Qed.

Lemma wrap_shift_in v b n X : 0 <= n <= long_bits -> 0 <= b < 2 ^ n -> v = wrapu long_bits X ->
  wrapu long_bits (v .<< n) .| b = wrapu long_bits (X * 2 ^ n + b).
Proof.
  intros Hn Hb ->. rewrite wrap_lor by done. unfold wrapu.
  by rewrite <- Zplus_mod_idemp_l, Zmult_mod_idemp_l, Zplus_mod_idemp_l.
Qed.

Lemma byte_at p c : aget mem p = Some c -> 0 <= c < 2 ^ 8.
Proof. intros E. apply (aget_Forall byte_ok) in E; [|done]. done. Qed.

(** The [n] bits of a byte from bit [j]. *)
Lemma byte_bits p c j n : aget mem p = Some c -> 0 <= j -> 0 <= n -> j + n <= 8 ->
  bits mem (8 * p + j) n = (c / 2 ^ (8 - j - n)) mod 2 ^ n.
Proof.
  intros E Hj Hn Hl. pose proof (aget_inv _ _ _ E). pose proof (bits_byte mem p c Hmem E) as Eb.
  rewrite <- Eb. symmetry. apply bits_sub; lia.
Qed.

Lemma read_loop i k value p len : 0 <= i -> i + k + len <= 8 * zlen mem -> 0 <= k -> 0 <= len ->
  value = wrapu long_bits (bits mem i k) -> 8 * p = i + k ->
  forall fuel : nat, len / 8 < Z.of_nat fuel ->
  exists k', k' = k + 8 * (len / 8) /\
    while_loop fuel (fun '(_, _, len) => CHAR_BIT <=? len) (read_step long_bits mem) (value, p, len)
    = Some (wrapu long_bits (bits mem i k'), p + len / 8, len mod 8).
Proof.
  intros Hi Hin Hk Hl Hv Hp fuel. revert k value p len Hin Hk Hl Hv Hp.
  induction fuel as [|fuel IH]; intros k value p len Hin Hk Hl Hv Hp Hf; [zdiv|].
  eexists. split; [done|]. rewrite while_loop_S. unfold CHAR_BIT at 1.
  destruct (Z.leb_spec 8 len) as [H8|H8].
  - destruct (aget_Some mem p) as [b Eb]; [lia|]. pose proof (byte_at p b Eb).
    assert (read_step long_bits mem (value, p, len)
      = Some (wrapu long_bits (bits mem i (k + 8)), p + 1, len - 8)) as ->.
    { unfold read_step, CHAR_BIT. rewrite Eb. cbn [mbind option_bind].
      rewrite (wrap_shift_in value b 8 (bits mem i k)) by (done || lia).
      rewrite bits_app by lia. replace (i + k) with (8 * p) by lia. by rewrite (bits_byte mem p b). }
    cbn [mbind option_bind].
    destruct (IH (k + 8) (wrapu long_bits (bits mem i (k + 8))) (p + 1) (len - 8)) as (k'&->&E);
      [lia|lia|lia|done|lia|zdiv|].
    rewrite E. do 2 f_equal; [f_equal|]; [f_equal|..]; [|zdiv|zdiv].
    f_equal. zdiv.
  - rewrite Hv. rewrite Z.div_small, Z.mod_small, Z.mul_0_r, !Z.add_0_r by lia. done.
Qed.

Lemma bit_read_spec b len : bitptr_ok b -> 1 <= len -> pos b + len <= 8 * zlen mem ->
  exists b', mad_bit_read long_bits mem b len = Some (wrapu long_bits (bits mem (pos b) len), b') /\
    bitptr_ok b' /\ pos b' = pos b + len.
Proof.
  intros [H1 H2 H3] Hl Hin. unfold pos in Hin.
  destruct (aget_Some mem (byte b)) as [c Ec]; [lia|].
  assert ((if left b =? CHAR_BIT then aget mem (byte b) else Some (cache b)) = Some c) as E.
  { unfold CHAR_BIT. destruct (Z.eqb_spec (left b) 8); [done|]. rewrite <- Ec. symmetry. apply H3. lia. }
  unfold mad_bit_read. rewrite E. cbn [mbind option_bind]. rewrite mask_low by lia.
  pose proof (byte_at _ _ Ec) as Hc.
  assert (bits mem (pos b) (left b) = c mod 2 ^ left b) as Ebits.
  { unfold pos. rewrite (byte_bits _ c) by (done || lia).
    replace (8 - (8 - left b) - left b) with 0 by lia. change (2 ^ 0) with 1. by rewrite Z.div_1_r. }
  assert (2 ^ 8 <= 2 ^ long_bits) as Hpow by (apply Z.pow_le_mono_r; lia).
  assert (forall n, 0 <= n <= 8 -> wrapu long_bits (bits mem (pos b) n) = bits mem (pos b) n) as Hw.
  { intros n Hn. pose proof (bits_range mem (pos b) n ltac:(lia)).
    assert (2 ^ n <= 2 ^ 8) by (apply Z.pow_le_mono_r; lia). apply wrapu_small. lia. }
  destruct (Z.ltb_spec len (left b)) as [Hlt|Hge].
  - exists (MkBitptr (byte b) c (left b - len)).
    split; [|split]; [|split|]; cbn; [|lia|done|done|unfold pos; cbn; lia].
    rewrite Hw by lia. do 2 f_equal. rewrite <- Ebits, Z.shiftr_div_pow2 by lia.
    pose proof (bits_sub mem (pos b) (left b) 0 len ltac:(lia) ltac:(lia) ltac:(lia) ltac:(unfold pos; lia)) as Es.
    rewrite Z.add_0_r, Z.sub_0_r in Es. rewrite <- Es, Z.mod_small; [done|].
    pose proof (bits_range mem (pos b) (left b) ltac:(lia)). split; [apply Z.div_pos; [lia|apply pow2_pos; lia]|].
    apply Z.div_lt_upper_bound; [apply pow2_pos; lia|]. rewrite <- Z.pow_add_r by lia.
    replace (left b - len + len) with (left b) by lia. lia.
  - destruct (read_loop (pos b) (left b) (c mod 2 ^ left b) (byte b + 1) (len - left b)
      ltac:(unfold pos; lia) ltac:(unfold pos; lia) ltac:(lia) ltac:(lia)
      ltac:(rewrite <- Ebits; symmetry; apply Hw; lia) ltac:(unfold pos; lia)
      (S (Z.to_nat (len / CHAR_BIT)))) as (k'&->&El).
    { unfold CHAR_BIT. zdiv. }
    rewrite El. cbn [mbind option_bind].
    set (r := (len - left b) mod 8). set (q := (len - left b) / 8).
    assert (len = left b + 8 * q + r /\ 0 <= r < 8 /\ 0 <= q) as (Hq&Hr&Hq0) by (unfold q, r; zdiv).
    destruct (Z.ltb_spec 0 r) as [Hr0|Hr0].
    + destruct (aget_Some mem (byte b + 1 + q)) as [d Ed]; [lia|]. rewrite Ed. cbn [mbind option_bind].
      exists (MkBitptr (byte b + 1 + q) d (CHAR_BIT - r)).
      split; [|split]; [|split|]; cbn; [|unfold CHAR_BIT; lia|lia|done|unfold pos, CHAR_BIT; cbn; lia].
      do 2 f_equal. pose proof (byte_at _ _ Ed) as Hd. rewrite Z.shiftr_div_pow2 by (unfold CHAR_BIT; lia).
      assert (d / 2 ^ (CHAR_BIT - r) = bits mem (8 * (byte b + 1 + q)) r) as Er.
      { rewrite <- (Z.add_0_r (8 * _)), (byte_bits _ d) by (done || lia). rewrite Z.sub_0_r.
        unfold CHAR_BIT. rewrite Z.mod_small; [done|]. split; [apply Z.div_pos; [lia|apply pow2_pos; lia]|].
        apply Z.div_lt_upper_bound; [apply pow2_pos; lia|]. rewrite <- Z.pow_add_r by lia.
        replace (8 - r + r) with 8 by lia. lia. }
      rewrite Er. rewrite (wrap_shift_in _ _ r (bits mem (pos b) (left b + 8 * q)));
        [|lia|apply bits_range; lia|done].
      f_equal. rewrite Hq. rewrite (bits_app mem (pos b) (left b + 8 * q) r) by (unfold pos; lia).
      f_equal. f_equal. unfold pos. lia.
    + exists (MkBitptr (byte b + 1 + q) c CHAR_BIT).
      split; [|split]; [|split|]; cbn; [|unfold CHAR_BIT; lia|lia|unfold CHAR_BIT; lia|
        unfold pos, CHAR_BIT; cbn; lia].
      do 4 f_equal. lia.
Qed.
End Reading.

(** ** CRC-16, bit by bit *)

(** One shift of the register. *)
Definition crc16_shift (c : Z) : Z :=
  (2 * c) mod 2 ^ 16 .^ (if Z.testbit c 15 then CRC_POLY else 0).

(** A bit enters at the top. *)
Definition crc16_bit (c b : Z) : Z := crc16_shift (c .^ (b * 2 ^ 15)).

Fixpoint crc16 (mem : list Z) (i : Z) (n : nat) (c : Z) : Z :=
  match n with
  | O => c
  | S n => crc16 mem (i + 1) n (crc16_bit c (bits mem i 1))
  end.

Lemma crc16_shift_range c : 0 <= c < 2 ^ 16 -> 0 <= crc16_shift c < 2 ^ 16.
Proof.
  intros. unfold crc16_shift. apply lxor_range; [lia|apply Z.mod_pos_bound; lia|].
  destruct (Z.testbit c 15); [unfold CRC_POLY|]; lia.
Qed.

Lemma crc16_shift_linear : xor_linear 16 crc16_shift.
Proof.
  intros a b Ha Hb. unfold crc16_shift.
  rewrite !(Z.mul_comm 2). change 2 with (2 ^ 1) at 1 3 5. rewrite <- !Z.shiftl_mul_pow2 by lia.
  rewrite Z.shiftl_lxor, mod_pow2_lxor, Z.lxor_spec, lxor_4 by lia. f_equal.
  by destruct (Z.testbit a 15), (Z.testbit b 15).
Qed.

Lemma crc16_bit_range c b : 0 <= c < 2 ^ 16 -> 0 <= b < 2 -> 0 <= crc16_bit c b < 2 ^ 16.
Proof. intros. apply crc16_shift_range, lxor_range; lia. Qed.

Lemma crc16_range mem (n : nat) : forall i c, 0 <= c < 2 ^ 16 -> 0 <= crc16 mem i n c < 2 ^ 16.
Proof.
  induction n as [|n IH]; intros i c Hc; [done|]. cbn [crc16]. apply IH, crc16_bit_range; [done|].
  by apply (bits_range mem i 1).
Qed.

Lemma crc16_app mem (n m : nat) : forall i c,
  crc16 mem i (n + m) c = crc16 mem (i + Z.of_nat n) m (crc16 mem i n c).
Proof.
  induction n as [|n IH]; intros i c; [cbn [crc16 Nat.add]; f_equal; lia|].
  cbn [crc16 Nat.add]. rewrite IH. f_equal. lia.
Qed.

(** *** Eight bits at once *)

(** The bits of a byte enter one after the other. *)
Definition crc16_byte (c v : Z) : Z :=
  fold_left (fun c k => crc16_bit c (v / 2 ^ k mod 2)) [7; 6; 5; 4; 3; 2; 1; 0] c.

Lemma crc16_fold_linear (v : Z) l c : 0 <= c < 2 ^ 16 ->
  fold_left (fun c k => crc16_bit c (v / 2 ^ k mod 2)) l c =
  Nat.iter (length l) crc16_shift c .^ fold_left (fun c k => crc16_bit c (v / 2 ^ k mod 2)) l 0.
Proof.
  induction l as [|k l IH] using rev_ind; intros Hc; [by rewrite Z.lxor_0_r|].
  rewrite !fold_left_app, length_app. cbn [fold_left length].
  replace (length l + 1)%nat with (S (length l)) by lia. cbn [Nat.iter nat_rect].
  rewrite IH by done. unfold crc16_bit at 1 3.
  assert (0 <= v / 2 ^ k mod 2 < 2) as Hb by (apply Z.mod_pos_bound; lia).
  assert (forall l', 0 <= fold_left (fun c k => crc16_bit c (v / 2 ^ k mod 2)) l' 0 < 2 ^ 16) as Hr.
  { intros l'. induction l' as [|x l' IH'] using rev_ind; [done|]. rewrite fold_left_app. cbn [fold_left].
    apply crc16_bit_range; [done|apply Z.mod_pos_bound; lia]. }
  rewrite Z.lxor_assoc. rewrite crc16_shift_linear; [done| |].
  - apply iter_range; [apply crc16_shift_range|done].
  - apply lxor_range; [lia|apply Hr|lia].
Qed.

Lemma crc16_byte_linear c v : 0 <= c < 2 ^ 16 ->
  crc16_byte c v = Nat.iter 8 crc16_shift c .^ crc16_byte 0 v.
Proof. intros Hc. apply (crc16_fold_linear v [7; 6; 5; 4; 3; 2; 1; 0] c Hc). Qed.

Definition table_check (i : Z) : bool :=
  match aget crc_table i with
  | Some t => (t =? Nat.iter 8 crc16_shift (i * 2 ^ 8)) && (t =? crc16_byte 0 i) &&
              (Nat.iter 8 crc16_shift i =? i * 2 ^ 8)
  | None => false
  end.

Lemma table_spec i : 0 <= i < 256 ->
  aget crc_table i = Some (Nat.iter 8 crc16_shift (i * 2 ^ 8)) /\
  Nat.iter 8 crc16_shift (i * 2 ^ 8) = crc16_byte 0 i /\ Nat.iter 8 crc16_shift i = i * 2 ^ 8.
Proof.
  intros Hi. pose proof (forall_range table_check 0 256 ltac:(vm_compute; reflexivity) i ltac:(lia)) as H.
  unfold table_check in H. destruct (aget crc_table i) as [t|]; [|done]. zbool. subst t. done.
Qed.

(** The table replaces eight shifts. *)
Lemma crc16_byte_table c v : 0 <= c < 2 ^ 16 -> 0 <= v < 256 ->
  crc16_byte c v = (c mod 256 * 2 ^ 8) .^ Nat.iter 8 crc16_shift ((c / 256 .^ v) * 2 ^ 8).
Proof.
  intros Hc Hv. rewrite crc16_byte_linear by done.
  pose proof (iter_linear crc16_shift 8 16 crc16_shift_range crc16_shift_linear) as HL.
  assert (c = (c / 256 * 2 ^ 8) .^ (c mod 256)) as Ec.
  { rewrite <- Z.shiftl_mul_pow2, <- lor_disjoint, lor_byte by zdiv || (
      apply Z.bits_inj'; intros k Hk; rewrite Z.land_spec, Z.bits_0; change 256 with (2 ^ 8);
      destruct (Z.ltb_spec k 8);
        [by rewrite Z.shiftl_spec_low|rewrite Z.mod_pow2_bits_high by lia; apply andb_false_r]). zdiv. }
  rewrite Ec at 1. rewrite HL by (change (2 ^ 16) with 65536 in *; zdiv).
  destruct (table_spec (c mod 256)) as (_&_&->); [apply Z.mod_pos_bound; lia|].
  destruct (table_spec v Hv) as (_&<-&_).
  rewrite <- (Z.shiftl_mul_pow2 (_ .^ v)), Z.shiftl_lxor, !Z.shiftl_mul_pow2 by lia.
  rewrite (HL (c / 256 * 2 ^ 8)) by (change (2 ^ 16) with 65536 in *; zdiv).
  rewrite (Z.lxor_comm (Nat.iter 8 crc16_shift (c / 256 * 2 ^ 8))), !Z.lxor_assoc. done.
Qed.

Lemma crc16_8 mem i c : 0 <= i -> i + 8 <= 8 * zlen mem ->
  crc16 mem i 8 c = crc16_byte c (bits mem i 8).
Proof.
  intros Hi Hl. unfold crc16_byte. cbn [fold_left crc16].
  assert (forall j, 0 <= j < 8 -> bits mem (i + j) 1 = bits mem i 8 / 2 ^ (7 - j) mod 2) as H.
  { intros j Hj. rewrite <- (bits_sub mem i 8 j 1) by lia. change (2 ^ 1) with 2. do 3 f_equal. lia. }
  let bit k := (let E := fresh in pose proof (H k ltac:(lia)) as E;
    let r := eval vm_compute in (7 - k) in change (7 - k) with r in E; rewrite <- E) in
  bit 0; bit 1; bit 2; bit 3; bit 4; bit 5; bit 6; bit 7.
  rewrite Z.add_0_r, <- !Z.add_assoc. done.
Qed.

(** ** The CRC loops *)

Lemma crc_update_spec crc data : 0 <= crc < 2 ^ 32 -> 0 <= data ->
  exists r, crc_update crc data = Some r /\ 0 <= r < 2 ^ 32 /\
    r mod 2 ^ 16 = crc16_byte (crc mod 2 ^ 16) (data mod 256).
Proof.
  intros Hc Hd. unfold crc_update.
  assert (((crc .>> 8) .^ data) .& 0xff = (crc mod 2 ^ 16 / 256) .^ (data mod 256)) as ->.
  { change 0xff with (Z.ones 8). rewrite Z.land_ones, mod_pow2_lxor, Z.shiftr_div_pow2 by lia.
    change (2 ^ 8) with 256. f_equal. change (2 ^ 16) with 65536. zdiv. }
  assert (0 <= crc mod 2 ^ 16 < 2 ^ 16) as Hm by (apply Z.mod_pos_bound; lia).
  assert (0 <= data mod 256 < 256) as Hdm by (apply Z.mod_pos_bound; lia).
  assert (0 <= (crc mod 2 ^ 16 / 256) .^ (data mod 256) < 2 ^ 8) as Hi
    by (apply lxor_range; change (2 ^ 16) with 65536 in *; change (2 ^ 8) with 256; zdiv).
  destruct (table_spec _ Hi) as (->&_&_). cbn [mbind option_bind].
  set (t := Nat.iter 8 crc16_shift _).
  assert (0 <= t < 2 ^ 16) as Ht by (apply iter_range; [apply crc16_shift_range|lia]).
  eexists. split; [done|]. split; [apply lxor_range; [lia|by apply wrapu_range|lia]|].
  rewrite crc16_byte_table, mod_pow2_lxor, (Z.mod_small t) by (done || lia). fold t. f_equal.
  rewrite Z.shiftl_mul_pow2 by lia. unfold wrapu. change (2 ^ 32) with 4294967296.
  change (2 ^ 16) with 65536. change (2 ^ 8) with 256. zdiv.
Qed.

Section CrcLoops.
Variables (long_bits : Z) (mem : list Z) (b0 : mad_bitptr) (init : Z).
Hypotheses (Hlong : 32 <= long_bits) (Hmem : bytes_ok mem) (Hb0 : bitptr_ok mem b0).
Hypothesis Hinit : 0 <= init < 2 ^ 16.

(** After [k] bits. *)
Definition crc_after (k : Z) (b : mad_bitptr) (crc : Z) : Prop :=
  bitptr_ok mem b /\ pos b = pos b0 + k /\ 0 <= crc < 2 ^ 32 /\
  crc mod 2 ^ 16 = crc16 mem (pos b0) (Z.to_nat k) init.

Lemma pos_nonneg b : bitptr_ok mem b -> 0 <= pos b.
Proof. intros [H1 H2 _]. unfold pos. lia. Qed.

Lemma read_exact b len : bitptr_ok mem b -> 1 <= len <= long_bits -> pos b + len <= 8 * zlen mem ->
  exists b', mad_bit_read long_bits mem b len = Some (bits mem (pos b) len, b') /\
    bitptr_ok mem b' /\ pos b' = pos b + len.
Proof.
  intros Hb Hl Hin. destruct (bit_read_spec long_bits mem) with b len as (b'&->&H); [lia|done|done|lia|done|].
  exists b'. split; [|done]. do 2 f_equal. apply wrapu_small.
  pose proof (bits_range mem (pos b) len ltac:(lia)).
  assert (2 ^ len <= 2 ^ long_bits) by (apply Z.pow_le_mono_r; lia). lia.
Qed.

Lemma crc_after_byte k crc b v r : 0 <= k -> pos b0 + k + 8 <= 8 * zlen mem ->
  crc mod 2 ^ 16 = crc16 mem (pos b0) (Z.to_nat k) init -> bitptr_ok mem b -> pos b = pos b0 + (k + 8) ->
  0 <= r < 2 ^ 32 -> v = bits mem (pos b0 + k) 8 ->
  r mod 2 ^ 16 = crc16_byte (crc mod 2 ^ 16) v -> crc_after (k + 8) b r.
Proof.
  intros Hk Hl Hc Hb Hp Hr -> E. split; [done|]. split; [done|]. split; [done|]. rewrite E, Hc.
  replace (Z.to_nat (k + 8)) with (Z.to_nat k + 8)%nat by lia.
  rewrite crc16_app, Z2Nat.id, crc16_8; [done|pose proof (pos_nonneg _ Hb0); lia|lia|lia].
Qed.

Lemma crc_case_spec i k b crc : 0 <= k -> pos b0 + k + 8 <= 8 * zlen mem -> crc_after k b crc ->
  exists b' crc', crc_case long_bits mem i (b, crc) = Some (b', crc') /\ crc_after (k + 8) b' crc'.
Proof.
  intros Hk Hl (Hb&Hp&Hc&E). unfold crc_case.
  destruct (read_exact b 8 Hb) as (b'&->&Hb'&Hp'); [lia|lia|]. cbn [mbind option_bind].
  pose proof (bits_range mem (pos b) 8 ltac:(lia)) as Hr.
  destruct (crc_update_spec crc (bits mem (pos b) 8)) as (r&->&Hr'&Er); [done|lia|].
  cbn [mbind option_bind]. eexists _, _. split; [done|].
  apply (crc_after_byte k crc b' (bits mem (pos b) 8)); [done|done|done|done|lia|done|by rewrite Hp|].
  rewrite Er. f_equal. by apply Z.mod_small.
Qed.

Lemma crc_bit_spec i k b crc : 0 <= k -> pos b0 + k + 1 <= 8 * zlen mem -> crc_after k b crc ->
  exists b' crc', crc_bit long_bits mem i (b, crc) = Some (b', crc') /\ crc_after (k + 1) b' crc'.
Proof.
  intros Hk Hl (Hb&Hp&Hc&E). unfold crc_bit.
  destruct (read_exact b 1 Hb) as (b'&->&Hb'&Hp'); [lia|lia|]. cbn [mbind option_bind].
  pose proof (bits_range mem (pos b) 1 ltac:(lia)) as Hr. change (2 ^ 1) with 2 in Hr.
  set (v := bits mem (pos b) 1) in *.
  eexists _, _. split; [done|]. split; [done|]. split; [lia|].
  assert (0 <= crc mod 2 ^ 16 < 2 ^ 16) as Hm by (apply Z.mod_pos_bound; lia).
  assert (bitset (v .^ (crc .>> 15)) 1 = Z.testbit (crc mod 2 ^ 16 .^ (v * 2 ^ 15)) 15) as Et.
  { unfold bitset. change 1 with (Z.ones 1) at 1. rewrite Z.land_ones, <- Z.bit0_mod by lia.
    rewrite !Z.lxor_spec, Z.mod_pow2_bits_low, Z.shiftr_spec, Z.mul_pow2_bits by lia.
    change (0 + 15) with 15. change (15 - 15) with 0.
    by destruct (Z.testbit v 0), (Z.testbit crc 15). }
  replace (Z.to_nat (k + 1)) with (Z.to_nat k + 1)%nat by lia.
  rewrite crc16_app, Z2Nat.id, <- E by lia. cbn [crc16]. rewrite <- Hp. fold v. rewrite Et.
  assert (u32 (crc .<< 1) mod 2 ^ 16 = (2 * (crc mod 2 ^ 16 .^ (v * 2 ^ 15))) mod 2 ^ 16) as Eu.
  { rewrite (Z.mul_comm 2). change 2 with (2 ^ 1) at 4. rewrite <- (Z.shiftl_mul_pow2 (_ .^ _)) by lia.
    rewrite Z.shiftl_lxor, mod_pow2_lxor, !Z.shiftl_mul_pow2 by lia.
    replace (v * 2 ^ 15 * 2 ^ 1) with (v * 2 ^ 16) by lia. rewrite Z.mod_mul, Z.lxor_0_r by lia.
    unfold wrapu. change (2 ^ 32) with 4294967296. change (2 ^ 16) with 65536. change (2 ^ 1) with 2. zdiv. }
  unfold crc16_bit, crc16_shift. split.
  - assert (0 <= u32 (crc .<< 1) < 2 ^ 32) by (by apply wrapu_range).
    destruct (Z.testbit _ 15); [|done]. apply lxor_range; [lia|done|unfold CRC_POLY; lia].
  - rewrite <- Eu. destruct (Z.testbit _ 15); [|by rewrite Z.lxor_0_r].
    by rewrite mod_pow2_lxor.
Qed.

Lemma bit_word_spec k b len crc : 0 <= k -> pos b0 + k + 32 <= 8 * zlen mem -> crc_after k b crc ->
  exists b' crc', crc_word long_bits mem (b, len, crc) = Some (b', len - 32, crc') /\
    crc_after (k + 32) b' crc'.
Proof.
  intros Hk Hl (Hb&Hp&Hc&E). unfold crc_word.
  destruct (read_exact b 32 Hb) as (b'&->&Hb'&Hp'); [lia|lia|]. cbn [mbind option_bind].
  pose proof (bits_range mem (pos b) 32 ltac:(lia)) as Hr. pose proof (pos_nonneg _ Hb0) as Hp0.
  set (d := bits mem (pos b) 32) in *.
  assert (forall j, j = 0 \/ j = 8 \/ j = 16 \/ j = 24 ->
    0 <= d .>> (24 - j) /\ (d .>> (24 - j)) mod 256 = bits mem (pos b0 + k + j) 8) as Hd.
  { intros j Hj. rewrite Z.shiftr_div_pow2 by lia. split; [apply Z.div_pos; [lia|apply pow2_pos; lia]|].
    change 256 with (2 ^ 8). replace (24 - j) with (32 - j - 8) by lia. unfold d.
    rewrite bits_sub by lia. f_equal. lia. }
  destruct (Hd 0) as [P0 B0]; [lia|]. destruct (Hd 8) as [P1 B1]; [lia|].
  destruct (Hd 16) as [P2 B2]; [lia|]. destruct (Hd 24) as [P3 B3]; [lia|].
  change (24 - 0) with 24 in *. change (24 - 8) with 16 in *. change (24 - 16) with 8 in *.
  change (24 - 24) with 0 in *.
  destruct (crc_update_spec crc (d .>> 24) Hc P0) as (r0&->&R0&E0). cbn [mbind option_bind].
  destruct (crc_update_spec r0 (d .>> 16) R0 P1) as (r1&->&R1&E1). cbn [mbind option_bind].
  destruct (crc_update_spec r1 (d .>> 8) R1 P2) as (r2&->&R2&E2). cbn [mbind option_bind].
  destruct (crc_update_spec r2 (d .>> 0) R2 P3) as (r3&->&R3&E3). cbn [mbind option_bind].
  eexists _, _. split; [done|]. split; [done|]. split; [lia|]. split; [done|].
  rewrite E3, E2, E1, E0, E, B0, B1, B2, B3.
  replace (Z.to_nat (k + 32)) with (Z.to_nat k + 8 + 8 + 8 + 8)%nat by lia.
  rewrite !crc16_app, !Nat2Z.inj_add, Z2Nat.id by lia.
  rewrite !crc16_8 by lia. change (Z.of_nat 8) with 8. rewrite Z.add_0_r, !Z.add_assoc.
  replace (pos b0 + k + 8 + 8 + 8) with (pos b0 + k + 24) by lia.
  replace (pos b0 + k + 8 + 8) with (pos b0 + k + 16) by lia. reflexivity.
Qed.

Lemma crc_word_loop (fuel : nat) : forall k b len crc, 0 <= k -> 0 <= len ->
  pos b0 + k + len <= 8 * zlen mem -> crc_after k b crc -> len / 32 < Z.of_nat fuel ->
  exists b' crc', while_loop fuel (fun '(_, len, _) => 32 <=? len) (crc_word long_bits mem) (b, len, crc)
    = Some (b', len mod 32, crc') /\ crc_after (k + 32 * (len / 32)) b' crc'.
Proof.
  induction fuel as [|fuel IH]; intros k b len crc Hk Hl Hin Ha Hf; [zdiv|].
  rewrite while_loop_S. destruct (Z.leb_spec 32 len) as [H32|H32].
  - destruct (bit_word_spec k b len crc) as (b1&c1&->&H1); [lia|lia|done|]. cbn [mbind option_bind].
    destruct (IH (k + 32) b1 (len - 32) c1) as (b'&c'&->&H'); [lia|lia|lia|done|zdiv|].
    exists b', c'. split; [by replace ((len - 32) mod 32) with (len mod 32) by zdiv|]. by replace (k + 32 * (len / 32)) with
      (k + 32 + 32 * ((len - 32) / 32)) by zdiv.
  - exists b, crc. rewrite Z.mod_small, Z.div_small by lia. split; [done|].
    by replace (k + 32 * 0) with k by lia.
Qed.
End CrcLoops.

Lemma bit_crc_spec long_bits mem b len init :
  32 <= long_bits -> bytes_ok mem -> bitptr_ok mem b -> 0 <= init < 2 ^ 16 -> 0 <= len ->
  pos b + len <= 8 * zlen mem ->
  mad_bit_crc long_bits mem b len init = Some (crc16 mem (pos b) (Z.to_nat len) init).
Proof.
  intros HW Hm Hb Hi Hl Hin. unfold mad_bit_crc.
  assert (crc_after mem b init 0 b init) as H0.
  { split; [done|]. split; [lia|]. split; [lia|]. by apply Z.mod_small. }
  destruct (crc_word_loop long_bits mem b init HW Hm Hb Hi (S (Z.to_nat (len / 32))) 0 b len init)
    as (b1&c1&->&H1); [lia|done|lia|done|zdiv|]. cbn [mbind option_bind].
  set (m := len mod 32). set (q := 32 * (len / 32)) in *. rewrite Z.add_0_l in H1.
  assert (len = q + m /\ 0 <= m < 32 /\ 0 <= q) as (Hq&Hm32&Hq0) by (unfold q, m; zdiv).
  destruct (for_range_inv (fun i st => exists b' c', st = (b', c') /\ crc_after mem b init (q + 8 * i) b' c')
    0 (m / 8) (crc_case long_bits mem) (b1, c1)) as (st&->&b2&c2&->&H2).
  { zdiv. }
  { exists b1, c1. split; [done|]. by rewrite Z.mul_0_r, Z.add_0_r. }
  { intros i st Hi8 (b'&c'&->&H'). destruct (crc_case_spec long_bits mem b init HW Hm Hb i (q + 8 * i) b' c')
      as (b''&c''&E&H''); [lia|zdiv|done|]. exists (b'', c''). split; [done|]. exists b'', c''. split; [done|].
    by replace (q + 8 * (i + 1)) with (q + 8 * i + 8) by lia. }
  cbn [mbind option_bind].
  assert ((if 0 <? m / 8 then m mod 8 else m) = m mod 8) as ->.
  { destruct (Z.ltb_spec 0 (m / 8)); [done|]. zdiv. }
  destruct (for_range_inv (fun i st => exists b' c', st = (b', c') /\
      crc_after mem b init (q + 8 * (m / 8) + i) b' c') 0 (m mod 8) (crc_bit long_bits mem) (b2, c2))
    as (st&->&b3&c3&->&H3).
  { zdiv. }
  { exists b2, c2. split; [done|]. by rewrite Z.add_0_r. }
  { intros i st Hi8 (b'&c'&->&H').
    destruct (crc_bit_spec long_bits mem b init HW Hm Hi i (q + 8 * (m / 8) + i) b' c')
      as (b''&c''&E&H''); [zdiv|zdiv|done|]. exists (b'', c''). split; [done|]. exists b'', c''.
    split; [done|]. by replace (q + 8 * (m / 8) + (i + 1)) with (q + 8 * (m / 8) + i + 1) by lia. }
  cbn [mbind option_bind]. f_equal. change 0xffff with (Z.ones 16). rewrite Z.land_ones by lia.
  destruct H3 as (_&_&_&->). do 2 f_equal. rewrite Hq. zdiv.
Qed.

(** ** Reading fields *)

(** A read of no bits may load the byte at the pointer. *)
Lemma read_zero W mem b : bitptr_ok mem b -> pos b + 1 <= 8 * zlen mem ->
  exists b', mad_bit_read W mem b 0 = Some (0, b') /\ bitptr_ok mem b' /\ pos b' = pos b.
Proof.
  intros [H1 H2 H3] Hin. unfold mad_bit_read, CHAR_BIT. unfold pos in *.
  destruct (Z.ltb_spec 0 (left b)) as [Hl|Hl].
  - destruct (aget_Some mem (byte b)) as [c Ec]; [lia|].
    assert ((if left b =? 8 then aget mem (byte b) else Some (cache b)) = Some c) as ->.
    { destruct (Z.eqb_spec (left b) 8); [done|]. rewrite <- Ec. symmetry. apply H3. lia. }
    cbn [mbind option_bind]. rewrite mask_low, Z.shiftr_div_pow2, Z.sub_0_r by lia.
    rewrite Z.div_small by (apply Z.mod_pos_bound, pow2_pos; lia).
    eexists. split; [done|]. split; [|cbn; lia]. split; cbn; [lia|done|done].
  - rewrite (proj2 (Z.eqb_neq (left b) 8)) by lia. cbn [mbind option_bind].
    assert (left b = 0) as -> by lia. rewrite mask_low, Z.mod_1_r by lia.
    eexists. split; [reflexivity|]. split; [|cbn; lia]. split; cbn; lia.
Qed.

(** A read of any width. *)
Lemma read_any W mem p i len v : 32 <= W -> bytes_ok mem -> bitptr_ok mem p -> pos p = i -> 0 <= len <= 32 ->
  i + Z.max 1 len <= 8 * zlen mem -> 0 <= v < 2 ^ len -> bits mem i len = v mod 2 ^ len ->
  exists p', mad_bit_read W mem p len = Some (v, p') /\ bitptr_ok mem p' /\ pos p' = i + len.
Proof.
  intros HW Hmem Hp Hi Hl Hin Hv E. destruct (decide (len = 0)) as [->|].
  - destruct (read_zero W mem p Hp) as (p'&R&H); [lia|]. exists p'. change (2 ^ 0) with 1 in Hv.
    replace v with 0 by lia. split; [done|]. by rewrite Z.add_0_r, <- Hi.
  - subst i. destruct (read_exact W mem HW Hmem p len) as (p'&R&H); [done|lia|lia|].
    exists p'. by rewrite R, E, Z.mod_small.
Qed.

Lemma read_written W mem p i len v : 32 <= W -> bytes_ok mem -> bitptr_ok mem p -> pos p = i -> 1 <= len <= 32 ->
  i + len <= 8 * zlen mem -> 0 <= v < 2 ^ len -> bits mem i len = v mod 2 ^ len ->
  exists p', mad_bit_read W mem p len = Some (v, p') /\ bitptr_ok mem p' /\ pos p' = i + len.
Proof. intros. apply read_any; try done; lia. Qed.

(** One read of the code, of a field some hypothesis says was written. *)
Ltac read_field :=
  let p' := fresh "p" in let Hok := fresh "Hok" in let Hpos := fresh "Hpos" in
  match goal with Hp : pos ?p = ?i, E : bits ?mem ?i ?len = ?v mod _ |- context [mad_bit_read ?W ?mem ?p _] =>
    destruct (read_written W mem p i len v) as (p'&->&Hok&Hpos); [done|done|done|done|lia|lia|lia|exact E|];
    cbn [mbind option_bind]; clear E end.

(** ** Claims *)

(** Reading bits.  From any valid pointer, with the bits inside of the buffer,
    [mad_bit_read] returns the next [len] bits as a big-endian number, modulo the
    width of [unsigned long], whatever the alignment; a skip moves over the same
    bits; both leave a valid pointer just after them, and [mad_bit_length] is the
    distance between two pointers. *)
Theorem mad_bit_read_correct long_bits mem b len :
  8 <= long_bits -> bytes_ok mem -> bitptr_ok mem b -> 1 <= len -> pos b + len <= 8 * zlen mem ->
  8 * zlen mem < 2 ^ 32 ->
  exists b' b'', mad_bit_read long_bits mem b len = Some (wrapu long_bits (bits mem (pos b) len), b') /\
    mad_bit_skip mem b len = Some b'' /\
    bitptr_ok mem b' /\ bitptr_ok mem b'' /\ pos b' = pos b + len /\ pos b'' = pos b + len /\
    mad_bit_length b b' = len /\ mad_bit_length b b'' = len.
Proof.
  intros HW Hm Hb Hl Hin Hmax. pose proof (pos_nonneg mem b Hb).
  destruct (bit_read_spec long_bits mem HW Hm b len Hb Hl Hin) as (b'&E&Hb'&Hp).
  destruct (bit_skip_spec mem b len Hb) as (b''&E'&Hb''&Hp'); [lia|done|].
  exists b', b''. rewrite E, E', Hp, Hp'.
  rewrite (bit_length_spec mem b b'), (bit_length_spec mem b b'') by (done || lia). rewrite Hp, Hp'.
  do 6 (split; [done|]). lia.
Qed.

Lemma mad_bit_read_correct_witness :
  let b := MkBitptr 0 0xAB 3 in let mem := [0xAB; 0xCD; 0xEF; 0x01] in
  exists b' b'', mad_bit_read 32 mem b 15 = Some (wrapu 32 (bits mem 5 15), b') /\
    mad_bit_skip mem b 15 = Some b'' /\
    bitptr_ok mem b' /\ bitptr_ok mem b'' /\ pos b' = 20 /\ pos b'' = 20 /\
    mad_bit_length b b' = 15 /\ mad_bit_length b b'' = 15.
Proof.
  intros b mem. apply (mad_bit_read_correct 32 mem b 15).
  - lia.
  - repeat constructor; lia.
  - by split.
  - lia.
  - unfold pos. simpl. lia.
  - simpl. lia.
Defined.

Example mad_bit_read_example :
  fst <$> mad_bit_read 32 [0xAB; 0xCD; 0xEF; 0x01] (MkBitptr 0 0xAB 3) 15 = Some 0x3CDE.
Proof. reflexivity. Qed.

(** C34: the CRC check word.  For every number of bits, from every bit position,
    [mad_bit_crc] (its 32-bit words, its byte cases that fall through and its
    final bits, with a register that keeps 32 bits) computes the CRC-16 with
    polynomial x^16 + x^15 + x^2 + 1, one bit after the other. *)
Theorem mad_bit_crc_correct long_bits mem b len init :
  32 <= long_bits -> bytes_ok mem -> bitptr_ok mem b -> 0 <= init < 2 ^ 16 -> 0 <= len ->
  pos b + len <= 8 * zlen mem ->
  mad_bit_crc long_bits mem b len init = Some (crc16 mem (pos b) (Z.to_nat len) init).
Proof. apply bit_crc_spec. Qed.

Lemma mad_bit_crc_correct_witness :
  let mem := [0x31; 0x32; 0x33; 0x34; 0x35; 0x36; 0x37; 0x38; 0x39] in
  mad_bit_crc 64 mem (mad_bit_init 0) 72 0 = Some (crc16 mem 0 72 0).
Proof.
  intros mem. apply (mad_bit_crc_correct 64 mem (mad_bit_init 0) 72 0).
  - lia.
  - repeat constructor; lia.
  - by split.
  - lia.
  - lia.
  - apply Z.leb_le. reflexivity.
Defined.

(** The check value of this CRC. *)
Example mad_bit_crc_check :
  mad_bit_crc 64 [0x31; 0x32; 0x33; 0x34; 0x35; 0x36; 0x37; 0x38; 0x39] (mad_bit_init 0) 72 0
    = Some 0xFEE8.
Proof. vm_compute. reflexivity. Qed.
