(* ===== verification/MadTimer.v ===== *)
(** The timers of libmad: [src/libmad/timer.h] and [timer.c].

    A timer is a signed number of seconds and a fraction in units of
    1/352800000 s.  [long] has [long_bits] bits; signed overflow wraps. *)
From S2P Require Import Prelude.

(** ** Data *)

Record mad_timer_t := MkTimer { seconds : Z; fraction : Z }.

Definition MAD_TIMER_RESOLUTION : Z := 352800000.

Definition mad_timer_zero : mad_timer_t := MkTimer 0 0.

(** [enum mad_units], by value. *)
Definition MAD_UNITS_HOURS : Z := -2.
Definition MAD_UNITS_MINUTES : Z := -1.
Definition MAD_UNITS_SECONDS : Z := 0.
Definition MAD_UNITS_29_97_FPS : Z := -30.

(** The metric, audio sample and video frame units, which the switches of the
    source handle together. *)
Definition plain_units : list Z :=
  [10; 100; 1000; 8000; 11025; 12000; 16000; 22050; 24000; 32000; 44100; 48000;
   24; 25; 30; 48; 50; 60; 75].

(** The drop-frame units. *)
Definition drop_frame_units : list Z := [-24; -25; -30; -48; -50; -60].

Definition is_in (u : Z) (l : list Z) : bool := existsb (Z.eqb u) l.

Section Timer.
Variable long_bits : Z.

Abbreviation slong := (wraps long_bits).
Abbreviation ulong := (wrapu long_bits).

(** ** Operations *)

Definition mad_timer_compare (timer1 timer2 : mad_timer_t) : Z :=
  let diff := slong (seconds timer1 - seconds timer2) in
  if diff <? 0 then -1
  else if 0 <? diff then 1
  else
    let diff := slong (fraction timer1 - fraction timer2) in
    if diff <? 0 then -1 else if 0 <? diff then 1 else 0.

Definition mad_timer_negate (timer : mad_timer_t) : mad_timer_t :=
  let s := slong (- seconds timer) in
  if negb (fraction timer =? 0)
  then MkTimer (slong (s - 1)) (ulong (MAD_TIMER_RESOLUTION - fraction timer))
  else MkTimer s (fraction timer).

Definition mad_timer_abs (timer : mad_timer_t) : mad_timer_t :=
  if seconds timer <? 0 then mad_timer_negate timer else timer.

Definition reduce_timer (timer : mad_timer_t) : mad_timer_t :=
  MkTimer (slong (seconds timer + fraction timer / MAD_TIMER_RESOLUTION))
    (fraction timer mod MAD_TIMER_RESOLUTION).

(** Two turns of the loop halve the product of the numbers, so twice the width is
    enough fuel. *)
Definition gcd (num1 num2 : Z) : option Z :=
  fst <$> while_loop (S (S (Z.to_nat (2 * long_bits)))) (fun '(_, num2) => negb (num2 =? 0))
            (fun '(num1, num2) => Some (num2, num1 mod num2)) (num1, num2).

(** [None] when the assertion fails. *)
Definition reduce_rational (numer denom : Z) : option (Z * Z) :=
  factor ← gcd numer denom;
  if factor =? 0 then None else Some (numer / factor, denom / factor).

Definition scale_rational (numer denom scale : Z) : option Z :=
  '(numer, denom) ← reduce_rational numer denom;
  '(scale, denom) ← reduce_rational scale denom;
  if denom =? 0 then None
  else if denom <? scale
  then Some (ulong (ulong (numer * (scale / denom)) + ulong (numer * (scale mod denom)) / denom))
  else if denom <? numer
  then Some (ulong (ulong (scale * (numer / denom)) + ulong (scale * (numer mod denom)) / denom))
  else Some (ulong (numer * scale) / denom).

(** The denominators of the switch of [mad_timer_set]. *)
Definition set_denominators : list Z :=
  [1000; 8000; 11025; 12000; 16000; 22050; 24000; 32000; 44100; 48000].

Definition mad_timer_set (secs numer denom : Z) : option mad_timer_t :=
  let s := slong secs in
  let '(s, numer) :=
    if (denom <=? numer) && (0 <? denom) then (slong (s + numer / denom), numer mod denom) else (s, numer) in
  f ← (if (denom =? 0) || (denom =? 1) then Some 0
       else if denom =? MAD_TIMER_RESOLUTION then Some numer
       else if is_in denom set_denominators then Some (ulong (numer * (MAD_TIMER_RESOLUTION / denom)))
       else scale_rational numer denom MAD_TIMER_RESOLUTION);
  let timer := MkTimer s f in
  Some (if MAD_TIMER_RESOLUTION <=? f then reduce_timer timer else timer).

Definition mad_timer_add (timer incr : mad_timer_t) : mad_timer_t :=
  let t := MkTimer (slong (seconds timer + seconds incr)) (ulong (fraction timer + fraction incr)) in
  if MAD_TIMER_RESOLUTION <=? fraction t then reduce_timer t else t.

(** Body of [while (factor)]; the state is the timer, the addend and the
    factor. *)
Definition multiply_step (st : mad_timer_t * mad_timer_t * Z) : option (mad_timer_t * mad_timer_t * Z) :=
  let '(timer, addend, factor) := st in
  let timer := if bitset factor 1 then mad_timer_add timer addend else timer in
  Some (timer, mad_timer_add addend addend, factor .>> 1).

Definition mad_timer_multiply (timer : mad_timer_t) (scalar : Z) : option mad_timer_t :=
  let '(factor, addend) :=
    if scalar <? 0 then (ulong (slong (- scalar)), mad_timer_negate timer) else (ulong scalar, timer) in
  '(timer, _, _) ← while_loop (S (Z.to_nat long_bits)) (fun '(_, _, factor) => negb (factor =? 0))
                     multiply_step (mad_timer_zero, addend, factor);
  Some timer.

(** ** Conversions *)

(** The cases of [mad_timer_count] that do not call it again. *)
Definition count_plain (timer : mad_timer_t) (units : Z) : option Z :=
  if units =? MAD_UNITS_HOURS then Some (Z.quot (Z.quot (seconds timer) 60) 60)
  else if units =? MAD_UNITS_MINUTES then Some (Z.quot (seconds timer) 60)
  else if units =? MAD_UNITS_SECONDS then Some (seconds timer)
  else if is_in units plain_units then
    f ← scale_rational (fraction timer) MAD_TIMER_RESOLUTION (ulong units);
    Some (slong (slong (seconds timer * units) + slong f))
  else Some 0.

Definition mad_timer_count (timer : mad_timer_t) (units : Z) : option Z :=
  if is_in units drop_frame_units then
    n ← count_plain timer (- units); Some (Z.quot (slong (slong (n + 1) * 1000)) 1001)
  else count_plain timer units.

Definition mad_timer_fraction (timer : mad_timer_t) (denom : Z) : option Z :=
  let timer := mad_timer_abs timer in
  if denom =? 0 then
    Some (if negb (fraction timer =? 0) then MAD_TIMER_RESOLUTION / fraction timer
          else MAD_TIMER_RESOLUTION + 1)
  else if denom =? MAD_TIMER_RESOLUTION then Some (fraction timer)
  else scale_rational (fraction timer) MAD_TIMER_RESOLUTION denom.

(** The drop-frame branch of [mad_timer_string]: [frac] and [seconds]. *)
Definition drop_frame (frame fracunits : Z) : Z * Z :=
  let cycle := - fracunits * 60 * 10 - (10 - 1) * 2 in
  let d := frame / cycle in
  let m := frame mod cycle in
  let frame := ulong (frame + (10 - 1) * 2 * d) in
  let frame := if 2 <? m then ulong (frame + 2 * ((m - 2) / (cycle / 10))) else frame in
  (u32 (frame mod - fracunits), frame / - fracunits).

(** The arguments [mad_timer_string] passes to [sprintf] after the format, or
    nothing for a unit outside of the enumeration. *)
Definition mad_timer_string (timer : mad_timer_t) (units fracunits subparts : Z) : option (option (list Z)) :=
  let timer := mad_timer_abs timer in
  let secs := ulong (seconds timer) in
  '(frac, sub, secs) ←
    (if is_in fracunits plain_units then
       let denom := MAD_TIMER_RESOLUTION / fracunits in
       sub ← scale_rational (fraction timer mod denom) denom subparts;
       Some (u32 (fraction timer / denom), sub, secs)
     else if is_in fracunits drop_frame_units then
       frame ← mad_timer_count timer fracunits;
       let '(frac, secs) := drop_frame (ulong frame) fracunits in
       Some (frac, 0, secs)
     else Some (0, 0, secs));
  if units =? MAD_UNITS_HOURS then
    let minutes := secs / 60 in
    let hours := minutes / 60 in
    Some (Some [hours; minutes mod 60; secs mod 60; frac; sub])
  else if units =? MAD_UNITS_MINUTES then Some (Some [secs / 60; secs mod 60; frac; sub])
  else if units =? MAD_UNITS_SECONDS then Some (Some [secs; frac; sub])
  else if is_in units drop_frame_units then
    n ← mad_timer_count timer units; Some (Some [n; if fracunits <? 0 then 0 else sub])
  else if is_in units plain_units then n ← mad_timer_count timer units; Some (Some [n; sub])
  else Some None.
End Timer.

(** ** The value of a timer *)

(** In units of 1/352800000 s. *)
Definition tval (t : mad_timer_t) : Z := seconds t * MAD_TIMER_RESOLUTION + fraction t.

(** A timer as the operations leave it. *)
Definition timer_ok (long_bits : Z) (t : mad_timer_t) : Prop :=
  - 2 ^ (long_bits - 1) <= seconds t < 2 ^ (long_bits - 1) /\ 0 <= fraction t < MAD_TIMER_RESOLUTION.

(** The value fits a timer. *)
Definition in_range (long_bits v : Z) : Prop :=
  - 2 ^ (long_bits - 1) * MAD_TIMER_RESOLUTION <= v < 2 ^ (long_bits - 1) * MAD_TIMER_RESOLUTION.

Section Laws.
Variable W : Z.
Hypothesis HW : 32 <= W.

Abbreviation R := MAD_TIMER_RESOLUTION.
Abbreviation ok := (timer_ok W).

Lemma pow_W : 2 ^ W = 2 * 2 ^ (W - 1) /\ 2 ^ 31 <= 2 ^ (W - 1).
Proof.
  split; [rewrite <- Z.pow_succ_r by lia; f_equal; lia|apply Z.pow_le_mono_r; lia].
Qed.

Lemma R_small : R < 2 ^ 31.
Proof. reflexivity. Qed.

Lemma wraps_ex x : exists k, wraps W x = x + k * 2 ^ W.
Proof.
  unfold wraps. exists (- ((x + 2 ^ (W - 1)) / 2 ^ W)).
  pose proof pow_W. pose proof (Z.div_mod (x + 2 ^ (W - 1)) (2 ^ W) ltac:(lia)). lia.
Qed.

Lemma ulong_fraction x : 0 <= x < 2 * R -> wrapu W x = x.
Proof. intros. pose proof pow_W. pose proof R_small. apply wrapu_small. lia. Qed.

Lemma ok_in_range t : ok t -> in_range W (tval t).
Proof. unfold timer_ok, in_range, tval. pose proof pow_W. intros [H1 H2]. nia. Qed.

(** Two values that fit and agree modulo the range are equal. *)
Lemma range_unique a b k : in_range W a -> in_range W b -> a = b + k * (2 ^ W * R) -> a = b.
Proof.
  unfold in_range. intros Ha Hb E. pose proof pow_W as [P _]. rewrite P in E.
  assert (0 < R) by reflexivity. pose proof (pow2_pos (W - 1) ltac:(lia)).
  assert (k = 0); [|subst; lia]. nia.
Qed.

Lemma ok_unique t v : ok t -> tval t = v -> seconds t = v / R /\ fraction t = v mod R.
Proof.
  intros [_ Hf] <-. unfold tval. split.
  - by rewrite Z.div_add_l, Z.div_small, Z.add_0_r by (done || lia).
  - by rewrite Z.add_comm, Z.mod_add, Z.mod_small by done.
Qed.

Lemma add_spec a b : ok a -> ok b ->
  ok (mad_timer_add W a b) /\ exists k, tval (mad_timer_add W a b) = tval a + tval b + k * (2 ^ W * R).
Proof.
  intros [Ha1 Ha2] [Hb1 Hb2]. unfold mad_timer_add. cbn [fraction seconds].
  rewrite ulong_fraction by lia. pose proof pow_W. pose proof R_small.
  destruct (wraps_ex (seconds a + seconds b)) as [k1 E1].
  destruct (Z.leb_spec R (fraction a + fraction b)) as [Hge|Hlt].
  - unfold reduce_timer. cbn [fraction seconds].
    assert ((fraction a + fraction b) / R = 1 /\ (fraction a + fraction b) mod R = fraction a + fraction b - R)
      as [Eq Em] by (unfold MAD_TIMER_RESOLUTION in *; zdiv).
    rewrite Eq, Em, wraps_add_l by lia.
    destruct (wraps_ex (seconds a + seconds b + 1)) as [k2 E2]. split.
    + split; cbn; [apply wraps_range; lia|lia].
    + exists k2. unfold tval. cbn. rewrite E2. ring.
  - split; [split; cbn; [apply wraps_range; lia|lia]|]. exists k1. unfold tval. cbn. rewrite E1. ring.
Qed.

Lemma negate_spec t : ok t ->
  ok (mad_timer_negate W t) /\ exists k, tval (mad_timer_negate W t) = - tval t + k * (2 ^ W * R).
Proof.
  intros [H1 H2]. unfold mad_timer_negate. pose proof pow_W. pose proof R_small.
  destruct (Z.eqb_spec (fraction t) 0) as [E0|E0]; cbn [negb].
  - destruct (wraps_ex (- seconds t)) as [k E]. split.
    + split; cbn; [apply wraps_range; lia|lia].
    + exists k. unfold tval. cbn. rewrite E, E0. ring.
  - rewrite ulong_fraction by lia.
    replace (wraps W (- seconds t) - 1) with (wraps W (- seconds t) + -1) by lia.
    rewrite wraps_add_l by lia. destruct (wraps_ex (- seconds t + -1)) as [k E]. split.
    + split; cbn; [apply wraps_range; lia|lia].
    + exists k. unfold tval. cbn. rewrite E. ring.
Qed.

Lemma multiply_loop (v : Z) (fuel : nat) : forall timer addend factor k,
  ok timer -> ok addend -> 0 <= factor < 2 ^ (Z.of_nat fuel - 1) -> (0 < fuel)%nat ->
  tval timer + factor * tval addend = v + k * (2 ^ W * R) ->
  exists timer' addend' k',
    while_loop fuel (fun '(_, _, factor) => negb (factor =? 0)) (multiply_step W) (timer, addend, factor)
      = Some (timer', addend', 0) /\ ok timer' /\ tval timer' = v + k' * (2 ^ W * R).
Proof.
  induction fuel as [|fuel IH]; intros timer addend factor k Ht Ha Hf Hpos E; [lia|].
  rewrite while_loop_S. destruct (Z.eqb_spec factor 0) as [->|Hne]; cbn [negb].
  { exists timer, addend, k. split; [done|]. split; [done|]. lia. }
  cbv beta iota delta [multiply_step]. cbn [mbind option_bind].
  destruct fuel as [|fuel]; [change (2 ^ (Z.of_nat 1 - 1)) with 1 in Hf; lia|].
  assert (2 ^ (Z.of_nat (S (S fuel)) - 1) = 2 * 2 ^ (Z.of_nat (S fuel) - 1)) as Ep
    by (rewrite <- Z.pow_succ_r by lia; f_equal; lia).
  rewrite Ep in Hf. rewrite Z.shiftr_div_pow2 by lia. change (2 ^ 1) with 2.
  destruct (add_spec addend addend Ha Ha) as (Ha'&k2&E2).
  assert (bitset factor 1 = negb (factor mod 2 =? 0)) as ->.
  { unfold bitset. change 1 with (Z.ones 1). by rewrite Z.land_ones. }
  assert (factor = 2 * (factor / 2) + factor mod 2 /\ 0 <= factor mod 2 < 2 /\
    0 <= factor / 2 < 2 ^ (Z.of_nat (S fuel) - 1)) as (Ed&Em&Eq).
  { set (m := 2 ^ _) in *. zdiv. }
  destruct (Z.eqb_spec (factor mod 2) 0) as [E0|E0]; cbn [negb].
  - apply (IH timer _ _ (k + factor / 2 * k2)); [done|done|done|lia|]. rewrite E2.
    replace (tval timer) with (v + k * (2 ^ W * R) - factor * tval addend) by lia.
    rewrite Ed at 1. rewrite E0. ring.
  - destruct (add_spec timer addend Ht Ha) as (Ht'&k1&E1).
    apply (IH _ _ _ (k + k1 + factor / 2 * k2)); [done|done|done|lia|].
    rewrite E1, E2. assert (factor mod 2 = 1) as E3 by lia.
    replace (tval timer) with (v + k * (2 ^ W * R) - factor * tval addend) by lia.
    rewrite Ed at 1. rewrite E3. ring.
Qed.

Lemma multiply_spec t n : ok t -> - 2 ^ (W - 1) <= n < 2 ^ (W - 1) ->
  exists t', mad_timer_multiply W t n = Some t' /\ ok t' /\
    exists k, tval t' = n * tval t + k * (2 ^ W * R).
Proof.
  intros Ht Hn. unfold mad_timer_multiply. pose proof pow_W.
  assert (forall addend factor k, ok addend -> 0 <= factor < 2 ^ W ->
    factor * tval addend = n * tval t + k * (2 ^ W * R) ->
    exists t', ('(timer, _, _) ← while_loop (S (Z.to_nat W)) (fun '(_, _, factor) => negb (factor =? 0))
        (multiply_step W) (mad_timer_zero, addend, factor); Some timer) = Some t' /\ ok t' /\
      exists k, tval t' = n * tval t + k * (2 ^ W * R)) as Hloop.
  { intros addend factor k Ha Hf E.
    destruct (multiply_loop (n * tval t) (S (Z.to_nat W)) mad_timer_zero addend factor k)
      as (t'&a'&k'&->&Ht'&E').
    - split; cbn; [pose proof (pow2_pos (W - 1)); lia|done].
    - done.
    - replace (Z.of_nat (S (Z.to_nat W)) - 1) with W by lia. done.
    - lia.
    - done.
    - exists t'. split; [done|]. split; [done|]. by exists k'. }
  destruct (Z.ltb_spec n 0) as [Hneg|Hpos].
  - destruct (negate_spec t Ht) as (Ha&k&E). rewrite wrapu_wraps, wrapu_small by lia.
    apply (Hloop _ _ (- n * k)); [done|lia|]. rewrite E. ring.
  - rewrite wrapu_small by lia. apply (Hloop _ _ 0); [done|lia|]. ring.
Qed.

(** ** Scaling *)

Lemma gcd_loop (n : nat) : forall a b (fuel : nat), 0 <= b <= a -> a * b < 2 ^ Z.of_nat n -> (n < fuel)%nat ->
  while_loop fuel (fun '(_, num2) => negb (num2 =? 0)) (fun '(num1, num2) => Some (num2, num1 mod num2))
    (a, b) = Some (Z.gcd a b, 0).
Proof.
  induction n as [|n IH]; intros a b fuel Hab Hp Hf; (destruct fuel as [|fuel]; [lia|]);
    rewrite while_loop_S; (destruct (Z.eqb_spec b 0) as [->|Hb]; cbn [negb];
      [by rewrite Z.gcd_0_r, Z.abs_eq by lia|]).
  - change (2 ^ Z.of_nat 0) with 1 in Hp. nia.
  - cbn [mbind option_bind]. pose proof (Z.mod_pos_bound a b ltac:(lia)).
    pose proof (Z.div_mod a b Hb). assert (1 <= a / b) by (apply Z.div_le_lower_bound; lia).
    rewrite IH; [|lia| |lia].
    + by rewrite Z.gcd_comm, Z.gcd_mod, Z.gcd_comm by done.
    + rewrite Nat2Z.inj_succ, Z.pow_succ_r in Hp by lia. nia.
Qed.

Lemma gcd_spec a b : 0 <= a < 2 ^ W -> 0 <= b < 2 ^ W -> gcd W a b = Some (Z.gcd a b).
Proof.
  intros Ha Hb. unfold gcd. rewrite while_loop_S.
  destruct (Z.eqb_spec b 0) as [->|Hne]; cbn [negb].
  - cbn. by rewrite Z.gcd_0_r, Z.abs_eq by lia.
  - cbn [mbind option_bind]. pose proof (Z.mod_pos_bound a b ltac:(lia)).
    rewrite (gcd_loop (Z.to_nat (2 * W))); [|lia| |lia].
    + cbn. by rewrite Z.gcd_comm, Z.gcd_mod, Z.gcd_comm by done.
    + rewrite Z2Nat.id by lia. replace (2 * W) with (W + W) by lia. rewrite Z.pow_add_r by lia. nia.
Qed.

Lemma reduce_spec n d : 0 <= n < 2 ^ W -> 0 < d < 2 ^ W ->
  exists g n' d', reduce_rational W n d = Some (n', d') /\
    g = Z.gcd n d /\ 0 < g /\ n = g * n' /\ d = g * d' /\ 0 <= n' <= n /\ 0 < d' <= d.
Proof.
  intros Hn Hd. unfold reduce_rational. rewrite gcd_spec by lia. cbn [mbind option_bind].
  pose proof (Z.gcd_nonneg n d). destruct (Z.eqb_spec (Z.gcd n d) 0) as [E|E].
  { apply Z.gcd_eq_0_r in E. lia. }
  destruct (Z.gcd_divide_l n d) as [n' En]. destruct (Z.gcd_divide_r n d) as [d' Ed].
  set (g := Z.gcd n d) in *. exists g, n', d'.
  rewrite En at 1. rewrite Ed at 1. rewrite !Z.div_mul by done. split; [done|]. split; [done|]. nia.
Qed.

(** The three ways to compute the quotient agree as long as the reduced product
    fits. *)
Lemma scale_spec n d s : 0 <= n < 2 ^ W -> 0 < d < 2 ^ W -> 0 <= s < 2 ^ W ->
  n / Z.gcd n d * (s / Z.gcd s (d / Z.gcd n d)) < 2 ^ W -> scale_rational W n d s = Some (n * s / d).
Proof.
  intros Hn Hd Hs Hp. unfold scale_rational.
  destruct (reduce_spec n d Hn Hd) as (g1&n'&d'&->&Eg1&Hg1&En&Ed&Hn'&Hd'). cbn [mbind option_bind].
  destruct (reduce_spec s d' Hs ltac:(lia)) as (g2&s'&d2&->&Eg2&Hg2&Es&Ed2&Hs'&Hd2). cbn [mbind option_bind].
  rewrite (proj2 (Z.eqb_neq d2 0)) by lia.
  rewrite <- Eg1 in Hp. rewrite En in Hp at 1. rewrite Ed in Hp.
  rewrite !(Z.mul_comm g1), !Z.div_mul in Hp by lia. rewrite <- Eg2 in Hp. rewrite Es in Hp.
  rewrite (Z.mul_comm g2), Z.div_mul in Hp by lia.
  assert (n * s / d = n' * s' / d2) as ->.
  { rewrite En, Es, Ed, Ed2. replace (g1 * n' * (g2 * s')) with (n' * s' * (g1 * g2)) by ring.
    replace (g1 * (g2 * d2)) with (d2 * (g1 * g2)) by ring. apply Z.div_mul_cancel_r; nia. }
  assert (forall x y, 0 <= x -> 0 <= y -> x * y < 2 ^ W ->
    wrapu W (wrapu W (x * (y / d2)) + wrapu W (x * (y mod d2)) / d2) = x * y / d2) as Hsplit.
  { intros x y Hx Hy Hxy. pose proof (Z.div_mod y d2 ltac:(lia)). pose proof (Z.mod_pos_bound y d2 ltac:(lia)).
    pose proof (Z.div_pos y d2 ltac:(lia) ltac:(lia)).
    rewrite (wrapu_small _ (x * (y / d2))), (wrapu_small _ (x * (y mod d2))) by nia.
    replace (x * y) with (x * (y / d2) * d2 + x * (y mod d2)) by (rewrite H at 3; ring).
    rewrite Z.div_add_l by lia. apply wrapu_small.
    assert (x * (y mod d2) / d2 * d2 <= x * (y mod d2)) by (rewrite Z.mul_comm; apply Z.mul_div_le; lia).
    assert (0 <= x * (y mod d2) / d2) by (apply Z.div_pos; nia). nia. }
  destruct (d2 <? s'); [by rewrite Hsplit by lia|].
  destruct (d2 <? n'); [by rewrite Hsplit, (Z.mul_comm s') by lia|].
  by rewrite wrapu_small by nia.
Qed.
End Laws.

Section Conversions.
Variable W : Z.
Hypothesis HW : 32 <= W.

Abbreviation R := MAD_TIMER_RESOLUTION.
Abbreviation ok := (timer_ok W).

Lemma R_below : R < 2 ^ W.
Proof. pose proof (pow_W W HW). pose proof R_small. lia. Qed.

Lemma gcd_pos a b : 0 < b -> 0 < Z.gcd a b.
Proof.
  intros. pose proof (Z.gcd_nonneg a b). destruct (Z.eq_dec (Z.gcd a b) 0) as [E|]; [|lia].
  apply Z.gcd_eq_0_r in E. lia.
Qed.

Lemma divisor_small d : 0 < d -> (d | R) -> d <= R.
Proof. intros. by apply Z.divide_pos_le. Qed.

(** Units that divide the resolution never overflow. *)
Lemma scale_units f u : 0 <= f < R -> 0 < u -> (u | R) -> scale_rational W f R u = Some (f * u / R).
Proof.
  intros Hf Hu Hdiv. pose proof R_below. pose proof (divisor_small u Hu Hdiv).
  assert (0 < R) by reflexivity.
  apply scale_spec; [done|lia|lia|lia|].
  destruct (Z.gcd_divide_l f R) as [n' En]. destruct (Z.gcd_divide_r f R) as [d' Ed].
  pose proof (gcd_pos f R ltac:(done)) as Hg.
  assert (f / Z.gcd f R = n') as E1 by (rewrite En at 1; apply Z.div_mul; lia).
  assert (R / Z.gcd f R = d') as E2 by (rewrite Ed at 1; apply Z.div_mul; lia).
  rewrite E1, E2.
  assert (0 < d' /\ 0 <= n' < d') as [Hd' Hn'] by nia.
  assert (d' * (u / Z.gcd u d') = Z.lcm d' u) as El.
  { unfold Z.lcm. rewrite (Z.gcd_comm u d'). rewrite Z.abs_eq; [done|].
    apply Z.mul_nonneg_nonneg; [lia|]. apply Z.div_pos; [lia|]. by apply gcd_pos. }
  assert (Z.lcm d' u <= R) as Hl.
  { apply Z.divide_pos_le; [done|]. apply Z.lcm_least; [|done]. exists (Z.gcd f R). lia. }
  pose proof (Z.div_pos u (Z.gcd u d') ltac:(lia) (gcd_pos u d' ltac:(lia))). nia.
Qed.

Lemma plain_units_divide u : is_in u plain_units = true -> 0 < u <= 48000 /\ (u | R).
Proof.
  unfold is_in. intros H. apply existsb_exists in H as (x&Hin&->%Z.eqb_eq).
  assert (forallb (fun u => (0 <? u) && (u <=? 48000) && (R mod u =? 0)) plain_units = true) as Hall
    by reflexivity.
  rewrite forallb_forall in Hall. specialize (Hall x Hin). zbool. split; [lia|].
  apply Z.mod_divide; [lia|done].
Qed.

Lemma count_plain_spec t u : ok t -> is_in u plain_units = true ->
  - 2 ^ (W - 1) <= tval t * u / R < 2 ^ (W - 1) -> count_plain W t u = Some (tval t * u / R).
Proof.
  intros [Hs Hf] Hu Hr. pose proof (plain_units_divide u Hu) as [Hu1 Hu2].
  pose proof (pow_W W HW). pose proof R_below. unfold count_plain.
  unfold MAD_UNITS_HOURS, MAD_UNITS_MINUTES, MAD_UNITS_SECONDS.
  rewrite !(proj2 (Z.eqb_neq u _)) by lia. rewrite Hu.
  rewrite (wrapu_small W u) by lia. rewrite scale_units by (done || lia). cbn [mbind option_bind].
  assert (0 <= fraction t * u / R <= 48000) as Hq.
  { assert (0 < R) by reflexivity. split; [apply Z.div_pos; nia|].
    assert (fraction t * u / R < u); [|lia]. apply Z.div_lt_upper_bound; nia. }
  assert (tval t * u / R = seconds t * u + fraction t * u / R) as Et.
  { unfold tval. replace ((seconds t * R + fraction t) * u) with (seconds t * u * R + fraction t * u) by ring.
    by rewrite Z.div_add_l. }
  rewrite (wraps_small W (fraction t * u / R)) by lia. rewrite wraps_add_l by lia.
  rewrite Et in Hr |- *. by rewrite wraps_small by lia.
Qed.

Lemma set_denominators_divide d : is_in d set_denominators = true -> 0 < d /\ (d | R).
Proof.
  intros H. apply existsb_exists in H as (x&Hin&->%Z.eqb_eq).
  assert (forallb (fun u => (0 <? u) && (R mod u =? 0)) set_denominators = true) as Hall by reflexivity.
  rewrite forallb_forall in Hall. specialize (Hall x Hin). zbool. split; [lia|].
  apply Z.mod_divide; [lia|done].
Qed.

(** Fractions of a divisor of the resolution are exact. *)
Lemma set_fraction n d : 0 <= n < d -> (d | R) ->
  (if (d =? 0) || (d =? 1) then Some 0
   else if d =? R then Some n
   else if is_in d set_denominators then Some (wrapu W (n * (R / d)))
   else scale_rational W n d R) = Some (n * (R / d)).
Proof.
  intros Hn Hdiv. pose proof (divisor_small d ltac:(lia) Hdiv). pose proof R_below.
  assert (0 < R) by reflexivity. destruct Hdiv as [q Eq].
  assert (R / d = q) as Erd by (rewrite Eq; apply Z.div_mul; lia).
  rewrite (proj2 (Z.eqb_neq d 0)) by lia. cbn [orb].
  destruct (Z.eqb_spec d 1) as [->|Hd1]; [f_equal; lia|].
  destruct (Z.eqb_spec d R) as [E|HR]; [rewrite E, Z.div_same by done; f_equal; lia|].
  destruct (is_in d set_denominators).
  { rewrite wrapu_small; [done|]. rewrite Erd. nia. }
  rewrite scale_spec; [|done|lia|lia|lia|].
  - f_equal. rewrite Erd, Eq, Z.mul_assoc. apply Z.div_mul. lia.
  - destruct (Z.gcd_divide_l n d) as [n' En]. destruct (Z.gcd_divide_r n d) as [d' Ed].
    pose proof (gcd_pos n d ltac:(lia)) as Hg.
    assert (n / Z.gcd n d = n') as E1 by (rewrite En at 1; apply Z.div_mul; lia).
    assert (d / Z.gcd n d = d') as E2 by (rewrite Ed at 1; apply Z.div_mul; lia).
    rewrite E1, E2. assert (0 < d' /\ 0 <= n' < d') as [Hd' Hn'] by nia.
    assert (Z.gcd R d' = d') as Egcd.
    { rewrite Z.gcd_comm. apply Z.divide_gcd_iff; [lia|]. exists (q * Z.gcd n d). rewrite Eq, Ed at 1. ring. }
    rewrite Egcd. assert (R / d' * d' <= R) by (rewrite Z.mul_comm; apply Z.mul_div_le; lia).
    pose proof (Z.div_pos R d' ltac:(lia) ltac:(lia)). nia.
Qed.

Lemma set_spec secs n d : 0 < d -> (d | R) -> 0 <= n < 2 ^ W -> 0 <= secs ->
  secs + n / d < 2 ^ (W - 1) ->
  exists t, mad_timer_set W secs n d = Some t /\ ok t /\ tval t * d = (secs * d + n) * R.
Proof.
  intros Hd Hdiv Hn Hs Hr. pose proof (pow_W W HW). pose proof (Z.div_pos n d ltac:(lia) Hd).
  pose proof (Z.mod_pos_bound n d Hd) as Hm. pose proof (Z.div_mod n d ltac:(lia)) as Hdm.
  assert ((if (d <=? n) && (0 <? d) then (wraps W (wraps W secs + n / d), n mod d) else (wraps W secs, n))
    = (secs + n / d, n mod d)) as E.
  { rewrite (wraps_small W secs) by lia. destruct (Z.leb_spec d n); cbn [andb].
    - rewrite (proj2 (Z.ltb_lt 0 d) Hd). rewrite wraps_small by lia. done.
    - rewrite Z.div_small, Z.mod_small, Z.add_0_r by lia. done. }
  unfold mad_timer_set. rewrite E. rewrite set_fraction by done. cbn [mbind option_bind].
  pose proof Hdiv as [q Eq]. assert (R / d = q) as -> by (rewrite Eq; apply Z.div_mul; lia).
  assert (0 < R) by reflexivity. assert (0 < q) by nia.
  assert (0 <= n mod d * q < R) as Hf by nia. rewrite (proj2 (Z.leb_gt R _)) by lia.
  eexists. split; [done|]. split; [split; cbn; lia|]. unfold tval. cbn [seconds fraction].
  rewrite Hdm at 3. rewrite Eq. ring.
Qed.

(** Drop-frame labels of [frame]: the label counts the frames at 30 per second,
    with two labels skipped in nine of ten minutes. *)
Lemma drop_frame_spec frame : 0 <= frame < 2 ^ 31 ->
  exists label, drop_frame W frame MAD_UNITS_29_97_FPS = (label mod 30, label / 30) /\
    frame <= label <= frame + frame / 500 /\
    label - 2 * (label / 1800 - label / 18000) = frame /\
    (label / 1800 mod 10 <> 0 -> 2 <= label mod 1800).
Proof.
  intros Hf. unfold drop_frame, MAD_UNITS_29_97_FPS. pose proof (pow_W W HW).
  change (- -30 * 60 * 10 - (10 - 1) * 2) with 17982. change (17982 / 10) with 1798. change (- -30) with 30.
  change ((10 - 1) * 2) with 18.
  assert (0 <= frame / 17982 <= frame /\ 0 <= frame mod 17982 < 17982 /\
    frame = 17982 * (frame / 17982) + frame mod 17982) as (Hd&Hm&E) by zdiv.
  set (d := frame / 17982) in *. set (m := frame mod 17982) in *.
  assert (0 <= (m - 2) / 1798 <= 10 \/ m <= 2) as Hk by zdiv.
  rewrite (wrapu_small W (frame + 18 * d)) by lia.
  exists (frame + 18 * d + (if 2 <? m then 2 * ((m - 2) / 1798) else 0)).
  assert ((if 2 <? m then wrapu W (frame + 18 * d + 2 * ((m - 2) / 1798)) else frame + 18 * d)
    = frame + 18 * d + (if 2 <? m then 2 * ((m - 2) / 1798) else 0)) as ->.
  { destruct (Z.ltb_spec 2 m); [|lia]. rewrite wrapu_small by lia. done. }
  set (label := frame + 18 * d + _).
  assert (exists k r, label = 18000 * d + (1800 * k + r) /\ 0 <= k <= 9 /\ 0 <= r < 1800 /\
    m = 1798 * k + r /\ (k <> 0 -> 2 <= r)) as (k&r&El&Hk9&Hr&Ek&Hk0).
  { destruct (Z.ltb_spec 2 m).
    - assert (exists k, (m - 2) / 1798 = k /\ 1798 * k <= m - 2 < 1798 * (k + 1)) as (k&Ek&Hk1) by
        (eexists; split; [reflexivity|]; zdiv).
      exists k, (m - 1798 * k). unfold label. rewrite Ek. lia.
    - exists 0, m. unfold label. lia. }
  split.
  { f_equal. unfold wrapu. rewrite Z.mod_small; [done|].
    pose proof (Z.mod_pos_bound label 30 ltac:(lia)). lia. }
  assert (10 * d + k = label / 1800) as <- by (apply (Z.div_unique_pos label 1800 _ r); lia).
  assert (d = label / 18000) as <- by (apply (Z.div_unique_pos label 18000 _ (1800 * k + r)); lia).
  assert (r = label mod 1800) as <- by (apply (Z.mod_unique_pos label 1800 (10 * d + k) r); lia).
  assert (k = (10 * d + k) mod 10) as <- by (apply (Z.mod_unique_pos _ 10 d); lia).
  split; [|split; [lia|done]]. split; [lia|].
  pose proof (Z.div_le_mono (500 * (18 * d + 2 * k)) frame 500 ltac:(lia)) as Hdiv.
  rewrite Z.mul_comm, Z.div_mul in Hdiv by lia. lia.
Qed.
End Conversions.

Section Compare.
Variable W : Z.
Hypothesis HW : 32 <= W.

Lemma compare_spec a b : timer_ok W a -> timer_ok W b ->
  - 2 ^ (W - 1) <= seconds a - seconds b < 2 ^ (W - 1) ->
  mad_timer_compare W a b = Z.sgn (tval a - tval b).
Proof.
  intros [Ha1 Ha2] [Hb1 Hb2] Hd. pose proof (pow_W W HW). pose proof R_small.
  unfold mad_timer_compare. rewrite (wraps_small W (seconds a - seconds b)) by lia.
  rewrite (wraps_small W (fraction a - fraction b)) by lia. unfold tval in *.
  destruct (Z.ltb_spec (seconds a - seconds b) 0); [symmetry; apply Z.sgn_neg; nia|].
  destruct (Z.ltb_spec 0 (seconds a - seconds b)); [symmetry; apply Z.sgn_pos; nia|].
  assert (seconds a = seconds b) as E by lia. rewrite E.
  destruct (Z.ltb_spec (fraction a - fraction b) 0); [symmetry; apply Z.sgn_neg; lia|].
  destruct (Z.ltb_spec 0 (fraction a - fraction b)); [symmetry; apply Z.sgn_pos; lia|].
  symmetry. apply Z.sgn_null_iff. lia.
Qed.
End Compare.

(** ** Claims *)

(** Timers are exact fixed-point numbers.  On timers with a normal fraction,
    comparison is the order of the values, and negation, absolute value, addition
    and the double-and-add multiplication by a signed number give the exact value
    in normal form whenever it fits; the doublings beyond the last bit, which may
    wrap, never show. *)
Theorem mad_timer_arith W a b n :
  32 <= W -> timer_ok W a -> timer_ok W b -> - 2 ^ (W - 1) <= n < 2 ^ (W - 1) ->
  (- 2 ^ (W - 1) <= seconds a - seconds b < 2 ^ (W - 1) ->
     mad_timer_compare W a b = Z.sgn (tval a - tval b)) /\
  (in_range W (- tval a) ->
     timer_ok W (mad_timer_negate W a) /\ tval (mad_timer_negate W a) = - tval a /\
     tval (mad_timer_abs W a) = Z.abs (tval a)) /\
  (in_range W (tval a + tval b) ->
     timer_ok W (mad_timer_add W a b) /\ tval (mad_timer_add W a b) = tval a + tval b) /\
  (in_range W (n * tval a) ->
     exists t, mad_timer_multiply W a n = Some t /\ timer_ok W t /\ tval t = n * tval a).
Proof.
  intros HW Ha Hb Hn. split; [by apply compare_spec|]. split; [|split].
  - intros Hr. destruct (negate_spec W HW a Ha) as (Hok&k&E).
    assert (tval (mad_timer_negate W a) = - tval a) as En
      by (apply (range_unique W HW _ _ k); [by apply ok_in_range|done|done]).
    split; [done|]. split; [done|]. destruct Ha as [_ Hf]. unfold mad_timer_abs.
    destruct (Z.ltb_spec (seconds a) 0).
    + rewrite En. symmetry. apply Z.abs_neq. unfold tval. nia.
    + symmetry. apply Z.abs_eq. unfold tval. nia.
  - intros Hr. destruct (add_spec W HW a b Ha Hb) as (Hok&k&E). split; [done|].
    apply (range_unique W HW _ _ k); [by apply ok_in_range|done|done].
  - intros Hr. destruct (multiply_spec W HW a n Ha Hn) as (t&Et&Hok&k&E). exists t.
    split; [done|]. split; [done|]. apply (range_unique W HW _ _ k); [by apply ok_in_range|done|done].
Qed.

Lemma mad_timer_arith_witness :
  let a := MkTimer (-3) 352799999 in let b := MkTimer 2 1 in let n := -1000001 in
  (- 2 ^ 31 <= seconds a - seconds b < 2 ^ 31 ->
     mad_timer_compare 32 a b = Z.sgn (tval a - tval b)) /\
  (in_range 32 (- tval a) ->
     timer_ok 32 (mad_timer_negate 32 a) /\ tval (mad_timer_negate 32 a) = - tval a /\
     tval (mad_timer_abs 32 a) = Z.abs (tval a)) /\
  (in_range 32 (tval a + tval b) ->
     timer_ok 32 (mad_timer_add 32 a b) /\ tval (mad_timer_add 32 a b) = tval a + tval b) /\
  (in_range 32 (n * tval a) ->
     exists t, mad_timer_multiply 32 a n = Some t /\ timer_ok 32 t /\ tval t = n * tval a).
Proof.
  intros a b n. apply (mad_timer_arith 32 a b n).
  - lia.
  - split; simpl; unfold MAD_TIMER_RESOLUTION; lia.
  - split; simpl; unfold MAD_TIMER_RESOLUTION; lia.
  - unfold n. simpl. lia.
Defined.

(** A duration in samples is counted back exactly.  For every denominator
    among the metric, sample rate and frame rate units, and every numerator whose
    number of seconds fits, [mad_timer_set] makes a timer of exactly that value;
    counting it in the same unit gives the numerator back, and in any other such
    unit the exact quotient rounded down, with no overflow inside of
    [scale_rational]. *)
Theorem mad_timer_set_count W n d u :
  32 <= W -> is_in d plain_units = true -> is_in u plain_units = true ->
  0 <= n < 2 ^ (W - 1) -> n * u / d < 2 ^ (W - 1) ->
  exists t, mad_timer_set W 0 n d = Some t /\ timer_ok W t /\
    tval t * d = n * MAD_TIMER_RESOLUTION /\
    mad_timer_count W t d = Some n /\ mad_timer_count W t u = Some (n * u / d).
Proof.
  intros HW Hd Hu Hn Hr. pose proof (pow_W W HW).
  destruct (plain_units_divide d Hd) as [Hd1 Hd2]. destruct (plain_units_divide u Hu) as [Hu1 _].
  destruct (set_spec W HW 0 n d) as (t&Et&Hok&Ev); [lia|done|lia|lia| |].
  { assert (n / d <= n) by (apply Z.div_le_upper_bound; nia). lia. }
  rewrite Z.mul_0_l, Z.add_0_l in Ev. exists t. split; [done|]. split; [done|]. split; [done|].
  assert (0 < MAD_TIMER_RESOLUTION) by reflexivity.
  assert (forall v, tval t * v / MAD_TIMER_RESOLUTION = n * v / d) as Hq.
  { intros v. rewrite <- (Z.div_mul_cancel_r (tval t * v) MAD_TIMER_RESOLUTION d) by lia.
    replace (tval t * v * d) with (n * v * MAD_TIMER_RESOLUTION) by (rewrite <- (Z.mul_shuffle0 n), <- Ev; ring).
    rewrite (Z.mul_comm MAD_TIMER_RESOLUTION d). apply Z.div_mul_cancel_r; lia. }
  assert (forall v, is_in v plain_units = true -> mad_timer_count W t v = count_plain W t v) as Hplain.
  { intros v Hv. unfold mad_timer_count. assert (is_in v drop_frame_units = false) as ->; [|done].
    apply not_true_is_false. intros Hv'. apply existsb_exists in Hv' as (x&Hin&->%Z.eqb_eq).
    pose proof (plain_units_divide x Hv) as [? _].
    assert (forallb (fun u => u <? 0) drop_frame_units = true) as Hneg by reflexivity.
    rewrite forallb_forall in Hneg. specialize (Hneg x Hin). zbool. lia. }
  rewrite !Hplain by done. split.
  - rewrite (count_plain_spec W HW t d Hok Hd); rewrite Hq, Z.div_mul by lia; [done|lia].
  - rewrite (count_plain_spec W HW t u Hok Hu); rewrite Hq; [done|]. split; [|done].
    assert (0 <= n * u / d) by (apply Z.div_pos; nia). lia.
Qed.

Lemma mad_timer_set_count_witness :
  exists t, mad_timer_set 32 0 1152 44100 = Some t /\ timer_ok 32 t /\
    tval t * 44100 = 1152 * MAD_TIMER_RESOLUTION /\
    mad_timer_count 32 t 44100 = Some 1152 /\ mad_timer_count 32 t 1000 = Some 26.
Proof. apply (mad_timer_set_count 32 1152 44100 1000); [lia|done|done|simpl; lia|reflexivity]. Defined.

(** Drop-frame time codes.  For a timer that is not negative, written as hours,
    minutes, seconds and 29.97 frames, the four numbers handed to [sprintf] form
    a label within its limits that is never one of the dropped ones (frames 0 and
    1 of a minute that is not a multiple of ten), and label and frame number
    correspond: the label at 30 frames per second, less two for each minute begun
    except every tenth, is the number of frames in the timer. *)
Theorem drop_frame_label_correct W t subparts :
  32 <= W -> timer_ok W t -> 0 <= seconds t -> (seconds t + 1) * 30000 < 2 ^ 31 ->
  let frame := Z.quot ((tval t * 30 / MAD_TIMER_RESOLUTION + 1) * 1000) 1001 in
  exists h m s f,
    mad_timer_string W t MAD_UNITS_HOURS MAD_UNITS_29_97_FPS subparts = Some (Some [h; m; s; f; 0]) /\
    0 <= h /\ 0 <= m < 60 /\ 0 <= s < 60 /\ 0 <= f < 30 /\
    (s = 0 -> m mod 10 <> 0 -> 2 <= f) /\
    ((h * 60 + m) * 60 + s) * 30 + f - 2 * ((h * 60 + m) - (h * 60 + m) / 10) = frame.
Proof.
  intros HW [Hs Hf] H0 Hmax frame. pose proof (pow_W W HW).
  assert (0 < MAD_TIMER_RESOLUTION) by reflexivity.
  assert (0 <= tval t * 30 / MAD_TIMER_RESOLUTION < (seconds t + 1) * 30) as Hc.
  { unfold tval. split; [apply Z.div_pos; nia|]. apply Z.div_lt_upper_bound; nia. }
  assert (mad_timer_count W t MAD_UNITS_29_97_FPS = Some frame) as Ecount.
  { unfold mad_timer_count. change (is_in MAD_UNITS_29_97_FPS drop_frame_units) with true. cbv iota.
    change (- MAD_UNITS_29_97_FPS) with 30.
    rewrite (count_plain_spec W HW t 30) by (done || lia). cbn [mbind option_bind].
    rewrite (wraps_small W (_ + 1)) by lia. by rewrite wraps_small by lia. }
  set (c := tval t * 30 / MAD_TIMER_RESOLUTION) in *.
  assert (0 <= frame < 2 ^ 31) as Hfr.
  { unfold frame. rewrite Z.quot_div_nonneg by lia. split; [apply Z.div_pos; lia|].
    apply Z.div_lt_upper_bound; lia. }
  destruct (drop_frame_spec W HW frame Hfr) as (label&Ed&Hl&Hlab&Hdrop).
  unfold mad_timer_string, mad_timer_abs. rewrite (proj2 (Z.ltb_ge (seconds t) 0)) by lia.
  change (is_in MAD_UNITS_29_97_FPS plain_units) with false.
  change (is_in MAD_UNITS_29_97_FPS drop_frame_units) with true. cbv iota.
  rewrite Ecount. cbn [mbind option_bind]. rewrite (wrapu_small W frame) by lia. rewrite Ed.
  cbn [mbind option_bind]. change (MAD_UNITS_HOURS =? MAD_UNITS_HOURS) with true. cbv iota.
  exists (label / 30 / 60 / 60), (label / 30 / 60 mod 60), (label / 30 mod 60), (label mod 30).
  assert (label / 30 / 60 = label / 1800) as E60 by (rewrite Z.div_div by lia; done).
  assert (label / 18000 = label / 1800 / 10) as E10 by (rewrite Z.div_div by lia; done).
  rewrite E10 in Hlab. rewrite E60. assert (0 <= label) as Hl0 by lia. clear - Hlab Hdrop Hl0 E60.
  set (mins := label / 1800) in *. set (secs := label / 30) in *.
  assert (0 <= mins /\ 0 <= secs /\ label = 30 * secs + label mod 30 /\ 0 <= label mod 30 < 30 /\
    secs = 60 * mins + secs mod 60 /\ 0 <= secs mod 60 < 60) as (A1&A2&A3&A4&A5&A6) by
    (unfold mins, secs in *; rewrite <- E60; zdiv).
  assert (mins = mins / 60 * 60 + mins mod 60 /\ 0 <= mins / 60 /\ 0 <= mins mod 60 < 60) as (B1&B2&B3) by zdiv.
  split; [done|]. split; [done|]. split; [done|]. split; [done|]. split; [done|]. split.
  - intros Hs0 Hm. assert (label mod 1800 = label mod 30) as El.
    { symmetry. apply (Z.mod_unique_pos label 1800 mins); lia. }
    rewrite <- El. apply Hdrop. intros E. apply Hm. clear - E B1. zdiv.
  - rewrite <- B1. lia.
Qed.

Lemma drop_frame_label_correct_witness :
  let t := MkTimer 60 352000000 in
  let frame := Z.quot ((tval t * 30 / MAD_TIMER_RESOLUTION + 1) * 1000) 1001 in
  exists h m s f,
    mad_timer_string 32 t MAD_UNITS_HOURS MAD_UNITS_29_97_FPS 0 = Some (Some [h; m; s; f; 0]) /\
    0 <= h /\ 0 <= m < 60 /\ 0 <= s < 60 /\ 0 <= f < 30 /\
    (s = 0 -> m mod 10 <> 0 -> 2 <= f) /\
    ((h * 60 + m) * 60 + s) * 30 + f - 2 * ((h * 60 + m) - (h * 60 + m) / 10) = frame.
Proof.
  intros t. apply (drop_frame_label_correct 32 t 0);
    [lia|split; simpl; unfold MAD_TIMER_RESOLUTION; lia|simpl; lia|simpl; lia].
Defined.
