(* ===== verification/MadFrame.v ===== *)
(** Streams and frame headers of libmad: [src/libmad/stream.h], [stream.c],
    [frame.h] and [frame.c].

    [mad_header_decode] finds the next frame of an MPEG audio stream, decodes its
    header and computes where the frame after it starts; for the free format it
    searches for the bit rate.  Pointers are offsets into the input buffer [mem];
    the frame data, decoded by the layers, is not modelled here. *)
From S2P Require Import Prelude BitString Crc MadBit MadTimer.

(** ** Data *)

Definition NULL : Z := -1.

Definition MAD_BUFFER_GUARD : Z := 8.

Definition MAD_ERROR_NONE : Z := 0x0000.
Definition MAD_ERROR_BUFLEN : Z := 0x0001.
Definition MAD_ERROR_BUFPTR : Z := 0x0002.
Definition MAD_ERROR_LOSTSYNC : Z := 0x0101.
Definition MAD_ERROR_BADLAYER : Z := 0x0102.
Definition MAD_ERROR_BADBITRATE : Z := 0x0103.
Definition MAD_ERROR_BADSAMPLERATE : Z := 0x0104.

Definition MAD_RECOVERABLE (error : Z) : bool := bitset error 0xff00.

Record mad_stream := MkStream {
  bufend : Z; skiplen : Z; sync : Z; freerate : Z; this_frame : Z; next_frame : Z;
  ptr : mad_bitptr; options : Z; error : Z
}.

Definition set_ptr (s : mad_stream) (p : mad_bitptr) : mad_stream :=
  MkStream (bufend s) (skiplen s) (sync s) (freerate s) (this_frame s) (next_frame s) p (options s) (error s).
Definition set_error (s : mad_stream) (e : Z) : mad_stream :=
  MkStream (bufend s) (skiplen s) (sync s) (freerate s) (this_frame s) (next_frame s) (ptr s) (options s) e.
Definition set_sync (s : mad_stream) (v : Z) : mad_stream :=
  MkStream (bufend s) (skiplen s) v (freerate s) (this_frame s) (next_frame s) (ptr s) (options s) (error s).
Definition set_skiplen (s : mad_stream) (v : Z) : mad_stream :=
  MkStream (bufend s) v (sync s) (freerate s) (this_frame s) (next_frame s) (ptr s) (options s) (error s).
Definition set_freerate (s : mad_stream) (v : Z) : mad_stream :=
  MkStream (bufend s) (skiplen s) (sync s) v (this_frame s) (next_frame s) (ptr s) (options s) (error s).
Definition set_frames (s : mad_stream) (this next : Z) : mad_stream :=
  MkStream (bufend s) (skiplen s) (sync s) (freerate s) this next (ptr s) (options s) (error s).

Definition MAD_LAYER_I : Z := 1.
Definition MAD_LAYER_II : Z := 2.
Definition MAD_LAYER_III : Z := 3.

Definition MAD_FLAG_INCOMPLETE : Z := 0x0008.
Definition MAD_FLAG_PROTECTION : Z := 0x0010.
Definition MAD_FLAG_COPYRIGHT : Z := 0x0020.
Definition MAD_FLAG_ORIGINAL : Z := 0x0040.
Definition MAD_FLAG_PADDING : Z := 0x0080.
Definition MAD_FLAG_FREEFORMAT : Z := 0x0400.
Definition MAD_FLAG_LSF_EXT : Z := 0x1000.
Definition MAD_FLAG_MPEG_2_5_EXT : Z := 0x4000.
Definition MAD_PRIVATE_HEADER : Z := 0x0100.

Record mad_header := MkHeader {
  layer : Z; mode : Z; mode_extension : Z; emphasis : Z; bitrate : Z; samplerate : Z;
  crc_check : Z; crc_target : Z; flags : Z; private_bits : Z; duration : mad_timer_t
}.

Definition mad_header_init : mad_header := MkHeader 0 0 0 0 0 0 0 0 0 0 mad_timer_zero.

Definition set_layer (h : mad_header) (v : Z) : mad_header :=
  MkHeader v (mode h) (mode_extension h) (emphasis h) (bitrate h) (samplerate h) (crc_check h) (crc_target h)
    (flags h) (private_bits h) (duration h).
Definition set_modes (h : mad_header) (m e : Z) : mad_header :=
  MkHeader (layer h) m e (emphasis h) (bitrate h) (samplerate h) (crc_check h) (crc_target h)
    (flags h) (private_bits h) (duration h).
Definition set_emphasis (h : mad_header) (v : Z) : mad_header :=
  MkHeader (layer h) (mode h) (mode_extension h) v (bitrate h) (samplerate h) (crc_check h) (crc_target h)
    (flags h) (private_bits h) (duration h).
Definition set_bitrate (h : mad_header) (v : Z) : mad_header :=
  MkHeader (layer h) (mode h) (mode_extension h) (emphasis h) v (samplerate h) (crc_check h) (crc_target h)
    (flags h) (private_bits h) (duration h).
Definition set_samplerate (h : mad_header) (v : Z) : mad_header :=
  MkHeader (layer h) (mode h) (mode_extension h) (emphasis h) (bitrate h) v (crc_check h) (crc_target h)
    (flags h) (private_bits h) (duration h).
Definition set_crc (h : mad_header) (c t : Z) : mad_header :=
  MkHeader (layer h) (mode h) (mode_extension h) (emphasis h) (bitrate h) (samplerate h) c t
    (flags h) (private_bits h) (duration h).
Definition set_flags (h : mad_header) (f p : Z) : mad_header :=
  MkHeader (layer h) (mode h) (mode_extension h) (emphasis h) (bitrate h) (samplerate h) (crc_check h)
    (crc_target h) f p (duration h).
Definition set_duration (h : mad_header) (t : mad_timer_t) : mad_header :=
  MkHeader (layer h) (mode h) (mode_extension h) (emphasis h) (bitrate h) (samplerate h) (crc_check h)
    (crc_target h) (flags h) (private_bits h) t.

Definition add_flag (h : mad_header) (c : bool) (f : Z) : mad_header :=
  if c then set_flags h (flags h .| f) (private_bits h) else h.

Definition bitrate_table : list (list Z) := [
  [0; 32000; 64000; 96000; 128000; 160000; 192000; 224000;
   256000; 288000; 320000; 352000; 384000; 416000; 448000];
  [0; 32000; 48000; 56000; 64000; 80000; 96000; 112000;
   128000; 160000; 192000; 224000; 256000; 320000; 384000];
  [0; 32000; 40000; 48000; 56000; 64000; 80000; 96000;
   112000; 128000; 160000; 192000; 224000; 256000; 320000];
  [0; 32000; 48000; 56000; 64000; 80000; 96000; 112000;
   128000; 144000; 160000; 176000; 192000; 224000; 256000];
  [0; 8000; 16000; 24000; 32000; 40000; 48000; 56000;
   64000; 80000; 96000; 112000; 128000; 144000; 160000]].

Definition samplerate_table : list Z := [44100; 48000; 32000].

Definition MAD_NSBSAMPLES (h : mad_header) : Z :=
  if layer h =? MAD_LAYER_I then 12
  else if (layer h =? MAD_LAYER_III) && bitset (flags h) MAD_FLAG_LSF_EXT then 18 else 36.

(** ** Streams *)

Definition mad_stream_init : mad_stream :=
  MkStream NULL 0 0 0 NULL NULL (mad_bit_init NULL) 0 MAD_ERROR_NONE.

(** The buffer is the whole of [mem]: [buffer] is offset 0. *)
Definition mad_stream_buffer (s : mad_stream) (length : Z) : mad_stream :=
  MkStream length (skiplen s) 1 (freerate s) 0 0 (mad_bit_init 0) (options s) (error s).

Section Frame.
Variable long_bits : Z.
Variable mem : list Z.

Abbreviation ulong := (wrapu long_bits).
Abbreviation read := (mad_bit_read long_bits mem).

Definition mad_stream_skip (s : mad_stream) (length : Z) : mad_stream :=
  set_skiplen s (ulong (skiplen s + length)).

(** [ptr[0] == 0xff && (ptr[1] & 0xe0) == 0xe0] *)
Definition sync_word (p : Z) : option bool :=
  b0 ← aget mem p;
  if b0 =? 0xff then b1 ← aget mem (p + 1); Some ((b1 .& 0xe0) =? 0xe0) else Some false.

(** The loop of [mad_stream_sync]: the first sync word, or [last]. *)
Fixpoint sync_search (fuel : nat) (last p : Z) : option Z :=
  match fuel with
  | O => None
  | S fuel => if p <? last then found ← sync_word p; if found : bool then Some p
                                else sync_search fuel last (p + 1)
              else Some p
  end.

Definition mad_stream_sync (s : mad_stream) : option (Z * mad_stream) :=
  let p := mad_bit_nextbyte (ptr s) in
  let last := bufend s - 1 in
  p ← sync_search (S (Z.to_nat (last - p))) last p;
  if bufend s - p <? MAD_BUFFER_GUARD then Some (-1, s)
  else Some (0, set_ptr s (mad_bit_init p)).

(** ** Headers *)

(** From the bit rate to the end of a header; [p] is the pointer. *)
Definition decode_header_rest (h : mad_header) (s : mad_stream) (p : mad_bitptr)
    : option (Z * mad_header * mad_stream) :=
  '(v, p) ← read p 1;
  let h := add_flag h (negb (v =? 0)) MAD_FLAG_PADDING in
  '(v, p) ← read p 1;
  let h := if negb (v =? 0) then set_flags h (flags h) (private_bits h .| MAD_PRIVATE_HEADER) else h in
  '(m, p) ← read p 2;
  '(e, p) ← read p 2;
  let h := set_modes h (3 - m) e in
  '(v, p) ← read p 1;
  let h := add_flag h (negb (v =? 0)) MAD_FLAG_COPYRIGHT in
  '(v, p) ← read p 1;
  let h := add_flag h (negb (v =? 0)) MAD_FLAG_ORIGINAL in
  '(v, p) ← read p 2;
  let h := set_emphasis h v in
  if bitset (flags h) MAD_FLAG_PROTECTION then
    '(v, p) ← read p 16; Some (0, set_crc h (crc_check h) v, set_ptr s p)
  else Some (0, h, set_ptr s p).

Definition decode_header (h : mad_header) (s : mad_stream) : option (Z * mad_header * mad_stream) :=
  let fail h p e := Some (-1, h, set_error (set_ptr s p) e) in
  let h := set_flags h 0 0 in
  p ← mad_bit_skip mem (ptr s) 11;
  '(v, p) ← read p 1;
  let h := add_flag h (v =? 0) MAD_FLAG_MPEG_2_5_EXT in
  '(v, p) ← read p 1;
  if negb (v =? 0) && bitset (flags h) MAD_FLAG_MPEG_2_5_EXT then fail h p MAD_ERROR_LOSTSYNC
  else
    let h := add_flag h (v =? 0) MAD_FLAG_LSF_EXT in
    '(v, p) ← read p 2;
    let h := set_layer h (4 - v) in
    if layer h =? 4 then fail h p MAD_ERROR_BADLAYER
    else
      '(v, p) ← read p 1;
      crc ← (if v =? 0 then mad_bit_crc long_bits mem p 16 0xffff else Some (crc_check h));
      let h := set_crc (add_flag h (v =? 0) MAD_FLAG_PROTECTION) crc (crc_target h) in
      '(index, p) ← read p 4;
      if index =? 15 then fail h p MAD_ERROR_BADBITRATE
      else
        row ← aget bitrate_table (if bitset (flags h) MAD_FLAG_LSF_EXT then 3 + (layer h .>> 1) else layer h - 1);
        rate ← aget row index;
        let h := set_bitrate h rate in
        '(index, p) ← read p 2;
        if index =? 3 then fail h p MAD_ERROR_BADSAMPLERATE
        else
          sr ← aget samplerate_table index;
          let sr := if bitset (flags h) MAD_FLAG_LSF_EXT then
                      if bitset (flags h) MAD_FLAG_MPEG_2_5_EXT then sr / 2 / 2 else sr / 2
                    else sr in
          decode_header_rest (set_samplerate h sr) s p.

Definition pad_slot (h : mad_header) : Z := if bitset (flags h) MAD_FLAG_PADDING then 1 else 0.

Definition slots_per_frame (h : mad_header) : Z :=
  if (layer h =? MAD_LAYER_III) && bitset (flags h) MAD_FLAG_LSF_EXT then 72 else 144.

(** The rate for a distance of [n] bytes between two headers. *)
Definition free_rate (h : mad_header) (n : Z) : Z :=
  if layer h =? MAD_LAYER_I
  then ulong (samplerate h * u32 (n - 4 * pad_slot h + 4)) / 48 / 1000
  else ulong (samplerate h * u32 (n - pad_slot h + 1)) / slots_per_frame h / 1000.

(** The loop of [free_bitrate]: the rate found, in kbit/s. *)
Fixpoint free_search (fuel : nat) (h : mad_header) (s : mad_stream) (rate : Z) : option Z :=
  match fuel with
  | O => None
  | S fuel =>
      '(r, s) ← mad_stream_sync s;
      if negb (r =? 0) then Some rate
      else
        '(r, peek_header, _) ← decode_header h s;
        let rate :=
          if (r =? 0) && (layer peek_header =? layer h) && (samplerate peek_header =? samplerate h)
          then free_rate h (u32 (mad_bit_nextbyte (ptr s) - this_frame s)) else rate in
        if (r =? 0) && (layer peek_header =? layer h) && (samplerate peek_header =? samplerate h) && (8 <=? rate)
        then Some rate
        else p ← mad_bit_skip mem (ptr s) 8; free_search fuel h (set_ptr s p) rate
  end.

Definition free_bitrate (s : mad_stream) (h : mad_header) : option (Z * mad_stream) :=
  rate ← free_search (S (S (Z.to_nat (bufend s)))) h s 0;
  if (rate <? 8) || ((layer h =? MAD_LAYER_III) && (640 <? rate))
  then Some (-1, set_error s MAD_ERROR_LOSTSYNC)
  else Some (0, set_freerate s (ulong (rate * 1000))).

(** The length of a frame in bytes. *)
Definition frame_length (h : mad_header) : Z :=
  if layer h =? MAD_LAYER_I
  then u32 (ulong (ulong (ulong (12 * bitrate h) / samplerate h + pad_slot h) * 4))
  else u32 (ulong (ulong (slots_per_frame h * bitrate h) / samplerate h + pad_slot h)).

Definition fail (h : mad_header) (s : mad_stream) (e : Z) : option (Z * mad_header * mad_stream) :=
  Some (-1, h, set_sync (set_error s e) 0).

(** Where the frame at the sync point starts, or the error. *)
Definition synchronize (s : mad_stream) (p : Z) : option (option Z * mad_stream) :=
  if negb (sync s =? 0) then
    if bufend s - p <? MAD_BUFFER_GUARD then
      Some (None, set_error (set_frames s (this_frame s) p) MAD_ERROR_BUFLEN)
    else
      found ← sync_word p;
      if found : bool then Some (Some p, s)
      else Some (None, set_error (set_frames s p (p + 1)) MAD_ERROR_LOSTSYNC)
  else
    '(r, s) ← mad_stream_sync (set_ptr s (mad_bit_init p));
    if r =? -1 then
      let next := if MAD_BUFFER_GUARD <=? bufend s - next_frame s then bufend s - MAD_BUFFER_GUARD
                  else next_frame s in
      Some (None, set_error (set_frames s (this_frame s) next) MAD_ERROR_BUFLEN)
    else Some (Some (mad_bit_nextbyte (ptr s)), s).

(** The bit rate of a free format frame: the header is completed, or it is an
    error. *)
Definition free_format (h : mad_header) (s : mad_stream) : option (Z * mad_header * mad_stream) :=
  if bitrate h =? 0 then
    '(r, s) ← (if (freerate s =? 0) || (sync s =? 0) ||
                 ((layer h =? MAD_LAYER_III) && (640000 <? freerate s))
               then free_bitrate s h else Some (0, s));
    if r =? -1 then Some (-1, h, s)
    else Some (0, add_flag (set_bitrate h (freerate s)) true MAD_FLAG_FREEFORMAT, s)
  else Some (0, h, s).

(** From the label [sync]; [goto sync] is the recursive call.  Each round starts
    at a later byte, so the length of the buffer is enough fuel. *)
Fixpoint header_from (fuel : nat) (h : mad_header) (s : mad_stream) (p : Z)
    : option (Z * mad_header * mad_stream) :=
  match fuel with
  | O => None
  | S fuel =>
      '(start, s) ← synchronize s p;
      match start with
      | None => Some (-1, h, set_sync s 0)
      | Some p =>
          let s := set_ptr (set_frames s p (p + 1)) (mad_bit_init p) in
          '(r, h, s) ← decode_header h s;
          if r =? -1 then Some (-1, h, set_sync s 0)
          else
            d ← mad_timer_set long_bits 0 (32 * MAD_NSBSAMPLES h) (samplerate h);
            let h := set_duration h d in
            '(r, h, s) ← free_format h s;
            if r =? -1 then Some (-1, h, set_sync s 0)
            else
              let N := frame_length h in
              if bufend s - this_frame s <? s32 (u32 (N + MAD_BUFFER_GUARD)) then
                fail h (set_frames s (this_frame s) (this_frame s)) MAD_ERROR_BUFLEN
              else
                let next := this_frame s + N in
                found ← sync_word next;
                if found : bool then
                  Some (0, add_flag h true MAD_FLAG_INCOMPLETE, set_sync (set_frames s (this_frame s) next) 1)
                else
                  header_from fuel h (set_frames s (this_frame s) (this_frame s + 1)) (this_frame s + 1)
      end
  end.

Definition mad_header_decode (h : mad_header) (s : mad_stream) : option (Z * mad_header * mad_stream) :=
  let p := next_frame s in
  if p =? NULL then fail h s MAD_ERROR_BUFPTR
  else
    let fuel := S (S (Z.to_nat (bufend s))) in
    if negb (skiplen s =? 0) then
      let p := if sync s =? 0 then this_frame s else p in
      if bufend s - p <? s32 (skiplen s) then
        fail h (set_frames (set_skiplen s (ulong (skiplen s - (bufend s - p)))) (this_frame s) (bufend s))
          MAD_ERROR_BUFLEN
      else header_from fuel h (set_sync (set_skiplen s 0) 1) (p + skiplen s)
    else header_from fuel h s p.
End Frame.

(** ** Decoding a header *)

Definition sample_rates : list Z := [44100; 48000; 32000; 22050; 24000; 16000; 11025; 12000; 8000].

Definition sr_ok (v : Z) : Prop := v ∈ sample_rates.

Definition bitrate_ok (v : Z) : Prop := v = 0 \/ 8000 <= v <= 448000.

(** Two streams that differ in their pointer and error at most. *)
Definition same_position (s s' : mad_stream) : Prop :=
  bufend s' = bufend s /\ skiplen s' = skiplen s /\ sync s' = sync s /\ freerate s' = freerate s /\
  this_frame s' = this_frame s /\ next_frame s' = next_frame s /\ options s' = options s.

Lemma bitset_lor f m k : m .& k = 0 -> bitset (f .| m) k = bitset f k.
Proof. intros E. unfold bitset. by rewrite Z.land_lor_distr_l, E, Z.lor_0_r. Qed.

(** What a decoded header says of its version, and the ranges of its fields. *)
Record header_coded (h : mad_header) : Prop := HeaderCoded {
  hc_version : exists index v, aget samplerate_table index = Some v /\
    (bitset (flags h) MAD_FLAG_MPEG_2_5_EXT = true -> bitset (flags h) MAD_FLAG_LSF_EXT = true) /\
    samplerate h = if bitset (flags h) MAD_FLAG_LSF_EXT then if bitset (flags h) MAD_FLAG_MPEG_2_5_EXT then v / 2 / 2 else v / 2 else v;
  hc_mode : 0 <= mode h < 4;
  hc_extension : 0 <= mode_extension h < 4;
  hc_crc : bitset (flags h) MAD_FLAG_PROTECTION = true -> 0 <= crc_check h < 2 ^ 16
}.

(** Flags that say nothing of the version or of a CRC. *)
Definition unversioned (m : Z) : Prop :=
  m .& MAD_FLAG_LSF_EXT = 0 /\ m .& MAD_FLAG_MPEG_2_5_EXT = 0 /\ m .& MAD_FLAG_PROTECTION = 0.

Definition same_version (f f' : Z) : Prop :=
  bitset f' MAD_FLAG_LSF_EXT = bitset f MAD_FLAG_LSF_EXT /\ bitset f' MAD_FLAG_MPEG_2_5_EXT = bitset f MAD_FLAG_MPEG_2_5_EXT /\
  bitset f' MAD_FLAG_PROTECTION = bitset f MAD_FLAG_PROTECTION.

Lemma version_flag f m : unversioned m -> same_version f (f .| m).
Proof. intros (H1&H2&H3). unfold same_version. by rewrite !bitset_lor. Qed.

Lemma coded_same h h' : same_version (flags h) (flags h') -> samplerate h' = samplerate h -> mode h' = mode h -> mode_extension h' = mode_extension h ->
  crc_check h' = crc_check h -> header_coded h -> header_coded h'.
Proof. intros (F1&F2&F3) E1 E2 E3 E4 [H1 H2 H3 H4]. split; rewrite ?F1, ?F2, ?F3, ?E1, ?E2, ?E3, ?E4; done. Qed.

Section Header.
Variables (W : Z) (mem : list Z).
Hypotheses (HW : 32 <= W) (Hmem : bytes_ok mem).

(** One read of the code, at a pointer of the context. *)
Ltac read_step p len :=
  let p' := fresh "p" in let E := fresh "E" in
  let Hok := fresh "Hok" in let Hpos := fresh "Hpos" in
  destruct (read_exact W mem HW Hmem p len) as (p'&E&Hok&Hpos); [done|lia|lia|];
  rewrite E; clear E; cbn [mbind option_bind].

Lemma bitrate_lookup i index : 0 <= i < 5 -> 0 <= index < 15 ->
  exists row v, aget bitrate_table i = Some row /\ aget row index = Some v /\ bitrate_ok v.
Proof.
  intros Hi Hx.
  assert (forall k, 0 <= k < 75 -> (match aget bitrate_table (k / 15) with
    | Some row => match aget row (k mod 15) with
                  | Some v => (v =? 0) || (8000 <=? v) && (v <=? 448000) | None => false end
    | None => false end) = true) as H.
  { apply (forall_range _ 0 75). vm_compute. reflexivity. }
  specialize (H (15 * i + index) ltac:(lia)).
  replace ((15 * i + index) / 15) with i in H by zdiv.
  replace ((15 * i + index) mod 15) with index in H by zdiv.
  destruct (aget bitrate_table i) as [row|]; [|done]. destruct (aget row index) as [v|] eqn:E; [|done].
  exists row, v. split; [done|]. split; [done|]. unfold bitrate_ok.
  destruct (Z.eqb_spec v 0); [by left|]. right. cbn [orb] in H. zbool. lia.
Qed.

Lemma samplerate_lookup index (lsf ext : bool) : 0 <= index < 3 ->
  exists v, aget samplerate_table index = Some v /\
    sr_ok (if lsf then if ext then v / 2 / 2 else v / 2 else v).
Proof.
  intros Hi. assert (index = 0 \/ index = 1 \/ index = 2) as [->|[->| ->]] by lia;
    (eexists; split; [reflexivity|]); destruct lsf, ext; apply (bool_decide_unpack _); vm_compute; exact I.
Qed.

Lemma same_position_ptr s p : same_position s (set_ptr s p).
Proof. done. Qed.

Lemma decode_header_rest_safe h s p : bitptr_ok mem p -> pos p + 26 <= 8 * zlen mem ->
  exists h' s', decode_header_rest W mem h s p = Some (0, h', s') /\ same_position s s' /\
    layer h' = layer h /\ samplerate h' = samplerate h /\ bitrate h' = bitrate h /\
    bitptr_ok mem (ptr s') /\ pos p + 10 <= pos (ptr s') <= pos p + 26 /\
    (pos (ptr s') = pos p + 10 \/ pos (ptr s') = pos p + 26) /\
    same_version (flags h) (flags h') /\ 0 <= mode h' < 4 /\ 0 <= mode_extension h' < 4 /\ crc_check h' = crc_check h.
Proof.
  intros Hp Hl. unfold decode_header_rest.
  read_step p 1. read_step p0 1. read_step p1 2. read_step p2 2. read_step p3 1. read_step p4 1. read_step p5 2.
  pose proof (bits_range mem (pos p1) 2 ltac:(lia)) as Hm. pose proof (bits_range mem (pos p2) 2 ltac:(lia)) as He.
  change (2 ^ 2) with 4 in Hm, He. unfold add_flag.
  repeat match goal with |- context [if negb (?v =? 0) then _ else _] => destruct (negb (v =? 0)) end;
    (match goal with |- context [if ?b then _ else _] => destruct b end;
     [read_step p6 16|]; eexists _, _; (split; [done|]); cbn; (do 5 (split; [done|])); (split; [lia|]); (split; [lia|]);
     (split; [unfold same_version; by rewrite ?bitset_lor|]); (split; [lia|done])).
Qed.

Lemma decode_header_safe h s p : 0 <= p -> p + 8 <= zlen mem -> bitptr_ok mem (ptr s) -> pos (ptr s) = 8 * p ->
  exists r h' s', decode_header W mem h s = Some (r, h', s') /\ same_position s s' /\
    (r = -1 /\ error s' <> MAD_ERROR_NONE \/
     r = 0 /\ 1 <= layer h' <= 3 /\ sr_ok (samplerate h') /\ bitrate_ok (bitrate h') /\
     bitptr_ok mem (ptr s') /\ 8 * p + 32 <= pos (ptr s') <= 8 * p + 48 /\
     (pos (ptr s') = 8 * p + 32 \/ pos (ptr s') = 8 * p + 48) /\ header_coded h').
Proof.
  intros H0 Hl Hp Hpos. unfold decode_header.
  destruct (bit_skip_spec mem (ptr s) 11) as (p0&->&Hp0&Hpos0); [done|lia|lia|]. cbn [mbind option_bind].
  read_step p0 1. read_step p1 1.
  match goal with |- context [if ?b then _ else _] => destruct b eqn:Ever end.
  { eexists _, _, _. split; [done|]. split; [done|]. by left. }
  read_step p2 2. pose proof (bits_range mem (pos p2) 2 ltac:(lia)) as Hv. change (2 ^ 2) with 4 in Hv.
  set (v := bits mem (pos p2) 2) in *. cbn [layer set_layer].
  destruct (Z.eqb_spec (4 - v) 4) as [E4|E4].
  { eexists _, _, _. split; [done|]. split; [done|]. by left. }
  read_step p3 1.
  match goal with |- context [mad_bit_crc W mem ?q 16 _] =>
    rewrite (bit_crc_spec W mem q 16 0xffff) by (done || lia) end.
  match goal with |- context [if ?b then Some ?x else Some ?y] =>
    replace (if b then Some x else Some y) with (Some (if b then x else y)) by (by destruct b) end.
  cbn [mbind option_bind].
  read_step p4 4. pose proof (bits_range mem (pos p4) 4 ltac:(lia)) as Hi. change (2 ^ 4) with 16 in Hi.
  set (index := bits mem (pos p4) 4) in *.
  destruct (Z.eqb_spec index 15) as [E15|E15].
  { eexists _, _, _. split; [done|]. split; [done|]. by left. }
  match goal with |- context [aget bitrate_table ?i] => set (row := i) end.
  assert (0 <= row < 5) as Hrow.
  { unfold row. assert (forall hh b f, layer (add_flag hh b f) = layer hh) as Ea by (intros ? [] ?; done).
    cbn [layer set_crc]. rewrite Ea. cbn [layer set_layer].
    match goal with |- context [if ?b then _ else _] => destruct b end; [|lia].
    rewrite Z.shiftr_div_pow2 by lia. change (2 ^ 1) with 2. zdiv. }
  destruct (bitrate_lookup row index Hrow ltac:(lia)) as (l&rate&->&Er&Hrate). cbn [mbind option_bind].
  rewrite Er. cbn [mbind option_bind].
  read_step p5 2. pose proof (bits_range mem (pos p5) 2 ltac:(lia)) as Hi2. change (2 ^ 2) with 4 in Hi2.
  set (index2 := bits mem (pos p5) 2) in *.
  destruct (Z.eqb_spec index2 3) as [E3|E3].
  { eexists _, _, _. split; [done|]. split; [done|]. by left. }
  match goal with |- context [if bitset ?f MAD_FLAG_LSF_EXT then if bitset ?g _ then _ else _ else _] =>
    destruct (samplerate_lookup index2 (bitset f MAD_FLAG_LSF_EXT) (bitset g MAD_FLAG_MPEG_2_5_EXT) ltac:(lia))
      as (sr&Esr&Hsr) end.
  rewrite Esr.  cbn [mbind option_bind].
  match goal with |- context [decode_header_rest W mem ?hh s p6] =>
    destruct (decode_header_rest_safe hh s p6) as (h'&s'&->&Hsame&Hlay&Hsr'&Hbr&Hok'&Hpos'&Halign&Hversion&Hmode&Hext&Hcrc); [done|lia|] end.
  eexists _, _, _. split; [done|]. split; [done|]. right. split; [done|].
  rewrite Hlay, Hsr', Hbr. split; [|split; [done|split; [done|split; [done|split; [lia|split; [lia|]]]]]].
  2: { destruct Hversion as (F1&F2&F3). split; [|done|done|].
    - exists index2, sr. rewrite F1, F2, Hsr'. split; [done|]. split; [|done]. revert Ever.
      by destruct (bits mem (pos p0) 1 =? 0), (bits mem (pos p1) 1 =? 0), (bits mem (pos p3) 1 =? 0).
    - rewrite F3, Hcrc. destruct (bits mem (pos p3) 1 =? 0); cbn [crc_check set_crc]; [intros _; by apply crc16_range|].
      by destruct (bits mem (pos p0) 1 =? 0), (bits mem (pos p1) 1 =? 0). }
  assert (forall hh b f, layer (add_flag hh b f) = layer hh) as Ea by (intros ? [] ?; done).
  cbn [layer set_crc set_samplerate set_bitrate]. rewrite Ea. cbn [layer set_layer]. lia.
Qed.
End Header.

(** ** Finding a frame *)

(** Flags the length and the duration of a frame do not depend on. *)
Definition neutral (m : Z) : Prop := m .& MAD_FLAG_LSF_EXT = 0 /\ m .& MAD_FLAG_PADDING = 0.

Lemma pad_slot_neutral h m : neutral m -> pad_slot (add_flag h true m) = pad_slot h.
Proof. intros [_ E]. unfold pad_slot. cbn. by rewrite bitset_lor. Qed.

Lemma slots_neutral h m : neutral m -> slots_per_frame (add_flag h true m) = slots_per_frame h.
Proof. intros [E _]. unfold slots_per_frame. cbn. by rewrite bitset_lor. Qed.

Lemma samples_neutral h m : neutral m -> MAD_NSBSAMPLES (add_flag h true m) = MAD_NSBSAMPLES h.
Proof. intros [E _]. unfold MAD_NSBSAMPLES. cbn. by rewrite bitset_lor. Qed.

Lemma frame_length_neutral W h m : neutral m -> frame_length W (add_flag h true m) = frame_length W h.
Proof. intros E. unfold frame_length. by rewrite pad_slot_neutral, slots_neutral. Qed.

Lemma sr_range v : sr_ok v -> 8000 <= v <= 48000 /\ (v | MAD_TIMER_RESOLUTION).
Proof.
  unfold sr_ok. intros Hin%list_elem_of_In.
  assert (forallb (fun v => (8000 <=? v) && (v <=? 48000) && (MAD_TIMER_RESOLUTION mod v =? 0)) sample_rates = true)
    as H by reflexivity.
  rewrite forallb_forall in H. specialize (H v Hin). zbool. split; [lia|]. apply Z.mod_divide; [lia|done].
Qed.

(** The largest input for which the arithmetic on rates does not overflow: one
    megabyte, or 29826 bytes with a 32-bit [long]. *)
Definition max_buffer (W : Z) : Z := Z.min (2 ^ 20) ((2 ^ W - 1) / 144000).

Definition freerate_ok (W f : Z) : Prop := f = 0 \/ 8000 <= f <= 1000 * max_buffer W.

Definition limits_ok (W : Z) (s : mad_stream) : Prop :=
  freerate_ok W (freerate s) /\ 0 <= skiplen s < 2 ^ 31.

Definition stream_ok (W : Z) (mem : list Z) (s : mad_stream) : Prop :=
  bufend s = zlen mem /\ 0 <= this_frame s <= zlen mem /\ 0 <= next_frame s <= zlen mem /\
  limits_ok W s.

(** The frame [mad_header_decode] reports. *)
Record frame_found (W : Z) (mem : list Z) (h : mad_header) (s : mad_stream) : Prop := FrameFound {
  ff_sync : sync s = 1;
  ff_this : sync_word mem (this_frame s) = Some true;
  ff_next : sync_word mem (next_frame s) = Some true;
  ff_length : next_frame s = this_frame s + frame_length W h /\ 8 <= frame_length W h;
  ff_guard : next_frame s + MAD_BUFFER_GUARD <= bufend s;
  ff_layer : 1 <= layer h <= 3;
  ff_duration : tval (duration h) * samplerate h = 32 * MAD_NSBSAMPLES h * MAD_TIMER_RESOLUTION;
  ff_coded : header_coded h;
  ff_ptr : bitptr_ok mem (ptr s) /\ (pos (ptr s) = 8 * this_frame s + 32 \/ pos (ptr s) = 8 * this_frame s + 48)
}.

Definition header_post (W : Z) (mem : list Z) (r : Z) (h : mad_header) (s : mad_stream) : Prop :=
  stream_ok W mem s /\
  (r = -1 /\ sync s = 0 /\ error s <> MAD_ERROR_NONE \/ r = 0 /\ frame_found W mem h s).

Section Search.
Variables (W : Z) (mem : list Z).
Hypotheses (HW : 32 <= W) (Hmem : bytes_ok mem) (Hsize : zlen mem <= max_buffer W).

Lemma max_buffer_spec : max_buffer W <= 2 ^ 20 /\ 144000 * max_buffer W < 2 ^ W /\ 2 ^ 32 <= 2 ^ W.
Proof using HW.
  clear Hsize Hmem mem.
  unfold max_buffer. assert (2 ^ 32 <= 2 ^ W) by (apply Z.pow_le_mono_r; lia).
  set (P := 2 ^ W) in *. clearbody P. split; [lia|]. split; [|done]. zdiv.
Qed.

Lemma sync_word_safe p : 0 <= p -> p + 1 < zlen mem -> exists b, sync_word mem p = Some b.
Proof.
  intros H0 Hl. unfold sync_word. destruct (aget_Some mem p) as [b0 ->]; [lia|]. cbn [mbind option_bind].
  destruct (b0 =? 0xff); [|by eexists]. destruct (aget_Some mem (p + 1)) as [b1 ->]; [lia|]. by eexists.
Qed.

Lemma frame_search_spec (fuel : nat) : forall last p, 0 <= p -> last < zlen mem -> last - p < Z.of_nat fuel ->
  (0 < fuel)%nat ->
  exists q, sync_search mem fuel last p = Some q /\ p <= q <= Z.max p last /\
    (q < last -> sync_word mem q = Some true) /\
    (forall k, p <= k < q -> sync_word mem k = Some false).
Proof.
  induction fuel as [|fuel IH]; intros last p H0 Hl Hf Hpos; [lia|]. cbn [sync_search].
  destruct (Z.ltb_spec p last) as [Hlt|Hge].
  - destruct (sync_word_safe p) as [b Eb]; [lia|lia|]. rewrite Eb. cbn [mbind option_bind]. destruct b.
    + exists p. split; [done|]. split; [lia|]. split; [done|]. intros k Hk. lia.
    + destruct fuel as [|fuel]; [lia|].
      destruct (IH last (p + 1)) as (q&->&Hq&Hqt&Hqf); [lia|lia|lia|lia|].
      exists q. split; [done|]. split; [lia|]. split; [done|]. intros k Hk.
      destruct (decide (k = p)) as [->|]; [done|]. apply Hqf. lia.
  - exists p. split; [done|]. split; [lia|]. split; [lia|]. intros k Hk. lia.
Qed.

(** [mad_stream_sync] finds the first sync word, if it is not too near the end. *)
Lemma stream_sync_spec s p : bitptr_ok mem (ptr s) -> bufend s = zlen mem -> mad_bit_nextbyte (ptr s) = p ->
  0 <= p <= zlen mem ->
  exists q, p <= q <= zlen mem /\ (forall k, p <= k < q -> k + 1 < zlen mem -> sync_word mem k = Some false) /\
    (mad_stream_sync mem s = Some (-1, s) /\ zlen mem - q < 8 \/
     mad_stream_sync mem s = Some (0, set_ptr s (mad_bit_init q)) /\ q + 8 <= zlen mem /\
     sync_word mem q = Some true).
Proof.
  intros Hp He <- Hr. unfold mad_stream_sync. rewrite He. set (p := mad_bit_nextbyte (ptr s)) in *.
  destruct (frame_search_spec (S (Z.to_nat (zlen mem - 1 - p))) (zlen mem - 1) p) as (q&->&Hq&Ht&Hf);
    [lia|lia|lia|lia|]. cbn [mbind option_bind]. exists q. split; [lia|].
  split; [intros k Hk _; by apply Hf|]. unfold MAD_BUFFER_GUARD. destruct (Z.ltb_spec (zlen mem - q) 8).
  - by left.
  - right. split; [done|]. split; [lia|]. apply Ht. lia.
Qed.

Lemma free_rate_bounds h n : sr_ok (samplerate h) -> 4 <= n -> n + 8 <= zlen mem ->
  0 <= free_rate W h n <= zlen mem.
Proof.
  intros Hsr Hn Hl. destruct (sr_range _ Hsr) as [Hr _]. pose proof max_buffer_spec as (M1&M2&M3).
  assert (0 <= pad_slot h <= 1) as Hpad by (unfold pad_slot; destruct (bitset _ _); lia).
  assert (forall k d, 0 <= k <= zlen mem -> 48 <= d ->
    0 <= wrapu W (samplerate h * u32 k) / d / 1000 <= zlen mem) as H.
  { intros k d Hk Hd. rewrite (wrapu_small 32) by lia. rewrite wrapu_small by nia.
    assert (0 <= samplerate h * k / d) by (apply Z.div_pos; nia).
    split; [apply Z.div_pos; lia|]. apply Z.div_le_upper_bound; [lia|].
    apply Z.div_le_upper_bound; [lia|]. nia. }
  unfold free_rate, slots_per_frame. destruct (layer h =? MAD_LAYER_I); [apply H; lia|].
  destruct (_ && _); apply H; lia.
Qed.

Lemma free_search_safe (fuel : nat) : forall h s rate, sr_ok (samplerate h) -> bufend s = zlen mem ->
  bitptr_ok mem (ptr s) -> 0 <= this_frame s -> this_frame s + 4 <= mad_bit_nextbyte (ptr s) <= zlen mem ->
  zlen mem - mad_bit_nextbyte (ptr s) + 1 < Z.of_nat fuel -> 0 <= rate <= zlen mem ->
  exists rate', free_search W mem fuel h s rate = Some rate' /\ 0 <= rate' <= zlen mem.
Proof.
  induction fuel as [|fuel IH]; intros h s rate Hsr He Hp Ht Hn Hf Hr; [lia|]. cbn [free_search].
  destruct (stream_sync_spec s (mad_bit_nextbyte (ptr s)) Hp He eq_refl ltac:(lia)) as
    (q&Hq&_&[[-> Hend]|(->&Hend&_)]); cbn [mbind option_bind].
  { exists rate. done. }
  destruct (bit_init_ok mem q ltac:(lia)) as [Hqi Hqp].
  destruct (decode_header_safe W mem HW Hmem h (set_ptr s (mad_bit_init q)) q ltac:(lia) ltac:(lia) Hqi Hqp)
    as (r&h'&s'&->&_&_). cbn [mbind option_bind]. change (negb (0 =? 0)) with false. cbv iota.
  cbn [ptr set_ptr this_frame]. change (mad_bit_nextbyte (mad_bit_init q)) with q.
  rewrite (wrapu_small 32 (q - this_frame s)) by (pose proof max_buffer_spec; lia).
  set (good := (r =? 0) && (layer h' =? layer h) && (samplerate h' =? samplerate h)).
  assert (0 <= (if good then free_rate W h (q - this_frame s) else rate) <= zlen mem) as Hrate.
  { destruct good; [|done]. apply free_rate_bounds; [done|lia|lia]. }
  set (rate' := if good then _ else rate) in *. destruct (good && (8 <=? rate')).
  { exists rate'. done. }
  destruct (bit_skip_spec mem (mad_bit_init q) 8 Hqi ltac:(lia) ltac:(lia)) as (p'&->&Hp'&Hpos').
  cbn [mbind option_bind]. pose proof (nextbyte_spec mem p' Hp') as En. rewrite Hpos', Hqp in En.
  replace ((8 * q + 8 + 7) / 8) with (q + 1) in En by zdiv.
  apply IH; cbn [ptr set_ptr set_frames bufend this_frame]; [done..|lia|lia|done].
Qed.

Lemma free_bitrate_safe h s : sr_ok (samplerate h) -> bufend s = zlen mem -> bitptr_ok mem (ptr s) ->
  0 <= this_frame s -> this_frame s + 4 <= mad_bit_nextbyte (ptr s) <= zlen mem ->
  exists r s', free_bitrate W mem s h = Some (r, s') /\
    (r = -1 /\ s' = set_error s MAD_ERROR_LOSTSYNC \/
     exists f, r = 0 /\ s' = set_freerate s f /\ 8000 <= f <= 1000 * max_buffer W).
Proof.
  intros Hsr He Hp Ht Hn. unfold free_bitrate. rewrite He. pose proof max_buffer_spec as (M1&M2&M3).
  destruct (free_search_safe (S (S (Z.to_nat (zlen mem)))) h s 0 Hsr He Hp Ht Hn) as (rate&->&Hr);
    [lia|lia|]. cbn [mbind option_bind].
  destruct (Z.ltb_spec rate 8) as [H8|H8]; cbn [orb].
  { eexists _, _. split; [done|]. by left. }
  match goal with |- context [if ?b then _ else _] => destruct b end.
  { eexists _, _. split; [done|]. by left. }
  eexists _, _. split; [done|]. right. eexists. split; [done|]. split; [done|].
  rewrite wrapu_small by lia. lia.
Qed.

(** The length of a frame, without wrap-around. *)
Definition length_of (h : mad_header) : Z :=
  if layer h =? MAD_LAYER_I then (12 * bitrate h / samplerate h + pad_slot h) * 4
  else slots_per_frame h * bitrate h / samplerate h + pad_slot h.

Lemma frame_length_spec h : sr_ok (samplerate h) ->
  8000 <= bitrate h <= 448000 \/ 8000 <= bitrate h <= 1000 * max_buffer W ->
  frame_length W h = length_of h /\ 8 <= length_of h < 2 ^ 30.
Proof using HW.
  clear Hsize Hmem mem.
  intros Hsr Hb. destruct (sr_range _ Hsr) as [Hr _]. pose proof max_buffer_spec as (M1&M2&M3).
  assert (0 <= pad_slot h <= 1) as Hpad by (unfold pad_slot; destruct (bitset _ _); lia).
  assert (8000 <= bitrate h <= 1000 * 2 ^ 20 /\ 144 * bitrate h < 2 ^ W) as [Hb1 Hb2] by lia. clear Hb.
  assert (forall k, 12 <= k <= 144 -> wrapu W (k * bitrate h) = k * bitrate h /\
    2 <= k * bitrate h / samplerate h <= 20000000 /\ (72 <= k -> 8 <= k * bitrate h / samplerate h)) as H.
  { intros k Hk. split; [apply wrapu_small; nia|]. split.
    - split; [apply Z.div_le_lower_bound; nia|]. apply Z.div_le_upper_bound; nia.
    - intros. apply Z.div_le_lower_bound; nia. }
  unfold frame_length, length_of. destruct (layer h =? MAD_LAYER_I).
  - destruct (H 12) as (->&H12&_); [lia|]. rewrite (wrapu_small W (_ + _)) by lia.
    rewrite (wrapu_small W) by lia. rewrite wrapu_small by lia. lia.
  - assert (12 <= slots_per_frame h <= 144 /\ 72 <= slots_per_frame h) as [Hs Hs']
      by (unfold slots_per_frame; destruct (_ && _); lia).
    destruct (H _ Hs) as (->&H1&H2). specialize (H2 Hs'). rewrite (wrapu_small W (_ + _)) by lia.
    rewrite wrapu_small by lia. lia.
Qed.

Lemma duration_spec h : sr_ok (samplerate h) ->
  exists t, mad_timer_set W 0 (32 * MAD_NSBSAMPLES h) (samplerate h) = Some t /\
    tval t * samplerate h = 32 * MAD_NSBSAMPLES h * MAD_TIMER_RESOLUTION.
Proof using HW.
  clear Hsize Hmem mem.
  intros Hsr. destruct (sr_range _ Hsr) as [Hr Hd]. pose proof max_buffer_spec as (_&_&M3).
  assert (12 <= MAD_NSBSAMPLES h <= 36) as Hn
    by (unfold MAD_NSBSAMPLES; destruct (_ =? _); [lia|destruct (_ && _); lia]).
  assert (2 ^ 31 <= 2 ^ (W - 1)) by (apply Z.pow_le_mono_r; lia).
  destruct (set_spec W HW 0 (32 * MAD_NSBSAMPLES h) (samplerate h)) as (t&Et&_&Ev); [lia|done|lia|lia| |].
  { assert (32 * MAD_NSBSAMPLES h / samplerate h <= 1152) by (apply Z.div_le_upper_bound; nia). lia. }
  exists t. split; [done|]. rewrite Ev. lia.
Qed.
End Search.

Section Decode.
Variables (W : Z) (mem : list Z).
Hypotheses (HW : 32 <= W) (Hmem : bytes_ok mem) (Hsize : zlen mem <= max_buffer W).

(** Synchronisation: an error, or a sync word with room for a header behind it. *)
Lemma synchronize_safe s p : stream_ok W mem s -> 0 <= p <= zlen mem ->
  exists start s', synchronize mem s p = Some (start, s') /\ stream_ok W mem s' /\
    match start with
    | None => error s' <> MAD_ERROR_NONE
    | Some q => p <= q /\ q + 8 <= zlen mem /\ sync_word mem q = Some true
    end.
Proof.
  intros (He&Ht&Hn&Hf) Hp. unfold synchronize. rewrite He. unfold MAD_BUFFER_GUARD.
  destruct (negb (sync s =? 0)).
  - destruct (Z.ltb_spec (zlen mem - p) 8).
    { eexists _, _. split; [done|]. split; [|done]. split; [done|]. cbn. done. }
    destruct (sync_word_safe mem p) as [b Eb]; [lia|lia|]. rewrite Eb. cbn [mbind option_bind]. destruct b.
    + eexists _, _. split; [done|]. split; [done|]. split; [lia|]. split; [lia|done].
    + eexists _, _. split; [done|]. split; [|done]. split; [done|]. cbn. split; [lia|]. split; [lia|done].
  - destruct (bit_init_ok mem p ltac:(lia)) as [Hpi Hpp].
    destruct (stream_sync_spec mem (set_ptr s (mad_bit_init p)) p Hpi He eq_refl Hp) as
      (q&Hq&_&[[-> Hend]|(->&Hend&Hw)]); cbn [mbind option_bind].
    + change (-1 =? -1) with true. cbv iota. eexists _, _. split; [done|]. cbn [next_frame set_ptr].
      split; [|done]. split; [done|]. cbn. split; [lia|]. split; [|done].
      rewrite He. destruct (Z.leb_spec 8 (zlen mem - next_frame s)); lia.
    + change (0 =? -1) with false. cbv iota. eexists _, _. split; [done|]. split; [done|].
      change (mad_bit_nextbyte _) with q. split; [lia|]. split; [lia|done].
Qed.

Lemma free_format_safe h s : stream_ok W mem s -> sr_ok (samplerate h) -> bitrate_ok (bitrate h) ->
  bitptr_ok mem (ptr s) -> this_frame s + 4 <= mad_bit_nextbyte (ptr s) <= zlen mem ->
  exists r h' s', free_format W mem h s = Some (r, h', s') /\ stream_ok W mem s' /\
    this_frame s' = this_frame s /\
    (r = -1 /\ error s' <> MAD_ERROR_NONE \/
     r = 0 /\ samplerate h' = samplerate h /\ layer h' = layer h /\ duration h' = duration h /\
     MAD_NSBSAMPLES h' = MAD_NSBSAMPLES h /\
     (8000 <= bitrate h' <= 448000 \/ 8000 <= bitrate h' <= 1000 * max_buffer W) /\
     ptr s' = ptr s /\ (header_coded h -> header_coded h')).
Proof.
  intros (He&Ht&Hn&Hf) Hsr Hb Hp Hnext. unfold free_format.
  destruct (Z.eqb_spec (bitrate h) 0) as [E0|E0].
  - destruct (_ || _) eqn:Ec.
    + destruct (free_bitrate_safe W mem HW Hmem Hsize h s Hsr He Hp (proj1 Ht) Hnext) as
        (r&s'&->&[[-> ->]|(f&->&->&Hfr)]); cbn [mbind option_bind].
      * change (-1 =? -1) with true. cbv iota. eexists _, _, _. split; [done|]. split; [done|].
        split; [done|]. by left.
      * change (0 =? -1) with false. cbv iota. eexists _, _, _. split; [done|].
        split; [split; [done|]; split; [done|]; split; [done|split; [by right|apply Hf]]|]. split; [done|]. right.
        split; [done|]. split; [done|]. split; [done|]. split; [done|].
        split; [by rewrite samples_neutral|]. split; [by right|]. split; [done|]. apply coded_same; try done. by apply version_flag.
    + cbn [mbind option_bind]. change (0 =? -1) with false. cbv iota. eexists _, _, _. split; [done|].
      split; [done|]. split; [done|]. right. split; [done|]. split; [done|]. split; [done|]. split; [done|].
      split; [by rewrite samples_neutral|]. split; [|split; [done|]; apply coded_same; try done; by apply version_flag]. right. cbn. apply orb_false_iff in Ec as [Ec _].
      apply orb_false_iff in Ec as [Ec _]. zbool. destruct Hf as [[|] _]; [done|done].
  - eexists _, _, _. split; [done|]. split; [done|]. split; [done|]. right. split; [done|]. split; [done|].
    split; [done|]. split; [done|]. split; [done|]. split; [left; by destruct Hb|done].
Qed.

Lemma header_from_safe (fuel : nat) : forall h s p, stream_ok W mem s -> 0 <= p <= zlen mem ->
  zlen mem - p + 1 < Z.of_nat fuel ->
  exists r h' s', header_from W mem fuel h s p = Some (r, h', s') /\ header_post W mem r h' s'.
Proof.
  induction fuel as [|fuel IH]; intros h s p Hs Hp Hf; [lia|]. cbn [header_from].
  destruct (synchronize_safe s p Hs Hp) as (start&s1&->&Hs1&Hst). cbn [mbind option_bind].
  destruct start as [q|]; [|by eexists _, _, _; split; [done|]; split; [done|]; left].
  destruct Hst as (Hpq&Hq8&Hword). destruct (bit_init_ok mem q ltac:(lia)) as [Hqi Hqp].
  set (s2 := set_ptr (set_frames s1 q (q + 1)) (mad_bit_init q)).
  destruct (decode_header_safe W mem HW Hmem h s2 q ltac:(lia) ltac:(lia) Hqi Hqp)
    as (r&h1&s3&->&Hsame&Hr). cbn [mbind option_bind].
  destruct Hsame as (B1&B2&B3&B4&B5&B6&B7). cbn in B1, B2, B3, B4, B5, B6, B7.
  assert (stream_ok W mem s3) as Hs3.
  { destruct Hs1 as (C1&C2&C3&C4). split; [congruence|]. unfold limits_ok. rewrite B5, B6, B4, B2. split; [lia|]. split; [lia|done]. }
  destruct Hr as [[-> He]|(->&Hlay&Hsr&Hbr&Hok&Hpos&Halign&Hcoded)].
  { change (-1 =? -1) with true. cbv iota. eexists _, _, _. split; [done|]. split; [done|]. by left. }
  change (0 =? -1) with false. cbv iota.
  destruct (duration_spec W HW h1 Hsr) as (d&->&Hd). cbn [mbind option_bind].
  pose proof (nextbyte_spec mem (ptr s3) Hok) as Enb.
  destruct (free_format_safe (set_duration h1 d) s3 Hs3 Hsr Hbr Hok) as (r&h2&s4&->&Hs4&Hthis&Hr).
  { rewrite Enb, B5. zdiv. }
  cbn [mbind option_bind]. destruct Hr as [[-> He]|(->&Esr&Elay&Edur&Ensb&Hrate&Eptr&Hcoded2)].
  { change (-1 =? -1) with true. cbv iota. eexists _, _, _. split; [done|]. split; [done|]. by left. }
  change (0 =? -1) with false. cbv iota. cbn in Esr, Elay, Edur, Ensb. rewrite <- Esr in Hsr.
  destruct (frame_length_spec W HW h2 Hsr Hrate) as [EN HN]. rewrite EN. rewrite Hthis, B5.
  destruct Hs4 as (D1&D2&D3&D4). rewrite D1. unfold MAD_BUFFER_GUARD.
  rewrite (wrapu_small 32) by lia. rewrite wraps_small by (try change (2 ^ (32 - 1)) with (2 ^ 31); lia).
  destruct (Z.ltb_spec (zlen mem - q) (length_of h2 + 8)) as [Hlt|Hge].
  { eexists _, _, _. split; [done|]. split; [|by left]. split; [done|]. cbn. split; [lia|]. split; [lia|done]. }
  destruct (sync_word_safe mem (q + length_of h2)) as [b Eb]; [lia|lia|]. rewrite Eb.
  cbn [mbind option_bind]. destruct b.
  - eexists _, _, _. split; [done|]. split.
    { split; [done|]. cbn. split; [lia|]. split; [lia|done]. }
    right. split; [done|]. split; cbn [sync this_frame next_frame set_sync set_frames bufend layer set_flags add_flag].
    + done.
    + done.
    + done.
    + change (set_flags h2 _ _) with (add_flag h2 true MAD_FLAG_INCOMPLETE).
      rewrite frame_length_neutral, EN by done. lia.
    + rewrite D1. unfold MAD_BUFFER_GUARD. lia.
    + rewrite Elay. done.
    + change (set_flags h2 _ _) with (add_flag h2 true MAD_FLAG_INCOMPLETE).
      rewrite samples_neutral by done. cbn [duration samplerate add_flag set_flags]. rewrite Edur, Esr, Ensb. done.
    + apply (coded_same h2); try done; [by apply version_flag|]. apply Hcoded2. by apply (coded_same h1).
    + cbn [ptr set_sync set_frames this_frame]. rewrite Eptr. by split; [|lia].
  - apply IH; [|lia|lia]. split; [done|]. cbn. split; [lia|]. split; [lia|done].
Qed.
End Decode.

(** ** Encoding a header *)

(** The fields of an MPEG audio header: [a_rate] and [a_sr] are table indices,
    [a_ext] marks MPEG 2.5. *)
Record audio_header := MkAudio {
  a_ext : bool; a_lsf : bool; a_layer : Z; a_crc : option Z; a_rate : Z; a_sr : Z; a_pad : bool;
  a_private : bool; a_mode : Z; a_mode_ext : Z; a_copy : bool; a_original : bool; a_emphasis : Z
}.

Record audio_ok (a : audio_header) : Prop := AudioOk {
  ao_ext : a_ext a = true -> a_lsf a = true;
  ao_layer : 1 <= a_layer a <= 3;
  ao_rate : 0 <= a_rate a < 15;
  ao_sr : 0 <= a_sr a < 3;
  ao_mode : 0 <= a_mode a < 4;
  ao_mode_ext : 0 <= a_mode_ext a < 4;
  ao_emphasis : 0 <= a_emphasis a < 4;
  ao_crc : forall c, a_crc a = Some c -> 0 <= c < 2 ^ 16
}.

Abbreviation bit b := (if b : bool then 1 else 0).

Definition audio_code (a : audio_header) : list (Z * Z) :=
  [(11, 0x7ff); (1, bit (negb (a_ext a))); (1, bit (negb (a_lsf a))); (2, 4 - a_layer a);
   (1, match a_crc a with Some _ => 0 | None => 1 end); (4, a_rate a); (2, a_sr a); (1, bit (a_pad a));
   (1, bit (a_private a)); (2, 3 - a_mode a); (2, a_mode_ext a); (1, bit (a_copy a));
   (1, bit (a_original a)); (2, a_emphasis a)] ++
  match a_crc a with Some c => [(16, c)] | None => [] end.

(** The nominal values. *)
Definition audio_bitrate (a : audio_header) : option Z :=
  row ← aget bitrate_table (if a_lsf a then if a_layer a =? 1 then 3 else 4 else a_layer a - 1);
  aget row (a_rate a).

Definition audio_samplerate (a : audio_header) : option Z :=
  v ← aget samplerate_table (a_sr a); Some (if a_ext a then v / 4 else if a_lsf a then v / 2 else v).

Definition audio_flags (a : audio_header) : Z :=
  (if a_ext a then MAD_FLAG_MPEG_2_5_EXT else 0) + (if a_lsf a then MAD_FLAG_LSF_EXT else 0) +
  (match a_crc a with Some _ => MAD_FLAG_PROTECTION | None => 0 end) +
  (if a_pad a then MAD_FLAG_PADDING else 0) + (if a_copy a then MAD_FLAG_COPYRIGHT else 0) +
  (if a_original a then MAD_FLAG_ORIGINAL else 0).

(** The decoded header; [crc_check] starts with the CRC of the last 16 bits of the
    header. *)
Definition audio_decoded (mem : list Z) (p : Z) (h : mad_header) (a : audio_header) (rate sr : Z) : mad_header :=
  MkHeader (a_layer a) (a_mode a) (a_mode_ext a) (a_emphasis a) rate sr
    (match a_crc a with Some _ => crc16 mem (8 * p + 16) 16 0xffff | None => crc_check h end)
    (match a_crc a with Some c => c | None => crc_target h end)
    (audio_flags a) (if a_private a then MAD_PRIVATE_HEADER else 0) (duration h).

Section RoundTrip.
Variables (W : Z) (mem : list Z).
Hypotheses (HW : 32 <= W) (Hmem : bytes_ok mem).

Abbreviation rest_code a := (drop 7 (audio_code a)).

Lemma bit_range (b : bool) : 0 <= bit b < 2.
Proof. destruct b; lia. Qed.

(** The second half of a header. *)
Lemma decode_header_rest_written h s p i a :
  bitptr_ok mem p -> pos p = i -> i + width (rest_code a) <= 8 * zlen mem -> audio_ok a ->
  written mem i (rest_code a) -> bitset (flags h) MAD_FLAG_PROTECTION = bool_decide (is_Some (a_crc a)) ->
  exists s', decode_header_rest W mem h s p = Some (0,
    MkHeader (layer h) (a_mode a) (a_mode_ext a) (a_emphasis a) (bitrate h) (samplerate h) (crc_check h)
      (match a_crc a with Some c => c | None => crc_target h end)
      (flags h .| ((if a_pad a then MAD_FLAG_PADDING else 0) + (if a_copy a then MAD_FLAG_COPYRIGHT else 0) +
                   (if a_original a then MAD_FLAG_ORIGINAL else 0)))
      (private_bits h .| (if a_private a then MAD_PRIVATE_HEADER else 0)) (duration h), s') /\
    same_position s s' /\ bitptr_ok mem (ptr s') /\ pos (ptr s') = i + width (rest_code a).
Proof.
  destruct a as [ext lsf lay crc ra sr pad priv mode me copy orig emph]. intros Hp Hi Hlen [_ _ _ _ Hm Hme He Hc].
  cbn in Hm, Hme, He, Hc. intros Hw Hprot. unfold audio_code in Hw, Hlen |- *.
  cbn [app drop width foldr fst a_crc a_pad a_private a_mode a_mode_ext a_copy a_original a_emphasis written]
    in Hw, Hlen, Hprot |- *.
  destruct Hw as (E1&E2&E3&E4&E5&E6&E7&Hcrc).
  pose proof (bit_range pad). pose proof (bit_range priv). pose proof (bit_range copy). pose proof (bit_range orig).
  assert (i + 10 <= 8 * zlen mem) by (destruct crc; cbn in Hlen; lia).
  unfold decode_header_rest. do 7 read_field.
  destruct pad, priv, copy, orig; cbn [negb Z.eqb add_flag set_flags set_modes set_emphasis flags private_bits];
    rewrite ?bitset_lor, Hprot by reflexivity; (destruct crc as [c|];
    [destruct Hcrc as [E8 _]; specialize (Hc c eq_refl); cbn in Hlen; rewrite bool_decide_true by (by eexists); read_field|
     rewrite bool_decide_false by (by intros [])]);
    (eexists; split; [do 2 f_equal|split; [done|split; [done|cbn in *; lia]]]).
  all: unfold set_crc, set_emphasis; cbn; replace (3 - (3 - mode)) with mode by lia.
  all: rewrite ?Z.lor_0_r, <- ?Z.lor_assoc; reflexivity.
Qed.

Lemma layer_row lay : 1 <= lay <= 3 -> 3 + (lay .>> 1) = if lay =? 1 then 3 else 4.
Proof. intros. by assert (lay = 1 \/ lay = 2 \/ lay = 3) as [->|[->| ->]] by lia. Qed.

(** Reading what an encoder wrote. *)
Lemma decode_header_written h s p a rate sr :
  0 <= p -> bitptr_ok mem (ptr s) -> pos (ptr s) = 8 * p -> 8 * p + width (audio_code a) <= 8 * zlen mem ->
  audio_ok a -> written mem (8 * p) (audio_code a) -> audio_bitrate a = Some rate -> audio_samplerate a = Some sr ->
  exists s', decode_header W mem h s = Some (0, audio_decoded mem p h a rate sr, s') /\
    same_position s s' /\ bitptr_ok mem (ptr s') /\ pos (ptr s') = 8 * p + width (audio_code a).
Proof.
  intros H0 Hp Hi Hlen Hok.
  pose proof (fun h s p i Hp Hi Hl => decode_header_rest_written h s p i a Hp Hi Hl Hok) as Hrest.
  destruct a as [ext lsf lay crc ra isr pad priv mode me copy orig emph]. destruct Hok as [Hext Hlay Hra Hsr _ _ _ _]. cbn in Hext, Hlay, Hra, Hsr. intros Hw Hrate Hsamp.
  unfold audio_bitrate in Hrate. unfold audio_samplerate in Hsamp. cbn in Hrate, Hsamp.
  set (rest := drop 7 (audio_code (MkAudio ext lsf lay crc ra isr pad priv mode me copy orig emph))) in *.
  destruct Hw as (_&E1&E2&E3&E4&E5&E6&Hw).
  assert (8 * p + 32 <= 8 * zlen mem) by (destruct crc; cbn in Hlen; lia).
  unfold decode_header. destruct (bit_skip_spec mem (ptr s) 11) as (p0&->&Hp0&Hpos0); [done|lia|lia|].
  rewrite Hi in Hpos0. cbn [mbind option_bind].
  cbn [a_ext a_lsf a_layer a_crc a_rate a_sr] in E1, E2, E3, E4, E5, E6.
  assert (0 <= (if crc is Some _ then 0 else 1) < 2) by (destruct crc; lia).
  pose proof (bit_range (negb ext)). pose proof (bit_range (negb lsf)). change (2 ^ 2) with 4 in E3.
  do 2 read_field.
  destruct (aget bitrate_table _) as [row|] eqn:Erow in Hrate; [|done]. cbn [mbind option_bind] in Hrate.
  destruct (aget samplerate_table isr) as [v|] eqn:Ev; [|done]. cbn [mbind option_bind] in Hsamp.
  assert (Hcases : ext = true /\ lsf = true \/ ext = false /\ lsf = true \/ ext = false /\ lsf = false)
    by (clear -Hext; destruct ext; [specialize (Hext eq_refl); subst|destruct lsf]; auto).
  destruct Hcases as [[-> ->]|[[-> ->]|[-> ->]]];
    cbn [negb andb Z.eqb add_flag set_flags flags private_bits] in *;
    try (match goal with |- context [if ?b && ?c then _ else _] => change (b && c) with false end); cbv iota;
    read_field; replace (4 - (4 - lay)) with lay by lia; cbn [layer set_layer];
    (destruct (Z.eqb_spec lay 4); [lia|]); read_field.
  all: destruct crc as [c|]; cbn [Z.eqb add_flag].
  all: try (match goal with |- context [mad_bit_crc W mem ?q 16 _] =>
    rewrite (bit_crc_spec W mem q 16 0xffff) by (done || lia) end); cbn [mbind option_bind].
  all: read_field; (destruct (Z.eqb_spec ra 15); [lia|]).
  all: match goal with |- context [if bitset ?f ?m then 3 + _ else _] =>
    let b := eval vm_compute in (bitset f m) in change (bitset f m) with b end; cbv iota.
  all: cbn [layer set_crc set_flags set_layer]; rewrite ?layer_row by lia; rewrite Erow; cbn [mbind option_bind];
    rewrite Hrate; cbn [mbind option_bind]; read_field; (destruct (Z.eqb_spec isr 3); [lia|]);
    rewrite Ev; cbn [mbind option_bind].
  all: match goal with H : pos ?q = ?i |- context [decode_header_rest _ _ (set_samplerate ?hh _) _ ?q] =>
    destruct (Hrest (set_samplerate hh sr) s q i ltac:(done) H ltac:(subst rest; cbn in Hlen |- *; lia)
      Hw eq_refl) as (s'&E&Hrest') end.
  all: match goal with |- context [set_samplerate _ ?w] => replace w with sr by
    (injection Hsamp as <-; symmetry; first [reflexivity|transitivity (v / 2 / 2); [reflexivity|by apply Z.div_div]])
    end; rewrite E; clear E; eexists.
  all: split; [|destruct Hrest' as (?&?&Hend); split; [done|split; [done|]]; rewrite Hend; subst rest; cbn; lia].
  all: try replace (pos p4) with (8 * p + 16) by lia; unfold audio_decoded, audio_flags;
    cbn [a_ext a_lsf a_layer a_crc a_pad a_private a_mode a_mode_ext a_copy a_original a_emphasis].
  all: destruct pad, copy, orig, priv; reflexivity.
Qed.

End RoundTrip.

(** A sync pattern is a sync word. *)
Lemma sync_written mem p : bytes_ok mem -> 0 <= p -> p + 2 <= zlen mem -> bits mem (8 * p) 11 = 0x7ff ->
  sync_word mem p = Some true.
Proof.
  intros Hmem H0 Hl E. destruct (aget_Some mem p) as [b0 E0]; [lia|].
  destruct (aget_Some mem (p + 1)) as [b1 E1]; [lia|].
  pose proof (bits_byte mem p b0 Hmem E0) as B0. pose proof (bits_byte mem (p + 1) b1 Hmem E1) as B1.
  replace (8 * (p + 1)) with (8 * p + 8) in B1 by lia.
  pose proof (bits_app mem (8 * p) 8 3 ltac:(lia) ltac:(lia) ltac:(lia)) as A. change (8 + 3) with 11 in A.
  rewrite B0, E in A. pose proof (bits_range mem (8 * p + 8) 3 ltac:(lia)) as R. change (2 ^ 3) with 8 in A, R.
  pose proof (bits_app mem (8 * p + 8) 3 5 ltac:(lia) ltac:(lia) ltac:(lia)) as A'. change (3 + 5) with 8 in A'.
  rewrite B1 in A'. pose proof (bits_range mem (8 * p + 8 + 3) 5 ltac:(lia)) as R'. change (2 ^ 5) with 32 in A', R'.
  unfold sync_word. rewrite E0. cbn [mbind option_bind]. rewrite (proj2 (Z.eqb_eq b0 0xff)) by lia.
  rewrite E1. cbn [mbind option_bind]. f_equal. apply Z.eqb_eq.
  pose proof (forall_range (fun v => (v .& 0xe0) =? 0xe0) 224 32 ltac:(vm_compute; reflexivity) b1) as H. cbn beta in H.
  apply Z.eqb_eq, H. lia.
Qed.

Lemma audio_rates a rate sr : audio_ok a -> audio_bitrate a = Some rate -> audio_samplerate a = Some sr ->
  bitrate_ok rate /\ sr_ok sr.
Proof.
  intros [Hext Hl Hr Hs _ _ _ _] Er Es. unfold audio_bitrate in Er. unfold audio_samplerate in Es. split.
  - destruct (bitrate_lookup (if a_lsf a then if a_layer a =? 1 then 3 else 4 else a_layer a - 1) (a_rate a))
      as (row&v&E1&E2&Hv); [destruct (a_lsf a), (a_layer a =? 1); lia|done|].
    rewrite E1 in Er. cbn [mbind option_bind] in Er. rewrite E2 in Er. by injection Er as <-.
  - destruct (samplerate_lookup (a_sr a) (a_lsf a) (a_ext a) Hs) as (v&E&Hv). rewrite E in Es.
    cbn [mbind option_bind] in Es. injection Es as <-.
    destruct (a_ext a); [|done]. rewrite Hext in Hv by done. by rewrite Z.div_div in Hv by lia.
Qed.

Lemma header_decode_total W mem h s : 32 <= W -> bytes_ok mem -> zlen mem <= max_buffer W -> stream_ok W mem s ->
  exists r h' s', mad_header_decode W mem h s = Some (r, h', s') /\ header_post W mem r h' s'.
Proof.
  intros HW Hmem Hsize Hs. pose proof Hs as (He&Ht&Hn&_&Hk). unfold mad_header_decode, NULL.
  destruct (Z.eqb_spec (next_frame s) (-1)); [lia|].
  destruct (Z.eqb_spec (skiplen s) 0) as [_|Hk0]; cbn [negb].
  { apply header_from_safe; [done..|lia|lia]. }
  set (p := if sync s =? 0 then this_frame s else next_frame s).
  assert (0 <= p <= zlen mem) by (unfold p; destruct (_ =? _); lia).
  rewrite He, (wraps_small 32) by (change (2 ^ (32 - 1)) with (2 ^ 31); lia).
  destruct (Z.ltb_spec (zlen mem - p) (skiplen s)).
  - eexists _, _, _. split; [done|]. split; [|by left]. split; [done|]. cbn. split; [lia|]. split; [lia|].
    split; [apply Hs|]. cbn. pose proof (max_buffer_spec W HW). rewrite wrapu_small by lia. lia.
  - apply header_from_safe; [done..| |cbn; lia|cbn; lia]. split; [done|]. cbn. split; [lia|]. split; [lia|].
    split; [apply Hs|]. cbn. lia.
Qed.

(** ** Claims *)

(** C21: the frame decoder is safe and it ends, and the state of the stream is an
    invariant.  For every content of an input buffer of at most a megabyte,
    [mad_header_decode] (skipping, searching a sync word, decoding headers, the
    search for the rate of a free format frame, and going back to the search
    after a false sync) reads inside of the buffer and returns; the stream stays
    well formed.  Either it fails, with the reason in [error] and out of sync; or
    it has found a frame between two sync words, with its exact duration, its
    length that of the header, and enough bytes behind it.  [mad_stream_buffer]
    starts such a stream. *)
Theorem mad_header_decode_safe W mem h s :
  32 <= W -> bytes_ok mem -> zlen mem <= max_buffer W ->
  stream_ok W mem s \/ (exists s0, limits_ok W s0 /\ s = mad_stream_buffer s0 (zlen mem)) ->
  exists r h' s', mad_header_decode W mem h s = Some (r, h', s') /\ header_post W mem r h' s'.
Proof.
  intros HW Hmem Hsize Hstart. assert (Hs : stream_ok W mem s).
  { destruct Hstart as [|(s0&Hlim&->)]; [done|]. split; [done|]. cbn. split; [lia|]. split; [lia|done]. }
  by apply header_decode_total.
Qed.

Lemma mad_header_decode_safe_witness :
  let mem := [0xff; 0xfb; 0x04; 0xc4; 0xff; 0xff; 0; 0; 0; 0; 0; 0] in
  exists r h' s', mad_header_decode 64 mem mad_header_init (mad_stream_buffer mad_stream_init 12) = Some (r, h', s') /\
    header_post 64 mem r h' s'.
Proof.
  intros mem. apply (mad_header_decode_safe 64 mem mad_header_init).
  - lia.
  - apply (bool_decide_unpack _). vm_compute. exact I.
  - apply Z.leb_le. reflexivity.
  - right. exists mad_stream_init. split; [|reflexivity]. split; [by left|].
    split; [apply Z.leb_le; reflexivity|apply Z.ltb_lt; reflexivity].
Defined.

(** C22: reading a header gives what was written.  For every combination of the
    fields of an MPEG-1, MPEG-2 or MPEG-2.5 header with a nominal bit rate, in
    front of another frame, [mad_header_decode] on a stream in sync returns the
    fields: the layer, mode, extension, emphasis, flags and check words, the bit
    rate and sample rate of the tables; it finds the length of the frame and
    computes its duration exactly. *)
Theorem mad_header_decode_frame W mem h s a rate sr :
  32 <= W -> bytes_ok mem -> zlen mem <= max_buffer W -> stream_ok W mem s -> sync s <> 0 -> skiplen s = 0 ->
  audio_ok a -> audio_bitrate a = Some rate -> rate <> 0 -> audio_samplerate a = Some sr ->
  let p := next_frame s in let h' := audio_decoded mem p h a rate sr in
  written mem (8 * p) (audio_code a) -> p + length_of h' + 8 <= zlen mem ->
  sync_word mem (p + length_of h') = Some true ->
  exists d s', mad_header_decode W mem h s =
      Some (0, add_flag (set_duration h' d) true MAD_FLAG_INCOMPLETE, s') /\
    tval d * sr = 32 * MAD_NSBSAMPLES h' * MAD_TIMER_RESOLUTION /\
    sync s' = 1 /\ this_frame s' = p /\ next_frame s' = p + length_of h'.
Proof.
  intros HW Hmem Hsize Hs Hsync Hskip Ha Erate Hrate Esr p h' Hw Hl Hnext.
  destruct (audio_rates a rate sr Ha Erate Esr) as [Hb Hsr]. destruct Hs as (He&Ht&Hn&_). fold p in Hn.
  destruct (frame_length_spec W HW (set_duration h' mad_timer_zero) Hsr ltac:(left; by destruct Hb)) as [EN HN].
  change (length_of (set_duration h' _)) with (length_of h') in EN, HN.
  assert (sync_word mem p = Some true) as Hp.
  { apply sync_written; [done|lia|lia|]. by destruct Hw. }
  destruct (bit_init_ok mem p ltac:(lia)) as [Hpi Hpp].
  destruct (decode_header_written W mem HW Hmem h (set_ptr (set_frames s p (p + 1)) (mad_bit_init p)) p a rate sr)
    as (s'&E&Hsame&_); [lia|done|done|destruct (a_crc a) eqn:Ec; unfold audio_code; rewrite Ec; cbn; lia|done..|].
  fold h' in E. destruct (duration_spec W HW h' Hsr) as (d&Ed&Hd). destruct Hsame as (S1&_&_&_&S2&_).
  cbn in S1, S2. exists d, (set_sync (set_frames s' p (p + length_of h')) 1).
  split; [|done].
  unfold mad_header_decode. fold p. unfold NULL. destruct (Z.eqb_spec p (-1)); [lia|]. rewrite Hskip. cbn [Z.eqb negb].
  cbn [header_from]. unfold synchronize. destruct (Z.eqb_spec (sync s) 0); [done|]. cbn [negb].
  rewrite He. unfold MAD_BUFFER_GUARD. destruct (Z.ltb_spec (zlen mem - p) 8); [lia|].
  rewrite Hp. cbn [mbind option_bind]. rewrite E. cbn [mbind option_bind]. change (0 =? -1) with false. cbv iota.
  change (samplerate h') with sr in Ed |- *. rewrite Ed. cbn [mbind option_bind]. unfold free_format.
  change (bitrate (set_duration h' d)) with rate. destruct (Z.eqb_spec rate 0); [done|].
  cbn [mbind option_bind]. change (0 =? -1) with false. cbv iota.
  change (frame_length W (set_duration h' d)) with (frame_length W (set_duration h' mad_timer_zero)).
  rewrite EN, S1, S2, (wrapu_small 32), (wraps_small 32), He by (try change (2 ^ (32 - 1)) with (2 ^ 31); lia).
  destruct (Z.ltb_spec (zlen mem - p) (length_of h' + 8)); [lia|]. rewrite Hnext. reflexivity.
Qed.

Lemma mad_header_decode_frame_witness :
  let mem := [0xff; 0xfb; 0x14; 0xc4] ++ repeat 0 92 ++ [0xff; 0xfb; 0x14; 0xc4; 0; 0; 0; 0] in
  let s := mad_stream_buffer mad_stream_init 104 in
  let a := MkAudio false false 3 None 1 1 false false 0 0 false true 0 in
  let h' := audio_decoded mem 0 mad_header_init a 32000 48000 in
  exists d s', mad_header_decode 32 mem mad_header_init s =
      Some (0, add_flag (set_duration h' d) true MAD_FLAG_INCOMPLETE, s') /\
    tval d * 48000 = 32 * MAD_NSBSAMPLES h' * MAD_TIMER_RESOLUTION /\
    sync s' = 1 /\ this_frame s' = 0 /\ next_frame s' = 0 + length_of h'.
Proof.
  intros mem s a. apply (mad_header_decode_frame 32 mem mad_header_init s a 32000 48000).
  - lia.
  - apply (bool_decide_unpack _). vm_compute. exact I.
  - apply Z.leb_le. reflexivity.
  - split; [done|]. split; [split; apply Z.leb_le; reflexivity|]. split; [split; apply Z.leb_le; reflexivity|].
    split; [by left|]. split; [apply Z.leb_le; reflexivity|apply Z.ltb_lt; reflexivity].
  - done.
  - done.
  - split; cbn; try lia; done.
  - reflexivity.
  - done.
  - reflexivity.
  - vm_compute. repeat split.
  - apply Z.leb_le. reflexivity.
  - reflexivity.
Defined.
