(* ===== verification/MadHuffman.v ===== *)
(** The Huffman tables of MPEG Layer III: [src/libmad/huffman.h] and
    [huffman.c], and the lookups [III_huffdecode] of [layer3.c] makes in them.

    A table is read a few bits at a time: an entry is a code word, or the offset
    of a further part of the table with the number of bits that index it.  The
    code of a table is the list of its code words; the theorems show that the
    lookups decode exactly that code, and that it is a complete prefix code with
    one word for every value. *)
From S2P Require Import Prelude.

(** ** Entries *)

Inductive huffquad :=
  | QPTR (offset bits : Z)
  | QV (v w x y hlen : Z).

Inductive huffpair :=
  | PTR (offset bits : Z)
  | V (x y hlen : Z).

#[export] Instance huffquad_eq_dec : EqDecision huffquad.
Proof. solve_decision. Defined.

#[export] Instance huffpair_eq_dec : EqDecision huffpair.
Proof. solve_decision. Defined.

(** [table] is NULL for the two unused entries. *)
Record hufftable := MkHuffTable { table : option (list huffpair); linbits : Z; startbits : Z }.

(** ** Tables *)

Definition hufftabA : list huffquad := [
  QPTR 16 2; QPTR 20 2; QPTR 24 1; QPTR 26 1; QV 0 0 1 0 4; QV 0 0 0 1 4; QV 0 1 0 0 4;
  QV 1 0 0 0 4; QV 0 0 0 0 1; QV 0 0 0 0 1; QV 0 0 0 0 1; QV 0 0 0 0 1; QV 0 0 0 0 1; QV 0 0 0 0 1;
  QV 0 0 0 0 1; QV 0 0 0 0 1; QV 1 0 1 1 2; QV 1 1 1 1 2; QV 1 1 0 1 2; QV 1 1 1 0 2; QV 0 1 1 1 2;
  QV 0 1 0 1 2; QV 1 0 0 1 1; QV 1 0 0 1 1; QV 0 1 1 0 1; QV 0 0 1 1 1; QV 1 0 1 0 1; QV 1 1 0 0 1].

Definition hufftabB : list huffquad := [
  QV 1 1 1 1 4; QV 1 1 1 0 4; QV 1 1 0 1 4; QV 1 1 0 0 4; QV 1 0 1 1 4; QV 1 0 1 0 4; QV 1 0 0 1 4;
  QV 1 0 0 0 4; QV 0 1 1 1 4; QV 0 1 1 0 4; QV 0 1 0 1 4; QV 0 1 0 0 4; QV 0 0 1 1 4; QV 0 0 1 0 4;
  QV 0 0 0 1 4; QV 0 0 0 0 4].

Definition hufftab0 : list huffpair := [
  V 0 0 0].

Definition hufftab1 : list huffpair := [
  V 1 1 3; V 0 1 3; V 1 0 2; V 1 0 2; V 0 0 1; V 0 0 1; V 0 0 1; V 0 0 1].

Definition hufftab2 : list huffpair := [
  PTR 8 3; V 1 1 3; V 0 1 3; V 1 0 3; V 0 0 1; V 0 0 1; V 0 0 1; V 0 0 1; V 2 2 3; V 0 2 3;
  V 1 2 2; V 1 2 2; V 2 1 2; V 2 1 2; V 2 0 2; V 2 0 2].

Definition hufftab3 : list huffpair := [
  PTR 8 3; V 1 0 3; V 1 1 2; V 1 1 2; V 0 1 2; V 0 1 2; V 0 0 2; V 0 0 2; V 2 2 3; V 0 2 3;
  V 1 2 2; V 1 2 2; V 2 1 2; V 2 1 2; V 2 0 2; V 2 0 2].

Definition hufftab5 : list huffpair := [
  PTR 8 4; V 1 1 3; V 0 1 3; V 1 0 3; V 0 0 1; V 0 0 1; V 0 0 1; V 0 0 1; PTR 24 1; V 3 2 4;
  V 3 1 3; V 3 1 3; V 1 3 4; V 0 3 4; V 3 0 4; V 2 2 4; V 1 2 3; V 1 2 3; V 2 1 3; V 2 1 3;
  V 0 2 3; V 0 2 3; V 2 0 3; V 2 0 3; V 3 3 1; V 2 3 1].

Definition hufftab6 : list huffpair := [
  PTR 16 3; PTR 24 1; PTR 26 1; V 1 2 4; V 2 1 4; V 2 0 4; V 0 1 3; V 0 1 3; V 1 1 2; V 1 1 2;
  V 1 1 2; V 1 1 2; V 1 0 3; V 1 0 3; V 0 0 3; V 0 0 3; V 3 3 3; V 0 3 3; V 2 3 2; V 2 3 2;
  V 3 2 2; V 3 2 2; V 3 0 2; V 3 0 2; V 1 3 1; V 3 1 1; V 2 2 1; V 0 2 1].

Definition hufftab7 : list huffpair := [
  PTR 16 4; PTR 32 4; PTR 48 2; V 1 1 4; V 0 1 3; V 0 1 3; V 1 0 3; V 1 0 3; V 0 0 1; V 0 0 1;
  V 0 0 1; V 0 0 1; V 0 0 1; V 0 0 1; V 0 0 1; V 0 0 1; PTR 52 2; PTR 56 1; PTR 58 1; V 1 5 4;
  V 5 1 4; PTR 60 1; V 5 0 4; PTR 62 1; V 2 4 4; V 4 2 4; V 1 4 3; V 1 4 3; V 4 1 3; V 4 1 3;
  V 4 0 3; V 4 0 3; V 0 4 4; V 2 3 4; V 3 2 4; V 0 3 4; V 1 3 3; V 1 3 3; V 3 1 3; V 3 1 3;
  V 3 0 3; V 3 0 3; V 2 2 3; V 2 2 3; V 1 2 2; V 1 2 2; V 1 2 2; V 1 2 2; V 2 1 1; V 2 1 1;
  V 0 2 2; V 2 0 2; V 5 5 2; V 4 5 2; V 5 4 2; V 5 3 2; V 3 5 1; V 4 4 1; V 2 5 1; V 5 2 1;
  V 0 5 1; V 3 4 1; V 4 3 1; V 3 3 1].

Definition hufftab8 : list huffpair := [
  PTR 16 4; PTR 32 4; V 1 2 4; V 2 1 4; V 1 1 2; V 1 1 2; V 1 1 2; V 1 1 2; V 0 1 3; V 0 1 3;
  V 1 0 3; V 1 0 3; V 0 0 2; V 0 0 2; V 0 0 2; V 0 0 2; PTR 48 3; PTR 56 2; PTR 60 1; V 1 5 4;
  V 5 1 4; PTR 62 1; PTR 64 1; V 2 4 4; V 4 2 4; V 1 4 4; V 4 1 3; V 4 1 3; V 0 4 4; V 4 0 4;
  V 2 3 4; V 3 2 4; V 1 3 4; V 3 1 4; V 0 3 4; V 3 0 4; V 2 2 2; V 2 2 2; V 2 2 2; V 2 2 2;
  V 0 2 2; V 0 2 2; V 0 2 2; V 0 2 2; V 2 0 2; V 2 0 2; V 2 0 2; V 2 0 2; V 5 5 3; V 5 4 3;
  V 4 5 2; V 4 5 2; V 5 3 1; V 5 3 1; V 5 3 1; V 5 3 1; V 3 5 2; V 4 4 2; V 2 5 1; V 2 5 1;
  V 5 2 1; V 0 5 1; V 3 4 1; V 4 3 1; V 5 0 1; V 3 3 1].

Definition hufftab9 : list huffpair := [
  PTR 16 4; PTR 32 3; PTR 40 2; PTR 44 2; PTR 48 1; V 1 2 4; V 2 1 4; V 2 0 4; V 1 1 3; V 1 1 3;
  V 0 1 3; V 0 1 3; V 1 0 3; V 1 0 3; V 0 0 3; V 0 0 3; PTR 50 1; V 3 5 4; V 5 3 4; PTR 52 1;
  V 4 4 4; V 2 5 4; V 5 2 4; V 1 5 4; V 5 1 3; V 5 1 3; V 3 4 3; V 3 4 3; V 4 3 3; V 4 3 3;
  V 5 0 4; V 0 4 4; V 2 4 3; V 4 2 3; V 3 3 3; V 4 0 3; V 1 4 2; V 1 4 2; V 4 1 2; V 4 1 2;
  V 2 3 2; V 3 2 2; V 1 3 1; V 1 3 1; V 3 1 1; V 3 1 1; V 0 3 2; V 3 0 2; V 2 2 1; V 0 2 1;
  V 5 5 1; V 4 5 1; V 5 4 1; V 0 5 1].

Definition hufftab10 : list huffpair := [
  PTR 16 4; PTR 32 4; PTR 48 2; V 1 1 4; V 0 1 3; V 0 1 3; V 1 0 3; V 1 0 3; V 0 0 1; V 0 0 1;
  V 0 0 1; V 0 0 1; V 0 0 1; V 0 0 1; V 0 0 1; V 0 0 1; PTR 52 3; PTR 60 2; PTR 64 3; PTR 72 1;
  PTR 74 2; PTR 78 2; PTR 82 2; V 1 7 4; V 7 1 4; PTR 86 1; PTR 88 2; PTR 92 2; V 1 6 4; V 6 1 4;
  V 6 0 4; PTR 96 1; PTR 98 1; PTR 100 1; V 1 4 4; V 4 1 4; V 4 0 4; V 2 3 4; V 3 2 4; V 0 3 4;
  V 1 3 3; V 1 3 3; V 3 1 3; V 3 1 3; V 3 0 3; V 3 0 3; V 2 2 3; V 2 2 3; V 1 2 2; V 2 1 2;
  V 0 2 2; V 2 0 2; V 7 7 3; V 6 7 3; V 7 6 3; V 5 7 3; V 7 5 3; V 6 6 3; V 4 7 2; V 4 7 2;
  V 7 4 2; V 5 6 2; V 6 5 2; V 3 7 2; V 7 3 2; V 7 3 2; V 4 6 2; V 4 6 2; V 5 5 3; V 5 4 3;
  V 6 3 2; V 6 3 2; V 2 7 1; V 7 2 1; V 6 4 2; V 0 7 2; V 7 0 1; V 7 0 1; V 6 2 1; V 6 2 1;
  V 4 5 2; V 3 5 2; V 0 6 1; V 0 6 1; V 5 3 2; V 4 4 2; V 3 6 1; V 2 6 1; V 2 5 2; V 5 2 2;
  V 1 5 1; V 1 5 1; V 5 1 1; V 5 1 1; V 3 4 2; V 4 3 2; V 0 5 1; V 5 0 1; V 2 4 1; V 4 2 1;
  V 3 3 1; V 0 4 1].

Definition hufftab11 : list huffpair := [
  PTR 16 4; PTR 32 4; PTR 48 4; PTR 64 3; V 1 2 4; PTR 72 1; V 1 1 3; V 1 1 3; V 0 1 3; V 0 1 3;
  V 1 0 3; V 1 0 3; V 0 0 2; V 0 0 2; V 0 0 2; V 0 0 2; PTR 74 2; PTR 78 3; PTR 86 2; PTR 90 1;
  PTR 92 2; V 2 7 4; V 7 2 4; PTR 96 1; V 7 1 3; V 7 1 3; V 1 7 4; V 7 0 4; V 3 6 4; V 6 3 4;
  V 6 0 4; PTR 98 1; PTR 100 1; V 1 5 4; V 6 2 3; V 6 2 3; V 2 6 4; V 0 6 4; V 1 6 3; V 1 6 3;
  V 6 1 3; V 6 1 3; V 5 1 4; V 3 4 4; V 5 0 4; PTR 102 1; V 2 4 4; V 4 2 4; V 1 4 4; V 4 1 4;
  V 0 4 4; V 4 0 4; V 2 3 3; V 2 3 3; V 3 2 3; V 3 2 3; V 1 3 2; V 1 3 2; V 1 3 2; V 1 3 2;
  V 3 1 2; V 3 1 2; V 3 1 2; V 3 1 2; V 0 3 3; V 3 0 3; V 2 2 2; V 2 2 2; V 2 1 1; V 2 1 1;
  V 2 1 1; V 2 1 1; V 0 2 1; V 2 0 1; V 7 7 2; V 6 7 2; V 7 6 2; V 7 5 2; V 6 6 2; V 6 6 2;
  V 4 7 2; V 4 7 2; V 7 4 2; V 7 4 2; V 5 7 3; V 5 5 3; V 5 6 2; V 6 5 2; V 3 7 1; V 3 7 1;
  V 7 3 1; V 4 6 1; V 4 5 2; V 5 4 2; V 3 5 2; V 5 3 2; V 6 4 1; V 0 7 1; V 4 4 1; V 2 5 1;
  V 5 2 1; V 0 5 1; V 4 3 1; V 3 3 1].

Definition hufftab12 : list huffpair := [
  PTR 16 4; PTR 32 4; PTR 48 4; PTR 64 2; PTR 68 3; PTR 76 1; V 1 2 4; V 2 1 4; PTR 78 1; V 0 0 4;
  V 1 1 3; V 1 1 3; V 0 1 3; V 0 1 3; V 1 0 3; V 1 0 3; PTR 80 2; PTR 84 1; PTR 86 1; PTR 88 1;
  V 5 6 4; V 3 7 4; PTR 90 1; V 2 7 4; V 7 2 4; V 4 6 4; V 6 4 4; V 1 7 4; V 7 1 4; PTR 92 1;
  V 3 6 4; V 6 3 4; V 4 5 4; V 5 4 4; V 4 4 4; PTR 94 1; V 2 6 3; V 2 6 3; V 6 2 3; V 6 2 3;
  V 6 1 3; V 6 1 3; V 1 6 4; V 6 0 4; V 3 5 4; V 5 3 4; V 2 5 4; V 5 2 4; V 1 5 3; V 1 5 3;
  V 5 1 3; V 5 1 3; V 3 4 3; V 3 4 3; V 4 3 3; V 4 3 3; V 5 0 4; V 0 4 4; V 2 4 3; V 2 4 3;
  V 4 2 3; V 4 2 3; V 1 4 3; V 1 4 3; V 3 3 2; V 4 1 2; V 2 3 2; V 3 2 2; V 4 0 3; V 0 3 3;
  V 3 0 2; V 3 0 2; V 1 3 1; V 1 3 1; V 1 3 1; V 1 3 1; V 3 1 1; V 2 2 1; V 0 2 1; V 2 0 1;
  V 7 7 2; V 6 7 2; V 7 6 1; V 7 6 1; V 5 7 1; V 7 5 1; V 6 6 1; V 4 7 1; V 7 4 1; V 6 5 1;
  V 7 3 1; V 5 5 1; V 0 7 1; V 7 0 1; V 0 6 1; V 0 5 1].

Definition hufftab13 : list huffpair := [
  PTR 16 4; PTR 32 4; PTR 48 4; PTR 64 2; V 1 1 4; V 0 1 4; V 1 0 3; V 1 0 3; V 0 0 1; V 0 0 1;
  V 0 0 1; V 0 0 1; V 0 0 1; V 0 0 1; V 0 0 1; V 0 0 1; PTR 68 4; PTR 84 4; PTR 100 4; PTR 116 4;
  PTR 132 4; PTR 148 4; PTR 164 3; PTR 172 3; PTR 180 3; PTR 188 3; PTR 196 3; PTR 204 3;
  PTR 212 1; PTR 214 2; PTR 218 3; PTR 226 1; PTR 228 2; PTR 232 2; PTR 236 2; PTR 240 2; V 8 1 4;
  PTR 244 1; PTR 246 1; PTR 248 1; PTR 250 2; PTR 254 1; V 1 5 4; V 5 1 4; PTR 256 1; PTR 258 1;
  PTR 260 1; V 1 4 4; V 4 1 3; V 4 1 3; V 0 4 4; V 4 0 4; V 2 3 4; V 3 2 4; V 1 3 3; V 1 3 3;
  V 3 1 3; V 3 1 3; V 0 3 3; V 0 3 3; V 3 0 3; V 3 0 3; V 2 2 3; V 2 2 3; V 1 2 2; V 2 1 2;
  V 0 2 2; V 2 0 2; PTR 262 4; PTR 278 4; PTR 294 4; PTR 310 3; PTR 318 2; PTR 322 2; PTR 326 3;
  PTR 334 2; PTR 338 1; PTR 340 2; PTR 344 2; PTR 348 2; PTR 352 2; PTR 356 2; V 1 15 4; V 15 1 4;
  V 15 0 4; PTR 360 1; PTR 362 1; PTR 364 1; V 14 2 4; PTR 366 1; V 1 14 4; V 14 1 4; PTR 368 1;
  PTR 370 1; PTR 372 1; PTR 374 1; PTR 376 1; PTR 378 1; V 12 6 4; V 3 13 4; PTR 380 1; V 2 13 4;
  V 13 2 4; V 1 13 4; V 11 7 4; PTR 382 1; PTR 384 1; V 12 3 4; PTR 386 1; V 4 11 4; V 13 1 3;
  V 13 1 3; V 0 13 4; V 13 0 4; V 8 10 4; V 10 8 4; V 4 12 4; V 12 4 4; V 6 11 4; V 11 6 4;
  V 3 12 3; V 3 12 3; V 2 12 3; V 2 12 3; V 12 2 3; V 12 2 3; V 5 11 3; V 5 11 3; V 11 5 4;
  V 8 9 4; V 1 12 3; V 1 12 3; V 12 1 3; V 12 1 3; V 9 8 4; V 0 12 4; V 12 0 3; V 12 0 3; V 11 4 4;
  V 6 10 4; V 10 6 4; V 7 9 4; V 3 11 3; V 3 11 3; V 11 3 3; V 11 3 3; V 8 8 4; V 5 10 4; V 2 11 3;
  V 2 11 3; V 10 5 4; V 6 9 4; V 10 4 3; V 10 4 3; V 7 8 4; V 8 7 4; V 9 4 3; V 9 4 3; V 7 7 4;
  V 7 6 4; V 11 2 2; V 11 2 2; V 11 2 2; V 11 2 2; V 1 11 2; V 1 11 2; V 11 1 2; V 11 1 2;
  V 0 11 3; V 11 0 3; V 9 6 3; V 4 10 3; V 3 10 3; V 10 3 3; V 5 9 3; V 9 5 3; V 2 10 2; V 2 10 2;
  V 10 2 2; V 10 2 2; V 1 10 2; V 1 10 2; V 10 1 2; V 10 1 2; V 0 10 3; V 6 8 3; V 10 0 2;
  V 10 0 2; V 8 6 3; V 4 9 3; V 9 3 2; V 9 3 2; V 3 9 3; V 5 8 3; V 8 5 3; V 6 7 3; V 2 9 2;
  V 2 9 2; V 9 2 2; V 9 2 2; V 5 7 3; V 7 5 3; V 3 8 2; V 3 8 2; V 8 3 2; V 8 3 2; V 6 6 3;
  V 4 7 3; V 7 4 3; V 5 6 3; V 6 5 3; V 7 3 3; V 1 9 1; V 9 1 1; V 0 9 2; V 9 0 2; V 4 8 2;
  V 8 4 2; V 7 2 2; V 7 2 2; V 4 6 3; V 6 4 3; V 2 8 1; V 2 8 1; V 2 8 1; V 2 8 1; V 8 2 1;
  V 1 8 1; V 3 7 2; V 2 7 2; V 1 7 1; V 1 7 1; V 7 1 1; V 7 1 1; V 5 5 2; V 0 7 2; V 7 0 2;
  V 3 6 2; V 6 3 2; V 4 5 2; V 5 4 2; V 2 6 2; V 6 2 2; V 3 5 2; V 0 8 1; V 8 0 1; V 1 6 1;
  V 6 1 1; V 0 6 1; V 6 0 1; V 5 3 2; V 4 4 2; V 2 5 1; V 2 5 1; V 5 2 1; V 0 5 1; V 3 4 1;
  V 4 3 1; V 5 0 1; V 2 4 1; V 4 2 1; V 3 3 1; PTR 388 3; V 15 15 4; V 14 15 4; V 13 15 4;
  V 14 14 4; V 12 15 4; V 13 14 4; V 11 15 4; V 15 11 4; V 12 14 4; V 13 12 4; PTR 396 1;
  V 14 12 3; V 14 12 3; V 13 13 3; V 13 13 3; V 15 10 4; V 12 13 4; V 11 14 3; V 11 14 3;
  V 14 11 3; V 14 11 3; V 9 15 3; V 9 15 3; V 15 9 3; V 15 9 3; V 14 10 3; V 14 10 3; V 11 13 3;
  V 11 13 3; V 13 11 3; V 13 11 3; V 8 15 3; V 8 15 3; V 15 8 3; V 15 8 3; V 12 12 3; V 12 12 3;
  V 10 14 4; V 9 14 4; V 8 14 3; V 8 14 3; V 7 15 4; V 7 14 4; V 15 7 2; V 15 7 2; V 15 7 2;
  V 15 7 2; V 13 10 2; V 13 10 2; V 10 13 3; V 11 12 3; V 12 11 3; V 15 6 3; V 6 15 2; V 6 15 2;
  V 14 8 2; V 5 15 2; V 9 13 2; V 13 9 2; V 15 5 2; V 14 7 2; V 10 12 2; V 11 11 2; V 4 15 2;
  V 4 15 2; V 15 4 2; V 15 4 2; V 12 10 3; V 14 6 3; V 15 3 2; V 15 3 2; V 3 15 1; V 3 15 1;
  V 8 13 2; V 13 8 2; V 2 15 1; V 15 2 1; V 6 14 2; V 9 12 2; V 0 15 1; V 0 15 1; V 12 9 2;
  V 5 14 2; V 10 11 1; V 10 11 1; V 7 13 2; V 13 7 2; V 4 14 1; V 4 14 1; V 12 8 2; V 13 6 2;
  V 3 14 1; V 3 14 1; V 11 9 1; V 11 9 1; V 9 11 2; V 10 10 2; V 11 10 1; V 14 5 1; V 14 4 1;
  V 8 12 1; V 6 13 1; V 14 3 1; V 2 14 1; V 0 14 1; V 14 0 1; V 5 13 1; V 13 5 1; V 7 12 1;
  V 12 7 1; V 4 13 1; V 8 11 1; V 11 8 1; V 13 4 1; V 9 10 1; V 10 9 1; V 6 12 1; V 13 3 1;
  V 7 11 1; V 5 12 1; V 12 5 1; V 9 9 1; V 7 10 1; V 10 7 1; V 9 7 1; V 15 14 3; V 15 12 3;
  V 15 13 2; V 15 13 2; V 14 13 1; V 14 13 1; V 14 13 1; V 14 13 1; V 10 15 1; V 14 9 1].

Definition hufftab15 : list huffpair := [
  PTR 16 4; PTR 32 4; PTR 48 4; PTR 64 4; PTR 80 4; PTR 96 3; PTR 104 3; PTR 112 2; PTR 116 1;
  PTR 118 1; V 1 1 3; V 1 1 3; V 0 1 4; V 1 0 4; V 0 0 3; V 0 0 3; PTR 120 4; PTR 136 4; PTR 152 4;
  PTR 168 4; PTR 184 4; PTR 200 3; PTR 208 3; PTR 216 4; PTR 232 3; PTR 240 3; PTR 248 3;
  PTR 256 3; PTR 264 2; PTR 268 3; PTR 276 3; PTR 284 2; PTR 288 2; PTR 292 2; PTR 296 2;
  PTR 300 2; PTR 304 2; PTR 308 2; PTR 312 2; PTR 316 2; PTR 320 1; PTR 322 1; PTR 324 1;
  PTR 326 2; PTR 330 1; PTR 332 1; PTR 334 2; PTR 338 1; PTR 340 1; PTR 342 1; V 9 1 4; PTR 344 1;
  PTR 346 1; PTR 348 1; PTR 350 1; PTR 352 1; V 2 8 4; V 8 2 4; V 1 8 4; V 8 1 4; PTR 354 1;
  PTR 356 1; PTR 358 1; PTR 360 1; V 2 7 4; V 7 2 4; V 6 4 4; V 1 7 4; V 5 5 4; V 7 1 4; PTR 362 1;
  V 3 6 4; V 6 3 4; V 4 5 4; V 5 4 4; V 2 6 4; V 6 2 4; V 1 6 4; PTR 364 1; V 3 5 4; V 6 1 3;
  V 6 1 3; V 5 3 4; V 4 4 4; V 2 5 3; V 2 5 3; V 5 2 3; V 5 2 3; V 1 5 3; V 1 5 3; V 5 1 3;
  V 5 1 3; V 0 5 4; V 5 0 4; V 3 4 3; V 3 4 3; V 4 3 3; V 2 4 3; V 4 2 3; V 3 3 3; V 4 1 2;
  V 4 1 2; V 1 4 3; V 0 4 3; V 2 3 2; V 2 3 2; V 3 2 2; V 3 2 2; V 4 0 3; V 0 3 3; V 1 3 2;
  V 1 3 2; V 3 1 2; V 3 0 2; V 2 2 1; V 2 2 1; V 1 2 1; V 2 1 1; V 0 2 1; V 2 0 1; PTR 366 1;
  PTR 368 1; V 14 14 4; PTR 370 1; PTR 372 1; PTR 374 1; V 15 11 4; PTR 376 1; V 13 13 4;
  V 10 15 4; V 15 10 4; V 11 14 4; V 14 11 4; V 12 13 4; V 13 12 4; V 9 15 4; V 15 9 4; V 14 10 4;
  V 11 13 4; V 13 11 4; V 8 15 4; V 15 8 4; V 12 12 4; V 9 14 4; V 14 9 4; V 7 15 4; V 15 7 4;
  V 10 13 4; V 13 10 4; V 11 12 4; V 6 15 4; PTR 378 1; V 12 11 3; V 12 11 3; V 15 6 3; V 15 6 3;
  V 8 14 4; V 14 8 4; V 5 15 4; V 9 13 4; V 15 5 3; V 15 5 3; V 7 14 3; V 7 14 3; V 14 7 3;
  V 14 7 3; V 10 12 3; V 10 12 3; V 12 10 3; V 12 10 3; V 11 11 3; V 11 11 3; V 13 9 4; V 8 13 4;
  V 4 15 3; V 4 15 3; V 15 4 3; V 15 4 3; V 3 15 3; V 3 15 3; V 15 3 3; V 15 3 3; V 13 8 3;
  V 13 8 3; V 14 6 3; V 14 6 3; V 2 15 3; V 2 15 3; V 15 2 3; V 15 2 3; V 6 14 4; V 15 0 4;
  V 1 15 3; V 1 15 3; V 15 1 3; V 15 1 3; V 9 12 3; V 9 12 3; V 12 9 3; V 12 9 3; V 5 14 3;
  V 10 11 3; V 11 10 3; V 14 5 3; V 7 13 3; V 13 7 3; V 4 14 3; V 14 4 3; V 8 12 3; V 12 8 3;
  V 3 14 3; V 6 13 3; V 13 6 3; V 14 3 3; V 9 11 3; V 11 9 3; V 2 14 3; V 2 14 3; V 10 10 3;
  V 10 10 3; V 14 2 3; V 14 2 3; V 1 14 3; V 1 14 3; V 14 1 3; V 14 1 3; V 0 14 4; V 14 0 4;
  V 5 13 3; V 5 13 3; V 13 5 3; V 13 5 3; V 7 12 3; V 12 7 3; V 4 13 3; V 8 11 3; V 13 4 2;
  V 13 4 2; V 11 8 3; V 9 10 3; V 10 9 3; V 6 12 3; V 12 6 3; V 3 13 3; V 13 3 2; V 13 3 2;
  V 13 2 2; V 13 2 2; V 2 13 3; V 0 13 3; V 1 13 2; V 1 13 2; V 7 11 2; V 7 11 2; V 11 7 2;
  V 11 7 2; V 13 1 2; V 13 1 2; V 5 12 3; V 13 0 3; V 12 5 2; V 12 5 2; V 8 10 2; V 8 10 2;
  V 10 8 2; V 4 12 2; V 12 4 2; V 6 11 2; V 11 6 2; V 11 6 2; V 9 9 3; V 0 12 3; V 3 12 2;
  V 3 12 2; V 12 3 2; V 12 3 2; V 7 10 2; V 7 10 2; V 10 7 2; V 10 7 2; V 10 6 2; V 10 6 2;
  V 12 0 3; V 0 11 3; V 12 2 1; V 12 2 1; V 2 12 2; V 5 11 2; V 11 5 2; V 1 12 2; V 8 9 2; V 9 8 2;
  V 12 1 2; V 4 11 2; V 11 4 2; V 6 10 2; V 3 11 2; V 7 9 2; V 11 3 1; V 11 3 1; V 9 7 2; V 8 8 2;
  V 2 11 2; V 5 10 2; V 11 2 1; V 11 2 1; V 10 5 2; V 1 11 2; V 11 1 1; V 11 1 1; V 11 0 2;
  V 6 9 2; V 9 6 2; V 4 10 2; V 10 4 2; V 7 8 2; V 8 7 2; V 3 10 2; V 10 3 1; V 10 3 1; V 5 9 1;
  V 9 5 1; V 2 10 1; V 10 2 1; V 1 10 1; V 10 1 1; V 0 10 2; V 10 0 2; V 6 8 1; V 6 8 1; V 8 6 1;
  V 4 9 1; V 9 4 1; V 3 9 1; V 9 3 1; V 9 3 1; V 7 7 2; V 0 9 2; V 5 8 1; V 8 5 1; V 2 9 1;
  V 6 7 1; V 7 6 1; V 9 2 1; V 1 9 1; V 9 0 1; V 4 8 1; V 8 4 1; V 5 7 1; V 7 5 1; V 3 8 1;
  V 8 3 1; V 6 6 1; V 4 7 1; V 7 4 1; V 0 8 1; V 8 0 1; V 5 6 1; V 6 5 1; V 3 7 1; V 7 3 1;
  V 4 6 1; V 0 7 1; V 7 0 1; V 0 6 1; V 6 0 1; V 15 15 1; V 14 15 1; V 15 14 1; V 13 15 1;
  V 15 13 1; V 12 15 1; V 15 12 1; V 13 14 1; V 14 13 1; V 11 15 1; V 12 14 1; V 14 12 1;
  V 10 14 1; V 0 15 1].

Definition hufftab16 : list huffpair := [
  PTR 16 4; PTR 32 4; PTR 48 4; PTR 64 2; V 1 1 4; V 0 1 4; V 1 0 3; V 1 0 3; V 0 0 1; V 0 0 1;
  V 0 0 1; V 0 0 1; V 0 0 1; V 0 0 1; V 0 0 1; V 0 0 1; PTR 68 3; PTR 76 3; PTR 84 2; V 15 15 4;
  PTR 88 2; PTR 92 1; PTR 94 4; V 15 2 4; PTR 110 1; V 1 15 4; V 15 1 4; PTR 112 4; PTR 128 4;
  PTR 144 4; PTR 160 4; PTR 176 4; PTR 192 4; PTR 208 3; PTR 216 3; PTR 224 3; PTR 232 3;
  PTR 240 3; PTR 248 3; PTR 256 3; PTR 264 2; PTR 268 2; PTR 272 1; PTR 274 2; PTR 278 2;
  PTR 282 1; V 5 1 4; PTR 284 1; PTR 286 1; PTR 288 1; PTR 290 1; V 1 4 4; V 4 1 4; PTR 292 1;
  V 2 3 4; V 3 2 4; V 1 3 3; V 1 3 3; V 3 1 3; V 3 1 3; V 0 3 4; V 3 0 4; V 2 2 3; V 2 2 3;
  V 1 2 2; V 2 1 2; V 0 2 2; V 2 0 2; V 14 15 3; V 15 14 3; V 13 15 3; V 15 13 3; V 12 15 3;
  V 15 12 3; V 11 15 3; V 15 11 3; V 10 15 2; V 10 15 2; V 15 10 3; V 9 15 3; V 15 9 3; V 15 8 3;
  V 8 15 2; V 8 15 2; V 7 15 2; V 15 7 2; V 6 15 2; V 15 6 2; V 5 15 2; V 15 5 2; V 4 15 1;
  V 4 15 1; V 15 4 1; V 15 3 1; V 15 0 1; V 15 0 1; V 15 0 1; V 15 0 1; V 15 0 1; V 15 0 1;
  V 15 0 1; V 15 0 1; V 3 15 2; V 3 15 2; V 3 15 2; V 3 15 2; PTR 294 4; PTR 310 3; PTR 318 3;
  PTR 326 3; V 2 15 1; V 0 15 1; PTR 334 2; PTR 338 2; PTR 342 2; PTR 346 1; PTR 348 2; PTR 352 2;
  PTR 356 1; PTR 358 2; PTR 362 2; PTR 366 2; PTR 370 2; V 14 3 4; PTR 374 1; PTR 376 1; PTR 378 1;
  PTR 380 1; PTR 382 1; PTR 384 1; PTR 386 1; V 0 13 4; PTR 388 1; PTR 390 1; PTR 392 1; V 3 12 4;
  PTR 394 1; V 1 12 4; V 12 0 4; PTR 396 1; V 14 2 3; V 14 2 3; V 2 14 4; V 1 14 4; V 13 3 4;
  V 2 13 4; V 13 2 4; V 13 1 4; V 3 11 4; PTR 398 1; V 1 13 3; V 1 13 3; V 12 4 4; V 6 11 4;
  V 12 3 4; V 10 7 4; V 2 12 3; V 2 12 3; V 12 2 4; V 11 5 4; V 12 1 4; V 0 12 4; V 4 11 4;
  V 11 4 4; V 6 10 4; V 10 6 4; V 11 3 3; V 11 3 3; V 5 10 4; V 10 5 4; V 2 11 3; V 2 11 3;
  V 11 2 3; V 11 2 3; V 1 11 3; V 1 11 3; V 11 1 3; V 11 1 3; V 0 11 4; V 11 0 4; V 6 9 4; V 9 6 4;
  V 4 10 4; V 10 4 4; V 7 8 4; V 8 7 4; V 10 3 3; V 10 3 3; V 3 10 4; V 5 9 4; V 2 10 3; V 2 10 3;
  V 9 5 4; V 6 8 4; V 10 1 3; V 10 1 3; V 8 6 4; V 7 7 4; V 9 4 3; V 9 4 3; V 4 9 4; V 5 7 4;
  V 6 7 3; V 6 7 3; V 10 2 2; V 10 2 2; V 10 2 2; V 10 2 2; V 1 10 2; V 1 10 2; V 0 10 3; V 10 0 3;
  V 3 9 3; V 9 3 3; V 5 8 3; V 8 5 3; V 2 9 2; V 2 9 2; V 9 2 2; V 9 2 2; V 7 6 3; V 0 9 3;
  V 1 9 2; V 1 9 2; V 9 1 2; V 9 1 2; V 9 0 3; V 4 8 3; V 8 4 3; V 7 5 3; V 3 8 3; V 8 3 3;
  V 6 6 3; V 2 8 3; V 8 2 2; V 8 2 2; V 4 7 3; V 7 4 3; V 1 8 2; V 1 8 2; V 8 1 2; V 8 1 2;
  V 8 0 2; V 8 0 2; V 0 8 3; V 5 6 3; V 3 7 2; V 3 7 2; V 7 3 2; V 7 3 2; V 6 5 3; V 4 6 3;
  V 2 7 2; V 2 7 2; V 7 2 2; V 7 2 2; V 6 4 3; V 5 5 3; V 0 7 2; V 0 7 2; V 1 7 1; V 1 7 1;
  V 1 7 1; V 1 7 1; V 7 1 1; V 7 1 1; V 7 0 2; V 3 6 2; V 6 3 2; V 4 5 2; V 5 4 2; V 2 6 2;
  V 6 2 1; V 1 6 1; V 6 1 1; V 6 1 1; V 0 6 2; V 6 0 2; V 5 3 1; V 5 3 1; V 3 5 2; V 4 4 2;
  V 2 5 1; V 5 2 1; V 1 5 1; V 0 5 1; V 3 4 1; V 4 3 1; V 5 0 1; V 2 4 1; V 4 2 1; V 3 3 1;
  V 0 4 1; V 4 0 1; V 12 14 4; PTR 400 1; V 13 14 3; V 13 14 3; V 14 9 3; V 14 9 3; V 14 10 4;
  V 13 9 4; V 14 14 2; V 14 14 2; V 14 14 2; V 14 14 2; V 14 13 3; V 14 13 3; V 14 11 3; V 14 11 3;
  V 11 14 2; V 11 14 2; V 12 13 2; V 12 13 2; V 13 12 3; V 13 11 3; V 10 14 2; V 10 14 2;
  V 12 12 2; V 12 12 2; V 10 13 3; V 13 10 3; V 7 14 3; V 10 12 3; V 12 10 2; V 12 10 2; V 12 9 3;
  V 7 13 3; V 5 14 2; V 5 14 2; V 11 13 1; V 11 13 1; V 11 13 1; V 11 13 1; V 9 14 1; V 9 14 1;
  V 11 12 2; V 12 11 2; V 8 14 2; V 14 8 2; V 9 13 2; V 14 7 2; V 11 11 2; V 8 13 2; V 13 8 2;
  V 6 14 2; V 14 6 1; V 9 12 1; V 10 11 2; V 11 10 2; V 14 5 2; V 13 7 2; V 4 14 1; V 4 14 1;
  V 14 4 2; V 8 12 2; V 12 8 1; V 3 14 1; V 6 13 1; V 6 13 1; V 13 6 2; V 9 11 2; V 11 9 2;
  V 10 10 2; V 14 1 1; V 14 1 1; V 13 4 1; V 13 4 1; V 11 8 2; V 10 9 2; V 7 11 1; V 7 11 1;
  V 11 7 2; V 13 0 2; V 0 14 1; V 14 0 1; V 5 13 1; V 13 5 1; V 7 12 1; V 12 7 1; V 4 13 1;
  V 8 11 1; V 9 10 1; V 6 12 1; V 12 6 1; V 3 13 1; V 5 12 1; V 12 5 1; V 8 10 1; V 10 8 1;
  V 9 9 1; V 4 12 1; V 11 6 1; V 7 10 1; V 5 11 1; V 8 9 1; V 9 8 1; V 7 9 1; V 9 7 1; V 8 8 1;
  V 14 12 1; V 13 13 1].

Definition hufftab24 : list huffpair := [
  PTR 16 4; PTR 32 4; PTR 48 4; V 15 15 4; PTR 64 4; PTR 80 4; PTR 96 4; PTR 112 4; PTR 128 4;
  PTR 144 4; PTR 160 3; PTR 168 2; V 1 1 4; V 0 1 4; V 1 0 4; V 0 0 4; V 14 15 4; V 15 14 4;
  V 13 15 4; V 15 13 4; V 12 15 4; V 15 12 4; V 11 15 4; V 15 11 4; V 15 10 3; V 15 10 3;
  V 10 15 4; V 9 15 4; V 15 9 3; V 15 9 3; V 15 8 3; V 15 8 3; V 8 15 4; V 7 15 4; V 15 7 3;
  V 15 7 3; V 6 15 3; V 6 15 3; V 15 6 3; V 15 6 3; V 5 15 3; V 5 15 3; V 15 5 3; V 15 5 3;
  V 4 15 3; V 4 15 3; V 15 4 3; V 15 4 3; V 3 15 3; V 3 15 3; V 15 3 3; V 15 3 3; V 2 15 3;
  V 2 15 3; V 15 2 3; V 15 2 3; V 15 1 3; V 15 1 3; V 1 15 4; V 15 0 4; PTR 172 3; PTR 180 3;
  PTR 188 3; PTR 196 3; PTR 204 4; PTR 220 3; PTR 228 3; PTR 236 3; PTR 244 2; PTR 248 2;
  PTR 252 2; PTR 256 2; PTR 260 2; PTR 264 2; PTR 268 2; PTR 272 2; PTR 276 2; PTR 280 3;
  PTR 288 2; PTR 292 2; PTR 296 2; PTR 300 3; PTR 308 2; PTR 312 3; PTR 320 1; PTR 322 2;
  PTR 326 2; PTR 330 1; PTR 332 2; PTR 336 1; PTR 338 1; PTR 340 1; PTR 342 1; PTR 344 1;
  PTR 346 1; PTR 348 1; PTR 350 1; PTR 352 1; PTR 354 1; PTR 356 1; PTR 358 1; PTR 360 1;
  PTR 362 1; PTR 364 1; PTR 366 1; PTR 368 1; PTR 370 2; PTR 374 1; PTR 376 2; V 7 3 4; PTR 380 1;
  V 7 2 4; V 4 6 4; V 6 4 4; V 5 5 4; V 7 1 4; V 3 6 4; V 6 3 4; V 4 5 4; V 5 4 4; V 2 6 4;
  V 6 2 4; V 1 6 4; V 6 1 4; PTR 382 1; V 3 5 4; V 5 3 4; V 4 4 4; V 2 5 4; V 5 2 4; V 1 5 4;
  PTR 384 1; V 5 1 3; V 5 1 3; V 3 4 4; V 4 3 4; V 2 4 3; V 2 4 3; V 4 2 3; V 4 2 3; V 3 3 3;
  V 3 3 3; V 1 4 3; V 1 4 3; V 4 1 3; V 4 1 3; V 0 4 4; V 4 0 4; V 2 3 3; V 2 3 3; V 3 2 3;
  V 3 2 3; V 1 3 2; V 1 3 2; V 1 3 2; V 1 3 2; V 3 1 2; V 3 1 2; V 3 1 2; V 3 1 2; V 0 3 3;
  V 3 0 3; V 2 2 2; V 2 2 2; V 1 2 1; V 1 2 1; V 1 2 1; V 1 2 1; V 2 1 1; V 2 1 1; V 0 2 2;
  V 2 0 2; V 0 15 1; V 0 15 1; V 0 15 1; V 0 15 1; V 14 14 3; V 13 14 3; V 14 13 3; V 12 14 3;
  V 14 12 3; V 13 13 3; V 11 14 3; V 14 11 3; V 12 13 3; V 13 12 3; V 10 14 3; V 14 10 3;
  V 11 13 3; V 13 11 3; V 12 12 3; V 9 14 3; V 14 9 3; V 10 13 3; V 13 10 3; V 11 12 3; V 12 11 3;
  V 8 14 3; V 14 8 3; V 9 13 3; V 13 9 3; V 7 14 3; V 14 7 3; V 10 12 3; V 12 10 3; V 12 10 3;
  V 11 11 3; V 11 11 3; V 8 13 3; V 8 13 3; V 13 8 3; V 13 8 3; V 0 14 4; V 14 0 4; V 0 13 3;
  V 0 13 3; V 14 6 2; V 14 6 2; V 14 6 2; V 14 6 2; V 6 14 3; V 9 12 3; V 12 9 2; V 12 9 2;
  V 5 14 2; V 5 14 2; V 11 10 2; V 11 10 2; V 14 5 2; V 14 5 2; V 10 11 3; V 7 13 3; V 13 7 2;
  V 13 7 2; V 14 4 2; V 14 4 2; V 8 12 2; V 8 12 2; V 12 8 2; V 12 8 2; V 4 14 3; V 2 14 3;
  V 3 14 2; V 3 14 2; V 6 13 2; V 13 6 2; V 14 3 2; V 9 11 2; V 11 9 2; V 10 10 2; V 14 2 2;
  V 1 14 2; V 14 1 2; V 5 13 2; V 13 5 2; V 7 12 2; V 12 7 2; V 4 13 2; V 8 11 2; V 11 8 2;
  V 13 4 2; V 9 10 2; V 10 9 2; V 6 12 2; V 12 6 2; V 3 13 2; V 13 3 2; V 2 13 2; V 13 2 2;
  V 1 13 2; V 7 11 2; V 11 7 2; V 13 1 2; V 5 12 2; V 12 5 2; V 8 10 2; V 10 8 2; V 9 9 2;
  V 4 12 2; V 12 4 2; V 6 11 2; V 6 11 2; V 11 6 2; V 11 6 2; V 13 0 3; V 0 12 3; V 3 12 2;
  V 3 12 2; V 12 3 2; V 7 10 2; V 10 7 2; V 2 12 2; V 12 2 2; V 5 11 2; V 11 5 2; V 1 12 2;
  V 8 9 2; V 9 8 2; V 12 1 2; V 4 11 2; V 12 0 3; V 0 11 3; V 3 11 2; V 3 11 2; V 11 0 3; V 0 10 3;
  V 1 10 2; V 1 10 2; V 11 4 1; V 11 4 1; V 6 10 2; V 10 6 2; V 7 9 2; V 7 9 2; V 9 7 2; V 9 7 2;
  V 10 0 3; V 0 9 3; V 9 0 2; V 9 0 2; V 11 3 1; V 8 8 1; V 2 11 2; V 5 10 2; V 11 2 1; V 11 2 1;
  V 10 5 2; V 1 11 2; V 11 1 2; V 6 9 2; V 9 6 1; V 10 4 1; V 4 10 2; V 7 8 2; V 8 7 1; V 8 7 1;
  V 3 10 1; V 10 3 1; V 5 9 1; V 9 5 1; V 2 10 1; V 10 2 1; V 10 1 1; V 6 8 1; V 8 6 1; V 7 7 1;
  V 4 9 1; V 9 4 1; V 3 9 1; V 9 3 1; V 5 8 1; V 8 5 1; V 2 9 1; V 6 7 1; V 7 6 1; V 9 2 1;
  V 1 9 1; V 9 1 1; V 4 8 1; V 8 4 1; V 5 7 1; V 7 5 1; V 3 8 1; V 8 3 1; V 6 6 1; V 2 8 1;
  V 8 2 1; V 1 8 1; V 4 7 1; V 7 4 1; V 8 1 1; V 8 1 1; V 0 8 2; V 8 0 2; V 5 6 1; V 6 5 1;
  V 1 7 1; V 1 7 1; V 0 7 2; V 7 0 2; V 3 7 1; V 2 7 1; V 0 6 1; V 6 0 1; V 0 5 1; V 5 0 1].

Definition mad_huff_quad_table : list (list huffquad) := [hufftabA; hufftabB].

Definition mad_huff_pair_table : list hufftable := [
  MkHuffTable (Some hufftab0) 0 0; MkHuffTable (Some hufftab1) 0 3; MkHuffTable (Some hufftab2) 0 3;
  MkHuffTable (Some hufftab3) 0 3; MkHuffTable None 0 0; MkHuffTable (Some hufftab5) 0 3;
  MkHuffTable (Some hufftab6) 0 4; MkHuffTable (Some hufftab7) 0 4; MkHuffTable (Some hufftab8) 0 4;
  MkHuffTable (Some hufftab9) 0 4; MkHuffTable (Some hufftab10) 0 4; MkHuffTable (Some hufftab11) 0 4;
  MkHuffTable (Some hufftab12) 0 4; MkHuffTable (Some hufftab13) 0 4; MkHuffTable None 0 0;
  MkHuffTable (Some hufftab15) 0 4; MkHuffTable (Some hufftab16) 1 4; MkHuffTable (Some hufftab16) 2 4;
  MkHuffTable (Some hufftab16) 3 4; MkHuffTable (Some hufftab16) 4 4; MkHuffTable (Some hufftab16) 6 4;
  MkHuffTable (Some hufftab16) 8 4; MkHuffTable (Some hufftab16) 10 4; MkHuffTable (Some hufftab16) 13 4;
  MkHuffTable (Some hufftab24) 4 4; MkHuffTable (Some hufftab24) 5 4; MkHuffTable (Some hufftab24) 6 4;
  MkHuffTable (Some hufftab24) 7 4; MkHuffTable (Some hufftab24) 8 4; MkHuffTable (Some hufftab24) 9 4;
  MkHuffTable (Some hufftab24) 11 4; MkHuffTable (Some hufftab24) 13 4].

(** ** Lookups *)

Section Lookup.
Variable long_bits : Z.

(** The shift is undefined for a negative distance or the width of [long]. *)
Definition MASK (cache sz bits : Z) : option Z :=
  if (0 <=? sz - bits) && (sz - bits <? long_bits)
  then Some ((cache .>> (sz - bits)) .& ((1 .<< bits) - 1)) else None.

(** The value at a pair entry, and what is left of the cache: the code from
  [clumpsz = startbits] to [cachesz -= pair->value.hlen]; [offset] is 0 for
  the first lookup. *)
Fixpoint pair_lookup (fuel : nat) (table : list huffpair) (bitcache cachesz offset clumpsz : Z)
  : option (Z * Z * Z) :=
  match fuel with
  | O => None
  | S fuel =>
    i ← MASK bitcache cachesz clumpsz;
    pair ← aget table (offset + i);
    match pair with
    | PTR offset bits => pair_lookup fuel table bitcache (cachesz - clumpsz) offset bits
    | V x y hlen => Some (x, y, cachesz - hlen)
    end
  end.

(** At most one extra lookup; a pointer found there would be read as a value. *)
Definition quad_lookup (table : list huffquad) (bitcache cachesz : Z) : option (Z * Z * Z * Z * Z) :=
  i ← MASK bitcache cachesz 4;
  quad ← aget table i;
  match quad with
  | QPTR offset bits =>
    let cachesz := cachesz - 4 in
    i ← MASK bitcache cachesz bits;
    quad ← aget table (offset + i);
    match quad with
    | QPTR _ _ => None
    | QV v w x y hlen => Some (v, w, x, y, cachesz - hlen)
    end
  | QV v w x y hlen => Some (v, w, x, y, cachesz - hlen)
  end.
End Lookup.

(** ** Codes *)

(** The next [n] bits of a cache of [sz] bits. *)
Definition window (cache sz n : Z) : Z := (cache / 2 ^ (sz - n)) mod 2 ^ n.

(** A table as a tree, whatever its entries are: an entry is a pointer (offset,
    bits) or a value with the length of its last part. *)
Section Tree.
Context {T A : Type} `{EqDecision T}.
Variables (view : T -> Z * Z + A * Z) (tbl : list T).

(** The code words below the node of [bits] bits at [offset]: length, bits and
  value.  Entries that differ in unused bits repeat a word; the first counts. *)
Fixpoint leaves (fuel : nat) (offset bits : Z) : list (Z * Z * A) :=
  match fuel with
  | O => []
  | S fuel =>
    flat_map (fun i =>
      match view <$> aget tbl (offset + i) with
      | Some (inl (o, b)) => map (fun '(len, code, v) => (bits + len, i * 2 ^ len + code, v)) (leaves fuel o b)
      | Some (inr (v, hlen)) =>
          if i mod 2 ^ (bits - hlen) =? 0 then [(hlen, i / 2 ^ (bits - hlen), v)] else []
      | None => []
      end) (seqZ 0 (2 ^ bits))
  end.

(** The node is complete, repeats are repeats, and [depth] bits are enough. *)
Fixpoint tree_ok (fuel : nat) (offset bits depth : Z) : bool :=
  match fuel with
  | O => false
  | S fuel =>
    (0 <=? bits) && (bits <=? depth) &&
    forallb (fun i =>
      match aget tbl (offset + i) with
      | None => false
      | Some e =>
          match view e with
          | inl (o, b) => tree_ok fuel o b (depth - bits)
          | inr (_, hlen) =>
              (0 <=? hlen) && (hlen <=? bits) &&
              forallb (fun j => bool_decide (aget tbl (offset + (i - i mod 2 ^ (bits - hlen) + j)) = Some e))
                (seqZ 0 (2 ^ (bits - hlen)))
          end
      end) (seqZ 0 (2 ^ bits))
  end.

(** The lookup on a tree. *)
Fixpoint walk (fuel : nat) (long_bits cache sz offset bits : Z) : option (A * Z) :=
  match fuel with
  | O => None
  | S fuel =>
    i ← MASK long_bits cache sz bits;
    e ← aget tbl (offset + i);
    match view e with
    | inl (o, b) => walk fuel long_bits cache (sz - bits) o b
    | inr (v, hlen) => Some (v, sz - hlen)
    end
  end.

(** ** Windows *)

Lemma window_range cache sz n : 0 <= n -> 0 <= window cache sz n < 2 ^ n.
Proof. intros. apply Z.mod_pos_bound, pow2_pos. done. Qed.

Lemma window_app cache sz n m : 0 <= n -> 0 <= m -> n + m <= sz ->
  window cache sz (n + m) = window cache sz n * 2 ^ m + window cache (sz - n) m.
Proof.
  intros Hn Hm Hs. unfold window. set (x := cache / 2 ^ (sz - (n + m))).
  assert (cache / 2 ^ (sz - n) = x / 2 ^ m) as ->.
  { unfold x. rewrite Z.div_div by (try apply Z.pow_nonzero; try apply pow2_pos; lia).
  rewrite <- Z.pow_add_r by lia. do 2 f_equal. lia. }
  replace (sz - n - m) with (sz - (n + m)) by lia. fold x.
  rewrite Z.pow_add_r by lia. pose proof (pow2_pos n Hn). pose proof (pow2_pos m Hm).
  rewrite (Z.mul_comm (2 ^ n)), Z.rem_mul_r by lia. lia.
Qed.

Lemma MASK_window W cache sz bits : 0 <= bits <= sz -> sz < W -> MASK W cache sz bits = Some (window cache sz bits).
Proof.
  intros. unfold MASK. rewrite (proj2 (Z.leb_le 0 (sz - bits))), (proj2 (Z.ltb_lt (sz - bits) W)) by lia.
  cbn [andb]. by rewrite mask_low, Z.shiftr_div_pow2 by lia.
Qed.

Lemma window_eq i code cache sz n m : 0 <= n -> 0 <= m -> n + m <= sz -> 0 <= i -> 0 <= code < 2 ^ m ->
  window cache sz (n + m) = i * 2 ^ m + code -> window cache sz n = i /\ window cache (sz - n) m = code.
Proof.
  intros Hn Hm Hs Hi Hc E. rewrite window_app in E by done.
  pose proof (window_range cache (sz - n) m Hm). pose proof (window_range cache sz n Hn).
  set (a := window cache sz n) in *. set (b := window cache (sz - n) m) in *. set (P := 2 ^ m) in *.
  assert (a = i) as -> by nia. lia.
Qed.

Lemma in_leaves fuel offset bits len code v :
  (len, code, v) ∈ leaves (S fuel) offset bits <-> exists i, 0 <= i < 2 ^ bits /\
  ((exists o b len' code', view <$> aget tbl (offset + i) = Some (inl (o, b)) /\
      (len', code', v) ∈ leaves fuel o b /\ len = bits + len' /\ code = i * 2 ^ len' + code') \/
   (view <$> aget tbl (offset + i) = Some (inr (v, len)) /\ i mod 2 ^ (bits - len) = 0 /\
      code = i / 2 ^ (bits - len))).
Proof.
  cbn [leaves]. rewrite list_elem_of_In, in_flat_map. split.
  - intros (i&Hi%list_elem_of_In%elem_of_seqZ&H). exists i. split; [done|].
  destruct (view <$> aget tbl (offset + i)) as [[[o b]|[v' hlen]]|] eqn:E; [..|done].
  + left. apply list_elem_of_In, list_elem_of_fmap in H as ([[len' code'] v']&[= -> -> ->]&Hin). by eexists _, _, _, _.
  + right. destruct (Z.eqb_spec (i mod 2 ^ (bits - hlen)) 0); [|done].
    destruct H as [[= <- <- <-]|[]]. done.
  - intros (i&Hi&H). exists i. split; [by apply list_elem_of_In, elem_of_seqZ|].
  destruct H as [(o&b&len'&code'&->&Hin&->&->)|(->&->&->)].
  + apply list_elem_of_In, list_elem_of_fmap. by exists (len', code', v).
  + by left.
Qed.

Lemma tree_ok_S fuel offset bits depth : tree_ok (S fuel) offset bits depth = true -> 0 <= bits <= depth /\
  forall i, 0 <= i < 2 ^ bits -> exists e, aget tbl (offset + i) = Some e /\
  match view e with
  | inl (o, b) => tree_ok fuel o b (depth - bits) = true
  | inr (_, hlen) => 0 <= hlen <= bits /\ forall j, 0 <= j < 2 ^ (bits - hlen) ->
      aget tbl (offset + (i - i mod 2 ^ (bits - hlen) + j)) = Some e
  end.
Proof.
  cbn [tree_ok]. intros [[H1 H2]%andb_true_iff H]%andb_true_iff. zbool. split; [done|]. intros i Hi.
  pose proof (forall_range _ 0 (2 ^ bits) H i ltac:(lia)) as Hn. cbn beta in Hn.
  destruct (aget tbl (offset + i)) as [e|]; [|done]. exists e. split; [done|].
  destruct (view e) as [[o b]|[v hlen]]; [done|].
  apply andb_true_iff in Hn as [[H3 H4]%andb_true_iff Hn]. zbool. split; [done|]. intros j Hj.
  pose proof (forall_range _ 0 (2 ^ (bits - hlen)) Hn j ltac:(lia)) as Hb. by apply bool_decide_eq_true in Hb.
Qed.

Lemma leaf_bounds fuel : forall offset bits depth len code v, tree_ok fuel offset bits depth = true ->
  (len, code, v) ∈ leaves fuel offset bits -> 0 <= len <= depth /\ 0 <= code < 2 ^ len.
Proof.
  induction fuel as [|fuel IH]; intros offset bits depth len code v Hok Hin; [done|].
  apply tree_ok_S in Hok as [Hb Hn]. apply in_leaves in Hin as (i&Hi&H).
  destruct (Hn i Hi) as (e&E&He). rewrite E in H. cbn in H.
  destruct H as [(o&b&len'&code'&[= Ev]&Hin&->&->)|([= Ev]&_&->)]; rewrite Ev in He.
  - destruct (IH _ _ _ _ _ _ He Hin) as [H1 H2]. split; [lia|]. rewrite Z.pow_add_r by lia. nia.
  - destruct He as [H1 _]. split; [lia|]. pose proof (pow2_pos (bits - len) ltac:(lia)).
  split; [apply Z.div_pos; lia|]. apply Z.div_lt_upper_bound; [lia|]. rewrite <- Z.pow_add_r by lia.
  replace (bits - len + len) with bits by lia. lia.
Qed.

(** A code word at the top of the cache is decoded. *)
Lemma walk_leaf W fuel : forall offset bits depth cache sz len code v,
  tree_ok fuel offset bits depth = true -> depth <= sz < W ->
  (len, code, v) ∈ leaves fuel offset bits -> window cache sz len = code ->
  walk fuel W cache sz offset bits = Some (v, sz - len).
Proof.
  induction fuel as [|fuel IH]; intros offset bits depth cache sz len code v Hok Hsz Hin Hw; [done|].
  pose proof (tree_ok_S _ _ _ _ Hok) as [Hb Hn]. apply in_leaves in Hin as (i&Hi&H). cbn [walk].
  rewrite MASK_window by lia. cbn [mbind option_bind]. destruct (Hn i Hi) as (e&E&He). rewrite E in H. cbn in H.
  destruct H as [(o&b&len'&code'&[= Ev]&Hin&->&->)|([= Ev]&Hm&->)]; rewrite Ev in He.
  - destruct (leaf_bounds _ _ _ _ _ _ _ He Hin) as [H1 H2].
  apply window_eq in Hw as [-> Hw]; [|lia..]. rewrite E. cbn [mbind option_bind]. rewrite Ev.
  rewrite (IH _ _ (depth - bits) _ _ len' code' v) by (done || lia). do 2 f_equal. lia.
  - destruct He as [H1 Hj]. replace bits with (len + (bits - len)) at 1 by lia.
  rewrite window_app, Hw by lia. pose proof (pow2_pos (bits - len) ltac:(lia)).
  rewrite Hm in Hj. specialize (Hj (window cache (sz - len) (bits - len)) (window_range _ _ (bits - len) ltac:(lia))).
  replace (i / 2 ^ (bits - len) * 2 ^ (bits - len)) with (i - 0)
    by (pose proof (Z.div_mod i (2 ^ (bits - len)) ltac:(lia)); lia).
  rewrite Hj. cbn [mbind option_bind]. by rewrite Ev.
Qed.

(** Every cache with enough bits starts with a code word. *)
Lemma walk_total W fuel : forall offset bits depth cache sz,
  tree_ok fuel offset bits depth = true -> depth <= sz < W ->
  exists len code v, (len, code, v) ∈ leaves fuel offset bits /\ window cache sz len = code /\
  walk fuel W cache sz offset bits = Some (v, sz - len).
Proof.
  induction fuel as [|fuel IH]; intros offset bits depth cache sz Hok Hsz; [done|].
  pose proof (tree_ok_S _ _ _ _ Hok) as [Hb Hn].
  destruct (Hn _ (window_range cache sz bits ltac:(lia))) as (e&E&He).
  destruct (view e) as [[o b]|[v hlen]] eqn:Ev.
  - destruct (IH o b (depth - bits) cache (sz - bits) He ltac:(lia)) as (len&code&v&Hin&Hw&_).
  destruct (leaf_bounds _ _ _ _ _ _ _ He Hin) as [H1 H2].
  assert ((bits + len, window cache sz bits * 2 ^ len + code, v) ∈ leaves (S fuel) offset bits) as Hin'.
  { apply in_leaves. exists (window cache sz bits). split; [apply window_range; lia|]. left.
    exists o, b, len, code. by rewrite E, <- Ev. }
  assert (window cache sz (bits + len) = window cache sz bits * 2 ^ len + code) as Hw'
    by (by rewrite window_app, Hw by lia).
  eexists _, _, _. split; [exact Hin'|]. split; [exact Hw'|]. by eapply walk_leaf.
  - destruct He as [H1 Hj]. pose proof (pow2_pos (bits - hlen) ltac:(lia)) as Hp.
  set (k := window cache sz bits) in *. pose proof (window_range cache sz bits ltac:(lia)) as Hk. fold k in Hk.
  pose proof (Z.mod_pos_bound k _ Hp) as Hr. pose proof (Z.div_mod k (2 ^ (bits - hlen)) ltac:(lia)) as Ed.
  set (i := k - k mod 2 ^ (bits - hlen)).
  assert (i = 2 ^ (bits - hlen) * (k / 2 ^ (bits - hlen))) as Ei by (unfold i; lia).
  assert ((hlen, i / 2 ^ (bits - hlen), v) ∈ leaves (S fuel) offset bits) as Hin'.
  { apply in_leaves. exists i. split; [pose proof (Z.mod_le k _ ltac:(lia) Hp); lia|]. right. specialize (Hj 0 ltac:(lia)).
    fold i in Hj. rewrite Z.add_0_r in Hj. rewrite Hj. cbn. rewrite Ev. split; [done|]. split; [|done].
    rewrite Ei, Z.mul_comm. apply Z.mod_mul; lia. }
  assert (window cache sz hlen = i / 2 ^ (bits - hlen)) as Hw.
  { assert (k = window cache sz hlen * 2 ^ (bits - hlen) + window cache (sz - hlen) (bits - hlen)) as Ek
      by (rewrite <- window_app by lia; unfold k; f_equal; lia).
    pose proof (window_range cache (sz - hlen) (bits - hlen) ltac:(lia)).
    rewrite Ei, Z.mul_comm, Z.div_mul, Ek, Z.div_add_l, Z.div_small by lia. lia. }
  eexists _, _, _. split; [exact Hin'|]. split; [exact Hw|]. by eapply walk_leaf.
Qed.

(** What a lookup returns is the code word at the top of the cache. *)
Lemma walk_word W fuel offset bits depth cache sz v sz' :
  tree_ok fuel offset bits depth = true -> depth <= sz < W ->
  walk fuel W cache sz offset bits = Some (v, sz') <->
  exists len code, (len, code, v) ∈ leaves fuel offset bits /\ window cache sz len = code /\ sz' = sz - len.
Proof.
  intros Hok Hsz. split.
  - destruct (walk_total W fuel offset bits depth cache sz Hok Hsz) as (len&code&v'&Hin&Hw&->).
  intros [= <- <-]. by exists len, code.
  - intros (len&code&Hin&Hw&->). by eapply walk_leaf.
Qed.
End Tree.

(** ** The Layer III tables *)

Definition pair_view (e : huffpair) : Z * Z + Z * Z * Z :=
  match e with PTR o b => inl (o, b) | V x y hlen => inr (x, y, hlen) end.

Definition quad_view (e : huffquad) : Z * Z + Z * Z * Z * Z * Z :=
  match e with QPTR o b => inl (o, b) | QV v w x y hlen => inr (v, w, x, y, hlen) end.

Lemma pair_lookup_walk W (fuel : nat) t : forall cache sz offset bits,
  pair_lookup W fuel t cache sz offset bits = walk pair_view t fuel W cache sz offset bits.
Proof.
  induction fuel as [|fuel IH]; intros; [done|]. cbn [pair_lookup walk].
  destruct (MASK W cache sz bits) as [i|]; [|done]. cbn [mbind option_bind].
  destruct (aget t (offset + i)) as [[o b|x y hlen]|]; [|done|done]. cbn [mbind option_bind pair_view]. apply IH.
Qed.

(** The code words of a pair table and of a quad table. *)
Definition pair_words (h : hufftable) : list (Z * Z * (Z * Z)) :=
  match table h with Some t => leaves pair_view t 8 0 (startbits h) | None => [] end.

Definition quad_words (t : list huffquad) : list (Z * Z * (Z * Z * Z * Z)) := leaves quad_view t 2 0 4.

Definition pair_max (h : hufftable) : Z := foldr (fun w m => Z.max (fst (snd w)) m) 0 (pair_words h).

(** The codes as the standard has them: one word for each pair of values up to the
    table's maximum, at most 19 bits; and one for each four bits. *)
Definition words_check (words : list (Z * Z * (Z * Z))) (values : list (Z * Z)) (m : Z) : bool :=
  forallb (fun w => (0 <=? fst (snd w)) && (fst (snd w) <=? m) && (0 <=? snd (snd w)) &&
                    (snd (snd w) <=? m) && (fst (fst w) <=? 19)) words &&
  bool_decide (NoDup values) &&
  forallb (fun x => forallb (fun y => bool_decide ((x, y) ∈ values)) (seqZ 0 (m + 1))) (seqZ 0 (m + 1)).

Definition pair_check (h : hufftable) : bool :=
  match table h with
  | None => true
  | Some t => tree_ok pair_view t 8 0 (startbits h) 20 &&
              words_check (pair_words h) (map snd (pair_words h)) (pair_max h)
  end.

Lemma pair_tables_check : forallb pair_check mad_huff_pair_table = true.
Proof. vm_compute. reflexivity. Qed.

Definition quads : list (Z * Z * Z * Z) :=
  map (fun k => (k / 8, k / 4 mod 2, k / 2 mod 2, k mod 2)) (seqZ 0 16).

Definition quad_check (t : list huffquad) : bool :=
  tree_ok quad_view t 2 0 4 6 && bool_decide (NoDup (map snd (quad_words t))) &&
  forallb (fun q => bool_decide (q ∈ map snd (quad_words t))) quads &&
  forallb (fun w => bool_decide (snd w ∈ quads) && (fst (fst w) <=? 6)) (quad_words t).

Lemma quad_tables_check : forallb quad_check mad_huff_quad_table = true.
Proof. vm_compute. reflexivity. Qed.

Lemma aget_In {T} (l : list T) i v : aget l i = Some v -> In v l.
Proof.
  intros H. pose proof (aget_inv _ _ _ H). rewrite aget_lookup in H by lia.
  by eapply list_elem_of_In, list_elem_of_lookup_2.
Qed.

Section Tables.
Variable W : Z.

Lemma pair_table_spec n h t : aget mad_huff_pair_table n = Some h -> table h = Some t ->
  tree_ok pair_view t 8 0 (startbits h) 20 = true /\ NoDup (map snd (pair_words h)) /\
  (forall len code x y, (len, code, (x, y)) ∈ pair_words h -> len <= 19) /\
  (forall x y, (x, y) ∈ map snd (pair_words h) <-> 0 <= x <= pair_max h /\ 0 <= y <= pair_max h).
Proof.
  intros Hn Ht. pose proof pair_tables_check as H. rewrite forallb_forall in H.
  specialize (H h (aget_In _ _ _ Hn)). unfold pair_check in H. rewrite Ht in H.
  apply andb_true_iff in H as [H1 [[H2 H3]%andb_true_iff H4]%andb_true_iff].
  apply bool_decide_eq_true in H3. rewrite forallb_forall in H2. split; [done|]. split; [done|].
  split; [|intros x y; split].
  - intros len code x y Hw%list_elem_of_In. apply H2 in Hw. zbool. done.
  - intros ([[len code] [x' y']]&[= -> ->]&Hw)%list_elem_of_fmap. apply list_elem_of_In, H2 in Hw. cbn in Hw. zbool. lia.
  - intros [Hx Hy]. pose proof (forall_range _ _ _ H4 x ltac:(lia)) as H5. cbn beta in H5.
  pose proof (forall_range _ _ _ H5 y ltac:(lia)) as H6. by apply bool_decide_eq_true in H6.
Qed.

Lemma quad_table_spec n t : aget mad_huff_quad_table n = Some t ->
  tree_ok quad_view t 2 0 4 6 = true /\ NoDup (map snd (quad_words t)) /\
  (forall len code q, (len, code, q) ∈ quad_words t -> len <= 6) /\
  (forall v w x y, (v, w, x, y) ∈ map snd (quad_words t) <->
   0 <= v < 2 /\ 0 <= w < 2 /\ 0 <= x < 2 /\ 0 <= y < 2).
Proof.
  intros Hn. pose proof quad_tables_check as H. rewrite forallb_forall in H.
  specialize (H t (aget_In _ _ _ Hn)). unfold quad_check in H.
  apply andb_true_iff in H as [[[H1 H2]%andb_true_iff H3]%andb_true_iff H4].
  apply bool_decide_eq_true in H2. rewrite forallb_forall in H3, H4. split; [done|]. split; [done|].
  split; [|intros v w x y; split].
  - intros len code q Hw%list_elem_of_In. apply H4 in Hw. zbool. done.
  - intros ([[len code] q]&E&Hw)%list_elem_of_fmap. apply list_elem_of_In, H4, andb_true_iff in Hw as [Hw _].
  cbn in E. subst q.
  apply bool_decide_eq_true in Hw. apply list_elem_of_fmap in Hw as (k&[= -> -> -> ->]&Hk%elem_of_seqZ). repeat split; zdiv.
  - intros (Hv&Hw&Hx&Hy). eapply bool_decide_eq_true, H3, list_elem_of_In, list_elem_of_fmap.
  exists (8 * v + 4 * w + 2 * x + y). split; [|apply elem_of_seqZ; lia]. repeat f_equal; zdiv.
Qed.

(** Decoding a pair. *)
Lemma pair_lookup_word n h t cache sz len code x y : aget mad_huff_pair_table n = Some h -> table h = Some t ->
  20 <= sz < W -> (len, code, (x, y)) ∈ pair_words h -> window cache sz len = code ->
  pair_lookup W 8 t cache sz 0 (startbits h) = Some (x, y, sz - len).
Proof.
  intros Hn Ht Hsz Hin Hw. destruct (pair_table_spec n h t Hn Ht) as (Hok&_).
  unfold pair_words in Hin. rewrite Ht in Hin. rewrite pair_lookup_walk. by eapply walk_leaf.
Qed.

Lemma quad_lookup_walk t cache sz : tree_ok quad_view t 2 0 4 6 = true ->
  quad_lookup W t cache sz = walk quad_view t 2 W cache sz 0 4.
Proof.
  intros Hok. unfold quad_lookup. cbn [walk].
  destruct (MASK W cache sz 4) as [i|]; [|done]. cbn [mbind option_bind]. rewrite Z.add_0_l.
  destruct (aget t i) as [[o b|]|]; [|done|done]. cbn [mbind option_bind quad_view].
  destruct (MASK W cache (sz - 4) b) as [j|]; [|done]. cbn [mbind option_bind].
  by destruct (aget t (o + j)) as [[]|].
Qed.
End Tables.

(** ** Claims *)

(** C24: the Layer III codes.  Each of the thirty pair tables, and both quad tables,
    is a complete prefix code with exactly one word, of at most 19 (6) bits, for
    every pair of values up to its maximum (every four bits); and for every
    content of a bit cache with room for a lookup, decoding returns the value
    whose word stands at the top, and only that, with exactly its bits used. *)
Theorem huffman_lookup_correct W n h t k tq cache sz :
  aget mad_huff_pair_table n = Some h -> table h = Some t -> aget mad_huff_quad_table k = Some tq ->
  20 <= sz < W ->
  (forall x y, 0 <= x <= pair_max h /\ 0 <= y <= pair_max h <->
     exists len code, (len, code, (x, y)) ∈ pair_words h /\ len <= 19) /\
  NoDup (map snd (pair_words h)) /\ NoDup (map snd (quad_words tq)) /\
  (exists x y sz', pair_lookup W 8 t cache sz 0 (startbits h) = Some (x, y, sz')) /\
  (forall x y sz', pair_lookup W 8 t cache sz 0 (startbits h) = Some (x, y, sz') <->
     exists len code, (len, code, (x, y)) ∈ pair_words h /\ window cache sz len = code /\ sz' = sz - len) /\
  (exists q, quad_lookup W tq cache sz = Some q) /\
  (forall v w x y sz', quad_lookup W tq cache sz = Some (v, w, x, y, sz') <->
     exists len code, (len, code, (v, w, x, y)) ∈ quad_words tq /\ window cache sz len = code /\ sz' = sz - len).
Proof.
  intros Hn Ht Hk Hsz. destruct (pair_table_spec n h t Hn Ht) as (Hok&Hd&Hl&Hm).
  destruct (quad_table_spec k tq Hk) as (Qok&Qd&_). rewrite quad_lookup_walk, pair_lookup_walk by done.
  assert (Hpw : pair_words h = leaves pair_view t 8 0 (startbits h)) by (unfold pair_words; by rewrite Ht).
  split; [|split; [done|split; [done|split; [|split; [|split]]]]].
  - intros x y. rewrite <- Hm, list_elem_of_fmap. split.
    + intros ([[len code] [x' y']]&[= <- <-]&Hw). exists len, code. split; [done|]. by eapply Hl.
    + intros (len&code&Hw&_). by exists (len, code, (x, y)).
  - destruct (walk_total pair_view t W 8 0 (startbits h) 20 cache sz Hok Hsz) as (len&code&[x y]&_&_&->). by eexists _, _, _.
  - intros x y sz'. rewrite Hpw. by apply walk_word with 20.
  - destruct (walk_total quad_view tq W 2 0 4 6 cache sz Qok ltac:(lia)) as (len&code&[[[v w] x] y]&_&_&->). by eexists.
  - intros v w x y sz'. apply walk_word with 6; [done|lia].
Qed.

Lemma huffman_lookup_correct_witness :
  let h := MkHuffTable (Some hufftab13) 0 4 in
  (forall x y, 0 <= x <= pair_max h /\ 0 <= y <= pair_max h <->
     exists len code, (len, code, (x, y)) ∈ pair_words h /\ len <= 19) /\
  NoDup (map snd (pair_words h)) /\ NoDup (map snd (quad_words hufftabA)) /\
  (exists x y sz', pair_lookup 32 8 hufftab13 0x12345 21 0 (startbits h) = Some (x, y, sz')) /\
  (forall x y sz', pair_lookup 32 8 hufftab13 0x12345 21 0 (startbits h) = Some (x, y, sz') <->
     exists len code, (len, code, (x, y)) ∈ pair_words h /\ window 0x12345 21 len = code /\ sz' = 21 - len) /\
  (exists q, quad_lookup 32 hufftabA 0x12345 21 = Some q) /\
  (forall v w x y sz', quad_lookup 32 hufftabA 0x12345 21 = Some (v, w, x, y, sz') <->
     exists len code, (len, code, (v, w, x, y)) ∈ quad_words hufftabA /\ window 0x12345 21 len = code /\
       sz' = 21 - len).
Proof.
  intros h. apply (huffman_lookup_correct 32 13 h hufftab13 0 hufftabA 0x12345 21).
  - reflexivity.
  - reflexivity.
  - reflexivity.
  - lia.
Defined.

Example hufftab13_first : pair_lookup 32 8 hufftab13 (2 ^ 20) 21 0 4 = Some (0, 0, 20).
Proof. reflexivity. Qed.
