(* ===== verification/MadSideInfo.v ===== *)
(** Side information and scale factors of MPEG Layer III: the first half of
    [src/libmad/layer3.c].

    [III_sideinfo] reads what a frame says about its granules;
    [III_scalefactors] and [III_scalefactors_lsf] read the scale factors of one
    channel of one granule from the main data, MPEG-1 and MPEG-2.  Structures are
    passed and returned; a field the code leaves alone keeps its value, which for
    the stack object of [mad_layer_III] is arbitrary. *)
From S2P Require Import Prelude BitString MadBit.

(** ** Data *)

Definition count1table_select : Z := 0x01.
Definition scalefac_scale : Z := 0x02.
Definition preflag : Z := 0x04.
Definition mixed_block_flag : Z := 0x08.

Definition I_STEREO : Z := 0x1.
Definition MS_STEREO : Z := 0x2.

Record channel := MkChannel {
  part2_3_length : Z; big_values : Z; global_gain : Z; scalefac_compress : Z;
  ch_flags : Z; block_type : Z; table_select : list Z; subblock_gain : list Z;
  region0_count : Z; region1_count : Z;
  scalefac : list Z
}.

(** [gr[2].ch[2]] as lists of two. *)
Record sideinfo := MkSideInfo {
  main_data_begin : Z; si_private_bits : Z; scfsi : list Z; gr : list (list channel)
}.

Definition set_main (c : channel) (len big gain compress : Z) : channel :=
  MkChannel len big gain compress 0 (block_type c) (table_select c) (subblock_gain c)
    (region0_count c) (region1_count c) (scalefac c).
Definition set_block (c : channel) (flags type : Z) (select gain : list Z) (r0 r1 : Z) : channel :=
  MkChannel (part2_3_length c) (big_values c) (global_gain c) (scalefac_compress c) flags type
    select gain r0 r1 (scalefac c).
Definition set_ch_flags (c : channel) (flags : Z) : channel :=
  MkChannel (part2_3_length c) (big_values c) (global_gain c) (scalefac_compress c) flags (block_type c)
    (table_select c) (subblock_gain c) (region0_count c) (region1_count c) (scalefac c).
Definition set_scalefac (c : channel) (l : list Z) : channel :=
  MkChannel (part2_3_length c) (big_values c) (global_gain c) (scalefac_compress c) (ch_flags c) (block_type c)
    (table_select c) (subblock_gain c) (region0_count c) (region1_count c) l.

Definition MAD_ERROR_BADBIGVALUES : Z := 0x0232.
Definition MAD_ERROR_BADBLOCKTYPE : Z := 0x0233.
Definition MAD_ERROR_BADSCFSI : Z := 0x0234.

Definition sflen_table : list (Z * Z) :=
  [(0, 0); (0, 1); (0, 2); (0, 3); (3, 0); (1, 1); (1, 2); (1, 3);
   (2, 1); (2, 2); (2, 3); (3, 1); (3, 2); (3, 3); (4, 2); (4, 3)].

Definition nsfb_table : list (list (list Z)) := [
  [[6; 5; 5; 5]; [9; 9; 9; 9]; [6; 9; 9; 9]];
  [[6; 5; 7; 3]; [9; 9; 12; 6]; [6; 9; 12; 6]];
  [[11; 10; 0; 0]; [18; 18; 0; 0]; [15; 18; 0; 0]];
  [[7; 7; 7; 0]; [12; 12; 12; 0]; [6; 15; 12; 0]];
  [[6; 6; 6; 3]; [12; 9; 9; 6]; [6; 12; 9; 6]];
  [[8; 8; 5; 0]; [15; 12; 9; 0]; [6; 18; 9; 0]]].

(** ** Side information *)

Section SideInfo.
Variable long_bits : Z.
Variable mem : list Z.

Abbreviation read := (mad_bit_read long_bits mem).

(** The loop [for (i = lo; i < hi; ++i) l[i] = mad_bit_read(ptr, len)]. *)
Definition read_into (len : Z) (i : Z) (st : list Z * mad_bitptr) : option (list Z * mad_bitptr) :=
  let '(l, p) := st in
  '(v, p) ← read p len; l ← aset l i v; Some (l, p).

(** From [window_switching_flag] to the counts of the regions. *)
Definition channel_block (lsf : bool) (scfsi_ch : Z) (c : channel) (result : Z) (p : mad_bitptr)
    : option (Z * channel * mad_bitptr) :=
  '(v, p) ← read p 1;
  if negb (v =? 0) then
    '(type, p) ← read p 2;
    let result := if (type =? 0) && (result =? 0) then MAD_ERROR_BADBLOCKTYPE else result in
    let result := if negb lsf && (type =? 2) && negb (scfsi_ch =? 0) && (result =? 0)
                  then MAD_ERROR_BADSCFSI else result in
    '(v, p) ← read p 1;
    let flags := if negb (v =? 0) then ch_flags c .| mixed_block_flag else ch_flags c in
    let r0 := if negb (v =? 0) then 7 else if type =? 2 then 8 else 7 in
    '(select, p) ← for_range 0 2 (read_into 5) (table_select c, p);
    '(gain, p) ← for_range 0 3 (read_into 3) (subblock_gain c, p);
    Some (result, set_block c flags type select gain r0 36, p)
  else
    '(select, p) ← for_range 0 3 (read_into 5) (table_select c, p);
    '(r0, p) ← read p 4;
    '(r1, p) ← read p 3;
    Some (result, set_block c (ch_flags c) 0 select (subblock_gain c) r0 r1, p).

(** Body of the loop over the channels of a granule. *)
Definition channel_info (lsf : bool) (scfsi_ch : Z) (c : channel) (result : Z) (p : mad_bitptr)
    : option (Z * channel * mad_bitptr) :=
  '(len, p) ← read p 12;
  '(big, p) ← read p 9;
  '(gain, p) ← read p 8;
  '(compress, p) ← read p (if lsf then 9 else 4);
  let result := if (288 <? big) && (result =? 0) then MAD_ERROR_BADBIGVALUES else result in
  '(result, c, p) ← channel_block lsf scfsi_ch (set_main c len big gain compress) result p;
  '(v, p) ← read p (if lsf then 2 else 3);
  Some (result, set_ch_flags c (ch_flags c .| v), p).

(** State: the result, [si], [data_bitlen] and the pointer. *)
Definition granule_info (lsf : bool) (g ch : Z) (st : Z * sideinfo * Z * mad_bitptr)
    : option (Z * sideinfo * Z * mad_bitptr) :=
  let '(result, si, data_bitlen, p) := st in
  granule ← aget (gr si) g;
  c ← aget granule ch;
  s ← aget (scfsi si) ch;
  '(result, c, p) ← channel_info lsf s c result p;
  granule ← aset granule ch c;
  grs ← aset (gr si) g granule;
  Some (result, MkSideInfo (main_data_begin si) (si_private_bits si) (scfsi si) grs,
        u32 (data_bitlen + part2_3_length c), p).

(** The result, [si], [data_bitlen], [priv_bitlen] and the pointer. *)
Definition III_sideinfo (p : mad_bitptr) (nch : Z) (lsf : bool) (si : sideinfo)
    : option (Z * sideinfo * Z * Z * mad_bitptr) :=
  let priv_bitlen := if lsf then if nch =? 1 then 1 else 2 else if nch =? 1 then 5 else 3 in
  '(begin, p) ← read p (if lsf then 8 else 9);
  '(priv, p) ← read p priv_bitlen;
  '(sc, p) ← (if negb lsf then for_range 0 nch (read_into 4) (scfsi si, p) else Some (scfsi si, p));
  let ngr := if negb lsf then 2 else 1 in
  '(result, si, data_bitlen, p) ←
    for_range 0 ngr (fun g => for_range 0 nch (granule_info lsf g)) (0, MkSideInfo begin priv sc (gr si), 0, p);
  Some (result, si, data_bitlen, priv_bitlen, p).

(** ** Scale factors *)

(** The lengths of the four partitions and the row of [nsfb_table]. *)
Definition lsf_lengths (compress : Z) : list Z * Z :=
  if compress <? 400 then
    ([(compress .>> 4) / 5; (compress .>> 4) mod 5; (compress mod 16) .>> 2; compress mod 4], 0)
  else if compress <? 500 then
    let compress := compress - 400 in
    ([(compress .>> 2) / 5; (compress .>> 2) mod 5; compress mod 4; 0], 1)
  else
    let compress := compress - 500 in
    ([compress / 3; compress mod 3; 0; 0], 2).

(** The same for the right channel of intensity stereo. *)
Definition lsf_lengths_intensity (compress : Z) : list Z * Z :=
  let compress := compress .>> 1 in
  if compress <? 180 then
    ([compress / 36; (compress mod 36) / 6; (compress mod 36) mod 6; 0], 3)
  else if compress <? 244 then
    let compress := compress - 180 in
    ([(compress mod 64) .>> 4; (compress mod 16) .>> 2; compress mod 4; 0], 4)
  else
    let compress := compress - 244 in
    ([compress / 3; compress mod 3; 0; 0], 5).

(** The partitions; the state is the scale factors, those of [gr1ch] and the
    pointer, and [n] the next scale factor. *)
Definition lsf_value (intensity : bool) (len : Z) (st : list Z * list Z * Z * mad_bitptr)
    : option (list Z * list Z * Z * mad_bitptr) :=
  let '(l, l1, n, p) := st in
  '(v, p) ← read p len;
  l ← aset l n v;
  l1 ← (if intensity then aset l1 n (if v =? (1 .<< len) - 1 then 1 else 0) else Some l1);
  Some (l, l1, n + 1, p).

Definition lsf_partition (intensity : bool) (slen nsfb : list Z) (part : Z) (st : list Z * list Z * Z * mad_bitptr)
    : option (list Z * list Z * Z * mad_bitptr) :=
  len ← aget slen part;
  count ← aget nsfb part;
  for_range 0 count (fun _ => lsf_value intensity len) st.

(** [while (n < 39)] *)
Definition lsf_clear (intensity : bool) (l l1 : list Z) (n : Z) : option (list Z * list Z) :=
  for_range n 39 (fun n '(l, l1) =>
    l ← aset l n 0; l1 ← (if intensity then aset l1 n 0 else Some l1); Some (l, l1)) (l, l1).

(** [gr1ch] is NULL or a channel; the results are the length, both channels and
    the pointer. *)
Definition III_scalefactors_lsf (p : mad_bitptr) (c : channel) (gr1ch : option channel) (mode_extension : Z)
    : option (Z * channel * option channel * mad_bitptr) :=
  let start := p in
  let index := if block_type c =? 2 then if bitset (ch_flags c) mixed_block_flag then 2 else 1 else 0 in
  let intensity := bitset mode_extension I_STEREO && bool_decide (is_Some gr1ch) in
  let '(slen, row) := (if intensity then lsf_lengths_intensity else lsf_lengths) (scalefac_compress c) in
  let c := if row =? 2 then set_ch_flags c (ch_flags c .| preflag) else c in
  rows ← aget nsfb_table row;
  nsfb ← aget rows index;
  let l1 := match gr1ch with Some c1 => scalefac c1 | None => [] end in
  '(l, l1, n, p) ← for_range 0 4 (lsf_partition intensity slen nsfb) (scalefac c, l1, 0, p);
  '(l, l1) ← lsf_clear intensity l l1 n;
  Some (mad_bit_length start p, set_scalefac c l,
        (if intensity then (fun c1 => set_scalefac c1 l1) <$> gr1ch else gr1ch), p).

(** The scale factors from [lo] to [hi]: copied from the first granule, or read. *)
Definition scalefac_band (share : bool) (gr0 : list Z) (len lo hi : Z) (st : list Z * mad_bitptr)
    : option (list Z * mad_bitptr) :=
  if share then
    let '(l, p) := st in
    l ← for_range lo hi (fun i l => v ← aget gr0 i; aset l i v) l; Some (l, p)
  else for_range lo hi (read_into len) st.

(** [gr0ch] may be [channel] itself, when no group is shared. *)
Definition III_scalefactors (p : mad_bitptr) (c gr0ch : channel) (scfsi : Z) : option (Z * channel * mad_bitptr) :=
  let start := p in
  '(slen1, slen2) ← aget sflen_table (scalefac_compress c);
  let l := scalefac c in
  '(l, p) ←
    (if block_type c =? 2 then
       let nsfb := if bitset (ch_flags c) mixed_block_flag then 8 + 3 * 3 else 6 * 3 in
       '(l, p) ← for_range 0 nsfb (read_into slen1) (l, p);
       '(l, p) ← for_range nsfb (nsfb + 6 * 3) (read_into slen2) (l, p);
       l ← for_range (nsfb + 6 * 3) (nsfb + 6 * 3 + 1 * 3) (fun i l => aset l i 0) l;
       Some (l, p)
     else
       st ← scalefac_band (bitset scfsi 0x8) (scalefac gr0ch) slen1 0 6 (l, p);
       st ← scalefac_band (bitset scfsi 0x4) (scalefac gr0ch) slen1 6 11 st;
       st ← scalefac_band (bitset scfsi 0x2) (scalefac gr0ch) slen2 11 16 st;
       '(l, p) ← scalefac_band (bitset scfsi 0x1) (scalefac gr0ch) slen2 16 21 st;
       l ← aset l 21 0;
       Some (l, p));
  Some (mad_bit_length start p, set_scalefac c l, p).
End SideInfo.

(** ** Reading lists *)

Section Read.
Variables (W : Z) (mem : list Z).
Hypotheses (HW : 32 <= W) (Hmem : bytes_ok mem).

Definition fields (len : Z) (vals : list Z) : list (Z * Z) := map (fun v => (len, v)) vals.

Lemma fields_width len vals : width (fields len vals) = zlen vals * len.
Proof.
  induction vals as [|v vals IH]; [done|]. cbn [fields map length]. rewrite width_cons.
  fold (fields len vals). rewrite IH. lia.
Qed.

Definition in_bits (len v : Z) : Prop := 0 <= v < 2 ^ len.

Lemma into_read len vals : 0 <= len <= 32 -> Forall (in_bits len) vals ->
  forall pre old post p i, length old = length vals -> bitptr_ok mem p -> pos p = i ->
  i + zlen vals * len + (if len =? 0 then 1 else 0) <= 8 * zlen mem -> written mem i (fields len vals) ->
  exists p', for_range (zlen pre) (zlen pre + zlen vals) (read_into W mem len) (pre ++ old ++ post, p) =
      Some (pre ++ vals ++ post, p') /\ bitptr_ok mem p' /\ pos p' = i + zlen vals * len.
Proof.
  intros Hlen. induction vals as [|v vals IH]; intros Hv pre old post p i Ho Hp Hi Hin Hw.
  - apply length_zero_iff_nil in Ho as ->. exists p. rewrite for_range_empty by (cbn; lia). split; [done|].
    split; [done|]. cbn. lia.
  - destruct old as [|o old]; [done|]. apply Forall_cons in Hv as [Hv Hvs]. destruct Hw as [E Hw].
    cbn [length] in *. rewrite for_range_step by lia. unfold read_into at 2.
    destruct (read_any W mem p i len v) as (p1&->&Hp1&Hi1); [done|done|done|done|lia| |done|done|].
    { destruct (Z.eqb_spec len 0); nia. }
    cbn [mbind option_bind]. rewrite aset_Some by (rewrite length_app; cbn; lia). cbn [mbind option_bind].
    rewrite Nat2Z.id, insert_app_r_alt, Nat.sub_diag by lia. cbn [app list_insert insert].
    destruct (IH Hvs (pre ++ [v]) old post p1 (i + len)) as (p'&E'&Hp'&Hi'); [lia|done|done|lia|done|].
    exists p'. rewrite length_app in E'. cbn [length] in E'. rewrite <- !app_assoc in E'. cbn [app] in E'.
    replace (zlen pre + Z.of_nat (S (length vals))) with (zlen pre + 1 + zlen vals) by lia.
    replace (Z.of_nat (length pre + 1)) with (zlen pre + 1) in E' by lia.
    split; [exact E'|]. split; [done|]. lia.
Qed.
End Read.

(** ** Encoding side information *)

Abbreviation bit b := (if b : bool then 1 else 0).

(** A channel as the frame carries it: no window switching for block type 0. *)
Definition block_code (c : channel) : list (Z * Z) :=
  if block_type c =? 0 then
    [(1, 0)] ++ fields 5 (table_select c) ++ [(4, region0_count c); (3, region1_count c)]
  else
    [(1, 1); (2, block_type c); (1, bit (bitset (ch_flags c) mixed_block_flag))] ++
    fields 5 (take 2 (table_select c)) ++ fields 3 (subblock_gain c).

Definition channel_code (lsf : bool) (c : channel) : list (Z * Z) :=
  [(12, part2_3_length c); (9, big_values c); (8, global_gain c); (if lsf then 9 else 4, scalefac_compress c)] ++
  block_code c ++ [(if lsf then 2 else 3, ch_flags c .& Z.lnot mixed_block_flag)].

Record channel_ok (lsf : bool) (scfsi_ch : Z) (c : channel) : Prop := ChannelOk {
  co_len : in_bits 12 (part2_3_length c);
  co_big : 0 <= big_values c <= 288;
  co_gain : in_bits 8 (global_gain c);
  co_compress : in_bits (if lsf then 9 else 4) (scalefac_compress c);
  co_flags : in_bits (if lsf then 2 else 3) (ch_flags c .& Z.lnot mixed_block_flag) /\ in_bits 4 (ch_flags c);
  co_type : in_bits 2 (block_type c);
  co_mixed : block_type c = 0 -> bitset (ch_flags c) mixed_block_flag = false;
  co_scfsi : lsf = false -> block_type c = 2 -> scfsi_ch = 0;
  co_select : length (table_select c) = 3%nat /\ Forall (in_bits 5) (table_select c);
  co_subblock : length (subblock_gain c) = 3%nat /\ Forall (in_bits 3) (subblock_gain c);
  co_regions : in_bits 4 (region0_count c) /\ in_bits 3 (region1_count c)
}.

(** What the decoder holds then, if it held [c0] before. *)
Definition channel_decoded (c0 c : channel) : channel :=
  if block_type c =? 0 then
    MkChannel (part2_3_length c) (big_values c) (global_gain c) (scalefac_compress c) (ch_flags c) 0
      (table_select c) (subblock_gain c0) (region0_count c) (region1_count c) (scalefac c0)
  else
    MkChannel (part2_3_length c) (big_values c) (global_gain c) (scalefac_compress c) (ch_flags c) (block_type c)
      (take 2 (table_select c) ++ drop 2 (table_select c0)) (subblock_gain c)
      (if negb (bitset (ch_flags c) mixed_block_flag) && (block_type c =? 2) then 8 else 7) 36 (scalefac c0).

Lemma flags_split f : in_bits 4 f ->
  (if bitset f mixed_block_flag then 0 .| mixed_block_flag else 0) .| (f .& Z.lnot mixed_block_flag) = f.
Proof.
  intros H. apply Z.eqb_eq. revert f H. apply (forall_range _ 0 16). vm_compute. reflexivity.
Qed.

Section Channel.
Variables (W : Z) (mem : list Z).
Hypotheses (HW : 32 <= W) (Hmem : bytes_ok mem).

Lemma into_read_at len vals lo hi l p i :
  1 <= len <= 32 -> Forall (in_bits len) vals -> 0 <= lo -> hi = lo + zlen vals -> hi <= zlen l ->
  bitptr_ok mem p -> pos p = i -> i + zlen vals * len <= 8 * zlen mem -> written mem i (fields len vals) ->
  exists p', for_range lo hi (read_into W mem len) (l, p) =
      Some (take (Z.to_nat lo) l ++ vals ++ drop (Z.to_nat hi) l, p') /\
    bitptr_ok mem p' /\ pos p' = i + zlen vals * len.
Proof.
  intros Hlen Hv H0 Hhi Hl Hp Hi Hin Hw.
  destruct (into_read W mem HW Hmem len vals ltac:(lia) Hv (take (Z.to_nat lo) l)
    (take (length vals) (drop (Z.to_nat lo) l)) (drop (Z.to_nat hi) l) p i) as (p'&E&Hp'); [|done|done| |done|].
  - rewrite length_take, length_drop. lia.
  - rewrite (proj2 (Z.eqb_neq len 0)) by lia. lia.
  - exists p'. split; [|done]. rewrite length_take in E. replace (Z.of_nat (Z.to_nat lo `min` length l)) with lo in E by lia.
    rewrite <- Hhi in E. rewrite <- E. do 2 f_equal.
    replace (drop (Z.to_nat hi) l) with (drop (length vals) (drop (Z.to_nat lo) l))
      by (rewrite drop_drop; f_equal; lia).
    by rewrite take_drop, take_drop.
Qed.

Lemma channel_block_read lsf s c0 c p i :
  channel_ok lsf s c -> length (table_select c0) = 3%nat -> length (subblock_gain c0) = 3%nat ->
  bitptr_ok mem p -> pos p = i -> i + width (block_code c) <= 8 * zlen mem -> written mem i (block_code c) ->
  exists p', channel_block W mem lsf s c0 0 p =
      Some (0, (if block_type c =? 0
                then set_block c0 (ch_flags c0) 0 (table_select c) (subblock_gain c0) (region0_count c) (region1_count c)
                else set_block c0 (if bitset (ch_flags c) mixed_block_flag then ch_flags c0 .| mixed_block_flag
                                   else ch_flags c0) (block_type c)
                       (take 2 (table_select c) ++ drop 2 (table_select c0)) (subblock_gain c)
                       (if negb (bitset (ch_flags c) mixed_block_flag) && (block_type c =? 2) then 8 else 7) 36), p') /\
    bitptr_ok mem p' /\ pos p' = i + width (block_code c).
Proof.
  intros [_ _ _ _ _ Ht Hm Hs [Hsl Hsel] [Hgl Hgain] [Hr0 Hr1]] Hl1 Hl2 Hp Hi. unfold block_code, channel_block.
  unfold in_bits in Ht, Hr0, Hr1. change (2 ^ 2) with 4 in Ht.
  destruct (Z.eqb_spec (block_type c) 0) as [E0|E0].
  - rewrite width_app, width_app, fields_width, Hsl. cbn [width foldr fst].
    intros Hin Hw. apply written_app in Hw as [[E1 _] [Hsw Hw]%written_app]. destruct Hw as (E2&E3&_).
    rewrite fields_width, Hsl in E2, E3. cbn [width foldr fst] in *. read_field. cbn [Z.eqb negb].
    destruct (into_read_at 5 (table_select c) 0 3 (table_select c0) p0 (i + 1)) as (p1&->&Hp1&Hi1);
      [lia|done|lia|lia|lia|done|done|lia|done|]. rewrite Hsl in Hi1. cbn [mbind option_bind].
    change (Z.of_nat 3) with 3 in *. read_field. read_field. eexists. split; [|split; [done|lia]].
    rewrite (drop_ge (table_select c0)) by lia. by rewrite app_nil_r.
  - rewrite width_app, width_app, !fields_width, length_take, Hsl, Hgl. cbn [width foldr fst].
    intros Hin Hw. apply written_app in Hw as [(E1&E2&E3&_) [Hsw Hgw]%written_app].
    rewrite fields_width, length_take, Hsl in Hgw. cbn [width foldr fst] in *.
    change (Z.of_nat (2 `min` 3)) with 2 in *. change (Z.of_nat 3) with 3 in *.
    assert (0 <= bit (bitset (ch_flags c) mixed_block_flag) < 2) by (destruct (bitset _ _); lia).
    do 3 read_field. cbn [Z.eqb negb]. rewrite (proj2 (Z.eqb_neq (block_type c) 0) E0). cbn [andb].
    assert (negb lsf && (block_type c =? 2) && negb (s =? 0) && (0 =? 0) = false) as ->.
    { destruct lsf; [done|]. destruct (Z.eqb_spec (block_type c) 2); [|done]. by rewrite Hs. }
    destruct (into_read_at 5 (take 2 (table_select c)) 0 2 (table_select c0) p2 (i + 1 + 2 + 1)) as (p3&E&Hp3&Hi3);
      [lia|by apply Forall_take|lia|rewrite length_take; lia|lia|done|done|rewrite length_take; lia| |].
    { by replace (i + 1 + 2 + 1) with (i + (1 + (2 + (1 + 0)))) by lia. }
    rewrite length_take, Hsl in Hi3. change (Z.of_nat (2 `min` 3)) with 2 in Hi3.
    assert (forall (b : bool) A (x y : A), (if negb (bit b =? 0) then x else y) = if b then x else y) as Eb
      by (by intros [] A x y).
    rewrite !Eb, E. cbn [mbind option_bind].
    destruct (into_read_at 3 (subblock_gain c) 0 3 (subblock_gain c0) p3 (i + 1 + 2 + 1 + 2 * 5)) as (p4&E'&Hp4&Hi4);
      [lia|done|lia|lia|lia|done|done|lia| |].
    { by replace (i + 1 + 2 + 1 + 2 * 5) with (i + (1 + (2 + (1 + 0))) + 2 * 5) by lia. }
    rewrite E'. cbn [mbind option_bind]. eexists. split; [|split; [done|lia]].
    rewrite (drop_ge (subblock_gain c0)) by lia. rewrite app_nil_r. do 4 f_equal.
    by destruct (bitset (ch_flags c) mixed_block_flag), (block_type c =? 2).
Qed.

Lemma channel_info_read lsf s c0 c p i :
  channel_ok lsf s c -> length (table_select c0) = 3%nat -> length (subblock_gain c0) = 3%nat ->
  bitptr_ok mem p -> pos p = i -> i + width (channel_code lsf c) <= 8 * zlen mem ->
  written mem i (channel_code lsf c) ->
  exists p', channel_info W mem lsf s c0 0 p = Some (0, channel_decoded c0 c, p') /\
    bitptr_ok mem p' /\ pos p' = i + width (channel_code lsf c).
Proof.
  intros Hok Hl1 Hl2 Hp Hi. unfold channel_code, channel_info. rewrite !width_app. cbn [width foldr fst].
  intros Hin Hw. apply written_app in Hw as [(E1&E2&E3&E4&_) [Hb Hw]%written_app]. destruct Hw as [E5 _].
  cbn [width foldr fst] in *. pose proof Hok as [H1 H2 H3 H4 [H5 H5'] _ Hm _ _ _ _]. unfold in_bits in *.
  assert (0 <= width (block_code c)) as Hbw.
  { unfold block_code. destruct (_ =? _); rewrite !width_app, !fields_width; cbn [width foldr fst]; lia. }
  set (n1 := if lsf then 9 else 4) in *. set (n2 := if lsf then 2 else 3) in *.
  assert (4 <= n1 <= 9) by (unfold n1; destruct lsf; lia). assert (2 <= n2 <= 3) by (unfold n2; destruct lsf; lia).
  do 4 read_field. rewrite (proj2 (Z.ltb_ge 288 (big_values c))) by lia. cbn [andb].
  destruct (channel_block_read lsf s (set_main c0 (part2_3_length c) (big_values c) (global_gain c)
    (scalefac_compress c)) c p3 (i + 12 + 9 + 8 + n1) Hok Hl1 Hl2 Hok3 Hpos2) as (p4&->&Hp4&Hi4); [lia| |].
  { by replace (i + 12 + 9 + 8 + n1) with (i + (12 + (9 + (8 + (n1 + 0))))) by lia. }
  cbn [mbind option_bind].
  replace (i + (12 + (9 + (8 + (n1 + 0)))) + width (block_code c)) with (i + 12 + 9 + 8 + n1 + width (block_code c))
    in E5 by lia.
  read_field. eexists. split; [|split; [done|lia]]. do 3 f_equal.
  pose proof (flags_split _ H5') as Ef. unfold channel_decoded. destruct (Z.eqb_spec (block_type c) 0) as [E0|E0].
  - rewrite (Hm E0) in Ef. unfold set_ch_flags, set_block, set_main. cbn -[Z.lnot]. by rewrite Ef.
  - unfold set_ch_flags, set_block, set_main. cbn -[Z.lnot].
    destruct (bitset (ch_flags c) mixed_block_flag); by rewrite Ef.
Qed.
End Channel.

(** ** Side information of a frame *)

Definition private_length (lsf : bool) (nch : Z) : Z :=
  if lsf then if nch =? 1 then 1 else 2 else if nch =? 1 then 5 else 3.

(** [scfsi] and [gr] have the channels of the frame only. *)
Definition side_code (lsf : bool) (nch : Z) (t : sideinfo) : list (Z * Z) :=
  [(if lsf then 8 else 9, main_data_begin t); (private_length lsf nch, si_private_bits t)] ++
  (if lsf then [] else fields 4 (scfsi t)) ++
  flat_map (flat_map (channel_code lsf)) (gr t).

Definition row_decoded (olds cs : list channel) : list channel :=
  zip_with channel_decoded olds cs ++ drop (length cs) olds.

Definition side_decoded (lsf : bool) (s0 t : sideinfo) : sideinfo :=
  MkSideInfo (main_data_begin t) (si_private_bits t)
    (if lsf then scfsi s0 else scfsi t ++ drop (length (scfsi t)) (scfsi s0))
    (zip_with row_decoded (gr s0) (gr t) ++ drop (length (gr t)) (gr s0)).

(** The channels of a row, with the scale factor selections the check sees. *)
Definition row_ok (lsf : bool) (sel : list Z) (cs : list channel) : Prop :=
  forall k c, cs !! k = Some c -> exists s, sel !! k = Some s /\ channel_ok lsf s c.

Record side_ok (lsf : bool) (nch : Z) (s0 t : sideinfo) : Prop := SideOk {
  so_begin : in_bits (if lsf then 8 else 9) (main_data_begin t);
  so_private : in_bits (private_length lsf nch) (si_private_bits t);
  so_scfsi : lsf = false -> zlen (scfsi t) = nch /\ Forall (in_bits 4) (scfsi t);
  so_gr : zlen (gr t) = (if lsf then 1 else 2) /\
    Forall (fun cs => zlen cs = nch /\ row_ok lsf (if lsf then scfsi s0 else scfsi t) cs) (gr t)
}.

(** The arrays of the structure have their sizes. *)
Definition channel_shape (c : channel) : Prop :=
  length (table_select c) = 3%nat /\ length (subblock_gain c) = 3%nat /\ length (scalefac c) = 39%nat.

Definition side_shape (s : sideinfo) : Prop :=
  length (scfsi s) = 2%nat /\ length (gr s) = 2%nat /\
  Forall (fun cs => length cs = 2%nat /\ Forall channel_shape cs) (gr s).

Definition total_length (cs : list channel) : Z := foldr (fun c n => part2_3_length c + n) 0 cs.

Lemma block_width c : length (table_select c) = 3%nat -> length (subblock_gain c) = 3%nat -> width (block_code c) = 23.
Proof.
  intros H1 H2. unfold block_code. destruct (_ =? _); rewrite !width_app, !fields_width, ?length_take, ?H1, ?H2; done.
Qed.

Lemma channel_width lsf s c : channel_ok lsf s c -> width (channel_code lsf c) = if lsf then 63 else 59.
Proof.
  intros [_ _ _ _ _ _ _ _ [H1 _] [H2 _] _]. unfold channel_code. rewrite !width_app, block_width by done.
  by destruct lsf.
Qed.

Lemma aget_middle {A} (pre post : list A) x : aget (pre ++ x :: post) (zlen pre) = Some x.
Proof. rewrite aget_lookup, Nat2Z.id by lia. by apply list_lookup_middle. Qed.

Lemma row_bounds lsf cs : Forall (fun c => exists sel, channel_ok lsf sel c) cs ->
  0 <= width (flat_map (channel_code lsf) cs) /\ 0 <= total_length cs.
Proof.
  induction 1 as [|c cs [sel Hok] _ [IH1 IH2]]; [done|]. cbn [flat_map total_length foldr]. rewrite width_app.
  rewrite (channel_width lsf sel c Hok). destruct Hok as [[H _] _ _ _ _ _ _ _ _ _ _].
  fold (total_length cs). destruct lsf; lia.
Qed.

Section Side.
Variables (W : Z) (mem : list Z).
Hypotheses (HW : 32 <= W) (Hmem : bytes_ok mem).

Definition set_row (s : sideinfo) (g : nat) (row : list channel) : sideinfo :=
  MkSideInfo (main_data_begin s) (si_private_bits s) (scfsi s) (<[g := row]> (gr s)).

Lemma granule_loop lsf g cs : forall pre old post s p i d, gr s !! g = Some (pre ++ old ++ post) ->
  length old = length cs -> Forall channel_shape old ->
  (forall k c, cs !! k = Some c -> exists sel, scfsi s !! (length pre + k)%nat = Some sel /\ channel_ok lsf sel c) ->
  0 <= d -> d + total_length cs < 2 ^ 32 ->
  bitptr_ok mem p -> pos p = i -> i + width (flat_map (channel_code lsf) cs) <= 8 * zlen mem ->
  written mem i (flat_map (channel_code lsf) cs) ->
  exists p', for_range (zlen pre) (zlen pre + zlen cs) (granule_info W mem lsf (Z.of_nat g)) (0, s, d, p) =
      Some (0, set_row s g (pre ++ zip_with channel_decoded old cs ++ post), d + total_length cs, p') /\
    bitptr_ok mem p' /\ pos p' = i + width (flat_map (channel_code lsf) cs).
Proof.
  induction cs as [|c cs IH]; intros pre old post s p i d Hg Ho Hsh Hsel Hd Hmax Hp Hi Hin Hw.
  - apply length_zero_iff_nil in Ho as ->. exists p. rewrite for_range_empty by (cbn; lia).
    split; [|split; [done|cbn; lia]]. cbn [zip_with app total_length foldr]. rewrite Z.add_0_r. do 3 f_equal.
    destruct s as [a b e rows]. unfold set_row. cbn in *. by rewrite list_insert_id.
  - destruct old as [|c0 old]; [done|]. cbn [flat_map] in *. rewrite width_app in *.
    apply written_app in Hw as [Hw1 Hw2]. apply Forall_cons in Hsh as [(S1&S2&S3) Hsh].
    destruct (Hsel O c eq_refl) as (sel&Es&Hok). rewrite Nat.add_0_r in Es.
    assert (Forall (fun c' => exists sel', channel_ok lsf sel' c') cs) as Hall.
    { apply Forall_lookup. intros k c' Hk. destruct (Hsel (S k) c' Hk) as (sel'&_&Hok'). by exists sel'. }
    pose proof (row_bounds lsf cs Hall) as [Hpos Htot].
    cbn [length]. rewrite for_range_step by lia. unfold granule_info at 2.
    cbn [app] in Hg. rewrite (aget_lookup (gr s)), Nat2Z.id, Hg by lia. cbn [mbind option_bind].
    rewrite (aget_middle pre (old ++ post)). 
    cbn [mbind option_bind]. rewrite aget_lookup, Nat2Z.id, Es by lia. cbn [mbind option_bind].
    destruct (channel_info_read W mem HW Hmem lsf sel c0 c p i Hok S1 S2 Hp Hi ltac:(lia) Hw1) as (p1&->&Hp1&Hi1).
    cbn [mbind option_bind]. rewrite aset_Some by (rewrite length_app; cbn; lia). cbn [mbind option_bind].
    rewrite Nat2Z.id, insert_app_r_alt, Nat.sub_diag by lia. cbn [app list_insert insert].
    pose proof (lookup_lt_Some _ _ _ Hg) as Hlg.
    rewrite aset_Some by lia. cbn [mbind option_bind]. rewrite Nat2Z.id.
    assert (part2_3_length (channel_decoded c0 c) = part2_3_length c) as ->
      by (unfold channel_decoded; by destruct (_ =? _)).
    assert (0 <= part2_3_length c) by apply Hok.
    cbn [total_length foldr] in Hmax. rewrite wrapu_small by (unfold total_length in *; lia).
    destruct (IH (pre ++ [channel_decoded c0 c]) old post
      (set_row s g (pre ++ channel_decoded c0 c :: old ++ post)) p1 (i + width (channel_code lsf c))
      (d + part2_3_length c)) as (p'&E&Hp'&Hi').
    + cbn [set_row gr]. rewrite list_lookup_insert_eq by done. by rewrite <- app_assoc.
    + by injection Ho.
    + done.
    + intros k c' Hk. destruct (Hsel (S k) c' Hk) as (sel'&Es'&Hok'). exists sel'. split; [|done].
      rewrite <- Es'. cbn. f_equal. rewrite length_app. cbn. lia.
    + lia.
    + unfold total_length in *. lia.
    + done.
    + lia.
    + lia.
    + done.
    + exists p'. rewrite length_app in E. cbn [length] in E.
      replace (Z.of_nat (length pre + 1)) with (zlen pre + 1) in E by lia.
      replace (zlen pre + Z.of_nat (S (length cs))) with (zlen pre + 1 + zlen cs) by lia.
      split; [|split; [done|lia]]. cbn [zip_with total_length foldr app]. rewrite <- !app_assoc in E. cbn [app] in E.
      fold (total_length cs). rewrite Z.add_assoc.
      assert (forall row row', set_row (set_row s g row) g row' = set_row s g row') as Er.
      { intros. unfold set_row. cbn. by rewrite list_insert_insert_eq. }
      rewrite Er in E. exact E.
Qed.

Lemma granule_row lsf g cs olds nch s p i d : gr s !! g = Some olds -> length olds = 2%nat ->
  Forall channel_shape olds -> zlen cs = nch -> nch <= 2 -> row_ok lsf (scfsi s) cs ->
  0 <= d -> d + total_length cs < 2 ^ 32 -> bitptr_ok mem p -> pos p = i ->
  i + width (flat_map (channel_code lsf) cs) <= 8 * zlen mem -> written mem i (flat_map (channel_code lsf) cs) ->
  exists p', for_range 0 nch (granule_info W mem lsf (Z.of_nat g)) (0, s, d, p) =
      Some (0, set_row s g (row_decoded olds cs), d + total_length cs, p') /\
    bitptr_ok mem p' /\ pos p' = i + width (flat_map (channel_code lsf) cs).
Proof.
  intros Hg Hl Hsh <- Hn Hok Hd Hmax Hp Hi Hin Hw.
  destruct (granule_loop lsf g cs [] (take (length cs) olds) (drop (length cs) olds) s p i d) as (p'&E&H);
    [|rewrite length_take; lia|by apply Forall_take|exact Hok|done..|].
  - cbn [app]. by rewrite take_drop.
  - exists p'. split; [|done]. cbn [app length] in E. rewrite zip_with_take_l in E. exact E.
Qed.

(** The largest sum of the four lengths. *)
Lemma total_length_max lsf sel cs : row_ok lsf sel cs -> zlen cs <= 2 -> 0 <= total_length cs <= 2 * 4095.
Proof.
  intros Hok Hl. assert (Forall (fun c => 0 <= part2_3_length c <= 4095) cs) as H.
  { apply Forall_lookup. intros k c Hk. destruct (Hok k c Hk) as (s&_&[[H1 H2] _ _ _ _ _ _ _ _ _ _]).
    change (2 ^ 12) with 4096 in H2. lia. }
  assert (0 <= total_length cs <= zlen cs * 4095) by (clear - H; unfold total_length; induction H; cbn [length foldr] in *; lia). lia.
Qed.

Lemma side_read lsf nch s0 t p i : 1 <= nch <= 2 -> side_shape s0 -> side_ok lsf nch s0 t ->
  bitptr_ok mem p -> pos p = i -> i + width (side_code lsf nch t) <= 8 * zlen mem ->
  written mem i (side_code lsf nch t) ->
  exists p', III_sideinfo W mem p nch lsf s0 =
      Some (0, side_decoded lsf s0 t, total_length (concat (gr t)), private_length lsf nch, p') /\
    bitptr_ok mem p' /\ pos p' = i + width (side_code lsf nch t).
Proof.
  intros Hn (Hs1&Hs2&Hs3) [Hb Hpr Hsc [Hg1 Hg2]] Hp Hi. unfold side_code, III_sideinfo. rewrite !width_app.
  cbn [width foldr fst]. fold (private_length lsf nch).
  assert (1 <= private_length lsf nch <= 5) by (unfold private_length; destruct lsf, (nch =? 1); lia).
  intros Hin Hw. apply written_app in Hw as [(E1&E2&_) [Hw1 Hw2]%written_app]. cbn [width foldr fst] in *.
  set (n1 := if lsf then 8 else 9) in *. assert (8 <= n1 <= 9) by (unfold n1; destruct lsf; lia).
  unfold in_bits in Hb, Hpr.
  assert (0 <= width (flat_map (flat_map (channel_code lsf)) (gr t))) as Hwg.
  { apply flat_width with (fun cs => zlen cs = nch /\ row_ok lsf (if lsf then scfsi s0 else scfsi t) cs); [|done].
    intros cs [_ Hok]. eapply row_bounds, Forall_lookup. intros k c Hk.
    destruct (Hok k c Hk) as (sel&_&H'). by exists sel. }
  assert (0 <= width (if lsf then [] else fields 4 (scfsi t))) as Hws
    by (destruct lsf; rewrite ?fields_width; cbn; lia).
  do 2 read_field. destruct (gr s0) as [|r0 [|r1 [|]]] eqn:Eg0; [done..| |done].
  apply Forall_cons in Hs3 as [[L0 S0] [[L1 S1] _]%Forall_cons].
  destruct lsf; cbn [negb] in *; change (width []) with 0 in *.
  - cbn [mbind option_bind]. destruct (gr t) as [|cs [|]] eqn:Egt; [done| |cbn in Hg1; lia].
    apply Forall_cons in Hg2 as [[Hl0 Hrow0] _]. cbn [flat_map concat] in *. rewrite app_nil_r in *.
    pose proof (total_length_max _ _ _ Hrow0 ltac:(lia)) as Ht.
    rewrite for_range_step by lia.
    destruct (granule_row true 0 cs r0 nch (MkSideInfo (main_data_begin t) (si_private_bits t) (scfsi s0) (gr s0)) p1
      (i + n1 + private_length true nch) 0) as (p2&E&Hp2&Hi2); [by cbn; rewrite Eg0|done|done|done|lia|done|lia|lia|done|lia|lia| |].
    { by replace (i + n1 + private_length true nch) with (i + (n1 + (private_length true nch + 0)) + 0) by lia. }
    change (Z.of_nat 0) with 0 in E. rewrite Eg0 in E. rewrite E. cbn [mbind option_bind]. rewrite for_range_empty by lia.
    cbn [mbind option_bind]. exists p2. split; [|split; [done|rewrite ?app_nil_r; lia]]. unfold side_decoded. by rewrite ?app_nil_r, Egt, Eg0.
  - destruct (Hsc eq_refl) as [Hscl Hsc']. rewrite fields_width in *.
    destruct (into_read_at W mem HW Hmem 4 (scfsi t) 0 nch (scfsi s0) p1 (i + n1 + private_length false nch))
      as (p2&E2&Hp2&Hi2); [lia|done|lia|lia|lia|done|lia|lia| |].
    { by replace (i + n1 + private_length false nch) with (i + (n1 + (private_length false nch + 0))) by lia. }
    rewrite E2. cbn [mbind option_bind]. change (take (Z.to_nat 0) (scfsi s0)) with (@nil Z). cbn [app].
    destruct (gr t) as [|cs [|cs' [|]]] eqn:Egt; [cbn in Hg1; lia..| |cbn in Hg1; lia].
    apply Forall_cons in Hg2 as [[Hl0 Hrow0] [[Hl1 Hrow1] _]%Forall_cons].
    cbn [flat_map concat] in *. rewrite app_nil_r in *. rewrite width_app in *. apply written_app in Hw2 as [Hw2 Hw3].
    pose proof (total_length_max _ _ _ Hrow0 ltac:(lia)) as Ht0.
    pose proof (total_length_max _ _ _ Hrow1 ltac:(lia)) as Ht1.
    assert (0 <= width (flat_map (channel_code false) cs')) as Hw1'.
    { eapply row_bounds, Forall_lookup. intros k c Hk. destruct (Hrow1 k c Hk) as (sel&_&H'). by exists sel. }
    assert (forall k (sel : Z), scfsi t !! k = Some sel ->
      (scfsi t ++ drop (Z.to_nat nch) (scfsi s0)) !! k = Some sel) as Hsel.
    { intros k sel Hk. by apply lookup_app_l_Some. }
    assert (forall cs'', row_ok false (scfsi t) cs'' ->
      row_ok false (scfsi t ++ drop (Z.to_nat nch) (scfsi s0)) cs'') as Hrow.
    { intros cs'' Hr k c Hk. destruct (Hr k c Hk) as (sel&Es&Ho). exists sel. auto. }
    rewrite for_range_step by lia.
    destruct (granule_row false 0 cs r0 nch
      (MkSideInfo (main_data_begin t) (si_private_bits t) (scfsi t ++ drop (Z.to_nat nch) (scfsi s0)) (gr s0)) p2
      (i + n1 + private_length false nch + zlen (scfsi t) * 4) 0) as (p3&E3&Hp3&Hi3);
      [by cbn; rewrite Eg0|done|done|done|lia|by apply Hrow|lia|lia|done|lia|lia| |].
    { by replace (i + n1 + private_length false nch + zlen (scfsi t) * 4)
        with (i + (n1 + (private_length false nch + 0)) + zlen (scfsi t) * 4) by lia. }
    change (Z.of_nat 0) with 0 in E3. rewrite Eg0 in E3. rewrite E3. cbn [mbind option_bind].
    rewrite for_range_step by lia.
    match type of E3 with _ = Some (_, ?s1, _, _) => destruct (granule_row false 1 cs' r1 nch s1 p3
      (i + n1 + private_length false nch + zlen (scfsi t) * 4 + width (flat_map (channel_code false) cs))
      (0 + total_length cs)) as (p4&E4&Hp4&Hi4);
      [done|done|done|done|lia|by apply Hrow|lia|lia|done|lia|lia| |] end.
    { by replace (i + n1 + private_length false nch + zlen (scfsi t) * 4 + width (flat_map (channel_code false) cs))
        with (i + (n1 + (private_length false nch + 0)) + zlen (scfsi t) * 4 + width (flat_map (channel_code false) cs)) by lia. }
    change (Z.of_nat 1) with (0 + 1) in E4. rewrite E4. cbn [mbind option_bind]. rewrite for_range_empty by lia.
    cbn [mbind option_bind]. exists p4. split; [|split; [done|rewrite ?app_nil_r, ?width_app; lia]].
    unfold side_decoded. rewrite Egt, Eg0. replace (length (scfsi t)) with (Z.to_nat nch) by lia.
    replace (total_length (cs ++ cs')) with (0 + total_length cs + total_length cs'); [done|].
    unfold total_length. clear. induction cs; cbn; lia.
Qed.
End Side.

(** ** Encoding scale factors *)

(** The four groups of long-block scale factors: share bit, first and last. *)
Definition groups : list (Z * Z * Z) := [(0x8, 0, 6); (0x4, 6, 11); (0x2, 11, 16); (0x1, 16, 21)].

Definition slice (l : list Z) (lo hi : Z) : list Z := take (Z.to_nat (hi - lo)) (drop (Z.to_nat lo) l).

Definition slens (c : channel) : Z * Z := nth (Z.to_nat (scalefac_compress c)) sflen_table (0, 0).

Definition short_count (c : channel) : Z := if bitset (ch_flags c) mixed_block_flag then 17 else 18.

(** The bits of the scale factors [vals]: all of a short block, or the groups of a
    long block that are not shared with the first granule. *)
Definition scalefactor_code (c : channel) (scfsi : Z) (vals : list Z) : list (Z * Z) :=
  let '(slen1, slen2) := slens c in
  if block_type c =? 2 then
    fields slen1 (slice vals 0 (short_count c)) ++ fields slen2 (slice vals (short_count c) (short_count c + 18))
  else
    flat_map (fun '(bit, lo, hi) =>
      if bitset scfsi bit then [] else fields (if lo <? 11 then slen1 else slen2) (slice vals lo hi)) groups.

(** The scale factors of the channel then. *)
Definition scalefactor_decoded (c g0 : channel) (scfsi : Z) (vals : list Z) : list Z :=
  if block_type c =? 2 then
    slice vals 0 (short_count c + 18) ++ [0; 0; 0] ++ drop (Z.to_nat (short_count c + 21)) (scalefac c)
  else
    flat_map (fun '(bit, lo, hi) => slice (if bitset scfsi bit then scalefac g0 else vals) lo hi) groups ++
    [0] ++ drop 22 (scalefac c).

Definition scalefactors_ok (c : channel) (vals : list Z) : Prop :=
  let '(slen1, slen2) := slens c in
  0 <= scalefac_compress c < 16 /\
  if block_type c =? 2 then
    zlen vals = short_count c + 18 /\ Forall (in_bits slen1) (slice vals 0 (short_count c)) /\
    Forall (in_bits slen2) (slice vals (short_count c) (short_count c + 18))
  else
    zlen vals = 21 /\ Forall (in_bits slen1) (slice vals 0 11) /\ Forall (in_bits slen2) (slice vals 11 21).

Lemma slice_length l lo hi : 0 <= lo -> lo <= hi <= zlen l -> zlen (slice l lo hi) = hi - lo.
Proof. intros. unfold slice. rewrite length_take, length_drop. lia. Qed.

Lemma slice_split l lo mid hi : 0 <= lo -> lo <= mid <= hi -> hi <= zlen l ->
  slice l lo hi = slice l lo mid ++ slice l mid hi.
Proof.
  intros. unfold slice.
  replace (Z.to_nat (hi - lo)) with (Z.to_nat (mid - lo) + Z.to_nat (hi - mid))%nat by lia.
  rewrite <- take_take_drop, drop_drop. do 3 f_equal. lia.
Qed.

Section Scalefactors.
Variables (W : Z) (mem : list Z).
Hypotheses (HW : 32 <= W) (Hmem : bytes_ok mem).

Definition free_bit (len : Z) : Z := if len =? 0 then 1 else 0.

(** One group of [n] scale factors at [lo], with the cells in front done. *)
Lemma read_group len vals (pre rest : list Z) lo hi p i :
  0 <= len <= 4 -> Forall (in_bits len) vals -> zlen pre = lo -> hi = lo + zlen vals -> zlen vals <= zlen rest ->
  bitptr_ok mem p -> pos p = i -> i + width (fields len vals) + 1 <= 8 * zlen mem -> written mem i (fields len vals) ->
  exists p', for_range lo hi (read_into W mem len) (pre ++ rest, p) =
      Some ((pre ++ vals) ++ drop (length vals) rest, p') /\
    bitptr_ok mem p' /\ pos p' = i + width (fields len vals).
Proof.
  intros Hlen Hv <- -> Hr Hp Hi Hin Hw. rewrite fields_width in *.
  destruct (into_read W mem HW Hmem len vals ltac:(lia) Hv pre (take (length vals) rest) (drop (length vals) rest) p i)
    as (p'&E&H); [rewrite length_take; lia|done|done| |done|].
  - destruct (Z.eqb_spec len 0); lia.
  - exists p'. rewrite take_drop, app_assoc in E. done.
Qed.

(** Cells stored without reading. *)
Lemma store_group (f : Z -> option Z) vals : forall pre rest lo hi, zlen pre = lo -> hi = lo + zlen vals ->
  zlen vals <= zlen rest -> (forall k v, vals !! k = Some v -> f (lo + Z.of_nat k) = Some v) ->
  for_range lo hi (fun i l => v ← f i; aset l i v) (pre ++ rest) = Some ((pre ++ vals) ++ drop (length vals) rest).
Proof.
  induction vals as [|v vals IH]; intros pre rest lo hi Hpre Hhi Hr Hf.
  - rewrite for_range_empty by (cbn in Hhi; lia). by rewrite app_nil_r, drop_0.
  - cbn [length] in *. destruct rest as [|x rest]; [cbn in Hr; lia|]. cbn [length] in Hr.
    rewrite for_range_step by lia. pose proof (Hf O v eq_refl) as H0. rewrite Z.add_0_r in H0. rewrite H0.
    cbn [mbind option_bind]. rewrite aset_Some by (rewrite length_app; cbn; lia). cbn [mbind option_bind].
    rewrite insert_app_r_alt by lia. replace (Z.to_nat lo - length pre)%nat with O by lia. cbn [list_insert insert].
    specialize (IH (pre ++ [v]) rest (lo + 1) hi). rewrite <- !app_assoc in IH. cbn [app] in IH.
    rewrite IH; [by rewrite <- app_assoc|rewrite length_app; cbn; lia|lia|lia|].
    intros k w Hk. rewrite <- (Hf (S k) w Hk). f_equal. lia.
Qed.

(** A group shared with [gr0ch]. *)
Lemma copy_group (src pre rest : list Z) lo hi : zlen pre = lo -> 0 <= lo <= hi -> hi <= zlen src ->
  hi - lo <= zlen rest ->
  for_range lo hi (fun i l => v ← aget src i; aset l i v) (pre ++ rest) =
    Some ((pre ++ slice src lo hi) ++ drop (Z.to_nat (hi - lo)) rest).
Proof.
  intros Hpre Hr Hs Hrest. pose proof (slice_length src lo hi ltac:(lia) ltac:(lia)) as Hl.
  rewrite (store_group (aget src) (slice src lo hi)) by
    (try lia; intros k v Hk; unfold slice in Hk; apply lookup_take_Some in Hk as [Hk _]; rewrite lookup_drop in Hk;
     rewrite aget_lookup by lia; rewrite <- Hk; f_equal; lia).
  by replace (length (slice src lo hi)) with (Z.to_nat (hi - lo)) by lia.
Qed.

(** The three cells cleared behind the scale factors of a short block. *)
Lemma clear_group (pre rest : list Z) lo hi : zlen pre = lo -> 0 <= lo <= hi -> hi - lo <= zlen rest ->
  for_range lo hi (fun i l => aset l i 0) (pre ++ rest) =
    Some ((pre ++ repeat 0 (Z.to_nat (hi - lo))) ++ drop (Z.to_nat (hi - lo)) rest).
Proof.
  intros Hpre Hr Hrest. set (n := Z.to_nat (hi - lo)).
  change (fun i l => aset l i 0) with (fun i (l : list Z) => v ← (fun _ : Z => Some 0) i; aset l i v).
  rewrite (store_group _ (repeat 0 n)); [by rewrite repeat_length|done|rewrite repeat_length; lia..|].
  intros k v Hk. f_equal. symmetry. apply list_elem_of_lookup_2, list_elem_of_In in Hk. by apply repeat_spec in Hk.
Qed.

Lemma band_read (share : bool) src len vals pre rest lo hi p i :
  0 <= len <= 4 -> hi <= zlen vals -> Forall (in_bits len) (slice vals lo hi) -> zlen pre = lo -> 0 <= lo <= hi ->
  hi <= zlen src -> hi - lo <= zlen rest -> bitptr_ok mem p -> pos p = i ->
  i + width (if share then [] else fields len (slice vals lo hi)) + 1 <= 8 * zlen mem ->
  written mem i (if share then [] else fields len (slice vals lo hi)) ->
  exists p', scalefac_band W mem share src len lo hi (pre ++ rest, p) =
      Some ((pre ++ slice (if share then src else vals) lo hi) ++ drop (Z.to_nat (hi - lo)) rest, p') /\
    bitptr_ok mem p' /\ pos p' = i + width (if share then [] else fields len (slice vals lo hi)).
Proof.
  intros Hlen Hn Hv Hpre Hr Hs Hrest Hp Hi Hin Hw. unfold scalefac_band. destruct share.
  - rewrite copy_group by done. cbn [mbind option_bind]. exists p. split; [done|]. split; [done|]. cbn. lia.
  - pose proof (slice_length vals lo hi ltac:(lia) ltac:(lia)) as Hsl.
    destruct (read_group len (slice vals lo hi) pre rest lo hi p i) as (p'&->&H); [done..|lia|lia|done|done|done|done|].
    exists p'. by replace (Z.to_nat (hi - lo)) with (length (slice vals lo hi)) by lia.
Qed.

Lemma slens_spec c : 0 <= scalefac_compress c < 16 ->
  aget sflen_table (scalefac_compress c) = Some (slens c) /\ 0 <= (slens c).1 <= 4 /\ 0 <= (slens c).2 <= 4.
Proof.
  intros H. assert (forall k, 0 <= k < 0 + 16 -> let s := nth (Z.to_nat k) sflen_table (0, 0) in
    bool_decide (aget sflen_table k = Some s) && (0 <=? s.1) && (s.1 <=? 4) && (0 <=? s.2) && (s.2 <=? 4) = true) as Hc.
  { apply (forall_range (fun k => let s := nth (Z.to_nat k) sflen_table (0, 0) in
      bool_decide (aget sflen_table k = Some s) && (0 <=? s.1) && (s.1 <=? 4) && (0 <=? s.2) && (s.2 <=? 4))).
    vm_compute. reflexivity. }
  specialize (Hc (scalefac_compress c) H). cbn beta zeta in Hc. fold (slens c) in Hc. zbool.
  match goal with H : bool_decide _ = true |- _ => apply bool_decide_eq_true in H end. auto.
Qed.

Lemma long_scalefactors c g0 scfsi vals p i :
  block_type c <> 2 -> length (scalefac c) = 39%nat -> length (scalefac g0) = 39%nat -> scalefactors_ok c vals ->
  bitptr_ok mem p -> pos p = i -> i + width (scalefactor_code c scfsi vals) + 1 <= 8 * zlen mem ->
  8 * zlen mem < 2 ^ 32 -> written mem i (scalefactor_code c scfsi vals) ->
  exists p', III_scalefactors W mem p c g0 scfsi =
      Some (width (scalefactor_code c scfsi vals), set_scalefac c (scalefactor_decoded c g0 scfsi vals), p') /\
    bitptr_ok mem p' /\ pos p' = i + width (scalefactor_code c scfsi vals).
Proof.
  intros Hb Hc Hg Hok Hp Hi. unfold scalefactor_code, scalefactor_decoded, III_scalefactors.
  unfold scalefactors_ok in Hok. pose proof (slens_spec c) as Hs. destruct (slens c) as [slen1 slen2].
  destruct Hok as [Hcomp Hok]. destruct (Hs Hcomp) as (->&S1&S2). clear Hs. cbn [fst snd] in S1, S2.
  rewrite (proj2 (Z.eqb_neq (block_type c) 2) Hb) in *. destruct Hok as (Hl&Hv1&Hv2). cbn [mbind option_bind].
  unfold groups. cbn [flat_map]. change (0 <? 11) with true. change (6 <? 11) with true. change (11 <? 11) with false.
  change (16 <? 11) with false. cbv iota. rewrite !app_nil_r, !width_app.
  rewrite (slice_split vals 0 6 11) in Hv1 by lia. rewrite (slice_split vals 11 16 21) in Hv2 by lia.
  apply Forall_app in Hv1 as [V1 V2]. apply Forall_app in Hv2 as [V3 V4].
  intros Hin Hmax Hw. apply written_app in Hw as [W1 [W2 [W3 W4]%written_app]%written_app].
  assert (forall (b : bool) len l, 0 <= len -> 0 <= width (if b then [] else fields len l)) as Hpos
    by (intros [] len l ?; rewrite ?fields_width; cbn; nia).
  pose proof (Hpos (bitset scfsi 0x8) slen1 (slice vals 0 6) ltac:(lia)) as P1.
  pose proof (Hpos (bitset scfsi 0x4) slen1 (slice vals 6 11) ltac:(lia)) as P2.
  pose proof (Hpos (bitset scfsi 0x2) slen2 (slice vals 11 16) ltac:(lia)) as P3.
  pose proof (Hpos (bitset scfsi 0x1) slen2 (slice vals 16 21) ltac:(lia)) as P4. clear Hpos.
  set (w1 := width (if bitset scfsi 0x8 then _ else _)) in *.
  set (w2 := width (if bitset scfsi 0x4 then _ else _)) in *.
  set (w3 := width (if bitset scfsi 0x2 then _ else _)) in *.
  set (w4 := width (if bitset scfsi 0x1 then _ else _)) in *.
  assert (forall b lo hi, 0 <= lo -> lo <= hi <= 21 ->
    zlen (slice (if bitset scfsi b then scalefac g0 else vals) lo hi) = hi - lo) as Hsl.
  { intros b lo hi ? ?. apply slice_length; [lia|]. destruct (bitset scfsi b); lia. }
  pose proof (Hsl 0x8 0 6 ltac:(lia) ltac:(lia)) as L1. pose proof (Hsl 0x4 6 11 ltac:(lia) ltac:(lia)) as L2.
  pose proof (Hsl 0x2 11 16 ltac:(lia) ltac:(lia)) as L3. pose proof (Hsl 0x1 16 21 ltac:(lia) ltac:(lia)) as L4.
  destruct (band_read (bitset scfsi 0x8) (scalefac g0) slen1 vals [] (scalefac c) 0 6 p i)
    as (p1&E&Hp1&Hi1); [lia|lia|done|done|lia|lia|lia|done|done|lia|done|].
  cbn [app] in E. rewrite E. clear E. cbn [mbind option_bind].
  destruct (band_read (bitset scfsi 0x4) (scalefac g0) slen1 vals (slice (if bitset scfsi 0x8 then scalefac g0 else vals) 0 6)
    (drop (Z.to_nat (6 - 0)) (scalefac c)) 6 11 p1 (i + w1))
    as (p2&E&Hp2&Hi2); [lia|lia|done|lia|lia|lia|rewrite length_drop; lia|done|done|lia|done|].
  rewrite E. clear E. cbn [mbind option_bind]. rewrite drop_drop.
  match goal with |- context [scalefac_band W mem _ _ _ 11 16 (?pre ++ ?rest, _)] =>
    destruct (band_read (bitset scfsi 0x2) (scalefac g0) slen2 vals pre rest 11 16 p2 (i + w1 + w2))
    as (p3&E&Hp3&Hi3); [lia|lia|done|rewrite length_app; lia|lia|lia|rewrite length_drop; lia|done|done|lia|done|] end.
  rewrite E. clear E. cbn [mbind option_bind]. rewrite drop_drop.
  match goal with |- context [scalefac_band W mem _ _ _ 16 21 (?pre ++ ?rest, _)] =>
    destruct (band_read (bitset scfsi 0x1) (scalefac g0) slen2 vals pre rest 16 21 p3 (i + w1 + w2 + w3))
    as (p4&E&Hp4&Hi4); [lia|lia|done|rewrite !length_app; lia|lia|lia|rewrite length_drop; lia|done|done|lia|done|] end.
  rewrite E. clear E. cbn [mbind option_bind]. rewrite drop_drop.
  rewrite aset_Some by (rewrite !length_app, length_drop; lia). cbn [mbind option_bind]. exists p4.
  rewrite (bit_length_spec mem p p4) by (try done; pose proof (pos_nonneg mem p Hp); lia).
  split; [|split; [done|lia]].
  replace (pos p4 - pos p) with (w1 + (w2 + (w3 + w4))) by lia. do 3 f_equal.
  rewrite insert_app_r_alt by (rewrite !length_app; lia).
  replace (Z.to_nat 21 - _)%nat with O by (rewrite !length_app; lia).
  match goal with |- context [drop ?n (scalefac c)] => replace n with 21%nat by lia end.
  destruct (drop 21 (scalefac c)) as [|x rest] eqn:Ed;
    [apply (f_equal length) in Ed; rewrite length_drop in Ed; cbn in Ed; lia|].
  replace (drop 22 (scalefac c)) with rest 
    by (change 22%nat with (21 + 1)%nat; rewrite <- drop_drop, Ed; done).
  by rewrite <- !app_assoc.
Qed.

Lemma short_scalefactors c g0 scfsi vals p i :
  block_type c = 2 -> length (scalefac c) = 39%nat -> scalefactors_ok c vals ->
  bitptr_ok mem p -> pos p = i -> i + width (scalefactor_code c scfsi vals) + 1 <= 8 * zlen mem ->
  8 * zlen mem < 2 ^ 32 -> written mem i (scalefactor_code c scfsi vals) ->
  exists p', III_scalefactors W mem p c g0 scfsi =
      Some (width (scalefactor_code c scfsi vals), set_scalefac c (scalefactor_decoded c g0 scfsi vals), p') /\
    bitptr_ok mem p' /\ pos p' = i + width (scalefactor_code c scfsi vals).
Proof.
  intros Hb Hc Hok Hp Hi. unfold scalefactor_code, scalefactor_decoded, III_scalefactors.
  unfold scalefactors_ok in Hok. pose proof (slens_spec c) as Hs. destruct (slens c) as [slen1 slen2].
  destruct Hok as [Hcomp Hok]. destruct (Hs Hcomp) as (->&S1&S2). clear Hs. cbn [fst snd] in S1, S2.
  rewrite Hb in *. change (2 =? 2) with true in *. cbv iota in *. destruct Hok as (Hl&V1&V2).
  cbn [mbind option_bind]. rewrite width_app. intros Hin Hmax Hw. apply written_app in Hw as [W1 W2].
  change (if bitset (ch_flags c) mixed_block_flag then 8 + 3 * 3 else 6 * 3) with (short_count c).
  assert (17 <= short_count c <= 18) as Hn by (unfold short_count; destruct (bitset _ _); lia).
  set (n := short_count c) in *.
  pose proof (slice_length vals 0 n ltac:(lia) ltac:(lia)) as L1.
  pose proof (slice_length vals n (n + 18) ltac:(lia) ltac:(lia)) as L2.
  assert (0 <= width (fields slen2 (slice vals n (n + 18)))) by (rewrite fields_width; nia).
  assert (0 <= width (fields slen1 (slice vals 0 n))) by (rewrite fields_width; nia).
  destruct (read_group slen1 (slice vals 0 n) [] (scalefac c) 0 n p i) as (p1&E&Hp1&Hi1);
    [lia|done|done|lia|lia|done|done|lia|done|].
  cbn [app] in E. rewrite E. clear E. cbn [mbind option_bind].
  match goal with |- context [read_into W mem slen2] => idtac end.
  destruct (read_group slen2 (slice vals n (n + 18)) (slice vals 0 n) (drop (length (slice vals 0 n)) (scalefac c))
    n (n + 6 * 3) p1 (i + width (fields slen1 (slice vals 0 n)))) as (p2&E&Hp2&Hi2);
    [lia|done|lia|lia|rewrite length_drop; lia|done|done|lia|done|].
  rewrite E. clear E. cbn [mbind option_bind]. rewrite drop_drop.
  rewrite clear_group by (rewrite ?length_app, ?length_drop; lia). cbn [mbind option_bind]. exists p2.
  rewrite (bit_length_spec mem p p2) by (try done; pose proof (pos_nonneg mem p Hp); lia).
  split; [|split; [done|lia]].
  replace (pos p2 - pos p) with (width (fields slen1 (slice vals 0 n)) + width (fields slen2 (slice vals n (n + 18)))) by lia.
  do 3 f_equal. rewrite drop_drop, (slice_split vals 0 n (n + 18)) by lia. rewrite <- !app_assoc. do 2 f_equal.
  replace (Z.to_nat (n + 6 * 3 + 1 * 3 - (n + 6 * 3))) with 3%nat by lia. cbn [repeat app].
  match goal with |- context [drop ?a (scalefac c)] => replace a with (Z.to_nat (n + 21)) by lia end. done.
Qed.
End Scalefactors.

(** ** Encoding MPEG-2 scale factors *)

(** The lengths and the counts of the four partitions. *)
Definition lsf_layout (c : channel) (intensity : bool) : list Z * list Z :=
  let index := if block_type c =? 2 then if bitset (ch_flags c) mixed_block_flag then 2%nat else 1%nat else 0%nat in
  let '(slen, row) := (if intensity then lsf_lengths_intensity else lsf_lengths) (scalefac_compress c) in
  (slen, nth index (nth (Z.to_nat row) nsfb_table []) []).

Definition lsf_code (c : channel) (intensity : bool) (parts : list (list Z)) : list (Z * Z) :=
  concat (zip_with fields (lsf_layout c intensity).1 parts).

Definition pad39 (l : list Z) : list Z := l ++ repeat 0 (39 - length l).

(** A position of all ones is not one: the other channel is marked. *)
Definition illegal (len : Z) (part : list Z) : list Z := map (fun v => if v =? 2 ^ len - 1 then 1 else 0) part.

Definition lsf_parts_ok (c : channel) (intensity : bool) (parts : list (list Z)) : Prop :=
  let '(slen, nsfb) := lsf_layout c intensity in
  map (fun l : list Z => zlen l) parts = nsfb /\ Forall2 (fun len part => Forall (in_bits len) part) slen parts.

Section Lsf.
Variables (W : Z) (mem : list Z).
Hypotheses (HW : 32 <= W) (Hmem : bytes_ok mem).

Definition marked (intensity : bool) (len : Z) (pre1 vals rest1 : list Z) : list Z :=
  if intensity then (pre1 ++ illegal len vals) ++ drop (length vals) rest1 else pre1 ++ rest1.

Lemma lsf_values intensity len vals : 0 <= len <= 15 -> Forall (in_bits len) vals ->
  forall pre rest pre1 rest1 lo hi p i, hi = lo + zlen vals -> zlen vals <= zlen rest ->
  (intensity = true -> length pre1 = length pre /\ zlen vals <= zlen rest1) ->
  bitptr_ok mem p -> pos p = i -> i + width (fields len vals) + 1 <= 8 * zlen mem -> written mem i (fields len vals) ->
  exists p', for_range lo hi (fun _ => lsf_value W mem intensity len) (pre ++ rest, pre1 ++ rest1, zlen pre, p) =
      Some ((pre ++ vals) ++ drop (length vals) rest, marked intensity len pre1 vals rest1,
            zlen (pre ++ vals), p') /\
    bitptr_ok mem p' /\ pos p' = i + width (fields len vals).
Proof.
  intros Hlen. induction vals as [|v vals IH]; intros Hv pre rest pre1 rest1 lo hi p i Hhi Hr Hr1 Hp Hi Hin Hw.
  - exists p. rewrite for_range_empty by (cbn in Hhi; lia). rewrite app_nil_r, drop_0. split; [|split; [done|cbn; lia]].
    unfold marked. destruct intensity; [|done]. by rewrite app_nil_r, drop_0.
  - cbn [length] in *. destruct rest as [|x rest]; [cbn in Hr; lia|]. cbn [length] in Hr.
    apply Forall_cons in Hv as [Hv Hvs]. cbn [fields map] in Hin, Hw |- *. fold (fields len vals) in *.
    rewrite width_cons in *. destruct Hw as [E Hw]. rewrite for_range_step by lia. unfold lsf_value at 2.
    assert (0 <= width (fields len vals)) by (rewrite fields_width; lia).
    destruct (read_any W mem p i len v) as (p1&->&Hp1&Hi1); [done|done|done|done|lia|lia|done|done|].
    cbn [mbind option_bind].
    rewrite (aset_Some (pre ++ x :: rest)) by (rewrite length_app; cbn [length]; lia). cbn [mbind option_bind].
    rewrite Nat2Z.id, insert_app_r_alt, Nat.sub_diag by lia. cbn [app list_insert insert].
    replace (pre ++ v :: rest) with ((pre ++ [v]) ++ rest) by (by rewrite <- app_assoc).
    replace (zlen pre + 1) with (zlen (pre ++ [v])) by (rewrite length_app; cbn [length]; lia).
    unfold marked. destruct intensity.
    + destruct (Hr1 eq_refl) as [Hl1 Hr1']. destruct rest1 as [|y rest1]; [cbn in Hr1'; lia|]. cbn [length] in Hr1'.
      rewrite (aset_Some (pre1 ++ y :: rest1)) by (rewrite length_app; cbn [length]; lia). cbn [mbind option_bind].
      rewrite Nat2Z.id, <- Hl1, insert_app_r_alt, Nat.sub_diag by lia. cbn [app list_insert insert].
      cbn [mbind option_bind]. set (m := if v =? _ then 1 else 0).
      replace (pre1 ++ m :: rest1) with ((pre1 ++ [m]) ++ rest1) by (by rewrite <- app_assoc).
      destruct (IH Hvs (pre ++ [v]) rest (pre1 ++ [m]) rest1 (lo + 1) hi p1 (i + len)) as (p'&->&Hp'&Hi');
        [lia|lia|intros _; rewrite !length_app; cbn [length]; lia|done|done|lia|done|].
      exists p'. split; [|split; [done|lia]]. unfold marked. rewrite <- !app_assoc. cbn [app illegal map].
      unfold m. by rewrite Z.shiftl_1_l.
    + cbn [mbind option_bind]. destruct (IH Hvs (pre ++ [v]) rest pre1 rest1 (lo + 1) hi p1 (i + len)) as (p'&->&Hp'&Hi');
        [lia|lia|done|done|done|lia|done|].
      exists p'. split; [|split; [done|lia]]. unfold marked. by rewrite <- !app_assoc.
Qed.

Lemma lsf_cleared intensity rest : forall pre pre1 rest1 lo, lo = zlen pre -> zlen pre + zlen rest = 39 ->
  (intensity = true -> length pre1 = length pre /\ length rest1 = length rest) ->
  lsf_clear intensity (pre ++ rest) (pre1 ++ rest1) lo =
    Some (pre ++ repeat 0 (length rest), if intensity then pre1 ++ repeat 0 (length rest) else pre1 ++ rest1).
Proof.
  induction rest as [|x rest IH]; intros pre pre1 rest1 lo Hlo Hl H1; unfold lsf_clear in *.
  - rewrite for_range_empty by (cbn [length] in Hl; lia). cbn [length repeat]. destruct intensity; [|done].
    destruct (H1 eq_refl) as [_ L2%length_zero_iff_nil]. by subst.
  - cbn [length] in Hl. rewrite for_range_step by lia.
    rewrite (aset_Some (pre ++ x :: rest)) by (rewrite length_app; cbn [length]; lia). cbn [mbind option_bind].
    rewrite insert_app_r_alt by lia. replace (Z.to_nat lo - length pre)%nat with O by lia. cbn [list_insert insert].
    replace (pre ++ 0 :: rest) with ((pre ++ [0]) ++ rest) by (by rewrite <- app_assoc). destruct intensity.
    + destruct (H1 eq_refl) as [L1 L2]. destruct rest1 as [|y rest1]; [done|]. cbn [length] in L2.
      rewrite (aset_Some (pre1 ++ y :: rest1)) by (rewrite length_app; cbn [length]; lia). cbn [mbind option_bind].
      rewrite insert_app_r_alt by lia. replace (Z.to_nat lo - length pre1)%nat with O by lia. cbn [list_insert insert].
      replace (pre1 ++ 0 :: rest1) with ((pre1 ++ [0]) ++ rest1) by (by rewrite <- app_assoc).
      rewrite IH by (rewrite ?length_app; cbn [length]; try intros _; lia).
      cbn [length repeat]. by rewrite <- !app_assoc.
    + cbn [mbind option_bind]. rewrite IH by (rewrite ?length_app; cbn [length]; done || lia).
      cbn [length repeat]. by rewrite <- !app_assoc.
Qed.

(** One partition. *)
Lemma lsf_part intensity slen nsfb k len vals pre rest pre1 rest1 p i :
  aget slen k = Some len -> aget nsfb k = Some (zlen vals) -> 0 <= len <= 15 -> Forall (in_bits len) vals ->
  zlen vals <= zlen rest -> (intensity = true -> length pre1 = length pre /\ length rest1 = length rest) ->
  bitptr_ok mem p -> pos p = i -> i + width (fields len vals) + 1 <= 8 * zlen mem -> written mem i (fields len vals) ->
  exists p', lsf_partition W mem intensity slen nsfb k (pre ++ rest, pre1 ++ rest1, zlen pre, p) =
      Some ((pre ++ vals) ++ drop (length vals) rest, marked intensity len pre1 vals rest1,
            zlen (pre ++ vals), p') /\
    bitptr_ok mem p' /\ pos p' = i + width (fields len vals).
Proof.
  intros Hs Hn Hlen Hv Hr H1 Hp Hi Hin Hw. unfold lsf_partition. rewrite Hs, Hn. cbn [mbind option_bind].
  apply lsf_values; try done; try lia. intros Hint. destruct (H1 Hint). lia.
Qed.

(** All partitions. *)
Lemma parts_width lens parts : Forall2 (fun len (_ : list Z) => 0 <= len) lens parts ->
  0 <= width (concat (zip_with fields lens parts)).
Proof.
  induction 1 as [|len part lens parts ? _ IH]; [done|]. cbn [zip_with concat]. rewrite width_app, fields_width. lia.
Qed.

Lemma illegal_length len part : length (illegal len part) = length part.
Proof. apply length_map. Qed.

Lemma lsf_parts intensity slen nsfb lens parts : Forall2 (fun len part => 0 <= len <= 15 /\ Forall (in_bits len) part) lens parts ->
  forall pre rest pre1 rest1 k p i,
  (forall j len part, lens !! j = Some len -> parts !! j = Some part ->
     aget slen (k + Z.of_nat j) = Some len /\ aget nsfb (k + Z.of_nat j) = Some (zlen part)) ->
  zlen (concat parts) <= zlen rest -> (intensity = true -> length pre1 = length pre /\ length rest1 = length rest) ->
  bitptr_ok mem p -> pos p = i -> i + width (concat (zip_with fields lens parts)) + 1 <= 8 * zlen mem ->
  written mem i (concat (zip_with fields lens parts)) ->
  exists p', for_range k (k + zlen parts) (lsf_partition W mem intensity slen nsfb)
        (pre ++ rest, pre1 ++ rest1, zlen pre, p) =
      Some ((pre ++ concat parts) ++ drop (length (concat parts)) rest,
            (if intensity then (pre1 ++ concat (zip_with illegal lens parts)) ++ drop (length (concat parts)) rest1
             else pre1 ++ rest1), zlen (pre ++ concat parts), p') /\
    bitptr_ok mem p' /\ pos p' = i + width (concat (zip_with fields lens parts)).
Proof.
  induction 1 as [|len part lens parts [Hl Hv] Hall IH]; intros pre rest pre1 rest1 k p i Hget Hr H1 Hp Hi Hin Hw.
  - exists p. rewrite for_range_empty by (cbn; lia). cbn [concat zip_with length]. rewrite !app_nil_r, !drop_0.
    split; [by destruct intensity|]. split; [done|]. cbn. lia.
  - cbn [zip_with concat length] in *. rewrite width_app in *. rewrite length_app in Hr.
    apply written_app in Hw as [W1 W2]. destruct (Hget O len part eq_refl eq_refl) as [G1 G2]. rewrite Z.add_0_r in *.
    assert (0 <= width (fields len part)) by (rewrite fields_width; lia).
    pose proof (parts_width lens parts ltac:(by eapply Forall2_impl; [exact Hall|intros ?? [? _]; lia])) as Hpos.
    rewrite for_range_step by lia.
    destruct (lsf_part intensity slen nsfb k len part pre rest pre1 rest1 p i) as (p1&->&Hp1&Hi1);
      [done|done|done|done|lia|done|done|done|lia|done|]. cbn [mbind option_bind]. unfold marked.
    replace (k + Z.of_nat (S (length parts))) with (k + 1 + zlen parts) by lia.
    destruct intensity.
    + destruct (H1 eq_refl) as [L1 L2].
      destruct (IH (pre ++ part) (drop (length part) rest) (pre1 ++ illegal len part) (drop (length part) rest1) (k + 1) p1
        (i + width (fields len part))) as (p'&->&H').
      * intros j len' part' J1 J2. destruct (Hget (S j) len' part' J1 J2) as [<- <-]. split; f_equal; lia.
      * rewrite length_drop. lia.
      * intros _. rewrite !length_app, !length_drop, illegal_length. lia.
      * done.
      * done.
      * lia.
      * done.
      * exists p'. rewrite !drop_drop, (length_app part), <- !app_assoc. split; [reflexivity|]. split; [apply H'|]. lia.
    + destruct (IH (pre ++ part) (drop (length part) rest) pre1 rest1 (k + 1) p1
        (i + width (fields len part))) as (p'&->&H').
      * intros j len' part' J1 J2. destruct (Hget (S j) len' part' J1 J2) as [<- <-]. split; f_equal; lia.
      * rewrite length_drop. lia.
      * done.
      * done.
      * done.
      * lia.
      * done.
      * exists p'. rewrite !drop_drop, (length_app part), <- !app_assoc. split; [reflexivity|]. split; [apply H'|]. lia.
Qed.

Definition lengths_ok (r : list Z * Z) : bool :=
  forallb (fun s => (0 <=? s) && (s <=? 15)) r.1 && (length r.1 =? 4)%nat && (0 <=? r.2) && (r.2 <? 6).

Lemma lsf_layout_spec (intensity : bool) compress : 0 <= compress < 512 ->
  exists s0 s1 s2 s3 row, (if intensity then lsf_lengths_intensity else lsf_lengths) compress = ([s0; s1; s2; s3], row) /\
    0 <= s0 <= 15 /\ 0 <= s1 <= 15 /\ 0 <= s2 <= 15 /\ 0 <= s3 <= 15 /\ 0 <= row < 6.
Proof.
  intros Hc.
  assert (lengths_ok ((if intensity then lsf_lengths_intensity else lsf_lengths) compress) = true) as H.
  { destruct intensity.
    - revert compress Hc. apply (forall_range (fun k => lengths_ok (lsf_lengths_intensity k)) 0 512).
      vm_compute. reflexivity.
    - revert compress Hc. apply (forall_range (fun k => lengths_ok (lsf_lengths k)) 0 512). vm_compute. reflexivity. }
  destruct ((if intensity then _ else _) _) as [l row]. unfold lengths_ok in H. cbn [fst snd] in H. zbool.
  destruct l as [|s0 [|s1 [|s2 [|s3 [|]]]]]; try done.
  match goal with H : forallb _ _ = true |- _ => cbn [forallb] in H end. zbool.
  exists s0, s1, s2, s3, row. repeat split; done || lia.
Qed.

(** The counts of a row are at most 39 together. *)
Lemma nsfb_spec row index : 0 <= row < 6 -> 0 <= index < 3 ->
  exists rows n0 n1 n2 n3, aget nsfb_table row = Some rows /\ aget rows index = Some [n0; n1; n2; n3] /\
    nth (Z.to_nat index) (nth (Z.to_nat row) nsfb_table []) [] = [n0; n1; n2; n3] /\
    n0 + n1 + n2 + n3 <= 39.
Proof.
  intros Hr Hi.
  assert (row = 0 \/ row = 1 \/ row = 2 \/ row = 3 \/ row = 4 \/ row = 5) as [->|[->|[->|[->|[->| ->]]]]] by lia;
    assert (index = 0 \/ index = 1 \/ index = 2) as [->|[->| ->]] by lia;
    eexists _, _, _, _, _; (split; [reflexivity|]); (split; [reflexivity|]); (split; [reflexivity|]); lia.
Qed.

(** The channel and the other one afterwards. *)
Definition lsf_decoded (c : channel) (intensity : bool) (parts : list (list Z)) : channel :=
  let c := if negb intensity && (500 <=? scalefac_compress c) then set_ch_flags c (ch_flags c .| preflag) else c in
  set_scalefac c (pad39 (concat parts)).

Definition lsf_other (c : channel) (intensity : bool) (parts : list (list Z)) (c1 : channel) : channel :=
  if intensity then set_scalefac c1 (pad39 (concat (zip_with illegal (lsf_layout c intensity).1 parts))) else c1.

Lemma lsf_read c gr1ch mode_extension parts p i :
  let intensity := bitset mode_extension I_STEREO && bool_decide (is_Some gr1ch) in
  0 <= scalefac_compress c < 512 -> length (scalefac c) = 39%nat ->
  (forall c1, gr1ch = Some c1 -> length (scalefac c1) = 39%nat) -> lsf_parts_ok c intensity parts ->
  bitptr_ok mem p -> pos p = i -> i + width (lsf_code c intensity parts) + 1 <= 8 * zlen mem -> 8 * zlen mem < 2 ^ 32 ->
  written mem i (lsf_code c intensity parts) ->
  exists p', III_scalefactors_lsf W mem p c gr1ch mode_extension =
      Some (width (lsf_code c intensity parts), lsf_decoded c intensity parts,
            lsf_other c intensity parts <$> gr1ch, p') /\
    bitptr_ok mem p' /\ pos p' = i + width (lsf_code c intensity parts).
Proof.
  intros intensity Hcomp Hc Hc1 Hparts Hp Hi. unfold III_scalefactors_lsf. fold intensity.
  unfold lsf_parts_ok, lsf_code, lsf_decoded, lsf_other, lsf_layout in *.
  assert ((((if intensity then lsf_lengths_intensity else lsf_lengths) (scalefac_compress c)).2 =? 2) =
    (negb intensity && (500 <=? scalefac_compress c))) as Hpre.
  { destruct intensity; [unfold lsf_lengths_intensity; by repeat destruct (_ <? _)|unfold lsf_lengths].
    destruct (Z.ltb_spec (scalefac_compress c) 400), (Z.ltb_spec (scalefac_compress c) 500),
      (Z.leb_spec 500 (scalefac_compress c)); done || lia. }
  destruct (lsf_layout_spec intensity _ Hcomp) as (s0&s1&s2&s3&row&Elen&S0&S1&S2&S3&Hrow).
  rewrite Elen in *. cbn [snd fst] in *. rewrite Hpre. clear Hpre Elen.
  set (c' := if negb intensity && _ then _ else c). assert (scalefac c' = scalefac c) as Esf
    by (unfold c'; match goal with |- context [if ?b then _ else _] => by destruct b end).
  set (index := if block_type c =? 2 then if bitset (ch_flags c) mixed_block_flag then 2 else 1 else 0).
  assert (0 <= index < 3) as Hindex by (unfold index; destruct (block_type c =? 2), (bitset (ch_flags c) mixed_block_flag); lia).
  destruct (nsfb_spec row index Hrow Hindex) as (rows&n0&n1&n2&n3&->&Erow&Enth&Hsum). cbn [mbind option_bind].
  rewrite Erow. cbn [mbind option_bind].
  assert ((if block_type c =? 2 then if bitset (ch_flags c) mixed_block_flag then 2%nat else 1%nat else 0%nat) =
    Z.to_nat index) as Ein by (unfold index; by destruct (block_type c =? 2), (bitset (ch_flags c) mixed_block_flag)).
  rewrite Ein, Enth in *. clear Ein Enth Erow. clearbody index. destruct Hparts as [Hn Hv]. intros Hin Hmax Hw.
  assert (zlen parts = 4) as Hp4 by (apply (f_equal length) in Hn; rewrite length_map in Hn; cbn in Hn; lia).
  assert (zlen (concat parts) <= 39) as Hlen by (rewrite <- sum_concat, Hn; unfold sum; cbn [foldr]; lia).
  rewrite Esf. set (l1 := match gr1ch with Some c1 => scalefac c1 | None => [] end).
  assert (intensity = true -> length l1 = 39%nat) as Hint.
  { unfold intensity, l1. intros [_ HI%bool_decide_eq_true]%andb_true_iff. destruct gr1ch as [c1|]; [|by destruct HI].
    by apply Hc1. }
  assert (Forall2 (fun len part => 0 <= len <= 15 /\ Forall (in_bits len) part) [s0; s1; s2; s3] parts) as Hall.
  { repeat (apply Forall2_cons_inv_l in Hv as (?&?&?&Hv&->)). apply Forall2_nil_inv_l in Hv as ->.
    repeat constructor; done || lia. }
  destruct (lsf_parts intensity [s0; s1; s2; s3] [n0; n1; n2; n3] [s0; s1; s2; s3] parts) with
    (pre := @nil Z) (rest := scalefac c) (pre1 := @nil Z) (rest1 := l1) (k := 0) (p := p) (i := i)
    as (p'&E&Hp'&Hi'); [exact Hall|..|done|done|done|done|].
  - intros j len part J1 J2. rewrite Z.add_0_l, !aget_lookup, Nat2Z.id by lia. split; [done|].
    by rewrite <- Hn, list_lookup_fmap, J2.
  - lia.
  - intros HI. rewrite Hint by done. lia.
  - change (0 + zlen parts) with (zlen parts) in E. rewrite Hp4 in E. cbn [app length] in E. change (Z.of_nat 0) with 0 in E. rewrite E.
    cbn [mbind option_bind]. clear E. exists p'. split; [|done].
    assert ((if intensity then concat (zip_with illegal [s0; s1; s2; s3] parts) ++ drop (length (concat parts)) l1 else l1) =
      (if intensity then concat (zip_with illegal [s0; s1; s2; s3] parts) else []) ++
      (if intensity then drop (length (concat parts)) l1 else l1)) as -> by by destruct intensity.
    assert (length (concat (zip_with illegal [s0; s1; s2; s3] parts)) = length (concat parts)) as Hil.
    { clear - Hp4. destruct parts as [|? [|? [|? [|? [|]]]]]; cbn [length] in Hp4; try lia.
      cbn [zip_with concat]. by rewrite !length_app, !illegal_length. }
    rewrite lsf_cleared; [|done|rewrite length_drop; lia|].
    2: { intros HI. rewrite HI, !length_drop, Hint by done. lia. }
    cbn [mbind option_bind]. rewrite length_drop, Hc.
    pose proof (parts_width [s0; s1; s2; s3] parts ltac:(by eapply Forall2_impl; [exact Hall|intros ?? [? _]; lia])).
    rewrite (bit_length_spec mem p p') by (try done; pose proof (pos_nonneg mem p Hp); lia).
    replace (pos p' - pos p) with (width (concat (zip_with fields [s0; s1; s2; s3] parts))) by lia.
    unfold pad39. rewrite Hil. by destruct intensity, gr1ch.
Qed.
End Lsf.

(** ** The scale factors of MPEG-2 in the standard *)

(** How ISO 13818-3 packs the lengths of the four partitions into [scalefac_compress]: three ways, and three for the right
    channel of intensity stereo, where the lowest bit is the scale of the intensity positions. *)
Inductive lsf_way := Four | Three | Two | IntensitySix | IntensityFour | IntensityTwo.

Inductive lsf_packed : lsf_way -> Z -> list Z -> Prop :=
  | packed_four s1 s2 s3 s4 : 0 <= s1 < 5 -> 0 <= s2 < 5 -> 0 <= s3 < 4 -> 0 <= s4 < 4 ->
      lsf_packed Four (16 * (5 * s1 + s2) + 4 * s3 + s4) [s1; s2; s3; s4]
  | packed_three s1 s2 s3 : 0 <= s1 < 5 -> 0 <= s2 < 5 -> 0 <= s3 < 4 ->
      lsf_packed Three (400 + 4 * (5 * s1 + s2) + s3) [s1; s2; s3; 0]
  | packed_two s1 s2 : 0 <= s1 < 4 -> 0 <= s2 < 3 -> lsf_packed Two (500 + 3 * s1 + s2) [s1; s2; 0; 0]
  | packed_i_six s1 s2 s3 b : 0 <= s1 < 5 -> 0 <= s2 < 6 -> 0 <= s3 < 6 -> 0 <= b < 2 ->
      lsf_packed IntensitySix (2 * (36 * s1 + 6 * s2 + s3) + b) [s1; s2; s3; 0]
  | packed_i_four s1 s2 s3 b : 0 <= s1 < 4 -> 0 <= s2 < 4 -> 0 <= s3 < 4 -> 0 <= b < 2 ->
      lsf_packed IntensityFour (2 * (180 + 16 * s1 + 4 * s2 + s3) + b) [s1; s2; s3; 0]
  | packed_i_two s1 s2 b : 0 <= s1 < 4 -> 0 <= s2 < 3 -> 0 <= b < 2 ->
      lsf_packed IntensityTwo (2 * (244 + 3 * s1 + s2) + b) [s1; s2; 0; 0].

Definition intensity_way (w : lsf_way) : bool :=
  match w with Four | Three | Two => false | _ => true end.

(** The bands of each partition of a long, a short and a mixed block. *)
Inductive lsf_blocks := LongBlocks | ShortBlocks | MixedBlocks.

Definition blocks_of (c : channel) : lsf_blocks :=
  if block_type c =? 2 then if bitset (ch_flags c) mixed_block_flag then MixedBlocks else ShortBlocks else LongBlocks.

Definition lsf_bands (w : lsf_way) (b : lsf_blocks) : list Z :=
  match w, b with
  | Four, LongBlocks => [6; 5; 5; 5] | Four, ShortBlocks => [9; 9; 9; 9] | Four, MixedBlocks => [6; 9; 9; 9]
  | Three, LongBlocks => [6; 5; 7; 3] | Three, ShortBlocks => [9; 9; 12; 6] | Three, MixedBlocks => [6; 9; 12; 6]
  | Two, LongBlocks => [11; 10; 0; 0] | Two, ShortBlocks => [18; 18; 0; 0] | Two, MixedBlocks => [15; 18; 0; 0]
  | IntensitySix, LongBlocks => [7; 7; 7; 0] | IntensitySix, ShortBlocks => [12; 12; 12; 0] | IntensitySix, MixedBlocks => [6; 15; 12; 0]
  | IntensityFour, LongBlocks => [6; 6; 6; 3] | IntensityFour, ShortBlocks => [12; 9; 9; 6] | IntensityFour, MixedBlocks => [6; 12; 9; 6]
  | IntensityTwo, LongBlocks => [8; 8; 5; 0] | IntensityTwo, ShortBlocks => [15; 12; 9; 0] | IntensityTwo, MixedBlocks => [6; 18; 9; 0]
  end.

(** The partitions [parts] with lengths [slen], their bits, and both channels afterwards: preemphasis goes with the way [Two];
    a position of all ones marks the other channel. *)
Definition lsf_given (w : lsf_way) (c : channel) (slen : list Z) (parts : list (list Z)) : Prop :=
  lsf_packed w (scalefac_compress c) slen /\ map (fun l : list Z => zlen l) parts = lsf_bands w (blocks_of c) /\
  Forall2 (fun len part => Forall (in_bits len) part) slen parts.

Definition lsf_bits (slen : list Z) (parts : list (list Z)) : list (Z * Z) := concat (zip_with fields slen parts).

Definition lsf_channel (w : lsf_way) (c : channel) (parts : list (list Z)) : channel :=
  set_scalefac (match w with Two => set_ch_flags c (ch_flags c .| preflag) | _ => c end) (pad39 (concat parts)).

Definition lsf_marks (w : lsf_way) (slen : list Z) (parts : list (list Z)) (c1 : channel) : channel :=
  if intensity_way w then set_scalefac c1 (pad39 (concat (zip_with illegal slen parts))) else c1.

(** The arithmetic of the code unpacks the lengths and chooses the row. *)
Lemma packed_layout w compress slen : lsf_packed w compress slen -> 0 <= compress < 512 /\
  (if intensity_way w then lsf_lengths_intensity else lsf_lengths) compress =
    (slen, match w with Four => 0 | Three => 1 | Two => 2 | IntensitySix => 3 | IntensityFour => 4 | IntensityTwo => 5 end) /\
  (negb (intensity_way w) && (500 <=? compress) = match w with Two => true | _ => false end).
Proof.
  intros H. destruct H; cbn [intensity_way negb andb]; (split; [lia|]); (split; [|first [done|apply Z.leb_gt; lia|apply Z.leb_le; lia]]);
    unfold lsf_lengths, lsf_lengths_intensity; cbv zeta; rewrite ?Z.shiftr_div_pow2 by lia;
    change (2 ^ 1) with 2; change (2 ^ 2) with 4; change (2 ^ 4) with 16;
    repeat match goal with |- context [(2 * ?x + ?b) / 2] => replace ((2 * x + b) / 2) with x by (Z.div_mod_to_equations; lia) end;
    repeat match goal with |- context [?x <? ?y] => first [rewrite (proj2 (Z.ltb_lt x y)) by lia|rewrite (proj2 (Z.ltb_ge x y)) by lia] end;
    repeat f_equal; Z.div_mod_to_equations; lia.
Qed.

(** Every value is packed in one of the ways. *)
Lemma packed_eq w a b slen : lsf_packed w a slen -> a = b -> lsf_packed w b slen.
Proof. by intros ? <-. Qed.

Lemma packed_total (intensity : bool) v : 0 <= v < 512 -> exists w slen, intensity_way w = intensity /\ lsf_packed w v slen.
Proof.
  intros Hc. destruct intensity.
  - destruct (Z.lt_ge_cases (v / 2) 180); [exists IntensitySix|destruct (Z.lt_ge_cases (v / 2) 244); [exists IntensityFour|exists IntensityTwo]];
      eexists; (split; [done|]); eapply packed_eq.
    1: apply (packed_i_six (v / 2 / 36) (v / 2 mod 36 / 6) (v / 2 mod 36 mod 6) (v mod 2)).
    6: apply (packed_i_four ((v / 2 - 180) / 16) ((v / 2 - 180) mod 16 / 4) ((v / 2 - 180) mod 4) (v mod 2)).
    11: apply (packed_i_two ((v / 2 - 244) / 3) ((v / 2 - 244) mod 3) (v mod 2)).
    all: Z.div_mod_to_equations; lia.
  - destruct (Z.lt_ge_cases v 400); [exists Four|destruct (Z.lt_ge_cases v 500); [exists Three|exists Two]];
      eexists; (split; [done|]); eapply packed_eq.
    1: apply (packed_four (v / 80) (v mod 80 / 16) (v mod 16 / 4) (v mod 4)).
    6: apply (packed_three ((v - 400) / 20) ((v - 400) mod 20 / 4) ((v - 400) mod 4)).
    10: apply (packed_two ((v - 500) / 3) ((v - 500) mod 3)).
    all: Z.div_mod_to_equations; lia.
Qed.

Lemma layout_given w c slen parts : lsf_given w c slen parts ->
  0 <= scalefac_compress c < 512 /\ lsf_parts_ok c (intensity_way w) parts /\ lsf_code c (intensity_way w) parts = lsf_bits slen parts /\
  lsf_decoded c (intensity_way w) parts = lsf_channel w c parts /\ lsf_other c (intensity_way w) parts = lsf_marks w slen parts.
Proof.
  intros (Hp&Hn&Hv). destruct (packed_layout w _ slen Hp) as (Hc&E&Hpre). unfold lsf_parts_ok, lsf_code, lsf_decoded, lsf_other, lsf_layout.
  rewrite Hpre, E. cbn [fst]. split; [done|]. split.
  - split; [|done]. rewrite Hn. unfold blocks_of. destruct w, (block_type c =? 2), (bitset (ch_flags c) mixed_block_flag); done.
  - split; [done|]. by destruct w.
Qed.

(** ** Claims *)

Lemma flat_const {A} (code : A -> list (Z * Z)) n l : Forall (fun x => width (code x) = n) l ->
  width (flat_map code l) = zlen l * n.
Proof. induction 1; [done|]. cbn [flat_map length]. rewrite width_app. lia. Qed.

Lemma side_width lsf nch s0 t : 1 <= nch <= 2 -> side_ok lsf nch s0 t -> width (side_code lsf nch t) =
  8 * (if lsf then if nch =? 1 then 9 else 17 else if nch =? 1 then 17 else 32).
Proof.
  intros Hn [_ _ Hsc [Hg1 Hg2]]. unfold side_code. rewrite !width_app.
  rewrite (flat_const _ (nch * if lsf then 63 else 59)).
  - rewrite Hg1. cbn [width foldr fst]. unfold private_length. destruct lsf; [|rewrite fields_width, (proj1 (Hsc eq_refl))];
      assert (nch = 1 \/ nch = 2) as [-> | ->] by lia; reflexivity.
  - eapply Forall_impl; [exact Hg2|]. intros cs [Hl Hrow]. rewrite (flat_const _ (if lsf then 63 else 59)); [by rewrite Hl|].
    apply Forall_lookup. intros k c Hk. destruct (Hrow k c Hk) as (s&_&Hok). by eapply channel_width.
Qed.

(** C23: the side information.  For every MPEG-1 or MPEG-2 frame of one or two
    channels, written with [side_code] (legal block types and big values, the
    window switching and the regular branch), [III_sideinfo] reports no error, finds
    every field of every granule and channel, gives regions 0 and 1 their implied sizes
    behind a window switch, adds up the lengths of the main data, and leaves the pointer
    behind the bits, which are the 17, 32, 9 or 17 bytes the frame decoder sets
    apart. *)
Theorem III_sideinfo_correct W mem lsf nch s0 t p i : 32 <= W -> bytes_ok mem -> 1 <= nch <= 2 ->
  side_shape s0 -> side_ok lsf nch s0 t ->
  bitptr_ok mem p -> pos p = i -> i + width (side_code lsf nch t) <= 8 * zlen mem ->
  written mem i (side_code lsf nch t) ->
  width (side_code lsf nch t) = 8 * (if lsf then if nch =? 1 then 9 else 17 else if nch =? 1 then 17 else 32) /\
  exists p', III_sideinfo W mem p nch lsf s0 =
      Some (0, side_decoded lsf s0 t, total_length (concat (gr t)), private_length lsf nch, p') /\
    bitptr_ok mem p' /\ pos p' = i + width (side_code lsf nch t).
Proof. intros. split; [by apply (side_width _ _ s0)|by apply side_read]. Qed.

Lemma III_sideinfo_correct_witness :
  let c0 := MkChannel 0 0 0 0 0 0 [0; 0; 0] [0; 0; 0] 0 0 (repeat 0 39) in
  let s0 := MkSideInfo 0 0 [0; 0] [[c0; c0]; [c0; c0]] in
  let c1 := MkChannel 700 120 170 6 1 0 [7; 8; 13] [0; 0; 0] 5 2 [] in
  let c2 := MkChannel 650 100 160 9 14 2 [24; 7; 0] [1; 2; 3] 0 0 [] in
  let t := MkSideInfo 17 3 [0] [[c1]; [c2]] in
  let mem := [8; 140; 10; 240; 241; 84; 195; 161; 170; 137; 69; 25; 40; 39; 112; 114; 158; 0] in
  width (side_code false 1 t) = 8 * 17 /\
  exists p', III_sideinfo 32 mem (mad_bit_init 0) 1 false s0 =
      Some (0, side_decoded false s0 t, 1350, 5, p') /\
    bitptr_ok mem p' /\ pos p' = 0 + width (side_code false 1 t).
Proof.
  intros c0 s0 c1 c2 t mem. apply (III_sideinfo_correct 32 mem false 1 s0 t (mad_bit_init 0) 0).
  - lia.
  - apply (bool_decide_unpack _). vm_compute. exact I.
  - lia.
  - split; [done|]. split; [done|]. repeat constructor.
  - split; [done|done|by intros _; repeat constructor|split; [done|]]. repeat constructor.
    all: intros [|k] c; [intros [= <-]; exists 0; repeat constructor|by destruct k]; try done; try lia.
  - by apply bit_init_ok.
  - done.
  - apply Z.leb_le. reflexivity.
  - vm_compute. repeat constructor.
Defined.

(** C32: the scale factors of MPEG-1.  [III_scalefactors] reads back every scale
    factor of a long, short or mixed block written with the lengths [scalefac_compress]
    selects, copies the groups [scfsi] shares from the first granule, clears the last
    cells and returns exactly the number of bits read. *)
Theorem III_scalefactors_correct W mem c g0 scfsi vals p i : 32 <= W -> bytes_ok mem ->
  length (scalefac c) = 39%nat -> length (scalefac g0) = 39%nat -> scalefactors_ok c vals ->
  bitptr_ok mem p -> pos p = i -> i + width (scalefactor_code c scfsi vals) + 1 <= 8 * zlen mem ->
  8 * zlen mem < 2 ^ 32 -> written mem i (scalefactor_code c scfsi vals) ->
  exists p', III_scalefactors W mem p c g0 scfsi =
      Some (width (scalefactor_code c scfsi vals), set_scalefac c (scalefactor_decoded c g0 scfsi vals), p') /\
    bitptr_ok mem p' /\ pos p' = i + width (scalefactor_code c scfsi vals).
Proof.
  intros. destruct (decide (block_type c = 2)); [by apply short_scalefactors|by apply long_scalefactors].
Qed.

Lemma III_scalefactors_correct_witness :
  let vals := [3; 1; 2; 0; 1; 3; 3; 3; 3; 3; 3; 1; 2; 3; 0; 1; 5; 4; 7; 6; 0] in
  let vals' := [3; 1; 2; 0; 1; 3; 1; 1; 1; 1; 1; 1; 2; 3; 0; 1; 5; 4; 7; 6; 0] in
  let c := MkChannel 700 120 170 10 1 0 [7; 8; 13] [0; 0; 0] 5 2 (repeat 5 39) in
  let g0 := MkChannel 0 0 0 0 0 0 [0; 0; 0] [0; 0; 0] 0 0 (repeat 1 39) in
  let mem := [216; 114; 152; 54; 124; 0; 0] in
  exists p', III_scalefactors 64 mem (mad_bit_init 0) c g0 0x4 =
      Some (42, set_scalefac c (vals' ++ [0] ++ repeat 5 17), p') /\
    bitptr_ok mem p' /\ pos p' = 0 + 42.
Proof.
  intros vals vals' c g0 mem. apply (III_scalefactors_correct 64 mem c g0 0x4 vals (mad_bit_init 0) 0).
  - lia.
  - apply (bool_decide_unpack _). vm_compute. exact I.
  - done.
  - done.
  - split; [split; done|]. apply (bool_decide_unpack _). vm_compute. exact I.
  - by apply bit_init_ok.
  - done.
  - apply Z.leb_le. reflexivity.
  - reflexivity.
  - vm_compute. repeat constructor.
Defined.

(** C33: the scale factors of MPEG-2.  For every way the standard packs the four lengths into [scalefac_compress], the three
    of the right channel of intensity stereo included, and every long, short or mixed block, [III_scalefactors_lsf] reads
    the partitions written with those lengths and the standard's numbers of bands, clears the rest of the 39
    cells, sets the preemphasis flag for the third way only, marks in intensity stereo the illegal positions (all ones) in the other
    channel, and returns the number of bits read, with the pointer behind them; no table is left.  Together the ways
    are all 512 values of the field ([packed_total]). *)
Theorem III_scalefactors_lsf_correct W mem w c gr1ch mode_extension slen parts p i : 32 <= W -> bytes_ok mem ->
  bitset mode_extension I_STEREO && bool_decide (is_Some gr1ch) = intensity_way w -> lsf_given w c slen parts ->
  length (scalefac c) = 39%nat -> (forall c1, gr1ch = Some c1 -> length (scalefac c1) = 39%nat) ->
  bitptr_ok mem p -> pos p = i -> i + width (lsf_bits slen parts) + 1 <= 8 * zlen mem -> 8 * zlen mem < 2 ^ 32 ->
  written mem i (lsf_bits slen parts) ->
  exists p', III_scalefactors_lsf W mem p c gr1ch mode_extension =
      Some (width (lsf_bits slen parts), lsf_channel w c parts, lsf_marks w slen parts <$> gr1ch, p') /\
    bitptr_ok mem p' /\ pos p' = i + width (lsf_bits slen parts).
Proof.
  intros HW Hmem Hi Hg. destruct (layout_given w c slen parts Hg) as (Hc&Hp&<-&<-&<-). rewrite <- Hi in *. intros.
  by apply lsf_read.
Qed.

Lemma III_scalefactors_lsf_correct_witness :
  let c := MkChannel 700 120 170 100 0 0 [7; 8; 13] [0; 0; 0] 5 2 (repeat 5 39) in
  let c1 := MkChannel 700 120 170 0 0 0 [7; 8; 13] [0; 0; 0] 5 2 (repeat 7 39) in
  let parts := [[0; 1; 1; 0; 1; 0; 1]; [3; 2; 1; 0; 0; 3; 3]; [0; 0; 0; 0; 0; 0; 0]; []] in
  let mem := [107; 200; 120; 0; 0; 0] in
  exists p', III_scalefactors_lsf 32 mem (mad_bit_init 0) c (Some c1) I_STEREO =
      Some (35, set_scalefac c (concat parts ++ repeat 0 18),
            Some (set_scalefac c1 ([0; 1; 1; 0; 1; 0; 1] ++ [1; 0; 0; 0; 0; 1; 1] ++ repeat 0 7 ++ repeat 0 18)), p') /\
    bitptr_ok mem p' /\ pos p' = 0 + 35.
Proof.
  intros c c1 parts mem. apply (III_scalefactors_lsf_correct 32 mem IntensitySix c (Some c1) I_STEREO [1; 2; 2; 0] parts (mad_bit_init 0) 0).
  - lia.
  - apply (bool_decide_unpack _). vm_compute. exact I.
  - reflexivity.
  - split; [|split; [done|]].
    + apply (packed_i_six 1 2 2 0); lia.
    + repeat constructor; apply Z.leb_le || apply Z.ltb_lt; reflexivity.
  - done.
  - by intros ? [= <-].
  - by apply bit_init_ok.
  - done.
  - apply Z.leb_le. reflexivity.
  - reflexivity.
  - vm_compute. repeat constructor.
Defined.
