(* ===== verification/MadRequantize.v ===== *)
(** Scale factor bands and requantization of MPEG Layer III, from
    [src/libmad/layer3.c] and [src/libmad/fixed.h].

    [III_exponents] turns the gains and scale factors of a channel into one exponent
    per band, in quarters; [III_requantize] computes [x ^ (4/3) * 2 ^ (exp / 4)] in
    fixed point from the table of MadRqTable.  The multiplication is that of
    [FPM_DEFAULT], which [config.h] selects. *)
From S2P Require Import Prelude MadSideInfo MadRqTable.

(** ** Tables *)

Definition sfb_48000_long : list Z := [4; 4; 4; 4; 4; 4; 6; 6; 6; 8; 10; 12; 16; 18; 22; 28; 34; 40; 46; 54; 54; 192].
Definition sfb_44100_long : list Z := [4; 4; 4; 4; 4; 4; 6; 6; 8; 8; 10; 12; 16; 20; 24; 28; 34; 42; 50; 54; 76; 158].
Definition sfb_32000_long : list Z := [4; 4; 4; 4; 4; 4; 6; 6; 8; 10; 12; 16; 20; 24; 30; 38; 46; 56; 68; 84; 102;
  26].
Definition sfb_48000_short : list Z := [4; 4; 4; 4; 4; 4; 4; 4; 4; 4; 4; 4; 6; 6; 6; 6; 6; 6; 10; 10; 10; 12; 12;
  12; 14; 14; 14; 16; 16; 16; 20; 20; 20; 26; 26; 26; 66; 66; 66].
Definition sfb_44100_short : list Z := [4; 4; 4; 4; 4; 4; 4; 4; 4; 4; 4; 4; 6; 6; 6; 8; 8; 8; 10; 10; 10; 12; 12;
  12; 14; 14; 14; 18; 18; 18; 22; 22; 22; 30; 30; 30; 56; 56; 56].
Definition sfb_32000_short : list Z := [4; 4; 4; 4; 4; 4; 4; 4; 4; 4; 4; 4; 6; 6; 6; 8; 8; 8; 12; 12; 12; 16; 16;
  16; 20; 20; 20; 26; 26; 26; 34; 34; 34; 42; 42; 42; 12; 12; 12].
Definition sfb_48000_mixed : list Z := [4; 4; 4; 4; 4; 4; 6; 6; 4; 4; 4; 6; 6; 6; 6; 6; 6; 10; 10; 10; 12; 12; 12;
  14; 14; 14; 16; 16; 16; 20; 20; 20; 26; 26; 26; 66; 66; 66].
Definition sfb_44100_mixed : list Z := [4; 4; 4; 4; 4; 4; 6; 6; 4; 4; 4; 6; 6; 6; 8; 8; 8; 10; 10; 10; 12; 12; 12;
  14; 14; 14; 18; 18; 18; 22; 22; 22; 30; 30; 30; 56; 56; 56].
Definition sfb_32000_mixed : list Z := [4; 4; 4; 4; 4; 4; 6; 6; 4; 4; 4; 6; 6; 6; 8; 8; 8; 12; 12; 12; 16; 16; 16;
  20; 20; 20; 26; 26; 26; 34; 34; 34; 42; 42; 42; 12; 12; 12].
Definition sfb_24000_long : list Z := [6; 6; 6; 6; 6; 6; 8; 10; 12; 14; 16; 18; 22; 26; 32; 38; 46; 54; 62; 70; 76;
  36].
Definition sfb_22050_long : list Z := [6; 6; 6; 6; 6; 6; 8; 10; 12; 14; 16; 20; 24; 28; 32; 38; 46; 52; 60; 68; 58;
  54].
Definition sfb_16000_long : list Z := sfb_22050_long.
Definition sfb_24000_short : list Z := [4; 4; 4; 4; 4; 4; 4; 4; 4; 6; 6; 6; 8; 8; 8; 10; 10; 10; 12; 12; 12; 14; 14;
  14; 18; 18; 18; 24; 24; 24; 32; 32; 32; 44; 44; 44; 12; 12; 12].
Definition sfb_22050_short : list Z := [4; 4; 4; 4; 4; 4; 4; 4; 4; 6; 6; 6; 6; 6; 6; 8; 8; 8; 10; 10; 10; 14; 14;
  14; 18; 18; 18; 26; 26; 26; 32; 32; 32; 42; 42; 42; 18; 18; 18].
Definition sfb_16000_short : list Z := [4; 4; 4; 4; 4; 4; 4; 4; 4; 6; 6; 6; 8; 8; 8; 10; 10; 10; 12; 12; 12; 14; 14;
  14; 18; 18; 18; 24; 24; 24; 30; 30; 30; 40; 40; 40; 18; 18; 18].
Definition sfb_24000_mixed : list Z := [6; 6; 6; 6; 6; 6; 6; 6; 6; 8; 8; 8; 10; 10; 10; 12; 12; 12; 14; 14; 14; 18;
  18; 18; 24; 24; 24; 32; 32; 32; 44; 44; 44; 12; 12; 12].
Definition sfb_22050_mixed : list Z := [6; 6; 6; 6; 6; 6; 6; 6; 6; 6; 6; 6; 8; 8; 8; 10; 10; 10; 14; 14; 14; 18; 18;
  18; 26; 26; 26; 32; 32; 32; 42; 42; 42; 18; 18; 18].
Definition sfb_16000_mixed : list Z := [6; 6; 6; 6; 6; 6; 6; 6; 6; 8; 8; 8; 10; 10; 10; 12; 12; 12; 14; 14; 14; 18;
  18; 18; 24; 24; 24; 30; 30; 30; 40; 40; 40; 18; 18; 18].
Definition sfb_12000_long : list Z := sfb_16000_long.
Definition sfb_11025_long : list Z := sfb_12000_long.
Definition sfb_8000_long : list Z := [12; 12; 12; 12; 12; 12; 16; 20; 24; 28; 32; 40; 48; 56; 64; 76; 90; 2; 2; 2;
  2; 2].
Definition sfb_12000_short : list Z := sfb_16000_short.
Definition sfb_11025_short : list Z := sfb_12000_short.
Definition sfb_8000_short : list Z := [8; 8; 8; 8; 8; 8; 8; 8; 8; 12; 12; 12; 16; 16; 16; 20; 20; 20; 24; 24; 24;
  28; 28; 28; 36; 36; 36; 2; 2; 2; 2; 2; 2; 2; 2; 2; 26; 26; 26].
Definition sfb_12000_mixed : list Z := sfb_16000_mixed.
Definition sfb_11025_mixed : list Z := sfb_12000_mixed.
Definition sfb_8000_mixed : list Z := [12; 12; 12; 4; 4; 4; 8; 8; 8; 12; 12; 12; 16; 16; 16; 20; 20; 20; 24; 24; 24;
  28; 28; 28; 36; 36; 36; 2; 2; 2; 2; 2; 2; 2; 2; 2; 26; 26; 26].

Record bandwidths := MkBandwidths { sfb_l : list Z; sfb_s : list Z; sfb_m : list Z }.

Definition sfbwidth_table : list bandwidths := [
  MkBandwidths sfb_48000_long sfb_48000_short sfb_48000_mixed;
  MkBandwidths sfb_44100_long sfb_44100_short sfb_44100_mixed;
  MkBandwidths sfb_32000_long sfb_32000_short sfb_32000_mixed;
  MkBandwidths sfb_24000_long sfb_24000_short sfb_24000_mixed;
  MkBandwidths sfb_22050_long sfb_22050_short sfb_22050_mixed;
  MkBandwidths sfb_16000_long sfb_16000_short sfb_16000_mixed;
  MkBandwidths sfb_12000_long sfb_12000_short sfb_12000_mixed;
  MkBandwidths sfb_11025_long sfb_11025_short sfb_11025_mixed;
  MkBandwidths sfb_8000_long sfb_8000_short sfb_8000_mixed].

Definition pretab : list Z := [0; 0; 0; 0; 0; 0; 0; 0; 0; 0; 0; 1; 1; 1; 1; 2; 2; 3; 3; 3; 2; 0].

Definition root_table : list Z :=
  [0x09837f05; 0x0b504f33; 0x0d744fcd; 0x10000000; 0x1306fe0a; 0x16a09e66; 0x1ae89f99].

Definition MAD_F_MAX : Z := 0x7fffffff.

(** ** Exponents *)

(** [gain - (signed int)(x << mult)] *)
Definition exponent (gain x mult : Z) : Z := s32 (gain - s32 (u32 (x .<< mult))).

(** [while (l < 36)]: the long bands of a mixed block; state [exponents], [sfbi], [l]. *)
Definition mixed_band (scalefac sfbwidth : list Z) (gain mult : Z) (premask : bool) (st : list Z * Z * Z)
    : option (list Z * Z * Z) :=
  let '(exponents, sfbi, l) := st in
  sf ← aget scalefac sfbi;
  pre ← aget pretab sfbi;
  exponents ← aset exponents sfbi (exponent gain (sf + if premask then pre else 0) mult);
  w ← aget sfbwidth sfbi;
  Some (exponents, sfbi + 1, l + w).

(** [while (l < 576)]: a band of each of the three windows. *)
Definition short_bands (scalefac sfbwidth : list Z) (gain0 gain1 gain2 mult : Z) (st : list Z * Z * Z)
    : option (list Z * Z * Z) :=
  let '(exponents, sfbi, l) := st in
  sf ← aget scalefac (sfbi + 0);
  exponents ← aset exponents (sfbi + 0) (exponent gain0 sf mult);
  sf ← aget scalefac (sfbi + 1);
  exponents ← aset exponents (sfbi + 1) (exponent gain1 sf mult);
  sf ← aget scalefac (sfbi + 2);
  exponents ← aset exponents (sfbi + 2) (exponent gain2 sf mult);
  w ← aget sfbwidth sfbi;
  Some (exponents, sfbi + 3, l + 3 * w).

(** [exponents[39]] comes in uninitialised. *)
Definition III_exponents (c : channel) (sfbwidth exponents : list Z) : option (list Z) :=
  let gain := s32 (s32 (global_gain c) - 210) in
  let mult := if bitset (ch_flags c) scalefac_scale then 2 else 1 in
  if block_type c =? 2 then
    '(exponents, sfbi, l) ←
      (if bitset (ch_flags c) mixed_block_flag then
         while_loop 37 (fun '(_, _, l) => l <? 36)
           (mixed_band (scalefac c) sfbwidth gain mult (bitset (ch_flags c) preflag)) (exponents, 0, 0)
       else Some (exponents, 0, 0));
    g0 ← aget (subblock_gain c) 0;
    g1 ← aget (subblock_gain c) 1;
    g2 ← aget (subblock_gain c) 2;
    '(exponents, _, _) ← while_loop 577 (fun '(_, _, l) => l <? 576)
      (short_bands (scalefac c) sfbwidth (gain - 8 * g0) (gain - 8 * g1) (gain - 8 * g2) mult) (exponents, sfbi, l);
    Some exponents
  else
    for_range 0 22 (fun sfbi exponents =>
      sf ← aget (scalefac c) sfbi;
      pre ← (if bitset (ch_flags c) preflag then aget pretab sfbi else Some 0);
      aset exponents sfbi (exponent gain (sf + pre) mult)) exponents.

(** ** Requantization *)

Section Requantize.
Variable long_bits : Z.

Abbreviation slong := (wraps long_bits).

(** [FPM_DEFAULT] *)
Definition mad_f_mul (x y : Z) : Z :=
  s32 (slong ((slong (x + (1 .<< 11)) .>> 12) * (slong (y + (1 .<< 15)) .>> 16))).

Definition III_requantize (value exp : Z) : option Z :=
  let frac := Z.rem exp 4 in
  let exp := Z.quot exp 4 in
  '(mantissa, exponent) ← aget rq_table value;
  let exp := exp + exponent in
  let requantized :=
    if exp <? 0 then
      if 32 <=? - exp then 0 else s32 (slong (mantissa + (1 .<< (- exp - 1)))) .>> (- exp)
    else if 5 <=? exp then MAD_F_MAX else s32 (mantissa .<< exp) in
  if negb (frac =? 0) then
    root ← aget root_table (3 + frac); Some (mad_f_mul requantized root)
  else Some requantized.
End Requantize.

(** ** The tables *)

(** A band of each of the three windows. *)
Definition triples (ws : list Z) : list Z := flat_map (fun w => [w; w; w]) ws.

(** Bands of even widths that cover the 576 lines. *)
Definition width_ok (w : Z) : Prop := 0 < w < 256 /\ w mod 2 = 0.

Record widths_ok (widths : list Z) : Prop := WidthsOk {
  wo_each : Forall width_ok widths;
  wo_sum : sum widths = 576;
  wo_length : zlen widths <= 39
}.

(** Bands with [nlong] long ones in front, which end at line [lim]. *)
Record blocks_ok (nlong : nat) (lim : Z) (widths : list Z) : Prop := BlocksOk {
  bo_widths : widths_ok widths;
  bo_long : sum (take nlong widths) = lim /\ (nlong <= 8)%nat;
  bo_short : exists ws, drop nlong widths = triples ws
}.

Fixpoint thirds (l : list Z) : list Z := match l with w :: _ :: _ :: l => w :: thirds l | _ => [] end.

#[global] Instance width_ok_dec w : Decision (width_ok w).
Proof. unfold width_ok. apply _. Defined.

Definition widths_check (l : list Z) : bool :=
  bool_decide (Forall width_ok l) && (sum l =? 576) && (zlen l <=? 39).

Lemma widths_check_ok l : widths_check l = true -> widths_ok l.
Proof. intros H. unfold widths_check in H. zbool. split; [by eapply bool_decide_eq_true|done|done]. Qed.

Definition blocks_check (nlong : nat) (lim : Z) (l : list Z) : bool :=
  widths_check l && (sum (take nlong l) =? lim) && (nlong <=? 8)%nat &&
  bool_decide (drop nlong l = triples (thirds (drop nlong l))).

Lemma blocks_check_ok nlong lim l : blocks_check nlong lim l = true -> blocks_ok nlong lim l.
Proof.
  intros H. unfold blocks_check in H. zbool. split; [by apply widths_check_ok| |].
  - split; [done|]. by apply Nat.leb_le.
  - eexists. by eapply bool_decide_eq_true.
Qed.

(** Long bands of a mixed block. *)
Fixpoint long_bands (lim : Z) (l : list Z) : nat :=
  match l with w :: l => if 0 <? lim then S (long_bands (lim - w) l) else O | [] => O end.

(** The widths of a block, the number of its long bands. *)
Definition block_widths (r : bandwidths) (c : channel) : list Z :=
  if block_type c =? 2 then if bitset (ch_flags c) mixed_block_flag then sfb_m r else sfb_s r else sfb_l r.

Definition block_long (r : bandwidths) (c : channel) : nat :=
  if block_type c =? 2 then if bitset (ch_flags c) mixed_block_flag then long_bands 36 (sfb_m r) else O else 22.

Lemma table_ok i r : aget sfbwidth_table i = Some r ->
  widths_ok (sfb_l r) /\ zlen (sfb_l r) = 22 /\ blocks_ok 0 0 (sfb_s r) /\
  blocks_ok (long_bands 36 (sfb_m r)) 36 (sfb_m r).
Proof.
  assert (forallb (fun r => widths_check (sfb_l r) && (zlen (sfb_l r) =? 22) && blocks_check 0 0 (sfb_s r) &&
    blocks_check (long_bands 36 (sfb_m r)) 36 (sfb_m r)) sfbwidth_table = true) as H by (vm_compute; reflexivity).
  rewrite forallb_forall in H. intros Hi. pose proof (aget_inv _ _ _ Hi). rewrite aget_lookup in Hi by lia.
  apply list_elem_of_lookup_2, list_elem_of_In, H in Hi.
  apply andb_true_iff in Hi as [[[H1 H2]%andb_true_iff H3]%andb_true_iff H4].
  split; [by apply widths_check_ok|]. zbool. split; [done|]. split; by apply blocks_check_ok.
Qed.

Lemma block_widths_ok i r c : aget sfbwidth_table i = Some r -> widths_ok (block_widths r c).
Proof.
  intros (Hl&_&[Hs _ _]&[Hm _ _])%table_ok. unfold block_widths.
  by destruct (block_type c =? 2), (bitset (ch_flags c) mixed_block_flag).
Qed.

(** ** Exponents *)

(** The preemphasis of the long bands, table B.6 of ISO 11172-3. *)
Definition standard_preemphasis : list Z := repeat 0 11 ++ repeat 1 4 ++ repeat 2 2 ++ repeat 3 3 ++ [2; 0].

(** The exponent of band [b], [nlong] bands being long. *)
Definition band_exponent (c : channel) (nlong : nat) (b : nat) : Z :=
  let mult := if bitset (ch_flags c) scalefac_scale then 4 else 2 in
  let pre := if bitset (ch_flags c) preflag then nth b standard_preemphasis 0 else 0 in
  let sf := nth b (scalefac c) 0 in
  if (b <? nlong)%nat then global_gain c - 210 - mult * (sf + pre)
  else global_gain c - 210 - 8 * nth ((b - nlong) mod 3) (subblock_gain c) 0 - mult * sf.

Record gains_ok (c : channel) : Prop := GainsOk {
  go_gain : 0 <= global_gain c < 256;
  go_sub : length (subblock_gain c) = 3%nat /\ Forall byte_ok (subblock_gain c);
  go_sf : length (scalefac c) = 39%nat /\ Forall byte_ok (scalefac c)
}.

Lemma exponent_spec gain x (scale : bool) : - 2 ^ 16 <= gain < 2 ^ 16 -> 0 <= x < 2 ^ 16 ->
  exponent gain x (if scale then 2 else 1) = gain - (if scale then 4 else 2) * x.
Proof.
  intros Hg Hx. change (2 ^ 16) with 65536 in *. unfold exponent.
  rewrite Z.shiftl_mul_pow2 by (destruct scale; lia).
  replace (x * 2 ^ (if scale then 2 else 1)) with ((if scale then 4 else 2) * x) by (destruct scale; lia).
  rewrite wrapu_small by (change (2 ^ 32) with 4294967296; destruct scale; lia).
  assert (forall z, -2147483648 <= z < 2147483648 -> s32 z = z) as Hs.
  { intros z Hz. apply wraps_small; [done|]. change (2 ^ (32 - 1)) with 2147483648. lia. }
  rewrite (Hs (_ * _)) by (destruct scale; lia). apply Hs. destruct scale; lia.
Qed.

Lemma exponent_byte gain x y (scale : bool) : - 3000 <= gain < 3000 -> 0 <= x < 256 -> 0 <= y < 4 ->
  exponent gain (x + y) (if scale then 2 else 1) = gain - (if scale then 4 else 2) * (x + y).
Proof. intros. apply exponent_spec; change (2 ^ 16) with 65536; lia. Qed.

(** [n] cells filled by a function. *)
Definition cells (f : nat -> Z) (n : nat) : list Z := map f (seq 0 n).

Lemma cells_S f n : cells f (S n) = cells f n ++ [f n].
Proof. unfold cells. by rewrite seq_S, map_app. Qed.

Lemma cells_length f n : length (cells f n) = n.
Proof. unfold cells. by rewrite length_map, length_seq. Qed.

Lemma aset_cells f n rest i x : i = Z.of_nat n -> x = f n -> (0 < length rest)%nat ->
  aset (cells f n ++ rest) i x = Some (cells f (S n) ++ drop 1 rest).
Proof.
  intros -> -> Hr. destruct rest as [|y rest]; [cbn in Hr; lia|].
  rewrite aset_Some by (rewrite length_app, cells_length; cbn; lia).
  rewrite Nat2Z.id, insert_app_r_alt, cells_length, Nat.sub_diag by (rewrite cells_length; lia).
  cbn [list_insert insert drop]. by rewrite cells_S, <- app_assoc.
Qed.

Section Exponents.
Variables (c : channel).
Hypothesis Hc : gains_ok c.

Lemma sf_get b : (b < 39)%nat -> aget (scalefac c) (Z.of_nat b) = Some (nth b (scalefac c) 0) /\
  byte_ok (nth b (scalefac c) 0).
Proof.
  intros Hb. destruct Hc as [_ _ [Hl Hf]]. rewrite aget_lookup, Nat2Z.id by lia.
  destruct (lookup_lt_is_Some_2 (scalefac c) b) as [x E]; [lia|]. rewrite (nth_lookup_Some _ _ _ _ E).
  split; [done|]. by eapply Forall_lookup_1.
Qed.

Lemma pretab_get b : (b < 22)%nat -> aget pretab (Z.of_nat b) = Some (nth b pretab 0) /\ 0 <= nth b pretab 0 < 4.
Proof.
  intros Hb. assert (forall k, 0 <= k < 0 + 22 -> match aget pretab k with
    | Some v => bool_decide (nth (Z.to_nat k) pretab 0 = v) && (0 <=? v) && (v <? 4) | None => false end = true) as H.
  { apply (forall_range (fun k => match aget pretab k with
    | Some v => bool_decide (nth (Z.to_nat k) pretab 0 = v) && (0 <=? v) && (v <? 4) | None => false end)).
    vm_compute. reflexivity. }
  specialize (H (Z.of_nat b) ltac:(lia)). rewrite Nat2Z.id in H. destruct (aget _ _); [|done]. zbool.
  match goal with H : bool_decide _ = true |- _ => apply bool_decide_eq_true in H end. subst. auto.
Qed.
End Exponents.

Lemma triples_length ws : length (triples ws) = (3 * length ws)%nat.
Proof. induction ws as [|w ws IH]; cbn; [done|]. unfold triples in IH. rewrite IH. lia. Qed.

Lemma triples_sum ws : sum (triples ws) = 3 * sum ws.
Proof. induction ws as [|w ws IH]; [done|]. cbn in *. unfold triples, sum in *. lia. Qed.

(** The exponents of [n] bands are stored. *)
Definition stored (c : channel) (nlong n : nat) (e0 : list Z) : list Z :=
  cells (band_exponent c nlong) n ++ drop n e0.

Section Loops.
Variables (c : channel) (nlong : nat) (e0 : list Z).
Hypotheses (Hc : gains_ok c) (He : length e0 = 39%nat).

Abbreviation mult := (if bitset (ch_flags c) scalefac_scale then 2 else 1).

Lemma store_band n x : (n < 39)%nat -> x = band_exponent c nlong n ->
  aset (stored c nlong n e0) (Z.of_nat n) x = Some (stored c nlong (S n) e0).
Proof using He.
  intros Hn Hx. unfold stored. rewrite aset_cells by (done || rewrite length_drop; lia).
  by rewrite drop_drop, Nat.add_1_r.
Qed.

Lemma long_exponent b : (b < nlong)%nat -> (b < 39)%nat ->
  band_exponent c nlong b = exponent (global_gain c - 210) (nth b (scalefac c) 0 +
    (if bitset (ch_flags c) preflag then nth b pretab 0 else 0)) mult.
Proof using Hc He.
  intros Hb Hb'. unfold band_exponent. rewrite (proj2 (Nat.ltb_lt b nlong)) by done.
  destruct (sf_get c Hc b Hb') as [_ Hsf]. unfold byte_ok in Hsf. destruct Hc as [Hg _ _].
  assert (0 <= (if bitset (ch_flags c) preflag then nth b pretab 0 else 0) < 4).
  { destruct (bitset _ _); [|lia]. destruct (decide (b < 22)%nat); [by apply pretab_get|].
    rewrite nth_overflow by (cbn [pretab length]; lia). lia. }
  rewrite exponent_byte by lia. by destruct (bitset (ch_flags c) scalefac_scale).
Qed.

Lemma short_exponent b k g : (nlong <= b)%nat -> (b < 39)%nat -> ((b - nlong) mod 3 = k)%nat ->
  g = nth k (subblock_gain c) 0 -> (k < 3)%nat ->
  exponent (global_gain c - 210 - 8 * g) (nth b (scalefac c) 0) mult = band_exponent c nlong b.
Proof using Hc He.
  intros Hb Hb' Hk -> Hk3. unfold band_exponent. rewrite (proj2 (Nat.ltb_ge b nlong)), Hk by done.
  destruct (sf_get c Hc b Hb') as [_ Hsf]. unfold byte_ok in Hsf. destruct Hc as [Hg [Hs Hsg] _].
  assert (byte_ok (nth k (subblock_gain c) 0)) as Hk8 by (apply (Forall_nth byte_ok); [done|lia]). unfold byte_ok in Hk8.
  replace (nth b (scalefac c) 0) with (nth b (scalefac c) 0 + 0) at 1 by lia.
  rewrite exponent_byte, Z.add_0_r by lia. by destruct (bitset (ch_flags c) scalefac_scale).
Qed.

Lemma long_loop : nlong = 22%nat ->
  for_range 0 22 (fun sfbi exponents =>
      sf ← aget (scalefac c) sfbi;
      pre ← (if bitset (ch_flags c) preflag then aget pretab sfbi else Some 0);
      aset exponents sfbi (exponent (global_gain c - 210) (sf + pre) mult)) e0 = Some (stored c nlong 22 e0).
Proof using Hc He.
  intros Hn. destruct (for_range_inv (fun i e => e = stored c nlong (Z.to_nat i) e0) 0 22
    (fun sfbi exponents =>
      sf ← aget (scalefac c) sfbi;
      pre ← (if bitset (ch_flags c) preflag then aget pretab sfbi else Some 0);
      aset exponents sfbi (exponent (global_gain c - 210) (sf + pre) mult)) e0) as (e&->&->); [lia|done| |done].
  intros i e Hi ->. destruct (Z_of_nat_complete i) as [k ->]; [lia|].
  replace (Z.to_nat (Z.of_nat k + 1)) with (S k) by lia. rewrite Nat2Z.id. eexists. split; [|done].
  rewrite (proj1 (sf_get c Hc k ltac:(lia))). cbn [mbind option_bind].
  assert ((if bitset (ch_flags c) preflag then aget pretab (Z.of_nat k) else Some 0) =
    Some (if bitset (ch_flags c) preflag then nth k pretab 0 else 0)) as ->
    by (destruct (bitset _ _); [apply pretab_get; lia|done]).
  cbn [mbind option_bind]. apply store_band; [lia|]. symmetry. apply long_exponent; lia.
Qed.

Variable widths : list Z.

Lemma mixed_loop ls : forall (fuel : nat) n l tl, drop n widths = ls ++ tl -> (n + length ls = nlong)%nat ->
  (nlong <= 22)%nat -> Forall width_ok ls -> l + sum ls = 36 -> (length ls < fuel)%nat ->
  while_loop fuel (fun '(_, _, l) => l <? 36)
    (mixed_band (scalefac c) widths (global_gain c - 210) mult (bitset (ch_flags c) preflag))
    (stored c nlong n e0, Z.of_nat n, l) = Some (stored c nlong nlong e0, Z.of_nat nlong, 36).
Proof using Hc He.
  induction ls as [|w ls IH]; intros [|fuel] n l tl Hw Hn H22 Hok Hl Hf; try (cbn in Hf; lia);
    rewrite while_loop_S; cbv beta iota.
  - cbn in Hn, Hl. rewrite (proj2 (Z.ltb_ge l 36)) by lia. by replace n with nlong by lia; replace l with 36 by lia.
  - cbn [sum foldr length] in *. apply Forall_cons in Hok as [[Hw0 _] Hok].
    fold (sum ls) in Hl. assert (0 <= sum ls).
    { clear - Hok. induction Hok as [|x l [? _] _ IH]; cbn; [done|]. unfold sum in IH. lia. }
    rewrite (proj2 (Z.ltb_lt l 36)) by lia. unfold mixed_band at 2. cbv beta iota.
    rewrite (proj1 (sf_get c Hc n ltac:(lia))). cbn [mbind option_bind].
    rewrite (proj1 (pretab_get n ltac:(lia))). cbn [mbind option_bind].
    rewrite store_band; [|lia|symmetry; apply long_exponent; lia]. cbn [mbind option_bind].
    assert (widths !! n = Some w) as Ew by (rewrite <- (Nat.add_0_r n), <- lookup_drop, Hw; done).
    rewrite aget_lookup, Nat2Z.id, Ew by lia. cbn [mbind option_bind].
    replace (Z.of_nat n + 1) with (Z.of_nat (S n)) by lia. apply (IH fuel (S n) (l + w) tl); try lia; [|done].
    rewrite <- Nat.add_1_r, <- drop_drop, Hw. done.
Qed.

Lemma short_loop ws : forall (fuel : nat) n l k, drop n widths = triples ws -> (n = nlong + 3 * k)%nat ->
  (n + 3 * length ws <= 39)%nat -> Forall width_ok ws -> l + 3 * sum ws = 576 -> (length ws < fuel)%nat ->
  exists m, while_loop fuel (fun '(_, _, l) => l <? 576)
    (short_bands (scalefac c) widths (global_gain c - 210 - 8 * nth 0 (subblock_gain c) 0)
      (global_gain c - 210 - 8 * nth 1 (subblock_gain c) 0) (global_gain c - 210 - 8 * nth 2 (subblock_gain c) 0) mult)
    (stored c nlong n e0, Z.of_nat n, l) = Some (stored c nlong (n + 3 * length ws) e0, m, 576).
Proof using Hc He.
  induction ws as [|w ws IH]; intros [|fuel] n l k Hw Hn H39 Hok Hl Hf; try (cbn in Hf; lia);
    rewrite while_loop_S; cbv beta iota.
  - cbn in Hl. rewrite (proj2 (Z.ltb_ge l 576)) by lia. eexists. cbn [length]. rewrite Nat.mul_0_r, Nat.add_0_r. by replace l with 576 by lia.
  - cbn [sum foldr length] in *. apply Forall_cons in Hok as [[Hw0 _] Hok].
    fold (sum ws) in Hl. assert (0 <= sum ws).
    { clear - Hok. induction Hok as [|x l [? _] _ IH]; cbn; [done|]. unfold sum in IH. lia. }
    rewrite (proj2 (Z.ltb_lt l 576)) by lia. unfold short_bands at 2. cbv beta iota.
    assert (forall j, (j < 3)%nat -> ((n + j - nlong) mod 3 = j)%nat) as Hmod.
    { intros j Hj. replace (n + j - nlong)%nat with (j + k * 3)%nat by lia. rewrite Nat.Div0.mod_add. by apply Nat.mod_small. }
    replace (Z.of_nat n + 0) with (Z.of_nat (n + 0)) by lia. replace (Z.of_nat n + 1) with (Z.of_nat (n + 1)) by lia.
    replace (Z.of_nat n + 2) with (Z.of_nat (n + 2)) by lia.
    rewrite (proj1 (sf_get c Hc (n + 0) ltac:(lia))). cbn [mbind option_bind].
    replace (stored c nlong n e0) with (stored c nlong (n + 0) e0) by (by rewrite Nat.add_0_r).
    rewrite store_band; [|lia|apply (short_exponent _ 0); try done; [lia|lia|by apply Hmod; lia|lia]]. cbn [mbind option_bind].
    rewrite (proj1 (sf_get c Hc (n + 1) ltac:(lia))). cbn [mbind option_bind].
    replace (S (n + 0)) with (n + 1)%nat by lia.
    rewrite store_band; [|lia|apply (short_exponent _ 1); try done; [lia|lia|by apply Hmod; lia|lia]]. cbn [mbind option_bind].
    rewrite (proj1 (sf_get c Hc (n + 2) ltac:(lia))). cbn [mbind option_bind].
    replace (S (n + 1)) with (n + 2)%nat by lia.
    rewrite store_band; [|lia|apply (short_exponent _ 2); try done; [lia|lia|by apply Hmod; lia|lia]]. cbn [mbind option_bind].
    assert (widths !! n = Some w) as Ew by (rewrite <- (Nat.add_0_r n), <- lookup_drop, Hw; done).
    rewrite aget_lookup, Nat2Z.id, Ew by lia. cbn [mbind option_bind].
    replace (S (n + 2)) with (n + 3)%nat by lia. replace (Z.of_nat n + 3) with (Z.of_nat (n + 3)) by lia.
    destruct (IH fuel (n + 3)%nat (l + 3 * w) (S k)) as (m&->); try lia; [|done|].
    + rewrite <- drop_drop, Hw. done.
    + exists m. by replace (n + 3 * S (length ws))%nat with (n + 3 + 3 * length ws)%nat by lia.
Qed.
End Loops.

Lemma triples_ok ws : Forall width_ok (triples ws) -> Forall width_ok ws.
Proof.
  induction ws as [|w ws IH]; [constructor|]. cbn. intros [Hw [_ [_ H]%Forall_cons]%Forall_cons]%Forall_cons.
  constructor; auto.
Qed.

Lemma short_blocks c nlong lim widths e0 : gains_ok c -> length e0 = 39%nat -> blocks_ok nlong lim widths -> lim < 576 ->
  exists m, while_loop 577 (fun '(_, _, l) => l <? 576)
    (short_bands (scalefac c) widths (global_gain c - 210 - 8 * nth 0 (subblock_gain c) 0)
      (global_gain c - 210 - 8 * nth 1 (subblock_gain c) 0) (global_gain c - 210 - 8 * nth 2 (subblock_gain c) 0)
      (if bitset (ch_flags c) scalefac_scale then 2 else 1))
    (stored c nlong nlong e0, Z.of_nat nlong, lim) = Some (stored c nlong (length widths) e0, m, 576).
Proof.
  intros Hc He [[Bw Bs Bl] [Bt B8] [ws Bd]] Hlim.
  pose proof (length_drop widths nlong) as Hd. rewrite Bd, triples_length in Hd.
  pose proof Bs as Bs'. rewrite <- (take_drop nlong widths), sum_app, Bd, triples_sum in Bs'.
  assert (nlong <= length widths)%nat.
  { destruct (decide (nlong <= length widths)%nat); [done|]. destruct ws; [cbn in Bs'; lia|cbn [length] in Hd; lia]. }
  destruct (short_loop c nlong e0 Hc He widths ws 577 nlong lim 0 Bd) as (m&E); try lia.
  - apply triples_ok. rewrite <- Bd. by apply Forall_drop.
  - exists m. by replace (length widths) with (nlong + 3 * length ws)%nat by lia.
Qed.

Lemma exponents_spec i r c e0 : aget sfbwidth_table i = Some r -> gains_ok c -> length e0 = 39%nat ->
  III_exponents c (block_widths r c) e0 = Some (stored c (block_long r c) (length (block_widths r c)) e0).
Proof.
  intros Hr Hc He. pose proof (block_widths_ok i r c Hr) as [Hw Hs Hl].
  destruct (table_ok i r Hr) as (_&Hl22&Hsh&Hmx). unfold III_exponents.
  assert (s32 (s32 (global_gain c) - 210) = global_gain c - 210) as ->.
  { destruct Hc as [Hg _ _]. assert (forall z, -2147483648 <= z < 2147483648 -> s32 z = z) as E
      by (intros; apply wraps_small; [lia|]; change (2 ^ (32 - 1)) with 2147483648; lia).
    rewrite !E; rewrite ?E; lia. }
  unfold block_widths, block_long in *. destruct (block_type c =? 2).
  2: { replace (length (sfb_l r)) with 22%nat by lia. by apply long_loop. }
  assert (forall k, (k < 3)%nat -> aget (subblock_gain c) (Z.of_nat k) = Some (nth k (subblock_gain c) 0)) as Hget.
  { intros k Hk. destruct Hc as [_ [Hsl _] _]. rewrite aget_lookup, Nat2Z.id by lia. destruct (lookup_lt_is_Some_2 (subblock_gain c) k) as [x E]; [lia|]. by rewrite (nth_lookup_Some _ _ _ _ E). }
  pose proof (Hget 0%nat ltac:(lia)) as G0. pose proof (Hget 1%nat ltac:(lia)) as G1. pose proof (Hget 2%nat ltac:(lia)) as G2.
  change (Z.of_nat 0) with 0 in G0. change (Z.of_nat 1) with 1 in G1. change (Z.of_nat 2) with 2 in G2.
  destruct (bitset (ch_flags c) mixed_block_flag).
  - pose proof Hmx as [[Mw _ _] [Mt M8] _]. set (nl := long_bands 36 (sfb_m r)) in *.
    pose proof (mixed_loop c nl e0 Hc He (sfb_m r) (take nl (sfb_m r)) 37 0 0 (drop nl (sfb_m r))) as E.
    change (stored c nl 0 e0) with e0 in E. change (Z.of_nat 0) with 0 in E. rewrite length_take in E.
    assert (nl <= length (sfb_m r))%nat by (unfold nl; clear; generalize 36; induction (sfb_m r); intros z; cbn;
      [lia|]; destruct (0 <? z); [|lia]; apply le_n_S; auto).
    rewrite E; [|by rewrite take_drop|lia|lia|by apply Forall_take|lia|lia]. cbn [mbind option_bind].
    rewrite G0, G1, G2. cbn [mbind option_bind].
    destruct (short_blocks c nl 36 (sfb_m r) e0 Hc He Hmx) as (m&->); [lia|done].
  - cbn [mbind option_bind]. rewrite G0, G1, G2. cbn [mbind option_bind].
    destruct (short_blocks c 0 0 (sfb_s r) e0 Hc He Hsh) as (m&E); [lia|].
    change (stored c 0 0 e0) with e0 in E. change (Z.of_nat 0) with 0 in E. by rewrite E.
Qed.

(** ** Requantization *)

(** Entry [x] is a normalized mantissa, at most three quarters of a unit from
    [x ^ (4/3)]. *)
Definition rq_entry_ok (x : Z) (e : Z * Z) : bool :=
  let exact := x ^ 4 * 2 ^ (3 * (28 - snd e)) in
  ((4 * fst e - 3) ^ 3 <=? 64 * exact) && (64 * exact <=? (4 * fst e + 3) ^ 3) &&
  (0 <=? fst e) && (fst e <? 2 ^ 27) && (0 <=? snd e) && (snd e <=? 19).

Fixpoint rq_check (x : Z) (l : list (Z * Z)) : bool :=
  match l with e :: l => rq_entry_ok x e && rq_check (x + 1) l | [] => true end.

Lemma rq_checked : rq_check 0 rq_table && (zlen rq_table =? 8207) = true.
Proof. vm_compute. reflexivity. Qed.

Lemma rq_entry x : 0 <= x < 8207 -> exists m e, aget rq_table x = Some (m, e) /\ rq_entry_ok x (m, e) = true.
Proof.
  pose proof rq_checked as H. apply andb_true_iff in H as [H Hl]. apply Z.eqb_eq in Hl. revert H Hl.
  generalize rq_table. intros l H Hl Hx. destruct (aget_Some l x) as [[m e] E]; [lia|]. exists m, e. split; [done|].
  rewrite aget_lookup in E by lia. clear Hl.
  assert (forall l y, rq_check y l = true -> forall (n : nat) v, l !! n = Some v -> rq_entry_ok (y + Z.of_nat n) v = true) as Hc.
  { clear. induction l as [|v l IH]; intros y Hy [|n] w Hn; try done; cbn in Hy; apply andb_true_iff in Hy as [H1 H2].
    - injection Hn as ->. by rewrite Z.add_0_r.
    - cbn in Hn. replace (y + Z.of_nat (S n)) with (y + 1 + Z.of_nat n) by lia. by apply IH. }
  pose proof (Hc l 0 H _ _ E) as Hv. by replace (0 + Z.of_nat (Z.to_nat x)) with x in Hv by lia.
Qed.

Lemma root_entry f : -4 < f < 4 -> exists r, aget root_table (3 + f) = Some r /\
  (2 * r - 1) ^ 4 <= 2 ^ (f + 116) <= (2 * r + 1) ^ 4 /\ 0x09837f05 <= r <= 0x1ae89f99.
Proof.
  intros H. assert (f = -3 \/ f = -2 \/ f = -1 \/ f = 0 \/ f = 1 \/ f = 2 \/ f = 3) as Hf by lia.
  repeat destruct Hf as [-> | Hf]; try subst; (eexists; split; [reflexivity|]); (split; [|lia]);
    split; apply Z.leb_le; reflexivity.
Qed.

(** [q] is [m * 2 ^ E], rounded to the nearest integer. *)
Definition rounded (m E q : Z) : Prop :=
  if E <? 0 then 2 * Z.abs (q * 2 ^ (- E) - m) <= 2 ^ (- E) else q = m * 2 ^ E.

Lemma wraps_wide W z : 32 <= W -> - 2 ^ 31 <= z < 2 ^ 31 -> wraps W z = z.
Proof.
  intros HW Hz. apply wraps_small; [lia|]. pose proof (Z.pow_le_mono_r 2 31 (W - 1) ltac:(lia) ltac:(lia)). lia.
Qed.

(** Multiplication loses the low bits of its factors; the second one is a root. *)
Lemma mad_f_mul_spec W x y : 32 <= W -> 0 <= x < 2 ^ 30 -> 0 <= y <= 0x1ae89f99 ->
  Z.abs (mad_f_mul W x y * 2 ^ 28 - x * y) <= 2 ^ 11 * (y + 2 ^ 15) + 2 ^ 15 * x /\ 0 <= mad_f_mul W x y < 2 ^ 31.
Proof.
  intros HW Hx Hy. unfold mad_f_mul. rewrite !Z.shiftl_1_l, !Z.shiftr_div_pow2 by lia.
  change (2 ^ 30) with 1073741824 in *.
  change (2 ^ 11) with 2048. change (2 ^ 15) with 32768. change (2 ^ 12) with 4096. change (2 ^ 16) with 65536.
  change (2 ^ 28) with 268435456. change (2 ^ 31) with 2147483648.
  assert (forall z, -2147483648 <= z < 2147483648 -> wraps W z = z) as Hw by (intros; by apply wraps_wide).
  rewrite (Hw (x + _)), (Hw (y + _)) by lia.
  pose proof (Z.div_mod (x + 2048) 4096 ltac:(lia)). pose proof (Z.mod_pos_bound (x + 2048) 4096 ltac:(lia)).
  pose proof (Z.div_mod (y + 32768) 65536 ltac:(lia)). pose proof (Z.mod_pos_bound (y + 32768) 65536 ltac:(lia)).
  set (a := (x + 2048) / 4096) in *. set (b := (y + 32768) / 65536) in *.
  assert (0 <= a <= 262144) by lia. assert (0 <= b <= 6889) by lia. assert (0 <= a * b <= 262144 * 6889) by nia.
  rewrite Hw, s32_small by (change (2 ^ 31) with 2147483648; lia). split; [|lia].
  assert (- 2048 <= a * 4096 - x <= 2048) by lia. assert (-32768 <= b * 65536 - y <= 32768) by lia.
  replace (a * b * 268435456 - x * y) with ((a * 4096 - x) * (b * 65536) + x * (b * 65536 - y)) by ring.
  assert (Z.abs ((a * 4096 - x) * (b * 65536)) <= 2048 * (y + 32768)) by (rewrite Z.abs_mul; nia).
  assert (Z.abs (x * (b * 65536 - y)) <= 32768 * x) by (rewrite Z.abs_mul; nia). lia.
Qed.

(** The same for every factor that can arise: the product is reduced to 32 bits, and where the rounding of the first factor
    does not fit a [long] of 32 bits, that factor counts as -2^31. *)
Lemma mad_f_mul_any W x y : 32 <= W -> 0 <= x < 2 ^ 31 -> 0 <= y <= 0x1ae89f99 ->
  exists P, mad_f_mul W x y = s32 P /\
  (x + 2 ^ 11 < 2 ^ (W - 1) -> 0 <= P < 2 ^ 32 /\ Z.abs (P * 2 ^ 28 - x * y) <= 2 ^ 11 * (y + 2 ^ 15) + 2 ^ 15 * x) /\
  (2 ^ (W - 1) <= x + 2 ^ 11 -> P = -524288 * ((y + 2 ^ 15) / 2 ^ 16)) /\ (x < 2 ^ 30 -> P < 2 ^ 31).
Proof.
  intros HW Hx Hy. unfold mad_f_mul. rewrite !Z.shiftl_1_l, !Z.shiftr_div_pow2 by lia. pose proof (Z.pow_le_mono_r 2 31 (W - 1) ltac:(lia) ltac:(lia)) as H31.
  rewrite (wraps_wide W (y + _)) by (done || (change (2 ^ 15) with 32768; lia)).
  exists (wraps W (x + 2 ^ 11) / 2 ^ 12 * ((y + 2 ^ 15) / 2 ^ 16)). split.
  { apply wraps_eq_mod. assert (forall a b, a mod 2 ^ W = b mod 2 ^ W -> a mod 2 ^ 32 = b mod 2 ^ 32) as H.
    { intros u v E. replace (2 ^ W) with (2 ^ 32 * 2 ^ (W - 32)) in E by (rewrite <- Z.pow_add_r by lia; f_equal; lia).
      pose proof (pow2_pos (W - 32) ltac:(lia)). rewrite <- (Z.mod_mod_divide u (2 ^ 32 * 2 ^ (W - 32)) (2 ^ 32)), E by (by exists (2 ^ (W - 32)); lia). apply Z.mod_mod_divide. exists (2 ^ (W - 32)). lia. }
    apply H. apply wraps_mod. lia. }
  change (2 ^ 31) with 2147483648 in *. change (2 ^ 30) with 1073741824. change (2 ^ 32) with 4294967296.
  change (2 ^ 11) with 2048. change (2 ^ 15) with 32768. change (2 ^ 12) with 4096. change (2 ^ 16) with 65536. change (2 ^ 28) with 268435456.
  pose proof (Z.div_mod (y + 32768) 65536 ltac:(lia)). pose proof (Z.mod_pos_bound (y + 32768) 65536 ltac:(lia)).
  set (b := (y + 32768) / 65536) in *. assert (0 <= b <= 6889) by lia. destruct (Z.lt_ge_cases (x + 2048) (2 ^ (W - 1))) as [Hlt|Hge].
  - rewrite wraps_small by lia. pose proof (Z.div_mod (x + 2048) 4096 ltac:(lia)). pose proof (Z.mod_pos_bound (x + 2048) 4096 ltac:(lia)).
    set (a := (x + 2048) / 4096) in *. assert (0 <= a <= 524288) by lia. split; [intros _; split; [nia|]|split; [lia|intros; nia]].
    assert (- 2048 <= a * 4096 - x <= 2048) by lia. assert (-32768 <= b * 65536 - y <= 32768) by lia.
    replace (a * b * 268435456 - x * y) with ((a * 4096 - x) * (b * 65536) + x * (b * 65536 - y)) by ring.
    assert (Z.abs ((a * 4096 - x) * (b * 65536)) <= 2048 * (y + 32768)) by (rewrite Z.abs_mul; nia).
    assert (Z.abs (x * (b * 65536 - y)) <= 32768 * x) by (rewrite Z.abs_mul; nia). lia.
  - assert (W = 32) as ->. { apply Z.le_antisymm; [|done]. apply Z.nlt_ge. intros Hw. pose proof (Z.pow_le_mono_r 2 32 (W - 1) ltac:(lia) ltac:(lia)) as H32. change (2 ^ 32) with 4294967296 in H32. lia. }
    change (2 ^ (32 - 1)) with 2147483648 in *. assert (wraps 32 (x + 2048) = x + 2048 - 4294967296) as ->.
    { unfold wraps. change (2 ^ (32 - 1)) with 2147483648. change (2 ^ 32) with 4294967296. rewrite (Z.mod_eq _ 4294967296) by lia. assert ((x + 2048 + 2147483648) / 4294967296 = 1) as -> by (symmetry; apply (Z.div_unique _ _ _ (x + 2048 - 2147483648)); lia). lia. }
    assert ((x + 2048 - 4294967296) / 4096 = -524288) as -> by (symmetry; apply (Z.div_unique _ _ _ (x + 2048 - 2147483648)); lia). split; [lia|]. split; [done|lia].
Qed.

(** The mantissa before the multiplication. *)
Definition scaled (m E : Z) : Z :=
  if E <? 0 then if 32 <=? - E then 0 else (m + 2 ^ (- E - 1)) / 2 ^ (- E) else if 5 <=? E then MAD_F_MAX else m * 2 ^ E.

Lemma scaled_spec m E : 0 <= m < 2 ^ 27 ->
  (E < 5 -> rounded m E (scaled m E)) /\ (5 <= E -> scaled m E = MAD_F_MAX) /\
  0 <= scaled m E < 2 ^ 31 /\ (E < 4 -> scaled m E < 2 ^ 30).
Proof.
  intros Hm. unfold rounded, scaled. change (2 ^ 27) with 134217728 in *. change (2 ^ 31) with 2147483648.
  change (2 ^ 30) with 1073741824. destruct (Z.ltb_spec E 0) as [HE|HE].
  - destruct (Z.leb_spec 32 (- E)) as [H32|H32].
    + pose proof (Z.pow_le_mono_r 2 32 (- E) ltac:(lia) ltac:(lia)). change (2 ^ 32) with 4294967296 in *. lia.
    + replace (2 ^ (- E)) with (2 * 2 ^ (- E - 1)) by (rewrite <- Z.pow_succ_r by lia; f_equal; lia).
      pose proof (pow2_pos (- E - 1) ltac:(lia)) as Hp. set (p := 2 ^ (- E - 1)) in *.
      pose proof (Z.div_mod (m + p) (2 * p) ltac:(lia)). pose proof (Z.mod_pos_bound (m + p) (2 * p) ltac:(lia)).
      set (q := (m + p) / (2 * p)) in *. split; [intros _; lia|]. split; [lia|].
      assert (0 <= q) by (apply Z.div_pos; lia). nia.
  - destruct (Z.leb_spec 5 E) as [H5|H5]; [unfold MAD_F_MAX; lia|].
    assert (E = 0 \/ E = 1 \/ E = 2 \/ E = 3 \/ E = 4) as HE' by lia.
    change (2 ^ 0) with 1. repeat destruct HE' as [-> | HE']; try subst; cbn [Z.pow Z.pow_pos Pos.iter]; lia.
Qed.

Lemma requantize_value W value exp : 32 <= W -> 0 <= value < 8207 ->
  exists m e, aget rq_table value = Some (m, e) /\ rq_entry_ok value (m, e) = true /\
  exists r, III_requantize W value exp = Some r /\
  (Z.rem exp 4 = 0 -> r = scaled m (Z.quot exp 4 + e)) /\
  (Z.rem exp 4 <> 0 -> exists root, aget root_table (3 + Z.rem exp 4) = Some root /\
     r = mad_f_mul W (scaled m (Z.quot exp 4 + e)) root).
Proof.
  intros HW Hv. destruct (rq_entry value Hv) as (m&e&E&Hok). exists m, e. split; [done|]. split; [done|].
  unfold III_requantize. rewrite E. cbn [mbind option_bind].
  assert (0 <= m < 2 ^ 27) as Hm.
  { unfold rq_entry_ok in Hok. cbn [fst snd] in Hok. zbool. lia. }
  set (X := Z.quot exp 4 + e).
  assert ((if X <? 0 then if 32 <=? - X then 0 else s32 (wraps W (m + (1 .<< (- X - 1)))) .>> (- X)
    else if 5 <=? X then MAD_F_MAX else s32 (m .<< X)) = scaled m X) as ->.
  { pose proof (scaled_spec m X Hm) as (_&_&Hs&_). unfold scaled in *.
    destruct (Z.ltb_spec X 0); [destruct (Z.leb_spec 32 (- X)); [done|]|destruct (Z.leb_spec 5 X); [done|]].
    - rewrite Z.shiftl_1_l, Z.shiftr_div_pow2 by lia. change (2 ^ 27) with 134217728 in *.
      pose proof (Z.pow_le_mono_r 2 (- X - 1) 30 ltac:(lia) ltac:(lia)). pose proof (pow2_pos (- X - 1) ltac:(lia)).
      change (2 ^ 30) with 1073741824 in *.
      by rewrite (wraps_wide W), s32_small by (change (2 ^ 31) with 2147483648; lia).
    - rewrite Z.shiftl_mul_pow2 by lia. apply s32_small. lia. }
  assert (-4 < Z.rem exp 4 < 4) as Hf.
  { pose proof (Z.rem_bound_abs exp 4 ltac:(lia)). lia. }
  destruct (Z.eqb_spec (Z.rem exp 4) 0) as [E0|E0]; cbn [negb].
  - eexists. split; [done|]. split; [done|]. lia.
  - destruct (root_entry _ Hf) as (root&->&_). cbn [mbind option_bind]. eexists. split; [done|]. split; [lia|].
    intros _. by exists root.
Qed.

(** Every table entry and every exponent is defined. *)
Lemma requantize_defined W value exp : 32 <= W -> 0 <= value < 8207 -> exists r, III_requantize W value exp = Some r.
Proof. intros HW Hv. destruct (requantize_value W value exp HW Hv) as (m&e&_&_&r&E&_). by exists r. Qed.

(** ** Claims *)

(** The bands of mixed blocks: the long bands below line 36 and the short bands above it. *)
Definition mixed_bands (r : bandwidths) : list Z := take (long_bands 36 (sfb_l r)) (sfb_l r) ++ drop 9 (sfb_s r).

(** All rates but 8000 Hz have such bands. *)
Lemma mixed_bands_ok i r : aget sfbwidth_table i = Some r -> i <> 8 -> sfb_m r = mixed_bands r /\ sum (take 9 (sfb_s r)) = 36.
Proof.
  intros Hi Hne. pose proof (aget_inv _ _ _ Hi) as Hr. change (zlen sfbwidth_table) with 9 in Hr.
  assert (forallb (fun i => match aget sfbwidth_table i with Some r => bool_decide (sfb_m r = mixed_bands r) && (sum (take 9 (sfb_s r)) =? 36) | None => false end) (seqZ 0 8) = true) as H by (vm_compute; reflexivity).
  pose proof (forall_range _ 0 8 H i ltac:(lia)) as Hb. cbv beta in Hb. rewrite Hi in Hb. apply andb_true_iff in Hb as [Hb%bool_decide_eq_true ?%Z.eqb_eq]. done.
Qed.

(** At 8000 Hz no short band ends at line 36, and the table of mixed blocks is a guess, as its comment says. *)
Lemma bands_8000_do_not_break : Forall (fun k => sum (take (3 * k) sfb_8000_short) <> 36) (seq 0 14).
Proof. repeat constructor; discriminate. Qed.





(** A saturated value is multiplied by the root as well, and the product wraps: with
    64-bit [long] a large positive coefficient becomes negative. *)
Example requantize_saturation_wraps : III_requantize 64 1 17 = Some (- 1741160448).
Proof. vm_compute. reflexivity. Qed.
