(* ===== verification/MadHuffDecode.v ===== *)
(** The Huffman decoder of MPEG Layer III: [III_huffdecode] of
    [src/libmad/layer3.c].

    The decoder keeps up to 31 bits of the stream in an [unsigned long] that is never
    masked; the tables and look-ups are those of MadHuffman, the requantization that of
    MadRequantize.  The variables of the function are grouped in records: the bit
    cache, the scale factor band, the region, the requantized values kept, and the
    output with its position. *)
From S2P Require Import Prelude BitString MadBit MadFrame MadHuffman MadSideInfo MadRqTable MadRequantize.

(** ** State *)

(** [bitcache], [cachesz], [bits_left] and [peek]. *)
Record bitcache := MkCache { bc_cache : Z; cachesz : Z; bits_left : Z; peek : mad_bitptr }.

(** [sfbound] as an index of [xr], [sfbwidth] and [expptr] as indices of their
    arrays. *)
Record bandstate := MkBand { sfbound : Z; sfbwidth_i : Z; bs_exp : Z; expptr : Z }.

Record regionstate := MkRegion { region : Z; rcount : Z; entry : hufftable }.

Record reqstate := MkReq { reqhits : Z; reqcache : list Z }.

(** [xr] and [xrptr]. *)
Record output := MkOutput { xr : list Z; xrptr : Z }.

Definition MAD_ERROR_BADPART3LEN : Z := 0x0236.
Definition MAD_ERROR_BADHUFFTABLE : Z := 0x0237.
Definition MAD_ERROR_BADHUFFDATA : Z := 0x0238.

Section Decode.
Variable long_bits : Z.
Variable mem : list Z.
(** The arguments of the call, the exponents computed. *)
Variables (c : channel) (sfbwidth exponents : list Z).

Abbreviation read := (mad_bit_read long_bits mem).
Abbreviation requantize := (III_requantize long_bits).

(** ** The cache *)

(** [bitcache = (bitcache << n) | mad_bit_read(&peek, n)] and the two counts. *)
Definition refill (n : Z) (b : bitcache) : option bitcache :=
  '(v, p) ← read (peek b) n;
  Some (MkCache (wrapu long_bits (bc_cache b .<< n) .| v) (s32 (cachesz b + n)) (s32 (bits_left b - n)) p).

Definition need (n bits : Z) (b : bitcache) : option bitcache :=
  if cachesz b <? n then refill bits b else Some b.

(** [MASK] of the cache, and the bits dropped. *)
Definition take_bits (n : Z) (b : bitcache) : option (Z * bitcache) :=
  v ← MASK long_bits (bc_cache b) (cachesz b) n;
  Some (v, MkCache (bc_cache b) (cachesz b - n) (bits_left b) (peek b)).

(** [MASK1BIT(bitcache, cachesz--) ? -requantized : requantized]; the shift of [1] is
    an [int]. *)
Definition sign_bit (requantized : Z) (b : bitcache) : option (Z * bitcache) :=
  if (1 <=? cachesz b) && (cachesz b <? 32) then
    Some (if bitset (bc_cache b) (1 .<< (cachesz b - 1)) then s32 (- requantized) else requantized,
          MkCache (bc_cache b) (cachesz b - 1) (bits_left b) (peek b))
  else None.

(** ** Values *)

(** [if (reqhits & (1 << value))] *)
Definition cached (value exp : Z) (q : reqstate) : option (Z * reqstate) :=
  if bitset (reqhits q) (1 .<< value) then r ← aget (reqcache q) value; Some (r, q)
  else
    r ← requantize value exp;
    l ← aset (reqcache q) value r;
    Some (r, MkReq (reqhits q .| (1 .<< value)) l).

Definition put (x : Z) (k : Z) (o : output) : option output :=
  l ← aset (xr o) (xrptr o + k) x; Some (MkOutput l (xrptr o)).

(** One value of a pair, [k] 0 for x and 1 for y: x makes sure of [linbits + 2] bits in
    front of the escape, y of [linbits + 1]. *)
Definition pair_value (linbits exp k value : Z) (st : bitcache * reqstate * output)
    : option (bitcache * reqstate * output) :=
  let '(b, q, o) := st in
  if value =? 0 then o ← put 0 k o; Some (b, q, o)
  else if negb (linbits =? 0) && (value =? 15) then
    b ← need (linbits + 2 - k) 16 b;
    '(v, b) ← take_bits linbits b;
    r ← requantize (value + v) exp;
    '(x, b) ← sign_bit r b;
    o ← put x k o; Some (b, q, o)
  else
    '(r, q) ← cached value exp q;
    '(x, b) ← sign_bit r b;
    o ← put x k o; Some (b, q, o).

(** [sfbound += *sfbwidth++] and the exponent of the next band; true when it
    changed. *)
Definition next_band (s : bandstate) : option (bool * bandstate) :=
  w ← aget sfbwidth (sfbwidth_i s);
  e ← aget exponents (expptr s);
  Some (negb (bs_exp s =? e), MkBand (sfbound s + w) (sfbwidth_i s + 1) e (expptr s + 1)).

(** [entry = &mad_huff_pair_table[...]]; the inner [None] is [table == 0]. *)
Definition select_table (region : Z) : option (option hufftable) :=
  i ← aget (table_select c) region;
  h ← aget mad_huff_pair_table i;
  Some (match table h with Some _ => Some h | None => None end).

(** [if (--rcount == 0)] *)
Definition next_region (r : regionstate) : option (option regionstate) :=
  let n := u32 (rcount r - 1) in
  if n =? 0 then
    let n := if region r =? 0 then u32 (region1_count c + 1) else 0 in
    h ← select_table (region r + 1);
    Some (match h with Some h => Some (MkRegion (region r + 1) n h) | None => None end)
  else Some (Some (MkRegion (region r) n (entry r))).

(** At a band boundary; the inner [None] returns [MAD_ERROR_BADHUFFTABLE]. *)
Definition boundary (st : bandstate * regionstate * reqstate) (x : Z)
    : option (option (bandstate * regionstate * reqstate)) :=
  let '(s, r, q) := st in
  if x =? sfbound s then
    '(changed, s) ← next_band s;
    r ← next_region r;
    match r with
    | None => Some None
    | Some r => Some (Some (s, r, if changed : bool then MkReq 0 (reqcache q) else q))
    end
  else Some (Some st).

(** The table walk. *)
Definition pair_code (h : hufftable) (b : bitcache) : option (Z * Z * bitcache) :=
  t ← table h;
  '(x, y, sz) ← pair_lookup long_bits 8 t (bc_cache b) (cachesz b) 0 (startbits h);
  Some (x, y, MkCache (bc_cache b) sz (bits_left b) (peek b)).

Abbreviation bigstate := (bitcache * bandstate * regionstate * reqstate * output)%type.

(** The body of the loop over [big_values]; on the right [xr] when it returns
    [MAD_ERROR_BADHUFFTABLE]. *)
Definition big_pair (st : bigstate) : option (bigstate + list Z) :=
  let '(b, s, r, q, o) := st in
  next ← boundary (s, r, q) (xrptr o);
  match next with
  | None => Some (inr (xr o))
  | Some (s, r, q) =>
    b ← need 21 (Z.land (31 - 21 + (21 - cachesz b)) (Z.lnot 7)) b;
    '(x, y, b) ← pair_code (entry r) b;
    '(b, q, o) ← pair_value (linbits (entry r)) (bs_exp s) 0 x (b, q, o);
    '(b, q, o) ← pair_value (linbits (entry r)) (bs_exp s) 1 y (b, q, o);
    Some (inl (b, s, r, q, MkOutput (xr o) (xrptr o + 2)))
  end.

(** [while (big_values-- && cachesz + bits_left > 0)] *)
Fixpoint big_loop (big : nat) (st : bigstate) : option (bigstate + list Z) :=
  match big with
  | O => Some (inl st)
  | S big =>
    let '(b, _, _, _, _) := st in
    if 0 <? cachesz b + bits_left b then
      next ← big_pair st;
      match next with inl st => big_loop big st | inr l => Some (inr l) end
    else Some (inl st)
  end.

(** ** Quadruples *)

(** At a band boundary in the second part. *)
Definition quad_boundary (s : bandstate) (requantized x : Z) : option (bandstate * Z) :=
  if x =? sfbound s then
    '(changed, s) ← next_band s;
    r ← (if changed : bool then requantize 1 (bs_exp s) else Some requantized);
    Some (s, r)
  else Some (s, requantized).

(** [xrptr[k] = v ? ... : 0] *)
Definition quad_value (requantized k v : Z) (st : bitcache * output) : option (bitcache * output) :=
  let '(b, o) := st in
  '(x, b) ← (if negb (v =? 0) then sign_bit requantized b else Some (0, b));
  o ← put x k o; Some (b, o).

Abbreviation quadstate := (bitcache * bandstate * Z * output)%type.

(** The body of the loop over the quadruples. *)
Definition quad_step (tbl : list huffquad) (st : quadstate) : option quadstate :=
  let '(b, s, req, o) := st in
  b ← need 10 16 b;
  '(v, w, x, y, sz) ← quad_lookup long_bits tbl (bc_cache b) (cachesz b);
  let b := MkCache (bc_cache b) sz (bits_left b) (peek b) in
  '(s, req) ← quad_boundary s req (xrptr o);
  '(b, o) ← quad_value req 0 v (b, o);
  '(b, o) ← quad_value req 1 w (b, o);
  let o := MkOutput (xr o) (xrptr o + 2) in
  '(s, req) ← quad_boundary s req (xrptr o);
  '(b, o) ← quad_value req 0 x (b, o);
  '(b, o) ← quad_value req 1 y (b, o);
  Some (b, s, req, MkOutput (xr o) (xrptr o + 2)).

Definition quad_more (st : quadstate) : bool :=
  let '(b, _, _, o) := st in (0 <? cachesz b + bits_left b) && (xrptr o <=? 572).

(** ** The whole part *)

(** [while (xrptr < &xr[576])] *)
Definition rzero (o : output) : option output :=
  while_loop 577 (fun o => xrptr o <? 576) (fun o =>
    o ← put 0 0 o; o ← put 0 1 o; Some (MkOutput (xr o) (xrptr o + 2))) o.

Definition count1 (b : bitcache) (s : bandstate) (o : output) : option (bitcache * output) :=
  tbl ← aget mad_huff_quad_table (ch_flags c .& count1table_select);
  req ← requantize 1 (bs_exp s);
  '(b, s, req, o) ← while_loop 145 quad_more (quad_step tbl) (b, s, req, o);
  Some (b, if cachesz b + bits_left b <? 0 then MkOutput (xr o) (xrptr o - 4) else o).

(** After the pairs. *)
Definition finish (next : bigstate + list Z) : option (Z * list Z) :=
  match next with
  | inr l => Some (MAD_ERROR_BADHUFFTABLE, l)
  | inl (b, s, _, _, o) =>
    if cachesz b + bits_left b <? 0 then Some (MAD_ERROR_BADHUFFDATA, xr o) else
    '(b, o) ← count1 b s o;
    if MAD_BUFFER_GUARD * CHAR_BIT <? - bits_left b then None else
    o ← rzero o;
    Some (MAD_ERROR_NONE, xr o)
  end.

(** From the first read to the end, [start] the pointer and [bits] the length of the
    part; [cache0] is the uninitialised [reqcache]. *)
Definition huffdecode (start : mad_bitptr) (bits : Z) (xr0 cache0 : list Z) : option (Z * list Z) :=
  let sz := mad_bit_bitsleft start in
  let sz := sz + Z.land (32 - 1 - 24 + (24 - sz)) (Z.lnot 7) in
  '(v, p) ← read start sz;
  let b := MkCache v sz (s32 (bits - sz)) p in
  w ← aget sfbwidth 0;
  h ← select_table 0;
  match h with
  | None => Some (MAD_ERROR_BADHUFFTABLE, xr0)
  | Some h =>
    e ← aget exponents 0;
    next ← big_loop (Z.to_nat (big_values c))
      (b, MkBand w 1 e 1, MkRegion 0 (u32 (region0_count c + 1)) h, MkReq 0 cache0, MkOutput xr0 0);
    finish next
  end.
End Decode.

(** The result, [xr] and the pointer; [exps0] and [cache0] are the uninitialised
    arrays. *)
Definition III_huffdecode (long_bits : Z) (mem : list Z) (p : mad_bitptr) (xr0 : list Z) (c : channel)
    (sfbwidth : list Z) (part2_length : Z) (exps0 cache0 : list Z) : option (Z * list Z * mad_bitptr) :=
  let bits := s32 (s32 (part2_3_length c) - s32 part2_length) in
  if bits <? 0 then Some (MAD_ERROR_BADPART3LEN, xr0, p) else
  exponents ← III_exponents c sfbwidth exps0;
  p' ← mad_bit_skip mem p bits;
  '(result, l) ← huffdecode long_bits mem c sfbwidth exponents p bits xr0 cache0;
  Some (result, l, p').

(** ** The bit cache *)

Lemma bitset_testbit x k : 0 <= k -> bitset x (1 .<< k) = Z.testbit x k.
Proof.
  intros Hk. rewrite Z.shiftl_1_l. unfold bitset. destruct (Z.testbit x k) eqn:Et.
  - destruct (Z.eqb_spec (x .& 2 ^ k) 0) as [E|]; [|done]. apply (f_equal (fun z => Z.testbit z k)) in E.
    rewrite Z.land_spec, Et, Z.pow2_bits_true, Z.bits_0 in E by lia. done.
  - rewrite (proj2 (Z.eqb_eq _ 0)); [done|]. apply Z.bits_inj'. intros j Hj. rewrite Z.land_spec, Z.bits_0.
    destruct (decide (j = k)) as [->|]; [by rewrite Et|]. rewrite Z.pow2_bits_false by lia. by rewrite andb_false_r.
Qed.

Section Cache.
Variables (W : Z) (mem : list Z).
Hypotheses (HW : 32 <= W) (Hmem : bytes_ok mem).
(** The end of the part. *)
Variable fin : Z.

(** The next bit is bit [i] of the input, and the cache holds the bits from there to
    the read pointer. *)
Record cache_ok (i : Z) (b : bitcache) : Prop := CacheOk {
  ca_peek : bitptr_ok mem (peek b) /\ pos (peek b) = i + cachesz b;
  ca_in : i + cachesz b <= 8 * zlen mem;
  ca_size : 0 <= cachesz b <= 31;
  ca_bits : bc_cache b mod 2 ^ cachesz b = bits mem i (cachesz b);
  ca_left : bits_left b = fin - i - cachesz b;
  ca_range : 0 <= i /\ -100 <= fin - i < 2 ^ 20
}.

Lemma refill_ok i n b : cache_ok i b -> 1 <= n -> cachesz b + n <= 31 -> i + cachesz b + n <= 8 * zlen mem ->
  exists b', refill W mem n b = Some b' /\ cache_ok i b' /\ cachesz b' = cachesz b + n.
Proof using HW Hmem.
  intros [[Hp Hpos] _ Hs Hb Hl Hr] Hn Hsn Hin. change (2 ^ 20) with 1048576 in *. unfold refill.
  destruct (read_exact W mem HW Hmem (peek b) n Hp) as (p'&->&Hp'&Hpos'); [lia|lia|]. cbn [mbind option_bind].
  rewrite Hpos. rewrite !s32_small by (change (2 ^ 31) with 2147483648; lia). eexists. split; [done|].
  split; [|done]. split; cbn [bc_cache cachesz bits_left peek]; [split; [done|lia]|lia|lia| |lia|done].
  pose proof (bits_range mem (i + cachesz b) n ltac:(lia)) as Hv. set (v := bits mem (i + cachesz b) n) in *.
  rewrite Z.shiftl_mul_pow2 by lia.
  assert (wrapu W (bc_cache b * 2 ^ n) = (bc_cache b mod 2 ^ (W - n)) * 2 ^ n) as ->.
  { unfold wrapu. replace (2 ^ W) with (2 ^ (W - n) * 2 ^ n) by (rewrite <- Z.pow_add_r by lia; f_equal; lia).
    apply Z.mul_mod_distr_r; apply Z.pow_nonzero; lia. }
  rewrite <- (Z.shiftl_mul_pow2 (_ mod _) n), Z.lor_comm, lor_shiftl_add by lia.
  rewrite (bits_app mem i (cachesz b) n) by lia. fold v. rewrite <- Hb.
  assert ((bc_cache b mod 2 ^ (W - n)) mod 2 ^ cachesz b = bc_cache b mod 2 ^ cachesz b) as E.
  { apply Z.bits_inj'. intros k Hk. destruct (Z.ltb_spec k (cachesz b)).
    - by rewrite !Z.mod_pow2_bits_low by lia.
    - by rewrite !Z.mod_pow2_bits_high by lia. }
  rewrite <- E. set (y := bc_cache b mod 2 ^ (W - n)). rewrite Z.add_comm, (Z.pow_add_r 2 (cachesz b) n) by lia.
  symmetry. apply Z.mod_unique_pos with (q := y / 2 ^ cachesz b).
  - pose proof (Z.mod_pos_bound y (2 ^ cachesz b) (pow2_pos (cachesz b) ltac:(lia))).
    pose proof (pow2_pos n ltac:(lia)). nia.
  - pose proof (Z.div_mod y (2 ^ cachesz b)) as D. rewrite D at 1 by (apply Z.pow_nonzero; lia). ring.
Qed.

(** Part of a number. *)
Lemma low_slice x y a n m : x mod 2 ^ a = y mod 2 ^ a -> 0 <= n -> 0 <= m -> n + m <= a ->
  (x / 2 ^ m) mod 2 ^ n = (y / 2 ^ m) mod 2 ^ n.
Proof using.
  intros E Hn Hm Ha. apply Z.bits_inj'. intros k Hk. destruct (Z.ltb_spec k n).
  - rewrite !Z.mod_pow2_bits_low, !Z.div_pow2_bits by lia.
    rewrite <- (Z.mod_pow2_bits_low x a), <- (Z.mod_pow2_bits_low y a), E by lia. done.
  - by rewrite !Z.mod_pow2_bits_high by lia.
Qed.

Lemma cache_low i b : cache_ok i b -> bc_cache b mod 2 ^ cachesz b = bits mem i (cachesz b) mod 2 ^ cachesz b.
Proof using.
  intros [_ _ Hs Hb _ _]. rewrite Hb. symmetry. apply Z.mod_small, bits_range. lia.
Qed.

Lemma cache_window i b n : cache_ok i b -> 0 <= n <= cachesz b -> window (bc_cache b) (cachesz b) n = bits mem i n.
Proof using.
  intros Hc Hn. pose proof (cache_low i b Hc) as E. destruct Hc as [_ Hin Hs _ _ _].
  unfold window. rewrite (low_slice _ _ _ _ _ E) by lia.
  pose proof (bits_sub mem i (cachesz b) 0 n ltac:(lia) ltac:(lia) ltac:(lia) ltac:(lia)) as Eb.
  by rewrite Z.add_0_r, Z.sub_0_r in Eb.
Qed.

(** The first [n] bits of the cache are used up. *)
Lemma cache_drop i b n : cache_ok i b -> 0 <= n <= cachesz b -> -100 <= fin - i - n ->
  cache_ok (i + n) (MkCache (bc_cache b) (cachesz b - n) (bits_left b) (peek b)).
Proof using.
  intros Hc Hn Hfin. pose proof (cache_low i b Hc) as E. destruct Hc as [[Hp Hpos] Hin Hs _ Hl Hr].
  split; cbn [bc_cache cachesz bits_left peek]; [split; [done|lia]|lia|lia| |lia|lia].
  pose proof (low_slice _ _ _ (cachesz b - n) 0 E ltac:(lia) ltac:(lia) ltac:(lia)) as E'.
  change (2 ^ 0) with 1 in E'. rewrite !Z.div_1_r in E'. rewrite E'.
  pose proof (bits_sub mem i (cachesz b) n (cachesz b - n) ltac:(lia) ltac:(lia) ltac:(lia) ltac:(lia)) as Eb.
  replace (cachesz b - n - (cachesz b - n)) with 0 in Eb by lia. change (2 ^ 0) with 1 in Eb.
  by rewrite Z.div_1_r in Eb.
Qed.

Lemma take_bits_ok i n b : cache_ok i b -> 0 <= n <= cachesz b -> -100 <= fin - i - n ->
  exists b', take_bits W n b = Some (bits mem i n, b') /\ cache_ok (i + n) b' /\ cachesz b' = cachesz b - n.
Proof using HW.
  intros Hc Hn Hfin. unfold take_bits. pose proof (ca_size _ _ Hc).
  rewrite MASK_window by lia. cbn [mbind option_bind]. rewrite (cache_window i) by done.
  eexists. split; [done|]. split; [by apply cache_drop|done].
Qed.

Definition signed (r s : Z) : Z := if s =? 0 then r else s32 (- r).

Lemma sign_bit_ok i r b : cache_ok i b -> 1 <= cachesz b -> -100 <= fin - i - 1 ->
  exists b', sign_bit r b = Some (signed r (bits mem i 1), b') /\ cache_ok (i + 1) b' /\ cachesz b' = cachesz b - 1.
Proof using.
  intros Hc Hn Hfin. unfold sign_bit. pose proof (ca_size _ _ Hc).
  rewrite (proj2 (Z.leb_le 1 (cachesz b))), (proj2 (Z.ltb_lt (cachesz b) 32)) by lia. cbn [andb].
  eexists. split; [|split; [by apply cache_drop; [done|lia|]|done]]. do 2 f_equal. unfold signed.
  rewrite <- (cache_window i b 1) by (done || lia). unfold window.
  rewrite Z.shiftl_1_l, <- Z.testbit_spec' by lia.
  rewrite <- Z.shiftl_1_l, bitset_testbit by lia. by destruct (Z.testbit _ _).
Qed.

Lemma need_ok i n k b : cache_ok i b -> 0 <= k -> (cachesz b < n -> 1 <= k /\ n <= cachesz b + k <= 31 /\ i + cachesz b + k <= 8 * zlen mem) ->
  exists b', need W mem n k b = Some b' /\ cache_ok i b' /\ n <= cachesz b'.
Proof using HW Hmem.
  intros Hc Hk Hn. unfold need. destruct (Z.ltb_spec (cachesz b) n) as [Hlt|Hge]; [|by exists b].
  destruct (Hn Hlt) as (H1&H2&H3). destruct (refill_ok i k b Hc H1) as (b'&->&Hb'&Hs); [lia|done|].
  exists b'. split; [done|]. split; [done|lia].
Qed.
End Cache.

(** ** Values *)

Section Values.
Variable W : Z.
Hypothesis HW : 32 <= W.

Definition requant (value exp : Z) : Z := default 0 (III_requantize W value exp).

Lemma requant_eq value exp : 0 <= value < 8207 -> III_requantize W value exp = Some (requant value exp).
Proof. intros Hv. unfold requant. by destruct (requantize_defined W value exp HW Hv) as [r ->]. Qed.

(** The values kept are those of the exponent. *)
Record req_ok (exp : Z) (q : reqstate) : Prop := ReqOk {
  rq_length : length (reqcache q) = 16%nat;
  rq_hits : 0 <= reqhits q;
  rq_kept : forall v, 0 <= v < 16 -> Z.testbit (reqhits q) v = true -> aget (reqcache q) v = Some (requant v exp)
}.

Lemma cached_ok value exp q : 0 <= value < 16 -> req_ok exp q ->
  exists q', cached W value exp q = Some (requant value exp, q') /\ req_ok exp q'.
Proof.
  intros Hv [Hl Hh Hk]. unfold cached. rewrite bitset_testbit by lia. destruct (Z.testbit (reqhits q) value) eqn:Et.
  - rewrite (Hk value Hv Et). cbn [mbind option_bind]. exists q. by repeat split.
  - rewrite requant_eq by lia. cbn [mbind option_bind]. rewrite aset_Some by lia. cbn [mbind option_bind].
    eexists. split; [done|]. split; cbn [reqcache reqhits].
    + by rewrite length_insert.
    + apply Z.lor_nonneg. split; [done|]. rewrite Z.shiftl_1_l. pose proof (pow2_pos value). lia.
    + intros v Hv' Hv2. rewrite Z.shiftl_1_l, Z.lor_spec in Hv2. destruct (decide (v = value)) as [->|].
      * by rewrite aget_insert_eq by lia.
      * rewrite Z.pow2_bits_false, orb_false_r in Hv2 by lia. rewrite aget_insert_ne by lia. auto.
Qed.

Lemma put_ok x k o : 0 <= xrptr o + k < zlen (xr o) ->
  put x k o = Some (MkOutput (<[Z.to_nat (xrptr o + k) := x]> (xr o)) (xrptr o)).
Proof. intros H. unfold put. by rewrite aset_Some by lia. Qed.

Variable mem : list Z.

(** The coefficient of [value] at bit [i] of the input and the next bit: an escape
    and a sign. *)
Definition value_at (linbits exp value i : Z) : Z * Z :=
  if value =? 0 then (0, i)
  else if negb (linbits =? 0) && (value =? 15) then
    (signed (requant (value + bits mem i linbits) exp) (bits mem (i + linbits) 1), i + linbits + 1)
  else (signed (requant value exp) (bits mem i 1), i + 1).

Lemma value_at_next linbits exp value i : 0 <= linbits <= 13 -> i <= (value_at linbits exp value i).2 <= i + 14.
Proof.
  intros Hl. unfold value_at. destruct (value =? 0); [cbn; lia|].
  destruct (Z.eqb_spec linbits 0), (value =? 15); cbn [negb andb snd]; lia.
Qed.

Hypothesis Hmem : bytes_ok mem.
Variable fin : Z.
Hypothesis Hroom : fin + 64 <= 8 * zlen mem.

Lemma pair_value_ok linbits exp k value i b q o : 0 <= linbits <= 13 -> 0 <= value < 16 -> 0 <= k <= 1 ->
  cache_ok mem fin i b -> 2 - k <= cachesz b -> i <= fin + 33 -> req_ok exp q -> 0 <= xrptr o -> xrptr o + k < zlen (xr o) ->
  exists b' q', pair_value W mem linbits exp k value (b, q, o) =
    Some (b', q', MkOutput (<[Z.to_nat (xrptr o + k) := (value_at linbits exp value i).1]> (xr o)) (xrptr o)) /\
  cache_ok mem fin (value_at linbits exp value i).2 b' /\ req_ok exp q' /\ 1 - k <= cachesz b'.
Proof.
  intros Hl Hv Hk Hb Hs Hi Hq Ho1 Ho2. unfold pair_value, value_at. destruct (Z.eqb_spec value 0) as [->|].
  { rewrite put_ok by lia. cbn [mbind option_bind]. exists b, q. split; [done|]. split; [done|]. split; [done|lia]. }
  pose proof (ca_size _ _ _ _ Hb) as Hsz. destruct (negb (linbits =? 0) && (value =? 15)) eqn:Eesc.
  - apply andb_true_iff in Eesc as [El%negb_true_iff%Z.eqb_neq Ev%Z.eqb_eq].
    destruct (need_ok W mem HW Hmem fin i (linbits + 2 - k) 16 b Hb) as (b1&->&Hb1&Hs1); [lia|lia|].
    cbn [mbind option_bind].
    destruct (take_bits_ok W mem HW fin i linbits b1 Hb1) as (b2&->&Hb2&Hs2); [lia|lia|]. cbn [mbind option_bind].
    pose proof (bits_range mem i linbits ltac:(lia)) as Hr.
    pose proof (Z.pow_le_mono_r 2 linbits 13 ltac:(lia) ltac:(lia)). change (2 ^ 13) with 8192 in *.
    rewrite requant_eq by lia. cbn [mbind option_bind].
    destruct (sign_bit_ok mem fin (i + linbits) (requant (value + bits mem i linbits) exp) b2 Hb2) as (b3&->&Hb3&Hs3);
      [lia|lia|]. cbn [mbind option_bind]. rewrite put_ok by lia. cbn [mbind option_bind].
    exists b3, q. split; [done|]. split; [done|]. split; [done|lia].
  - destruct (cached_ok value exp q Hv Hq) as (q'&->&Hq'). cbn [mbind option_bind].
    destruct (sign_bit_ok mem fin i (requant value exp) b Hb) as (b1&->&Hb1&Hs1); [lia|lia|].
    cbn [mbind option_bind]. rewrite put_ok by lia. cbn [mbind option_bind].
    exists b1, q'. split; [done|]. split; [done|]. split; [done|lia].
Qed.
End Values.

(** ** Bands and regions *)

Fixpoint band_index (widths : list Z) (x : Z) : nat :=
  match widths with w :: ws => if x <? w then O else S (band_index ws (x - w)) | [] => O end.

Lemma sum_take_S l b : (b < length l)%nat -> sum (take (S b) l) = sum (take b l) + nth b l 0.
Proof.
  intros Hb. destruct (lookup_lt_is_Some_2 l b Hb) as [w E]. rewrite (take_S_r _ _ w E), sum_app, (nth_lookup_Some _ _ _ _ E).
  cbn. lia.
Qed.

Lemma width_nth l b : Forall width_ok l -> (b < length l)%nat -> width_ok (nth b l 0).
Proof. intros H Hb. by apply (Forall_nth width_ok). Qed.

Lemma sum_even l b : Forall width_ok l -> (b <= length l)%nat -> sum (take b l) mod 2 = 0 /\ 0 <= sum (take b l).
Proof.
  intros Hl. induction b as [|b IH]; intros Hb; [done|]. rewrite sum_take_S by lia.
  destruct (width_nth l b Hl ltac:(lia)) as [H1 H2]. destruct (IH ltac:(lia)). split; [|lia]. zdiv.
Qed.

Lemma sum_mono l b : Forall width_ok l -> forall a, (a <= b)%nat -> (b <= length l)%nat -> sum (take a l) <= sum (take b l).
Proof.
  intros Hl. induction b as [|b IH]; intros a Ha Hb; [by replace a with O by lia|].
  destruct (decide (a = S b)) as [->|]; [done|]. rewrite sum_take_S by lia.
  destruct (width_nth l b Hl ltac:(lia)). specialize (IH a ltac:(lia) ltac:(lia)). lia.
Qed.

Lemma band_index_spec l : Forall width_ok l -> forall x, 0 <= x < sum l ->
  (band_index l x < length l)%nat /\ sum (take (band_index l x) l) <= x < sum (take (S (band_index l x)) l).
Proof.
  induction 1 as [|w l [Hw _] _ IH]; intros x Hx; [cbn in Hx; lia|]. rewrite sum_cons in Hx.
  cbn [band_index]. destruct (Z.ltb_spec x w); [cbn [take length]; rewrite take_0, sum_cons; change (sum []) with 0; lia|]. destruct (IH (x - w)) as [H1 H2]; [lia|].
  cbn [take length] in *. rewrite !sum_cons. cbn [take] in H2. split; [lia|].
  destruct l as [|w' l]; [cbn in H1; lia|]. cbn [take] in *. lia.
Qed.

Lemma band_index_unique l x b : Forall width_ok l -> (b < length l)%nat ->
  sum (take b l) <= x < sum (take (S b) l) -> band_index l x = b.
Proof.
  intros Hl Hb Hx. pose proof (sum_even l b Hl ltac:(lia)) as [_ H0].
  pose proof (sum_mono l (length l) Hl (S b) ltac:(lia) ltac:(lia)) as Hm. rewrite (take_ge l (length l)) in Hm by lia.
  destruct (band_index_spec l Hl x ltac:(lia)) as [Hk1 Hk2]. set (k := band_index l x) in *.
  destruct (Nat.lt_trichotomy k b) as [Hlt|[->|Hlt]]; [|done|].
  - pose proof (sum_mono l b Hl (S k) ltac:(lia) ltac:(lia)). lia.
  - pose proof (sum_mono l k Hl (S b) ltac:(lia) ltac:(lia)). lia.
Qed.

Lemma index_bound widths x : widths_ok widths -> (band_index widths x <= 39)%nat.
Proof.
  intros [_ _ Hl]. assert (forall l y, (band_index l y <= length l)%nat) as H.
  { induction l as [|w l IH]; intros y; cbn [band_index length]; [lia|]. destruct (y <? w); [lia|]. specialize (IH (y - w)). lia. }
  specialize (H widths x). lia.
Qed.

Section Bands.
Variables (W : Z) (c : channel) (widths exps : list Z).
Hypothesis HW : 32 <= W.
Hypothesis Hwidths : widths_ok widths.
Hypothesis Hexps : length exps = 39%nat.

(** The band that starts or ends at [x], or has it inside. *)
Definition band_ok (x : Z) (b : nat) (s : bandstate) : Prop :=
  (b < length widths)%nat /\ sum (take b widths) <= x <= sum (take (S b) widths) /\
  s = MkBand (sum (take (S b) widths)) (Z.of_nat (S b)) (nth b exps 0) (Z.of_nat (S b)).

Lemma band_settled x b s : band_ok x b s -> x <> sfbound s -> b = band_index widths x.
Proof.
  intros (Hb&Hx&->) Hn. cbn in Hn. symmetry. apply band_index_unique; [apply Hwidths|done|lia].
Qed.

Lemma band_advance x s : x mod 2 = 0 -> 0 <= x < 576 -> band_ok x (band_index widths x) s ->
  band_ok (x + 2) (band_index widths x) s.
Proof.
  intros He Hx (Hb&_&->). destruct Hwidths as [Hw Hs _].
  destruct (band_index_spec widths Hw x ltac:(lia)) as [_ H2].
  destruct (sum_even widths (S (band_index widths x)) Hw ltac:(lia)) as [H3 _].
  split; [done|]. split; [|done]. split; [lia|]. zdiv.
Qed.

Lemma next_band_ok x b s : band_ok x b s -> x = sfbound s -> x < 576 ->
  exists s', next_band widths exps s = Some (negb (nth b exps 0 =? nth (S b) exps 0), s') /\
    S b = band_index widths x /\ band_ok x (S b) s'.
Proof.
  intros (Hb&Hx&->) Hn H576. cbn in Hn. destruct Hwidths as [Hw Hs Hl].
  assert (S b < length widths)%nat as HSb.
  { destruct (decide (S b < length widths)%nat); [done|]. rewrite take_ge, Hs in Hn by lia. lia. }
  destruct (lookup_lt_is_Some_2 widths (S b) HSb) as [w Ew].
  destruct (lookup_lt_is_Some_2 exps (S b) ltac:(lia)) as [e Ee].
  unfold next_band. cbn [sfbwidth_i expptr bs_exp sfbound]. rewrite !aget_lookup, !Nat2Z.id, Ew, Ee by lia.
  cbn [mbind option_bind]. rewrite (nth_lookup_Some exps (S b) 0 e Ee). eexists. split; [done|].
  pose proof (sum_take_S widths (S b) HSb) as E. rewrite (nth_lookup_Some widths (S b) 0 w Ew) in E.
  pose proof (width_nth widths (S b) Hw HSb) as [H0 _]. rewrite (nth_lookup_Some widths (S b) 0 w Ew) in H0.
  split; [symmetry; apply band_index_unique; [done|done|lia]|]. split; [done|]. split; [lia|].
  rewrite (nth_lookup_Some exps (S b) 0 e Ee), <- E. f_equal; lia.
Qed.

Definition region_index (b : nat) : Z :=
  if Z.of_nat b <=? region0_count c then 0
  else if Z.of_nat b <=? region0_count c + region1_count c + 1 then 1 else 2.

(** The channel's regions; the last one may be empty, and its table is then not read. *)
Record regions_ok : Prop := RegionsOk {
  ro_counts : 0 <= region0_count c < 256 /\ 0 <= region1_count c < 256;
  ro_select : length (table_select c) = 3%nat /\
    Forall (fun t => 0 <= t < 32) (take (if region0_count c + region1_count c <? 38 then 3 else 2) (table_select c))
}.
Hypothesis Hregions : regions_ok.

Definition region_end (k : Z) : Z := if k =? 0 then region0_count c + 1 else region0_count c + region1_count c + 2.

Definition region_ok (b : nat) (r : regionstate) : Prop :=
  region r = region_index b /\ rcount r = u32 (region_end (region_index b) - Z.of_nat b) /\
  select_table c (region r) = Some (Some (entry r)).

Lemma select_defined b : (b <= 39)%nat -> exists th, select_table c (region_index b) = Some th /\
  forall h, th = Some h -> exists n t, aget mad_huff_pair_table n = Some h /\ table h = Some t.
Proof using Hregions.
  clear HW Hwidths Hexps. intros Hb. destruct Hregions as [[H0 H1] [Hl Hf]]. unfold select_table.
  assert (0 <= region_index b < 3 /\ (region_index b = 2 -> region0_count c + region1_count c < 38)) as [Hk H2].
  { unfold region_index. destruct (Z.leb_spec (Z.of_nat b) (region0_count c)); [lia|].
    destruct (Z.leb_spec (Z.of_nat b) (region0_count c + region1_count c + 1)); lia. }
  set (k := region_index b) in *. destruct (aget_Some (table_select c) k) as [n En]; [lia|].
  rewrite En. cbn [mbind option_bind].
  assert (0 <= n < 32) as Hn.
  { rewrite aget_lookup in En by lia. apply (Forall_lookup_1 _ _ (Z.to_nat k) n Hf).
    rewrite lookup_take_lt; [done|]. destruct (Z.ltb_spec (region0_count c + region1_count c) 38); lia. }
  destruct (aget_Some mad_huff_pair_table n) as [h Eh]; [cbn [mad_huff_pair_table length]; lia|].
  rewrite Eh. cbn [mbind option_bind]. eexists. split; [done|]. intros h' E. destruct (table h) as [t|] eqn:Et; [|done].
  injection E as <-. by exists n, t.
Qed.

Lemma region_range b : 0 <= region_index b < 3.
Proof using. clear. unfold region_index. destruct (_ <=? _); [lia|]. destruct (_ <=? _); lia. Qed.

Lemma next_region_ok b r : region_ok b r -> (S b < 39)%nat ->
  exists th, select_table c (region_index (S b)) = Some th /\
  match th with
  | None => next_region c r = Some None
  | Some h => exists r', next_region c r = Some (Some r') /\ region_ok (S b) r' /\ entry r' = h
  end.
Proof.
  intros (Hr&Hc&Ht) Hb. destruct (select_defined (S b)) as (th&Eth&_); [lia|].
  exists th. split; [done|]. unfold next_region. destruct Hregions as [[H0 H1] _].
  assert (region_index (S b) = (if region_end (region_index b) - Z.of_nat b - 1 =? 0 then region_index b + 1 else region_index b)
    /\ (region_index b = 2 -> region_end (region_index b) - Z.of_nat b <= 0)
    /\ (region_index b < 2 -> 0 < region_end (region_index b) - Z.of_nat b < 1000)) as (Hnext&H2&H3).
  { unfold region_index, region_end. destruct (Z.leb_spec (Z.of_nat b) (region0_count c)).
    - change (0 =? 0) with true. cbv iota. destruct (Z.eqb_spec (region0_count c + 1 - Z.of_nat b - 1) 0).
      + rewrite (proj2 (Z.leb_gt (Z.of_nat (S b)) (region0_count c))) by lia.
        rewrite (proj2 (Z.leb_le (Z.of_nat (S b)) _)) by lia. lia.
      + rewrite (proj2 (Z.leb_le (Z.of_nat (S b)) (region0_count c))) by lia. lia.
    - rewrite (proj2 (Z.leb_gt (Z.of_nat (S b)) (region0_count c))) by lia.
      destruct (Z.leb_spec (Z.of_nat b) (region0_count c + region1_count c + 1)).
      + change (1 =? 0) with false. cbv iota.
        destruct (Z.eqb_spec (region0_count c + region1_count c + 2 - Z.of_nat b - 1) 0).
        * rewrite (proj2 (Z.leb_gt (Z.of_nat (S b)) _)) by lia. lia.
        * rewrite (proj2 (Z.leb_le (Z.of_nat (S b)) _)) by lia. lia.
      + rewrite (proj2 (Z.leb_gt (Z.of_nat (S b)) (_ + _))) by lia. change (2 =? 0) with false. cbv iota.
        rewrite (proj2 (Z.eqb_neq _ 0)) by lia. lia. }
  pose proof (region_range b) as Hrange. set (g := region_end (region_index b) - Z.of_nat b) in *.
  assert (u32 (rcount r - 1) = u32 (g - 1)) as ->.
  { rewrite Hc. unfold wrapu. rewrite Zminus_mod_idemp_l. done. }
  assert ((u32 (g - 1) =? 0) = (g - 1 =? 0)) as ->.
  { unfold g in *. destruct (Z.eq_dec (region_index b) 2) as [E2|E2].
    - specialize (H2 E2). rewrite (proj2 (Z.eqb_neq (region_end (region_index b) - Z.of_nat b - 1) 0)) by lia.
      apply Z.eqb_neq. unfold wrapu. change (2 ^ 32) with 4294967296.
      assert (-1000 < region_end (region_index b) - Z.of_nat b) by (unfold region_end; destruct (region_index b =? 0); lia). zdiv.
    - by rewrite wrapu_small by (change (2 ^ 32) with 4294967296; lia). }
  rewrite Hr. destruct (Z.eqb_spec (g - 1) 0) as [Eg|Eg].
  - rewrite <- Hnext, Eth. cbn [mbind option_bind]. destruct th as [h|]; [|done]. eexists. split; [done|]. split; [|done].
    split; [done|]. split; [|done]. cbn [rcount]. rewrite Hnext. unfold region_end, g, region_end in *.
    destruct (Z.eqb_spec (region_index b) 0) as [E0|E0].
    + rewrite E0. change (0 + 1 =? 0) with false. cbv iota. f_equal. lia.
    + rewrite (proj2 (Z.eqb_neq (region_index b + 1) 0)) by lia. rewrite wrapu_small; [lia|].
      change (2 ^ 32) with 4294967296. lia.
  - rewrite Hnext in Eth. rewrite <- Hr, Ht in Eth. injection Eth as <-. eexists. split; [done|]. split; [|done].
    split; [cbn; by rewrite Hnext|]. split; [|cbn; by rewrite <- Hr]. cbn [rcount]. rewrite Hnext. unfold g. f_equal. lia.
Qed.

Lemma boundary_ok x b s r q : band_ok x b s -> region_ok b r -> req_ok W (nth b exps 0) q -> 0 <= x < 576 ->
  exists th, select_table c (region_index (band_index widths x)) = Some th /\
  match th with
  | None => boundary c widths exps (s, r, q) x = Some None
  | Some h => exists s' r' q', boundary c widths exps (s, r, q) x = Some (Some (s', r', q')) /\
      band_ok x (band_index widths x) s' /\ region_ok (band_index widths x) r' /\
      req_ok W (nth (band_index widths x) exps 0) q' /\ entry r' = h
  end.
Proof.
  intros Hs Hr Hq Hx. unfold boundary. destruct (Z.eqb_spec x (sfbound s)) as [E|E].
  - destruct (next_band_ok x b s Hs E) as (s'&->&Hb&Hs'); [lia|]. cbn [mbind option_bind]. rewrite <- Hb.
    assert (S b < 39)%nat by (destruct Hs' as [? _], Hwidths; lia).
    destruct (next_region_ok b r Hr) as (th&Eth&Hth); [done|]. exists th. split; [done|]. destruct th as [h|].
    + destruct Hth as (r'&->&Hr'&He). cbn [mbind option_bind]. eexists _, _, _. split; [done|]. split; [done|].
      split; [done|]. split; [|done]. destruct Hq as [Hl Hh Hk].
      destruct (Z.eqb_spec (nth b exps 0) (nth (S b) exps 0)) as [Ee|Ee]; cbn [negb].
      * rewrite <- Ee. by split.
      * split; [done|done|]. intros v _. cbn [reqhits]. by rewrite Z.bits_0.
    + by rewrite Hth.
  - pose proof (band_settled x b s Hs E) as <-. exists (Some (entry r)). destruct Hr as (Hr1&Hr2&Hr3).
    split; [by rewrite <- Hr1|]. eexists _, _, _. split; [reflexivity|]. split; [done|].
    split; [done|]. by split.
Qed.
End Bands.

(** ** Words *)

Lemma pair_bounds n h : aget mad_huff_pair_table n = Some h -> 0 <= linbits h <= 13 /\ pair_max h <= 15.
Proof.
  assert (forallb (fun h => (0 <=? linbits h) && (linbits h <=? 13) && (pair_max h <=? 15)) mad_huff_pair_table = true)
    as H by (vm_compute; reflexivity).
  rewrite forallb_forall in H. intros Hn. apply aget_In, H in Hn. zbool. lia.
Qed.

(** A word of a tree in front of any bit. *)
Lemma tree_word {T A} `{EqDecision T} (view : T -> Z * Z + A * Z) tbl (fuel : nat) offset bs depth mem i :
  tree_ok view tbl fuel offset bs depth = true -> 0 <= depth -> i + depth <= 8 * zlen mem ->
  exists len code v, (len, code, v) ∈ leaves view tbl fuel offset bs /\ bits mem i len = code.
Proof.
  intros Hok Hd Hin. destruct (walk_total view tbl (depth + 1) fuel offset bs depth (bits mem i depth) depth Hok)
    as (len&code&v&Hw&E&_); [lia|]. exists len, code, v. split; [done|]. rewrite <- E.
  destruct (leaf_bounds _ _ _ _ _ _ _ _ _ Hok Hw) as [Hl _].
  unfold window. pose proof (bits_sub mem i depth 0 len) as Es. rewrite Z.add_0_r, Z.sub_0_r in Es.
  symmetry. apply Es; lia.
Qed.

Lemma pair_word mem n h t i : aget mad_huff_pair_table n = Some h -> table h = Some t -> i + 20 <= 8 * zlen mem ->
  exists len code x y, (len, code, (x, y)) ∈ pair_words h /\ bits mem i len = code.
Proof.
  intros Hn Ht Hi. destruct (pair_table_spec n h t Hn Ht) as (Hok&_). unfold pair_words. rewrite Ht.
  destruct (tree_word _ _ _ _ _ _ mem i Hok) as (len&code&[x y]&H); [lia|lia|]. by exists len, code, x, y.
Qed.

Lemma quad_word mem k t i : aget mad_huff_quad_table k = Some t -> i + 6 <= 8 * zlen mem ->
  exists len code v w x y, (len, code, (v, w, x, y)) ∈ quad_words t /\ bits mem i len = code.
Proof.
  intros Hk Hi. destruct (quad_table_spec k t Hk) as (Hok&_).
  destruct (tree_word _ _ _ _ _ _ mem i Hok) as (len&code&[[[v w] x] y]&H); [lia|lia|]. by exists len, code, v, w, x, y.
Qed.

(** ** Steps *)

Section Steps.
Variables (W : Z) (mem : list Z).
Hypotheses (HW : 32 <= W) (Hmem : bytes_ok mem).
Variable fin : Z.
Hypothesis Hroom : fin + 64 <= 8 * zlen mem.
Variables (c : channel) (widths exps : list Z).
Hypothesis Hwidths : widths_ok widths.
Hypothesis Hexps : length exps = 39%nat.
Hypothesis Hregions : regions_ok c.

(** The exponent of line [x], the table of the pair there. *)
Definition band_exp (x : Z) : Z := nth (band_index widths x) exps 0.
Definition line_table (x : Z) : option (option hufftable) := select_table c (region_index c (band_index widths x)).

Abbreviation value := (value_at W mem).
Abbreviation cached_at := (cache_ok mem fin).

Definition big_ok (i x : Z) (st : bitcache * bandstate * regionstate * reqstate * output) : Prop :=
  let '(b, s, r, q, o) := st in
  cached_at i b /\ (exists k, band_ok widths exps x k s /\ region_ok c k r /\ req_ok W (nth k exps 0) q) /\
  length (xr o) = 576%nat /\ xrptr o = x.

Lemma pair_code_ok n h t i b len code x y : aget mad_huff_pair_table n = Some h -> table h = Some t ->
  cached_at i b -> 20 <= cachesz b -> i <= fin + 33 -> (len, code, (x, y)) ∈ pair_words h -> bits mem i len = code ->
  0 <= len <= 19 /\ exists b', pair_code W h b = Some (x, y, b') /\ cached_at (i + len) b' /\ cachesz b' = cachesz b - len.
Proof.
  intros Hn Ht Hb Hs Hi Hw E. destruct (pair_table_spec n h t Hn Ht) as (Hok&_&Hl&_).
  assert (0 <= len <= 19) as Hlen.
  { split; [|by eapply Hl]. unfold pair_words in Hw. rewrite Ht in Hw. destruct (leaf_bounds _ _ _ _ _ _ _ _ _ Hok Hw). lia. }
  split; [done|]. pose proof (ca_size _ _ _ _ Hb). unfold pair_code. rewrite Ht. cbn [mbind option_bind].
  pose proof (cache_window mem fin i b len Hb ltac:(lia)) as Ew. rewrite E in Ew.
  rewrite (pair_lookup_word W n h t _ _ len code x y) by (done || lia).
  cbn [mbind option_bind]. eexists. split; [done|]. split; [|done]. apply cache_drop; [done|lia|lia].
Qed.

Lemma refill_amount sz : 0 <= sz < 21 ->
  let n := Z.land (31 - 21 + (21 - sz)) (Z.lnot 7) in 1 <= n <= 24 /\ 21 <= sz + n <= 31.
Proof.
  intros H. assert ((fun sz => let n := Z.land (31 - 21 + (21 - sz)) (Z.lnot 7) in
    (1 <=? n) && (n <=? 24) && (21 <=? sz + n) && (sz + n <=? 31)) sz = true) as Hc.
  { revert sz H. apply (forall_range _ 0 21). vm_compute. reflexivity. }
  cbv beta zeta in Hc. zbool. cbv zeta. lia.
Qed.

Lemma big_pair_ok i x st : big_ok i x st -> x mod 2 = 0 -> 0 <= x <= 574 -> i < fin ->
  exists th, line_table x = Some th /\
  match th with
  | None => big_pair W mem c widths exps st = Some (inr (xr st.2))
  | Some h => exists n t, aget mad_huff_pair_table n = Some h /\ table h = Some t /\
      forall len code vx vy, (len, code, (vx, vy)) ∈ pair_words h -> bits mem i len = code ->
      let X := value (linbits h) (band_exp x) vx (i + len) in
      let Y := value (linbits h) (band_exp x) vy X.2 in
      exists st', big_pair W mem c widths exps st = Some (inl st') /\ big_ok Y.2 (x + 2) st' /\ i <= Y.2 <= i + 47 /\
        xr st'.2 = <[Z.to_nat (x + 1) := Y.1]> (<[Z.to_nat x := X.1]> (xr st.2))
  end.
Proof.
  destruct st as [[[[b s] r] q] o]. intros (Hb&(k&Hs&Hr&Hq)&Ho&Hx) He Hx' Hi. cbn [snd].
  destruct (boundary_ok W c widths exps Hwidths Hexps Hregions x k s r q Hs Hr Hq) as (th&Eth&Hth); [lia|].
  exists th. split; [exact Eth|]. unfold big_pair. rewrite Hx.
  destruct th as [h|]; [|by rewrite Hth]. destruct Hth as (s'&r'&q'&->&Hs'&Hr'&Hq'&Eh). cbn [mbind option_bind].
  destruct (select_defined c Hregions (band_index widths x) (index_bound widths x Hwidths)) as (th&Eth'&Hh).
  rewrite Eth in Eth'. injection Eth' as <-. destruct (Hh h eq_refl) as (n&t&Hn&Ht). exists n, t. split; [done|].
  split; [done|]. intros len code vx vy Hw Hcode. pose proof (ca_size _ _ _ _ Hb) as Hsz.
  destruct (need_ok W mem HW Hmem fin i 21 (Z.land (31 - 21 + (21 - cachesz b)) (Z.lnot 7)) b Hb) as (b1&->&Hb1&Hs1).
  { destruct (Z.ltb_spec (cachesz b) 21) as [Hlt|Hge].
    - destruct (refill_amount (cachesz b)) as [? _]; [lia|]. lia.
    - apply Z.land_nonneg. left. lia. }
  { intros Hlt. destruct (refill_amount (cachesz b)) as [? ?]; [lia|]. lia. }
  cbn [mbind option_bind]. rewrite Eh.
  destruct (pair_code_ok n h t i b1 len code vx vy Hn Ht Hb1 ltac:(lia) ltac:(lia) Hw Hcode) as [Hlen (b2&->&Hb2&Hs2)].
  cbn [mbind option_bind]. destruct (pair_bounds n h Hn) as [Hlb Hmax].
  assert (0 <= vx < 16 /\ 0 <= vy < 16) as [Hvx Hvy].
  { destruct (pair_table_spec n h t Hn Ht) as (_&_&_&Hm). destruct (Hm vx vy) as [Hm' _].
    destruct Hm' as [? ?]; [|lia]. apply list_elem_of_fmap. by exists (len, code, (vx, vy)). }
  assert (bs_exp s' = band_exp x) as -> by (by destruct Hs' as (_&_&->)).
  destruct (pair_value_ok W HW mem Hmem fin Hroom (linbits h) (band_exp x) 0 vx (i + len) b2 q' o)
    as (b3&q3&->&Hb3&Hq3&Hs3); [lia|done|lia|done|lia|lia|done|lia|lia|].
  cbn [mbind option_bind]. pose proof (value_at_next W mem (linbits h) (band_exp x) vx (i + len) Hlb) as Hn1.
  set (X := value_at W mem (linbits h) (band_exp x) vx (i + len)) in *.
  destruct (pair_value_ok W HW mem Hmem fin Hroom (linbits h) (band_exp x) 1 vy X.2 b3 q3
    (MkOutput (<[Z.to_nat (xrptr o + 0):=X.1]> (xr o)) (xrptr o)))
    as (b4&q4&E&Hb4&Hq4&Hs4); [lia|done|lia|done|lia|lia|done|cbn; lia|cbn; rewrite length_insert; lia|].
  rewrite Hx, Z.add_0_r in *. rewrite E. cbn [mbind option_bind]. clear E. eexists. split; [done|].
  pose proof (value_at_next W mem (linbits h) (band_exp x) vy X.2 Hlb) as Hn2. split; [|split; [lia|done]].
  split; [done|]. split; [|cbn [xr xrptr]; by rewrite !length_insert].
  exists (band_index widths x). split; [apply band_advance; done || lia|]. done.
Qed.

(** ** Quadruples *)

Definition quad_ok (i x : Z) (st : bitcache * bandstate * Z * output) : Prop :=
  let '(b, s, req, o) := st in
  cached_at i b /\ (exists k, band_ok widths exps x k s /\ req = requant W 1 (nth k exps 0)) /\
  length (xr o) = 576%nat /\ xrptr o = x.

Lemma quad_boundary_ok x k s : band_ok widths exps x k s -> x < 576 ->
  exists s', quad_boundary W widths exps s (requant W 1 (nth k exps 0)) x = Some (s', requant W 1 (band_exp x)) /\
    band_ok widths exps x (band_index widths x) s'.
Proof.
  intros Hs Hx. unfold quad_boundary. destruct (Z.eqb_spec x (sfbound s)) as [E|E].
  - destruct (next_band_ok widths exps Hwidths Hexps x k s Hs E Hx) as (s'&->&Hb&Hs'). cbn [mbind option_bind].
    exists s'. unfold band_exp. rewrite <- Hb. split; [|done].
    assert (bs_exp s' = nth (S k) exps 0) as -> by (by destruct Hs' as (_&_&->)).
    destruct (Z.eqb_spec (nth k exps 0) (nth (S k) exps 0)) as [Ee|Ee]; cbn [negb].
    + by rewrite Ee.
    + by rewrite requant_eq by (done || lia).
  - exists s. unfold band_exp. by rewrite <- (band_settled widths exps Hwidths Hexps x k s Hs E).
Qed.

Lemma quad_value_ok i e k v b o : cached_at i b -> 1 <= cachesz b -> 0 <= v < 2 -> i <= fin + 33 ->
  0 <= xrptr o + k < zlen (xr o) ->
  exists b', quad_value (requant W 1 e) k v (b, o) =
    Some (b', MkOutput (<[Z.to_nat (xrptr o + k) := (value 0 e v i).1]> (xr o)) (xrptr o)) /\
  cached_at (value 0 e v i).2 b' /\ cachesz b - 1 <= cachesz b' /\ i <= (value 0 e v i).2 <= i + 1.
Proof.
  intros Hb Hs Hv Hi Ho. unfold quad_value, value_at. assert (v = 0 \/ v = 1) as [-> | ->] by lia; cbn [Z.eqb negb andb].
  - cbn [mbind option_bind]. rewrite put_ok by done. eexists. split; [done|]. split; [done|]. cbn. lia.
  - destruct (sign_bit_ok mem fin i (requant W 1 e) b Hb Hs) as (b'&->&Hb'&Hs'); [lia|]. cbn [mbind option_bind].
    rewrite put_ok by done. eexists. split; [done|]. cbn [Pos.eqb andb snd fst]. split; [done|]. lia.
Qed.

Lemma quad_step_ok n t i x st : aget mad_huff_quad_table n = Some t -> quad_ok i x st -> x mod 2 = 0 ->
  0 <= x <= 572 -> i < fin -> forall len code v w y z, (len, code, (v, w, y, z)) ∈ quad_words t -> bits mem i len = code ->
  let X0 := value 0 (band_exp x) v (i + len) in
  let X1 := value 0 (band_exp x) w X0.2 in
  let X2 := value 0 (band_exp (x + 2)) y X1.2 in
  let X3 := value 0 (band_exp (x + 2)) z X2.2 in
  exists st', quad_step W mem widths exps t st = Some st' /\ quad_ok X3.2 (x + 4) st' /\ i <= X3.2 <= i + 10 /\
    xr st'.2 = <[Z.to_nat (x + 3) := X3.1]> (<[Z.to_nat (x + 2) := X2.1]>
      (<[Z.to_nat (x + 1) := X1.1]> (<[Z.to_nat x := X0.1]> (xr st.2)))).
Proof.
  destruct st as [[[b s] req] o]. intros Hn (Hb&(k&Hs&->)&Ho&Hx) He Hx' Hi len code v w y z Hw Hcode. cbn [snd].
  destruct (quad_table_spec n t Hn) as (Hok&_&Hl&Hm). pose proof (ca_size _ _ _ _ Hb) as Hsz.
  assert (0 <= len <= 6) as Hlen by (split; [destruct (leaf_bounds _ _ _ _ _ _ _ _ _ Hok Hw); lia|by eapply Hl]).
  assert (0 <= v < 2 /\ 0 <= w < 2 /\ 0 <= y < 2 /\ 0 <= z < 2) as (Hv&Hw'&Hy&Hz).
  { apply Hm, list_elem_of_fmap. by exists (len, code, (v, w, y, z)). }
  unfold quad_step. destruct (need_ok W mem HW Hmem fin i 10 16 b Hb) as (b1&->&Hb1&Hs1); [lia|lia|].
  cbn [mbind option_bind]. pose proof (ca_size _ _ _ _ Hb1) as Hsz1.
  rewrite quad_lookup_walk by done.
  pose proof (cache_window mem fin i b1 len Hb1 ltac:(lia)) as Ew. rewrite Hcode in Ew.
  rewrite (walk_leaf quad_view t W 2 0 4 6 (bc_cache b1) (cachesz b1) len code (v, w, y, z) Hok ltac:(lia) Hw Ew).
  cbn [mbind option_bind].
  pose proof (cache_drop mem fin i b1 len Hb1 ltac:(lia) ltac:(lia)) as Hb2.
  set (b2 := MkCache _ _ _ _) in *. assert (4 <= cachesz b2) as Hs2 by (unfold b2; cbn [cachesz]; lia). clearbody b2. rewrite Hx.
  destruct (quad_boundary_ok x k s Hs) as (s1&->&Hs1'); [lia|]. cbn [mbind option_bind].
  destruct (quad_value_ok (i + len) (band_exp x) 0 v b2 o Hb2) as (b3&->&Hb3&Hs3&Hi3); [lia|done|lia|lia|].
  cbn [mbind option_bind]. set (X0 := value 0 (band_exp x) v (i + len)) in *.
  match goal with |- context [quad_value _ 1 w (b3, ?o1)] =>
    destruct (quad_value_ok X0.2 (band_exp x) 1 w b3 o1 Hb3) as (b4&->&Hb4&Hs4&Hi4);
    [lia|done|lia|cbn [xr xrptr]; rewrite length_insert; lia|] end.
  cbn [mbind option_bind xr xrptr]. set (X1 := value 0 (band_exp x) w X0.2) in *.
  assert (band_ok widths exps (x + 2) (band_index widths x) s1) as Hs1a by (apply band_advance; done || lia).
  rewrite Hx. destruct (quad_boundary_ok (x + 2) (band_index widths x) s1 Hs1a) as (s2&E2&Hs2'); [lia|].
  fold (band_exp x) in E2. rewrite E2. cbn [mbind option_bind]. clear E2.
  match goal with |- context [quad_value _ 0 y (b4, ?o1)] =>
    destruct (quad_value_ok X1.2 (band_exp (x + 2)) 0 y b4 o1 Hb4) as (b5&->&Hb5&Hs5&Hi5);
    [lia|done|lia|cbn [xr xrptr]; rewrite !length_insert; lia|] end.
  cbn [mbind option_bind xr xrptr]. set (X2 := value 0 (band_exp (x + 2)) y X1.2) in *.
  match goal with |- context [quad_value _ 1 z (b5, ?o1)] =>
    destruct (quad_value_ok X2.2 (band_exp (x + 2)) 1 z b5 o1 Hb5) as (b6&->&Hb6&Hs6&Hi6);
    [lia|done|lia|cbn [xr xrptr]; rewrite !length_insert; lia|] end.
  cbn [mbind option_bind xr xrptr]. set (X3 := value 0 (band_exp (x + 2)) z X2.2) in *.
  eexists. split; [done|]. split; [|split; [lia|]].
  - split; [done|]. split; [|cbn [xr xrptr]; rewrite !length_insert; lia].
    exists (band_index widths (x + 2)). split; [|done]. replace (x + 4) with (x + 2 + 2) by lia.
    apply band_advance; [done|done|zdiv|lia|done].
  - cbn [snd xr]. rewrite !Z.add_0_r. replace (x + 2 + 1) with (x + 3) by lia. done.
Qed.
End Steps.

(** ** Any input *)

Lemma left_spec mem fin i b : cache_ok mem fin i b -> cachesz b + bits_left b = fin - i.
Proof. intros [_ _ _ _ -> _]. lia. Qed.

Section Loops.
Variables (W : Z) (mem : list Z).
Hypotheses (HW : 32 <= W) (Hmem : bytes_ok mem).
Variable fin : Z.
Hypothesis Hroom : fin + 64 <= 8 * zlen mem.
Variables (c : channel) (widths exps : list Z).
Hypothesis Hwidths : widths_ok widths.
Hypothesis Hexps : length exps = 39%nat.
Hypothesis Hregions : regions_ok c.

Abbreviation big := (big_ok W mem fin c widths exps).
Abbreviation quad := (quad_ok W mem fin widths exps).

(** The loops end inside of their buffers, at most one word behind the end. *)
Lemma big_loop_safe (n : nat) : forall i x st, big i x st -> x mod 2 = 0 -> 0 <= x -> x + 2 * Z.of_nat n <= 576 ->
  i <= fin + 46 ->
  (exists l, big_loop W mem c widths exps n st = Some (inr l) /\ length l = 576%nat) \/
  exists i' x' st', big_loop W mem c widths exps n st = Some (inl st') /\ big i' x' st' /\ x' mod 2 = 0 /\
    0 <= x' <= 576 /\ i' <= fin + 46.
Proof.
  induction n as [|n IH]; intros i x st Hst He Hx Hn Hi.
  - right. exists i, x, st. split; [done|]. split; [done|]. split; [done|]. lia.
  - destruct st as [[[[b s] r] q] o] eqn:Est. cbn [big_loop]. rewrite <- Est in Hst.
    assert (cachesz b + bits_left b = fin - i) as ->.
    { rewrite Est in Hst. destruct Hst as [Hb _]. by apply (left_spec mem). }
    destruct (Z.ltb_spec 0 (fin - i)) as [Hlt|Hge].
    + destruct (big_pair_ok W mem HW Hmem fin Hroom c widths exps Hwidths Hexps Hregions i x st Hst He)
        as (th&_&Hth); [lia|lia|]. rewrite <- Est. destruct th as [h|].
      2: { left. exists (xr st.2). rewrite Hth. split; [done|]. rewrite Est in *. by destruct Hst as (_&_&Hl&_). }
      destruct Hth as (k&t&Hk&Ht&Hstep).
      destruct (pair_word mem k h t i Hk Ht ltac:(lia)) as (len&code&vx&vy&Hw&Hc).
      destruct (Hstep len code vx vy Hw Hc) as (st'&->&Hst'&Hi'&_). cbn [mbind option_bind].
      eapply IH; [exact Hst'|zdiv|lia|lia|lia].
    + right. exists i, x, st. rewrite <- Est. split; [done|]. split; [done|]. split; [done|]. lia.
Qed.

Lemma quad_loop_safe n t i x st : aget mad_huff_quad_table n = Some t -> quad i x st -> x mod 2 = 0 -> 0 <= x <= 576 ->
  i <= fin -> exists i' x' st', while_loop 145 quad_more (quad_step W mem widths exps t) st = Some st' /\
    quad i' x' st' /\ x' mod 2 = 0 /\ 0 <= x' <= 576 /\ i' <= fin + 10 /\ (i' <= fin \/ 4 <= x').
Proof.
  intros Hn Hst He Hx Hi.
  destruct (while_loop_inv (fun st => exists i x, quad i x st /\ x mod 2 = 0 /\ 0 <= x <= 576 /\ i <= fin + 10 /\
    (i <= fin \/ 4 <= x)) (fun st => (576 - xrptr st.2) / 4 - 1) 145 quad_more (quad_step W mem widths exps t) st)
    as (st'&->&(i'&x'&H)&_).
  - exists i, x. repeat split; try done; lia.
  - destruct st as [[[b s] req] o]. destruct Hst as (_&_&_&Ex). cbn [snd]. rewrite Ex. zdiv.
  - intros st1 (i1&x1&Hst1&He1&Hx1&Hi1&_) Hm. pose proof Hst1 as Hst1'.
    destruct st1 as [[[b s] req] o] eqn:Est. unfold quad_more in Hm. destruct Hst1' as (Hb&_&_&Ex).
    rewrite (left_spec mem fin _ _ Hb), Ex in Hm. zbool. cbn [snd]. rewrite Ex. split; [zdiv|].
    rewrite <- Est in *. destruct (quad_word mem n t i1 Hn ltac:(lia)) as (len&code&v&w&y&z&Hw&Hc).
    destruct (quad_step_ok W mem HW Hmem fin Hroom widths exps Hwidths Hexps n t i1 x1 st1 Hn Hst1 He1
      ltac:(lia) ltac:(lia) len code v w y z Hw Hc) as (st2&->&Hst2&Hi2&_).
    exists st2. split; [done|]. split.
    + eexists _, (x1 + 4). split; [exact Hst2|]. split; [zdiv|]. lia.
    + destruct st2 as [[[b2 s2] req2] o2]. destruct Hst2 as (_&_&_&Ex2). cbn [snd]. rewrite Ex2. zdiv.
  - lia.
  - exists i', x', st'. destruct H as (?&?&?&?&?). done.
Qed.

Lemma rzero_ok o x : length (xr o) = 576%nat -> xrptr o = x -> x mod 2 = 0 -> 0 <= x <= 576 ->
  exists o', rzero o = Some o' /\ length (xr o') = 576%nat /\
    forall k : nat, xr o' !! k = if (Z.of_nat k <? x) || (576 <=? Z.of_nat k) then xr o !! k else Some 0.
Proof.
  clear. intros Hl Hx He Hr. unfold rzero.
  destruct (while_loop_inv (fun o1 => length (xr o1) = 576%nat /\ x <= xrptr o1 <= 576 /\ xrptr o1 mod 2 = 0 /\
    forall k : nat, xr o1 !! k = if (x <=? Z.of_nat k) && (Z.of_nat k <? xrptr o1) then Some 0 else xr o !! k)
    (fun o1 => 576 - xrptr o1 - 1) 577 (fun o1 => xrptr o1 <? 576) (fun o1 =>
    o1 ← put 0 0 o1; o1 ← put 0 1 o1; Some (MkOutput (xr o1) (xrptr o1 + 2))) o) as (o'&->&(Hl'&Hx'&He'&Hk)&Hend).
  - split; [done|]. split; [lia|]. split; [by subst|]. intros k.
    destruct (Z.leb_spec x (Z.of_nat k)), (Z.ltb_spec (Z.of_nat k) (xrptr o)); done || lia.
  - lia.
  - intros o1 (Hl1&Hx1&He1&Hk1) Hc. zbool. assert (xrptr o1 + 2 <= 576) by zdiv. split; [lia|].
    rewrite put_ok by lia. cbn [mbind option_bind]. rewrite put_ok by (cbn [xr xrptr]; rewrite length_insert; lia).
    cbn [mbind option_bind]. eexists. split; [done|]. cbn [xr xrptr].
    split; [|lia]. split; [by rewrite !length_insert|]. split; [lia|]. split; [zdiv|]. intros k.
    destruct (Z.eq_dec (Z.of_nat k) (xrptr o1 + 1)) as [E1|E1].
    { replace (Z.to_nat (xrptr o1 + 1)) with k by lia. rewrite list_lookup_insert_eq by (rewrite length_insert; lia).
      rewrite (proj2 (Z.leb_le _ _)), (proj2 (Z.ltb_lt _ _)) by lia. done. }
    rewrite list_lookup_insert_ne by lia. destruct (Z.eq_dec (Z.of_nat k) (xrptr o1)) as [E2|E2].
    { replace (Z.to_nat (xrptr o1 + 0)) with k by lia. rewrite list_lookup_insert_eq by lia.
      rewrite (proj2 (Z.leb_le _ _)), (proj2 (Z.ltb_lt _ _)) by lia. done. }
    rewrite list_lookup_insert_ne by lia. rewrite Hk1.
    destruct (Z.leb_spec x (Z.of_nat k)), (Z.ltb_spec (Z.of_nat k) (xrptr o1)), (Z.ltb_spec (Z.of_nat k) (xrptr o1 + 2));
      done || lia.
  - lia.
  - zbool. exists o'. split; [done|]. split; [done|]. intros k. rewrite Hk.
    destruct (Z.leb_spec x (Z.of_nat k)), (Z.ltb_spec (Z.of_nat k) x), (Z.ltb_spec (Z.of_nat k) (xrptr o')),
      (Z.leb_spec 576 (Z.of_nat k)); done || lia.
Qed.
End Loops.

Section Whole.
Variables (W : Z) (mem : list Z).
Hypotheses (HW : 32 <= W) (Hmem : bytes_ok mem).
Variable fin : Z.
Hypothesis Hroom : fin + 64 <= 8 * zlen mem.
Variables (c : channel) (widths exps : list Z).
Hypothesis Hwidths : widths_ok widths.
Hypothesis Hexps : length exps = 39%nat.
Hypothesis Hregions : regions_ok c.

Abbreviation big := (big_ok W mem fin c widths exps).
Abbreviation quad := (quad_ok W mem fin widths exps).

Lemma start_amount sz : 0 <= sz <= 8 ->
  24 <= sz + Z.land (32 - 1 - 24 + (24 - sz)) (Z.lnot 7) <= 31.
Proof.
  clear. intros H. assert ((fun sz => (24 <=? sz + Z.land (32 - 1 - 24 + (24 - sz)) (Z.lnot 7)) &&
    (sz + Z.land (32 - 1 - 24 + (24 - sz)) (Z.lnot 7) <=? 31)) sz = true) as Hc.
  { revert sz H. assert (forall sz, 0 <= sz < 0 + 9 -> (fun sz => (24 <=? sz + Z.land (32 - 1 - 24 + (24 - sz)) (Z.lnot 7)) &&
    (sz + Z.land (32 - 1 - 24 + (24 - sz)) (Z.lnot 7) <=? 31)) sz = true) as Hc.
    { apply forall_range. vm_compute. reflexivity. }
    intros sz H. apply Hc. lia. }
  cbv beta in Hc. zbool. lia.
Qed.

Lemma huffdecode_start p i xr0 cache0 : bitptr_ok mem p -> pos p = i -> i <= fin < i + 2 ^ 20 ->
  length xr0 = 576%nat -> length cache0 = 16%nat ->
  exists th, line_table c widths 0 = Some th /\
  match th with
  | None => huffdecode W mem c widths exps p (fin - i) xr0 cache0 = Some (MAD_ERROR_BADHUFFTABLE, xr0)
  | Some h => exists st, big i 0 st /\ xr st.2 = xr0 /\
      huffdecode W mem c widths exps p (fin - i) xr0 cache0 =
        (next ← big_loop W mem c widths exps (Z.to_nat (big_values c)) st; finish W mem c widths exps next)
  end.
Proof.
  intros Hp Hi Hfin Hx0 Hc0. change (2 ^ 20) with 1048576 in *. pose proof Hwidths as [Hw Hs _].
  destruct (lookup_lt_is_Some_2 widths 0) as [w Ew]; [destruct widths; cbn in *; lia|].
  destruct (lookup_lt_is_Some_2 exps 0) as [e Ee]; [lia|].
  assert (0 < w) as Hw0 by (destruct (Forall_lookup_1 _ _ _ _ Hw Ew); lia).
  assert (sum (take 1 widths) = w /\ (0 < length widths)%nat) as [Hs1 Hwl].
  { destruct widths; [done|]. injection Ew as ->. cbn [take length]. rewrite take_0, sum_cons. cbn. lia. }
  assert (band_index widths 0 = O) as Eb by (apply band_index_unique; [done|lia|rewrite take_0, Hs1; change (sum []) with 0; lia]).
  assert (region_index c 0 = 0) as Er.
  { unfold region_index. destruct Hregions as [[? ?] _]. by rewrite (proj2 (Z.leb_le _ _)) by (cbn; lia). }
  destruct (select_defined c Hregions 0) as (th&Eth&_); [lia|]. rewrite Er in Eth. exists th.
  assert (line_table c widths 0 = Some th) as -> by (unfold line_table; by rewrite Eb, Er). split; [done|].
  assert (0 <= left p <= 8) as Hleft by apply Hp. pose proof (start_amount (left p) Hleft) as Hsz.
  unfold huffdecode, mad_bit_bitsleft. set (sz := left p + _) in *.
  destruct (read_exact W mem HW Hmem p sz Hp) as (p'&->&Hp'&Hpos'); [lia|lia|]. cbn [mbind option_bind].
  rewrite (aget_lookup widths), (aget_lookup exps) by lia. change (Z.to_nat 0) with O. rewrite Ew, Ee, Eth.
  cbn [mbind option_bind]. destruct th as [h|]; [|done]. eexists. split; [|split; [|reflexivity]]; [|done].
  split; [|split; [exists O; split; [|split]|done]].
  - split; cbn [peek cachesz bc_cache bits_left]; [split; [done|lia]|lia|lia| | |pose proof (pos_nonneg mem p Hp); change (2 ^ 20) with 1048576; lia].
    + rewrite Hi. apply Z.mod_small, bits_range. lia.
    + rewrite s32_small by (change (2 ^ 31) with 2147483648; lia). lia.
  - split; [done|]. split; [rewrite take_0, Hs1; change (sum []) with 0; lia|]. rewrite Hs1. by rewrite (nth_lookup_Some _ _ _ _ Ee).
  - split; [cbn [region]; by rewrite Er|]. split; [|done]. cbn [rcount]. rewrite Er. unfold region_end.
    cbn [Z.eqb]. f_equal. lia.
  - split; cbn [reqcache reqhits]; [done|done|]. intros v _. by rewrite Z.bits_0.
Qed.

(** After the pairs: quadruples and zeros, or an overrun. *)
Lemma finish_safe i x st : big i x st -> x mod 2 = 0 -> 0 <= x <= 576 -> i <= fin + 46 -> 0 <= ch_flags c ->
  exists r l, finish W mem c widths exps (inl st) = Some (r, l) /\ (r = MAD_ERROR_NONE \/ r = MAD_ERROR_BADHUFFDATA) /\
    length l = 576%nat.
Proof.
  destruct st as [[[[b s] r] q] o]. intros (Hb&(k&Hs&_)&Hl&Ex) He Hx Hi Hflags. unfold finish.
  rewrite (left_spec mem fin _ _ Hb). destruct (Z.ltb_spec (fin - i) 0) as [Hlt|Hge].
  { eexists _, _. split; [done|]. auto. }
  unfold count1. assert (exists t, aget mad_huff_quad_table (ch_flags c .& count1table_select) = Some t) as [t Et].
  { apply aget_Some. unfold count1table_select. change 1 with (Z.ones 1). rewrite Z.land_ones by lia.
    cbn [mad_huff_quad_table length]. change (2 ^ 1) with 2. zdiv. }
  rewrite Et. cbn [mbind option_bind]. rewrite requant_eq by (done || lia). cbn [mbind option_bind].
  destruct (quad_loop_safe W mem HW Hmem fin Hroom widths exps Hwidths Hexps _ t i x
    (b, s, requant W 1 (bs_exp s), o) Et) as (i'&x'&st'&E&Hst'&He'&Hx'&Hi'&Hor); [|done|done|lia|].
  { split; [done|]. split; [|done]. exists k. split; [done|]. by destruct Hs as (_&_&->). }
  rewrite E. cbn [mbind option_bind]. destruct st' as [[[b' s'] req'] o']. destruct Hst' as (Hb'&_&Hl'&Ex').
  rewrite (left_spec mem fin _ _ Hb'). pose proof (ca_left _ _ _ _ Hb'). pose proof (ca_size _ _ _ _ Hb').
  cbv beta iota. cbn [mbind option_bind]. unfold MAD_BUFFER_GUARD, CHAR_BIT. rewrite (proj2 (Z.ltb_ge (8 * 8) (- bits_left b'))) by lia.
  set (o2 := if fin - i' <? 0 then _ else _).
  destruct (rzero_ok o2 (xrptr o2)) as (o3&->&Hl3&_).
  - unfold o2. by destruct (_ <? _).
  - done.
  - unfold o2. destruct (_ <? _); cbn [xrptr]; rewrite Ex'; zdiv.
  - unfold o2. destruct (Z.ltb_spec (fin - i') 0); cbn [xrptr]; lia.
  - cbn [mbind option_bind]. eexists _, _. split; [done|]. auto.
Qed.

Lemma huffdecode_safe p i xr0 cache0 : bitptr_ok mem p -> pos p = i -> i <= fin < i + 2 ^ 20 ->
  length xr0 = 576%nat -> length cache0 = 16%nat -> 0 <= big_values c <= 288 -> 0 <= ch_flags c ->
  exists r l, huffdecode W mem c widths exps p (fin - i) xr0 cache0 = Some (r, l) /\
    (r = MAD_ERROR_NONE \/ r = MAD_ERROR_BADHUFFDATA \/ r = MAD_ERROR_BADHUFFTABLE) /\ length l = 576%nat.
Proof.
  intros Hp Hi Hfin Hx0 Hc0 Hbig Hflags.
  destruct (huffdecode_start p i xr0 cache0 Hp Hi Hfin Hx0 Hc0) as (th&_&Hth).
  destruct th as [h|]; [|rewrite Hth; eexists _, _; split; [done|]; auto].
  destruct Hth as (st&Hst&_&->).
  destruct (big_loop_safe W mem HW Hmem fin Hroom c widths exps Hwidths Hexps Hregions (Z.to_nat (big_values c))
    i 0 st Hst) as [(l&->&Hl)|(i'&x'&st'&->&Hst'&He'&Hx'&Hi')]; [done|lia|lia|lia| |]; cbn [mbind option_bind].
  - eexists _, _. split; [done|]. auto.
  - destruct (finish_safe i' x' st' Hst' He' Hx' Hi' Hflags) as (r&l&->&Hr&Hl). exists r, l. split; [done|].
    split; [|done]. destruct Hr; auto.
Qed.
End Whole.

(** ** Encoding *)

(** The value in the word: 15 announces an escape. *)
Definition mag (h : hufftable) (v : Z) : Z :=
  if negb (linbits h =? 0) && (15 <=? Z.abs v) then 15 else Z.abs v.

Definition sign_code (v : Z) : list (Z * Z) := if v =? 0 then [] else [(1, if v <? 0 then 1 else 0)].

Definition value_code (h : hufftable) (v : Z) : list (Z * Z) :=
  (if negb (linbits h =? 0) && (15 <=? Z.abs v) then [(linbits h, Z.abs v - 15)] else []) ++ sign_code v.

Definition word_code {A} `{EqDecision A} (words : list (Z * Z * A)) (v : A) : list (Z * Z) :=
  match find (fun w => bool_decide (snd w = v)) words with Some (len, code, _) => [(len, code)] | None => [] end.

Definition pair_bits (h : hufftable) (x y : Z) : list (Z * Z) :=
  word_code (pair_words h) (mag h x, mag h y) ++ value_code h x ++ value_code h y.

Definition quad_bits (t : list huffquad) (v w x y : Z) : list (Z * Z) :=
  word_code (quad_words t) (Z.abs v, Z.abs w, Z.abs x, Z.abs y) ++
  sign_code v ++ sign_code w ++ sign_code x ++ sign_code y.

Definition value_fits (h : hufftable) (v : Z) : Prop :=
  mag h v <= pair_max h /\ (linbits h <> 0 -> Z.abs v < 15 + 2 ^ linbits h).

(** The quantized value of a line. *)
Definition line (vals : list Z) (k : Z) : Z := nth (Z.to_nat k) vals 0.

Fixpoint big_code (c : channel) (widths vals : list Z) (n : nat) (x : Z) : list (Z * Z) :=
  match n with
  | O => []
  | S n =>
    match line_table c widths x with
    | Some (Some h) => pair_bits h (line vals x) (line vals (x + 1))
    | _ => []
    end ++ big_code c widths vals n (x + 2)
  end.

Fixpoint quad_code (t : list huffquad) (vals : list Z) (n : nat) (x : Z) : list (Z * Z) :=
  match n with
  | O => []
  | S n =>
    quad_bits t (line vals x) (line vals (x + 1)) (line vals (x + 2)) (line vals (x + 3)) ++
    quad_code t vals n (x + 4)
  end.

(** ** Words of the code *)

Lemma word_code_spec {A} `{EqDecision A} (words : list (Z * Z * A)) v mem i :
  (forall len code u, (len, code, u) ∈ words -> 0 <= len /\ 0 <= code < 2 ^ len) -> v ∈ map snd words ->
  written mem i (word_code words v) ->
  exists len code, (len, code, v) ∈ words /\ bits mem i len = code /\ width (word_code words v) = len.
Proof.
  intros Hr Hv. unfold word_code. destruct (find _ words) as [[[len code] u]|] eqn:Ef.
  - apply find_some in Ef as [Hin%list_elem_of_In Eu%bool_decide_eq_true]. cbn [snd] in Eu. subst u.
    intros [E _]. destruct (Hr len code v Hin) as [? ?]. exists len, code. split; [done|].
    split; [rewrite E; by apply Z.mod_small|]. cbn. lia.
  - apply list_elem_of_fmap in Hv as ([[len code] u]&->&Hin%list_elem_of_In).
    pose proof (find_none _ _ Ef _ Hin) as Hn. cbn in Hn. by rewrite bool_decide_eq_true_2 in Hn.
Qed.

Lemma pair_range n h len code v : aget mad_huff_pair_table n = Some h -> (len, code, v) ∈ pair_words h ->
  0 <= len /\ 0 <= code < 2 ^ len.
Proof.
  intros Hn Hw. unfold pair_words in Hw. destruct (table h) as [t|] eqn:Ht; [|by apply not_elem_of_nil in Hw].
  destruct (pair_table_spec n h t Hn Ht) as (Hok&_). destruct (leaf_bounds _ _ _ _ _ _ _ _ _ Hok Hw). lia.
Qed.

Lemma quad_range n t len code v : aget mad_huff_quad_table n = Some t -> (len, code, v) ∈ quad_words t ->
  1 <= len /\ 0 <= code < 2 ^ len.
Proof.
  intros Hn Hw. destruct (quad_table_spec n t Hn) as (Hok&_). destruct (leaf_bounds _ _ _ _ _ _ _ _ _ Hok Hw).
  split; [|lia]. assert (forallb (fun t => forallb (fun w => 1 <=? fst (fst w)) (quad_words t)) mad_huff_quad_table = true)
    as Hc by (vm_compute; reflexivity).
  rewrite forallb_forall in Hc. apply aget_In, Hc in Hn. rewrite forallb_forall in Hn.
  apply list_elem_of_In, Hn in Hw. by apply Z.leb_le in Hw.
Qed.

Lemma sign_width v : 0 <= width (sign_code v) /\ (width (sign_code v) = 0 -> v = 0).
Proof. unfold sign_code. destruct (Z.eqb_spec v 0); cbn; lia. Qed.

Lemma value_width h v : 0 <= linbits h -> 0 <= width (value_code h v) /\ (width (value_code h v) = 0 -> v = 0).
Proof.
  intros Hl. unfold value_code. rewrite width_app. pose proof (sign_width v).
  destruct (_ && _); cbn [width foldr fst] in *; lia.
Qed.

Lemma word_width {A} `{EqDecision A} (words : list (Z * Z * A)) v :
  (forall len code u, (len, code, u) ∈ words -> 0 <= len) -> 0 <= width (word_code words v).
Proof.
  intros Hr. unfold word_code. destruct (find _ words) as [[[len code] u]|] eqn:Ef; [|done].
  apply find_some in Ef as [Hin%list_elem_of_In _]. specialize (Hr _ _ _ Hin). cbn. lia.
Qed.

Lemma pair_bits_width n h x y : aget mad_huff_pair_table n = Some h ->
  0 <= width (pair_bits h x y) /\ (width (pair_bits h x y) = 0 -> x = 0 /\ y = 0).
Proof.
  intros Hn. unfold pair_bits. rewrite !width_app. destruct (pair_bounds n h Hn) as [Hl _].
  pose proof (value_width h x ltac:(lia)). pose proof (value_width h y ltac:(lia)).
  pose proof (word_width (pair_words h) (mag h x, mag h y) ltac:(intros; eapply proj1, pair_range; eauto)). lia.
Qed.

Section Read.
Variables (W : Z) (mem : list Z).
Hypotheses (HW : 32 <= W) (Hmem : bytes_ok mem).

(** The coefficient of a value. *)
Definition coef (exp v : Z) : Z :=
  if v =? 0 then 0 else signed (requant W (Z.abs v) exp) (if v <? 0 then 1 else 0).

Lemma value_written n h e v i : aget mad_huff_pair_table n = Some h -> value_fits h v -> written mem i (value_code h v) ->
  value_at W mem (linbits h) e (mag h v) i = (coef e v, i + width (value_code h v)).
Proof using.
  clear HW Hmem. intros Hn [Hm Hv]. destruct (pair_bounds n h Hn) as [Hl Hpm].
  unfold value_code, value_at, coef, sign_code, mag in *.
  destruct (Z.eqb_spec v 0) as [->|Hv0].
  { change (Z.abs 0) with 0. change (15 <=? 0) with false. rewrite andb_false_r. cbn. intros _. f_equal. lia. }
  assert (forall s, (if v <? 0 then 1 else 0) = s -> s mod 2 ^ 1 = s) as Hs by (intros ? <-; by destruct (v <? 0)).
  destruct (Z.eqb_spec (linbits h) 0) as [E0|E0]; cbn [negb andb] in *.
  - cbn [app written]. intros [E _]. rewrite (proj2 (Z.eqb_neq (Z.abs v) 0)) by lia.
    by rewrite E, Hs by done.
  - destruct (Z.leb_spec 15 (Z.abs v)).
    + cbn [app written]. intros (E1&E2&_). change (15 =? 0) with false. change (15 =? 15) with true. cbv iota.
      rewrite E1, E2, Hs by done. rewrite Z.mod_small by lia. f_equal; [do 2 f_equal; lia|cbn; lia].
    + cbn [app written]. intros [E _]. rewrite (proj2 (Z.eqb_neq (Z.abs v) 0)), (proj2 (Z.eqb_neq (Z.abs v) 15)) by lia.
      by rewrite E, Hs by done.
Qed.

Lemma sign_written e v i : -1 <= v <= 1 -> written mem i (sign_code v) ->
  value_at W mem 0 e (Z.abs v) i = (coef e v, i + width (sign_code v)).
Proof using.
  clear HW Hmem. intros Hv. unfold value_at, coef, sign_code. destruct (Z.eqb_spec v 0) as [->|Hv0].
  { intros _. cbn. f_equal. lia. }
  intros [E _]. rewrite (proj2 (Z.eqb_neq (Z.abs v) 0)) by lia. change (0 =? 0) with true. cbn [negb andb].
  rewrite E. by destruct (v <? 0).
Qed.
End Read.

Lemma quad_bits_width n t v w x y : aget mad_huff_quad_table n = Some t -> 0 <= width (quad_bits t v w x y).
Proof.
  intros Hn. unfold quad_bits. rewrite !width_app. pose proof (sign_width v). pose proof (sign_width w).
  pose proof (sign_width x). pose proof (sign_width y).
  pose proof (word_width (quad_words t) (Z.abs v, Z.abs w, Z.abs x, Z.abs y)
    ltac:(intros ??? Hq; destruct (quad_range _ _ _ _ _ Hn Hq); lia)). lia.
Qed.

Lemma quad_code_pos vals n t k x : aget mad_huff_quad_table n = Some t -> 0 <= width (quad_code t vals k x).
Proof.
  intros Hn. revert x. induction k as [|k IH]; intros x; [done|]. cbn [quad_code]. rewrite width_app.
  specialize (IH (x + 4)). pose proof (quad_bits_width n t (line vals x) (line vals (x + 1)) (line vals (x + 2)) (line vals (x + 3)) Hn). lia.
Qed.

Section ReadLoops.
Variables (W : Z) (mem : list Z).
Hypotheses (HW : 32 <= W) (Hmem : bytes_ok mem).
Variable fin : Z.
Hypothesis Hroom : fin + 64 <= 8 * zlen mem.
Variables (c : channel) (widths exps vals : list Z).
Hypothesis Hwidths : widths_ok widths.
Hypothesis Hexps : length exps = 39%nat.
Hypothesis Hregions : regions_ok c.

Abbreviation big := (big_ok W mem fin c widths exps).
Abbreviation quad := (quad_ok W mem fin widths exps).
Abbreviation V := (line vals).
Abbreviation E := (band_exp widths exps).

(** The lines below [x] are decoded. *)
Definition lines_ok (x : Z) (l : list Z) : Prop :=
  length l = 576%nat /\ forall k, 0 <= k < x -> l !! Z.to_nat k = Some (coef W (E k) (V k)).

Lemma band_exp_odd x : x mod 2 = 0 -> 0 <= x < 576 -> E (x + 1) = E x.
Proof.
  intros He Hx. unfold band_exp. f_equal. destruct Hwidths as [Hw Hs _].
  destruct (band_index_spec widths Hw x ltac:(lia)) as [H1 H2]. apply band_index_unique; [done|done|].
  destruct (sum_even widths (S (band_index widths x)) Hw ltac:(lia)) as [H3 _]. zdiv.
Qed.

Lemma lines_pair x l : lines_ok x l -> x mod 2 = 0 -> 0 <= x <= 574 ->
  lines_ok (x + 2) (<[Z.to_nat (x + 1) := coef W (E x) (V (x + 1))]> (<[Z.to_nat x := coef W (E x) (V x)]> l)).
Proof.
  intros [Hl Hk] He Hx. split; [by rewrite !length_insert|]. intros k Hk'.
  destruct (Z.eq_dec k (x + 1)) as [->|].
  { rewrite list_lookup_insert_eq by (rewrite length_insert; lia). by rewrite band_exp_odd by (done || lia). }
  rewrite list_lookup_insert_ne by lia. destruct (Z.eq_dec k x) as [->|].
  { by rewrite list_lookup_insert_eq by lia. }
  rewrite list_lookup_insert_ne by lia. apply Hk. lia.
Qed.

(** The pairs from line [x] on can be coded. *)
Definition pairs_fit (n : nat) (x : Z) : Prop := forall j, 0 <= j < Z.of_nat n -> exists h,
  line_table c widths (x + 2 * j) = Some (Some h) /\ value_fits h (V (x + 2 * j)) /\ value_fits h (V (x + 2 * j + 1)).

Lemma pairs_fit_S n x : pairs_fit (S n) x -> (exists h, line_table c widths x = Some (Some h) /\
  value_fits h (V x) /\ value_fits h (V (x + 1))) /\ pairs_fit n (x + 2).
Proof.
  intros H. split.
  - destruct (H 0) as (h&H'); [lia|]. exists h. by replace (x + 2 * 0) with x in H' by lia.
  - intros j Hj. destruct (H (j + 1)) as (h&H'); [lia|]. exists h. by replace (x + 2 * (j + 1)) with (x + 2 + 2 * j) in H' by lia.
Qed.

Lemma table_word x h : line_table c widths x = Some (Some h) ->
  exists n t, aget mad_huff_pair_table n = Some h /\ table h = Some t.
Proof.
  intros Hh. unfold line_table in Hh.
  destruct (select_defined c Hregions (band_index widths x) (index_bound widths x Hwidths)) as (th&Eth&Hth).
  rewrite Hh in Eth. injection Eth as <-. by apply Hth.
Qed.

Lemma big_code_width (n : nat) : forall x, pairs_fit n x -> 0 <= width (big_code c widths vals n x) /\
  (width (big_code c widths vals n x) = 0 -> forall k, x <= k < x + 2 * Z.of_nat n -> V k = 0).
Proof.
  induction n as [|n IH]; intros x Hf; [split; [done|lia]|].
  apply pairs_fit_S in Hf as [(h&Hh&_) Hf]. destruct (table_word x h Hh) as (m&t&Hm&_).
  destruct (IH (x + 2) Hf) as [IH1 IH2]. cbn [big_code]. rewrite Hh, width_app.
  destruct (pair_bits_width m h (V x) (V (x + 1)) Hm) as [P1 P2]. split; [lia|]. intros Hz k Hk.
  destruct P2 as [P2 P3]; [lia|]. destruct (Z.eq_dec k x) as [->|]; [done|].
  destruct (Z.eq_dec k (x + 1)) as [->|]; [done|]. apply IH2; lia.
Qed.

Lemma big_pair_read x h i st : big i x st -> x mod 2 = 0 -> 0 <= x <= 574 -> i < fin ->
  line_table c widths x = Some (Some h) -> value_fits h (V x) -> value_fits h (V (x + 1)) ->
  lines_ok x (xr st.2) -> written mem i (pair_bits h (V x) (V (x + 1))) ->
  exists st', big_pair W mem c widths exps st = Some (inl st') /\ big (i + width (pair_bits h (V x) (V (x + 1)))) (x + 2) st' /\
    lines_ok (x + 2) (xr st'.2).
Proof.
  intros Hst He Hx Hi Hh F1 F2 Hl Hw.
  destruct (big_pair_ok W mem HW Hmem fin Hroom c widths exps Hwidths Hexps Hregions i x st Hst He Hx Hi) as (th&Eth&Hth).
  rewrite Hh in Eth. injection Eth as <-. destruct Hth as (n&t&Hn&Ht&Hstep).
  unfold pair_bits in Hw |- *. apply written_app in Hw as [Hw1 [Hw2 Hw3]%written_app].
  destruct (pair_table_spec n h t Hn Ht) as (_&_&_&Hm). destruct (pair_bounds n h Hn) as [Hlb _].
  destruct (word_code_spec (pair_words h) (mag h (V x), mag h (V (x + 1))) mem i) as (len&code&Hin&Hc&Ew);
    [intros; by eapply pair_range|apply Hm; unfold value_fits, mag in *; destruct F1, F2; 
     repeat match goal with |- context [if ?b then _ else _] => destruct b end; lia|done|].
  rewrite !width_app, Ew in *. destruct (Hstep len code _ _ Hin Hc) as (st'&E1&Hst'&_&Exr).
  rewrite (value_written W mem n h _ (V x)) in * by done. cbn [fst snd] in *.
  rewrite (value_written W mem n h _ (V (x + 1))) in * by done. cbn [fst snd] in *.
  exists st'. split; [done|]. split; [by rewrite !Z.add_assoc|]. rewrite Exr. by apply lines_pair.
Qed.

Lemma big_loop_read (n : nat) : forall i x st, big i x st -> x mod 2 = 0 -> 0 <= x -> x + 2 * Z.of_nat n <= 576 ->
  pairs_fit n x -> lines_ok x (xr st.2) -> written mem i (big_code c widths vals n x) ->
  i + width (big_code c widths vals n x) <= fin ->
  exists m st', big_loop W mem c widths exps n st = Some (inl st') /\
    big (i + width (big_code c widths vals n x)) m st' /\ m mod 2 = 0 /\ x <= m <= x + 2 * Z.of_nat n /\ lines_ok m (xr st'.2) /\
    (m = x + 2 * Z.of_nat n \/ i + width (big_code c widths vals n x) = fin /\
       forall k, m <= k < x + 2 * Z.of_nat n -> V k = 0).
Proof.
  induction n as [|n IH]; intros i x st Hst He Hx Hn Hf Hl Hw Hin.
  - exists x, st. cbn [big_loop big_code width foldr]. rewrite Z.add_0_r. split; [done|]. split; [done|]. split; [done|].
    split; [lia|]. split; [done|]. left. lia.
  - pose proof (big_code_width (S n) x Hf) as [Hpos Hzero]. cbn [big_loop].
    destruct st as [[[[b s] r] q] o] eqn:Est. rewrite <- Est in *.
    assert (cachesz b + bits_left b = fin - i) as ->.
    { rewrite Est in Hst. destruct Hst as [Hb _]. by apply (left_spec mem). }
    destruct (Z.ltb_spec 0 (fin - i)) as [Hlt|Hge].
    + apply pairs_fit_S in Hf as [(h&Hh&F1&F2) Hf]. cbn [big_code] in *. rewrite Hh, width_app in *.
      apply written_app in Hw as [Hw1 Hw2].
      destruct (big_pair_read x h i st Hst He) as (st1&->&Hst1&Hl1); [lia|lia|done..|]. cbn [mbind option_bind].
      destruct (IH _ (x + 2) st1 Hst1) as (m&st2&E2&Hst2&Hm1&Hm2&Hl2&Hor); [zdiv|lia|lia|done|done|done|lia|].
      exists m, st2. rewrite Z.add_assoc. split; [done|]. split; [done|]. split; [done|]. split; [lia|]. split; [done|].
      replace (x + 2 * Z.of_nat (S n)) with (x + 2 + 2 * Z.of_nat n) by lia. done.
    + exists x, st. replace (width (big_code c widths vals (S n) x)) with 0 in * by lia. rewrite Z.add_0_r.
      split; [done|]. split; [done|]. split; [done|]. split; [lia|]. split; [done|]. right. split; [lia|]. by apply Hzero.
Qed.

(** ** Quadruples *)

Lemma quad_read n t i x st : aget mad_huff_quad_table n = Some t -> quad i x st -> x mod 2 = 0 -> 0 <= x <= 572 -> i < fin ->
  (forall k, x <= k < x + 4 -> -1 <= V k <= 1) -> lines_ok x (xr st.2) ->
  written mem i (quad_bits t (V x) (V (x + 1)) (V (x + 2)) (V (x + 3))) ->
  exists st', quad_step W mem widths exps t st = Some st' /\
    quad (i + width (quad_bits t (V x) (V (x + 1)) (V (x + 2)) (V (x + 3)))) (x + 4) st' /\ lines_ok (x + 4) (xr st'.2).
Proof.
  intros Hn Hst He Hx Hi Hv Hl Hw. unfold quad_bits in Hw |- *.
  apply written_app in Hw as [Hw1 [Hw2 [Hw3 [Hw4 Hw5]%written_app]%written_app]%written_app].
  destruct (quad_table_spec n t Hn) as (_&_&_&Hm).
  pose proof (Hv x ltac:(lia)). pose proof (Hv (x + 1) ltac:(lia)). pose proof (Hv (x + 2) ltac:(lia)).
  pose proof (Hv (x + 3) ltac:(lia)).
  destruct (word_code_spec (quad_words t) (Z.abs (V x), Z.abs (V (x + 1)), Z.abs (V (x + 2)), Z.abs (V (x + 3))) mem i)
    as (len&code&Hin&Hc&Ew); [intros ??? Hq; destruct (quad_range _ _ _ _ _ Hn Hq); lia|apply Hm; lia|done|].
  rewrite !width_app, Ew in *.
  destruct (quad_step_ok W mem HW Hmem fin Hroom widths exps Hwidths Hexps n t i x st Hn Hst He ltac:(lia) Hi
    len code _ _ _ _ Hin Hc) as (st'&E1&Hst'&_&Exr).
  rewrite (sign_written W mem _ (V x)) in * by done. cbn [fst snd] in *.
  rewrite (sign_written W mem _ (V (x + 1))) in * by done. cbn [fst snd] in *.
  rewrite (sign_written W mem _ (V (x + 2))) in * by done. cbn [fst snd] in *.
  rewrite (sign_written W mem _ (V (x + 3))) in * by done. cbn [fst snd] in *.
  exists st'. split; [done|]. split; [by rewrite !Z.add_assoc|]. rewrite Exr.
  pose proof (lines_pair x _ Hl He ltac:(lia)) as Hl2.
  pose proof (lines_pair (x + 2) _ Hl2 ltac:(zdiv) ltac:(lia)) as Hl4.
  replace (x + 2 + 1) with (x + 3) in Hl4 by lia. by replace (x + 2 + 2) with (x + 4) in Hl4 by lia.
Qed.

Lemma quad_loop_read n t (k : nat) : aget mad_huff_quad_table n = Some t -> forall (fuel : nat) i x st,
  quad i x st -> x mod 2 = 0 -> 0 <= x -> x + 4 * Z.of_nat k <= 576 ->
  (forall j, x <= j < x + 4 * Z.of_nat k -> -1 <= V j <= 1) -> lines_ok x (xr st.2) ->
  written mem i (quad_code t vals k x) -> i + width (quad_code t vals k x) = fin -> (k < fuel)%nat ->
  exists st', while_loop fuel quad_more (quad_step W mem widths exps t) st = Some st' /\ quad fin (x + 4 * Z.of_nat k) st' /\
    lines_ok (x + 4 * Z.of_nat k) (xr st'.2).
Proof.
  intros Hn. induction k as [|k IH]; intros [|fuel] i x st Hst He Hx H576 Hv Hl Hw Hi Hfuel; try lia;
    rewrite while_loop_S; destruct st as [[[b s] req] o] eqn:Est; rewrite <- Est in *;
    assert (cachesz b + bits_left b = fin - i /\ xrptr o = x) as [El Ex]
      by (rewrite Est in Hst; destruct Hst as (Hb&_&_&?); split; [by apply (left_spec mem)|done]).
  - cbn [quad_code width foldr] in Hi. assert (quad_more st = false) as ->.
    { rewrite Est. unfold quad_more. rewrite El. by rewrite (proj2 (Z.ltb_ge 0 (fin - i))) by lia. }
    exists st. replace (x + 4 * Z.of_nat 0) with x by lia. by replace i with fin in Hst by lia.
  - cbn [quad_code] in *. rewrite width_app in Hi. apply written_app in Hw as [Hw1 Hw2].
    pose proof (quad_code_pos vals n t k (x + 4) Hn) as Hp.
    assert (0 < width (quad_bits t (V x) (V (x + 1)) (V (x + 2)) (V (x + 3)))) as Hpos.
    { pose proof (Hv x ltac:(lia)). pose proof (Hv (x + 1) ltac:(lia)). pose proof (Hv (x + 2) ltac:(lia)).
      pose proof (Hv (x + 3) ltac:(lia)). destruct (quad_table_spec n t Hn) as (_&_&_&Hm). unfold quad_bits in *.
      apply written_app in Hw1 as [Hw1 _]. rewrite !width_app.
      destruct (word_code_spec (quad_words t) (Z.abs (V x), Z.abs (V (x + 1)), Z.abs (V (x + 2)), Z.abs (V (x + 3))) mem i)
        as (len&code&Hin&Hc&->); [intros ??? Hq; destruct (quad_range _ _ _ _ _ Hn Hq); lia|apply Hm; lia|done|].
      destruct (quad_range _ _ _ _ _ Hn Hin). pose proof (sign_width (V x)). pose proof (sign_width (V (x + 1))).
      pose proof (sign_width (V (x + 2))). pose proof (sign_width (V (x + 3))). lia. }
    assert (quad_more st = true) as ->.
    { rewrite Est. unfold quad_more. rewrite El, Ex. by rewrite (proj2 (Z.ltb_lt 0 (fin - i))), (proj2 (Z.leb_le x 572)) by lia. }
    destruct (quad_read n t i x st Hn Hst He) as (st1&->&Hst1&Hl1); [lia|lia|intros; apply Hv; lia|done|done|].
    cbn [mbind option_bind].
    destruct (IH fuel _ (x + 4) st1 Hst1) as (st2&E2&Hst2&Hl2); [zdiv|lia|lia|intros; apply Hv; lia|done|done|lia|lia|].
    exists st2. by replace (x + 4 * Z.of_nat (S k)) with (x + 4 + 4 * Z.of_nat k) by lia.
Qed.
End ReadLoops.

(** ** The part as a whole *)

Section Part.
Variables (W : Z) (mem : list Z).
Hypotheses (HW : 32 <= W) (Hmem : bytes_ok mem).

(** What an encoder chooses: the quantized values, [big_values] pairs and [nq]
    quadruples, with code words for all of them. *)
Record part3_ok (c : channel) (widths vals : list Z) (nq : nat) : Prop := Part3Ok {
  p3_first : exists h, line_table c widths 0 = Some (Some h);
  p3_pairs : pairs_fit c widths vals (Z.to_nat (big_values c)) 0;
  p3_ones : forall k, 2 * big_values c <= k < 2 * big_values c + 4 * Z.of_nat nq -> -1 <= line vals k <= 1;
  p3_zeros : forall k, 2 * big_values c + 4 * Z.of_nat nq <= k -> line vals k = 0;
  p3_size : 0 <= big_values c /\ 2 * big_values c + 4 * Z.of_nat nq <= 576
}.

Definition quad_table_of (c : channel) : list huffquad :=
  nth (Z.to_nat (ch_flags c .& count1table_select)) mad_huff_quad_table [].

Definition part3_code (c : channel) (widths vals : list Z) (nq : nat) : list (Z * Z) :=
  big_code c widths vals (Z.to_nat (big_values c)) 0 ++ quad_code (quad_table_of c) vals nq (2 * big_values c).

Lemma quad_table_get c : 0 <= ch_flags c ->
  aget mad_huff_quad_table (ch_flags c .& count1table_select) = Some (quad_table_of c).
Proof.
  clear. intros Hf. unfold quad_table_of, count1table_select. change 1 with (Z.ones 1). rewrite Z.land_ones by lia.
  change (2 ^ 1) with 2. assert (ch_flags c mod 2 = 0 \/ ch_flags c mod 2 = 1) as [-> | ->] by zdiv; reflexivity.
Qed.

Variables (c : channel) (widths exps vals : list Z) (nq : nat) (fin : Z).
Hypothesis Hroom : fin + 64 <= 8 * zlen mem.
Hypothesis Hwidths : widths_ok widths.
Hypothesis Hexps : length exps = 39%nat.
Hypothesis Hregions : regions_ok c.
Hypothesis Hflags : 0 <= ch_flags c.
Hypothesis Hpart : part3_ok c widths vals nq.

Abbreviation big := (big_ok W mem fin c widths exps).
Abbreviation quads_code := (quad_code (quad_table_of c) vals).

(** From the pairs to the end: [m] is where the pairs stopped. *)
Lemma finish_read i m st : big i m st -> m mod 2 = 0 -> 0 <= m <= 2 * big_values c ->
  lines_ok W widths exps vals m (xr st.2) ->
  (m = 2 * big_values c \/ i = fin /\ forall k, m <= k < 2 * big_values c -> line vals k = 0) ->
  written mem i (quads_code nq (2 * big_values c)) -> i + width (quads_code nq (2 * big_values c)) = fin ->
  exists l, finish W mem c widths exps (inl st) = Some (MAD_ERROR_NONE, l) /\ lines_ok W widths exps vals 576 l.
Proof.
  destruct st as [[[[b s] r] q] o]. intros (Hb&(k0&Hs&_)&Hlen&Ex) He Hm Hl Hor Hw Hi. cbn [snd] in Hl.
  destruct Hpart as [_ _ Hones Hzeros [Hbig Hsize]].
  pose proof (quad_table_get c Hflags) as Et. unfold finish. rewrite (left_spec mem fin _ _ Hb).
  pose proof (quad_code_pos vals _ _ nq (2 * big_values c) Et) as Hpos.
  rewrite (proj2 (Z.ltb_ge (fin - i) 0)) by lia. unfold count1. rewrite Et. cbn [mbind option_bind].
  rewrite requant_eq by (done || lia). cbn [mbind option_bind].
  assert (exists x' st', while_loop 145 quad_more (quad_step W mem widths exps (quad_table_of c))
      (b, s, requant W 1 (bs_exp s), o) = Some st' /\ quad_ok W mem fin widths exps fin x' st' /\ x' mod 2 = 0 /\
      0 <= x' <= 576 /\ lines_ok W widths exps vals x' (xr st'.2) /\ (forall k, x' <= k -> line vals k = 0))
    as (x'&st'&E&Hst'&He'&Hx'&Hl'&Hz').
  { assert (quad_ok W mem fin widths exps i m (b, s, requant W 1 (bs_exp s), o)) as Hq.
    { split; [done|]. split; [|done]. exists k0. split; [done|]. by destruct Hs as (_&_&->). }
    destruct Hor as [-> | [-> Hz]].
    - destruct (quad_loop_read W mem HW Hmem fin Hroom widths exps vals Hwidths Hexps _ _ nq Et 145 i
        (2 * big_values c) _ Hq) as (st'&E&Hst'&Hl'); try done; try lia.
      exists (2 * big_values c + 4 * Z.of_nat nq), st'. split; [done|]. split; [done|]. split; [zdiv|]. split; [lia|].
      split; [done|]. apply Hzeros.
    - exists m, (b, s, requant W 1 (bs_exp s), o). rewrite (while_loop_S 144). unfold quad_more at 1.
      rewrite (left_spec mem fin _ _ Hb), (proj2 (Z.ltb_ge 0 (fin - fin))) by lia. split; [done|]. split; [done|].
      split; [done|]. split; [lia|]. split; [done|]. intros k Hk.
      assert (nq = O) as Hnq.
      { destruct nq as [|n]; [done|]. exfalso. cbn [quad_code] in Hw, Hi, Hpos. rewrite width_app in Hi.
        pose proof (quad_code_pos vals _ _ n (2 * big_values c + 4) Et).
        destruct (quad_table_spec _ _ Et) as (_&_&_&Hq4). unfold quad_bits in Hw, Hi. rewrite !width_app in Hi.
        apply written_app in Hw as [[Hw _]%written_app _].
        destruct (word_code_spec (quad_words (quad_table_of c)) (Z.abs (line vals (2 * big_values c)),
          Z.abs (line vals (2 * big_values c + 1)), Z.abs (line vals (2 * big_values c + 2)),
          Z.abs (line vals (2 * big_values c + 3))) mem fin) as (len&code&Hin&_&Ew).
        - intros ??? Hq'. destruct (quad_range _ _ _ _ _ Et Hq'). lia.
        - apply Hq4. pose proof (Hones (2 * big_values c) ltac:(lia)). pose proof (Hones (2 * big_values c + 1) ltac:(lia)).
          pose proof (Hones (2 * big_values c + 2) ltac:(lia)). pose proof (Hones (2 * big_values c + 3) ltac:(lia)). lia.
        - done.
        - rewrite Ew in Hi. destruct (quad_range _ _ _ _ _ Et Hin).
          pose proof (sign_width (line vals (2 * big_values c))). pose proof (sign_width (line vals (2 * big_values c + 1))).
          pose proof (sign_width (line vals (2 * big_values c + 2))). pose proof (sign_width (line vals (2 * big_values c + 3))).
          lia. }
      destruct (Z.ltb_spec k (2 * big_values c)); [apply Hz; lia|apply Hzeros; lia]. }
  rewrite E. cbn [mbind option_bind]. destruct st' as [[[b' s'] req'] o']. destruct Hst' as (Hb'&_&Hlen'&Ex').
  rewrite (left_spec mem fin _ _ Hb'). pose proof (ca_left _ _ _ _ Hb'). pose proof (ca_size _ _ _ _ Hb').
  cbv beta iota. cbn [mbind option_bind]. unfold MAD_BUFFER_GUARD, CHAR_BIT.
  rewrite (proj2 (Z.ltb_ge (8 * 8) (- bits_left b'))), (proj2 (Z.ltb_ge (fin - fin) 0)) by lia.
  destruct (rzero_ok o' x' Hlen' Ex' He' Hx') as (o3&->&Hl3&Hk3). cbn [mbind option_bind]. eexists. split; [done|].
  destruct Hl' as [_ Hk']. split; [done|]. intros k Hk. rewrite Hk3, Z2Nat.id by lia.
  rewrite (proj2 (Z.leb_gt 576 k)), orb_false_r by lia. destruct (Z.ltb_spec k x'); [by apply Hk'; lia|].
  by rewrite Hz' by lia.
Qed.

Lemma huffdecode_read p i xr0 cache0 : bitptr_ok mem p -> pos p = i -> 
  i + width (part3_code c widths vals nq) = fin -> fin < i + 2 ^ 20 -> length xr0 = 576%nat -> length cache0 = 16%nat ->
  written mem i (part3_code c widths vals nq) ->
  exists l, huffdecode W mem c widths exps p (fin - i) xr0 cache0 = Some (MAD_ERROR_NONE, l) /\
    lines_ok W widths exps vals 576 l.
Proof.
  intros Hp Hi Hfin H20 Hx0 Hc0 Hw. unfold part3_code in *. rewrite width_app in Hfin.
  apply written_app in Hw as [Hw1 Hw2]. pose proof Hpart as [[h Hh] Hfit _ _ [Hbig Hsize]].
  assert (0 <= width (big_code c widths vals (Z.to_nat (big_values c)) 0)) as Hpos by (eapply big_code_width; eassumption).
  pose proof (quad_code_pos vals _ _ nq (2 * big_values c) (quad_table_get c Hflags)) as Hpos2.
  destruct (huffdecode_start W mem HW Hmem fin Hroom c widths exps Hwidths Hexps Hregions p i xr0 cache0 Hp Hi)
    as (th&Eth&Hth); [lia|done|done|]. rewrite Hh in Eth. injection Eth as <-. destruct Hth as (st&Hst&Exr&->).
  destruct (big_loop_read W mem HW Hmem fin Hroom c widths exps vals Hwidths Hexps Hregions (Z.to_nat (big_values c))
    i 0 st Hst) as (m&st1&->&Hst1&Hm1&Hm2&Hl1&Hor); [done|lia|lia|done| |done|lia|].
  { split; [by rewrite Exr|]. lia. }
  cbn [mbind option_bind]. rewrite Z2Nat.id in * by lia. rewrite Z.add_0_l in *.
  apply (finish_read (i + width (big_code c widths vals (Z.to_nat (big_values c)) 0)) m st1); try done; lia.
Qed.
End Part.

(** ** The function *)

Lemma exponents_nth c nlong n e0 b : (b < n)%nat -> nth b (stored c nlong n e0) 0 = band_exponent c nlong b.
Proof.
  intros Hb. unfold stored. rewrite app_nth1 by (rewrite cells_length; lia). unfold cells.
  rewrite (nth_indep _ 0 (band_exponent c nlong 0)) by (rewrite length_map, length_seq; lia).
  by rewrite map_nth, seq_nth by lia.
Qed.

Lemma stored_length c nlong n e0 : length e0 = 39%nat -> (n <= 39)%nat -> length (stored c nlong n e0) = 39%nat.
Proof. intros. unfold stored. rewrite length_app, cells_length, length_drop. lia. Qed.

Lemma part3_bits a b : 0 <= a < 2 ^ 12 -> 0 <= b < 2 ^ 12 -> s32 (s32 a - s32 b) = a - b.
Proof. intros. change (2 ^ 12) with 4096 in *. rewrite !s32_small; rewrite ?s32_small; change (2 ^ 31) with 2147483648; lia. Qed.

(** C3: Huffman decoding.  For each sample rate and block type, whatever quantized
    values an encoder wrote with the tables it selected for the three regions (escapes
    and signs included) followed by quadruples of ones, [III_huffdecode] returns no
    error and the requantized value of each of the 576 lines with the
    exponent of its scale factor band, zeros behind the last quadruple, and
    leaves the pointer at the end of the part, whatever the cached reads, the kept
    products and the uninitialised arrays were. *)
Theorem III_huffdecode_correct W mem p xr0 c i r vals nq part2_length exps0 cache0 :
  let widths := block_widths r c in
  let code := part3_code c widths vals nq in
  32 <= W -> bytes_ok mem -> aget sfbwidth_table i = Some r -> gains_ok c -> regions_ok c -> 0 <= ch_flags c ->
  length xr0 = 576%nat -> length exps0 = 39%nat -> length cache0 = 16%nat -> part3_ok c widths vals nq ->
  0 <= part2_length -> part2_3_length c = part2_length + width code -> part2_3_length c < 2 ^ 12 ->
  bitptr_ok mem p -> pos p + width code + 64 <= 8 * zlen mem -> written mem (pos p) code ->
  exists l p', III_huffdecode W mem p xr0 c widths part2_length exps0 cache0 = Some (MAD_ERROR_NONE, l, p') /\
    bitptr_ok mem p' /\ pos p' = pos p + width code /\ length l = 576%nat /\
    forall k, 0 <= k < 576 ->
      l !! Z.to_nat k = Some (coef W (band_exponent c (block_long r c) (band_index widths k)) (line vals k)).
Proof.
  intros widths code HW Hmem Hr Hg Hro Hf Hx0 He0 Hc0 Hpart Hp2 Hlen H12 Hp Hin Hw.
  pose proof (block_widths_ok i r c Hr) as Hwidths. fold widths in Hwidths.
  assert (0 <= width code) as Hpos.
  { unfold code, part3_code. rewrite width_app. destruct Hpart as [_ Hfit _ _ _].
    assert (0 <= width (big_code c widths vals (Z.to_nat (big_values c)) 0)) by (eapply big_code_width; eauto).
    pose proof (quad_code_pos vals _ _ nq (2 * big_values c) (quad_table_get c Hf)). lia. }
  unfold III_huffdecode. rewrite part3_bits by lia. replace (part2_3_length c - part2_length) with (width code) by lia.
  rewrite (proj2 (Z.ltb_ge (width code) 0)) by lia.
  pose proof (exponents_spec i r c exps0 Hr Hg He0) as Ex. fold widths in Ex. rewrite Ex. cbn [mbind option_bind]. clear Ex.
  destruct (bit_skip_spec mem p (width code) Hp) as (p'&->&Hp'&Hpos'); [lia|lia|]. cbn [mbind option_bind].
  set (exps := stored c (block_long r c) (length widths) exps0).
  pose proof (wo_length _ Hwidths) as H39.
  destruct (huffdecode_read W mem HW Hmem c widths exps vals nq (pos p + width code) Hin Hwidths) with
    (p := p) (i := pos p) (xr0 := xr0) (cache0 := cache0) as (l&E&Hl&Hk); try done.
  { apply stored_length; [done|lia]. }
  { change (2 ^ 12) with 4096 in *. change (2 ^ 20) with 1048576. lia. }
  replace (pos p + width code - pos p) with (width code) in E by lia. rewrite E. cbn [mbind option_bind].
  exists l, p'. split; [done|]. split; [done|]. split; [done|]. split; [done|]. intros k Hk'. rewrite Hk by done.
  unfold band_exp, exps. rewrite exponents_nth; [done|]. destruct Hwidths as [Hww Hws _].
  apply band_index_spec; [done|lia].
Qed.

(** Any bytes and any side information. *)
Lemma III_huffdecode_total W mem p xr0 c i r part2_length exps0 cache0 :
  32 <= W -> bytes_ok mem -> aget sfbwidth_table i = Some r -> gains_ok c -> regions_ok c -> 0 <= ch_flags c ->
  0 <= big_values c <= 288 -> 0 <= part2_3_length c < 2 ^ 12 -> 0 <= part2_length < 2 ^ 12 ->
  length xr0 = 576%nat -> length exps0 = 39%nat -> length cache0 = 16%nat ->
  bitptr_ok mem p -> pos p + Z.max 0 (part2_3_length c - part2_length) + 8 * MAD_BUFFER_GUARD <= 8 * zlen mem ->
  exists e l p', III_huffdecode W mem p xr0 c (block_widths r c) part2_length exps0 cache0 = Some (e, l, p') /\
    e ∈ [MAD_ERROR_NONE; MAD_ERROR_BADPART3LEN; MAD_ERROR_BADHUFFTABLE; MAD_ERROR_BADHUFFDATA] /\
    (e = MAD_ERROR_BADPART3LEN <-> part2_3_length c < part2_length) /\ length l = 576%nat /\
    bitptr_ok mem p' /\ pos p' = pos p + Z.max 0 (part2_3_length c - part2_length).
Proof.
  intros HW Hmem Hr Hg Hro Hf Hbig H3 H2 Hx0 He0 Hc0 Hp Hin. unfold III_huffdecode. rewrite part3_bits by done.
  set (n := part2_3_length c - part2_length) in *.
  destruct (Z.ltb_spec n 0) as [Hn|Hn].
  { eexists _, _, _. split; [done|]. split; [apply list_elem_of_In; cbn; auto|]. split; [split; [lia|done]|]. split; [done|]. split; [done|]. lia. }
  replace (Z.max 0 n) with n in * by lia. unfold MAD_BUFFER_GUARD in Hin.
  rewrite (exponents_spec i r c exps0 Hr Hg He0). cbn [mbind option_bind].
  destruct (bit_skip_spec mem p n Hp Hn) as (p'&->&Hp'&Hpos'); [lia|]. cbn [mbind option_bind].
  pose proof (block_widths_ok i r c Hr) as Hwidths. set (widths := block_widths r c) in *.
  set (exps := stored c (block_long r c) (length widths) exps0). pose proof (wo_length _ Hwidths) as H39.
  destruct (huffdecode_safe W mem HW Hmem (pos p + n) ltac:(lia) c widths exps Hwidths) with
    (p := p) (i := pos p) (xr0 := xr0) (cache0 := cache0) as (e&l&E&He&Hl); try done.
  { apply stored_length; [done|lia]. }
  { change (2 ^ 12) with 4096 in *. change (2 ^ 20) with 1048576. lia. }
  replace (pos p + n - pos p) with n in E by lia. rewrite E. cbn [mbind option_bind].
  exists e, l, p'. split; [done|]. split; [destruct He as [-> | [-> | ->]]; apply list_elem_of_In; cbn; auto|]. split; [|done].
  split; [|lia]. intros ->. destruct He as [? | [? | ?]]; done.
Qed.

(** C4: Huffman decoding is safe.  On any bytes, with the eight guard bytes behind
    the part that the frame decoder provides, and for any side information,
    [III_huffdecode] ends, reads no byte outside of the buffer, indexes no table
    out of range, shifts by no negative or too large amount, passes its assertion, and
    fills the 576 lines or returns one of its three errors. *)
Theorem III_huffdecode_safe W mem p xr0 c i r part2_length exps0 cache0 :
  32 <= W -> bytes_ok mem -> aget sfbwidth_table i = Some r -> gains_ok c -> regions_ok c -> 0 <= ch_flags c ->
  0 <= big_values c <= 288 -> 0 <= part2_3_length c < 2 ^ 12 -> 0 <= part2_length < 2 ^ 12 ->
  length xr0 = 576%nat -> length exps0 = 39%nat -> length cache0 = 16%nat ->
  bitptr_ok mem p -> pos p + Z.max 0 (part2_3_length c - part2_length) + 8 * MAD_BUFFER_GUARD <= 8 * zlen mem ->
  exists e l p', III_huffdecode W mem p xr0 c (block_widths r c) part2_length exps0 cache0 = Some (e, l, p') /\
    e ∈ [MAD_ERROR_NONE; MAD_ERROR_BADPART3LEN; MAD_ERROR_BADHUFFTABLE; MAD_ERROR_BADHUFFDATA] /\
    (e = MAD_ERROR_BADPART3LEN <-> part2_3_length c < part2_length) /\ length l = 576%nat /\
    bitptr_ok mem p' /\ pos p' = pos p + Z.max 0 (part2_3_length c - part2_length).
Proof. apply III_huffdecode_total. Qed.

Example coded_part : part3_code (MkChannel 24 2 200 9 1 0 [24; 1; 0] [0; 1; 2] 0 0 (repeat 1 39)) sfb_44100_long
  ([20; -3; 0; 1; 1; 0; -1; 0] ++ repeat 0 568) 1 =
  [(7, 17); (4, 5); (1, 0); (1, 1); (4, 13); (1, 0); (4, 5); (1, 0); (1, 1)].
Proof. vm_compute. reflexivity. Qed.

Lemma III_huffdecode_correct_witness :
  let c := MkChannel 24 2 200 9 1 0 [24; 1; 0] [0; 1; 2] 0 0 (repeat 1 39) in
  let vals := [20; -3; 0; 1; 1; 0; -1; 0] ++ repeat 0 568 in
  let mem := [34; 174; 149] ++ repeat 0 9 in
  let xr0 := repeat 7 576 in
  exists l p', III_huffdecode 64 mem (mad_bit_init 0) xr0 c sfb_44100_long 0 (repeat 7 39) (repeat 7 16) =
      Some (MAD_ERROR_NONE, l, p') /\
    bitptr_ok mem p' /\ pos p' = 0 + width (part3_code c sfb_44100_long vals 1) /\ length l = 576%nat /\
    forall k, 0 <= k < 576 ->
      l !! Z.to_nat k = Some (coef 64 (band_exponent c 22 (band_index sfb_44100_long k)) (line vals k)).
Proof.
  intros c vals mem xr0.
  apply (III_huffdecode_correct 64 mem (mad_bit_init 0) xr0 c 1
    (MkBandwidths sfb_44100_long sfb_44100_short sfb_44100_mixed) vals 1 0 (repeat 7 39) (repeat 7 16)).
  - lia.
  - apply (bool_decide_unpack _). vm_compute. exact I.
  - reflexivity.
  - split; [split; [apply Z.leb_le|apply Z.ltb_lt]; reflexivity| |];
      (split; [reflexivity|apply (bool_decide_unpack _); vm_compute; exact I]).
  - split; [repeat split; apply Z.leb_le || apply Z.ltb_lt; reflexivity|].
    split; [reflexivity|apply (bool_decide_unpack _); vm_compute; exact I].
  - apply Z.leb_le. reflexivity.
  - reflexivity.
  - reflexivity.
  - reflexivity.
  - split.
    + eexists. reflexivity.
    + intros j Hj. assert (j = 0 \/ j = 1) as [-> | ->] by (change (0 <= j < 2) in Hj; lia); (eexists; split; [reflexivity|]);
        (split; (split; [apply Z.leb_le; vm_compute; reflexivity|intros _; apply Z.ltb_lt; vm_compute; reflexivity])).
    + intros k Hk. change (4 <= k < 8) in Hk. assert (k = 4 \/ k = 5 \/ k = 6 \/ k = 7) as Hk' by lia.
      repeat destruct Hk' as [-> | Hk']; try subst; split; apply Z.leb_le; vm_compute; reflexivity.
    + intros k Hk. unfold line, vals. change (8 <= k) in Hk. rewrite app_nth2 by (cbn [length]; lia). apply nth_repeat.
    + cbn. lia.
  - lia.
  - vm_compute. reflexivity.
  - apply Z.ltb_lt. reflexivity.
  - by apply bit_init_ok.
  - apply Z.leb_le. vm_compute. reflexivity.
  - vm_compute. repeat constructor.
Defined.

Lemma III_huffdecode_safe_witness :
  let c := MkChannel 40 288 200 9 1 0 [24; 4; 0] [0; 1; 2] 0 0 (repeat 1 39) in
  let mem := repeat 0xa5 20 in
  exists e l p', III_huffdecode 64 mem (mad_bit_init 0) (repeat 7 576) c sfb_44100_long 0 (repeat 7 39) (repeat 7 16) =
      Some (e, l, p') /\
    e ∈ [MAD_ERROR_NONE; MAD_ERROR_BADPART3LEN; MAD_ERROR_BADHUFFTABLE; MAD_ERROR_BADHUFFDATA] /\
    (e = MAD_ERROR_BADPART3LEN <-> 40 < 0) /\ length l = 576%nat /\ bitptr_ok mem p' /\ pos p' = 0 + Z.max 0 (40 - 0).
Proof.
  intros c mem. apply (III_huffdecode_safe 64 mem (mad_bit_init 0) (repeat 7 576) c 1
    (MkBandwidths sfb_44100_long sfb_44100_short sfb_44100_mixed) 0 (repeat 7 39) (repeat 7 16)).
  - lia.
  - apply (bool_decide_unpack _). vm_compute. exact I.
  - reflexivity.
  - split; [split; [apply Z.leb_le|apply Z.ltb_lt]; reflexivity| |];
      (split; [reflexivity|apply (bool_decide_unpack _); vm_compute; exact I]).
  - split; [repeat split; apply Z.leb_le || apply Z.ltb_lt; reflexivity|].
    split; [reflexivity|apply (bool_decide_unpack _); vm_compute; exact I].
  - apply Z.leb_le. reflexivity.
  - split; apply Z.leb_le; reflexivity.
  - split; [apply Z.leb_le|apply Z.ltb_lt]; reflexivity.
  - split; [apply Z.leb_le|apply Z.ltb_lt]; reflexivity.
  - reflexivity.
  - reflexivity.
  - reflexivity.
  - by apply bit_init_ok.
  - apply Z.leb_le. vm_compute. reflexivity.
Defined.
