(* ===== verification/MadSpectrum.v ===== *)
(** The spectrum of a Layer III granule between requantization and synthesis, from
    [src/libmad/layer3.c].

    [III_reorder] sorts the lines of short blocks by subband, [III_aliasreduce] applies
    the butterflies between neighbouring subbands. *)
From Stdlib Require Import ZifyNat.
From S2P Require Import Prelude MadBit MadFrame MadSideInfo MadRqTable MadRequantize.

(** ** Tables *)

Definition cs : list Z :=
  [0x0db84a81; 0x0e1b9d7f; 0x0f31adcf; 0x0fbba815; 0x0feda417; 0x0ffc8fc8; 0x0fff964c; 0x0ffff8d3].

Definition ca : list Z :=
  [- 0x083b5fe7; - 0x078c36d2; - 0x05039814; - 0x02e91dd1; - 0x0183603a; - 0x00a7cb87; - 0x003a2847; - 0x000f27b4].

(** ** Reordering *)

(** [tmp[sbw[w]][w][sw[w]++] = x] and the step to the next subband. *)
Definition place_line (w x : Z) (tmp sbw sw : list Z) : option (list Z * list Z * list Z) :=
  s ← aget sbw w;
  i ← aget sw w;
  tmp ← (if s <? 32 then aset tmp (18 * s + 6 * w + i) x else None);
  if i + 1 =? 6 then sw ← aset sw w 0; sbw ← aset sbw w (s + 1); Some (tmp, sbw, sw)
  else sw ← aset sw w (i + 1); Some (tmp, sbw, sw).

(** Body of the loop over the lines; state [tmp], the position in [sfbwidth], [f], [w],
    [sbw] and [sw]. *)
Definition reorder_line (xr sfbwidth : list Z) (l : Z) (st : list Z * Z * Z * Z * list Z * list Z)
    : option (list Z * Z * Z * Z * list Z * list Z) :=
  let '(tmp, p, f, w, sbw, sw) := st in
  '(p, f, w) ← (if f =? 0 then n ← aget sfbwidth p; Some (p + 1, u32 (n - 1), (w + 1) mod 3)
                else Some (p, f - 1, w));
  x ← aget xr l;
  '(tmp, sbw, sw) ← place_line w x tmp sbw sw;
  Some (tmp, p, f, w, sbw, sw).

(** [tmp[32][3][6]] is a row of 576 cells, uninitialised. *)
Definition III_reorder (xr : list Z) (c : channel) (sfbwidth tmp : list Z) : option (list Z) :=
  let mixed := bitset (ch_flags c) mixed_block_flag in
  let sb := if mixed then 2 else 0 in
  '(p, _) ← (if mixed then
      while_loop 37 (fun '(_, l) => l <? 36) (fun '(p, l) => n ← aget sfbwidth p; Some (p + 1, l + n)) (0, 0)
    else Some (0, 0));
  f ← aget sfbwidth p;
  '(tmp, _, _, _, _, _) ← for_range (18 * sb) 576 (reorder_line xr sfbwidth)
    (tmp, p + 1, f, 0, [sb; sb; sb], [0; 0; 0]);
  src ← asub tmp (18 * sb) (576 - 18 * sb);
  ablit xr (18 * sb) src.

(** ** Alias reduction *)

Section Alias.
Variable long_bits : Z.

Abbreviation mul := (mad_f_mul long_bits).

(** The accumulators of [FPM_DEFAULT]; [mad_fixed64lo_t] is [unsigned int]. *)
Definition MAD_F_ML0 (x y : Z) : Z := u32 (mul x y).
Definition MAD_F_MLA (lo x y : Z) : Z := u32 (lo + mul x y).
Definition MAD_F_MLZ (lo : Z) : Z := s32 lo.

(** Body of the inner loop, [xr] being [o] cells on. *)
Definition alias_butterfly (o i : Z) (xr : list Z) : option (list Z) :=
  a ← aget xr (o - 1 - i);
  b ← aget xr (o + i);
  c ← aget cs i;
  s ← aget ca i;
  xr ← aset xr (o - 1 - i) (MAD_F_MLZ (MAD_F_MLA (MAD_F_ML0 a c) (s32 (- b)) s));
  aset xr (o + i) (MAD_F_MLZ (MAD_F_MLA (MAD_F_ML0 b c) a s)).

(** [lines <= 576]: at most 31 steps of 18 lines. *)
Definition III_aliasreduce (xr : list Z) (lines : Z) : option (list Z) :=
  '(xr, _) ← while_loop 33 (fun '(_, o) => o <? lines)
    (fun '(xr, o) => xr ← for_range 0 8 (alias_butterfly o) xr; Some (xr, o + 18)) (xr, 18);
  Some xr.
End Alias.

(** ** The order of the lines *)

(** The window of every line, the bands coming in rotation. *)
Fixpoint windows (k : nat) (ws : list Z) : list nat :=
  match ws with n :: ws => replicate (Z.to_nat n) k ++ windows (S k mod 3) ws | [] => [] end.

(** The lines of one window, in order. *)
Fixpoint deal (w : nat) (ks : list nat) (xs : list Z) : list Z :=
  match ks, xs with
  | k :: ks, x :: xs => if (k =? w)%nat then x :: deal w ks xs else deal w ks xs
  | _, _ => []
  end.

(** [n] subbands of six lines of each window. *)
Fixpoint interleave (n : nat) (a b c : list Z) : list Z :=
  match n with
  | S n => (take 6 a ++ take 6 b ++ take 6 c) ++ interleave n (drop 6 a) (drop 6 b) (drop 6 c)
  | O => []
  end.

(** What the lines [xs] of bands [ws] become. *)
Definition subband_order (n : nat) (ws xs : list Z) : list Z :=
  let ks := windows 0 ws in interleave n (deal 0 ks xs) (deal 1 ks xs) (deal 2 ks xs).

Lemma windows_cons k n ws : windows k (n :: ws) = replicate (Z.to_nat n) k ++ windows (S k mod 3) ws.
Proof. done. Qed.

Lemma windows_lt ws : forall k : nat, (k < 3)%nat -> Forall (fun k => (k < 3)%nat) (windows k ws).
Proof.
  induction ws as [|n ws IH]; intros k Hk; [done|]. rewrite windows_cons. apply Forall_app. split.
  - by apply Forall_replicate.
  - apply IH. apply Nat.mod_upper_bound. lia.
Qed.

Lemma windows_length ws : forall k, Forall width_ok ws -> Z.of_nat (length (windows k ws)) = sum ws.
Proof.
  induction ws as [|n ws IH]; intros k; [done|]. intros [[Hn _] H]%Forall_cons.
  rewrite windows_cons, length_app, length_replicate, sum_cons, Nat2Z.inj_add, IH by done. lia.
Qed.

Lemma deal_app w ks1 : forall xs1 ks2 xs2, length ks1 = length xs1 ->
  deal w (ks1 ++ ks2) (xs1 ++ xs2) = deal w ks1 xs1 ++ deal w ks2 xs2.
Proof.
  induction ks1 as [|k ks1 IH]; intros [|x xs1] ks2 xs2 H; try discriminate; [done|]. injection H as H.
  cbn. rewrite (IH xs1) by done. by destruct (k =? w)%nat.
Qed.

(** How many lines a window has. *)
Fixpoint count (w : nat) (ks : list nat) : nat :=
  match ks with k :: ks => if (k =? w)%nat then S (count w ks) else count w ks | [] => O end.

Lemma count_app w ks1 ks2 : count w (ks1 ++ ks2) = (count w ks1 + count w ks2)%nat.
Proof. induction ks1 as [|k ks1 IH]; [done|]. cbn. destruct (k =? w)%nat; lia. Qed.

Lemma count_replicate w n k : count w (replicate n k) = if (k =? w)%nat then n else O.
Proof. induction n as [|n IH]; cbn; destruct (k =? w)%nat; congruence. Qed.

Lemma deal_length w ks : forall xs, length xs = length ks -> length (deal w ks xs) = count w ks.
Proof.
  induction ks as [|k ks IH]; intros [|x xs] H; try discriminate; [done|]. injection H as H. cbn.
  destruct (k =? w)%nat; cbn; by rewrite IH.
Qed.

(** Bands in threes give every window the same number of lines. *)
Lemma count_triples w ws : (w < 3)%nat -> Forall width_ok (triples ws) -> Z.of_nat (count w (windows 0 (triples ws))) = sum ws.
Proof.
  intros Hw. induction ws as [|n ws IH]; [done|]. unfold triples in *. cbn [flat_map app].
  rewrite !Forall_cons. intros ([Hn _]&_&_&H). rewrite !windows_cons, !count_app, !count_replicate, sum_cons.
  change (S (S (S 0 mod 3) mod 3) mod 3)%nat with 0%nat.
  change (S (S 0 mod 3) mod 3)%nat with 2%nat. change (S 0 mod 3)%nat with 1%nat.
  rewrite !Nat2Z.inj_add, IH by done. destruct w as [|[|[|w]]]; cbn [Nat.eqb]; lia.
Qed.

Lemma deal_perm ks : forall xs, length xs = length ks -> Forall (fun k => (k < 3)%nat) ks ->
  deal 0 ks xs ++ deal 1 ks xs ++ deal 2 ks xs ≡ₚ xs.
Proof.
  induction ks as [|k ks IH]; intros [|x xs] H Hk; try discriminate; [done|]. injection H as H.
  apply Forall_cons in Hk as [Hk Hks]. specialize (IH xs H Hks). cbn.
  destruct k as [|[|[|k]]]; [| | |lia]; cbn.
  - by rewrite IH.
  - by rewrite <- Permutation_middle, IH.
  - by rewrite app_assoc, <- Permutation_middle, <- app_assoc, IH.
Qed.

Lemma interleave_perm n : forall a b c, length a = (6 * n)%nat -> length b = (6 * n)%nat -> length c = (6 * n)%nat ->
  interleave n a b c ≡ₚ a ++ b ++ c.
Proof.
  induction n as [|n IH]; intros a b c Ha Hb Hc.
  - destruct a, b, c; try discriminate. done.
  - cbn [interleave]. rewrite IH by (rewrite length_drop; lia).
    rewrite <- (take_drop 6 a) at 3. rewrite <- (take_drop 6 b) at 3. rewrite <- (take_drop 6 c) at 3.
    generalize (take 6 a) (drop 6 a) (take 6 b) (drop 6 b) (take 6 c) (drop 6 c). intros. solve_Permutation.
Qed.

Lemma interleave_length n : forall a b c, length a = (6 * n)%nat -> length b = (6 * n)%nat -> length c = (6 * n)%nat ->
  length (interleave n a b c) = (18 * n)%nat.
Proof. intros. rewrite (Permutation_length (interleave_perm n a b c ltac:(done) ltac:(done) ltac:(done))), !length_app. lia. Qed.

Lemma interleave_lookup n : forall a b c s w i, length a = (6 * n)%nat -> length b = (6 * n)%nat ->
  length c = (6 * n)%nat -> (s < n)%nat -> (w < 3)%nat -> (i < 6)%nat ->
  interleave n a b c !! (18 * s + 6 * w + i)%nat = nth w [a; b; c] [] !! (6 * s + i)%nat.
Proof.
  induction n as [|n IH]; intros a b c s w i Ha Hb Hc Hs Hw Hi; [lia|]. cbn [interleave].
  assert (length (take 6 a ++ take 6 b ++ take 6 c) = 18%nat) as H18 by (rewrite !length_app, !length_take; lia).
  destruct s as [|s].
  - rewrite lookup_app_l by lia. destruct w as [|[|[|w]]]; cbn [nth]; [| | |lia].
    + rewrite lookup_app_l by (rewrite length_take; lia). rewrite lookup_take_lt by lia. f_equal; lia.
    + rewrite lookup_app_r, length_take by (rewrite length_take; lia).
      rewrite lookup_app_l by (rewrite length_take; lia). rewrite lookup_take_lt by lia. f_equal; lia.
    + rewrite app_assoc, lookup_app_r, length_app, !length_take by (rewrite length_app, !length_take; lia).
      rewrite lookup_take_lt by lia. f_equal; lia.
  - rewrite lookup_app_r, H18 by lia. replace (18 * S s + 6 * w + i - 18)%nat with (18 * s + 6 * w + i)%nat by lia.
    rewrite IH by (rewrite ?length_drop; lia). destruct w as [|[|[|w]]]; cbn [nth]; [| | |lia];
      rewrite lookup_drop; f_equal; lia.
Qed.

(** ** The loop of [III_reorder] *)

(** As [zdiv], for natural numbers. *)
Ltac ndiv := zify; Z.to_euclidean_division_equations; lia.

(** The cell of line [m] of window [w]. *)
Definition cell (sb w m : nat) : nat := (18 * (sb + m / 6) + 6 * w + m mod 6)%nat.

Lemma cell_inj sb w m w' m' : (w < 3)%nat -> (w' < 3)%nat -> cell sb w m = cell sb w' m' -> w = w' /\ m = m'.
Proof. unfold cell. intros. ndiv. Qed.

(** The lines [L w] of each window are in their cells, the counters follow them. *)
Record placed (sb : nat) (L : nat -> list Z) (tmp sbw sw : list Z) : Prop := Placed {
  pl_tmp : length tmp = 576%nat;
  pl_cells : forall w m, (w < 3)%nat -> (m < length (L w))%nat -> tmp !! cell sb w m = L w !! m;
  pl_sbw : sbw = map (fun w => Z.of_nat (sb + length (L w) / 6)) [0%nat; 1%nat; 2%nat];
  pl_sw : sw = map (fun w => Z.of_nat (length (L w) mod 6)) [0%nat; 1%nat; 2%nat]
}.

(** A window gets one more line. *)
Definition push (L : nat -> list Z) (w : nat) (x : Z) : nat -> list Z := fun v => if (w =? v)%nat then L v ++ [x] else L v.

Lemma row_get (f : nat -> Z) w : (w < 3)%nat -> aget (map f [0%nat; 1%nat; 2%nat]) (Z.of_nat w) = Some (f w).
Proof. intros. destruct w as [|[|[|w]]]; [done..|lia]. Qed.

Lemma row_set (f g : nat -> Z) w x : (w < 3)%nat -> x = g w -> (forall v, v <> w -> g v = f v) ->
  aset (map f [0%nat; 1%nat; 2%nat]) (Z.of_nat w) x = Some (map g [0%nat; 1%nat; 2%nat]).
Proof. intros Hw -> H. destruct w as [|[|[|w]]]; [| | |lia]; cbn [map];
    rewrite ?(H 0%nat), ?(H 1%nat), ?(H 2%nat) by lia; done. Qed.

Lemma push_length L w x v : length (push L w x v) = if (w =? v)%nat then S (length (L v)) else length (L v).
Proof. unfold push. destruct (w =? v)%nat; [|done]. rewrite length_app. cbn. lia. Qed.

Lemma place_line_spec sb L tmp sbw sw w x : placed sb L tmp sbw sw -> (w < 3)%nat ->
  (length (L w) < 192 - 6 * sb)%nat ->
  exists tmp' sbw' sw', place_line (Z.of_nat w) x tmp sbw sw = Some (tmp', sbw', sw') /\
    placed sb (push L w x) tmp' sbw' sw'.
Proof.
  intros [Ht Hc -> ->] Hw Hl. unfold place_line. rewrite !row_get by done. cbn [mbind option_bind].
  set (m := length (L w)) in *. assert (sb + m / 6 < 32)%nat as Hm by ndiv.
  rewrite (proj2 (Z.ltb_lt _ 32)) by lia.
  replace (18 * Z.of_nat (sb + m / 6) + 6 * Z.of_nat w + Z.of_nat (m mod 6)) with (Z.of_nat (cell sb w m)) by (unfold cell; lia).
  assert (cell sb w m < 576)%nat by (unfold cell; ndiv).
  rewrite (aset_Some tmp) by lia. rewrite Nat2Z.id. cbn [mbind option_bind].
  assert (forall v k, (v < 3)%nat -> (k < length (push L w x v))%nat ->
    <[cell sb w m:=x]> tmp !! cell sb v k = push L w x v !! k) as Hcells.
  { intros v k Hv. rewrite push_length. unfold push. destruct (Nat.eqb_spec w v) as [<-|Hne]; intros Hk.
    - destruct (decide (k = m)) as [->|].
      + rewrite list_lookup_insert_eq by lia. by rewrite lookup_app_r, Nat.sub_diag by lia.
      + rewrite list_lookup_insert_ne by (intros [_ ?]%cell_inj; lia).
        rewrite lookup_app_l by (fold m; lia). apply Hc; [done|fold m; lia].
    - rewrite list_lookup_insert_ne by (intros [? _]%cell_inj; lia). by apply Hc. }
  assert (length (push L w x w) = S m) as HS by (rewrite push_length, Nat.eqb_refl; done).
  assert (forall v, v <> w -> length (push L w x v) = length (L v)) as Hne.
  { intros v Hv. rewrite push_length. by destruct (Nat.eqb_spec w v); [congruence|]. }
  destruct (Z.eqb_spec (Z.of_nat (m mod 6) + 1) 6) as [E|E].
  - rewrite (row_set (fun v => Z.of_nat (length (L v) mod 6)) (fun v => Z.of_nat (length (push L w x v) mod 6))); [|done|cbn beta; rewrite HS; clear -E; ndiv|intros; by rewrite Hne].
    cbn [mbind option_bind].
    rewrite (row_set _ (fun v => Z.of_nat (sb + length (push L w x v) / 6))); [|done|cbn beta; rewrite HS; clear -E; ndiv|intros; by rewrite Hne].
    cbn [mbind option_bind]. do 3 eexists. split; [done|]. split; [by rewrite length_insert|done..].
  - rewrite (row_set (fun v => Z.of_nat (length (L v) mod 6)) (fun v => Z.of_nat (length (push L w x v) mod 6))); [|done|cbn beta; rewrite HS; clear -E; ndiv|intros; by rewrite Hne].
    cbn [mbind option_bind]. do 3 eexists. split; [done|]. split; [by rewrite length_insert|done| |done].
    assert (forall v, (length (push L w x v) / 6 = length (L v) / 6)%nat) as Hd.
    { intros v. destruct (decide (v = w)) as [->|]; [rewrite HS; fold m; clear -E; ndiv|by rewrite Hne]. }
    cbn [map]. by rewrite !Hd.
Qed.

Lemma placed_ext sb L L' tmp sbw sw : (forall v, L v = L' v) -> placed sb L tmp sbw sw -> placed sb L' tmp sbw sw.
Proof.
  intros E [Ht Hc -> ->]. split; [done| |cbn [map]; by rewrite !E..].
  intros w m Hw Hm. rewrite <- E in *. by apply Hc.
Qed.

(** The choice of the next window. *)
Lemma next_window widths (p : nat) f w k ks :
  k :: ks = replicate (Z.to_nat f) w ++ windows (S w mod 3) (drop p widths) -> 0 <= f -> (w < 3)%nat ->
  Forall width_ok (drop p widths) ->
  exists p' f', (if f =? 0 then n ← aget widths (Z.of_nat p); Some (Z.of_nat p + 1, u32 (n - 1), (Z.of_nat w + 1) mod 3)
      else Some (Z.of_nat p, f - 1, Z.of_nat w)) = Some (Z.of_nat p', f', Z.of_nat k) /\ (k < 3)%nat /\ 0 <= f' /\
    ks = replicate (Z.to_nat f') k ++ windows (S k mod 3) (drop p' widths) /\ Forall width_ok (drop p' widths).
Proof.
  intros Hk Hf Hw Hok. destruct (Z.eqb_spec f 0) as [->|Hf0].
  { assert (Z.of_nat (S w mod 3) = (Z.of_nat w + 1) mod 3) as Ez by (rewrite Nat2Z.inj_mod; f_equal; lia).
    assert (S w mod 3 < 3)%nat as Hk3 by (apply Nat.mod_upper_bound; lia).
    revert Hk Ez Hk3. generalize (S w mod 3)%nat. intros k0 Hk Ez Hk3.
    destruct (drop p widths) as [|n ws] eqn:Ed; [done|]. cbn [replicate Z.to_nat app] in Hk.
    rewrite windows_cons in Hk. apply Forall_cons in Hok as [[Hn _] Hok].
    assert (widths !! p = Some n) as En by (rewrite <- (Nat.add_0_r p), <- lookup_drop, Ed; done).
    assert (drop (S p) widths = ws) as Ews by (rewrite <- Nat.add_1_r, <- drop_drop, Ed; done).
    rewrite aget_lookup, Nat2Z.id, En by lia. cbn [mbind option_bind].
    destruct (Z.to_nat n) as [|m] eqn:Em; [lia|]. cbn [replicate app] in Hk. injection Hk as -> ->.
    exists (S p), (n - 1). rewrite Ews. replace (Z.to_nat (n - 1)) with m by lia.
    rewrite wrapu_small by (change (2 ^ 32) with 4294967296; lia).
    split; [|split; [done|split; [lia|done]]]. do 3 f_equal; [lia|done]. }
  destruct (Z.to_nat f) as [|m] eqn:Em; [lia|]. cbn [replicate app] in Hk. injection Hk as -> ->.
    exists p, (f - 1). replace (Z.to_nat (f - 1)) with m by lia. split; [done|]. split; [done|]. split; [lia|done].
Qed.

Lemma reorder_loop xr widths sb ks : forall l p f w L tmp sbw sw,
  ks = replicate (Z.to_nat f) w ++ windows (S w mod 3) (drop p widths) -> 0 <= f -> (w < 3)%nat ->
  Forall width_ok (drop p widths) -> (l + length ks)%nat = 576%nat -> length xr = 576%nat ->
  placed sb L tmp sbw sw -> (forall v, (v < 3)%nat -> (length (L v) + count v ks <= 192 - 6 * sb)%nat) ->
  exists tmp' p' f' w' sbw' sw',
    for_loop (length ks) (Z.of_nat l) (reorder_line xr widths) (tmp, Z.of_nat p, f, Z.of_nat w, sbw, sw) =
      Some (tmp', p', f', w', sbw', sw') /\
    placed sb (fun v => L v ++ deal v ks (drop l xr)) tmp' sbw' sw'.
Proof.
  induction ks as [|k ks IH]; intros l p f w L tmp sbw sw Hks Hf Hw Hok Hl Hx HP Hc.
  - do 6 eexists. split; [done|]. eapply placed_ext; [|exact HP]. intros v. cbn. by rewrite app_nil_r.
  - cbn [length] in *. destruct (next_window widths p f w k ks Hks Hf Hw Hok) as (p'&f'&E&Hk&Hf'&Hks'&Hok').
    rewrite for_loop_S. unfold reorder_line at 2. cbv beta iota. rewrite E. cbn [mbind option_bind].
    destruct (lookup_lt_is_Some_2 xr l) as [x Ex]; [lia|]. rewrite aget_lookup, Nat2Z.id, Ex by lia.
    cbn [mbind option_bind]. pose proof (Hc k Hk) as Hck. cbn [count] in Hck. rewrite Nat.eqb_refl in Hck.
    destruct (place_line_spec sb L tmp sbw sw k x HP Hk ltac:(lia)) as (t'&s'&w'&->&HP'). cbn [mbind option_bind].
    replace (Z.of_nat l + 1) with (Z.of_nat (S l)) by lia.
    destruct (IH (S l) p' f' k (push L k x) t' s' w') as (t2&p2&f2&w2&s2&sw2&->&HP2); try done; try lia.
    { intros v Hv. rewrite push_length. specialize (Hc v Hv). cbn [count] in Hc. destruct (k =? v)%nat; lia. }
    do 6 eexists. split; [done|]. eapply placed_ext; [|exact HP2]. intros v. cbn beta.
    rewrite (drop_S xr x l) by done. cbn [deal]. unfold push. destruct (k =? v)%nat; [|done]. by rewrite <- app_assoc.
Qed.

Lemma sum_nonneg ls : Forall width_ok ls -> 0 <= sum ls.
Proof. induction 1 as [|w ls [? _] _ IH]; [done|]. rewrite sum_cons. lia. Qed.

Lemma skip_long widths ls : forall (fuel : nat) p l tl, drop p widths = ls ++ tl -> Forall width_ok ls -> l + sum ls = 36 ->
  (length ls < fuel)%nat ->
  while_loop fuel (fun '(_, l) => l <? 36) (fun '(p, l) => n ← aget widths p; Some (p + 1, l + n)) (Z.of_nat p, l) =
    Some (Z.of_nat (p + length ls), 36).
Proof.
  induction ls as [|n ls IH]; intros [|fuel] p l tl Hd Hok Hl Hf; cbn [length] in Hf; try lia; rewrite while_loop_S; cbv beta iota.
  - change (sum []) with 0 in Hl. rewrite (proj2 (Z.ltb_ge l 36)) by lia. cbn [length]. rewrite Nat.add_0_r. do 2 f_equal. lia.
  - rewrite sum_cons in Hl. apply Forall_cons in Hok as [[Hn _] Hok]. pose proof (sum_nonneg ls Hok).
    rewrite (proj2 (Z.ltb_lt l 36)) by lia.
    assert (widths !! p = Some n) as En by (rewrite <- (Nat.add_0_r p), <- lookup_drop, Hd; done).
    rewrite aget_lookup, Nat2Z.id, En by lia. cbn [mbind option_bind].
    replace (Z.of_nat p + 1) with (Z.of_nat (S p)) by lia. rewrite (IH fuel (S p) (l + n) tl); [|..|done|lia|lia].
    + cbn [length]. do 3 f_equal. lia.
    + rewrite <- Nat.add_1_r, <- drop_drop, Hd. done.
Qed.

(** The number of long bands in front of a block of short ones. *)
Definition long_count (c : channel) (widths : list Z) : nat :=
  if bitset (ch_flags c) mixed_block_flag then long_bands 36 widths else O.

Definition first_subband (c : channel) : nat := if bitset (ch_flags c) mixed_block_flag then 2 else 0.

(** Bands of short blocks, with 36 lines of long ones in front of them in a mixed block. *)
Definition short_ok (c : channel) (widths : list Z) : Prop :=
  blocks_ok (long_count c widths) (18 * Z.of_nat (first_subband c)) widths.

(** The result: the lines of the long bands, then the others by subband. *)
Definition reordered (c : channel) (widths xr : list Z) : list Z :=
  take (18 * first_subband c) xr ++
  subband_order (32 - first_subband c) (drop (long_count c widths) widths) (drop (18 * first_subband c) xr).

Lemma placed_result sb L tmp sbw sw : placed sb L tmp sbw sw -> (sb <= 32)%nat ->
  (forall w, (w < 3)%nat -> length (L w) = (6 * (32 - sb))%nat) ->
  drop (18 * sb) tmp = interleave (32 - sb) (L 0%nat) (L 1%nat) (L 2%nat).
Proof.
  intros [Ht Hc _ _] Hsb HL. apply list_eq_same_length with (18 * (32 - sb))%nat.
  - apply interleave_length; apply HL; lia.
  - rewrite length_drop. lia.
  - intros j x y Hj Hx Hy. rewrite lookup_drop in Hx.
    assert (j = 18 * (j / 18) + 6 * (j mod 18 / 6) + j mod 6)%nat as Ej by ndiv.
    assert (j / 18 < 32 - sb /\ j mod 18 / 6 < 3 /\ j mod 6 < 6)%nat as (Hs&Hw&Hi) by ndiv.
    revert Ej Hs Hw Hi. generalize (j / 18)%nat (j mod 18 / 6)%nat (j mod 6)%nat. intros s w i -> Hs Hw Hi.
    rewrite interleave_lookup in Hy by (done || apply HL; lia).
    assert (nth w [L 0%nat; L 1%nat; L 2%nat] [] = L w) as E by (destruct w as [|[|[|w]]]; [done..|lia]).
    rewrite E, <- Hc in Hy by (rewrite ?HL; lia). unfold cell in Hy.
    replace (18 * (sb + (6 * s + i) / 6) + 6 * w + (6 * s + i) mod 6)%nat with (18 * sb + (18 * s + 6 * w + i))%nat in Hy by ndiv.
    congruence.
Qed.

Lemma short_counts c widths : short_ok c widths ->
  exists ws, drop (long_count c widths) widths = triples ws /\ Forall width_ok (triples ws) /\ ws <> [] /\
  sum ws = 192 - 6 * Z.of_nat (first_subband c).
Proof.
  intros [[Hw Hs _] [Hl _] [ws E]]. exists ws. split; [done|].
  assert (Forall width_ok (triples ws)) as Hok by (rewrite <- E; by apply Forall_drop).
  assert (sum ws = 192 - 6 * Z.of_nat (first_subband c)) as Hsum.
  { rewrite <- (take_drop (long_count c widths) widths), sum_app, Hl, E, triples_sum in Hs. lia. }
  split; [done|]. split; [|done]. intros ->. change (sum []) with 0 in Hsum. unfold first_subband in Hsum. case_test; lia.
Qed.

Lemma skip_bands c widths : short_ok c widths ->
  (if bitset (ch_flags c) mixed_block_flag then
     while_loop 37 (fun '(_, l) => l <? 36) (fun '(p, l) => n ← aget widths p; Some (p + 1, l + n)) (0, 0)
   else Some (0, 0)) = Some (Z.of_nat (long_count c widths), 18 * Z.of_nat (first_subband c)).
Proof.
  intros [[Hw Hs _] [Hl H8] _]. unfold long_count, first_subband in *. destruct (bitset _ _); [|done].
  change 0 with (Z.of_nat 0) at 1. set (n := long_bands 36 widths) in *.
  rewrite (skip_long widths (take n widths) 37 0 0 (drop n widths)).
  - rewrite length_take. do 3 f_equal. unfold n in *. clear. generalize 36. induction widths as [|w ws IH]; intros z; cbn; [done|].
    destruct (0 <? z); [|done]. specialize (IH (z - w)). lia.
  - by rewrite take_drop.
  - by apply Forall_take.
  - lia.
  - rewrite length_take. lia.
Qed.

Lemma reorder_spec c widths xr tmp : short_ok c widths -> length xr = 576%nat -> length tmp = 576%nat ->
  III_reorder xr c widths tmp = Some (reordered c widths xr).
Proof.
  intros Hok Hx Ht. destruct (short_counts c widths Hok) as (ws&Ed&Hws&Hne&Hsum). unfold III_reorder, reordered.
  rewrite (skip_bands c widths Hok). cbn [mbind option_bind].
  replace (if bitset (ch_flags c) mixed_block_flag then 2 else 0) with (Z.of_nat (first_subband c)) by (unfold first_subband; by case_test).
  assert (first_subband c <= 2)%nat as Hsb by (unfold first_subband; case_test; lia).
  set (sb := first_subband c) in *. set (nl := long_count c widths) in *.
  set (ks := windows 0 (triples ws)).
  destruct (drop nl widths) as [|f rest] eqn:Er; [by destruct ws|].
  assert (widths !! nl = Some f) as Ef by (rewrite <- (Nat.add_0_r nl), <- lookup_drop, Er; done).
  assert (drop (S nl) widths = rest) as Erest by (rewrite <- Nat.add_1_r, <- drop_drop, Er; done).
  rewrite aget_lookup, Nat2Z.id, Ef by lia. cbn [mbind option_bind].
  assert (length ks = 576 - 18 * sb)%nat as Hlen.
  { pose proof (windows_length (triples ws) 0 Hws) as E. rewrite triples_sum in E. fold ks in E. lia. }
  assert (forall v, (v < 3)%nat -> count v ks = (6 * (32 - sb))%nat) as Hcount.
  { intros v Hv. pose proof (count_triples v ws Hv Hws) as E. fold ks in E. lia. }
  unfold for_range. replace (Z.to_nat (576 - 18 * Z.of_nat sb)) with (length ks) by lia.
  replace (18 * Z.of_nat sb) with (Z.of_nat (18 * sb)) by lia. replace (Z.of_nat nl + 1) with (Z.of_nat (S nl)) by lia.
  rewrite <- Ed in Hws. apply Forall_cons in Hws as [[Hf _] Hrest].
  destruct (reorder_loop xr widths sb ks (18 * sb) (S nl) f 0 (fun _ => []) tmp (repeat (Z.of_nat sb) 3) [0; 0; 0])
    as (tmp'&p'&f'&w'&sbw'&sw'&E&HP); [by rewrite Erest, <- windows_cons, Ed|lia|lia|by rewrite Erest|lia|done| | |].
  { split; [done|intros w m _ Hm; cbn in Hm; lia| |done]. cbn. by rewrite Nat.add_0_r. }
  { intros v Hv. rewrite Hcount by done. cbn. lia. }
  change (Z.of_nat 0) with 0 in E. cbn [repeat] in E. rewrite E. cbn [mbind option_bind]. clear E.
  pose proof (pl_tmp _ _ _ _ _ HP) as Ht'.
  rewrite asub_Some by lia. cbn [mbind option_bind]. rewrite Nat2Z.id.
  rewrite take_ge by (rewrite length_drop; lia).
  rewrite (placed_result _ _ _ _ _ HP ltac:(lia)).
  2: { intros w Hw. cbn. rewrite deal_length, Hcount by (done || rewrite length_drop; lia). done. }
  cbn [app]. unfold subband_order. rewrite Ed. fold ks.
  set (out := interleave _ _ _ _).
  assert (length out = 576 - 18 * sb)%nat as Hout.
  { unfold out. rewrite interleave_length; [lia|..]; rewrite deal_length by (rewrite length_drop; lia); apply Hcount; lia. }
  rewrite ablit_Some by lia. rewrite Nat2Z.id, drop_ge, app_nil_r by lia. done.
Qed.

Lemma reordered_perm c widths xr : short_ok c widths -> length xr = 576%nat -> reordered c widths xr ≡ₚ xr.
Proof.
  intros Hok Hx. destruct (short_counts c widths Hok) as (ws&Ed&Hws&_&Hsum). unfold reordered, subband_order. rewrite Ed.
  assert (first_subband c <= 2)%nat as Hsb by (unfold first_subband; case_test; lia).
  pose proof (windows_length (triples ws) 0 Hws) as E. rewrite triples_sum in E.
  pose proof (fun v Hv => count_triples v ws Hv Hws) as Hcount. set (ks := windows 0 (triples ws)) in *.
  transitivity (take (18 * first_subband c) xr ++ drop (18 * first_subband c) xr); [|by rewrite take_drop].
  apply Permutation_app_head.
  assert (length (drop (18 * first_subband c) xr) = length ks) as Hl by (rewrite length_drop; lia).
  rewrite interleave_perm.
  - apply deal_perm; [done|]. apply windows_lt. lia.
  - rewrite deal_length by done. specialize (Hcount 0%nat ltac:(lia)). lia.
  - rewrite deal_length by done. specialize (Hcount 1%nat ltac:(lia)). lia.
  - rewrite deal_length by done. specialize (Hcount 2%nat ltac:(lia)). lia.
Qed.

(** ** The butterflies *)

(** The product of two signed values, the second one at most one. *)
Lemma mad_f_mul_signed W x y : 32 <= W -> Z.abs x <= 2 ^ 30 -> Z.abs y <= 2 ^ 28 ->
  Z.abs (mad_f_mul W x y * 2 ^ 28 - x * y) <= 2 ^ 40 + 2 ^ 15 * Z.abs x /\
  Z.abs (mad_f_mul W x y) <= (Z.abs x + 2 ^ 11) + 2 ^ 11.
Proof.
  intros HW Hx Hy. unfold mad_f_mul. rewrite !Z.shiftl_1_l, !Z.shiftr_div_pow2 by lia.
  change (2 ^ 30) with 1073741824 in *. change (2 ^ 40) with 1099511627776.
  change (2 ^ 11) with 2048. change (2 ^ 15) with 32768. change (2 ^ 12) with 4096. change (2 ^ 16) with 65536.
  change (2 ^ 28) with 268435456 in *.
  assert (forall z, -2147483648 <= z < 2147483648 -> wraps W z = z) as Hw by (intros; by apply wraps_wide).
  rewrite (Hw (x + _)), (Hw (y + _)) by lia.
  pose proof (Z.div_mod (x + 2048) 4096 ltac:(lia)). pose proof (Z.mod_pos_bound (x + 2048) 4096 ltac:(lia)).
  pose proof (Z.div_mod (y + 32768) 65536 ltac:(lia)). pose proof (Z.mod_pos_bound (y + 32768) 65536 ltac:(lia)).
  set (a := (x + 2048) / 4096) in *. set (b := (y + 32768) / 65536) in *.
  assert (-4096 <= b <= 4096) by lia. assert (Z.abs (a * 4096) <= Z.abs x + 2048) by lia.
  assert (Z.abs (a * b) <= Z.abs (a * 4096)) by (rewrite !Z.abs_mul; apply Z.mul_le_mono_nonneg_l; lia).
  rewrite Hw, s32_small by (change (2 ^ 31) with 2147483648; lia). split; [|lia].
  replace (a * b * 268435456 - x * y) with ((a * 4096 - x) * (b * 65536) + x * (b * 65536 - y)) by ring.
  assert (Z.abs ((a * 4096 - x) * (b * 65536)) <= 2048 * 268435456) by (rewrite Z.abs_mul; apply Z.mul_le_mono_nonneg; lia).
  assert (Z.abs (x * (b * 65536 - y)) <= 32768 * Z.abs x) by (rewrite Z.abs_mul, Z.mul_comm; apply Z.mul_le_mono_nonneg; lia). lia.
Qed.

(** A butterfly as a function of its two lines. *)
Definition butterfly (W : Z) (i : nat) (a b : Z) : Z * Z :=
  let c := nth i cs 0 in let s := nth i ca 0 in
  (MAD_F_MLZ (MAD_F_MLA W (MAD_F_ML0 W a c) (s32 (- b)) s), MAD_F_MLZ (MAD_F_MLA W (MAD_F_ML0 W b c) a s)).

(** An accumulated sum that fits. *)
Lemma accumulate W x y u v : - 2 ^ 31 <= mad_f_mul W x y + mad_f_mul W u v < 2 ^ 31 ->
  MAD_F_MLZ (MAD_F_MLA W (MAD_F_ML0 W x y) u v) = mad_f_mul W x y + mad_f_mul W u v.
Proof.
  intros H. unfold MAD_F_MLZ, MAD_F_MLA, MAD_F_ML0. rewrite wraps_wrapu by lia.
  rewrite <- wraps_add_l, wraps_wrapu, wraps_add_l by lia. by apply s32_small.
Qed.

Lemma coefficients i : (i < 8)%nat -> 0 <= nth i cs 0 <= 2 ^ 28 /\ - 2 ^ 28 <= nth i ca 0 <= 0.
Proof.
  intros Hi. do 8 (destruct i as [|i]; [cbn [nth cs ca]; change (2 ^ 28) with 268435456; lia|]). lia.
Qed.

(** Below a quarter of the range nothing overflows, and a butterfly is the rotation up to the
    rounding of its products. *)
Lemma butterfly_error W i a b : 32 <= W -> (i < 8)%nat -> Z.abs a <= 2 ^ 29 -> Z.abs b <= 2 ^ 29 ->
  Z.abs (fst (butterfly W i a b) * 2 ^ 28 - (a * nth i cs 0 - b * nth i ca 0)) <= 2 ^ 41 + 2 ^ 15 * (Z.abs a + Z.abs b) /\
  Z.abs (snd (butterfly W i a b) * 2 ^ 28 - (b * nth i cs 0 + a * nth i ca 0)) <= 2 ^ 41 + 2 ^ 15 * (Z.abs a + Z.abs b).
Proof.
  intros HW Hi Ha Hb. destruct (coefficients i Hi) as [Hc Hs]. unfold butterfly. cbn [fst snd].
  change (2 ^ 29) with 536870912 in *. change (2 ^ 28) with 268435456 in *.
  assert (forall x y, Z.abs x <= 536870912 -> Z.abs y <= 268435456 ->
    Z.abs (mad_f_mul W x y * 268435456 - x * y) <= 2 ^ 40 + 2 ^ 15 * Z.abs x /\ Z.abs (mad_f_mul W x y) <= Z.abs x + 4096) as Hm.
  { intros x y Hx Hy. destruct (mad_f_mul_signed W x y HW) as [H1 H2]; [change (2 ^ 30) with 1073741824; lia|done|].
    split; [done|]. change (2 ^ 11) with 2048 in H2. lia. }
  assert (s32 (- b) = - b) as -> by (apply s32_small; change (2 ^ 31) with 2147483648; lia).
  destruct (Hm a (nth i cs 0)) as [A1 A2], (Hm (- b) (nth i ca 0)) as [B1 B2], (Hm b (nth i cs 0)) as [C1 C2],
    (Hm a (nth i ca 0)) as [D1 D2]; try lia.
  change (2 ^ 41) with (2 * 2 ^ 40). change (2 ^ 40) with 1099511627776 in *. change (2 ^ 15) with 32768 in *.
  rewrite !accumulate by (change (2 ^ 31) with 2147483648; lia). split; lia.
Qed.

Section AliasLoop.
Variable (W : Z) (xr0 : list Z).
Hypothesis Hx0 : length xr0 = 576%nat.

(** The line [j] when the butterflies [done] are applied; [q] numbers the subband borders. *)
Definition alias_line (fin : nat -> nat -> bool) (j : nat) : Z :=
  let q := (j / 18)%nat in let r := (j mod 18)%nat in
  if (1 <=? q)%nat && (r <? 8)%nat && fin q r then
    snd (butterfly W r (nth (18 * q - 1 - r) xr0 0) (nth j xr0 0))
  else if (10 <=? r)%nat && fin (q + 1)%nat (17 - r)%nat then
    fst (butterfly W (17 - r) (nth j xr0 0) (nth (18 * (q + 1) + (17 - r)) xr0 0))
  else nth j xr0 0.

Definition aliased (fin : nat -> nat -> bool) : list Z := map (alias_line fin) (seq 0 576).

Lemma aliased_length fin : length (aliased fin) = 576%nat.
Proof. unfold aliased. by rewrite length_map, length_seq. Qed.

Lemma aliased_get fin j : (j < 576)%nat -> aliased fin !! j = Some (alias_line fin j).
Proof. intros. unfold aliased. by rewrite list_lookup_fmap, lookup_seq_lt. Qed.

(** The butterflies of the borders before [q] and the first [i] of border [q]. *)
Definition upto (q i : nat) : nat -> nat -> bool := fun q' i' => (q' <? q)%nat || ((q' =? q)%nat && (i' <? i)%nat).

Lemma alias_line_ext fin fin' j : (forall q i, (1 <= q)%nat -> (i < 8)%nat -> (j = 18 * q + i \/ j + 1 + i = 18 * q)%nat -> fin q i = fin' q i) ->
  alias_line fin j = alias_line fin' j.
Proof.
  intros H. unfold alias_line. set (q := (j / 18)%nat). set (r := (j mod 18)%nat).
  assert (j = 18 * q + r /\ r < 18)%nat as [Ej Hr] by (unfold q, r; ndiv).
  destruct (Nat.ltb_spec r 8), (Nat.leb_spec 10 r); try lia; rewrite ?andb_false_r; cbn [andb]; [| |done].
  - destruct (Nat.leb_spec 1 q); [|done]. by rewrite (H q r) by lia.
  - by rewrite (H (q + 1)%nat (17 - r)%nat) by lia.
Qed.

Lemma alias_low fin q i : (1 <= q)%nat -> (i < 8)%nat -> alias_line fin (18 * q + i) =
  if fin q i then snd (butterfly W i (nth (18 * q - 1 - i) xr0 0) (nth (18 * q + i) xr0 0)) else nth (18 * q + i) xr0 0.
Proof.
  intros Hq Hi. unfold alias_line. assert ((18 * q + i) / 18 = q /\ (18 * q + i) mod 18 = i)%nat as [-> ->] by ndiv.
  rewrite (proj2 (Nat.leb_le 1 q)), (proj2 (Nat.ltb_lt i 8)), (proj2 (Nat.leb_gt 10 i)) by lia.
  cbn [andb]. by destruct (fin q i).
Qed.

Lemma alias_high fin q i : (1 <= q)%nat -> (i < 8)%nat -> alias_line fin (18 * q - 1 - i) =
  if fin q i then fst (butterfly W i (nth (18 * q - 1 - i) xr0 0) (nth (18 * q + i) xr0 0)) else nth (18 * q - 1 - i) xr0 0.
Proof.
  intros Hq Hi. unfold alias_line.
  assert ((18 * q - 1 - i) / 18 = q - 1 /\ (18 * q - 1 - i) mod 18 = 17 - i)%nat as [-> ->] by ndiv.
  rewrite (proj2 (Nat.ltb_ge (17 - i) 8)), (proj2 (Nat.leb_le 10 (17 - i))), andb_false_r by lia. cbn [andb].
  replace (q - 1 + 1)%nat with q by lia. replace (17 - (17 - i))%nat with i by lia. done.
Qed.

Lemma alias_step q i : (1 <= q <= 31)%nat -> (i < 8)%nat ->
  alias_butterfly W (Z.of_nat (18 * q)) (Z.of_nat i) (aliased (upto q i)) = Some (aliased (upto q (S i))).
Proof.
  intros Hq Hi. unfold alias_butterfly.
  replace (Z.of_nat (18 * q) - 1 - Z.of_nat i) with (Z.of_nat (18 * q - 1 - i)) by lia.
  replace (Z.of_nat (18 * q) + Z.of_nat i) with (Z.of_nat (18 * q + i)) by lia.
  assert (upto q i q i = false) as Hf.
  { unfold upto. rewrite Nat.ltb_irrefl, Nat.ltb_irrefl, andb_false_r. done. }
  rewrite !(aget_lookup (aliased _)), !Nat2Z.id, !aliased_get by lia. rewrite alias_high, alias_low, Hf by lia.
  cbn [mbind option_bind].
  assert (forall l : list Z, length l = 8%nat -> aget l (Z.of_nat i) = Some (nth i l 0)) as Hget.
  { intros l Hl. rewrite aget_lookup, Nat2Z.id by lia. destruct (lookup_lt_is_Some_2 l i) as [x E]; [lia|].
    by rewrite (nth_lookup_Some _ _ _ _ E). }
  rewrite !Hget by done. cbn [mbind option_bind].
  assert (length (aliased (upto q i)) = 576%nat) as Hl by apply aliased_length.
  rewrite aset_Some by lia. cbn [mbind option_bind]. rewrite aset_Some by (rewrite length_insert; lia). f_equal.
  rewrite !Nat2Z.id. apply list_eq. intros j. destruct (decide (j < 576)%nat) as [Hj|Hj].
  2: { rewrite !lookup_ge_None_2; rewrite ?length_insert, ?aliased_length; [done|lia|lia]. }
  assert (upto q (S i) q i = true) as Ht.
  { unfold upto. rewrite Nat.eqb_refl, (proj2 (Nat.ltb_lt i (S i))) by lia. apply orb_true_r. }
  rewrite aliased_get by done. destruct (decide (j = 18 * q + i)%nat) as [->|H1].
  { rewrite list_lookup_insert_eq by (rewrite length_insert; lia). rewrite alias_low, Ht by lia. unfold butterfly. cbn [fst snd]. reflexivity. }
  rewrite list_lookup_insert_ne by lia. destruct (decide (j = 18 * q - 1 - i)%nat) as [->|H2].
  { rewrite list_lookup_insert_eq by lia. rewrite alias_high, Ht by lia. unfold butterfly. cbn [fst snd]. reflexivity. }
  rewrite list_lookup_insert_ne, aliased_get by lia. f_equal. apply alias_line_ext. intros q' i' Hq' Hi' Hj'. unfold upto.
  destruct (Nat.ltb_spec q' q), (Nat.eqb_spec q' q), (Nat.ltb_spec i' i), (Nat.ltb_spec i' (S i)); try done; lia.
Qed.

Lemma alias_border q : (1 <= q <= 31)%nat ->
  for_range 0 8 (alias_butterfly W (Z.of_nat (18 * q))) (aliased (upto q 0)) = Some (aliased (upto (S q) 0)).
Proof.
  intros Hq. destruct (for_range_inv (fun i l => l = aliased (upto q (Z.to_nat i))) 0 8
    (alias_butterfly W (Z.of_nat (18 * q))) (aliased (upto q 0))) as (l&->&->); [lia|done| |].
  - intros i l Hi ->. eexists. split; [|done]. destruct (Z_of_nat_complete i) as [k ->]; [lia|].
    rewrite Nat2Z.id, alias_step by lia. do 3 f_equal. lia.
  - change (Z.to_nat 8) with 8%nat. f_equal. unfold aliased. apply map_ext_in. intros j _. apply alias_line_ext. intros q' i' Hq' Hi' _. unfold upto.
    destruct (Nat.ltb_spec q' q), (Nat.eqb_spec q' q), (Nat.ltb_spec i' 8), (Nat.ltb_spec q' (S q)), (Nat.eqb_spec q' (S q)),
      (Nat.ltb_spec i' 0); try done; lia.
Qed.

Lemma alias_loop n : forall q (fuel : nat), (1 <= q)%nat -> (q + n <= 32)%nat -> (n < fuel)%nat ->
  while_loop fuel (fun '(_, o) => o <? Z.of_nat (18 * (q + n)))
    (fun '(xr, o) => xr ← for_range 0 8 (alias_butterfly W o) xr; Some (xr, o + 18)) (aliased (upto q 0), Z.of_nat (18 * q)) =
  Some (aliased (upto (q + n) 0), Z.of_nat (18 * (q + n))).
Proof.
  induction n as [|n IH]; intros q [|fuel] H1 H2 Hf; try lia; rewrite while_loop_S; cbv beta iota.
  - rewrite Nat.add_0_r, Z.ltb_irrefl. done.
  - rewrite (proj2 (Z.ltb_lt _ _)) by lia. rewrite alias_border by lia. cbn [mbind option_bind].
    replace (q + S n)%nat with (S q + n)%nat by lia. replace (Z.of_nat (18 * q) + 18) with (Z.of_nat (18 * S q)) by lia.
    apply IH; lia.
Qed.

(** All the butterflies between the first [n] subbands. *)
Definition below (n : nat) : nat -> nat -> bool := fun q _ => (q <? n)%nat.

Lemma aliasreduce_spec n : (1 <= n <= 32)%nat -> III_aliasreduce W xr0 (Z.of_nat (18 * n)) = Some (aliased (below n)).
Proof.
  intros Hn. unfold III_aliasreduce.
  assert (aliased (upto 1 0) = xr0) as E0.
  { apply list_eq_same_length with 576%nat; [done|by apply aliased_length|].
    intros j x y Hj. rewrite aliased_get by done. intros [= <-] Hy.
    rewrite (alias_line_ext _ (fun _ _ => false)).
    - unfold alias_line. rewrite !andb_false_r. by apply nth_lookup_Some.
    - intros q i Hq Hi He. unfold upto. destruct (Nat.ltb_spec q 1), (Nat.eqb_spec q 1), (Nat.ltb_spec i 0); try done; try lia. }
  pose proof (alias_loop (n - 1) 1 33 ltac:(lia) ltac:(lia) ltac:(lia)) as E. rewrite E0 in E.
  replace (1 + (n - 1))%nat with n in E by lia. change (Z.of_nat (18 * 1)) with 18 in E. rewrite E. cbn [mbind option_bind]. f_equal.
  unfold aliased. apply map_ext_in. intros j _. apply alias_line_ext. intros q i Hq Hi _. unfold upto, below.
  destruct (Nat.ltb_spec q n), (Nat.eqb_spec q n), (Nat.ltb_spec i 0); try done; lia.
Qed.
End AliasLoop.

(** ** Claims *)

Lemma short_rows i r c : aget sfbwidth_table i = Some r -> block_type c = 2 -> short_ok c (block_widths r c).
Proof.
  intros (_&_&Hs&Hm)%table_ok Hb. unfold short_ok, block_widths, long_count, first_subband. rewrite Hb.
  change (2 =? 2) with true. cbn [negb]. by destruct (bitset (ch_flags c) mixed_block_flag).
Qed.

(** Reordering of short blocks.  For every sample rate, [III_reorder] ends inside
    its arrays, every cell it copies back has been written (the result does not depend on
    the uninitialised [tmp]) and the result is the subband order: six lines of the
    first window, six of the second, six of the third for each subband, the lines of
    a window in their order; the two long subbands of a mixed block stay.  It is a
    permutation of the lines. *)
Theorem III_reorder_correct i r c xr tmp : aget sfbwidth_table i = Some r -> block_type c = 2 ->
  length xr = 576%nat -> length tmp = 576%nat ->
  III_reorder xr c (block_widths r c) tmp = Some (reordered c (block_widths r c) xr) /\
  reordered c (block_widths r c) xr ≡ₚ xr.
Proof.
  intros Hr Hb Hx Ht. pose proof (short_rows i r c Hr Hb). split; [by apply reorder_spec|by apply reordered_perm].
Qed.

Lemma III_reorder_correct_witness :
  let c := MkChannel 0 0 0 0 8 2 [] [] 0 0 [] in let xr := seqZ 0 576 in
  III_reorder xr c sfb_44100_mixed (repeat 7 576) = Some (reordered c sfb_44100_mixed xr) /\
  reordered c sfb_44100_mixed xr ≡ₚ xr.
Proof.
  intros c xr.
  apply (III_reorder_correct 1 (MkBandwidths sfb_44100_long sfb_44100_short sfb_44100_mixed) c); reflexivity.
Defined.

(** Alias reduction.  On the lines of the first [n] subbands
    [III_aliasreduce] ends inside the array and applies each butterfly once, to the lines [i] on
    both sides of each border; lines up to an eighth of the range do not overflow, and
    the two results are the rotation by [cs], [ca] up to the rounding of its two
    products.  All other lines stay. *)
Theorem III_aliasreduce_correct W xr (n : nat) : 32 <= W -> length xr = 576%nat -> (1 <= n <= 32)%nat ->
  Forall (fun x => Z.abs x <= 2 ^ 29) xr ->
  exists ys, III_aliasreduce W xr (Z.of_nat (18 * n)) = Some ys /\ length ys = 576%nat /\
  (forall q i, (1 <= q < n)%nat -> (i < 8)%nat ->
     exists a b a' b' c s, xr !! (18 * q - 1 - i)%nat = Some a /\ xr !! (18 * q + i)%nat = Some b /\
     ys !! (18 * q - 1 - i)%nat = Some a' /\ ys !! (18 * q + i)%nat = Some b' /\ cs !! i = Some c /\ ca !! i = Some s /\
     Z.abs (a' * 2 ^ 28 - (a * c - b * s)) <= 2 ^ 41 + 2 ^ 15 * (Z.abs a + Z.abs b) /\
     Z.abs (b' * 2 ^ 28 - (b * c + a * s)) <= 2 ^ 41 + 2 ^ 15 * (Z.abs a + Z.abs b)) /\
  (forall j, (forall q i, (1 <= q < n)%nat -> (i < 8)%nat -> j <> (18 * q - 1 - i)%nat /\ j <> (18 * q + i)%nat) ->
     ys !! j = xr !! j).
Proof.
  intros HW Hx Hn HF. exists (aliased W xr (below n)). split; [by apply aliasreduce_spec|].
  split; [apply aliased_length|]. split.
  - intros q i Hq Hi. rewrite !aliased_get by lia. rewrite alias_high, alias_low by lia.
    assert (below n q i = true) as -> by (apply Nat.ltb_lt; lia).
    destruct (lookup_lt_is_Some_2 xr (18 * q - 1 - i)) as [a Ea]; [lia|].
    destruct (lookup_lt_is_Some_2 xr (18 * q + i)) as [b Eb]; [lia|].
    rewrite !(nth_lookup_Some _ _ _ _ Ea), !(nth_lookup_Some _ _ _ _ Eb), Ea, Eb.
    destruct (lookup_lt_is_Some_2 cs i) as [c Ec]; [cbn; lia|].
    destruct (lookup_lt_is_Some_2 ca i) as [s Es]; [cbn; lia|]. rewrite Ec, Es.
    destruct (butterfly_error W i a b HW Hi) as [E1 E2]; [exact (Forall_lookup_1 _ _ _ _ HF Ea)|exact (Forall_lookup_1 _ _ _ _ HF Eb)|].
    rewrite (nth_lookup_Some _ _ _ _ Ec), (nth_lookup_Some _ _ _ _ Es) in *. by do 6 eexists.
  - intros j Hj. destruct (decide (j < 576)%nat) as [H|H].
    2: { rewrite !lookup_ge_None_2; rewrite ?aliased_length; [done|lia|lia]. }
    rewrite aliased_get by done. destruct (lookup_lt_is_Some_2 xr j) as [x E]; [lia|]. rewrite E. f_equal.
    rewrite (alias_line_ext W xr Hx (below n) (fun _ _ => false)).
    + unfold alias_line. rewrite !andb_false_r. by apply nth_lookup_Some.
    + intros q i Hq Hi Hc. unfold below. destruct (Nat.ltb_spec q n); [|done]. destruct (Hj q i); lia.
Qed.

Lemma III_aliasreduce_correct_witness :
  let xr := map (fun x => (x - 288) * 100000) (seqZ 0 576) in
  exists ys, III_aliasreduce 64 xr (Z.of_nat (18 * 32)) = Some ys /\ length ys = 576%nat /\
  (forall q i, (1 <= q < 32)%nat -> (i < 8)%nat ->
     exists a b a' b' c s, xr !! (18 * q - 1 - i)%nat = Some a /\ xr !! (18 * q + i)%nat = Some b /\
     ys !! (18 * q - 1 - i)%nat = Some a' /\ ys !! (18 * q + i)%nat = Some b' /\ cs !! i = Some c /\ ca !! i = Some s /\
     Z.abs (a' * 2 ^ 28 - (a * c - b * s)) <= 2 ^ 41 + 2 ^ 15 * (Z.abs a + Z.abs b) /\
     Z.abs (b' * 2 ^ 28 - (b * c + a * s)) <= 2 ^ 41 + 2 ^ 15 * (Z.abs a + Z.abs b)) /\
  (forall j, (forall q i, (1 <= q < 32)%nat -> (i < 8)%nat -> j <> (18 * q - 1 - i)%nat /\ j <> (18 * q + i)%nat) ->
     ys !! j = xr !! j).
Proof.
  intros xr. apply (III_aliasreduce_correct 64 xr 32).
  - apply Z.leb_le. reflexivity.
  - reflexivity.
  - lia.
  - apply (bool_decide_unpack _). vm_compute. exact I.
Defined.
