(* ===== verification/MadStereo.v ===== *)
(** Joint stereo of MPEG Layer III: [III_stereo] of [src/libmad/layer3.c].

    The scale factor bands above the last nonzero one of the right channel carry
    intensity positions, the others may be coded as middle and side; the
    function decides the mode of each band and then processes the lines of the two
    channels in place. *)
From Stdlib Require Import ZifyNat.
From S2P Require Import Prelude MadTimer MadFrame MadSideInfo MadRequantize MadSpectrum.

(** ** Tables *)

Definition is_table : list Z :=
  [0x00000000; 0x0361962f; 0x05db3d74; 0x08000000; 0x0a24c28c; 0x0c9e69d1; 0x10000000].

Definition is_lsf_table : list (list Z) := [
  [0x0d744fcd; 0x0b504f33; 0x09837f05; 0x08000000; 0x06ba27e6; 0x05a8279a; 0x04c1bf83; 0x04000000;
   0x035d13f3; 0x02d413cd; 0x0260dfc1; 0x02000000; 0x01ae89fa; 0x016a09e6; 0x01306fe1];
  [0x0b504f33; 0x08000000; 0x05a8279a; 0x04000000; 0x02d413cd; 0x02000000; 0x016a09e6; 0x01000000;
   0x00b504f3; 0x00800000; 0x005a827a; 0x00400000; 0x002d413d; 0x00200000; 0x0016a09e]].

Definition MAD_FLAG_I_STEREO : Z := 0x0100.
Definition MAD_FLAG_MS_STEREO : Z := 0x0200.
Definition MAD_ERROR_BADSTEREO : Z := 0x0239.

(** ** The bands to be processed *)

(** [for (i = 0; i < n; ++i) if (right_xr[i])], which stops at the first nonzero line. *)
Fixpoint any_line (right : list Z) (pos : Z) (n : nat) : option bool :=
  match n with
  | S n => x ← aget right pos; if x =? 0 then any_line right (pos + 1) n else Some true
  | O => Some false
  end.

(** A long band; state [sfbi], [l] (which is also how far [right_xr] has moved) and
    [lower] or [bound]. *)
Definition scan_long (right sfbwidth : list Z) (st : Z * Z * Z) : option (Z * Z * Z) :=
  let '(sfbi, l, lower) := st in
  n ← aget sfbwidth sfbi;
  found ← any_line right l (Z.to_nat n);
  Some (sfbi + 1, l + n, if found : bool then sfbi + 1 else lower).

(** A band of a short block; state [sfbi], [l], [w], [max] and [bound]. *)
Definition scan_short (right sfbwidth : list Z) (st : Z * Z * Z * Z * list Z) : option (Z * Z * Z * Z * list Z) :=
  let '(sfbi, l, w, max, bound) := st in
  n ← aget sfbwidth sfbi;
  found ← any_line right l (Z.to_nat n);
  if found : bool then
    bound ← aset bound w (sfbi + 1); Some (sfbi + 1, l + n, (w + 1) mod 3, sfbi + 1, bound)
  else Some (sfbi + 1, l + n, (w + 1) mod 3, max, bound).

(** [header->mode_extension & ~I_STEREO] *)
Definition without_intensity (ext : Z) : Z := ext .& Z.lnot I_STEREO.

Definition mark_long (ext : Z) (i : Z) (modes : list Z) : option (list Z) := aset modes i (s16 (without_intensity ext)).

Definition mark_short (ext : Z) (bound : list Z) (i : Z) (st : list Z * Z) : option (list Z * Z) :=
  let '(modes, w) := st in
  b ← aget bound w;
  modes ← (if i <? b then mark_long ext i modes else Some modes);
  Some (modes, (w + 1) mod 3).

(** Clears [I_STEREO] in the modes of the bands that are not intensity coded. *)
Definition intensity_modes (right sfbwidth : list Z) (right_ch : channel) (ext : Z) (modes : list Z) : option (list Z) :=
  if block_type right_ch =? 2 then
    '(sfbi, l, lower) ← (if bitset (ch_flags right_ch) mixed_block_flag then
        while_loop 37 (fun '(_, l, _) => l <? 36) (scan_long right sfbwidth) (0, 0, 0)
      else Some (0, 0, 0));
    let start := if bitset (ch_flags right_ch) mixed_block_flag then sfbi else 0 in
    '(_, _, _, max, bound) ← while_loop 577 (fun '(_, l, _, _, _) => l <? 576) (scan_short right sfbwidth)
      (sfbi, l, 0, 0, [0; 0; 0]);
    let lower := if max =? 0 then lower else start in
    modes ← for_range 0 lower (mark_long ext) modes;
    '(modes, _) ← for_range start max (mark_short ext bound) (modes, 0);
    Some modes
  else
    '(_, _, bound) ← while_loop 577 (fun '(_, l, _) => l <? 576) (scan_long right sfbwidth) (0, 0, 0);
    for_range 0 bound (mark_long ext) modes.

(** ** The lines *)

Section Stereo.
Variable long_bits : Z.

Abbreviation mul := (mad_f_mul long_bits).

(** The two channels. *)
Abbreviation channels := (list Z * list Z)%type.

Definition lsf_line (lsf_scale : list Z) (is_pos : Z) (j : Z) (xr : channels) : option channels :=
  let '(xr0, xr1) := xr in
  left ← aget xr0 j;
  if is_pos =? 0 then xr1 ← aset xr1 j left; Some (xr0, xr1)
  else
    k ← aget lsf_scale ((is_pos - 1) / 2);
    let opposite := mul left k in
    if bitset is_pos 1 then
      xr0 ← aset xr0 j opposite; xr1 ← aset xr1 j left; Some (xr0, xr1)
    else xr1 ← aset xr1 j opposite; Some (xr0, xr1).

Definition is_line (is_pos : Z) (j : Z) (xr : channels) : option channels :=
  let '(xr0, xr1) := xr in
  left ← aget xr0 j;
  k ← aget is_table is_pos;
  k' ← aget is_table (6 - is_pos);
  xr0 ← aset xr0 j (mul left k);
  xr1 ← aset xr1 j (mul left k');
  Some (xr0, xr1).

Definition ms_line (invsqrt2 : Z) (j : Z) (xr : channels) : option channels :=
  let '(xr0, xr1) := xr in
  m ← aget xr0 j;
  s ← aget xr1 j;
  xr0 ← aset xr0 j (mul (s32 (m + s)) invsqrt2);
  xr1 ← aset xr1 j (mul (s32 (m - s)) invsqrt2);
  Some (xr0, xr1).

(** Body of [for (sfbi = l = 0; l < 576; ++sfbi, l += n)] with an LSF extension. *)
Definition lsf_band (sfbwidth illegal_pos lsf_scale scalefac : list Z) (st : channels * list Z * Z * Z)
    : option (channels * list Z * Z * Z) :=
  let '(xr, modes, sfbi, l) := st in
  n ← aget sfbwidth sfbi;
  m ← aget modes sfbi;
  if negb (bitset m I_STEREO) then Some (xr, modes, sfbi + 1, l + n) else
  bad ← aget illegal_pos sfbi;
  if negb (bad =? 0) then
    modes ← aset modes sfbi (s16 (without_intensity m)); Some (xr, modes, sfbi + 1, l + n)
  else
    is_pos ← aget scalefac sfbi;
    xr ← for_range 0 n (fun i => lsf_line lsf_scale is_pos (l + i)) xr;
    Some (xr, modes, sfbi + 1, l + n).

Definition is_band (sfbwidth scalefac : list Z) (st : channels * list Z * Z * Z) : option (channels * list Z * Z * Z) :=
  let '(xr, modes, sfbi, l) := st in
  n ← aget sfbwidth sfbi;
  m ← aget modes sfbi;
  if negb (bitset m I_STEREO) then Some (xr, modes, sfbi + 1, l + n) else
  is_pos ← aget scalefac sfbi;
  if 7 <=? is_pos then
    modes ← aset modes sfbi (s16 (without_intensity m)); Some (xr, modes, sfbi + 1, l + n)
  else
    xr ← for_range 0 n (fun i => is_line is_pos (l + i)) xr;
    Some (xr, modes, sfbi + 1, l + n).

Definition ms_band (sfbwidth : list Z) (invsqrt2 : Z) (st : channels * list Z * Z * Z) : option (channels * list Z * Z * Z) :=
  let '(xr, modes, sfbi, l) := st in
  n ← aget sfbwidth sfbi;
  m ← aget modes sfbi;
  if negb (m =? MS_STEREO) then Some (xr, modes, sfbi + 1, l + n) else
  xr ← for_range 0 n (fun i => ms_line invsqrt2 (l + i)) xr;
  Some (xr, modes, sfbi + 1, l + n).

Definition bands_loop (step : channels * list Z * Z * Z -> option (channels * list Z * Z * Z)) (xr : channels) (modes : list Z)
    : option (channels * list Z) :=
  '(xr, modes, _, _) ← while_loop 577 (fun '(_, _, _, l) => l <? 576) step (xr, modes, 0, 0);
  Some (xr, modes).

(** [modes[39]] is uninitialised; [illegal_pos] is [granule[1].ch[1].scalefac].  The
    error code, the channels and the header. *)
Definition III_stereo (xr : channels) (ch0 ch1 : channel) (illegal_pos : list Z) (h : mad_header) (sfbwidth modes : list Z)
    : option (Z * channels * mad_header) :=
  if negb (block_type ch0 =? block_type ch1) ||
     negb (ch_flags ch0 .& mixed_block_flag =? ch_flags ch1 .& mixed_block_flag)
  then Some (MAD_ERROR_BADSTEREO, xr, h) else
  let ext := mode_extension h in
  modes ← for_range 0 39 (fun i modes => aset modes i (s16 ext)) modes;
  '(xr, modes, h) ← (if bitset ext I_STEREO then
      let h := set_flags h (flags h .| MAD_FLAG_I_STEREO) (private_bits h) in
      modes ← intensity_modes (snd xr) sfbwidth ch1 ext modes;
      '(xr, modes) ← (if bitset (flags h) MAD_FLAG_LSF_EXT then
          lsf_scale ← aget is_lsf_table (scalefac_compress ch1 .& 0x1);
          bands_loop (lsf_band sfbwidth illegal_pos lsf_scale (scalefac ch1)) xr modes
        else bands_loop (is_band sfbwidth (scalefac ch1)) xr modes);
      Some (xr, modes, h)
    else Some (xr, modes, h));
  if bitset ext MS_STEREO then
    let h := set_flags h (flags h .| MAD_FLAG_MS_STEREO) (private_bits h) in
    invsqrt2 ← aget root_table (3 + -2);
    '(xr, _) ← bands_loop (ms_band sfbwidth invsqrt2) xr modes;
    Some (MAD_ERROR_NONE, xr, h)
  else Some (MAD_ERROR_NONE, xr, h).
End Stereo.

(** ** Which bands are intensity coded *)

(** First line of a band. *)
Definition band_offset (widths : list Z) (b : nat) : Z := sum (take b widths).

(** A nonzero line in band [k]. *)
Definition nonzero (right widths : list Z) (k : nat) : bool :=
  existsb (fun x => negb (x =? 0))
    (take (Z.to_nat (nth k widths 0)) (drop (Z.to_nat (band_offset widths k)) right)).

(** Some band [k] from [i] on, of the class [rel], is nonzero in the right channel. *)
Definition above (right widths : list Z) (rel : nat -> Prop) (i m : nat) : Prop :=
  exists k, (i <= k < m)%nat /\ rel k /\ nonzero right widths k = true.

(** Band [b] is not intensity coded: a band above it, in a short block of the same window,
    is nonzero. *)
Definition left_right (right widths : list Z) (nlong b : nat) : bool :=
  existsb (fun k => ((b <? nlong)%nat || ((k - b) mod 3 =? 0)%nat) && nonzero right widths k) (seq b (length widths - b)).

Lemma any_line_spec right n : forall pos, 0 <= pos -> pos + Z.of_nat n <= zlen right ->
  any_line right pos n = Some (existsb (fun x => negb (x =? 0)) (take n (drop (Z.to_nat pos) right))).
Proof.
  induction n as [|n IH]; intros pos H0 Hn; [done|]. cbn [any_line].
  destruct (lookup_lt_is_Some_2 right (Z.to_nat pos)) as [x Ex]; [lia|].
  rewrite aget_lookup, Ex by lia. cbn [mbind option_bind]. rewrite (drop_S right x _ Ex). cbn [take existsb].
  destruct (x =? 0); [|done]. rewrite IH by lia. cbn [negb orb]. do 4 f_equal. lia.
Qed.

Section Widths.
Variable widths : list Z.
Hypothesis Hw : widths_ok widths.

Lemma offset_S b n : widths !! b = Some n -> band_offset widths (S b) = band_offset widths b + n.
Proof. intros E. unfold band_offset. rewrite (take_S_r _ _ _ E), sum_app, sum_cons. change (sum []) with 0. lia. Qed.

Lemma sum_pos ls : Forall width_ok ls -> zlen ls <= sum ls.
Proof. induction 1 as [|w ls [? _] _ IH]; [done|]. rewrite sum_cons. cbn [length]. lia. Qed.

Lemma offset_split b : band_offset widths b + sum (drop b widths) = 576.
Proof. unfold band_offset. rewrite <- sum_app, take_drop. apply Hw. Qed.

Lemma offset_bounds b : Z.of_nat (b `min` length widths) <= band_offset widths b <= 576 - zlen (drop b widths).
Proof.
  pose proof (offset_split b). unfold band_offset in *. destruct Hw as [Hf _ _].
  pose proof (sum_pos (drop b widths) (Forall_drop _ _ _ Hf)). pose proof (sum_pos (take b widths) (Forall_take _ _ _ Hf)).
  rewrite length_take in *. lia.
Qed.

Lemma width_get b : (b < length widths)%nat -> exists n, widths !! b = Some n /\ nth b widths 0 = n /\ 0 < n < 256 /\
  band_offset widths b + n <= 576.
Proof.
  intros Hb. destruct (lookup_lt_is_Some_2 widths b Hb) as [n E]. exists n. split; [done|].
  split; [by apply nth_lookup_Some|]. destruct Hw as [Hf _ _]. pose proof (Forall_lookup_1 _ _ _ _ Hf E) as [Hn _].
  split; [done|]. pose proof (offset_bounds (S b)). rewrite (offset_S b n E) in *. lia.
Qed.

Lemma widths_end b l : l = band_offset widths b -> (b <= length widths)%nat -> (l <? 576) = (b <? length widths)%nat.
Proof.
  intros -> Hb. pose proof (offset_split b). pose proof (offset_bounds b).
  destruct (Nat.ltb_spec b (length widths)) as [H1|H1].
  - apply Z.ltb_lt. rewrite length_drop in *. lia.
  - apply Z.ltb_ge. rewrite drop_ge in * by lia. change (sum []) with 0 in *. lia.
Qed.

End Widths.

(** ** Bands above *)

Section Above.
Variables right widths : list Z.

Lemma above_hit (rel : nat -> Prop) i b : rel b -> nonzero right widths b = true ->
  (i < S b)%nat <-> above right widths rel i (S b).
Proof. intros Hrel Hz. split; [intros Hi; exists b; auto with lia|intros (k&?&_); lia]. Qed.

Lemma above_miss (rel : nat -> Prop) i b : ~ rel b \/ nonzero right widths b = false ->
  above right widths rel i (S b) <-> above right widths rel i b.
Proof.
  intros H. split; intros (k&Hk&Hrel&Hz); exists k; (split; [|done]); [|lia].
  destruct (decide (k = b)) as [->|]; [|lia]. destruct H as [H|H]; [done|congruence].
Qed.

(** The number [low] separates the bands with a nonzero one of the class from [m] bands. *)
Definition separates (rel : nat -> Prop) (low m : nat) : Prop :=
  (low <= m)%nat /\ forall i, (i < low)%nat <-> above right widths rel i m.

Lemma separates_0 rel m : (forall k, (k < m)%nat -> ~ rel k) -> separates rel 0 m.
Proof. intros H. split; [lia|]. intros i. split; [lia|]. intros (k&Hk&Hr'&_). destruct (H k); [lia|done]. Qed.

Lemma separates_step rel low b : separates rel low b ->
  (rel b -> nonzero right widths b = true -> separates rel (S b) (S b)) /\
  (~ rel b \/ nonzero right widths b = false -> separates rel low (S b)).
Proof.
  intros [Hle Hi]. split.
  - intros H1 H2. split; [done|]. intros i. by apply above_hit.
  - intros H. split; [lia|]. intros i. rewrite above_miss by done. apply Hi.
Qed.

End Above.

Section Bands.
Variables (right widths : list Z).
Hypotheses (Hw : widths_ok widths) (Hr : length right = 576%nat).

Lemma nonzero_get b : (b < length widths)%nat ->
  any_line right (band_offset widths b) (Z.to_nat (nth b widths 0)) = Some (nonzero right widths b).
Proof.
  intros Hb. destruct (width_get widths Hw b Hb) as (n&_&En&Hn&Hl). pose proof (offset_bounds widths Hw b).
  by rewrite any_line_spec by lia.
Qed.

Lemma band_get b : (b < length widths)%nat ->
  aget widths (Z.of_nat b) = Some (nth b widths 0) /\
  any_line right (band_offset widths b) (Z.to_nat (nth b widths 0)) = Some (nonzero right widths b) /\
  band_offset widths b + nth b widths 0 = band_offset widths (S b).
Proof.
  intros Hb. destruct (width_get widths Hw b Hb) as (n&E&En&_). rewrite aget_lookup, Nat2Z.id, E, En by lia.
  split; [done|]. split; [rewrite <- En; by apply nonzero_get|]. by rewrite (offset_S widths b n E).
Qed.

Lemma scan_long_loop lim m (fuel : nat) : (m <= length widths)%nat -> (m + 1 < fuel)%nat ->
  (forall b, (b <= m)%nat -> (band_offset widths b <? lim) = (b <? m)%nat) ->
  exists low, while_loop fuel (fun '(_, l, _) => l <? lim) (scan_long right widths) (0, 0, 0) =
      Some (Z.of_nat m, band_offset widths m, Z.of_nat low) /\ separates right widths (fun _ => True) low m.
Proof.
  intros Hm Hf Hlim.
  destruct (while_loop_inv (fun '(sfbi, l, lower) => exists b low, (sfbi = Z.of_nat b /\ l = band_offset widths b /\
      lower = Z.of_nat low) /\ (b <= m)%nat /\ separates right widths (fun _ => True) low b)
    (fun '(sfbi, _, _) => Z.of_nat m - sfbi) fuel (fun '(_, l, _) => l <? lim) (scan_long right widths) (0, 0, 0))
    as ([[sfbi l] lower]&->&(b&low&(->&->&->)&Hb&Hs)&Hc).
  - exists 0%nat, 0%nat. split; [done|]. split; [lia|]. apply separates_0. lia.
  - lia.
  - intros [[sfbi l] lower] (b&low&(->&->&->)&Hb&Hs) Hc. rewrite Hlim in Hc by done. apply Nat.ltb_lt in Hc.
    split; [lia|]. destruct (band_get b) as (E1&E2&E3); [lia|]. unfold scan_long. rewrite E1. cbn [mbind option_bind].
    rewrite E2. cbn [mbind option_bind]. eexists. split; [done|]. split; [|lia].
    destruct (separates_step _ _ _ _ _ Hs) as [S1 S2]. destruct (nonzero right widths b) eqn:Ez.
    + exists (S b), (S b). split; [split; [lia|split; [done|lia]]|]. split; [lia|auto].
    + exists (S b), low. split; [split; [lia|split; [done|lia]]|]. split; [lia|auto].
  - lia.
  - rewrite Hlim in Hc by done. apply Nat.ltb_ge in Hc. assert (b = m) as -> by lia. by exists low.
Qed.
End Bands.

(** The class of a band of a short block: its window. *)
Definition window_of (start c k : nat) : Prop := (start <= k)%nat /\ ((k - start) mod 3 = c)%nat.

Section ShortBands.
Variables (right widths : list Z).
Hypotheses (Hw : widths_ok widths) (Hr : length right = 576%nat).
Variable start : nat.
Hypothesis Hs : (start <= length widths)%nat.

Abbreviation sep := (separates right widths).

(** [max] and [bound] after the bands before [b]. *)
Definition bounds_at (b : nat) (max : Z) (bound : list Z) : Prop :=
  (exists mx, max = Z.of_nat mx /\ sep (fun k => (start <= k)%nat) mx b) /\
  length bound = 3%nat /\
  forall c, (c < 3)%nat -> exists bc, bound !! c = Some (Z.of_nat bc) /\ sep (window_of start c) bc b.

Lemma bounds_step b max bound : bounds_at b max bound -> (start <= b)%nat ->
  if nonzero right widths b then
    exists bound', aset bound (Z.of_nat ((b - start) mod 3)) (Z.of_nat b + 1) = Some bound' /\
      bounds_at (S b) (Z.of_nat b + 1) bound'
  else bounds_at (S b) max bound.
Proof.
  intros ((mx&->&Hmx)&Hl&Hb) Hsb. set (w := ((b - start) mod 3)%nat). assert (w < 3)%nat as Hw3 by (unfold w; ndiv).
  destruct (separates_step right widths _ _ _ Hmx) as [M1 M2]. destruct (nonzero right widths b) eqn:Ez.
  - rewrite aset_Some, Nat2Z.id by lia. eexists. split; [done|]. split; [exists (S b); split; [lia|auto]|].
    split; [by rewrite length_insert|]. intros c Hc. destruct (Hb c Hc) as (bc&E&Hbc).
    destruct (separates_step right widths _ _ _ Hbc) as [B1 B2]. destruct (decide (c = w)) as [->|Hne].
    + exists (S b). rewrite list_lookup_insert_eq by lia. split; [f_equal; lia|]. apply B1; [|done]. split; [lia|done].
    + exists bc. rewrite list_lookup_insert_ne by done. split; [done|]. apply B2. left. intros [_ H]. by apply Hne.
  - split; [exists mx; split; [done|auto]|]. split; [done|]. intros c Hc. destruct (Hb c Hc) as (bc&E&Hbc).
    destruct (separates_step right widths _ _ _ Hbc) as [B1 B2]. exists bc. auto.
Qed.

Lemma scan_short_loop :
  exists max bound, while_loop 577 (fun '(_, l, _, _, _) => l <? 576) (scan_short right widths)
      (Z.of_nat start, band_offset widths start, 0, 0, [0; 0; 0]) =
    Some (zlen widths, 576, Z.of_nat ((length widths - start) mod 3), max, bound) /\ bounds_at (length widths) max bound.
Proof.
  pose proof (wo_length _ Hw) as H39.
  destruct (while_loop_inv (fun '(sfbi, l, w, max, bound) => exists b, (sfbi = Z.of_nat b /\ l = band_offset widths b /\
      w = Z.of_nat ((b - start) mod 3)) /\ (start <= b <= length widths)%nat /\ bounds_at b max bound)
    (fun '(sfbi, _, _, _, _) => zlen widths - sfbi) 577 (fun '(_, l, _, _, _) => l <? 576) (scan_short right widths)
    (Z.of_nat start, band_offset widths start, 0, 0, [0; 0; 0]))
    as ([[[[sfbi l] w] max] bound]&->&(b&(->&->&->)&Hb&HB)&Hc).
  - exists start. split; [rewrite Nat.sub_diag; done|]. split; [lia|]. split; [|split; [done|]].
    + exists 0%nat. split; [done|]. apply separates_0. lia.
    + intros c Hc. exists 0%nat. split; [destruct c as [|[|[|c]]]; [done..|lia]|]. apply separates_0. intros k Hk [? _]. lia.
  - cbn. lia.
  - intros [[[[sfbi l] w] max] bound] (b&(->&->&->)&Hb&HB) Hc. rewrite (widths_end widths Hw b) in Hc by lia.
    apply Nat.ltb_lt in Hc. split; [lia|]. destruct (band_get right widths Hw Hr b Hc) as (E1&E2&E3).
    unfold scan_short. rewrite E1. cbn [mbind option_bind]. rewrite E2. cbn [mbind option_bind].
    pose proof (bounds_step b max bound HB ltac:(lia)) as Hstep.
    assert ((Z.of_nat ((b - start) mod 3) + 1) mod 3 = Z.of_nat ((S b - start) mod 3)) as Ew by ndiv.
    destruct (nonzero right widths b).
    + destruct Hstep as (bound'&->&HB'). cbn [mbind option_bind]. eexists. split; [done|]. split; [|lia].
      exists (S b). split; [split; [lia|done]|]. split; [lia|done].
    + eexists. split; [done|]. split; [|lia]. exists (S b). split; [split; [lia|done]|]. split; [lia|done].
  - lia.
  - rewrite (widths_end widths Hw b) in Hc by lia. apply Nat.ltb_ge in Hc. assert (b = length widths) as -> by lia.
    pose proof (offset_split widths Hw (length widths)) as Ho. rewrite drop_all in Ho. change (sum []) with 0 in Ho.
    rewrite Z.add_0_r in Ho. rewrite Ho. by exists max, bound.
Qed.
End ShortBands.

Lemma cells_ext f g n : (forall k, (k < n)%nat -> f k = g k) -> cells f n = cells g n.
Proof. intros H. unfold cells. apply map_ext_in. intros k [_ Hk]%in_seq. apply H. lia. Qed.

Lemma cells_get f n k : (k < n)%nat -> cells f n !! k = Some (f k).
Proof. intros H. unfold cells. by rewrite list_lookup_fmap, lookup_seq_lt. Qed.

Lemma cells_set f n i x : (i < n)%nat -> aset (cells f n) (Z.of_nat i) x = Some (cells (fun k => if (k =? i)%nat then x else f k) n).
Proof.
  intros Hi. rewrite aset_Some, Nat2Z.id by (rewrite cells_length; lia). f_equal. apply list_eq. intros j.
  destruct (decide (j < n)%nat) as [Hj|Hj].
  - rewrite (cells_get _ _ j Hj). destruct (Nat.eqb_spec j i) as [->|].
    + apply list_lookup_insert_eq. by rewrite cells_length.
    + by rewrite list_lookup_insert_ne, cells_get by done.
  - rewrite !lookup_ge_None_2; rewrite ?length_insert, ?cells_length; [done|lia..].
Qed.

Lemma mark_long_loop ext f (low : nat) : (low <= 39)%nat ->
  for_range 0 (Z.of_nat low) (mark_long ext) (cells f 39) =
  Some (cells (fun k => if (k <? low)%nat then s16 (without_intensity ext) else f k) 39).
Proof.
  intros Hl. destruct (for_range_inv
    (fun i m => m = cells (fun k => if (k <? Z.to_nat i)%nat then s16 (without_intensity ext) else f k) 39)
    0 (Z.of_nat low) (mark_long ext) (cells f 39)) as (m&->&->); [lia|done| |by rewrite Nat2Z.id].
  intros i m Hi ->. destruct (Z_of_nat_complete i) as [j ->]; [lia|]. unfold mark_long. rewrite cells_set by lia.
  eexists. split; [done|]. apply cells_ext. intros k Hk. rewrite Nat2Z.id. replace (Z.to_nat (Z.of_nat j + 1)) with (S j) by lia.
  destruct (Nat.eqb_spec k j), (Nat.ltb_spec k j), (Nat.ltb_spec k (S j)); try done; lia.
Qed.

Lemma mark_short_loop ext f bound (bnd : nat -> nat) (start max : nat) : (start <= max <= 39)%nat ->
  (forall c, (c < 3)%nat -> bound !! c = Some (Z.of_nat (bnd c))) ->
  exists w, for_range (Z.of_nat start) (Z.of_nat max) (mark_short ext bound) (cells f 39, 0) =
  Some (cells (fun k => if (start <=? k)%nat && (k <? max)%nat && (k <? bnd ((k - start) mod 3))%nat
                        then s16 (without_intensity ext) else f k) 39, w).
Proof.
  intros Hm Hb. destruct (for_range_inv
    (fun i '(m, w) => m = cells (fun k => if (start <=? k)%nat && (k <? Z.to_nat i)%nat && (k <? bnd ((k - start) mod 3))%nat
        then s16 (without_intensity ext) else f k) 39 /\ w = Z.of_nat ((Z.to_nat i - start) mod 3))
    (Z.of_nat start) (Z.of_nat max) (mark_short ext bound) (cells f 39, 0)) as ([m w]&->&->&_); [lia| | |].
  - rewrite Nat2Z.id, Nat.sub_diag. split; [|done]. apply cells_ext. intros k Hk.
    destruct (Nat.leb_spec start k), (Nat.ltb_spec k start); try done; lia.
  - intros i [m w] Hi (->&->). destruct (Z_of_nat_complete i) as [j ->]; [lia|]. rewrite Nat2Z.id.
    replace (Z.to_nat (Z.of_nat j + 1)) with (S j) by lia.
    assert (((j - start) mod 3) < 3)%nat as H3 by ndiv.
    assert ((Z.of_nat ((j - start) mod 3) + 1) mod 3 = Z.of_nat ((S j - start) mod 3)) as Ew by ndiv.
    unfold mark_short. rewrite aget_lookup, Nat2Z.id, Hb by lia. cbn [mbind option_bind]. unfold mark_long.
    destruct (Z.ltb_spec (Z.of_nat j) (Z.of_nat (bnd ((j - start) mod 3)%nat))) as [H|H].
    + rewrite cells_set by lia. cbn [mbind option_bind]. eexists. split; [done|]. split; [|done]. apply cells_ext. intros k Hk.
      destruct (Nat.leb_spec start k), (Nat.ltb_spec k j), (Nat.ltb_spec k (S j)), (Nat.eqb_spec k j) as [->|]; try done; try lia;
        rewrite ?(proj2 (Nat.leb_le start j)), ?(proj2 (Nat.ltb_lt j (S j))), ?(proj2 (Nat.ltb_lt j _)) by lia; done.
    + cbn [mbind option_bind]. eexists. split; [done|]. split; [|done]. apply cells_ext. intros k Hk.
      destruct (Nat.leb_spec start k), (Nat.ltb_spec k j), (Nat.ltb_spec k (S j)), (Nat.eqb_spec k j) as [->|]; try done; try lia.
      rewrite (proj2 (Nat.ltb_ge j (bnd _))) by lia. by rewrite !andb_false_r.
  - eexists. rewrite Nat2Z.id. done.
Qed.

(** The number of long bands. *)
Definition stereo_long (c : channel) (widths : list Z) : nat :=
  if block_type c =? 2 then long_count c widths else length widths.

Lemma left_right_spec right widths nlong b : left_right right widths nlong b = true <->
  above right widths (fun k => (b < nlong)%nat \/ ((k - b) mod 3 = 0)%nat) b (length widths).
Proof.
  unfold left_right, above. rewrite existsb_exists. split.
  - intros (k&Hk%in_seq&H). apply andb_true_iff in H as [[H%Nat.ltb_lt|H%Nat.eqb_eq]%orb_true_iff Hz]; exists k; auto with lia.
  - intros (k&Hk&H&Hz). exists k. split; [apply in_seq; lia|]. rewrite Hz, andb_true_r. apply orb_true_iff.
    destruct H as [H|H]; [left; by apply Nat.ltb_lt|right; by apply Nat.eqb_eq].
Qed.

Lemma above_impl right widths (rel rel' : nat -> Prop) i m m' :
  above right widths rel i m -> (m <= m')%nat -> (forall k, (i <= k < m)%nat -> rel k -> rel' k) -> above right widths rel' i m'.
Proof. intros (k&Hk&Hr&Hz) Hm H. exists k. split; [lia|]. auto. Qed.

(** A decision that agrees with [left_right]. *)
Lemma left_right_bool right widths nlong b (d : bool) :
  (d = true <-> above right widths (fun k => (b < nlong)%nat \/ ((k - b) mod 3 = 0)%nat) b (length widths)) ->
  d = left_right right widths nlong b.
Proof. intros H. pose proof (left_right_spec right widths nlong b). apply eq_bool_prop_intro. rewrite !Is_true_true. tauto. Qed.

Section Modes.
Variables (right widths : list Z) (c : channel).
Hypotheses (Hw : widths_ok widths) (Hr : length right = 576%nat) (Hs : block_type c = 2 -> short_ok c widths).

Lemma offset_end : band_offset widths (length widths) = 576.
Proof. pose proof (offset_split widths Hw (length widths)) as H. rewrite drop_all in H. change (sum []) with 0 in H. lia. Qed.

Lemma long_limit n b : (b <= n <= length widths)%nat -> (band_offset widths b <? band_offset widths n) = (b <? n)%nat.
Proof.
  intros Hb. destruct (Nat.ltb_spec b n) as [H|H].
  - apply Z.ltb_lt. assert (forall k, (b + k < length widths)%nat -> band_offset widths b < band_offset widths (b + S k)) as HS.
    { induction k as [|k IH]; intros Hk.
      - replace (b + 1)%nat with (S b) by lia. destruct (width_get widths Hw b) as (w&E&_&Hw0&_); [lia|].
        rewrite (offset_S _ _ _ E). lia.
      - specialize (IH ltac:(lia)). replace (b + S (S k))%nat with (S (b + S k)) by lia.
        destruct (width_get widths Hw (b + S k)) as (w&E&_&Hw0&_); [lia|]. rewrite (offset_S _ _ _ E). lia. }
    specialize (HS (n - S b)%nat ltac:(lia)). by replace (b + S (n - S b))%nat with n in HS by lia.
  - apply Z.ltb_ge. by replace b with n by lia.
Qed.

(** The long bands in front of a short block. *)
Lemma start_ok : block_type c = 2 -> (long_count c widths <= length widths)%nat /\
  (if bitset (ch_flags c) mixed_block_flag then band_offset widths (long_count c widths) = 36
   else long_count c widths = 0%nat).
Proof.
  intros Hb. destruct (Hs Hb) as [_ [Hl _] _]. unfold long_count, first_subband in *. unfold band_offset.
  destruct (bitset _ _); [|split; [lia|done]]. split; [|done]. clear. generalize 36.
  induction widths as [|w ws IH]; intros z; cbn; [done|]. destruct (0 <? z); [|lia]. specialize (IH (z - w)). lia.
Qed.

Lemma long_part : block_type c = 2 -> exists low : nat,
  (if bitset (ch_flags c) mixed_block_flag then
     while_loop 37 (fun '(_, l, _) => l <? 36) (scan_long right widths) (0, 0, 0)
   else Some (0, 0, 0)) = Some (Z.of_nat (long_count c widths), band_offset widths (long_count c widths), Z.of_nat low) /\
  (low <= long_count c widths)%nat /\ forall i, (i < low)%nat <-> above right widths (fun _ => True) i (long_count c widths).
Proof.
  intros Hb. destruct (start_ok Hb) as [Hn Hlim]. pose proof (Hs Hb) as [_ [_ H8] _].
  destruct (bitset _ _).
  - destruct (scan_long_loop right widths Hw Hr 36 (long_count c widths) 37) as (low&E&H1&H2); [done|lia| |by exists low].
    intros b Hb'. rewrite <- Hlim. apply long_limit. lia.
  - rewrite Hlim. exists 0%nat. split; [done|]. split; [lia|]. intros i. split; [lia|]. intros (k&?&_). lia.
Qed.

Lemma modes_long ext f : block_type c <> 2 -> exists m, intensity_modes right widths c ext (cells f 39) = Some m /\
  m = cells (fun b => if left_right right widths (stereo_long c widths) b then s16 (without_intensity ext) else f b) 39.
Proof.
  intros Hb. unfold intensity_modes, stereo_long. apply Z.eqb_neq in Hb. rewrite Hb. pose proof (wo_length _ Hw).
  destruct (scan_long_loop right widths Hw Hr 576 (length widths) 577) as (low&->&Hl&Hsep); [lia|lia| |].
  - intros b Hb'. rewrite <- offset_end. apply long_limit. lia.
  - cbn [mbind option_bind]. rewrite mark_long_loop by lia. eexists. split; [done|]. apply cells_ext. intros b _.
    rewrite <- (left_right_bool _ _ _ _ (b <? low)%nat); [done|]. rewrite Nat.ltb_lt, Hsep. split; intros H'.
    + apply (above_impl _ _ _ _ _ _ _ H'); [done|]. intros k Hk _. lia.
    + by apply (above_impl _ _ _ _ _ _ _ H').
Qed.

Lemma modes_short ext f : block_type c = 2 -> exists m, intensity_modes right widths c ext (cells f 39) = Some m /\
  m = cells (fun b => if left_right right widths (stereo_long c widths) b then s16 (without_intensity ext) else f b) 39.
Proof.
  intros Hb. unfold intensity_modes, stereo_long. rewrite Hb. change (2 =? 2) with true. cbv iota.
  destruct (start_ok Hb) as [Hn Hlim]. destruct (long_part Hb) as (low&->&Hl&Hlow). cbn [mbind option_bind].
  pose proof (wo_length _ Hw). set (start := long_count c widths) in *. set (nb := length widths) in *.
  assert ((if bitset (ch_flags c) mixed_block_flag then Z.of_nat start else 0) = Z.of_nat start) as ->
    by (destruct (bitset _ _); [done|by rewrite Hlim]).
  destruct (scan_short_loop right widths Hw Hr start Hn) as (max&bound&->&(mx&->&Hmx&Hmax)&Hbl&Hbnd). cbn [mbind option_bind].
  set (low' := if Z.of_nat mx =? 0 then low else start).
  assert ((if Z.of_nat mx =? 0 then Z.of_nat low else Z.of_nat start) = Z.of_nat low') as -> by (unfold low'; by case_test).
  assert (low' <= start)%nat as Hl' by (unfold low'; case_test; lia).
  rewrite mark_long_loop by lia. cbn [mbind option_bind].
  set (bnd := fun c => Z.to_nat (nth c bound 0)).
  assert (forall c, (c < 3)%nat -> bound !! c = Some (Z.of_nat (bnd c)) /\
    forall i, (i < bnd c)%nat <-> above right widths (window_of start c) i nb) as HB.
  { intros v Hv. destruct (Hbnd v Hv) as (bc&E&_&Hs'). unfold bnd. rewrite (nth_lookup_Some _ _ _ _ E), Nat2Z.id. auto. }
  assert (exists w, for_range (Z.of_nat start) (Z.of_nat mx) (mark_short ext bound)
    (cells (fun k => if (k <? low')%nat then s16 (without_intensity ext) else f k) 39, 0) =
    Some (cells (fun k => if (start <=? k)%nat && (k <? mx)%nat && (k <? bnd ((k - start) mod 3))%nat
       then s16 (without_intensity ext) else if (k <? low')%nat then s16 (without_intensity ext) else f k) 39, w)) as (w&->).
  { destruct (decide (start <= mx)%nat).
    - apply mark_short_loop; [lia|]. intros v Hv. by apply HB.
    - exists 0. rewrite for_range_empty by lia. do 2 f_equal. apply cells_ext. intros k _.
      destruct (Nat.leb_spec start k), (Nat.ltb_spec k mx); try done; lia. }
  cbn [mbind option_bind]. eexists. split; [done|]. apply cells_ext. intros b _.
  rewrite <- (left_right_bool _ _ _ _ ((start <=? b)%nat && (b <? mx)%nat && (b <? bnd ((b - start) mod 3))%nat || (b <? low')%nat)).
  { by destruct (_ && _), (b <? low')%nat. }
  assert ((b - start) mod 3 < 3)%nat as Hc3 by ndiv. destruct (HB _ Hc3) as [_ HB'].
  rewrite orb_true_iff, !andb_true_iff, Nat.leb_le, !Nat.ltb_lt, HB'. split.
  - intros [[[H1 H2] H3]|H1].
    + apply (above_impl _ _ _ _ _ _ _ H3); [done|]. intros k Hk [H4 H5]. right. ndiv.
    + unfold low' in H1. destruct (Z.eqb_spec (Z.of_nat mx) 0) as [Hz|Hz].
      * apply (above_impl _ _ _ _ _ _ _ (proj1 (Hlow b) H1)); [done|]. intros k Hk _. lia.
      * destruct (proj1 (Hmax 0%nat) ltac:(lia)) as (k&Hk&Hk'&Hkz). exists k. split; [lia|]. auto.
  - intros (k&Hk&Hrel&Hz). destruct (decide (start <= k)%nat) as [Hsk|Hsk].
    + assert (k < mx)%nat as Hkm by (apply (Hmax k); by exists k; auto with lia).
      destruct (decide (start <= b)%nat) as [Hsb|Hsb].
      * left. split; [lia|]. exists k. split; [done|]. split; [|done]. split; [done|].
        destruct Hrel as [Hrel|Hrel]; [lia|]. ndiv.
      * right. unfold low'. rewrite (proj2 (Z.eqb_neq _ 0)) by lia. lia.
    + right. unfold low'. case_test; [|lia]. apply Hlow. exists k. auto with lia.
Qed.

Lemma modes_spec ext f : intensity_modes right widths c ext (cells f 39) =
  Some (cells (fun b => if left_right right widths (stereo_long c widths) b then s16 (without_intensity ext) else f b) 39).
Proof.
  destruct (decide (block_type c = 2)) as [H|H]; [destruct (modes_short ext f H) as (m&->&->)|
    destruct (modes_long ext f H) as (m&->&->)]; done.
Qed.
End Modes.

(** ** The passes over the bands *)

(** The two channels of a list of pairs of lines. *)
Definition split_channels (ps : list (Z * Z)) : list Z * list Z := (map fst ps, map snd ps).

Lemma pair_get (ps : list (Z * Z)) j p : ps !! j = Some p -> aget (map fst ps) (Z.of_nat j) = Some (fst p) /\
  aget (map snd ps) (Z.of_nat j) = Some (snd p).
Proof. intros E. rewrite !aget_lookup, Nat2Z.id, !list_lookup_fmap, E by lia. done. Qed.

Lemma pair_set (ps : list (Z * Z)) j p x y : ps !! j = Some p ->
  aset (map fst ps) (Z.of_nat j) x = Some (map fst (<[j:=(x, y)]> ps)) /\
  aset (map snd ps) (Z.of_nat j) y = Some (map snd (<[j:=(x, y)]> ps)).
Proof.
  intros E. apply lookup_lt_Some in E. rewrite !aset_Some, Nat2Z.id by (rewrite length_map; lia).
  split; f_equal; symmetry; [apply (list_fmap_insert fst ps j (x, y))|apply (list_fmap_insert snd ps j (x, y))].
Qed.

(** A channel that keeps its line. *)
Lemma pair_keep (ps : list (Z * Z)) j p y : ps !! j = Some p -> map fst (<[j:=(fst p, y)]> ps) = map fst ps.
Proof.
  intros E. change (fst <$> <[j:=(fst p, y)]> ps = fst <$> ps). rewrite list_fmap_insert, list_insert_id; [done|].
  by rewrite list_lookup_fmap, E.
Qed.

(** [body] replaces line [j] by [g]. *)
Definition line_step (body : Z -> list Z * list Z -> option (list Z * list Z)) (g : Z * Z -> Z * Z) : Prop :=
  forall ps j p, ps !! j = Some p -> body (Z.of_nat j) (split_channels ps) = Some (split_channels (<[j:=g p]> ps)).

Lemma lines_loop body g pre n : forall mid post l lo, line_step body g -> length mid = n -> l = zlen pre ->
  for_loop n lo (fun i => body (l - lo + i)) (split_channels (pre ++ mid ++ post)) =
  Some (split_channels (pre ++ map g mid ++ post)).
Proof.
  revert pre. induction n as [|n IH]; intros pre [|p mid] post l lo Hb Hn ->; try discriminate; [done|].
  rewrite for_loop_S. replace (zlen pre - lo + lo) with (zlen pre) by lia. cbn [app map].
  rewrite (Hb _ _ p) by (by rewrite lookup_app_r, Nat.sub_diag by lia). cbn [mbind option_bind].
  rewrite insert_app_r_alt, Nat.sub_diag by lia. cbn [list_insert insert]. change (<[0%nat:=g p]> (p :: mid ++ post)) with (g p :: mid ++ post).
  injection Hn as Hn. pose proof (IH (pre ++ [g p]) mid post (zlen pre + 1) (lo + 1) Hb Hn) as E.
  rewrite <- !app_assoc in E. cbn [app] in E. rewrite <- E by (rewrite length_app; cbn; lia).
  f_equal. replace (zlen pre - lo) with (zlen pre + 1 - (lo + 1)) by lia. done.
Qed.

Lemma lines_spec body g pre mid post l n : line_step body g -> zlen mid = n -> l = zlen pre ->
  for_range 0 n (fun i => body (l + i)) (split_channels (pre ++ mid ++ post)) = Some (split_channels (pre ++ map g mid ++ post)).
Proof.
  intros Hb <- Hl. unfold for_range. rewrite Z.sub_0_r, Nat2Z.id.
  pose proof (lines_loop body g pre (length mid) mid post l 0 Hb eq_refl Hl) as E. by rewrite Z.sub_0_r in E.
Qed.

(** Band [b] on is processed by [f]. *)
Fixpoint per_band (f : nat -> Z * Z -> Z * Z) (b : nat) (ws : list Z) (ps : list (Z * Z)) : list (Z * Z) :=
  match ws with
  | n :: ws => map (f b) (take (Z.to_nat n) ps) ++ per_band f (S b) ws (drop (Z.to_nat n) ps)
  | [] => ps
  end.

Lemma per_band_ext f g ws : forall b ps, (forall k p, (b <= k < b + length ws)%nat -> f k p = g k p) ->
  per_band f b ws ps = per_band g b ws ps.
Proof.
  induction ws as [|n ws IH]; intros b ps H; [done|]. cbn [per_band length] in *. f_equal.
  - apply map_ext. intros p. apply H. lia.
  - apply IH. intros k p Hk. apply H. lia.
Qed.

Lemma per_band_length f ws : forall b ps, length (per_band f b ws ps) = length ps.
Proof.
  induction ws as [|n ws IH]; intros b ps; [done|]. cbn [per_band]. rewrite length_app, length_map, IH, <- length_app, take_drop. done.
Qed.

Lemma per_band_compose f g ws : forall b ps, Forall width_ok ws -> sum ws = zlen ps ->
  per_band g b ws (per_band f b ws ps) = per_band (fun k p => g k (f k p)) b ws ps.
Proof.
  induction ws as [|n ws IH]; intros b ps Hw Hs; [done|]. cbn [per_band]. rewrite sum_cons in Hs.
  apply Forall_cons in Hw as [[Hn _] Hw]. pose proof (sum_nonneg ws Hw).
  assert (length (map (f b) (take (Z.to_nat n) ps)) = Z.to_nat n) as Hl by (rewrite length_map, length_take; lia).
  rewrite take_app_length', drop_app_length' by done. rewrite IH by (done || rewrite length_drop; lia). f_equal.
  by rewrite map_map.
Qed.

Lemma per_band_id ws : forall b ps, per_band (fun _ p => p) b ws ps = ps.
Proof. induction ws as [|n ws IH]; intros b ps; [done|]. cbn [per_band]. by rewrite map_id, IH, take_drop. Qed.

(** The modes after the bands before [b]. *)
Definition modes_at (M M' : nat -> Z) (b : nat) : list Z := cells (fun k => if (k <? b)%nat then M' k else M k) 39.

Section Pass.
Variables (widths : list Z) (step : (list Z * list Z) * list Z * Z * Z -> option ((list Z * list Z) * list Z * Z * Z)).
Variables (M M' : nat -> Z) (f : nat -> Z * Z -> Z * Z).
Hypothesis Hw : widths_ok widths.

(** A step processes its band by [f] and replaces its mode. *)
Hypothesis Hstep : forall b n pre mid post, widths !! b = Some n -> zlen mid = n -> zlen pre = band_offset widths b ->
  step (split_channels (pre ++ mid ++ post), modes_at M M' b, Z.of_nat b, zlen pre) =
  Some (split_channels (pre ++ map (f b) mid ++ post), modes_at M M' (S b), Z.of_nat (S b), zlen pre + n).

Lemma pass_loop ws : forall (fuel b : nat) pre ps, drop b widths = ws -> (b <= length widths)%nat -> zlen pre = band_offset widths b ->
  zlen ps = sum ws -> (length ws < fuel)%nat ->
  while_loop fuel (fun '(_, _, _, l) => l <? 576) step (split_channels (pre ++ ps), modes_at M M' b, Z.of_nat b, zlen pre) =
  Some (split_channels (pre ++ per_band f b ws ps), modes_at M M' (length widths), zlen widths, 576).
Proof.
  induction ws as [|n ws IH]; intros [|fuel] b pre ps Hd Hb Hp Hs Hf; cbn [length] in Hf; try lia;
    rewrite while_loop_S; cbv beta iota; rewrite (widths_end widths Hw b) by done.
  - assert (b = length widths) as -> by (pose proof (length_drop widths b) as E; rewrite Hd in E; cbn in E; lia).
    rewrite Nat.ltb_irrefl, Hp. pose proof (offset_split widths Hw (length widths)) as E. rewrite Hd in E.
    change (sum []) with 0 in E. cbn [per_band]. do 2 f_equal. lia.
  - assert (widths !! b = Some n) as En by (rewrite <- (Nat.add_0_r b), <- lookup_drop, Hd; done).
    assert (b < length widths)%nat as Hlt by (by eapply lookup_lt_Some).
    rewrite (proj2 (Nat.ltb_lt b _)) by done.
    assert (drop (S b) widths = ws) as Hd' by (rewrite <- Nat.add_1_r, <- drop_drop, Hd; done).
    destruct (width_get widths Hw b Hlt) as (n'&En'&_&Hn&_). rewrite En in En'. injection En' as <-.
    rewrite sum_cons in Hs. assert (0 <= sum ws) as H0.
    { rewrite <- Hd'. apply sum_nonneg, Forall_drop, Hw. }
    rewrite <- (take_drop (Z.to_nat n) ps) at 1.
    assert (zlen (take (Z.to_nat n) ps) = n) as Ht by (rewrite length_take; lia).
    rewrite (Hstep b n) by done. cbn [mbind option_bind per_band].
    assert (zlen pre + n = zlen (pre ++ map (f b) (take (Z.to_nat n) ps))) as El by (rewrite length_app, length_map; lia).
    rewrite El, !app_assoc. apply IH; [done|lia| |rewrite length_drop; lia|lia].
    rewrite <- El, Hp. by rewrite (offset_S widths b n).
Qed.

Lemma pass_spec ps : length ps = 576%nat ->
  bands_loop step (split_channels ps) (cells M 39) = Some (split_channels (per_band f 0 widths ps), modes_at M M' (length widths)).
Proof.
  intros Hp. unfold bands_loop. pose proof (wo_length _ Hw). pose proof (wo_sum _ Hw).
  change (cells M 39) with (modes_at M M' 0).
  pose proof (pass_loop widths 577 0 [] ps eq_refl ltac:(lia) eq_refl ltac:(lia) ltac:(lia)) as E.
  change (Z.of_nat 0) with 0 in E. change (zlen (@nil (Z * Z))) with 0 in E. cbn [app] in E. by rewrite E.
Qed.
End Pass.

(** ** What a line becomes *)

Section Lines.
Variable W : Z.

Definition lsf_pair (lsf_scale : list Z) (is_pos : Z) (p : Z * Z) : Z * Z :=
  if is_pos =? 0 then (fst p, fst p)
  else let o := mad_f_mul W (fst p) (nth (Z.to_nat ((is_pos - 1) / 2)) lsf_scale 0) in
       if bitset is_pos 1 then (o, fst p) else (fst p, o).

Definition is_pair (is_pos : Z) (p : Z * Z) : Z * Z :=
  (mad_f_mul W (fst p) (nth (Z.to_nat is_pos) is_table 0), mad_f_mul W (fst p) (nth (Z.to_nat (6 - is_pos)) is_table 0)).

Definition ms_pair (invsqrt2 : Z) (p : Z * Z) : Z * Z :=
  (mad_f_mul W (s32 (fst p + snd p)) invsqrt2, mad_f_mul W (s32 (fst p - snd p)) invsqrt2).

Lemma nth_get (l : list Z) i : 0 <= i < zlen l -> aget l i = Some (nth (Z.to_nat i) l 0).
Proof.
  intros H. destruct (lookup_lt_is_Some_2 l (Z.to_nat i)) as [x E]; [lia|].
  by rewrite aget_lookup, E, (nth_lookup_Some _ _ _ _ E) by lia.
Qed.

Lemma lsf_line_step scale pos : length scale = 15%nat -> 0 <= pos <= 30 -> line_step (lsf_line W scale pos) (lsf_pair scale pos).
Proof.
  intros Hl Hp ps j p E. unfold lsf_line, lsf_pair, split_channels. rewrite (proj1 (pair_get ps j p E)). cbn [mbind option_bind].
  set (k := mad_f_mul W (fst p) (nth (Z.to_nat ((pos - 1) / 2)) scale 0)).
  destruct (Z.eqb_spec pos 0) as [->|Hne].
  - rewrite (proj2 (pair_set ps j p (fst p) (fst p) E)). cbn [mbind option_bind]. by rewrite pair_keep.
  - rewrite nth_get by zdiv. cbn [mbind option_bind]. fold k. destruct (bitset pos 1).
    + destruct (pair_set ps j p k (fst p) E) as [A B]. rewrite A. cbn [mbind option_bind]. by rewrite B.
    + rewrite (proj2 (pair_set ps j p (fst p) k E)). cbn [mbind option_bind]. by rewrite pair_keep.
Qed.

Lemma is_line_step pos : 0 <= pos < 7 -> line_step (is_line W pos) (is_pair pos).
Proof.
  intros Hp ps j p E. unfold is_line, is_pair, split_channels. rewrite (proj1 (pair_get ps j p E)). cbn [mbind option_bind].
  rewrite (nth_get is_table pos), (nth_get is_table (6 - pos)) by (cbn [is_table length]; lia). cbn [mbind option_bind].
  match goal with |- context [<[j:=(?x, ?y)]> ps] => destruct (pair_set ps j p x y E) as [A B] end. rewrite A. cbn [mbind option_bind].
  by rewrite B.
Qed.

Lemma ms_line_step k : line_step (ms_line W k) (ms_pair k).
Proof.
  intros ps j p E. unfold ms_line, ms_pair, split_channels. destruct (pair_get ps j p E) as [-> ->]. cbn [mbind option_bind].
  match goal with |- context [<[j:=(?x, ?y)]> ps] => destruct (pair_set ps j p x y E) as [A B] end. rewrite A. cbn [mbind option_bind].
  by rewrite B.
Qed.
End Lines.

Lemma modes_get M M' b : (b < 39)%nat -> aget (modes_at M M' b) (Z.of_nat b) = Some (M b).
Proof. intros. unfold modes_at. rewrite aget_lookup, Nat2Z.id, cells_get, Nat.ltb_irrefl by lia. done. Qed.

Lemma modes_same M M' b : M' b = M b -> modes_at M M' b = modes_at M M' (S b).
Proof.
  intros E. apply cells_ext. intros k _. destruct (Nat.ltb_spec k b), (Nat.ltb_spec k (S b)); try done; try lia.
  assert (k = b) as -> by lia. done.
Qed.

Lemma modes_set M M' b : (b < 39)%nat -> aset (modes_at M M' b) (Z.of_nat b) (M' b) = Some (modes_at M M' (S b)).
Proof.
  intros Hb. unfold modes_at. rewrite cells_set by done. f_equal. apply cells_ext. intros k _.
  destruct (Nat.ltb_spec k b), (Nat.ltb_spec k (S b)), (Nat.eqb_spec k b) as [->|]; try done; lia.
Qed.

Section Passes.
Variables (W : Z) (widths sf : list Z) (M : nat -> Z).
Hypotheses (Hw : widths_ok widths) (HM : forall b, 0 <= M b < 4) (Hsf : length sf = 39%nat) (Hb : bytes_ok sf).

Lemma band_small b n : widths !! b = Some n -> (b < 39)%nat.
Proof. intros H%lookup_lt_Some. pose proof (wo_length _ Hw). lia. Qed.

Lemma width_here b n : widths !! b = Some n -> aget widths (Z.of_nat b) = Some n.
Proof. intros H. by rewrite aget_lookup, Nat2Z.id by lia. Qed.

(** The mode when the position of the band is illegal. *)
Definition checked (legal : nat -> bool) (b : nat) : Z :=
  if bitset (M b) I_STEREO && negb (legal b) then s16 (without_intensity (M b)) else M b.

Definition intensity (legal : nat -> bool) (g : nat -> Z * Z -> Z * Z) (b : nat) (p : Z * Z) : Z * Z :=
  if bitset (M b) I_STEREO && legal b then g b p else p.

Lemma is_pass ps : length ps = 576%nat ->
  let legal b := nth b sf 0 <? 7 in
  bands_loop (is_band W widths sf) (split_channels ps) (cells M 39) =
  Some (split_channels (per_band (intensity legal (fun b => is_pair W (nth b sf 0))) 0 widths ps),
        modes_at M (checked legal) (length widths)).
Proof.
  intros Hp legal. apply pass_spec; [done| |done]. intros b n pre mid post En Hmid Hpre.
  pose proof (band_small b n En) as Hb39. unfold is_band. rewrite (width_here b n En). cbn [mbind option_bind].
  rewrite modes_get by done. cbn [mbind option_bind].
  replace (Z.of_nat b + 1) with (Z.of_nat (S b)) by lia.
  assert (checked legal b = (if bitset (M b) I_STEREO && negb (legal b) then s16 (without_intensity (M b)) else M b)) as Ec by done.
  unfold intensity. destruct (bitset (M b) I_STEREO); cbn [negb andb] in *.
  2: { rewrite <- modes_same by done. by rewrite map_id. }
  rewrite nth_get, Nat2Z.id by lia. cbn [mbind option_bind]. unfold legal in *.
  destruct (Z.ltb_spec (nth b sf 0) 7) as [H7|H7]; cbn [negb] in *.
  - rewrite (proj2 (Z.leb_gt 7 _)) by lia. rewrite <- (modes_same M _ b) by done.
    assert (byte_ok (nth b sf 0)) as [H0 _] by (apply (Forall_nth byte_ok); [done|lia]).
    rewrite (lines_spec _ _ pre mid post _ _ (is_line_step W _ (conj H0 H7))) by done. done.
  - rewrite (proj2 (Z.leb_le 7 _)) by lia. rewrite <- Ec, modes_set by done. cbn [mbind option_bind]. by rewrite map_id.
Qed.

Lemma lsf_pass illegal_pos scale ps : length ps = 576%nat -> length scale = 15%nat -> length illegal_pos = 39%nat ->
  (forall b, (b < length widths)%nat -> nth b illegal_pos 0 = 0 -> nth b sf 0 <= 30) ->
  let legal b := nth b illegal_pos 0 =? 0 in
  bands_loop (lsf_band W widths illegal_pos scale sf) (split_channels ps) (cells M 39) =
  Some (split_channels (per_band (intensity legal (fun b => lsf_pair W scale (nth b sf 0))) 0 widths ps),
        modes_at M (checked legal) (length widths)).
Proof.
  intros Hp Hsc Hil Hpos legal. apply pass_spec; [done| |done]. intros b n pre mid post En Hmid Hpre.
  pose proof (band_small b n En) as Hb39. unfold lsf_band. rewrite (width_here b n En). cbn [mbind option_bind].
  rewrite modes_get by done. cbn [mbind option_bind].
  replace (Z.of_nat b + 1) with (Z.of_nat (S b)) by lia.
  assert (checked legal b = (if bitset (M b) I_STEREO && negb (legal b) then s16 (without_intensity (M b)) else M b)) as Ec by done.
  unfold intensity. destruct (bitset (M b) I_STEREO); cbn [negb andb] in *.
  2: { rewrite <- modes_same by done. by rewrite map_id. }
  rewrite (nth_get illegal_pos), (nth_get sf), Nat2Z.id by lia. cbn [mbind option_bind]. unfold legal in *.
  destruct (Z.eqb_spec (nth b illegal_pos 0) 0) as [H0|H0]; cbn [negb] in *.
  - rewrite <- (modes_same M _ b) by done.
    assert (byte_ok (nth b sf 0)) as [Hpos0 _] by (apply (Forall_nth byte_ok); [done|lia]).
    assert (nth b sf 0 <= 30) as H30 by (apply Hpos; [by eapply lookup_lt_Some|done]).
    rewrite (lines_spec _ _ pre mid post _ _ (lsf_line_step W _ _ Hsc (conj Hpos0 H30))) by done. done.
  - rewrite <- Ec, modes_set by done. cbn [mbind option_bind]. by rewrite map_id.
Qed.

Lemma ms_pass k ps : length ps = 576%nat ->
  bands_loop (ms_band W widths k) (split_channels ps) (cells M 39) =
  Some (split_channels (per_band (fun b p => if M b =? MS_STEREO then ms_pair W k p else p) 0 widths ps), modes_at M M (length widths)).
Proof.
  intros Hp. apply pass_spec; [done| |done]. intros b n pre mid post En Hmid Hpre.
  pose proof (band_small b n En) as Hb39. unfold ms_band. rewrite (width_here b n En). cbn [mbind option_bind].
  rewrite modes_get by done. cbn [mbind option_bind]. rewrite <- modes_same by done.
  replace (Z.of_nat b + 1) with (Z.of_nat (S b)) by lia.
  destruct (M b =? MS_STEREO); cbn [negb].
  - by rewrite (lines_spec _ _ pre mid post _ _ (ms_line_step W k)) by done.
  - by rewrite map_id.
Qed.
End Passes.

(** ** Claims *)

(** The intensity position of band [b] may be used. *)
Definition position_legal (h : mad_header) (ch1 : channel) (illegal_pos : list Z) (b : nat) : bool :=
  if bitset (flags h) MAD_FLAG_LSF_EXT then nth b illegal_pos 0 =? 0 else nth b (scalefac ch1) 0 <? 7.

Definition intensity_pair (W : Z) (h : mad_header) (ch1 : channel) (b : nat) (p : Z * Z) : Z * Z :=
  if bitset (flags h) MAD_FLAG_LSF_EXT
  then lsf_pair W (nth (Z.to_nat (scalefac_compress ch1 mod 2)) is_lsf_table []) (nth b (scalefac ch1) 0) p
  else is_pair W (nth b (scalefac ch1) 0) p.

(** A line of band [b]: intensity if the right channel is zero from here on and the
    position is legal, else middle and side if the header says so. *)
Definition stereo_pair (W : Z) (h : mad_header) (ch1 : channel) (illegal_pos right widths : list Z) (b : nat) (p : Z * Z) : Z * Z :=
  if bitset (mode_extension h) I_STEREO && negb (left_right right widths (stereo_long ch1 widths) b) &&
     position_legal h ch1 illegal_pos b
  then intensity_pair W h ch1 b p
  else if bitset (mode_extension h) MS_STEREO then ms_pair W 0x0b504f33 p else p.

Definition stereo_header (h : mad_header) : mad_header :=
  add_flag (add_flag h (bitset (mode_extension h) I_STEREO) MAD_FLAG_I_STEREO)
    (bitset (mode_extension h) MS_STEREO) MAD_FLAG_MS_STEREO.

Record stereo_ok (h : mad_header) (ch1 : channel) (illegal_pos widths : list Z) : Prop := StereoOk {
  st_ext : 0 <= mode_extension h < 4;
  st_widths : widths_ok widths /\ (block_type ch1 = 2 -> short_ok ch1 widths);
  st_sf : length (scalefac ch1) = 39%nat /\ bytes_ok (scalefac ch1);
  st_positions : bitset (flags h) MAD_FLAG_LSF_EXT = true -> bitset (mode_extension h) I_STEREO = true ->
    length illegal_pos = 39%nat /\
    forall b, (b < length widths)%nat -> nth b illegal_pos 0 = 0 -> nth b (scalefac ch1) 0 <= 30
}.

(** The channels have the same kind of blocks. *)
Definition compatible (ch0 ch1 : channel) : bool :=
  (block_type ch0 =? block_type ch1) && (ch_flags ch0 .& mixed_block_flag =? ch_flags ch1 .& mixed_block_flag).

Lemma flag_kept f m : m .& MAD_FLAG_LSF_EXT = 0 -> bitset (f .| m) MAD_FLAG_LSF_EXT = bitset f MAD_FLAG_LSF_EXT.
Proof. intros H. unfold bitset. by rewrite Z.land_lor_distr_l, H, Z.lor_0_r. Qed.

Lemma modes_init (modes : list Z) ext : length modes = 39%nat -> 0 <= ext < 4 ->
  for_range 0 39 (fun i modes => aset modes i (s16 ext)) modes = Some (cells (fun _ => ext) 39).
Proof.
  intros Hl He. assert (s16 ext = ext) as -> by (apply wraps_small; [lia|change (2 ^ (16 - 1)) with 32768; lia]).
  destruct (for_range_inv (fun i m => m = cells (fun _ => ext) (Z.to_nat i) ++ drop (Z.to_nat i) modes) 0 39
    (fun i modes => aset modes i ext) modes) as (m&->&->); [lia|done| |].
  - intros i m Hi ->. destruct (Z_of_nat_complete i) as [k ->]; [lia|]. rewrite Nat2Z.id.
    rewrite (aset_cells (fun _ => ext)); [|done|done|rewrite length_drop; lia]. eexists. split; [done|].
    replace (Z.to_nat (Z.of_nat k + 1)) with (S k) by lia. by rewrite drop_drop, Nat.add_1_r.
  - by rewrite drop_ge, app_nil_r by lia.
Qed.

Section Correct.
Variables (W : Z) (h : mad_header) (ch0 ch1 : channel) (illegal_pos widths : list Z) (ps : list (Z * Z)).
Hypotheses (Hok : stereo_ok h ch1 illegal_pos widths) (Hps : length ps = 576%nat).

Abbreviation ext := (mode_extension h).
Abbreviation right := (map snd ps).
Abbreviation kept := (left_right right widths (stereo_long ch1 widths)).
Abbreviation legal := (position_legal h ch1 illegal_pos).

(** The modes before and after the positions are checked. *)
Definition mode0 (b : nat) : Z := if kept b then s16 (without_intensity ext) else ext.
Definition mode1 (b : nat) : Z := checked mode0 legal b.

(** The intensity pass. *)
Lemma intensity_stage f : bitset f MAD_FLAG_LSF_EXT = bitset (flags h) MAD_FLAG_LSF_EXT -> bitset ext I_STEREO = true ->
  (modes ← intensity_modes right widths ch1 ext (cells (fun _ => ext) 39);
   (if bitset f MAD_FLAG_LSF_EXT then
      lsf_scale ← aget is_lsf_table (scalefac_compress ch1 .& 0x1);
      bands_loop (lsf_band W widths illegal_pos lsf_scale (scalefac ch1)) (split_channels ps) modes
    else bands_loop (is_band W widths (scalefac ch1)) (split_channels ps) modes)) =
  Some (split_channels (per_band (intensity mode0 legal (intensity_pair W h ch1)) 0 widths ps),
        modes_at mode0 mode1 (length widths)).
Proof.
  intros Ef Ei. destruct Hok as [He [Hw Hs] [Hsf Hsb] Hpos].
  rewrite modes_spec by (done || by rewrite length_map). cbn [mbind option_bind]. rewrite Ef.
  change (cells (fun b => if kept b then s16 (without_intensity ext) else ext) 39) with (cells mode0 39).
  unfold mode1, position_legal, intensity_pair. destruct (bitset (flags h) MAD_FLAG_LSF_EXT) eqn:El.
  - assert (0 <= scalefac_compress ch1 mod 2 < 2) by (apply Z.mod_pos_bound; lia).
    assert (scalefac_compress ch1 .& 0x1 = scalefac_compress ch1 mod 2) as -> by (apply (Z.land_ones _ 1); lia).
    set (i := scalefac_compress ch1 mod 2) in *.
    assert (aget is_lsf_table i = Some (nth (Z.to_nat i) is_lsf_table []) /\ length (nth (Z.to_nat i) is_lsf_table []) = 15%nat)
      as [-> Hl] by (assert (i = 0 \/ i = 1) as [-> | ->] by lia; done). cbn [mbind option_bind].
    destruct (Hpos eq_refl Ei). by apply lsf_pass.
  - apply is_pass; auto.
Qed.

Lemma mode_values : 0 <= ext < 4 -> bitset ext I_STEREO = true ->
  forall b, bitset (mode0 b) I_STEREO = negb (kept b) /\
    (mode1 b =? MS_STEREO) = (bitset ext MS_STEREO && (kept b || negb (legal b))).
Proof.
  intros He Hi b. unfold mode1, checked, mode0. assert (ext = 1 \/ ext = 3) as [E|E].
  { assert (ext = 0 \/ ext = 1 \/ ext = 2 \/ ext = 3) as [E|[E|[E|E]]] by lia; rewrite E in *; auto; discriminate. }
  - rewrite E. by destruct (kept b), (legal b).
  - rewrite E. by destruct (kept b), (legal b).
Qed.

Lemma stereo_spec modes : length modes = 39%nat -> compatible ch0 ch1 = true ->
  III_stereo W (split_channels ps) ch0 ch1 illegal_pos h widths modes =
  Some (MAD_ERROR_NONE, split_channels (per_band (stereo_pair W h ch1 illegal_pos right widths) 0 widths ps), stereo_header h).
Proof.
  intros Hm. intros Hc. pose proof Hok as [He [Hw _] _ _].
  unfold compatible in Hc. apply andb_true_iff in Hc as [Hc1 Hc2]. unfold III_stereo. rewrite Hc1, Hc2. cbn [negb orb].
  rewrite modes_init by done. cbn [mbind option_bind]. unfold stereo_header, add_flag.
  change (aget root_table (3 + -2)) with (Some 0x0b504f33). cbn [mbind option_bind].
  destruct (bitset ext I_STEREO) eqn:Ei.
  - pose proof (intensity_stage (flags h .| MAD_FLAG_I_STEREO) (flag_kept (flags h) MAD_FLAG_I_STEREO eq_refl) Ei) as E.
    change (snd (split_channels ps)) with right. cbn [flags set_flags mbind option_bind] in *.
    destruct (intensity_modes _ _ _ _ _) as [m|]; [|done]. cbn [mbind option_bind] in *. rewrite E. clear E. cbn [mbind option_bind].
    pose proof (mode_values He Ei) as Hmode. destruct (bitset ext MS_STEREO) eqn:Es.
    + unfold modes_at. rewrite (ms_pass W widths (scalefac ch1)) by (done || apply Hok || by rewrite per_band_length). cbn [mbind option_bind].
      rewrite per_band_compose; [|apply Hw|rewrite (wo_sum _ Hw); lia]. do 4 f_equal. apply per_band_ext. intros k p Hk.
      rewrite (proj2 (Nat.ltb_lt k _)) by lia. destruct (Hmode k) as [H0 H1]. unfold intensity, stereo_pair.
      rewrite H0, H1, Ei, Es. cbn [andb]. by destruct (kept k), (legal k).
    + do 4 f_equal. apply per_band_ext. intros k p _. destruct (Hmode k) as [H0 _]. unfold intensity, stereo_pair.
      rewrite H0, Ei, Es. cbn [andb]. by destruct (kept k), (legal k).
  - cbn [mbind option_bind]. destruct (bitset ext MS_STEREO) eqn:Es.
    + rewrite (ms_pass W widths (scalefac ch1)) by (done || apply Hok). cbn [mbind option_bind]. do 4 f_equal. apply per_band_ext. intros k p _. unfold stereo_pair.
      rewrite Ei, Es. cbn [andb].
      assert (ext = 2) as ->; [|done].
      assert (ext = 0 \/ ext = 1 \/ ext = 2 \/ ext = 3) as [E|[E|[E|E]]] by lia; rewrite E in *; auto; discriminate.
    + do 3 f_equal. rewrite <- (per_band_id widths 0 ps) at 1. f_equal. apply per_band_ext. intros k p _. unfold stereo_pair. by rewrite Ei, Es.
Qed.
End Correct.

(** Channels of different kinds are refused before anything is looked at. *)
Lemma stereo_refused W xr ch0 ch1 illegal_pos h widths modes : compatible ch0 ch1 = false ->
  III_stereo W xr ch0 ch1 illegal_pos h widths modes = Some (MAD_ERROR_BADSTEREO, xr, h).
Proof.
  intros Hc. unfold III_stereo. unfold compatible in Hc.
  by destruct (block_type ch0 =? block_type ch1), (ch_flags ch0 .& mixed_block_flag =? ch_flags ch1 .& mixed_block_flag).
Qed.

(** C29: joint stereo.  When the two channels have the same block type and bands of
    the tables, [III_stereo] ends without error inside all its tables, whatever its
    stack arrays held; every line of every scale factor band becomes what
    the mode of its band says: from the band on from which the right channel is zero (in
    a short block: in the same window) and for a legal position the left line scaled by
    the position's two factors, otherwise, when the header says middle and side, the
    scaled sum and difference, and otherwise what it was.  Channels that differ in block
    type are refused and nothing changes. *)
Theorem III_stereo_correct W h ch0 ch1 illegal_pos widths ps modes : length ps = 576%nat -> length modes = 39%nat ->
  stereo_ok h ch1 illegal_pos widths ->
  III_stereo W (split_channels ps) ch0 ch1 illegal_pos h widths modes =
  Some (if compatible ch0 ch1 then
    (MAD_ERROR_NONE, split_channels (per_band (stereo_pair W h ch1 illegal_pos (map snd ps) widths) 0 widths ps),
     stereo_header h)
  else (MAD_ERROR_BADSTEREO, split_channels ps, h)).
Proof.
  intros Hp Hm Hok. destruct (compatible ch0 ch1) eqn:Hc; [by apply (stereo_spec W h ch0)|by apply stereo_refused].
Qed.

Lemma III_stereo_correct_witness :
  let h := MkHeader 3 2 3 0 128000 44100 0 0 0 0 (MkTimer 0 0) in
  let c := MkChannel 0 0 0 0 8 2 [] [] 0 0 (map (fun x => x mod 9) (seqZ 0 39)) in
  let ps := map (fun x => (x * 1000, if x <? 300 then x else 0)) (seqZ 0 576) in
  III_stereo 64 (split_channels ps) c c (repeat 0 39) h sfb_44100_mixed (repeat 7 39) =
  Some (if compatible c c then
    (MAD_ERROR_NONE, split_channels (per_band (stereo_pair 64 h c (repeat 0 39) (map snd ps) sfb_44100_mixed) 0 sfb_44100_mixed ps),
     stereo_header h)
  else (MAD_ERROR_BADSTEREO, split_channels ps, h)).
Proof.
  intros h c ps. apply III_stereo_correct; [reflexivity..|]. split.
  - split; [apply Z.leb_le|apply Z.ltb_lt]; reflexivity.
  - split; [apply widths_check_ok; vm_compute; reflexivity|intros _]. apply blocks_check_ok. vm_compute. reflexivity.
  - split; [reflexivity|]. apply (bool_decide_unpack _). vm_compute. exact I.
  - intros H. discriminate H.
Defined.
