(* ===== verification/MadImdct.v ===== *)
(** The inverse transforms of MPEG Layer III from [src/libmad/layer3.c]: the fast
    36-point transform of long blocks, the 12-point one of short blocks, their windows,
    the overlap with the previous granule and the frequency inversion.

    The transforms are written over an interface [Fixed] of the fixed-point operations they
    use.  Its instance [fixed_words] is the arithmetic of the code; a second one, affine
    forms with error bounds, computes what linear map a transform approximates, and a
    logical relation between the two makes that a theorem about the code. *)
From Stdlib Require Import ZifyNat.
From S2P Require Import Prelude MadRequantize MadSpectrum.

(** ** Tables *)

Definition imdct_s : list (list Z) := [
  [0x09bd7ca0; - 0x0ec835e8; - 0x0216a2a2; 0x0fdcf549; - 0x061f78aa; - 0x0cb19346];
  [- 0x0cb19346; 0x061f78aa; 0x0fdcf549; 0x0216a2a2; - 0x0ec835e8; - 0x09bd7ca0];
  [0x061f78aa; - 0x0ec835e8; 0x0ec835e8; - 0x061f78aa; - 0x061f78aa; 0x0ec835e8];
  [- 0x0ec835e8; - 0x061f78aa; 0x061f78aa; 0x0ec835e8; 0x0ec835e8; 0x061f78aa];
  [0x0216a2a2; - 0x061f78aa; 0x09bd7ca0; - 0x0cb19346; 0x0ec835e8; - 0x0fdcf549];
  [- 0x0fdcf549; - 0x0ec835e8; - 0x0cb19346; - 0x09bd7ca0; - 0x061f78aa; - 0x0216a2a2]].

Definition window_l : list Z := [
  0x00b2aa3e; 0x0216a2a2; 0x03768962; 0x04cfb0e2; 0x061f78aa; 0x07635284; 0x0898c779; 0x09bd7ca0; 0x0acf37ad; 0x0bcbe352;
  0x0cb19346; 0x0d7e8807; 0x0e313245; 0x0ec835e8; 0x0f426cb5; 0x0f9ee890; 0x0fdcf549; 0x0ffc19fd; 0x0ffc19fd; 0x0fdcf549;
  0x0f9ee890; 0x0f426cb5; 0x0ec835e8; 0x0e313245; 0x0d7e8807; 0x0cb19346; 0x0bcbe352; 0x0acf37ad; 0x09bd7ca0; 0x0898c779;
  0x07635284; 0x061f78aa; 0x04cfb0e2; 0x03768962; 0x0216a2a2; 0x00b2aa3e].

Definition window_s : list Z := [
  0x0216a2a2; 0x061f78aa; 0x09bd7ca0; 0x0cb19346; 0x0ec835e8; 0x0fdcf549; 0x0fdcf549; 0x0ec835e8; 0x0cb19346; 0x09bd7ca0;
  0x061f78aa; 0x0216a2a2].

(** [scale] of [sdctII] and of [dctIV]. *)
Definition sdct_scale : list Z := [
  0x1fe0d3b4; 0x1ee8dd47; 0x1d007930; 0x1a367e59; 0x16a09e66; 0x125abcf8; 0x0d8616bc; 0x08483ee1; 0x02c9fad7].

Definition dct_scale : list Z := [
  0x1ff833fa; 0x1fb9ea93; 0x1f3dd120; 0x1e84d969; 0x1d906bcf; 0x1c62648b; 0x1afd100f; 0x1963268b; 0x1797c6a4; 0x159e6f5b;
  0x137af940; 0x11318ef3; 0x0ec6a507; 0x0c3ef153; 0x099f61c5; 0x06ed12c5; 0x042d4544; 0x0165547c].

Definition c0 : Z := 0x1f838b8d.
Definition c1 : Z := 0x1bb67ae8.
Definition c2 : Z := 0x18836fa3.
Definition c3 : Z := 0x1491b752.
Definition c4 : Z := 0x0af1d43a.
Definition c5 : Z := 0x058e86a0.
Definition c6 : Z := - 0x1e11f642.

(** ** Fixed-point operations *)

(** What the transforms do with a [mad_fixed_t]; [fx_acc] is a chain of [MAD_F_ML0],
    [MAD_F_MLA] and [MAD_F_MLZ]. *)
Class Fixed (T : Type) := {
  fx_zero : T;
  fx_add : T -> T -> T;
  fx_sub : T -> T -> T;
  fx_neg : T -> T;
  fx_half : T -> T;
  fx_mul : T -> Z -> T;
  fx_acc : list (T * Z) -> T
}.

Definition fixed_words (W : Z) : Fixed Z := {|
  fx_zero := 0;
  fx_add x y := s32 (x + y);
  fx_sub x y := s32 (x - y);
  fx_neg x := s32 (- x);
  fx_half x := Z.quot x 2;
  fx_mul := mad_f_mul W;
  fx_acc l := match l with
              | [] => 0
              | (x, c) :: l => MAD_F_MLZ (fold_left (fun lo '(x, c) => MAD_F_MLA W lo x c) l (MAD_F_ML0 W x c))
              end
|}.

Section Transforms.
Context {T : Type} {F : Fixed T}.

Local Infix "+." := fx_add (at level 50, left associativity).
Local Infix "-." := fx_sub (at level 50, left associativity).
Local Infix "*." := fx_mul (at level 40, left associativity).
Local Notation "2* x" := (fx_add x x) (at level 35).

(** The values written to [y[0]], [y[2]], ..., [y[16]]. *)
Definition fastsdct_values (x0 x1 x2 x3 x4 x5 x6 x7 x8 : T) : list T :=
  let a0 := x3 +. x5 in
  let a1 := x3 -. x5 in
  let a2 := x6 +. x2 in
  let a3 := x6 -. x2 in
  let a4 := x1 +. x7 in
  let a5 := x1 -. x7 in
  let a6 := x8 +. x0 in
  let a7 := x8 -. x0 in
  let a8 := a0 +. a2 in
  let a9 := a0 -. a2 in
  let a10 := a0 -. a6 in
  let a11 := a2 -. a6 in
  let a12 := a8 +. a6 in
  let a13 := a1 -. a3 in
  let a14 := a13 +. a7 in
  let a15 := a3 +. a7 in
  let a16 := a1 -. a7 in
  let a17 := a1 +. a3 in
  let m0 := a17 *. (- c3) in
  let m1 := a16 *. (- c0) in
  let m2 := a15 *. (- c4) in
  let m3 := a14 *. (- c1) in
  let m4 := a5 *. (- c1) in
  let m5 := a11 *. (- c6) in
  let m6 := a10 *. (- c5) in
  let m7 := a9 *. (- c2) in
  let a18 := x4 +. a4 in
  let a19 := (2* x4) -. a4 in
  let a20 := a19 +. m5 in
  let a21 := a19 -. m5 in
  let a22 := a19 +. m6 in
  let a23 := m4 +. m2 in
  let a24 := m4 -. m2 in
  let a25 := m4 +. m1 in
  [a18 +. a12; m0 -. a25; m7 -. a20; m3; a21 -. m6; a24 -. m1; a12 -. (2* a18); a23 +. m0; a22 +. m7].

(** [fastsdct(x, &y[o])] *)
Definition fastsdct (x y : list T) (o : Z) : option (list T) :=
  x0 ← aget x 0; x1 ← aget x 1; x2 ← aget x 2; x3 ← aget x 3; x4 ← aget x 4;
  x5 ← aget x 5; x6 ← aget x 6; x7 ← aget x 7; x8 ← aget x 8;
  let v := fastsdct_values x0 x1 x2 x3 x4 x5 x6 x7 x8 in
  for_range 0 9 (fun i y => r ← aget v i; aset y (o + 2 * i) r) y.

(** [tmp[9]] and [X[18]] come in uninitialised; the loops that the code unrolls three or four
    times run one step at a time. *)
Definition sdctII (x X tmp : list T) : option (list T) :=
  tmp ← for_range 0 9 (fun i tmp =>
    a ← aget x i; b ← aget x (18 - i - 1); aset tmp i (a +. b)) tmp;
  X ← fastsdct tmp X 0;
  tmp ← for_range 0 9 (fun i tmp =>
    a ← aget x i; b ← aget x (18 - i - 1); c ← aget sdct_scale i; aset tmp i ((a -. b) *. c)) tmp;
  X ← fastsdct tmp X 1;
  for_range 0 8 (fun j X =>
    let i := 3 + 2 * j in
    a ← aget X i; b ← aget X (i - 2); aset X i (a -. b)) X.

Definition dctIV (y X tmp tmp9 : list T) : option (list T) :=
  tmp ← for_range 0 18 (fun i tmp => a ← aget y i; c ← aget dct_scale i; aset tmp i (a *. c)) tmp;
  X ← sdctII tmp X tmp9;
  a ← aget X 0;
  X ← aset X 0 (fx_half a);
  X ← for_range 1 17 (fun i X => a ← aget X i; b ← aget X (i - 1); aset X i (fx_half a -. b)) X;
  a ← aget X 17;
  b ← aget X 16;
  aset X 17 (fx_half a -. b).

(** The arrays of the stack frames of [imdct36], [dctIV] and [sdctII]. *)
Record imdct_stack := ImdctStack { stack_X : list T; stack_tmp : list T; stack_tmp9 : list T }.

Definition imdct36 (x y : list T) (st : imdct_stack) : option (list T) :=
  tmp ← dctIV x (stack_X st) (stack_tmp st) (stack_tmp9 st);
  y ← for_range 0 9 (fun i y => a ← aget tmp (9 + i); aset y i a) y;
  y ← for_range 9 27 (fun i y => a ← aget tmp (36 - (9 + i) - 1); aset y i (fx_neg a)) y;
  for_range 27 36 (fun i y => a ← aget tmp (i - 27); aset y i (fx_neg a)) y.

(** [z[i] = mad_f_mul(z[i], w[j])] *)
Definition window_line (w : list Z) (i j : Z) (z : list T) : option (list T) :=
  a ← aget z i; c ← aget w j; aset z i (a *. c).

Definition clear_line (i : Z) (z : list T) : option (list T) := aset z i fx_zero.

Definition III_imdct_l (X z : list T) (block_type : Z) (st : imdct_stack) : option (list T) :=
  z ← imdct36 X z st;
  if block_type =? 0 then for_range 0 36 (fun i => window_line window_l i i) z
  else if block_type =? 1 then
    z ← for_range 0 18 (fun i => window_line window_l i i) z;
    z ← for_range 24 30 (fun i => window_line window_s i (i - 18)) z;
    for_range 30 36 clear_line z
  else if block_type =? 3 then
    z ← for_range 0 6 clear_line z;
    z ← for_range 6 12 (fun i => window_line window_s i (i - 6)) z;
    for_range 18 36 (fun i => window_line window_l i i) z
  else Some z.

(** [MAD_F_ML0], five [MAD_F_MLA] and [MAD_F_MLZ] of six lines from [X]. *)
Definition imdct_row (X : list T) (w : Z) (s : list Z) : option T :=
  x0 ← aget X (6 * w); x1 ← aget X (6 * w + 1); x2 ← aget X (6 * w + 2);
  x3 ← aget X (6 * w + 3); x4 ← aget X (6 * w + 4); x5 ← aget X (6 * w + 5);
  s0 ← aget s 0; s1 ← aget s 1; s2 ← aget s 2; s3 ← aget s 3; s4 ← aget s 4; s5 ← aget s 5;
  Some (fx_acc [(x0, s0); (x1, s1); (x2, s2); (x3, s3); (x4, s4); (x5, s5)]).

(** [y[36]] comes in uninitialised. *)
Definition III_imdct_s (X z y : list T) : option (list T) :=
  y ← for_range 0 3 (fun w => for_range 0 3 (fun i y =>
    s ← aget imdct_s (2 * i);
    v ← imdct_row X w s;
    y ← aset y (12 * w + i) v;
    y ← aset y (12 * w + 5 - i) (fx_neg v);
    s ← aget imdct_s (2 * i + 1);
    v ← imdct_row X w s;
    y ← aset y (12 * w + i + 6) v;
    aset y (12 * w + 11 - i) v)) y;
  for_range 0 6 (fun i z =>
    z ← aset z i fx_zero;
    a ← aget y i;
    b ← aget y (i + 6);
    c ← aget y (i + 12);
    d ← aget y (i + 12 + 6);
    e ← aget y (i + 24);
    f ← aget y (i + 24 + 6);
    w ← aget window_s i;
    w' ← aget window_s (i + 6);
    z ← aset z (i + 6) (a *. w);
    z ← aset z (i + 12) (fx_acc [(b, w'); (c, w)]);
    z ← aset z (i + 18) (fx_acc [(d, w'); (e, w)]);
    z ← aset z (i + 24) (f *. w');
    aset z (i + 30) fx_zero) z.
End Transforms.

Arguments imdct_stack : clear implicits.

(** ** Affine forms

    A value is a linear form in the inputs, coefficients in units of [2 ^ -64], and an
    error in the same units; a form that may have overflowed, or that stands for memory
    never written, is not valid. *)

Record affine := Affine { af_ok : bool; af_co : list Z; af_er : Z }.

Section Affine.
(** The number of inputs, a bound of their absolute values and one of the sum of them. *)
Variables (n : nat) (B B1 : Z).

Definition poison : affine := Affine false [] 0.

Definition input (k : nat) : affine := Affine true (map (fun i => if (i =? k)%nat then 2 ^ 64 else 0) (seq 0 n)) 0.

(** The largest absolute value of a linear form on such inputs. *)
Definition co_bound (co : list Z) : Z := Z.min (B * sum (map Z.abs co)) (B1 * foldr (fun c m => Z.max (Z.abs c) m) 0 co).

(** An upper bound of the absolute value. *)
Definition af_bound (a : affine) : Z := (co_bound (af_co a) + af_er a) / 2 ^ 64 + 1.

Definition af_fits (a : affine) : bool := af_ok a && (af_bound a <? 2 ^ 31).

Definition checked_form (ok : bool) (co : list Z) (er : Z) : affine :=
  let a := Affine ok co er in Affine (af_fits a) co er.

Definition af_sum (a b : affine) : affine :=
  Affine (af_ok a && af_ok b) (zip_with Z.add (af_co a) (af_co b)) (af_er a + af_er b).

Definition af_neg (a : affine) : affine := Affine (af_ok a) (map Z.opp (af_co a)) (af_er a).

(** The error of a rounded coefficient of every input. *)
Definition af_ulp : Z := Z.min (Z.of_nat n * B) B1.

Definition af_mul (a : affine) (c : Z) : affine :=
  Affine (af_ok a && ((af_bound a <? 2 ^ 31 - 2 ^ 11) && (Z.abs c <=? 2 ^ 29) && ((af_bound a + 2 ^ 11) * (Z.abs c + 2 ^ 15) <? 2 ^ 59)))
    (map (fun x => x * c / 2 ^ 28) (af_co a))
    (((2 ^ 11 * (Z.abs c + 2 ^ 15) + 2 ^ 15 * af_bound a) * 2 ^ 64 + af_er a * Z.abs c) / 2 ^ 28 + 1 + af_ulp).

Definition af_half (a : affine) : affine :=
  Affine (af_ok a) (map (fun x => x / 2) (af_co a)) ((af_er a + 2 ^ 64) / 2 + 1 + af_ulp).

Definition af_check (a : affine) : affine := Affine (af_fits a) (af_co a) (af_er a).

#[local] Instance affine_forms : Fixed affine := {|
  fx_zero := Affine true (map (fun _ => 0) (seq 0 n)) 0;
  fx_add a b := af_check (af_sum a b);
  fx_sub a b := af_check (af_sum a (af_neg b));
  fx_neg a := af_check (af_neg a);
  fx_half := af_half;
  fx_mul := af_mul;
  fx_acc l := match l with
              | [] => poison
              | (x, c) :: l => af_check (fold_left (fun a '(x, c) => af_sum a (af_mul x c)) l (af_mul x c))
              end
|}.

Definition inputs : list affine := map input (seq 0 n).

Definition poison_stack : imdct_stack affine := ImdctStack (repeat poison 18) (repeat poison 18) (repeat poison 9).

Definition imdct_l_form (block_type : Z) : option (list affine) :=
  III_imdct_l inputs (repeat poison 36) block_type poison_stack.

Definition imdct_s_form : option (list affine) := III_imdct_s inputs (repeat poison 36) (repeat poison 36).
End Affine.

(** ** The transforms by their definition *)

(** [cos(m * PI / 72)], in units of [2 ^ -28], for odd [m]: [window_l[i]] is the sine of
    [(2 * i + 1) * PI / 72]. *)
Definition cosine (m : Z) : Z :=
  let m := m mod 144 in
  let m := if m <=? 72 then m else 144 - m in
  if m <=? 36 then nth (Z.to_nat ((35 - m) / 2)) window_l 0 else - nth (Z.to_nat ((m - 37) / 2)) window_l 0.

(** The window of a block of 36 values, in the same units. *)
Definition long_window (block_type : Z) (i : nat) : Z :=
  let l := nth i window_l 0 in
  if block_type =? 0 then l
  else if block_type =? 1 then
    if (i <? 18)%nat then l else if (i <? 24)%nat then 2 ^ 28 else if (i <? 30)%nat then nth (i - 18) window_s 0 else 0
  else
    if (i <? 6)%nat then 0 else if (i <? 12)%nat then nth (i - 6) window_s 0 else if (i <? 18)%nat then 2 ^ 28 else l.

(** The coefficient of line [k] in value [i] of a long block, in units of [2 ^ -56]. *)
Definition long_coefficient (block_type : Z) (i k : nat) : Z :=
  long_window block_type i * cosine ((2 * Z.of_nat i + 19) * (2 * Z.of_nat k + 1)).

(** Short blocks: three windows of 12 values from six lines each, six values apart; line
    [6 * w + j] belongs to window [w]. *)
Definition short_coefficient (i k : nat) : Z :=
  let w := (k / 6)%nat in let j := Z.of_nat (k mod 6) in
  let t := (i - 6 - 6 * w)%nat in
  if (6 + 6 * w <=? i)%nat && (t <? 12)%nat
  then nth t window_s 0 * cosine (3 * ((2 * Z.of_nat t + 7) * (2 * j + 1))) else 0.

(** The distance of a form from a linear map, in units of [2 ^ -64]. *)
Definition form_error (B B1 : Z) (a : affine) (f : nat -> Z) : Z :=
  af_er a + co_bound B B1 (imap (fun k c => c - f k * 2 ^ 8) (af_co a)).

(** ** Soundness of the forms *)

(** The value of a linear form. *)
Definition dot (co xs : list Z) : Z := sum (zip_with Z.mul co xs).

Lemma dot_add xs : forall co co', length co = length xs -> length co' = length xs ->
  dot (zip_with Z.add co co') xs = dot co xs + dot co' xs.
Proof.
  unfold dot. induction xs as [|x xs IH]; intros [|a co] [|b co'] Ha Hb; try discriminate; [done|].
  cbn [zip_with]. rewrite !sum_cons, IH by (cbn in *; lia). lia.
Qed.

Lemma dot_scale (g : Z -> Z) (c : Z) xs : (forall a, g a = a * c) -> forall co, dot (map g co) xs = dot co xs * c.
Proof.
  intros Hg. unfold dot. induction xs as [|x xs IH]; intros [|a co]; try done.
  cbn [map zip_with]. rewrite !sum_cons, IH, Hg. lia.
Qed.

(** The sum of the absolute values. *)
Definition norm1 (xs : list Z) : Z := sum (map Z.abs xs).

Lemma norm1_cons x xs : norm1 (x :: xs) = Z.abs x + norm1 xs.
Proof. unfold norm1. cbn [map]. apply sum_cons. Qed.

(** The inputs that the bounds of the forms are about. *)
Definition bounded (B B1 : Z) (xs : list Z) : Prop := Forall (fun x => Z.abs x <= B) xs /\ norm1 xs <= B1.

(** Values each below the bound of the sum. *)
Lemma norm1_bounded B1 xs : norm1 xs <= B1 -> bounded B1 B1 xs.
Proof.
  intros H. split; [|done]. revert B1 H. induction xs as [|x xs IH]; intros B1 H; [done|]. rewrite norm1_cons in H.
  assert (0 <= norm1 xs) as H0. { clear. induction xs as [|x xs IH]; [done|]. rewrite norm1_cons. lia. }
  constructor; [lia|]. apply IH. lia.
Qed.

Lemma bounded_norm1 B xs : Forall (fun x => Z.abs x <= B) xs -> bounded B (zlen xs * B) xs.
Proof.
  intros H. split; [done|]. induction H as [|x xs Hx _ IH]; [done|]. rewrite norm1_cons. cbn [length]. lia.
Qed.

Lemma bounded_ulp B B1 xs : bounded B B1 xs -> norm1 xs <= af_ulp (length xs) B B1.
Proof. intros [H1 H2]. unfold af_ulp. apply Z.min_glb; [|done]. by apply bounded_norm1. Qed.

(** Coefficients divided with a remainder below [d]. *)
Lemma dot_div c d xs : 0 < d -> forall co, length co = length xs ->
  Z.abs (dot co xs * c - d * dot (map (fun a => a * c / d) co) xs) <= d * norm1 xs.
Proof.
  intros Hd. unfold dot. induction xs as [|x xs IH]; intros [|a co] Hl; try discriminate; [cbn; lia|].
  cbn [map zip_with]. rewrite !sum_cons, norm1_cons. specialize (IH co ltac:(cbn in Hl; lia)).
  pose proof (Z.div_mod (a * c) d ltac:(lia)) as E. pose proof (Z.mod_pos_bound (a * c) d Hd) as Hm.
  set (q := a * c / d) in *. set (r := (a * c) mod d) in *.
  assert (Z.abs (r * x) <= d * Z.abs x) by (rewrite Z.abs_mul; apply Z.mul_le_mono_nonneg; lia).
  assert (a * x * c - d * (q * x) = r * x) by (replace (a * x * c) with (a * c * x) by ring; rewrite E; ring).
  rewrite Z.mul_add_distr_l. lia.
Qed.

Lemma dot_bound_each B xs : Forall (fun x => Z.abs x <= B) xs -> forall co, length co = length xs ->
  Z.abs (dot co xs) <= B * sum (map Z.abs co).
Proof.
  intros Hx. unfold dot. induction Hx as [|x xs Hx _ IH]; intros [|a co] Hl; try discriminate; [cbn; lia|].
  cbn [map zip_with]. rewrite !sum_cons. specialize (IH co ltac:(cbn in Hl; lia)).
  assert (Z.abs (a * x) <= Z.abs a * B) by (rewrite Z.abs_mul; apply Z.mul_le_mono_nonneg_l; lia). lia.
Qed.

Lemma dot_bound_sum xs : forall co M, length co = length xs -> foldr (fun c m => Z.max (Z.abs c) m) 0 co <= M ->
  Z.abs (dot co xs) <= norm1 xs * M.
Proof.
  unfold dot. induction xs as [|x xs IH]; intros [|a co] M Hl HM; [done|done|discriminate Hl|]. cbn [foldr] in HM.
  cbn [zip_with]. rewrite !sum_cons, norm1_cons. specialize (IH co M ltac:(cbn in Hl; lia) ltac:(lia)).
  assert (Z.abs (a * x) <= Z.abs x * M) by (rewrite Z.abs_mul, Z.mul_comm; apply Z.mul_le_mono_nonneg_l; lia). lia.
Qed.

Lemma dot_bound B B1 xs co : bounded B B1 xs -> length co = length xs -> Z.abs (dot co xs) <= co_bound B B1 co.
Proof.
  intros [HB HS] Hl. unfold co_bound. apply Z.min_glb; [by apply dot_bound_each|].
  etrans; [by apply dot_bound_sum|]. apply Z.mul_le_mono_nonneg_r; [|done]. clear. induction co as [|c co IH]; cbn [foldr]; lia.
Qed.

(** The product of two signed values, when it fits. *)
Lemma mad_f_mul_fits W x y : 32 <= W -> Z.abs x < 2 ^ 31 - 2 ^ 11 -> Z.abs y <= 2 ^ 29 ->
  (Z.abs x + 2 ^ 11) * (Z.abs y + 2 ^ 15) < 2 ^ 59 ->
  Z.abs (mad_f_mul W x y * 2 ^ 28 - x * y) <= 2 ^ 11 * (Z.abs y + 2 ^ 15) + 2 ^ 15 * Z.abs x.
Proof.
  intros HW Hx Hy Hxy. unfold mad_f_mul. rewrite !Z.shiftl_1_l, !Z.shiftr_div_pow2 by lia.
  change (2 ^ 59) with (2147483648 * (4096 * 65536)) in Hxy. change (2 ^ 31) with 2147483648 in *.
  change (2 ^ 29) with 536870912 in *. change (2 ^ 28) with 268435456.
  change (2 ^ 11) with 2048 in *. change (2 ^ 15) with 32768 in *. change (2 ^ 12) with 4096. change (2 ^ 16) with 65536.
  assert (forall z, -2147483648 <= z < 2147483648 -> wraps W z = z) as Hw by (intros; by apply wraps_wide).
  rewrite (Hw (x + _)), (Hw (y + _)) by lia.
  pose proof (Z.div_mod (x + 2048) 4096 ltac:(lia)). pose proof (Z.mod_pos_bound (x + 2048) 4096 ltac:(lia)).
  pose proof (Z.div_mod (y + 32768) 65536 ltac:(lia)). pose proof (Z.mod_pos_bound (y + 32768) 65536 ltac:(lia)).
  set (a := (x + 2048) / 4096) in *. set (b := (y + 32768) / 65536) in *.
  assert (Z.abs a * 4096 <= Z.abs x + 2048) as Ha by lia. assert (Z.abs b * 65536 <= Z.abs y + 32768) as Hb by lia.
  assert (Z.abs (a * b) < 2147483648).
  { rewrite Z.abs_mul. apply (Z.mul_lt_mono_pos_r (4096 * 65536)); [done|]. eapply Z.le_lt_trans; [|exact Hxy].
    replace (Z.abs a * Z.abs b * (4096 * 65536)) with ((Z.abs a * 4096) * (Z.abs b * 65536)) by ring.
    apply Z.mul_le_mono_nonneg; lia. }
  rewrite Hw, s32_small by (change (2 ^ 31) with 2147483648; lia).
  replace (a * b * 268435456 - x * y) with ((a * 4096 - x) * (b * 65536) + x * (b * 65536 - y)) by ring.
  assert (Z.abs ((a * 4096 - x) * (b * 65536)) <= 2048 * (Z.abs y + 32768)) by (rewrite Z.abs_mul; apply Z.mul_le_mono_nonneg; lia).
  assert (Z.abs (x * (b * 65536 - y)) <= 32768 * Z.abs x) by (rewrite Z.abs_mul, Z.mul_comm; apply Z.mul_le_mono_nonneg; lia). lia.
Qed.

(** Up to an eighth of the range both do. *)
Lemma mad_f_mul_eighth W x y : 32 <= W -> Z.abs x <= 2 ^ 29 - 2 ^ 12 -> Z.abs y <= 2 ^ 29 ->
  Z.abs (mad_f_mul W x y * 2 ^ 28 - x * y) <= 2 ^ 11 * (Z.abs y + 2 ^ 15) + 2 ^ 15 * Z.abs x.
Proof.
  intros HW Hx Hy. apply mad_f_mul_fits; try lia. eapply Z.le_lt_trans; [apply (Z.mul_le_mono_nonneg _ (2 ^ 29) _ (2 ^ 29 + 2 ^ 15)); lia|done].
Qed.

Section Sound.
Variables (W B B1 : Z) (xs : list Z).
Hypotheses (HW : 32 <= W) (Hxs : bounded B B1 xs).

(** [z] is the value of a valid form, up to its error. *)
Definition models (z : Z) (a : affine) : Prop :=
  af_ok a = true -> length (af_co a) = length xs /\ Z.abs (z * 2 ^ 64 - dot (af_co a) xs) <= af_er a.

Lemma models_bound z a : models z a -> af_ok a = true -> Z.abs z <= af_bound B B1 a.
Proof.
  intros H Hok. destruct (H Hok) as [Hl He]. unfold af_bound. pose proof (dot_bound B B1 xs _ Hxs Hl) as Hd.
  set (s := co_bound B B1 (af_co a)) in *. pose proof (Z.div_mod (s + af_er a) (2 ^ 64) ltac:(lia)).
  pose proof (Z.mod_pos_bound (s + af_er a) (2 ^ 64) ltac:(lia)). change (2 ^ 64) with 18446744073709551616 in *. lia.
Qed.

Lemma models_check z a : models z a -> models (s32 z) (af_check B B1 a).
Proof.
  intros H Hok. cbn [af_check af_ok] in Hok. unfold af_fits in Hok. apply andb_true_iff in Hok as [Hok Hb].
  apply Z.ltb_lt in Hb. pose proof (models_bound z a H Hok). rewrite s32_small by (change (2 ^ 31) with 2147483648 in *; lia).
  by apply H.
Qed.

Lemma models_sum x y a b : models x a -> models y b -> models (x + y) (af_sum a b).
Proof.
  intros H1 H2 Hok. cbn [af_sum af_ok] in Hok. apply andb_true_iff in Hok as [O1 O2].
  destruct (H1 O1) as [L1 E1], (H2 O2) as [L2 E2]. cbn [af_sum af_co af_er].
  rewrite length_zip_with, dot_add by done. change (2 ^ 64) with 18446744073709551616 in *. lia.
Qed.

Lemma models_neg x a : models x a -> models (- x) (af_neg a).
Proof.
  intros H Hok. destruct (H Hok) as [L E]. cbn [af_neg af_co af_er]. rewrite length_map.
  rewrite (dot_scale Z.opp (-1)) by lia. change (2 ^ 64) with 18446744073709551616 in *. lia.
Qed.

Lemma models_mul x a c : models x a -> models (mad_f_mul W x c) (af_mul (length xs) B B1 a c).
Proof.
  intros H Hok. cbn [af_mul af_ok] in Hok. apply andb_true_iff in Hok as [Hok Hf]. apply andb_true_iff in Hf as [Hf Hp].
  apply andb_true_iff in Hf as [Hb Hc]. apply Z.leb_le in Hc. apply Z.ltb_lt in Hb, Hp.
  destruct (H Hok) as [L E]. pose proof (models_bound x a H Hok) as Hx.
  assert ((Z.abs x + 2 ^ 11) * (Z.abs c + 2 ^ 15) < 2 ^ 59) as Hp'
    by (eapply Z.le_lt_trans; [apply Z.mul_le_mono_nonneg_r; [lia|apply Z.add_le_mono_r, Hx]|exact Hp]).
  pose proof (mad_f_mul_fits W x c HW ltac:(lia) Hc Hp') as Hm. clear Hp Hp'. cbn [af_mul af_co af_er]. split; [by rewrite length_map|].
  pose proof (dot_div c (2 ^ 28) xs ltac:(lia) _ L) as Hd. pose proof (bounded_ulp B B1 xs Hxs) as Hu.
  set (D := dot (map _ _) xs) in *. set (d := dot (af_co a) xs) in *. set (r := mad_f_mul W x c) in *.
  set (M := 2 ^ 11 * (Z.abs c + 2 ^ 15) + 2 ^ 15 * af_bound B B1 a).
  assert (Z.abs (r * 2 ^ 28 - x * c) <= M) as Hm' by (unfold M; change (2 ^ 11) with 2048 in *; change (2 ^ 15) with 32768 in *; lia).
  assert (Z.abs ((x * 2 ^ 64 - d) * c) <= af_er a * Z.abs c) as Hc' by (rewrite Z.abs_mul; apply Z.mul_le_mono_nonneg_r; lia).
  set (N := af_ulp (length xs) B B1) in *. set (N1 := norm1 xs) in *. set (K := M * 2 ^ 64 + af_er a * Z.abs c).
  pose proof (Z.div_mod K (2 ^ 28) ltac:(lia)). pose proof (Z.mod_pos_bound K (2 ^ 28) ltac:(lia)).
  set (q := K / 2 ^ 28) in *. set (m := K mod 2 ^ 28) in *. subst K. clearbody D d r M N N1 q m. clear Hm H.
  set (u := af_er a * Z.abs c) in *. assert ((x * 2 ^ 64 - d) * c = x * c * 2 ^ 64 - d * c) as Ed by ring. rewrite Ed in Hc'.
  set (xc := x * c) in *. set (dc := d * c) in *. clearbody u xc dc.
  change (2 ^ 28) with 268435456 in *. change (2 ^ 64) with 18446744073709551616 in *. lia.
Qed.

Lemma models_half x a : models x a -> models (Z.quot x 2) (af_half (length xs) B B1 a).
Proof.
  intros H Hok. destruct (H Hok) as [L E]. cbn [af_half af_co af_er]. split; [by rewrite length_map|].
  pose proof (dot_div 1 2 xs ltac:(lia) _ L) as Hd. pose proof (bounded_ulp B B1 xs Hxs) as Hu.
  assert (map (fun x => x * 1 / 2) (af_co a) = map (fun x => x / 2) (af_co a)) as Em by (apply map_ext; intros; by rewrite Z.mul_1_r).
  rewrite Em in Hd. set (D := dot (map _ _) xs) in *. set (d := dot (af_co a) xs) in *. set (N := af_ulp (length xs) B B1) in *. set (N1 := norm1 xs) in *.
  assert (Z.abs (2 * Z.quot x 2 - x) <= 1) by (Z.quot_rem_to_equations; lia).
  pose proof (Z.div_mod (af_er a + 2 ^ 64) 2 ltac:(lia)). pose proof (Z.mod_pos_bound (af_er a + 2 ^ 64) 2 ltac:(lia)).
  set (q := (af_er a + 2 ^ 64) / 2) in *. set (m := (af_er a + 2 ^ 64) mod 2) in *. set (h := Z.quot x 2) in *.
  clearbody D d N N1 q m h. change (2 ^ 64) with 18446744073709551616 in *. lia.
Qed.

Lemma accumulate_sum l : forall lo z, lo mod 2 ^ 32 = z mod 2 ^ 32 ->
  MAD_F_MLZ (fold_left (fun lo '(x, c) => MAD_F_MLA W lo x c) l lo) = s32 (fold_left (fun z '(x, c) => z + mad_f_mul W x c) l z).
Proof.
  induction l as [|[x c] l IH]; intros lo z E; cbn [fold_left]; [by apply wraps_eq_mod|]. apply IH.
  unfold MAD_F_MLA, wrapu. by rewrite Zmod_mod, <- Zplus_mod_idemp_l, E, Zplus_mod_idemp_l.
Qed.

Lemma models_acc l l' : Forall2 (fun p q => models (fst p) (fst q) /\ snd p = snd q) l l' ->
  models (@fx_acc Z (fixed_words W) l) (@fx_acc affine (affine_forms (length xs) B B1) l').
Proof.
  intros H. destruct H as [|[x c] [a c'] l l' [H1 H2] H]; [intros Hok; done|]. cbn [fst snd] in *. subst c'.
  cbn [fx_acc fixed_words affine_forms]. rewrite (accumulate_sum l _ (mad_f_mul W x c)) by apply Zmod_mod. apply models_check.
  pose proof (models_mul x a c H1) as Hm. revert Hm. generalize (mad_f_mul W x c) (af_mul (length xs) B B1 a c).
  clear a x c H1. induction H as [|[x c] [a c'] l l' [H1 H2] H IH]; intros z b Hb; [done|].
  cbn [fst snd] in *. subst c'. cbn [fold_left]. apply IH. apply models_sum; [done|by apply models_mul].
Qed.

Lemma models_zero : models 0 (@fx_zero affine (affine_forms (length xs) B B1)).
Proof.
  intros _. cbn [fx_zero affine_forms af_co af_er]. split; [by rewrite length_map, length_seq|].
  assert (forall k l, dot (map (fun _ => 0) (seq k (length l))) l = 0) as ->; [|done].
  intros k l. revert k. induction l as [|x l IH]; intros k; [done|]. cbn [length seq map]. unfold dot in *. cbn [zip_with].
  by rewrite sum_cons, IH.
Qed.

Lemma models_input k x : xs !! k = Some x -> models x (input (length xs) k).
Proof.
  intros E _. cbn [input af_co af_er]. split; [by rewrite length_map, length_seq|].
  assert (forall o l, (forall x, l !! (k - o)%nat = Some x -> (o <= k)%nat ->
      dot (map (fun i => if (i =? k)%nat then 2 ^ 64 else 0) (seq o (length l))) l = 2 ^ 64 * x) /\
    ((k < o)%nat -> dot (map (fun i => if (i =? k)%nat then 2 ^ 64 else 0) (seq o (length l))) l = 0)) as Hd.
  { intros o l. revert o. induction l as [|y l IH]; intros o; [split; [done|done]|]. cbn [length seq map]. unfold dot in *. cbn [zip_with].
    rewrite sum_cons. destruct (IH (S o)) as [I1 I2]. split.
    - intros v Hv Ho. destruct (Nat.eqb_spec o k) as [->|Hne].
      + rewrite Nat.sub_diag in Hv. injection Hv as ->. rewrite I2 by lia. lia.
      + destruct (k - o)%nat as [|d] eqn:Ed; [lia|]. cbn in Hv. rewrite (I1 v); [lia| |lia]. by replace (k - S o)%nat with d by lia.
    - intros Ho. rewrite (proj2 (Nat.eqb_neq o k)), I2 by lia. lia. }
  rewrite (proj1 (Hd 0%nat xs) x); [|by rewrite Nat.sub_0_r|lia]. lia.
Qed.
End Sound.

(** ** Two runs of a transform *)

Section Relations.
Context {A A' : Type} (R : A -> A' -> Prop).

Lemma aget_rel l l' i : Forall2 R l l' -> option_Forall2 R (aget l i) (aget l' i).
Proof. intros H. unfold aget. destruct (0 <=? i); [|constructor]. by apply Forall2_lookup. Qed.

Lemma aset_rel l l' i x x' : Forall2 R l l' -> R x x' -> option_Forall2 (Forall2 R) (aset l i x) (aset l' i x').
Proof.
  intros H Hx. unfold aset. rewrite (Forall2_length _ _ _ H). destruct (_ && _); [|constructor]. constructor. by apply Forall2_insert.
Qed.
End Relations.

Lemma bind_rel {A A' C C'} (R : A -> A' -> Prop) (S : C -> C' -> Prop) m m' (f : A -> option C) (f' : A' -> option C') :
  option_Forall2 R m m' -> (forall x x', R x x' -> option_Forall2 S (f x) (f' x')) -> option_Forall2 S (m ≫= f) (m' ≫= f').
Proof. intros [x x' H|] Hf; [by apply Hf|constructor]. Qed.

Lemma for_range_rel {St St'} (R : St -> St' -> Prop) lo hi (f : Z -> St -> option St) (f' : Z -> St' -> option St') s s' :
  R s s' -> (forall i s s', R s s' -> option_Forall2 R (f i s) (f' i s')) ->
  option_Forall2 R (for_range lo hi f s) (for_range lo hi f' s').
Proof.
  intros Hs Hf. unfold for_range. generalize (Z.to_nat (hi - lo)). intros n. revert lo s s' Hs.
  induction n as [|n IH]; intros lo s s' Hs; [by constructor|]. rewrite !for_loop_S.
  apply (bind_rel R); [by apply Hf|]. intros x x' Hx. by apply IH.
Qed.

(** A table is related to itself. *)
Lemma table_rel {A} (l : list A) i : option_Forall2 eq (aget l i) (aget l i).
Proof. destruct (aget l i); by constructor. Qed.

(** A relation of numbers that the operations respect. *)
Class Related {T T'} (F : Fixed T) (F' : Fixed T') (R : T -> T' -> Prop) : Prop := {
  zero_rel : R fx_zero fx_zero;
  add_rel x y a b : R x a -> R y b -> R (fx_add x y) (fx_add a b);
  sub_rel x y a b : R x a -> R y b -> R (fx_sub x y) (fx_sub a b);
  neg_rel x a : R x a -> R (fx_neg x) (fx_neg a);
  half_rel x a : R x a -> R (fx_half x) (fx_half a);
  mul_rel x a c : R x a -> R (fx_mul x c) (fx_mul a c);
  acc_rel l l' : Forall2 (fun p q => R (fst p) (fst q) /\ snd p = snd q) l l' -> R (fx_acc l) (fx_acc l')
}.

Create HintDb fixed.
Section Programs.
Context {T T' : Type} (Fz : Fixed T) (Fa : Fixed T') (R : T -> T' -> Prop) `{HR : !Related Fz Fa R}.

#[local] Hint Extern 1 (R _ _) =>
  first [apply (add_rel (Related := HR)) | apply (sub_rel (Related := HR)) | apply (neg_rel (Related := HR))
        | apply (half_rel (Related := HR)) | apply (mul_rel (Related := HR)) | apply (zero_rel (Related := HR))] : fixed.

Abbreviation Rs := (Forall2 R).

(** One step of two runs of the same program. *)
Ltac rel_step :=
  match goal with
  | |- option_Forall2 _ (aget ?l _ ≫= _) (aget ?l _ ≫= _) =>
      apply (bind_rel eq); [apply table_rel|intros ? ? <-]
  | |- option_Forall2 _ (aget _ _ ≫= _) (aget _ _ ≫= _) =>
      apply (bind_rel R); [apply aget_rel; auto with fixed|intros ? ? ?]
  | |- option_Forall2 _ (_ ≫= _) (_ ≫= _) => apply (bind_rel Rs); [|intros ? ? ?]
  | |- option_Forall2 _ (for_range _ _ _ _) (for_range _ _ _ _) => apply for_range_rel; [assumption|intros ? ? ? ?]
  | |- option_Forall2 _ (aset _ _ _) (aset _ _ _) => apply aset_rel; [assumption|auto with fixed]
  | |- option_Forall2 _ (Some _) (Some _) => constructor
  end.

Lemma fastsdct_values_rel x0 x1 x2 x3 x4 x5 x6 x7 x8 a0 a1 a2 a3 a4 a5 a6 a7 a8 :
  R x0 a0 -> R x1 a1 -> R x2 a2 -> R x3 a3 -> R x4 a4 -> R x5 a5 -> R x6 a6 -> R x7 a7 -> R x8 a8 ->
  Rs (@fastsdct_values T Fz x0 x1 x2 x3 x4 x5 x6 x7 x8) (@fastsdct_values T' Fa a0 a1 a2 a3 a4 a5 a6 a7 a8).
Proof. intros. unfold fastsdct_values. cbv zeta. repeat apply Forall2_cons_2; [..|done]; auto 40 with fixed. Qed.

#[local] Hint Resolve fastsdct_values_rel : fixed.

Lemma fastsdct_rel x x' y y' o : Rs x x' -> Rs y y' -> option_Forall2 Rs (@fastsdct T Fz x y o) (@fastsdct T' Fa x' y' o).
Proof. intros Hx Hy. unfold fastsdct. cbv zeta. repeat rel_step. Qed.

Lemma sdctII_rel x x' X X' t t' : Rs x x' -> Rs X X' -> Rs t t' ->
  option_Forall2 Rs (@sdctII T Fz x X t) (@sdctII T' Fa x' X' t').
Proof. intros. unfold sdctII. cbv zeta. repeat (rel_step || (apply fastsdct_rel; assumption)). Qed.

Lemma dctIV_rel y y' X X' t t' u u' : Rs y y' -> Rs X X' -> Rs t t' -> Rs u u' ->
  option_Forall2 Rs (@dctIV T Fz y X t u) (@dctIV T' Fa y' X' t' u').
Proof. intros. unfold dctIV. repeat (rel_step || (apply sdctII_rel; assumption)). Qed.

(** The stack frames are related when their arrays are. *)
Definition stack_rel (st : imdct_stack T) (st' : imdct_stack T') : Prop :=
  Rs (stack_X st) (stack_X st') /\ Rs (stack_tmp st) (stack_tmp st') /\ Rs (stack_tmp9 st) (stack_tmp9 st').

Lemma imdct36_rel x x' y y' st st' : Rs x x' -> Rs y y' -> stack_rel st st' ->
  option_Forall2 Rs (@imdct36 T Fz x y st) (@imdct36 T' Fa x' y' st').
Proof. intros ? ? (?&?&?). unfold imdct36. repeat (rel_step || (apply dctIV_rel; assumption)). Qed.

Lemma window_line_rel w i j z z' : Rs z z' ->
  option_Forall2 Rs (@window_line T Fz w i j z) (@window_line T' Fa w i j z').
Proof. intros. unfold window_line. repeat rel_step. Qed.

Lemma clear_line_rel i z z' : Rs z z' -> option_Forall2 Rs (@clear_line T Fz i z) (@clear_line T' Fa i z').
Proof. intros. unfold clear_line. repeat rel_step. Qed.

Lemma imdct_l_rel X X' z z' bt st st' : Rs X X' -> Rs z z' -> stack_rel st st' ->
  option_Forall2 Rs (@III_imdct_l T Fz X z bt st) (@III_imdct_l T' Fa X' z' bt st').
Proof.
  intros. unfold III_imdct_l. apply (bind_rel Rs); [by apply imdct36_rel|intros y y' Hy].
  repeat case_match; repeat (rel_step || (apply window_line_rel; assumption) || (apply clear_line_rel; assumption)). done.
Qed.

Lemma imdct_row_rel X X' w s : Rs X X' -> option_Forall2 R (@imdct_row T Fz X w s) (@imdct_row T' Fa X' w s).
Proof. intros. unfold imdct_row. repeat rel_step. apply acc_rel. repeat (apply Forall2_cons_2; [by split|]). apply Forall2_nil_2. Qed.

Lemma imdct_s_rel X X' z z' y y' : Rs X X' -> Rs z z' -> Rs y y' ->
  option_Forall2 Rs (@III_imdct_s T Fz X z y) (@III_imdct_s T' Fa X' z' y').
Proof.
  intros. unfold III_imdct_s. apply (bind_rel Rs).
  - apply for_range_rel; [done|]. intros w s s' Hs. apply for_range_rel; [done|]. intros i u u' Hu.
    apply (bind_rel eq); [apply table_rel|intros ? ? <-]. apply (bind_rel R); [by apply imdct_row_rel|intros v v' Hv].
    repeat rel_step. apply (bind_rel R); [by apply imdct_row_rel|intros ? ? ?]. repeat rel_step.
  - intros u u' Hu. repeat rel_step; apply acc_rel; repeat (apply Forall2_cons_2; [by split|]); apply Forall2_nil_2.
Qed.
End Programs.

(** Machine words are modelled by affine forms in the values of their inputs. *)
Lemma models_related W B B1 xs : 32 <= W -> bounded B B1 xs ->
  Related (fixed_words W) (affine_forms (length xs) B B1) (models xs).
Proof.
  intros HW Hxs. split; intros; cbn [fx_add fx_sub fx_neg fx_half fx_mul fixed_words affine_forms].
  - apply models_zero.
  - apply models_check; [done|]. by apply models_sum.
  - rewrite <- Z.add_opp_r. apply models_check; [done|]. apply models_sum; [done|by apply models_neg].
  - apply models_check; [done|]. by apply models_neg.
  - by apply models_half.
  - by apply models_mul.
  - by apply models_acc.
Qed.

(** For which cells a transform reads and writes, the values do not matter. *)
#[local] Instance unit_fixed : Fixed unit := {|
  fx_zero := tt; fx_add _ _ := tt; fx_sub _ _ := tt; fx_neg _ := tt; fx_half _ := tt; fx_mul _ _ := tt; fx_acc _ := tt
|}.

Lemma any_related W : Related (fixed_words W) unit_fixed (fun _ _ => True).
Proof. by split. Qed.

Lemma any_rel {A} (l : list A) n : length l = n -> Forall2 (fun (_ : A) (_ : unit) => True) l (repeat tt n).
Proof. intros <-. induction l; cbn; by constructor. Qed.

(** ** The linear maps *)

(** The value of a linear map with coefficients [f], in units of [2 ^ -56]. *)
Definition linear (f : nat -> Z) (xs : list Z) : Z := dot (map f (seq 0 (length xs))) xs.

Lemma dot_sub (f : nat -> Z) d xs : forall o co, length co = length xs ->
  dot (imap (fun k c => c - f (o + k)%nat * d) co) xs = dot co xs - dot (map f (seq o (length xs))) xs * d.
Proof.
  unfold dot. induction xs as [|x xs IH]; intros o [|c co] Hl; try discriminate; [done|]. cbn [length seq map zip_with imap].
  rewrite !sum_cons, Nat.add_0_r.
  assert (imap ((fun k c => c - f (o + k)%nat * d) ∘ S) co = imap (fun k c => c - f (S o + k)%nat * d) co) as ->
    by (apply imap_ext; intros k y _; cbn; do 3 f_equal; lia).
  rewrite IH by (cbn in Hl; lia). ring.
Qed.

Lemma form_error_sound B B1 xs z a f : bounded B B1 xs -> models xs z a -> af_ok a = true ->
  Z.abs (z * 2 ^ 64 - linear f xs * 2 ^ 8) <= form_error B B1 a f.
Proof.
  intros Hx H Hok. destruct (H Hok) as [Hl He]. unfold form_error, linear. pose proof (dot_sub f (2 ^ 8) xs 0 (af_co a) Hl) as Hd.
  cbn [Nat.add] in Hd. set (co := imap _ (af_co a)) in *. pose proof (dot_bound B B1 xs co Hx) as Hb.
  unfold co in Hb at 1. rewrite length_imap in Hb. specialize (Hb Hl). change (2 ^ 64) with 18446744073709551616 in *.
  change (2 ^ 8) with 256 in *. lia.
Qed.

(** All the forms of a transform are valid, of length 18 and near a linear map. *)
Definition forms_near (B B1 E : Z) (f : nat -> nat -> Z) (l : option (list affine)) : bool :=
  match l with
  | Some l => (length l =? 36)%nat && forallb (fun '(i, a) => af_ok a && (form_error B B1 a (f i) <=? E * 2 ^ 64)) (imap pair l)
  | None => false
  end.

Lemma forms_near_sound B B1 E f xs r r' : bounded B B1 xs -> option_Forall2 (Forall2 (models xs)) r r' ->
  forms_near B B1 E f r' = true ->
  exists z, r = Some z /\ length z = 36%nat /\
  forall i, (i < 36)%nat -> exists v, z !! i = Some v /\ Z.abs (v * 2 ^ 56 - linear (f i) xs) <= E * 2 ^ 56.
Proof.
  intros Hx H Hn. destruct H as [z l H|]; [|done]. unfold forms_near in Hn. apply andb_true_iff in Hn as [Hl Hn].
  apply Nat.eqb_eq in Hl. exists z. split; [done|]. pose proof (Forall2_length _ _ _ H) as Hz. split; [lia|]. intros i Hi.
  destruct (lookup_lt_is_Some_2 l i) as [a Ea]; [lia|]. destruct (Forall2_lookup_r _ _ _ _ _ H Ea) as (v&Ev&Hv).
  exists v. split; [done|]. rewrite forallb_forall in Hn.
  assert (In (i, a) (imap pair l)) as Hin.
  { apply list_elem_of_In, list_elem_of_lookup. exists i. by rewrite list_lookup_imap, Ea. }
  specialize (Hn _ Hin). apply andb_true_iff in Hn as [Hok He]. apply Z.leb_le in He.
  pose proof (form_error_sound B B1 xs v a (f i) Hx Hv Hok). change (2 ^ 64) with (2 ^ 56 * 2 ^ 8) in *.
  change (2 ^ 56) with 72057594037927936 in *. change (2 ^ 8) with 256 in *. lia.
Qed.

Lemma inputs_rel xs : Forall2 (models xs) xs (inputs (length xs)).
Proof.
  unfold inputs. apply Forall2_same_length_lookup_2; [by rewrite length_map, length_seq|].
  intros i x a Hx Ha. rewrite list_lookup_fmap in Ha. apply fmap_Some in Ha as (k&Hk&->). apply lookup_seq in Hk as [-> _].
  by apply models_input.
Qed.

Lemma poison_rel xs l k : length l = k -> Forall2 (models xs) l (repeat poison k).
Proof. intros <-. induction l as [|x l IH]; cbn; constructor; [intros H; discriminate H|done]. Qed.

(** Lines that the transforms below are bounded on: each up to a sixteenth of [MAD_F_ONE]. *)
Definition max_line : Z := 2 ^ 24.

Definition small_lines (X : list Z) : Prop := Forall (fun x => Z.abs x <= max_line) X.

(** A block of lines without overflow: small ones, or any whose absolute values add up to at most [MAD_F_ONE]. *)
Definition lines_ok (X : list Z) : Prop := length X = 18%nat /\ (small_lines X \/ norm1 X <= 2 ^ 28).

Definition stack_ok (st : imdct_stack Z) : Prop :=
  length (stack_X st) = 18%nat /\ length (stack_tmp st) = 18%nat /\ length (stack_tmp9 st) = 9%nat.

(** Both transforms end inside of their arrays on any lines. *)
Lemma any_total {A} (r : option (list A)) (r' : option (list unit)) n : r' = Some (repeat tt n) ->
  option_Forall2 (Forall2 (fun _ _ => True)) r r' -> exists z, r = Some z /\ length z = n.
Proof.
  intros -> H. inversion H as [z l Hz|]; subst. exists z. split; [done|]. by rewrite (Forall2_length _ _ _ Hz), repeat_length.
Qed.

Lemma imdct_l_total W X z block_type st : length X = 18%nat -> length z = 36%nat -> stack_ok st -> 0 <= block_type < 4 ->
  exists z', @III_imdct_l Z (fixed_words W) X z block_type st = Some z' /\ length z' = 36%nat.
Proof.
  intros HX Hz (S1&S2&S3) Hb.
  apply (any_total _ (@III_imdct_l unit unit_fixed (repeat tt 18) (repeat tt 36) block_type
    (ImdctStack (repeat tt 18) (repeat tt 18) (repeat tt 9)))).
  - assert (block_type = 0 \/ block_type = 1 \/ block_type = 2 \/ block_type = 3) as [->|[->|[->| ->]]] by lia; vm_compute; reflexivity.
  - apply (imdct_l_rel _ _ _ (HR := any_related W)); [by apply any_rel..|]. split; [|split]; by apply any_rel.
Qed.

Lemma imdct_s_total W X z y : length X = 18%nat -> length z = 36%nat -> length y = 36%nat ->
  exists z', @III_imdct_s Z (fixed_words W) X z y = Some z' /\ length z' = 36%nat.
Proof.
  intros HX Hz Hy. apply (any_total _ (@III_imdct_s unit unit_fixed (repeat tt 18) (repeat tt 36) (repeat tt 36))).
  - vm_compute. reflexivity.
  - apply (imdct_s_rel _ _ _ (HR := any_related W)); by apply any_rel.
Qed.

(** The forms of long blocks are near the transform: for small lines, and for two bounds of the sum. *)
Definition long_checked (B B1 E block_type : Z) : bool :=
  forms_near B B1 E (long_coefficient block_type) (imdct_l_form 18 B B1 block_type).

Definition long_error (m : Z) : Z := 2560000 * m + 2500000.

Lemma long_forms block_type : block_type = 0 \/ block_type = 1 \/ block_type = 3 ->
  long_checked max_line (18 * max_line) 6000000 block_type = true /\
  forall m, m = 4 \/ m = 16 -> long_checked (m * max_line) (m * max_line) (long_error m) block_type = true.
Proof.
  intros Hb. assert (forallb (fun bt => long_checked max_line (18 * max_line) 6000000 bt &&
    forallb (fun m => long_checked (m * max_line) (m * max_line) (long_error m) bt) [4; 16]) [0; 1; 3] = true) as H by (vm_compute; reflexivity).
  rewrite forallb_forall in H. specialize (H block_type ltac:(cbn; intuition lia)). apply andb_true_iff in H as [H1 H2]. split; [done|].
  intros m Hm. rewrite forallb_forall in H2. apply H2. cbn. intuition lia.
Qed.

Lemma imdct_l_near W B B1 E X z block_type st : 32 <= W -> length X = 18%nat -> length z = 36%nat -> stack_ok st ->
  bounded B B1 X -> long_checked B B1 E block_type = true ->
  exists z', @III_imdct_l Z (fixed_words W) X z block_type st = Some z' /\ length z' = 36%nat /\
  forall i, (i < 36)%nat -> exists v, z' !! i = Some v /\ Z.abs (v * 2 ^ 56 - linear (long_coefficient block_type i) X) <= E * 2 ^ 56.
Proof.
  intros HW Hl Hz (S1&S2&S3) HX Hc. apply (forms_near_sound B B1 E _ X _ (imdct_l_form 18 B B1 block_type)); [done| |done].
  rewrite <- Hl. unfold imdct_l_form. apply (imdct_l_rel _ _ _ (HR := models_related W B B1 X HW HX)); [apply inputs_rel|by apply poison_rel|].
  split; [|split]; by apply poison_rel.
Qed.

(** The same for short blocks. *)
Definition short_checked (B B1 E : Z) : bool := forms_near B B1 E short_coefficient (imdct_s_form 18 B B1).

Definition short_error (m : Z) : Z := 22000 * m + 15000.

Lemma short_forms : short_checked max_line (18 * max_line) 47000 = true /\
  forall m, m = 4 \/ m = 16 -> short_checked (m * max_line) (m * max_line) (short_error m) = true.
Proof.
  split; [vm_compute; reflexivity|]. assert (forallb (fun m => short_checked (m * max_line) (m * max_line) (short_error m)) [4; 16] = true) as H
    by (vm_compute; reflexivity).
  intros m Hm. rewrite forallb_forall in H. apply H. cbn. intuition lia.
Qed.

Lemma imdct_s_near W B B1 E X z y : 32 <= W -> length X = 18%nat -> length z = 36%nat -> length y = 36%nat ->
  bounded B B1 X -> short_checked B B1 E = true ->
  exists z', @III_imdct_s Z (fixed_words W) X z y = Some z' /\ length z' = 36%nat /\
  forall i, (i < 36)%nat -> exists v, z' !! i = Some v /\ Z.abs (v * 2 ^ 56 - linear (short_coefficient i) X) <= E * 2 ^ 56.
Proof.
  intros HW Hl Hz Hy HX Hc. apply (forms_near_sound B B1 E _ X _ (imdct_s_form 18 B B1)); [done| |done].
  rewrite <- Hl. unfold imdct_s_form. apply (imdct_s_rel _ _ _ (HR := models_related W B B1 X HW HX)); [apply inputs_rel|by apply poison_rel..].
Qed.

Lemma small_bounded X : length X = 18%nat -> small_lines X -> bounded max_line (18 * max_line) X.
Proof. intros Hl H. replace 18 with (zlen X) by (rewrite Hl; done). by apply bounded_norm1. Qed.

(** Results that are near a linear map of the lines [X]: one bound for small lines, two for lines whose absolute values add up to at most [m] sixteenths. *)
Definition near (E0 : Z) (E : Z -> Z) (f : nat -> Z) (X : list Z) (v : Z) : Prop :=
  let d := Z.abs (v * 2 ^ 56 - linear f X) in
  (small_lines X -> d <= E0 * 2 ^ 56) /\ (forall m, m = 4 \/ m = 16 -> norm1 X <= m * max_line -> d <= E m * 2 ^ 56).

Lemma near_of {P : list Z -> Prop} E0 E f X r :
  (small_lines X -> exists z, r = Some z /\ P z /\ forall i, (i < 36)%nat -> exists v, z !! i = Some v /\ Z.abs (v * 2 ^ 56 - linear (f i) X) <= E0 * 2 ^ 56) ->
  (forall m, m = 4 \/ m = 16 -> norm1 X <= m * max_line ->
    exists z, r = Some z /\ P z /\ forall i, (i < 36)%nat -> exists v, z !! i = Some v /\ Z.abs (v * 2 ^ 56 - linear (f i) X) <= E m * 2 ^ 56) ->
  small_lines X \/ norm1 X <= 2 ^ 28 ->
  exists z, r = Some z /\ P z /\ forall i, (i < 36)%nat -> exists v, z !! i = Some v /\ near E0 E (f i) X v.
Proof.
  intros H0 H1 HX. assert (exists z, r = Some z /\ P z /\ forall i, (i < 36)%nat -> exists v, z !! i = Some v) as (z&->&HP&Hv).
  { destruct HX as [HX|HX]; [destruct (H0 HX) as (z&->&HP&Hz)|destruct (H1 16 ltac:(by right) HX) as (z&->&HP&Hz)];
      exists z; (split; [done|split; [done|]]); intros i Hi; destruct (Hz i Hi) as (v&E'&_); eauto. }
  exists z. split; [done|]. split; [done|]. intros i Hi. destruct (Hv i Hi) as [v Ev]. exists v. split; [done|]. split.
  - intros Hs. destruct (H0 Hs) as (z'&[= <-]&_&Hz). destruct (Hz i Hi) as (v'&Ev'&Hd). congruence.
  - intros m Hm Hs. destruct (H1 m Hm Hs) as (z'&[= <-]&_&Hz). destruct (Hz i Hi) as (v'&Ev'&Hd). congruence.
Qed.

(** ** Claims *)

(** C30: the inverse transform of long blocks.  For 18 lines that are each at most a sixteenth of one, or
    whose absolute values add up to at most one, and for each of the windows (normal, start, stop), the fast
    algorithm of [III_imdct_l], three stages of butterflies around two 9-point transforms, does not overflow and
    never reads a cell of its stack arrays that it has not written, and each of its 36 results is the windowed
    cosine sum that defines the transform, up to 0.0224 for small lines, 0.0475 for lines whose absolute
    values add up to a quarter and 0.162 for the others: the accumulated worst case of the products of
    [FPM_DEFAULT].  The code does not saturate, and above these amplitudes (a requantised line may be as
    large as 8.0) sums of the butterflies can wrap: [imdct_l_wraps]. *)
Theorem III_imdct_l_correct W X z block_type st : 32 <= W -> lines_ok X -> length z = 36%nat -> stack_ok st ->
  block_type = 0 \/ block_type = 1 \/ block_type = 3 ->
  exists z', @III_imdct_l Z (fixed_words W) X z block_type st = Some z' /\ length z' = 36%nat /\
  forall i, (i < 36)%nat -> exists v, z' !! i = Some v /\
    near 6000000 (fun m => 2560000 * m + 2500000) (long_coefficient block_type i) X v.
Proof.
  intros HW [Hl HX] Hz Hst Hb. destruct (long_forms block_type Hb) as [H0 H1].
  apply (near_of (P := fun z => length z = 36%nat) 6000000 long_error); [| |exact HX].
  - intros Hs. exact (imdct_l_near W _ _ _ X z block_type st HW Hl Hz Hst (small_bounded X Hl Hs) H0).
  - intros m Hm Hs. exact (imdct_l_near W _ _ _ X z block_type st HW Hl Hz Hst (norm1_bounded _ X Hs) (H1 m Hm)).
Qed.

Lemma III_imdct_l_correct_witness :
  let X := map (fun x => (x - 9) * 3000000) (seqZ 0 18) in
  exists z', @III_imdct_l Z (fixed_words 32) X (repeat 7 36) 1 (ImdctStack (repeat 7 18) (repeat 7 18) (repeat 7 9)) = Some z' /\
  length z' = 36%nat /\ forall i, (i < 36)%nat -> exists v, z' !! i = Some v /\
    near 6000000 (fun m => 2560000 * m + 2500000) (long_coefficient 1 i) X v.
Proof.
  intros X. apply (III_imdct_l_correct 32 X).
  - apply Z.leb_le. reflexivity.
  - split; [reflexivity|]. right. apply Z.leb_le. reflexivity.
  - reflexivity.
  - split; [|split]; reflexivity.
  - right. left. reflexivity.
Defined.

(** Above the amplitudes of the theorem: 18 lines of plus or minus 0.25 make a butterfly wrap, and a result that
    should be -2.11 becomes 5.88. *)
Example imdct_l_wraps :
  let X := map (fun k => if Nat.even ((k + 1) / 2) then 2 ^ 26 else - 2 ^ 26) (seq 0 18) in
  (z ← @III_imdct_l Z (fixed_words 32) X (repeat 7 36) 0 (ImdctStack (repeat 7 18) (repeat 7 18) (repeat 7 9)); z !! 17%nat) = Some 1578280308 /\
  linear (long_coefficient 0 17) X / 2 ^ 56 = -567154281.
Proof. split; vm_compute; reflexivity. Qed.

(** The inverse transform of short blocks.  For the same lines, each of the 36 results of
    [III_imdct_s] is the sum of the windowed 12-point cosine sums of the three windows, six values
    apart, up to 0.00018 for small lines, 0.00039 for lines whose absolute values add up to a quarter and 0.0014
    for the others; nothing overflows and no unwritten cell is read. *)
Theorem III_imdct_s_correct W X z y : 32 <= W -> lines_ok X -> length z = 36%nat -> length y = 36%nat ->
  exists z', @III_imdct_s Z (fixed_words W) X z y = Some z' /\ length z' = 36%nat /\
  forall i, (i < 36)%nat -> exists v, z' !! i = Some v /\ near 47000 (fun m => 22000 * m + 15000) (short_coefficient i) X v.
Proof.
  intros HW [Hl HX] Hz Hy. destruct short_forms as [H0 H1].
  apply (near_of (P := fun z => length z = 36%nat) 47000 short_error); [| |exact HX].
  - intros Hs. exact (imdct_s_near W _ _ _ X z y HW Hl Hz Hy (small_bounded X Hl Hs) H0).
  - intros m Hm Hs. exact (imdct_s_near W _ _ _ X z y HW Hl Hz Hy (norm1_bounded _ X Hs) (H1 m Hm)).
Qed.

Lemma III_imdct_s_correct_witness :
  let X := map (fun x => (x - 9) * 1000000) (seqZ 0 18) in
  exists z', @III_imdct_s Z (fixed_words 64) X (repeat 7 36) (repeat 7 36) = Some z' /\ length z' = 36%nat /\
  forall i, (i < 36)%nat -> exists v, z' !! i = Some v /\ near 47000 (fun m => 22000 * m + 15000) (short_coefficient i) X v.
Proof.
  intros X. apply (III_imdct_s_correct 64 X).
  - apply Z.leb_le. reflexivity.
  - split; [reflexivity|]. left. apply (bool_decide_unpack _). vm_compute. exact I.
  - reflexivity.
  - reflexivity.
Defined.
