(* ===== verification/MadSideRange.v ===== *)
(** Side information of any bytes: [III_sideinfo] of [src/libmad/layer3.c] ends on every
    input that is long enough, and the fields it stores are in the ranges that the
    later stages rely on.

    The structure it fills lives on the stack: fields it does not read keep arbitrary
    bytes. *)
From S2P Require Import Prelude BitString MadBit MadSideInfo MadRequantize MadHuffDecode.

Lemma lor_range x y k : 0 <= k -> 0 <= x < 2 ^ k -> 0 <= y < 2 ^ k -> 0 <= x .| y < 2 ^ k.
Proof.
  intros Hk Hx Hy. split; [apply Z.lor_nonneg; lia|]. rewrite <- (Z.mod_small x (2 ^ k)), <- (Z.mod_small y (2 ^ k)) by done.
  rewrite <- !Z.land_ones, <- Z.land_lor_distr_l, Z.land_ones by done. apply Z.mod_pos_bound, pow2_pos, Hk.
Qed.

Section SideInfoTotal.
Variables (W : Z) (mem : list Z).
Hypotheses (HW : 32 <= W) (Hmem : bytes_ok mem).

Lemma read_total p len : bitptr_ok mem p -> 1 <= len <= 32 -> pos p + len <= 8 * zlen mem ->
  exists v p', mad_bit_read W mem p len = Some (v, p') /\ bitptr_ok mem p' /\ pos p' = pos p + len /\ 0 <= v < 2 ^ len.
Proof.
  intros Hp Hl Hin. destruct (read_exact W mem HW Hmem p len Hp) as (p'&->&Hp'&Hpos); [lia|done|].
  exists (bits mem (pos p) len), p'. split; [done|]. split; [done|]. split; [done|]. apply bits_range. lia.
Qed.

(** [n] reads of [len] bits into an array. *)
Lemma read_into_total len lo n l p : bitptr_ok mem p -> 1 <= len <= 32 -> 0 <= lo -> 0 <= n -> lo + n <= zlen l ->
  pos p + n * len <= 8 * zlen mem ->
  exists l' p', for_range lo (lo + n) (read_into W mem len) (l, p) = Some (l', p') /\ bitptr_ok mem p' /\
    pos p' = pos p + n * len /\ length l' = length l /\
    forall P : Z -> Prop, (forall v, 0 <= v < 2 ^ len -> P v) -> Forall P l -> Forall P l'.
Proof.
  intros Hp Hlen Hlo Hn Hl Hin. destruct (for_range_inv
    (fun i '(l', p') => bitptr_ok mem p' /\ pos p' = pos p + (i - lo) * len /\ length l' = length l /\
      forall P : Z -> Prop, (forall v, 0 <= v < 2 ^ len -> P v) -> Forall P l -> Forall P l')
    lo (lo + n) (read_into W mem len) (l, p)) as ([l' p']&->&H1&H2&H3&H4); [lia| | |].
  - split; [done|]. split; [lia|]. split; [done|]. auto.
  - intros i [l' p'] Hi (H1&H2&H3&H4). unfold read_into.
    assert ((i - lo + 1) * len <= n * len) by (apply Z.mul_le_mono_nonneg_r; lia).
    destruct (read_total p' len H1 Hlen) as (v&p2&->&G1&G2&G3); [lia|]. cbn [mbind option_bind].
    rewrite aset_Some by lia. cbn [mbind option_bind]. eexists. split; [done|]. split; [done|].
    split; [rewrite G2, H2; lia|]. split; [by rewrite length_insert|]. intros P HP HF. apply Forall_insert; auto.
  - exists l', p'. split; [done|]. split; [done|]. split; [lia|done].
Qed.

(** What the fields of a channel can be: the arrays hold bytes, the others what was read. *)
Record channel_bytes (c : channel) : Prop := ChannelBytes {
  cb_select : length (table_select c) = 3%nat /\ bytes_ok (table_select c);
  cb_gain : length (subblock_gain c) = 3%nat /\ bytes_ok (subblock_gain c);
  cb_scalefac : length (scalefac c) = 39%nat /\ bytes_ok (scalefac c)
}.

Record channel_range (c : channel) : Prop := ChannelRange {
  cr_main : 0 <= part2_3_length c < 2 ^ 12 /\ 0 <= big_values c < 2 ^ 9 /\ 0 <= global_gain c < 2 ^ 8;
  cr_flags : 0 <= ch_flags c < 16;
  cr_block : 0 <= block_type c < 4;
  cr_regions : regions_ok c;
  cr_bytes : channel_bytes c
}.

Lemma channel_range_gains c : channel_range c -> gains_ok c.
Proof. intros [(_&_&H) _ _ _ [_ Hg Hs]]. by split. Qed.

Lemma small_bytes l (k : Z) : Forall (fun v => 0 <= v < 2 ^ k) l -> 0 <= k <= 8 -> bytes_ok l.
Proof.
  intros H Hk. eapply Forall_impl; [exact H|]. intros v Hv. cbn in Hv. unfold byte_ok.
  pose proof (Z.pow_le_mono_r 2 k 8 ltac:(lia) ltac:(lia)). change (2 ^ 8) with 256 in *. lia.
Qed.

(** The first [k] entries of an array of which [k] were read. *)
Lemma read_into_prefix len n l p : bitptr_ok mem p -> 1 <= len <= 8 -> 0 <= n <= zlen l -> bytes_ok l ->
  pos p + n * len <= 8 * zlen mem ->
  exists l' p', for_range 0 n (read_into W mem len) (l, p) = Some (l', p') /\ bitptr_ok mem p' /\
    pos p' = pos p + n * len /\ length l' = length l /\ bytes_ok l' /\ Forall (fun v => 0 <= v < 2 ^ len) (take (Z.to_nat n) l').
Proof.
  intros Hp Hlen Hn Hb Hin. destruct (for_range_inv
    (fun i '(l', p') => bitptr_ok mem p' /\ pos p' = pos p + i * len /\ length l' = length l /\ bytes_ok l' /\
      Forall (fun v => 0 <= v < 2 ^ len) (take (Z.to_nat i) l'))
    0 n (read_into W mem len) (l, p)) as ([l' p']&->&H1&H2&H3&H4&H5); [lia| | |].
  - split; [done|]. split; [lia|]. split; [done|]. by split.
  - intros i [l' p'] Hi (H1&H2&H3&H4&H5). unfold read_into.
    assert ((i + 1) * len <= n * len) by (apply Z.mul_le_mono_nonneg_r; lia).
    destruct (read_total p' len H1 ltac:(lia)) as (v&p2&->&G1&G2&G3); [lia|]. cbn [mbind option_bind].
    rewrite aset_Some by lia. cbn [mbind option_bind]. eexists. split; [done|]. split; [done|].
    split; [rewrite G2, H2; lia|]. split; [by rewrite length_insert|].
    pose proof (Z.pow_le_mono_r 2 len 8 ltac:(lia) ltac:(lia)). change (2 ^ 8) with 256 in *.
    split; [apply Forall_insert; [done|unfold byte_ok; lia]|].
    replace (Z.to_nat (i + 1)) with (S (Z.to_nat i)) by lia.
    rewrite (take_S_r _ _ v) by (apply list_lookup_insert_eq; lia). rewrite take_insert_ge by lia. apply Forall_app. split; [done|by apply Forall_singleton].
  - by exists l', p'.
Qed.

Ltac read_next v p :=
  match goal with
  | Hp : bitptr_ok ?m ?q |- context [mad_bit_read ?W ?m ?q ?n] =>
      let E := fresh "E" in let Hok := fresh "Hok" in let Hpos := fresh "Hpos" in let Hv := fresh "Hv" in
      destruct (read_total q n Hp ltac:(lia) ltac:(lia)) as (v&p&E&Hok&Hpos&Hv); rewrite E; clear E; cbn [mbind option_bind]
  end.

Lemma channel_block_total lsf s c result p : channel_bytes c -> bitptr_ok mem p -> pos p + 23 <= 8 * zlen mem ->
  0 <= ch_flags c < 16 ->
  exists r c' p', channel_block W mem lsf s c result p = Some (r, c', p') /\ bitptr_ok mem p' /\ pos p' = pos p + 23 /\
    channel_bytes c' /\ regions_ok c' /\ 0 <= block_type c' < 4 /\ (r = 0 -> result = 0) /\ 0 <= ch_flags c' < 16 /\
    part2_3_length c' = part2_3_length c /\ big_values c' = big_values c /\ global_gain c' = global_gain c /\
    scalefac_compress c' = scalefac_compress c.
Proof.
  intros [[Sl Sb] [Gl Gb] Hs] Hp Hin Hf. unfold channel_block. read_next w p1. destruct (Z.eqb_spec w 0) as [->|Hw]; cbn [negb].
  - destruct (read_into_prefix 5 3 (table_select c) p1) as (l&p2&->&O2&P2&L2&B2&R2); [done|lia|lia|done|lia|]. cbn [mbind option_bind].
    read_next r0 p3. read_next r1 p4. eexists _, _, _. split; [done|]. split; [done|]. split; [lia|].
    cbn [set_block table_select subblock_gain scalefac region0_count region1_count block_type ch_flags part2_3_length big_values global_gain scalefac_compress].
    change (2 ^ 4) with 16 in *. change (2 ^ 3) with 8 in *. split; [split; cbn; auto with lia|].
    split; [split; cbn [set_block table_select region0_count region1_count]; [lia|split; [lia|]]|].
    { change (Z.to_nat 3) with 3%nat in R2. rewrite take_ge in R2 by lia. by apply Forall_take. }
    repeat split; lia.
  - read_next ty p2. read_next m p3.
    destruct (read_into_prefix 5 2 (table_select c) p3) as (l&p4&->&O4&P4&L4&B4&R4); [done|lia|lia|done|lia|]. cbn [mbind option_bind].
    destruct (read_into_prefix 3 3 (subblock_gain c) p4) as (g&p5&->&O5&P5&L5&B5&_); [done|lia|lia|done|lia|]. cbn [mbind option_bind].
    eexists _, _, _. split; [done|]. split; [done|]. split; [lia|].
    cbn [set_block table_select subblock_gain scalefac region0_count region1_count block_type ch_flags part2_3_length big_values global_gain scalefac_compress].
    change (2 ^ 2) with 4 in *.
    split; [split; cbn; auto with lia|].
    split; [split; cbn [set_block table_select region0_count region1_count]|].
    { repeat case_match; lia. }
    { split; [lia|]. rewrite (proj2 (Z.ltb_ge _ 38)) by (repeat case_match; lia). done. }
    split; [lia|]. split; [intros E0; clear - E0; repeat case_match; try discriminate E0; done|].
    split; [|done]. destruct (negb (m =? 0)); [|done]. by apply (lor_range _ _ 4).
Qed.
(** The bits of a channel. *)
Definition channel_bits (lsf : bool) : Z := if lsf then 63 else 59.

Lemma channel_info_total lsf s c result p : channel_bytes c -> bitptr_ok mem p -> pos p + channel_bits lsf <= 8 * zlen mem ->
  exists r c' p', channel_info W mem lsf s c result p = Some (r, c', p') /\ bitptr_ok mem p' /\ pos p' = pos p + channel_bits lsf /\
    channel_range c' /\ (r = 0 -> result = 0 /\ big_values c' <= 288) /\ 0 <= scalefac_compress c' < (if lsf then 512 else 16).
Proof.
  intros Hb Hp Hin. unfold channel_info. assert (59 <= channel_bits lsf) by (unfold channel_bits; destruct lsf; lia).
  read_next len p1. read_next big p2. read_next gain p3.
  destruct (read_total p3 (if lsf then 9 else 4)) as (co&p4&->&O4&P4&R4); [done|destruct lsf; lia|unfold channel_bits in *; destruct lsf; lia|].
  cbn [mbind option_bind].
  set (res := if _ && _ then _ else result).
  destruct (channel_block_total lsf s (set_main c len big gain co) res p4)
    as (r&c'&p5&->&O5&P5&B5&R5&T5&E5&F5&M1&M2&M3&M4); [by destruct Hb|done|unfold channel_bits in *; destruct lsf; lia|cbn; lia|]. cbn [mbind option_bind].
  destruct (read_total p5 (if lsf then 2 else 3)) as (v&p6&->&O6&P6&R6); [done|destruct lsf; lia|unfold channel_bits in *; destruct lsf; lia|].
  cbn [mbind option_bind]. eexists _, _, _. split; [done|]. split; [done|].
  split; [unfold channel_bits in *; destruct lsf; lia|]. cbn [set_main part2_3_length big_values global_gain scalefac_compress] in *.
  split; [|split].
  - split; cbn [set_ch_flags part2_3_length big_values global_gain ch_flags block_type]; [rewrite M1, M2, M3; lia| |done|by destruct R5|by destruct B5].
    apply (lor_range _ _ 4); [done|done|]. destruct lsf; [change (2 ^ 2) with 4 in R6|change (2 ^ 3) with 8 in R6]; change (2 ^ 4) with 16; lia.
  - intros Hr. specialize (E5 Hr). cbn [set_ch_flags big_values]. rewrite M2. unfold res in E5.
    destruct (Z.ltb_spec 288 big); [|cbn [andb] in E5; split; [done|lia]]. destruct (Z.eqb_spec result 0); cbn [andb] in E5; [discriminate E5|done].
  - cbn [set_ch_flags scalefac_compress]. rewrite M4. destruct lsf; [change 512 with (2 ^ 9)|change 16 with (2 ^ 4)]; done.
Qed.

(** ** Granules *)

Definition chan (si : sideinfo) (g ch : Z) : option channel := row ← aget (gr si) g; aget row ch.

(** The structure has its sizes and its arrays hold bytes. *)
Definition side_bytes (si : sideinfo) : Prop :=
  length (scfsi si) = 2%nat /\ length (gr si) = 2%nat /\ Forall (fun row => length row = 2%nat /\ Forall channel_bytes row) (gr si).

Lemma chan_get si g ch : side_bytes si -> 0 <= g < 2 -> 0 <= ch < 2 -> exists row c, aget (gr si) g = Some row /\ aget row ch = Some c /\
  length row = 2%nat /\ Forall channel_bytes row /\ channel_bytes c.
Proof.
  intros (_&Hl&Hf) Hg Hch. destruct (aget_Some (gr si) g) as [row Er]; [lia|].
  destruct (aget_Forall _ _ _ _ Hf Er) as [Hrl Hrf]. destruct (aget_Some row ch) as [c Ec]; [lia|].
  exists row, c. split; [done|]. split; [done|]. split; [done|]. split; [done|]. by apply (aget_Forall _ _ _ _ Hrf Ec).
Qed.

(** Replacing a channel. *)
Definition put_chan (grs : list (list channel)) (g ch : Z) (c : channel) : list (list channel) :=
  match aget grs g with Some row => <[Z.to_nat g := <[Z.to_nat ch := c]> row]> grs | None => grs end.

Lemma put_chan_bytes si g ch c begin priv sc : side_bytes si -> length sc = 2%nat -> channel_bytes c -> 0 <= g < 2 ->
  side_bytes (MkSideInfo begin priv sc (put_chan (gr si) g ch c)).
Proof.
  intros (_&Hl&Hf) Hsc Hc Hg. unfold put_chan. destruct (aget_Some (gr si) g) as [row Er]; [lia|]. rewrite Er.
  destruct (aget_Forall _ _ _ _ Hf Er) as [Hrl Hrf]. split; [done|]. cbn [gr]. split; [by rewrite length_insert|].
  apply Forall_insert; [done|]. split; [by rewrite length_insert|by apply Forall_insert].
Qed.

Lemma put_chan_get si g ch c begin priv sc g' ch' : side_bytes si -> 0 <= g < 2 -> 0 <= ch < 2 -> 0 <= g' -> 0 <= ch' ->
  chan (MkSideInfo begin priv sc (put_chan (gr si) g ch c)) g' ch' =
  if (g =? g') && (ch =? ch') then Some c else chan si g' ch'.
Proof.
  intros Hs Hg Hch Hg' Hch'. destruct (chan_get si g ch Hs Hg Hch) as (row&c0&Er&Ec&Hrl&_).
  unfold chan, put_chan. cbn [gr]. rewrite Er. pose proof (aget_inv _ _ _ Er).
  destruct (Z.eqb_spec g g') as [<-|Hne]; cbn [andb].
  - rewrite aget_insert_eq by lia. cbn [mbind option_bind]. rewrite Er. cbn [mbind option_bind].
    destruct (Z.eqb_spec ch ch') as [<-|Hne]; [by rewrite aget_insert_eq by lia|by rewrite aget_insert_ne by lia].
  - by rewrite aget_insert_ne by lia.
Qed.

Lemma granule_info_total lsf g ch result si dl p : side_bytes si -> 0 <= g < 2 -> 0 <= ch < 2 ->
  bitptr_ok mem p -> pos p + channel_bits lsf <= 8 * zlen mem ->
  exists r c dl' p', granule_info W mem lsf g ch (result, si, dl, p) =
      Some (r, MkSideInfo (main_data_begin si) (si_private_bits si) (scfsi si) (put_chan (gr si) g ch c), dl', p') /\
    bitptr_ok mem p' /\ pos p' = pos p + channel_bits lsf /\
    channel_range c /\ (r = 0 -> result = 0 /\ big_values c <= 288) /\ 0 <= scalefac_compress c < (if lsf then 512 else 16).
Proof.
  intros Hs Hg Hch Hp Hin. destruct (chan_get si g ch Hs Hg Hch) as (row&c0&Er&Ec&Hrl&_&Hb). unfold granule_info.
  rewrite Er. cbn [mbind option_bind]. rewrite Ec. cbn [mbind option_bind].
  destruct (aget_Some (scfsi si) ch) as [s Es]; [destruct Hs; lia|]. rewrite Es. cbn [mbind option_bind].
  destruct (channel_info_total lsf s c0 result p Hb Hp Hin) as (r&c&p'&->&O&P&R&E&C). cbn [mbind option_bind].
  pose proof (aget_inv _ _ _ Er). rewrite (aset_Some row) by lia. cbn [mbind option_bind].
  rewrite (aset_Some (gr si)) by lia. cbn [mbind option_bind]. eexists r, c, _, p'.
  split; [unfold put_chan; by rewrite Er|]. auto.
Qed.
(** Channel [ch] of granule [g] was read. *)
Definition chan_read (lsf : bool) (err : Z) (si : sideinfo) (g ch : Z) : Prop :=
  exists c, chan si g ch = Some c /\ channel_range c /\ (err = 0 -> big_values c <= 288) /\
    0 <= scalefac_compress c < (if lsf then 512 else 16).

Definition granules (lsf : bool) : Z := if lsf then 1 else 2.

Lemma granules_loop lsf nch si p : 1 <= nch <= 2 -> side_bytes si -> bitptr_ok mem p ->
  pos p + granules lsf * nch * channel_bits lsf <= 8 * zlen mem ->
  exists err si' dl p', for_range 0 (granules lsf) (fun g => for_range 0 nch (granule_info W mem lsf g)) (0, si, 0, p) =
      Some (err, si', dl, p') /\ bitptr_ok mem p' /\ pos p' = pos p + granules lsf * nch * channel_bits lsf /\
    side_bytes si' /\ main_data_begin si' = main_data_begin si /\ scfsi si' = scfsi si /\
    forall g ch, 0 <= g < granules lsf -> 0 <= ch < nch -> chan_read lsf err si' g ch.
Proof.
  intros Hn Hs Hp Hin. set (w := channel_bits lsf) in *. assert (0 <= w) by (unfold w, channel_bits; destruct lsf; lia).
  assert (1 <= granules lsf <= 2) as Hgr by (unfold granules; destruct lsf; lia).
  set (Inv := fun (k : Z) (st : Z * sideinfo * Z * mad_bitptr) => let '(err, si', dl, p') := st in
    bitptr_ok mem p' /\ pos p' = pos p + k * w /\ side_bytes si' /\ main_data_begin si' = main_data_begin si /\ scfsi si' = scfsi si /\
    forall g ch, 0 <= g -> 0 <= ch < nch -> g * nch + ch < k -> chan_read lsf err si' g ch).
  destruct (for_range_inv (fun g => Inv (g * nch)) 0 (granules lsf) (fun g => for_range 0 nch (granule_info W mem lsf g)) (0, si, 0, p))
    as ([[[err si'] dl] p']&->&H1&H2&H3&H4&H5&H6); [lia| | |].
  - split; [done|]. split; [lia|]. split; [done|]. split; [done|]. split; [done|]. lia.
  - intros g st Hg Hst. destruct (for_range_inv (fun ch => Inv (g * nch + ch)) 0 nch (granule_info W mem lsf g) st) as (st'&E&H'); [lia| | |].
    + by rewrite Z.add_0_r.
    + intros ch [[[err si'] dl] p'] Hch (H1&H2&H3&H4&H5&H6).
      assert ((g * nch + ch + 1) * w <= granules lsf * nch * w) by (apply Z.mul_le_mono_nonneg_r; [done|nia]).
      destruct (granule_info_total lsf g ch err si' dl p') as (r&c&dl'&p2&->&O&P&R&E&C); [done|lia|lia|done|fold w; lia|].
      eexists. split; [done|]. split; [done|]. split; [fold w in P; lia|].
      split; [apply put_chan_bytes; [done|apply H3|apply R|lia]|]. split; [done|]. split; [done|].
      intros g' ch' Hg' Hch' Hlt. unfold chan_read. rewrite put_chan_get by (done || lia).
      destruct (Z.eqb_spec g g') as [<-|Hne]; [destruct (Z.eqb_spec ch ch') as [<-|Hne]|]; cbn [andb].
      * exists c. split; [done|]. split; [done|]. split; [intros Hr; by apply E|done].
      * destruct (H6 g ch') as (c'&E1&E2&E3&E4); [lia|lia|lia|]. exists c'. split; [done|]. split; [done|]. split; [|done].
        intros Hr. by apply E3, E.
      * destruct (H6 g' ch') as (c'&E1&E2&E3&E4); [lia|lia|nia|]. exists c'. split; [done|]. split; [done|]. split; [|done].
        intros Hr. by apply E3, E.
    + exists st'. split; [done|]. by replace ((g + 1) * nch) with (g * nch + nch) by lia.
  - exists err, si', dl, p'. split; [done|]. split; [done|]. split; [done|]. split; [done|]. split; [done|]. split; [done|].
    intros g ch Hg Hch. apply H6; [lia|lia|nia].
Qed.

(** Bytes of side information. *)
Definition side_length (lsf : bool) (nch : Z) : Z := if lsf then (if nch =? 1 then 9 else 17) else (if nch =? 1 then 17 else 32).

Lemma sideinfo_total lsf nch si p : 1 <= nch <= 2 -> side_bytes si -> bitptr_ok mem p ->
  pos p + 8 * side_length lsf nch <= 8 * zlen mem ->
  exists err si' dl pl p', III_sideinfo W mem p nch lsf si = Some (err, si', dl, pl, p') /\ bitptr_ok mem p' /\
    pos p' = pos p + 8 * side_length lsf nch /\ side_bytes si' /\ 0 <= main_data_begin si' < 512 /\ 1 <= pl <= 5 /\
    forall g ch, 0 <= g < granules lsf -> 0 <= ch < nch -> chan_read lsf err si' g ch.
Proof.
  intros Hn Hs Hp Hin. assert (nch = 1 \/ nch = 2) as Hnch by lia.
  assert (8 * side_length lsf nch = (if lsf then 8 else 9) + (if lsf then if nch =? 1 then 1 else 2 else if nch =? 1 then 5 else 3) +
    (if lsf then 0 else 4 * nch) + granules lsf * nch * channel_bits lsf) as Ew by (destruct lsf, Hnch as [-> | ->]; done).
  assert (0 <= granules lsf * nch * channel_bits lsf) by (destruct lsf, Hnch as [-> | ->]; done).
  unfold III_sideinfo. set (privl := if lsf then if nch =? 1 then 1 else 2 else if nch =? 1 then 5 else 3) in *.
  assert (1 <= privl <= 5) by (unfold privl; repeat case_match; lia).
  destruct (read_total p (if lsf then 8 else 9)) as (b&p1&->&O1&P1&R1); [done|destruct lsf; lia|destruct lsf; lia|]. cbn [mbind option_bind].
  destruct (read_total p1 privl) as (pr&p2&->&O2&P2&R2); [done|lia|destruct lsf; lia|]. cbn [mbind option_bind].
  destruct Hs as (Hl&Hrest).
  assert (exists sc p3, (if negb lsf then for_range 0 nch (read_into W mem 4) (scfsi si, p2) else Some (scfsi si, p2)) = Some (sc, p3) /\
    bitptr_ok mem p3 /\ pos p3 = pos p2 + (if lsf then 0 else 4 * nch) /\ length sc = 2%nat) as (sc&p3&->&O3&P3&L3).
  { destruct lsf; cbn [negb]; [exists (scfsi si), p2; split; [done|]; split; [done|]; split; [lia|done]|].
    destruct (read_into_total 4 0 nch (scfsi si) p2) as (sc&p3&E&O&P&L&_); [done|lia|lia|lia|lia|lia|].
    exists sc, p3. split; [done|]. split; [done|]. split; [lia|congruence]. }
  cbn [mbind option_bind]. assert ((if negb lsf then 2 else 1) = granules lsf) as -> by (by destruct lsf).
  destruct (granules_loop lsf nch (MkSideInfo b pr sc (gr si)) p3) as (err&si'&dl&p4&->&O4&P4&S4&M4&C4&R4);
    [done|by split|done|destruct lsf; lia|]. cbn [mbind option_bind].
  exists err, si', dl, privl, p4. split; [done|]. split; [done|]. split; [destruct lsf; lia|]. split; [done|]. split; [|by split].
  rewrite M4. cbn [main_data_begin]. destruct lsf; [change (2 ^ 8) with 256 in R1|change (2 ^ 9) with 512 in R1]; lia.
Qed.
End SideInfoTotal.

(** ** Scale factors of any bytes *)

Section ScalefactorsTotal.
Variables (W : Z) (mem : list Z).
Hypotheses (HW : 32 <= W) (Hmem : bytes_ok mem).

(** A read of any width up to a byte; a width of 0 touches the next byte. *)
Lemma read_byte p len : bitptr_ok mem p -> 0 <= len <= 8 -> pos p + len + 1 <= 8 * zlen mem ->
  exists v p', mad_bit_read W mem p len = Some (v, p') /\ bitptr_ok mem p' /\ pos p' = pos p + len /\ byte_ok v.
Proof.
  intros Hp Hl Hin. destruct (Z.eq_dec len 0) as [->|Hne].
  - destruct (read_zero W mem p Hp) as (p'&E&H1&H2); [lia|]. exists 0, p'. split; [done|]. split; [done|]. unfold byte_ok. lia.
  - destruct (read_total W mem HW Hmem p len Hp) as (v&p'&E&H1&H2&H3); [lia|lia|]. exists v, p'. split; [done|]. split; [done|]. split; [done|].
    unfold byte_ok. pose proof (Z.pow_le_mono_r 2 len 8 ltac:(lia) ltac:(lia)). change (2 ^ 8) with 256 in *. lia.
Qed.

(** What a group of scale factors keeps. *)
Definition factors (p : mad_bitptr) (lo hi len : Z) (st : list Z * mad_bitptr) : Prop :=
  let '(l, p') := st in length l = 39%nat /\ bytes_ok l /\ bitptr_ok mem p' /\ pos p <= pos p' <= pos p + (hi - lo) * len.

Lemma read_group_total len lo hi l p : bitptr_ok mem p -> 0 <= len <= 8 -> 0 <= lo <= hi -> hi <= 39 ->
  length l = 39%nat -> bytes_ok l -> pos p + (hi - lo) * len + 1 <= 8 * zlen mem ->
  exists st, for_range lo hi (read_into W mem len) (l, p) = Some st /\ factors p lo hi len st.
Proof.
  intros Hp Hlen Hlo Hhi Hl Hb Hin.
  destruct (for_range_inv (fun i => factors p lo i len) lo hi (read_into W mem len) (l, p)) as (st&->&H); [lia| | |by exists st].
  - split; [done|]. split; [done|]. split; [done|]. lia.
  - intros i [l' p'] Hi (H1&H2&H3&H4). unfold read_into.
    assert ((i - lo + 1) * len <= (hi - lo) * len) by (apply Z.mul_le_mono_nonneg_r; lia).
    destruct (read_byte p' len H3 Hlen) as (v&p2&->&G1&G2&G3); [lia|]. cbn [mbind option_bind].
    rewrite aset_Some by lia. cbn [mbind option_bind]. eexists. split; [done|]. split; [by rewrite length_insert|].
    split; [by apply Forall_insert|]. split; [done|]. rewrite G2. lia.
Qed.

(** Copies and clears. *)
Lemma copy_total (f : Z -> option Z) lo hi l : 0 <= lo <= hi -> hi <= 39 -> length l = 39%nat -> bytes_ok l ->
  (forall i, lo <= i < hi -> exists v, f i = Some v /\ byte_ok v) ->
  exists l', for_range lo hi (fun i l => v ← f i; aset l i v) l = Some l' /\ length l' = 39%nat /\ bytes_ok l'.
Proof.
  intros Hlo Hhi Hl Hb Hf.
  destruct (for_range_inv (fun _ l => length l = 39%nat /\ bytes_ok l) lo hi (fun i l => v ← f i; aset l i v) l)
    as (l'&->&H); [lia|done| |by exists l'].
  intros i l' Hi [H1 H2]. destruct (Hf i Hi) as (v&->&Hv). cbn [mbind option_bind]. rewrite aset_Some by lia. eexists. split; [done|].
  split; [by rewrite length_insert|by apply Forall_insert].
Qed.

Lemma scalefac_band_total (share : bool) gr0 len lo hi l p : bitptr_ok mem p -> 0 <= len <= 8 -> 0 <= lo <= hi -> hi <= 39 ->
  length l = 39%nat -> bytes_ok l -> length gr0 = 39%nat -> bytes_ok gr0 -> pos p + (hi - lo) * len + 1 <= 8 * zlen mem ->
  exists st, scalefac_band W mem share gr0 len lo hi (l, p) = Some st /\ factors p lo hi len st.
Proof.
  intros Hp Hlen Hlo Hhi Hl Hb Hg Hgb Hin. unfold scalefac_band. destruct share; [|by apply read_group_total].
  destruct (copy_total (aget gr0) lo hi l) as (l'&->&H1&H2); [lia|lia|done|done| |].
  - intros i Hi. destruct (aget_Some gr0 i) as [v E]; [lia|]. exists v. split; [done|]. by apply (aget_Forall _ _ _ _ Hgb E).
  - cbn [mbind option_bind]. eexists. split; [done|]. split; [done|]. split; [done|]. split; [done|].
    assert (0 <= (hi - lo) * len) by nia. lia.
Qed.

Lemma scalefactors_total c g0 scfsi p : bitptr_ok mem p -> pos p + 200 <= 8 * zlen mem -> 8 * zlen mem < 2 ^ 32 ->
  0 <= scalefac_compress c < 16 -> length (scalefac c) = 39%nat /\ bytes_ok (scalefac c) ->
  length (scalefac g0) = 39%nat /\ bytes_ok (scalefac g0) ->
  exists len l p', III_scalefactors W mem p c g0 scfsi = Some (len, set_scalefac c l, p') /\
    length l = 39%nat /\ bytes_ok l /\ bitptr_ok mem p' /\ len = pos p' - pos p /\ 0 <= len <= 150.
Proof.
  intros Hp Hin Hmax Hc [Hl Hb] [Hg Hgb]. unfold III_scalefactors.
  destruct (slens_spec c Hc) as (->&S1&S2). destruct (slens c) as [s1 s2]. cbn [fst snd mbind option_bind] in *.
  match goal with |- context [?m ≫= _] => assert (exists l p', m = Some (l, p') /\ length l = 39%nat /\ bytes_ok l /\
    bitptr_ok mem p' /\ pos p <= pos p' <= pos p + 150) as (l&p'&->&H1&H2&H3&H4) end.
  { destruct (block_type c =? 2).
    - set (n := if bitset (ch_flags c) mixed_block_flag then 8 + 3 * 3 else 6 * 3). assert (17 <= n <= 18) by (unfold n; case_match; lia).
      clearbody n. assert (0 <= n * s1 <= 72) by nia.
      destruct (read_group_total s1 0 n (scalefac c) p) as ([l1 p1]&->&A1&A2&A3&A4); [done|lia|lia|lia|done|done|lia|]. cbn [mbind option_bind].
      destruct (read_group_total s2 n (n + 6 * 3) l1 p1) as ([l2 p2]&->&B1&B2&B3&B4); [done|lia|lia|lia|done|done|lia|]. cbn [mbind option_bind].
      destruct (copy_total (fun _ => Some 0) (n + 6 * 3) (n + 6 * 3 + 1 * 3) l2) as (l3&E&C1&C2); [lia|lia|done|done| |].
      + intros i _. exists 0. split; [done|unfold byte_ok; lia].
      + cbn [mbind option_bind] in E. rewrite E. cbn [mbind option_bind]. exists l3, p2. split; [done|]. split; [done|]. split; [done|]. split; [done|]. lia.
    - destruct (scalefac_band_total (bitset scfsi 0x8) (scalefac g0) s1 0 6 (scalefac c) p) as ([l1 p1]&->&A1&A2&A3&A4); [done|lia|lia|lia|done..|lia|]. cbn [mbind option_bind].
      destruct (scalefac_band_total (bitset scfsi 0x4) (scalefac g0) s1 6 11 l1 p1) as ([l2 p2]&->&B1&B2&B3&B4); [done|lia|lia|lia|done..|lia|]. cbn [mbind option_bind].
      destruct (scalefac_band_total (bitset scfsi 0x2) (scalefac g0) s2 11 16 l2 p2) as ([l3 p3]&->&C1&C2&C3&C4); [done|lia|lia|lia|done..|lia|]. cbn [mbind option_bind].
      destruct (scalefac_band_total (bitset scfsi 0x1) (scalefac g0) s2 16 21 l3 p3) as ([l4 p4]&->&D1&D2&D3&D4); [done|lia|lia|lia|done..|lia|]. cbn [mbind option_bind].
      rewrite aset_Some by lia. cbn [mbind option_bind]. eexists _, p4. split; [done|]. split; [by rewrite length_insert|].
      split; [apply Forall_insert; [done|unfold byte_ok; lia]|]. split; [done|]. lia. }
  cbn [mbind option_bind]. exists (mad_bit_length p p'), l, p'. split; [done|]. split; [done|]. split; [done|]. split; [done|].
  rewrite (bit_length_spec mem p p') by (try done; lia). lia.
Qed.
End ScalefactorsTotal.

(** ** MPEG-2 scale factors of any bytes *)

Section LsfTotal.
Variables (W : Z) (mem : list Z).
Hypotheses (HW : 32 <= W) (Hmem : bytes_ok mem).

(** Any bytes are what some encoder wrote: fields and partitions of given widths. *)
Lemma any_fields len n i : 0 <= len -> exists vals, length vals = n /\ Forall (in_bits len) vals /\ written mem i (fields len vals).
Proof.
  intros Hlen. revert i. induction n as [|n IH]; intros i; [by exists []|].
  destruct (IH (i + len)) as (vals&Hl&Hv&Hw). pose proof (bits_range mem i len Hlen) as Hb. exists (bits mem i len :: vals). cbn [length fields map].
  split; [by rewrite Hl|]. split; [by constructor|]. split; [by rewrite Z.mod_small|done].
Qed.

Lemma any_parts lens ns i : Forall (fun len => 0 <= len) lens -> Forall (fun n => 0 <= n) ns -> length lens = length ns ->
  exists parts, map (fun l : list Z => zlen l) parts = ns /\ Forall2 (fun len part => Forall (in_bits len) part) lens parts /\
    written mem i (concat (zip_with fields lens parts)).
Proof.
  intros Hlens. revert ns i. induction Hlens as [|len lens Hlen Hlens IH]; intros [|n ns] i Hns Hl; try done.
  { by exists []. }
  apply Forall_cons in Hns as [Hn Hns]. destruct (any_fields len (Z.to_nat n) i Hlen) as (vals&Hvl&Hv&Hw).
  destruct (IH ns (i + width (fields len vals)) Hns ltac:(cbn in Hl; lia)) as (parts&Hp&Hf&Hw'). exists (vals :: parts).
  cbn [map zip_with concat]. rewrite Hp. split; [f_equal; lia|]. split; [by constructor|]. apply written_app. by split.
Qed.

(** The fields are at most five bits wide. *)
Definition lengths_small (r : list Z * Z) : bool := forallb (fun s => s <=? 5) r.1.

Lemma lsf_small (intensity : bool) compress : 0 <= compress < 512 ->
  Forall (fun s => s <= 5) ((if intensity then lsf_lengths_intensity else lsf_lengths) compress).1.
Proof.
  intros Hc.
  assert (lengths_small ((if intensity then lsf_lengths_intensity else lsf_lengths) compress) = true) as H.
  { destruct intensity.
    - revert compress Hc. apply (forall_range (fun k => lengths_small (lsf_lengths_intensity k)) 0 512).
      vm_compute. reflexivity.
    - revert compress Hc. apply (forall_range (fun k => lengths_small (lsf_lengths k)) 0 512). vm_compute. reflexivity. }
  unfold lengths_small in H. rewrite forallb_forall in H. apply Forall_forall. intros x Hx%list_elem_of_In. apply H in Hx. lia.
Qed.

(** What a layout looks like. *)
Lemma lsf_layout_ok c (intensity : bool) : 0 <= scalefac_compress c < 512 ->
  let '(slen, nsfb) := lsf_layout c intensity in
  length slen = 4%nat /\ Forall (fun s => 0 <= s <= 5) slen /\ length nsfb = 4%nat /\ Forall (fun n => 0 <= n) nsfb /\ sum nsfb <= 39.
Proof.
  intros Hc. unfold lsf_layout. pose proof (lsf_small intensity _ Hc) as Hs.
  destruct (lsf_layout_spec intensity _ Hc) as (s0&s1&s2&s3&row&E&S0&S1&S2&S3&Hrow). rewrite E in *. cbn [fst] in Hs.
  rewrite !Forall_cons in Hs. destruct Hs as (?&?&?&?&_).
  set (index := if block_type c =? 2 then _ else _).
  assert (0 <= Z.of_nat index < 3) as Hi by (unfold index; repeat case_match; lia).
  destruct (nsfb_spec row _ Hrow Hi) as (rows&n0&n1&n2&n3&E1&E2&E3&Hsum). rewrite Nat2Z.id in E3. rewrite E3.
  split; [done|]. split; [repeat constructor; lia|]. split; [done|]. split; [|unfold sum; cbn [foldr]; lia].
  clear - Hrow Hi E1 E2. clearbody index.
  assert (forall rows, aget nsfb_table row = Some rows -> forall ns, aget rows (Z.of_nat index) = Some ns -> Forall (fun n => 0 <= n) ns) as H; [|by eapply H].
  intros rs Hr ns Hn. assert (Forall (Forall (Forall (fun n => 0 <= n))) nsfb_table) as Hall by (apply (bool_decide_unpack _); vm_compute; exact I).
  apply (aget_Forall _ _ _ _ (aget_Forall _ _ _ _ Hall Hr) Hn).
Qed.

Lemma fields_concat_width lens parts : Forall2 (fun len part => Forall (in_bits len) part) lens parts -> Forall (fun s => 0 <= s <= 5) lens ->
  0 <= width (concat (zip_with fields lens parts)) <= 5 * zlen (concat parts).
Proof.
  induction 1 as [|len part lens parts H1 H2 IH]; intros Hl; [cbn; lia|]. apply Forall_cons in Hl as [Hlen Hl].
  cbn [zip_with concat]. rewrite width_app, length_app, fields_width. specialize (IH Hl). nia.
Qed.

(** The scale factors are bytes; where the position is not marked as illegal it is at most 30. *)
Lemma pad39_bytes l : bytes_ok l -> (length l <= 39)%nat -> bytes_ok (pad39 l) /\ length (pad39 l) = 39%nat.
Proof.
  intros H Hl. unfold pad39. split; [|rewrite length_app, repeat_length; lia]. apply Forall_app. split; [done|]. apply Forall_forall.
  intros x ->%list_elem_of_In%repeat_spec. unfold byte_ok. lia.
Qed.

Lemma parts_bytes lens parts : Forall2 (fun len part => Forall (in_bits len) part) lens parts -> Forall (fun s => 0 <= s <= 5) lens ->
  bytes_ok (concat parts) /\ bytes_ok (concat (zip_with illegal lens parts)) /\
  length (concat (zip_with illegal lens parts)) = length (concat parts) /\
  forall b, (b < length (concat parts))%nat -> nth b (concat (zip_with illegal lens parts)) 0 = 0 -> nth b (concat parts) 0 <= 30.
Proof.
  induction 1 as [|len part lens parts H1 H2 IH]; intros Hl; [cbn; repeat split; try constructor; lia|].
  apply Forall_cons in Hl as [Hlen Hl]. destruct (IH Hl) as (B1&B2&Hlen2&B3). cbn [zip_with concat].
  pose proof (Z.pow_le_mono_r 2 len 5 ltac:(lia) ltac:(lia)) as H5. change (2 ^ 5) with 32 in H5.
  split; [apply Forall_app; split; [|done]; eapply Forall_impl; [exact H1|]; unfold in_bits, byte_ok; lia|].
  split; [apply Forall_app; split; [|done]; apply Forall_map, Forall_true; intros v; cbn; unfold byte_ok; case_match; lia|].
  split; [by rewrite !length_app, Hlen2, illegal_length|].
  intros b Hb Hz. rewrite length_app in Hb. destruct (decide (b < length part)%nat) as [Hlt|Hge].
  - rewrite app_nth1 in Hz by by rewrite illegal_length. rewrite app_nth1 by done.
    unfold illegal in Hz. set (f := fun v : Z => if v =? 2 ^ len - 1 then 1 else 0) in Hz.
    rewrite (nth_indep _ 0 (f 0)), map_nth in Hz by by rewrite length_map. unfold f in Hz.
    rewrite Forall_forall in H1. pose proof (H1 (nth b part 0) ltac:(apply list_elem_of_In, nth_In; lia)) as Hin. unfold in_bits in Hin.
    destruct (Z.eqb_spec (nth b part 0) (2 ^ len - 1)); lia.
  - rewrite app_nth2 in Hz by (rewrite illegal_length; lia). rewrite app_nth2 by lia. rewrite illegal_length in Hz. apply B3; [lia|done].
Qed.

Lemma pad39_app l b : (length l <= 39)%nat -> nth b (pad39 l) 0 = nth b l 0.
Proof.
  intros Hl. unfold pad39. destruct (decide (b < length l)%nat); [by rewrite app_nth1|]. rewrite app_nth2 by lia. rewrite nth_repeat.
  by rewrite nth_overflow by lia.
Qed.

(** What [III_scalefactors_lsf] makes of the channel [c], and of the cells [l1] of the other. *)
Record lsf_factors (c c' : channel) (l1 : list Z) : Prop := LsfFactors {
  lf_channel : c' = set_scalefac c (scalefac c') \/ c' = set_scalefac (set_ch_flags c (ch_flags c .| preflag)) (scalefac c');
  lf_factors : length (scalefac c') = 39%nat /\ bytes_ok (scalefac c');
  lf_marks : length l1 = 39%nat /\ bytes_ok l1;
  lf_legal : forall b, nth b l1 0 = 0 -> nth b (scalefac c') 0 <= 30
}.

Lemma lsf_total c gr1ch ext p : bitptr_ok mem p -> pos p + 200 <= 8 * zlen mem -> 8 * zlen mem < 2 ^ 32 ->
  0 <= scalefac_compress c < 512 -> length (scalefac c) = 39%nat -> (forall c1, gr1ch = Some c1 -> length (scalefac c1) = 39%nat) ->
  exists len c' l1 p', III_scalefactors_lsf W mem p c gr1ch ext = Some (len, c',
      (fun c1 => if bitset ext I_STEREO then set_scalefac c1 l1 else c1) <$> gr1ch, p') /\
    lsf_factors c c' l1 /\ bitptr_ok mem p' /\ len = pos p' - pos p /\ 0 <= len <= 195.
Proof.
  intros Hp Hin Hmax Hc Hl Hl1. set (intensity := bitset ext I_STEREO && bool_decide (is_Some gr1ch)).
  pose proof (lsf_layout_ok c intensity Hc) as Hlay. destruct (lsf_layout c intensity) as [slen nsfb] eqn:Elay.
  destruct Hlay as (L1&L2&L3&L4&Hsum).
  destruct (any_parts slen nsfb (pos p)) as (parts&Hparts&Hf&Hw); [by eapply Forall_impl; [exact L2|intros ? [? _]]|done|lia|].
  assert (zlen (concat parts) = sum nsfb) as Hcl by by rewrite <- sum_concat, Hparts.
  pose proof (fields_concat_width slen parts Hf L2) as Hwidth.
  assert (lsf_code c intensity parts = concat (zip_with fields slen parts)) as Ecode by (unfold lsf_code; by rewrite Elay).
  destruct (parts_bytes slen parts Hf L2) as (B1&B2&Bl&B3).
  destruct (lsf_read W mem HW Hmem c gr1ch ext parts p (pos p)) as (p'&->&Hp'&Hpos'); fold intensity; rewrite ?Ecode; try done; try lia.
  { unfold lsf_parts_ok. by rewrite Elay. }
  fold intensity in Hpos'. fold intensity. rewrite Ecode in *.
  set (c' := lsf_decoded c intensity parts). set (l1 := pad39 (concat (zip_with illegal slen parts))).
  eexists (width (concat (zip_with fields slen parts))), c', l1, p'. split; [|split; [|split; [done|split; [lia|lia]]]].
  - do 2 f_equal. destruct gr1ch as [c1|]; [|done]. cbn [fmap option_fmap option_map]. do 2 f_equal.
    assert (intensity = bitset ext I_STEREO) as Ei by (unfold intensity; rewrite bool_decide_eq_true_2 by (by eexists); apply andb_true_r).
    unfold lsf_other. rewrite Elay, Ei. done.
  - assert (length (concat parts) <= 39)%nat by lia. split.
    + unfold c', lsf_decoded. cbn [scalefac set_scalefac]. case_match; auto.
    + unfold c', lsf_decoded. cbn [scalefac set_scalefac]. destruct (pad39_bytes (concat parts)); auto.
    + unfold l1. destruct (pad39_bytes (concat (zip_with illegal slen parts))); [done|lia|auto].
    + intros b. unfold l1, c', lsf_decoded. cbn [scalefac set_scalefac]. rewrite !pad39_app by lia. intros Hz.
      destruct (decide (b < length (concat parts))%nat); [by apply B3|]. rewrite nth_overflow by lia. lia.
Qed.
End LsfTotal.
