(* ===== verification/MadLayer3.v ===== *)
(** The Layer III decoder proper, [mad_layer_III] of [src/libmad/layer3.c], with
    [III_decode] and the overlap of granules.

    A frame's main data may begin up to 511 bytes before its side information, in the
    main data of earlier frames: [mad_layer_III] keeps a reservoir of those bytes.
    [III_decode] puts the stages of the other files together. *)
From S2P Require Import Prelude BitString Crc MadBit MadTimer MadFrame MadSideInfo.
From S2P Require Import MadRequantize MadHuffDecode MadSpectrum MadStereo MadImdct MadSideRange.

(** ** Overlap *)

(** [sample[i][sb]] of an array of rows. *)
Definition get2 (rows : list (list Z)) (i sb : Z) : option Z := row ← aget rows i; aget row sb.

Definition set2 (rows : list (list Z)) (i sb x : Z) : option (list (list Z)) :=
  row ← aget rows i; row ← aset row sb x; aset rows i row.

(** [sample] is [sbsample[ch][o]] on. *)
Definition III_overlap (output overlap : list Z) (sample : list (list Z)) (o sb : Z) : option (list Z * list (list Z)) :=
  for_range 0 18 (fun i '(overlap, sample) =>
    a ← aget output i; b ← aget overlap i;
    sample ← set2 sample (o + i) sb (s32 (a + b));
    c ← aget output (i + 18);
    overlap ← aset overlap i c;
    Some (overlap, sample)) (overlap, sample).

Definition III_overlap_z (overlap : list Z) (sample : list (list Z)) (o sb : Z) : option (list Z * list (list Z)) :=
  for_range 0 18 (fun i '(overlap, sample) =>
    b ← aget overlap i;
    sample ← set2 sample (o + i) sb b;
    overlap ← aset overlap i 0;
    Some (overlap, sample)) (overlap, sample).

(** [for (i = 1; i < 13; i += 4)], the loads ahead of the stores. *)
Definition III_freqinver (sample : list (list Z)) (o sb : Z) : option (list (list Z)) :=
  tmp1 ← get2 sample (o + 1) sb;
  tmp2 ← get2 sample (o + 3) sb;
  '(sample, tmp1, tmp2) ← for_range 0 3 (fun j '(sample, tmp1, tmp2) =>
    let i := 1 + 4 * j in
    sample ← set2 sample (o + i) sb (s32 (- tmp1));
    tmp1 ← get2 sample (o + i + 4) sb;
    sample ← set2 sample (o + i + 2) sb (s32 (- tmp2));
    tmp2 ← get2 sample (o + i + 6) sb;
    Some (sample, tmp1, tmp2)) (sample, tmp1, tmp2);
  sample ← set2 sample (o + 13) sb (s32 (- tmp1));
  tmp1 ← get2 sample (o + 17) sb;
  sample ← set2 sample (o + 15) sb (s32 (- tmp2));
  set2 sample (o + 17) sb (s32 (- tmp1)).

(** ** Frames *)

Definition MAD_MODE_JOINT_STEREO : Z := 2.

Definition MAD_NCHANNELS (h : mad_header) : Z := if mode h =? 0 then 1 else 2.

Record mad_frame := MkFrame {
  header : mad_header; fr_options : Z;
  sbsample : list (list (list Z)); overlap : option (list (list (list Z)))
}.

Definition set_header (f : mad_frame) (h : mad_header) : mad_frame := MkFrame h (fr_options f) (sbsample f) (overlap f).
Definition set_samples (f : mad_frame) (s : list (list (list Z))) (o : list (list (list Z))) : mad_frame :=
  MkFrame (header f) (fr_options f) s (Some o).

(** The arrays of the stack frames of [III_decode] and of what it calls, all of them
    uninitialised. *)
Record decode_stack := DecodeStack {
  ds_xr : list (list Z); ds_output : list Z; ds_exponents : list Z; ds_reqcache : list Z;
  ds_modes : list Z; ds_tmp : list Z; ds_imdct : imdct_stack Z; ds_y : list Z
}.

Section Layer3.
Variable long_bits : Z.

#[local] Instance words : Fixed Z := fixed_words long_bits.

(** ** [III_decode] *)

(** The index of the sampling frequency in [sfbwidth_table]. *)
Definition sfreq_index (h : mad_header) : Z :=
  let mpeg25 := bitset (flags h) MAD_FLAG_MPEG_2_5_EXT in
  let sfreq := if mpeg25 then u32 (samplerate h * 2) else samplerate h in
  let sfreqi := u32 (((sfreq .>> 7) .& 0x000f) + ((sfreq .>> 15) .& 0x0001) - 8) in
  if mpeg25 then u32 (sfreqi + 3) else sfreqi.

(** Scale factors and Huffman decoding of a channel; state the error, the side information,
    the pointer and [xr].  Once there is an error the rest is skipped: the function
    has returned. *)
Definition decode_channel (mem : list Z) (h : mad_header) (ds : decode_stack) (g ch : Z)
    (st : Z * sideinfo * mad_bitptr * list (list Z)) : option (Z * sideinfo * mad_bitptr * list (list Z)) :=
  let '(err, si, p, xr) := st in
  if negb (err =? 0) then Some st else
  granule ← aget (gr si) g;
  c ← aget granule ch;
  r ← aget sfbwidth_table (sfreq_index h);
  let widths := block_widths r c in
  '(part2_length, c, si, p) ←
    (if bitset (flags h) MAD_FLAG_LSF_EXT then
       other ← aget (gr si) 1;
       c1 ← aget other 1;
       '(len, c, c1', p) ← III_scalefactors_lsf long_bits mem p c (if ch =? 0 then None else Some c1) (mode_extension h);
       granule ← aset granule ch c;
       grs ← aset (gr si) g granule;
       other ← aget grs 1;
       other ← (match c1' with Some c1' => aset other 1 c1' | None => Some other end);
       grs ← aset grs 1 other;
       Some (len, c, MkSideInfo (main_data_begin si) (si_private_bits si) (scfsi si) grs, p)
     else
       first ← aget (gr si) 0;
       c0 ← aget first ch;
       s ← (if g =? 0 then Some 0 else aget (scfsi si) ch);
       '(len, c, p) ← III_scalefactors long_bits mem p c c0 s;
       granule ← aset granule ch c;
       grs ← aset (gr si) g granule;
       Some (len, c, MkSideInfo (main_data_begin si) (si_private_bits si) (scfsi si) grs, p));
  x ← aget xr ch;
  '(err, x, p) ← III_huffdecode long_bits mem p x c widths part2_length (ds_exponents ds) (ds_reqcache ds);
  xr ← aset xr ch x;
  Some (err, si, p, xr).

(** The lines of a subband through the inverse transform and the overlap; state
    [output], the overlap of the channel and its samples.  [long] is the block type of a long
    block. *)
Definition synth_subband (ds : decode_stack) (o : Z) (long : option Z) (x : list Z) (sb : Z)
    (st : list Z * list (list Z) * list (list Z)) : option (list Z * list (list Z) * list (list Z)) :=
  let '(output, over, sample) := st in
  X ← asub x (18 * sb) 18;
  output ← (match long with
            | Some block_type => III_imdct_l X output block_type (ds_imdct ds)
            | None => III_imdct_s X output (ds_y ds)
            end);
  row ← aget over sb;
  '(row, sample) ← III_overlap output row sample o sb;
  over ← aset over sb row;
  Some (output, over, sample).

Definition inverted (o sb : Z) (st : list Z * list (list Z) * list (list Z)) : option (list Z * list (list Z) * list (list Z)) :=
  let '(output, over, sample) := st in
  if bitset sb 1 then sample ← III_freqinver sample o sb; Some (output, over, sample) else Some st.

Definition zero_subband (o sb : Z) (st : list Z * list (list Z) * list (list Z)) : option (list Z * list (list Z) * list (list Z)) :=
  let '(output, over, sample) := st in
  row ← aget over sb;
  '(row, sample) ← III_overlap_z row sample o sb;
  over ← aset over sb row;
  Some (output, over, sample).

(** [while (i > 36 && xr[ch][i - 1] == 0) --i] *)
Fixpoint last_line (fuel : nat) (x : list Z) (i : Z) : option Z :=
  match fuel with
  | O => None
  | S fuel => if 36 <? i then v ← aget x (i - 1); if v =? 0 then last_line fuel x (i - 1) else Some i else Some i
  end.

(** From [III_reorder] to the subbands of zeros, for one channel; [x] are its lines, [over] and
    [sample] its rows of [overlap] and [sbsample]. *)
Definition synth_channel (ds : decode_stack) (o : Z) (c : channel) (widths x : list Z) (over sample : list (list Z)) (output : list Z)
    : option (list Z * list (list Z) * list (list Z) * list Z) :=
  let short := block_type c =? 2 in
  let mixed := bitset (ch_flags c) mixed_block_flag in
  x ← (if short then
         x ← III_reorder x c widths (ds_tmp ds);
         if mixed then III_aliasreduce long_bits x 36 else Some x
       else III_aliasreduce long_bits x 576);
  let long := if negb short || mixed then Some (if mixed then 0 else block_type c) else None in
  '(output, over, sample) ← for_range 0 2 (synth_subband ds o long x) (output, over, sample);
  sample ← III_freqinver sample o 1;
  i ← last_line 541 x 576;
  let sblimit := 32 - (576 - i) / 18 in
  let long := if negb short then Some (block_type c) else None in
  st ← for_range 2 sblimit (fun sb st => st ← synth_subband ds o long x sb st; inverted o sb st) (output, over, sample);
  '(output, over, sample) ← for_range sblimit 32 (fun sb st => st ← zero_subband o sb st; inverted o sb st) st;
  Some (x, over, sample, output).

(** Synthesis of channel [ch] of a granule; state [xr], [output], [overlap] and [sbsample]. *)
Definition granule_channel (h : mad_header) (ds : decode_stack) (g : Z) (granule : list channel) (ch : Z)
    (st : list (list Z) * list Z * list (list (list Z)) * list (list (list Z)))
    : option (list (list Z) * list Z * list (list (list Z)) * list (list (list Z))) :=
  let '(xr, output, overs, samples) := st in
  c ← aget granule ch;
  r ← aget sfbwidth_table (sfreq_index h);
  x ← aget xr ch;
  over ← aget overs ch;
  sample ← aget samples ch;
  '(x, over, sample, output) ← synth_channel ds (18 * g) c (block_widths r c) x over sample output;
  xr ← aset xr ch x;
  overs ← aset overs ch over;
  samples ← aset samples ch sample;
  Some (xr, output, overs, samples).

(** [III_stereo(xr, granule, header, sfbwidth[0])]; the widths depend on the block type and
    the mixed block flag, which do not change after the side information. *)
Definition joint_stereo (h : mad_header) (ds : decode_stack) (si : sideinfo) (g : Z) (xr : list (list Z))
    : option (Z * list (list Z) * mad_header) :=
  if (mode h =? MAD_MODE_JOINT_STEREO) && negb (mode_extension h =? 0) then
    granule ← aget (gr si) g;
    c0 ← aget granule 0;
    c1 ← aget granule 1;
    r ← aget sfbwidth_table (sfreq_index h);
    x0 ← aget xr 0;
    x1 ← aget xr 1;
    let illegal_pos := match aget (gr si) (g + 1) with Some [_; c] => scalefac c | _ => [] end in
    '(err, (x0, x1), h) ← III_stereo long_bits (x0, x1) c0 c1 illegal_pos h (block_widths r c0) (ds_modes ds);
    xr ← aset xr 0 x0;
    xr ← aset xr 1 x1;
    Some (err, xr, h)
  else Some (0, xr, h).

(** A granule; state the error, the side information, the pointer and the frame. *)
Definition decode_granule (mem : list Z) (nch : Z) (ds : decode_stack) (g : Z) (st : Z * sideinfo * mad_bitptr * mad_frame)
    : option (Z * sideinfo * mad_bitptr * mad_frame) :=
  let '(err, si, p, f) := st in
  if negb (err =? 0) then Some st else
  '(err, si, p, xr) ← for_range 0 nch (decode_channel mem (header f) ds g) (0, si, p, ds_xr ds);
  if negb (err =? 0) then Some (err, si, p, f) else
  '(err, xr, h) ← joint_stereo (header f) ds si g xr;
  let f := set_header f h in
  if negb (err =? 0) then Some (err, si, p, f) else
  granule ← aget (gr si) g;
  overs ← overlap f;
  '(_, _, overs, samples) ← for_range 0 nch (granule_channel h ds g granule) (xr, ds_output ds, overs, sbsample f);
  Some (0, si, p, set_samples f samples overs).

(** The error, the side information, the pointer and the frame. *)
Definition III_decode (mem : list Z) (p : mad_bitptr) (f : mad_frame) (si : sideinfo) (nch : Z) (ds : decode_stack)
    : option (Z * sideinfo * mad_bitptr * mad_frame) :=
  let ngr := if bitset (flags (header f)) MAD_FLAG_LSF_EXT then 1 else 2 in
  for_range 0 ngr (decode_granule mem nch ds) (0, si, p, f).
End Layer3.

(** ** [mad_layer_III] *)

Definition MAD_BUFFER_MDLEN : Z := 511 + 2048 + MAD_BUFFER_GUARD.

Definition MAD_ERROR_NOMEM : Z := 0x0031.
Definition MAD_ERROR_BADCRC : Z := 0x0201.
Definition MAD_ERROR_BADFRAMELEN : Z := 0x0231.
Definition MAD_ERROR_BADDATAPTR : Z := 0x0235.
Definition MAD_OPTION_IGNORECRC : Z := 0x0001.

(** The fields of [mad_stream] that only Layer III uses; [anc_ptr] points into the reservoir
    or into the input. *)
Record main_buffer := MkMain {
  main_data : option (list Z); md_len : Z; anc_ptr : bool * mad_bitptr; anc_bitlen : Z
}.

Definition set_md_len (m : main_buffer) (v : Z) : main_buffer := MkMain (main_data m) v (anc_ptr m) (anc_bitlen m).
Definition set_main_data (m : main_buffer) (d : list Z) (v : Z) : main_buffer := MkMain (Some d) v (anc_ptr m) (anc_bitlen m).
Definition set_anc (m : main_buffer) (p : bool * mad_bitptr) (v : Z) : main_buffer := MkMain (main_data m) (md_len m) p v.

Section MainData.
Variable long_bits : Z.
Variable mem : list Z.

Abbreviation read := (mad_bit_read long_bits mem).

(** The length of the side information. *)
Definition si_length (h : mad_header) : Z :=
  let nch := MAD_NCHANNELS h in
  if bitset (flags h) MAD_FLAG_LSF_EXT then (if nch =? 1 then 9 else 17) else (if nch =? 1 then 17 else 32).

(** The header and the result after the CRC check. *)
Definition check_crc (s : mad_stream) (f : mad_frame) (si_len : Z) : option (mad_stream * mad_frame * Z) :=
  let h := header f in
  if bitset (flags h) MAD_FLAG_PROTECTION then
    c ← mad_bit_crc long_bits mem (ptr s) (si_len * CHAR_BIT) (crc_check h);
    let h := set_crc h c (crc_target h) in
    if negb (c =? crc_target h) && negb (bitset (fr_options f) MAD_OPTION_IGNORECRC)
    then Some (set_error s MAD_ERROR_BADCRC, set_header f h, -1)
    else Some (s, set_header f h, 0)
  else Some (s, f, 0).

(** [main_data_begin] of the next frame, 0 when there is no Layer III header. *)
Definition next_begin (next_frame : Z) : option Z :=
  '(h, peek) ← read (mad_bit_init next_frame) 32;
  if (h .& 0xffe60000) =? 0xffe20000 then
    peek ← (if negb (bitset h 0x00010000) then mad_bit_skip mem peek 16 else Some peek);
    '(v, _) ← read peek (if bitset h 0x00080000 then 9 else 8);
    Some v
  else Some 0.

(** What is done with the main data of this frame. *)
Inductive placement :=
  | Direct (p : mad_bitptr)
  | Reservoir (p : mad_bitptr)
  | BadPointer
  | TooLong.

(** Finds the main data of the frame: its place, the reservoir and [frame_used]. *)
Definition find_main (data : list Z) (mdl begin md : Z) (p : mad_bitptr) : option (placement * list Z * Z * Z) :=
  if begin =? 0 then Some (Direct p, data, 0, md)
  else if mdl <? begin then Some (BadPointer, data, mdl, 0)
  else
    let q := mad_bit_init (mdl - begin) in
    if begin <? md then
      if negb (u32 (u32 (mdl + md) - begin) <=? MAD_BUFFER_MDLEN) then Some (TooLong, data, mdl, 0) else
      src ← asub mem (mad_bit_nextbyte p) (md - begin);
      data ← ablit data mdl src;
      Some (Reservoir q, data, mdl + (md - begin), md - begin)
    else Some (Reservoir q, data, mdl, 0).

(** Preloads the reservoir for the next frame. *)
Definition preload (data : list Z) (mdl begin md free next next_frame : Z) : option (list Z * Z) :=
  if next <=? free then
    src ← asub mem (next_frame - next) next;
    data ← ablit data 0 src;
    Some (data, next)
  else
    '(data, mdl) ←
      (if md <? begin then
         let extra := begin - md in
         let extra := if next <? extra + free then next - free else extra in
         if extra <? mdl then
           src ← asub data (mdl - extra) extra; data ← ablit data 0 src; Some (data, extra)
         else Some (data, mdl)
       else Some (data, 0));
    src ← asub mem (next_frame - free) free;
    data ← ablit data mdl src;
    Some (data, mdl + free).

Section Decode.
(** [III_decode] of the main data that a pointer points to. *)
Variable decode : list Z -> mad_bitptr -> mad_frame -> sideinfo -> Z -> option (Z * sideinfo * mad_bitptr * mad_frame).

(** [if (result == 0)]: decodes and designates the ancillary bits. *)
Definition decode_main (place : placement) (data : list Z) (s : mad_stream) (m : main_buffer) (f : mad_frame) (si : sideinfo)
    (nch md data_bitlen result : Z) : option (mad_stream * main_buffer * mad_frame * Z) :=
  match place with
  | Direct p | Reservoir p =>
      if result =? 0 then
        let inside := match place with Reservoir _ => true | _ => false end in
        '(err, _, p, f) ← decode (if inside then data else mem) p f si nch;
        let anc := u32 (md * CHAR_BIT - data_bitlen) in
        if negb (err =? 0) then Some (set_error s err, set_anc m (inside, p) anc, f, -1)
        else Some (s, set_anc m (inside, p) anc, f, 0)
      else Some (s, m, f, result)
  | _ => Some (s, m, f, result)
  end.

(** After the frame sanity check; [si0] is the uninitialised side information. *)
Definition layer_III_body (s : mad_stream) (m : main_buffer) (f : mad_frame) (data : list Z) (si0 : sideinfo)
    : option (Z * mad_stream * main_buffer * mad_frame) :=
  let nch := MAD_NCHANNELS (header f) in
  '(s, f, result) ← check_crc s f (si_length (header f));
  '(err, si, data_bitlen, priv_bitlen, p) ←
    III_sideinfo long_bits mem (ptr s) nch (bitset (flags (header f)) MAD_FLAG_LSF_EXT) si0;
  let s := set_ptr s p in
  let '(s, result) := if negb (err =? 0) && (result =? 0) then (set_error s err, -1) else (s, result) in
  let f := set_header f (set_flags (header f) (flags (header f) .| priv_bitlen) (private_bits (header f) .| si_private_bits si)) in
  next ← next_begin (next_frame s);
  let frame_space := next_frame s - mad_bit_nextbyte (ptr s) in
  let next := if main_data_begin si + frame_space <? next then 0 else next in
  let md := main_data_begin si + frame_space - next in
  '(place, data, mdl, frame_used) ← find_main data (md_len m) (main_data_begin si) md (ptr s);
  let m := set_main_data m data mdl in
  match place with
  | TooLong => Some (-1, set_error s MAD_ERROR_BADPART3LEN, m, f)
  | _ =>
      let '(s, result) := match place with
        | BadPointer => if result =? 0 then (set_error s MAD_ERROR_BADDATAPTR, -1) else (s, result)
        | _ => (s, result) end in
      '(s, m, f, result) ← decode_main place data s m f si nch md data_bitlen result;
      '(data, mdl) ← preload data mdl (main_data_begin si) md (frame_space - frame_used) next (next_frame s);
      Some (result, s, set_main_data m data mdl, f)
  end.

(** [fresh_main] and [fresh_overlap] are what the allocations return, [None] for no memory;
    [calloc] returns zeros. *)
Definition layer_III (s : mad_stream) (m : main_buffer) (f : mad_frame) (fresh_main : option (list Z))
    (fresh_overlap : option (list (list (list Z)))) (si0 : sideinfo) : option (Z * mad_stream * main_buffer * mad_frame) :=
  match (match main_data m with Some d => Some d | None => fresh_main end) with
  | None => Some (-1, set_error s MAD_ERROR_NOMEM, m, f)
  | Some data =>
      let m := MkMain (Some data) (md_len m) (anc_ptr m) (anc_bitlen m) in
      match (match overlap f with Some o => Some o | None => fresh_overlap end) with
      | None => Some (-1, set_error s MAD_ERROR_NOMEM, m, f)
      | Some o =>
          let f := MkFrame (header f) (fr_options f) (sbsample f) (Some o) in
          if next_frame s - mad_bit_nextbyte (ptr s) <? si_length (header f)
          then Some (-1, set_error s MAD_ERROR_BADFRAMELEN, set_md_len m 0, f)
          else layer_III_body s m f data si0
      end
  end.
End Decode.

Definition mad_layer_III (ds : decode_stack) (s : mad_stream) (m : main_buffer) (f : mad_frame) (fresh_main : option (list Z))
    (fresh_overlap : option (list (list (list Z)))) (si0 : sideinfo) : option (Z * mad_stream * main_buffer * mad_frame) :=
  layer_III (fun data p f si nch => III_decode long_bits data p f si nch ds) s m f fresh_main fresh_overlap si0.
End MainData.
