(* ===== verification/MadReservoir.v ===== *)
(** The bit reservoir of [mad_layer_III]: the buffer [main_data] of
    [src/libmad/layer3.c] refines a list of bytes, the end of the main data seen so
    far.

    The main data of a frame is the section of its frame after the side information; all
    sections together are one stream of bytes, and [main_data_begin] is an offset back into
    it.  The abstract reservoir keeps of that stream as many bytes as the next frame asks
    for. *)
From S2P Require Import Prelude BitString MadBit MadTimer MadFrame MadSideInfo MadRequantize.
From S2P Require Import MadHuffDecode MadSpectrum MadStereo MadImdct MadSideRange MadLayer3.

(** ** The ends of lists *)

Definition lastn {A} (k : nat) (l : list A) : list A := drop (length l - k) l.

Lemma lastn_length {A} k (l : list A) : length (lastn k l) = (k `min` length l)%nat.
Proof. unfold lastn. rewrite length_drop. lia. Qed.

Lemma lastn_app {A} k (l1 l2 : list A) : lastn k (l1 ++ l2) = lastn (k - length l2) l1 ++ lastn k l2.
Proof.
  unfold lastn. rewrite length_app, drop_app. destruct (decide (k <= length l2)%nat).
  - rewrite !(drop_ge l1) by lia. cbn [app]. f_equal. lia.
  - f_equal; f_equal; lia.
Qed.

Lemma lastn_all {A} k (l : list A) : (length l <= k)%nat -> lastn k l = l.
Proof. intros H. unfold lastn. by replace (length l - k)%nat with 0%nat by lia. Qed.

Lemma lastn_suffix {A} k (l : list A) : lastn k l `suffix_of` l.
Proof. exists (take (length l - k) l). symmetry. apply take_drop. Qed.

(** The end of the end. *)
Lemma lastn_suffix_eq {A} k (l l' : list A) : l `suffix_of` l' -> (k <= length l)%nat -> lastn k l = lastn k l'.
Proof. intros [pre ->] H. rewrite lastn_app. unfold lastn at 2. rewrite drop_ge by lia. done. Qed.

(** ** The abstract reservoir *)

(** The bytes of a frame with section [F] that begin [begin] bytes back, up to [next] bytes before
    the end of the section. *)
Definition frame_data (R F : list Z) (begin next : nat) : list Z := lastn begin R ++ take (length F - next) F.

(** What is kept for a next frame that begins [next] bytes back. *)
Definition kept_data (R F : list Z) (next : nat) : list Z := lastn next (R ++ F).

(** The buffer holds [R]. *)
Record holds (data : list Z) (mdl : Z) (R : list Z) : Prop := Holds {
  hd_length : zlen data = MAD_BUFFER_MDLEN;
  hd_prefix : asub data 0 mdl = Some R
}.

Lemma holds_length data mdl R : holds data mdl R -> zlen R = mdl /\ 0 <= mdl <= MAD_BUFFER_MDLEN.
Proof.
  intros [Hl Hp]. pose proof (asub_length _ _ _ _ Hp). apply asub_inv in Hp as (_&?&?&_). lia.
Qed.

Lemma asub_part {A} (l : list A) o n F i k : asub l o n = Some F -> 0 <= i -> 0 <= k -> i + k <= n ->
  asub l (o + i) k = Some (take (Z.to_nat k) (drop (Z.to_nat i) F)).
Proof.
  intros (Ho&Hn&Hin&->)%asub_inv Hi Hk Hik. rewrite asub_Some by lia. f_equal.
  replace (Z.to_nat (o + i)) with (Z.to_nat o + Z.to_nat i)%nat by lia. rewrite <- drop_drop.
  generalize (drop (Z.to_nat o) l). intros m.
  rewrite skipn_firstn_comm, take_take. f_equal. lia.
Qed.

Lemma asub_0_part {A} (l : list A) n F k : asub l 0 n = Some F -> 0 <= k <= n -> asub l 0 k = Some (take (Z.to_nat k) F).
Proof. intros H Hk. apply (asub_part l 0 n F 0 k H); lia. Qed.

(** The beginning and the end of a section. *)
Lemma section_take (mem : list Z) q n F k : asub mem q n = Some F -> 0 <= k <= n -> asub mem q k = Some (take (Z.to_nat k) F).
Proof. intros H Hk. pose proof (asub_part mem q n F 0 k H ltac:(lia) ltac:(lia) ltac:(lia)) as E. by rewrite Z.add_0_r in E. Qed.

Lemma section_last (mem : list Z) q n F k : asub mem q n = Some F -> 0 <= k <= n ->
  asub mem (q + n - k) k = Some (lastn (Z.to_nat k) F).
Proof.
  intros H Hk. pose proof (asub_length _ _ _ _ H) as Hl.
  replace (q + n - k) with (q + (n - k)) by lia. rewrite (asub_part mem q n F (n - k) k H) by lia. f_equal.
  unfold lastn. replace (length F - Z.to_nat k)%nat with (Z.to_nat (n - k)) by lia. apply take_ge. rewrite length_drop. lia.
Qed.

(** Appending to the bytes held. *)
Lemma holds_append data mdl R src : holds data mdl R -> mdl + zlen src <= MAD_BUFFER_MDLEN ->
  exists data', ablit data mdl src = Some data' /\ holds data' (mdl + zlen src) (R ++ src).
Proof.
  intros Hh Hl. pose proof (holds_length _ _ _ Hh) as [HR Hm]. destruct Hh as [Hd Hp]. rewrite ablit_Some by lia.
  eexists. split; [done|]. apply asub_inv in Hp as (_&_&_&ER). change (Z.to_nat 0) with 0%nat in ER. rewrite drop_0 in ER.
  rewrite <- ER. split.
  - rewrite !length_app, length_drop. lia.
  - rewrite asub_Some by (rewrite ?length_app, ?length_drop; lia). f_equal. change (Z.to_nat 0) with 0%nat. rewrite drop_0, app_assoc.
    apply take_app_length'. rewrite length_app. lia.
Qed.

(** Starting over with bytes from elsewhere. *)
Lemma holds_replace data src : zlen data = MAD_BUFFER_MDLEN -> zlen src <= MAD_BUFFER_MDLEN ->
  exists data', ablit data 0 src = Some data' /\ holds data' (zlen src) src.
Proof.
  intros Hd Hl. rewrite ablit_0 by lia. eexists. split; [done|]. split.
  - rewrite length_app, length_drop. lia.
  - rewrite asub_Some by (rewrite ?length_app, ?length_drop; lia). f_equal. change (Z.to_nat 0) with 0%nat. rewrite drop_0.
    apply take_app_length'. lia.
Qed.

(** The last bytes held. *)
Lemma holds_last data mdl R k : holds data mdl R -> 0 <= k <= mdl -> asub data (mdl - k) k = Some (lastn (Z.to_nat k) R).
Proof. intros [Hd Hp] Hk. pose proof (section_last data 0 mdl R k Hp Hk) as E. by rewrite Z.add_0_l in E. Qed.

(** ** One frame *)

Section Frame.
Variables (mem data R F : list Z) (mdl begin next q : Z) (p : mad_bitptr).

Abbreviation n := (zlen F).
Abbreviation md := (begin + n - next).

(** The main data section [F] of the frame is in the input; the reservoir is as a frame
    leaves it. *)
Record frame_ok : Prop := FrameOk {
  fo_holds : holds data mdl R;
  fo_mdl : mdl <= 511;
  fo_begin : 0 <= begin <= 511;
  fo_next : 0 <= next <= 511 /\ next <= begin + n;
  fo_section : mad_bit_nextbyte p = q /\ asub mem q n = Some F;
  fo_size : n < 2 ^ 30
}.
Hypothesis Hok : frame_ok.

Lemma find_main_spec : exists place data1 mdl1 used, find_main mem data mdl begin md p = Some (place, data1, mdl1, used) /\
  match place with
  | Direct p' => begin = 0 /\ p' = p /\ data1 = data /\ mdl1 = 0 /\ used = n - next
  | Reservoir p' => 0 < begin <= mdl /\ p' = mad_bit_init (mdl - begin) /\ used = Z.max 0 (n - next) /\
      holds data1 mdl1 (R ++ take (Z.to_nat used) F) /\ mdl1 = mdl + used
  | BadPointer => mdl < begin /\ data1 = data /\ mdl1 = mdl /\ used = 0
  | TooLong => 0 < begin <= mdl /\ MAD_BUFFER_MDLEN < mdl + (n - next) /\ data1 = data /\ mdl1 = mdl /\ used = 0
  end.
Proof.
  destruct Hok as [Hh H511 Hb [Hn Hn'] [Hq HF] Hsz]. change (2 ^ 30) with 1073741824 in *.
  pose proof (holds_length _ _ _ Hh) as [HR Hm]. unfold find_main.
  destruct (Z.eqb_spec begin 0) as [E0|E0].
  { eexists _, _, _, _. split; [done|]. cbn. repeat split; lia. }
  destruct (Z.ltb_spec mdl begin) as [Hlt|Hge].
  { eexists _, _, _, _. split; [done|]. done. }
  destruct (Z.ltb_spec begin md) as [Hlt|Hge'].
  - rewrite (wrapu_small 32 (mdl + md)) by (change (2 ^ 32) with 4294967296; lia).
    rewrite wrapu_small by (change (2 ^ 32) with 4294967296; lia).
    destruct (Z.leb_spec (mdl + md - begin) MAD_BUFFER_MDLEN) as [Hfit|Hbig]; cbn [negb].
    + rewrite Hq. rewrite (section_take mem q n F (md - begin) HF) by lia. cbn [mbind option_bind].
      destruct (holds_append data mdl R (take (Z.to_nat (md - begin)) F) Hh) as (d&->&Hd); [rewrite length_take; lia|].
      cbn [mbind option_bind]. eexists _, _, _, _. split; [done|]. split; [lia|]. split; [done|]. split; [lia|]. split; [|done].
      replace (zlen (take (Z.to_nat (md - begin)) F)) with (md - begin) in Hd by (rewrite length_take; lia). done.
    + eexists _, _, _, _. split; [done|]. repeat split; lia.
  - eexists _, _, _, _. split; [done|]. split; [lia|]. split; [done|]. split; [lia|].
    cbn [Z.to_nat]. rewrite take_0, app_nil_r. split; [done|lia].
Qed.

(** The buffer before the reservoir is preloaded, whatever became of the frame. *)
Definition before_preload (data1 : list Z) (mdl1 used : Z) : Prop :=
  zlen data1 = MAD_BUFFER_MDLEN /\ 0 <= used <= n /\
  (next <= n - used \/ used = 0 /\ holds data1 mdl1 R /\ mdl1 = mdl).

Lemma find_main_preload place data1 mdl1 used : find_main mem data mdl begin md p = Some (place, data1, mdl1, used) -> place <> TooLong ->
  before_preload data1 mdl1 used.
Proof.
  destruct Hok as [Hh H511 Hb [Hn Hn'] [Hq HF] Hsz]. intros E Hne. destruct find_main_spec as (pl&d&m&u&E'&Hplace). rewrite E in E'. injection E' as <- <- <- <-.
  unfold before_preload. destruct place as [p'|p'| |]; [..|done].
  - destruct Hplace as (->&->&->&->&->). destruct Hh. split; [done|]. split; [lia|]. left. lia.
  - destruct Hplace as (Hbm&->&Hu&Hd&->). split; [apply Hd|]. split; [lia|].
    destruct (Z.leb_spec next (n - used)); [by left|right]. assert (used = 0) as E0 by lia. split; [done|].
    rewrite E0, Z.add_0_r in *. change (Z.to_nat 0) with 0%nat in Hd. rewrite take_0, app_nil_r in Hd. done.
  - destruct Hplace as (?&->&->&->). split; [apply Hh|]. split; [lia|]. by right.
Qed.

Lemma preload_spec data1 mdl1 used : before_preload data1 mdl1 used ->
  exists data2 mdl2, preload mem data1 mdl1 begin md (n - used) next (q + n) = Some (data2, mdl2) /\
    holds data2 mdl2 (kept_data R F (Z.to_nat next)) /\ mdl2 <= next.
Proof.
  destruct Hok as [Hh H511 Hb [Hn Hn'] [Hq HF] Hsz]. pose proof (holds_length _ _ _ Hh) as [HR Hm].
  intros (Hd1&Hu&Hcase). unfold preload, kept_data.
  assert (MAD_BUFFER_MDLEN = 2567) as EM by done.
  assert (next <= n -> lastn (Z.to_nat next) (R ++ F) = lastn (Z.to_nat next) F) as Hlast.
  { intros H. rewrite lastn_app. replace (Z.to_nat next - length F)%nat with 0%nat by lia.
    unfold lastn at 1. rewrite drop_ge by lia. done. }
  destruct (Z.leb_spec next (n - used)) as [Hfree|Hfree].
  - rewrite (section_last mem q n F next HF) by lia. cbn [mbind option_bind].
    destruct (holds_replace data1 (lastn (Z.to_nat next) F) Hd1) as (d&->&Hd); [rewrite lastn_length; lia|].
    cbn [mbind option_bind]. rewrite Hlast by lia. rewrite lastn_length in Hd.
    replace (Z.of_nat (Z.to_nat next `min` length F)) with next in Hd by lia. exists d, next. split; [done|]. split; [done|lia].
  - destruct Hcase as [?|(->&Hh1&->)]; [lia|]. rewrite Z.sub_0_r in *. rewrite (proj2 (Z.ltb_lt md begin)) by lia.
    replace (if next <? begin - md + n then next - n else begin - md) with (next - n) by (case_test; lia).
    pose proof (section_last mem q n F n HF ltac:(lia)) as HF'. rewrite lastn_all in HF' by lia.
    rewrite lastn_app, (lastn_all _ F) by lia.
    destruct (Z.ltb_spec (next - n) mdl) as [Hlt|Hge].
    + rewrite (holds_last data1 mdl R (next - n) Hh1) by lia. cbn [mbind option_bind].
      set (L := lastn (Z.to_nat (next - n)) R). assert (zlen L = next - n) as HL by (unfold L; rewrite lastn_length; lia).
      destruct (holds_replace data1 L Hd1) as (d&->&Hd); [lia|]. cbn [mbind option_bind]. rewrite HF'. cbn [mbind option_bind].
      rewrite HL in Hd. destruct (holds_append d (next - n) L F Hd) as (d'&->&Hd'); [lia|]. cbn [mbind option_bind].
      exists d', (next - n + n). split; [done|]. split; [|lia]. replace (Z.to_nat next - length F)%nat with (Z.to_nat (next - n)) by lia. done.
    + cbn [mbind option_bind]. rewrite HF'. cbn [mbind option_bind].
      destruct (holds_append data1 mdl R F Hh1) as (d'&->&Hd'); [lia|]. cbn [mbind option_bind].
      exists d', (mdl + n). split; [done|]. split; [|lia]. by rewrite (lastn_all _ R) by lia.
Qed.
End Frame.

(** ** Claims *)

(** The bytes of the frame are where the decoder is pointed to. *)
Lemma reservoir_bytes mem data R F mdl begin next q p data1 used : frame_ok mem data R F mdl begin next q p ->
  0 < begin <= mdl -> used = Z.max 0 (zlen F - next) -> holds data1 (mdl + used) (R ++ take (Z.to_nat used) F) ->
  asub data1 (mdl - begin) (begin + used) = Some (frame_data R F (Z.to_nat begin) (Z.to_nat next)).
Proof.
  intros [Hh _ _ [Hn _] _ _] Hb -> Hd. pose proof (holds_length _ _ _ Hh) as [HR _].
  set (u := Z.max 0 (zlen F - next)) in *. set (T := take (Z.to_nat u) F) in *. assert (zlen T = u) as HT by (unfold T; rewrite length_take; lia).
  replace (mdl - begin) with (mdl + u - (begin + u)) by lia. rewrite (holds_last _ _ _ (begin + u) Hd) by lia. f_equal.
  rewrite lastn_app, (lastn_all _ T) by lia. unfold frame_data. f_equal; [f_equal; lia|]. unfold T. f_equal. lia.
Qed.

(** C28: the bit reservoir.  Let the buffer hold the end [R] of the stream [D] of main data, and
    let the section [F] of a frame be in the input.  When the data of the frame begins no
    further back than [R] reaches, the decoder is pointed at exactly those bytes of [D]
    followed by the part of [F] that belongs to the frame; further back is a bad pointer; a
    section too long for the buffer is refused.  In every case but the last the
    buffer then holds the end of [D ++ F], as much of it as the next frame asks for
    and there is: the code refines the list.  All copies stay inside of both
    buffers. *)
Theorem reservoir_refines mem data R F mdl begin next q p D : frame_ok mem data R F mdl begin next q p -> R `suffix_of` D ->
  exists place data1 mdl1 used, find_main mem data mdl begin (begin + zlen F - next) p = Some (place, data1, mdl1, used) /\
  match place with
  | Direct p' => begin = 0 /\ p' = p /\ used = zlen F - next /\
      asub mem q used = Some (frame_data D F (Z.to_nat begin) (Z.to_nat next))
  | Reservoir p' => 0 < begin <= zlen R /\ used = Z.max 0 (zlen F - next) /\ pos p' = 8 * (mdl - begin) /\
      asub data1 (mdl - begin) (begin + used) = Some (frame_data D F (Z.to_nat begin) (Z.to_nat next))
  | BadPointer => zlen R < begin
  | TooLong => 0 < begin <= zlen R /\ MAD_BUFFER_MDLEN < mdl + (zlen F - next) /\ data1 = data /\ mdl1 = mdl
  end /\
  (place <> TooLong -> exists data2 mdl2,
     preload mem data1 mdl1 begin (begin + zlen F - next) (zlen F - used) next (q + zlen F) = Some (data2, mdl2) /\
     holds data2 mdl2 (kept_data R F (Z.to_nat next)) /\ kept_data R F (Z.to_nat next) `suffix_of` D ++ F /\ mdl2 <= next).
Proof.
  intros Hok HD. destruct (find_main_spec mem data R F mdl begin next q p Hok) as (place&data1&mdl1&used&E&Hplace).
  pose proof Hok as [Hh H511 Hb [Hn Hn'] [Hq HF] Hsz]. pose proof (holds_length _ _ _ Hh) as [HR Hm].
  exists place, data1, mdl1, used. split; [done|]. split.
  - destruct place as [p'|p'| |].
    + destruct Hplace as (->&->&->&->&->). split; [done|]. split; [done|]. split; [done|].
      rewrite (section_take mem q (zlen F) F) by (done || lia). unfold frame_data. f_equal. change (Z.to_nat 0) with 0%nat.
      unfold lastn. rewrite drop_ge by lia. cbn [app]. f_equal. lia.
    + destruct Hplace as (Hbm&->&Hu&Hd&->). split; [lia|]. split; [done|].
      split; [apply (bit_init_ok mem (mdl - begin)); lia|]. rewrite (reservoir_bytes mem data R F mdl begin next q p data1 used Hok Hbm Hu Hd).
      unfold frame_data. do 2 f_equal. apply lastn_suffix_eq; [done|lia].
    + lia.
    + destruct Hplace as (?&?&->&->&_). split; [lia|done].
  - intros Hne. assert (before_preload R F mdl next data1 mdl1 used) as Hbp
      by (by apply (find_main_preload mem data R F mdl begin next q p Hok place)).
    destruct (preload_spec mem data R F mdl begin next q p Hok data1 mdl1 used Hbp) as (data2&mdl2&Ep&Hp&Hl).
    exists data2, mdl2. split; [done|]. split; [done|]. split; [|done].
    etransitivity; [apply lastn_suffix|]. destruct HD as [pre ->]. exists pre. by rewrite app_assoc.
Qed.

Lemma reservoir_refines_witness :
  let R := [11; 12; 13] in let F := [21; 22; 23; 24] in let D := [1; 2; 11; 12; 13] in
  let data := R ++ repeat 7 2564 in let mem := [0; 0] ++ F ++ [99] in
  exists place data1 mdl1 used, find_main mem data 3 2 (2 + zlen F - 1) (mad_bit_init 2) = Some (place, data1, mdl1, used) /\
  match place with
  | Direct p' => 2 = 0 /\ p' = mad_bit_init 2 /\ used = zlen F - 1 /\ asub mem 2 used = Some (frame_data D F (Z.to_nat 2) (Z.to_nat 1))
  | Reservoir p' => 0 < 2 <= zlen R /\ used = Z.max 0 (zlen F - 1) /\ pos p' = 8 * (3 - 2) /\
      asub data1 (3 - 2) (2 + used) = Some (frame_data D F (Z.to_nat 2) (Z.to_nat 1))
  | BadPointer => zlen R < 2
  | TooLong => 0 < 2 <= zlen R /\ MAD_BUFFER_MDLEN < 3 + (zlen F - 1) /\ data1 = data /\ mdl1 = 3
  end /\
  (place <> TooLong -> exists data2 mdl2,
     preload mem data1 mdl1 2 (2 + zlen F - 1) (zlen F - used) 1 (2 + zlen F) = Some (data2, mdl2) /\
     holds data2 mdl2 (kept_data R F (Z.to_nat 1)) /\ kept_data R F (Z.to_nat 1) `suffix_of` D ++ F /\ mdl2 <= 1).
Proof.
  intros R F D data mem. apply (reservoir_refines mem data R F 3 2 1 2 (mad_bit_init 2) D).
  - split; [split; reflexivity|apply Z.leb_le; reflexivity|split; apply Z.leb_le; reflexivity|
      split; [split|]; apply Z.leb_le; reflexivity|split; reflexivity|apply Z.ltb_lt; reflexivity].
  - exists [1; 2]. reflexivity.
Defined.
