(* ===== verification/MadHybrid.v ===== *)
(** The hybrid synthesis of a channel: inverse transform, overlap and frequency inversion of
    all subbands, in [III_decode] of [src/libmad/layer3.c].

    The code skips the transform of the subbands above the last nonzero line, passes one output
    array from subband to subband and negates every other sample of the odd subbands
    in place.  The reference treats each subband on its own. *)
From S2P Require Import Prelude MadBit MadTimer MadFrame MadSideInfo MadRequantize MadHuffDecode.
From S2P Require Import MadSpectrum MadImdct MadLayer3.

(** ** The transforms as functions of their lines *)

(** Two runs at once. *)
Definition pair_words (W : Z) : Fixed (Z * Z) :=
  let F := fixed_words W in {|
  fx_zero := (fx_zero, fx_zero);
  fx_add x y := (fx_add x.1 y.1, fx_add x.2 y.2);
  fx_sub x y := (fx_sub x.1 y.1, fx_sub x.2 y.2);
  fx_neg x := (fx_neg x.1, fx_neg x.2);
  fx_half x := (fx_half x.1, fx_half x.2);
  fx_mul x c := (fx_mul x.1 c, fx_mul x.2 c);
  fx_acc l := (fx_acc (map (fun p => (p.1.1, p.2)) l), fx_acc (map (fun p => (p.1.2, p.2)) l))
|}.

(** Whether a value is known not to depend on uninitialised cells. *)
Definition known : Fixed bool := {|
  fx_zero := true; fx_add := andb; fx_sub := andb; fx_neg b := b; fx_half b := b; fx_mul b _ := b;
  fx_acc l := forallb fst l
|}.

Lemma pair_fst W : Related (pair_words W) (fixed_words W) (fun p x => p.1 = x).
Proof.
  split; intros; subst; try done. cbn [pair_words fx_acc fst]. f_equal.
  match goal with H : Forall2 _ _ _ |- _ => induction H as [|[[x y] c] [x' c'] l l' [H1 H2] H IH] end; [done|]. cbn in *. by subst; f_equal.
Qed.

Lemma pair_snd W : Related (pair_words W) (fixed_words W) (fun p x => p.2 = x).
Proof.
  split; intros; subst; try done. cbn [pair_words fx_acc snd]. f_equal.
  match goal with H : Forall2 _ _ _ |- _ => induction H as [|[[x y] c] [x' c'] l l' [H1 H2] H IH] end; [done|]. cbn in *. by subst; f_equal.
Qed.

Lemma pair_known W : Related (pair_words W) known (fun p b => b = true -> p.1 = p.2).
Proof.
  split; cbn [pair_words known fx_zero fx_add fx_sub fx_neg fx_half fx_mul fx_acc fst snd]; try done.
  - intros x y a b Hx Hy [Ha Hb]%andb_true_iff. by rewrite Hx, Hy.
  - intros x y a b Hx Hy [Ha Hb]%andb_true_iff. by rewrite Hx, Hy.
  - intros x a Hx Ha. by rewrite Hx.
  - intros x a Hx Ha. by rewrite Hx.
  - intros x a c Hx Ha. by rewrite Hx.
  - intros l l' H Hall. f_equal.
    induction H as [|[[x y] c] [b c'] l l' [H1 H2] H IH]; [done|]. cbn [map forallb fst snd] in *.
    apply andb_true_iff in Hall as [Hb Hall]. by rewrite (H1 Hb), IH.
Qed.

Lemma zip_rel {A} (l l' : list A) : length l = length l' -> Forall2 (fun p x => p.1 = x) (zip l l') l /\ Forall2 (fun p x => p.2 = x) (zip l l') l'.
Proof.
  revert l'. induction l as [|x l IH]; intros [|y l'] Hl; try discriminate; [split; constructor|].
  destruct (IH l') as [H1 H2]; [by injection Hl|]. split; by constructor.
Qed.

Lemma unknown_rel (l l' : list Z) n : length l = n -> length l' = n ->
  Forall2 (fun p b => b = true -> p.1 = p.2) (zip l l') (repeat false n).
Proof.
  intros <-. revert l'. induction l as [|x l IH]; intros [|y l'] Hl; try discriminate; [constructor|]. constructor; [done|].
  apply IH. by injection Hl.
Qed.

Lemma known_rel (l : list Z) n : length l = n -> Forall2 (fun p b => b = true -> p.1 = p.2) (zip l l) (repeat true n).
Proof. intros <-. induction l; cbn; by constructor. Qed.

(** Two runs that agree where the result is known. *)
Lemma runs_agree (r1 r2 : option (list Z)) (rp : option (list (Z * Z))) (rb : option (list bool)) n :
  option_Forall2 (Forall2 (fun p x => p.1 = x)) rp r1 -> option_Forall2 (Forall2 (fun p x => p.2 = x)) rp r2 ->
  option_Forall2 (Forall2 (fun p b => b = true -> p.1 = p.2)) rp rb -> rb = Some (repeat true n) -> r1 = r2.
Proof.
  intros H1 H2 H3 ->. inversion H3 as [ps bs Hb|]; subst. inversion H1 as [? l1 E1|]; subst. inversion H2 as [? l2 E2|]; subst. f_equal.
  clear - Hb E1 E2. revert l1 l2 n Hb E1 E2. induction ps as [|p ps IH]; intros l1 l2 n Hb E1 E2.
  - inversion E1. by inversion E2.
  - apply Forall2_cons_inv_l in E1 as (x&l1'&<-&E1&->). apply Forall2_cons_inv_l in E2 as (y&l2'&<-&E2&->).
    destruct n as [|n]; [by inversion Hb|]. apply Forall2_cons in Hb as [Hp Hb]. f_equal; [by apply Hp|by eapply IH].
Qed.

(** Neither transform depends on what its arrays held. *)
Lemma imdct_l_fresh W X z z' bt st st' : length X = 18%nat -> length z = 36%nat -> length z' = 36%nat -> stack_ok st -> stack_ok st' -> 0 <= bt < 4 ->
  @III_imdct_l Z (fixed_words W) X z bt st = @III_imdct_l Z (fixed_words W) X z' bt st'.
Proof.
  intros HX Hz Hz' (S1&S2&S3) (S1'&S2'&S3') Hb.
  set (sp := ImdctStack (zip (stack_X st) (stack_X st')) (zip (stack_tmp st) (stack_tmp st')) (zip (stack_tmp9 st) (stack_tmp9 st'))).
  apply (runs_agree _ _ (@III_imdct_l _ (pair_words W) (zip X X) (zip z z') bt sp)
    (@III_imdct_l bool known (repeat true 18) (repeat false 36) bt (ImdctStack (repeat false 18) (repeat false 18) (repeat false 9))) 36).
  - apply (imdct_l_rel _ _ _ (HR := pair_fst W)); [by apply zip_rel|apply zip_rel; congruence|]. repeat split; apply zip_rel; congruence.
  - apply (imdct_l_rel _ _ _ (HR := pair_snd W)); [by apply zip_rel|apply zip_rel; congruence|]. repeat split; apply zip_rel; congruence.
  - apply (imdct_l_rel _ _ _ (HR := pair_known W)); [by apply known_rel|by apply unknown_rel|]. repeat split; by apply unknown_rel.
  - assert (bt = 0 \/ bt = 1 \/ bt = 2 \/ bt = 3) as [->|[->|[->| ->]]] by lia; vm_compute; reflexivity.
Qed.

Lemma imdct_s_fresh W X z z' y y' : length X = 18%nat -> length z = 36%nat -> length z' = 36%nat -> length y = 36%nat -> length y' = 36%nat ->
  @III_imdct_s Z (fixed_words W) X z y = @III_imdct_s Z (fixed_words W) X z' y'.
Proof.
  intros HX Hz Hz' Hy Hy'.
  apply (runs_agree _ _ (@III_imdct_s _ (pair_words W) (zip X X) (zip z z') (zip y y'))
    (@III_imdct_s bool known (repeat true 18) (repeat false 36) (repeat false 36)) 36).
  - apply (imdct_s_rel _ _ _ (HR := pair_fst W)); apply zip_rel; congruence.
  - apply (imdct_s_rel _ _ _ (HR := pair_snd W)); apply zip_rel; congruence.
  - apply (imdct_s_rel _ _ _ (HR := pair_known W)); [by apply known_rel|by apply unknown_rel..].
  - vm_compute. reflexivity.
Qed.

(** Lines that are all zero. *)
Lemma zero_related W : 32 <= W -> Related (fixed_words W) unit_fixed (fun z _ => z = 0).
Proof.
  intros HW. assert (forall c, mad_f_mul W 0 c = 0) as Hm.
  { intros c. unfold mad_f_mul. change (0 + (1 .<< 11)) with 2048. rewrite (wraps_small W 2048); [|lia|].
    2: { pose proof (Z.pow_le_mono_r 2 31 (W - 1) ltac:(lia) ltac:(lia)). change (2 ^ 31) with 2147483648 in *. lia. }
    change (2048 .>> 12) with 0. rewrite Z.mul_0_l. rewrite (wraps_small W 0); [done|lia|]. pose proof (pow2_pos (W - 1)). lia. }
  split; cbn [fixed_words fx_zero fx_add fx_sub fx_neg fx_half fx_mul fx_acc].
  1: done.
  1-4: by intros; subst.
  - intros x a c ->. apply Hm.
  - intros l l' H. destruct H as [|[x c] [u c'] l l' [H1 H2] H]; [done|]. cbn [fst] in H1. subst x. unfold MAD_F_ML0. rewrite Hm.
    change (u32 0) with 0. induction H as [|[x d] [v d'] l l' [H1 H3] H IH]; [done|]. cbn [fst] in H1. subst x. cbn [fold_left].
    unfold MAD_F_MLA at 2. rewrite Hm. apply IH.
Qed.

Lemma zeros_rel n : Forall2 (fun z (_ : unit) => z = 0) (repeat 0 n) (repeat tt n).
Proof. induction n; cbn; by constructor. Qed.

Lemma zeros_run (r : option (list Z)) (r' : option (list unit)) n : option_Forall2 (Forall2 (fun z _ => z = 0)) r r' ->
  r' = Some (repeat tt n) -> r = Some (repeat 0 n).
Proof.
  intros H ->. inversion H as [l u Hl|]; subst. f_equal. clear H. revert n Hl. induction l as [|x l IH]; intros n Hl.
  - destruct n; [done|]. inversion Hl.
  - destruct n as [|n]; [inversion Hl|]. apply Forall2_cons in Hl as [-> Hl]. cbn. f_equal. by apply IH.
Qed.

Definition zero_stack : imdct_stack Z := ImdctStack (repeat 0 18) (repeat 0 18) (repeat 0 9).

Lemma imdct_l_zeros W bt : 32 <= W -> 0 <= bt < 4 ->
  @III_imdct_l Z (fixed_words W) (repeat 0 18) (repeat 0 36) bt zero_stack = Some (repeat 0 36).
Proof.
  intros HW Hb. apply (zeros_run _ (@III_imdct_l unit unit_fixed (repeat tt 18) (repeat tt 36) bt
    (ImdctStack (repeat tt 18) (repeat tt 18) (repeat tt 9)))).
  - apply (imdct_l_rel _ _ _ (HR := zero_related W HW)); [apply zeros_rel..|]. repeat split; apply zeros_rel.
  - assert (bt = 0 \/ bt = 1 \/ bt = 2 \/ bt = 3) as [->|[->|[->| ->]]] by lia; vm_compute; reflexivity.
Qed.

Lemma imdct_s_zeros W : 32 <= W ->
  @III_imdct_s Z (fixed_words W) (repeat 0 18) (repeat 0 36) (repeat 0 36) = Some (repeat 0 36).
Proof.
  intros HW. apply (zeros_run _ (@III_imdct_s unit unit_fixed (repeat tt 18) (repeat tt 36) (repeat tt 36))); [|vm_compute; reflexivity].
  apply (imdct_s_rel _ _ _ (HR := zero_related W HW)); apply zeros_rel.
Qed.

(** ** The reference *)

(** The block type of a subband, [None] for short blocks: the lower two subbands of a mixed
    block are long with the normal window. *)
Definition subband_block (c : channel) (sb : Z) : option Z :=
  if (sb <? 2) && bitset (ch_flags c) mixed_block_flag then Some 0
  else if block_type c =? 2 then None else Some (block_type c).

(** The inverse transform of 18 lines. *)
Definition transformed (W : Z) (block : option Z) (X : list Z) : list Z :=
  default [] (match block with
    | Some bt => @III_imdct_l Z (fixed_words W) X (repeat 0 36) bt zero_stack
    | None => @III_imdct_s Z (fixed_words W) X (repeat 0 36) (repeat 0 36)
    end).

Definition subband_lines (x : list Z) (sb : Z) : list Z := take 18 (drop (Z.to_nat (18 * sb)) x).

Definition subband_output (W : Z) (c : channel) (x : list Z) (sb : Z) : list Z :=
  transformed W (subband_block c sb) (subband_lines x sb).

(** Sample [i] of subband [sb]: the first half of the output plus the second half of the
    granule before, every other one negated in the odd subbands. *)
Definition plain_sample (out : list Z) (over : list Z) (i : Z) : Z := s32 (nth (Z.to_nat i) out 0 + nth (Z.to_nat i) over 0).

Definition inversion (sb i v : Z) : Z := if Z.odd sb && Z.odd i then s32 (- v) else v.

(** ** Transforms in the decoder *)

Section Subband.
Variables (W : Z) (ds : decode_stack).
Hypotheses (Hstack : stack_ok (ds_imdct ds)) (Hy : length (ds_y ds) = 36%nat).

Lemma transform_spec block X output : length X = 18%nat -> length output = 36%nat -> (forall bt, block = Some bt -> 0 <= bt < 4) ->
  (match block with
   | Some bt => @III_imdct_l Z (fixed_words W) X output bt (ds_imdct ds)
   | None => @III_imdct_s Z (fixed_words W) X output (ds_y ds)
   end) = Some (transformed W block X) /\ length (transformed W block X) = 36%nat.
Proof.
  intros HX Ho Hb. unfold transformed. destruct block as [bt|].
  - rewrite (imdct_l_fresh W X output (repeat 0 36) bt (ds_imdct ds) zero_stack) by (try done; by apply Hb).
    destruct (imdct_l_total W X (repeat 0 36) bt zero_stack) as (z&->&Hz); [done|done|done|by apply Hb|]. done.
  - rewrite (imdct_s_fresh W X output (repeat 0 36) (ds_y ds) (repeat 0 36)) by done.
    destruct (imdct_s_total W X (repeat 0 36) (repeat 0 36)) as (z&->&Hz); done.
Qed.
End Subband.

Lemma transformed_zeros W block : 32 <= W -> (forall bt, block = Some bt -> 0 <= bt < 4) -> transformed W block (repeat 0 18) = repeat 0 36.
Proof.
  intros HW Hb. unfold transformed. destruct block as [bt|]; [rewrite imdct_l_zeros by (done || by apply Hb)|rewrite imdct_s_zeros by done]; done.
Qed.

(** ** Samples *)

(** [n] rows of [m] cells. *)
Definition grid (n m : nat) (rows : list (list Z)) : Prop := length rows = n /\ Forall (fun row => length row = m) rows.

Lemma grid_get n m rows i s : grid n m rows -> 0 <= i < Z.of_nat n -> 0 <= s < Z.of_nat m -> exists v, get2 rows i s = Some v.
Proof.
  intros [Hn Hm] Hi Hs. unfold get2. destruct (aget_Some rows i) as [row E]; [lia|]. rewrite E. cbn [mbind option_bind].
  pose proof (aget_Forall _ _ _ _ Hm E) as Hr. cbn in Hr. destruct (aget_Some row s) as [v Ev]; [lia|]. by exists v.
Qed.

Lemma grid_set n m rows i s x : grid n m rows -> 0 <= i < Z.of_nat n -> 0 <= s < Z.of_nat m ->
  exists rows', set2 rows i s x = Some rows' /\ grid n m rows' /\
  forall i' s', 0 <= i' -> 0 <= s' -> get2 rows' i' s' = if (i' =? i) && (s' =? s) then Some x else get2 rows i' s'.
Proof.
  intros [Hn Hm] Hi Hs. unfold set2. destruct (aget_Some rows i) as [row E]; [lia|]. rewrite E. cbn [mbind option_bind].
  pose proof (aget_Forall _ _ _ _ Hm E) as Hr. cbn in Hr. rewrite (aset_Some row) by lia. cbn [mbind option_bind].
  rewrite (aset_Some rows) by lia. eexists. split; [done|]. split.
  - split; [by rewrite length_insert|]. apply Forall_insert; [done|]. by rewrite length_insert.
  - intros i' s' Hi' Hs'. unfold get2. destruct (Z.eqb_spec i' i) as [->|Hne]; cbn [andb].
    + rewrite aget_insert_eq by lia. rewrite E. cbn [mbind option_bind].
      destruct (Z.eqb_spec s' s) as [->|Hns]; [by rewrite aget_insert_eq by lia|by rewrite aget_insert_ne by lia].
    + by rewrite aget_insert_ne by lia.
Qed.

Section Column.
Variables (rows0 : list (list Z)) (o sb : Z).
Hypotheses (Hgrid : grid 36 32 rows0) (Ho : 0 <= o <= 18) (Hsb : 0 <= sb < 32).

(** The first [k] of the 18 cells of the column from row [o] on are [f], the others as they were. *)
Definition column (k : Z) (f : Z -> option Z) (rows : list (list Z)) : Prop :=
  grid 36 32 rows /\
  forall i s, 0 <= i -> 0 <= s -> get2 rows i s = if (s =? sb) && (o <=? i) && (i <? o + k) then f (i - o) else get2 rows0 i s.

Lemma column_0 f : column 0 f rows0.
Proof.
  split; [done|]. intros i s Hi Hs. destruct (Z.leb_spec o i), (Z.ltb_spec i (o + 0)); rewrite ?andb_false_r; try done; lia.
Qed.

Lemma column_set k f rows x : column k f rows -> 0 <= k < 18 -> f k = Some x ->
  exists rows', set2 rows (o + k) sb x = Some rows' /\ column (k + 1) f rows'.
Proof.
  intros [Hg Hc] Hk Hf. destruct (grid_set 36 32 rows (o + k) sb x Hg) as (rows'&E&Hg'&H'); [lia|lia|]. exists rows'. split; [done|].
  split; [done|]. intros i s Hi Hs. rewrite H', Hc by done.
  destruct (Z.eqb_spec i (o + k)) as [->|Hne]; cbn [andb].
  - destruct (Z.eqb_spec s sb); cbn [andb]; [|done]. rewrite (proj2 (Z.leb_le _ _)), (proj2 (Z.ltb_lt _ _)) by lia. cbn [andb].
    rewrite <- Hf. f_equal. lia.
  - destruct (Z.eqb_spec s sb); cbn [andb]; [|done].
    destruct (Z.leb_spec o i), (Z.ltb_spec i (o + k)), (Z.ltb_spec i (o + (k + 1))); cbn [andb]; done || lia.
Qed.
End Column.

Section Column2.
Variables (rows0 : list (list Z)) (o sb : Z).
Hypotheses (Hgrid : grid 36 32 rows0) (Ho : 0 <= o <= 18) (Hsb : 0 <= sb < 32).

Abbreviation column := (column rows0 o sb).

(** A cell that already has its value. *)
Lemma column_keep k f rows : column k f rows -> 0 <= k < 18 -> f k = get2 rows0 (o + k) sb -> column (k + 1) f rows.
Proof.
  intros [Hg Hc] Hk Hf. split; [done|]. intros i s Hi Hs. rewrite Hc by done.
  destruct (Z.eqb_spec s sb) as [->|]; cbn [andb]; [|done].
  destruct (Z.leb_spec o i), (Z.ltb_spec i (o + k)), (Z.ltb_spec i (o + (k + 1))); cbn [andb]; try (done || lia).
  assert (i = o + k) as -> by lia. rewrite <- Hf. f_equal. lia.
Qed.

(** A cell that has not been written yet. *)
Lemma column_later k k' f rows : column k f rows -> 0 <= k <= k' -> k' < 18 -> get2 rows (o + k') sb = get2 rows0 (o + k') sb.
Proof.
  intros [Hg Hc] Hk Hk'. rewrite Hc by lia. rewrite Z.eqb_refl, (proj2 (Z.ltb_ge (o + k') (o + k))), andb_false_r by lia. done.
Qed.

Lemma overlap_spec out over : length out = 36%nat -> length over = 18%nat ->
  exists rows, III_overlap out over rows0 o sb = Some (drop 18 out, rows) /\ column 18 (fun i => Some (plain_sample out over i)) rows.
Proof.
  intros Hout Hover. unfold III_overlap.
  destruct (for_range_inv (fun k '(v, rows) => v = take (Z.to_nat k) (drop 18 out) ++ drop (Z.to_nat k) over /\
      column k (fun i => Some (plain_sample out over i)) rows) 0 18
    (fun i '(overlap, sample) =>
      a ← aget out i; b ← aget overlap i; sample ← set2 sample (o + i) sb (s32 (a + b));
      c ← aget out (i + 18); overlap ← aset overlap i c; Some (overlap, sample)) (over, rows0)) as ([v rows]&->&H1&H2); [lia| | |].
  - split; [done|by apply column_0].
  - intros k [v rows] Hk [-> Hc]. destruct (Z_of_nat_complete k) as [n ->]; [lia|]. rewrite Nat2Z.id.
    assert (n < 18)%nat by lia. destruct (lookup_lt_is_Some_2 out n) as [a Ea]; [lia|]. destruct (lookup_lt_is_Some_2 over n) as [b Eb]; [lia|].
    destruct (lookup_lt_is_Some_2 out (18 + n)) as [c Ec]; [lia|].
    rewrite (aget_lookup out (Z.of_nat n)), Nat2Z.id, Ea by lia. cbn [mbind option_bind].
    assert (length (take n (drop 18 out)) = n) as Hn by (rewrite length_take, length_drop; lia).
    rewrite (aget_lookup _ (Z.of_nat n)), Nat2Z.id, lookup_app_r, Hn, Nat.sub_diag, lookup_drop, Nat.add_0_r, Eb by lia. cbn [mbind option_bind].
    destruct (column_set rows0 o sb Ho Hsb (Z.of_nat n) _ rows (s32 (a + b)) Hc) as (rows'&->&Hc'); [lia| |].
    { cbv beta. unfold plain_sample. rewrite Nat2Z.id. by rewrite (nth_lookup_Some _ _ _ _ Ea), (nth_lookup_Some _ _ _ _ Eb). }
    cbn [mbind option_bind]. rewrite aget_lookup by lia. replace (Z.to_nat (Z.of_nat n + 18)) with (18 + n)%nat by lia. rewrite Ec. cbn [mbind option_bind].
    rewrite aset_Some by (rewrite length_app, Hn, length_drop; lia). cbn [mbind option_bind]. eexists. split; [done|]. split; [|done].
    rewrite Nat2Z.id, insert_app_r_alt, Hn, Nat.sub_diag by lia. rewrite (drop_S over b n Eb). cbn [list_insert insert].
    replace (Z.to_nat (Z.of_nat n + 1)) with (S n) by lia. rewrite (take_S_r (drop 18 out) n c) by by rewrite lookup_drop.
    by rewrite <- app_assoc.
  - change (Z.to_nat 18) with 18%nat in H1. rewrite (drop_ge over), app_nil_r, take_ge in H1 by (rewrite ?length_drop; lia). subst v. by exists rows.
Qed.

Lemma overlap_z_spec over : length over = 18%nat ->
  exists rows, III_overlap_z over rows0 o sb = Some (repeat 0 18, rows) /\ column 18 (fun i => Some (nth (Z.to_nat i) over 0)) rows.
Proof.
  intros Hover. unfold III_overlap_z.
  destruct (for_range_inv (fun k '(v, rows) => v = repeat 0 (Z.to_nat k) ++ drop (Z.to_nat k) over /\
      column k (fun i => Some (nth (Z.to_nat i) over 0)) rows) 0 18
    (fun i '(overlap, sample) =>
      b ← aget overlap i; sample ← set2 sample (o + i) sb b; overlap ← aset overlap i 0; Some (overlap, sample)) (over, rows0))
    as ([v rows]&->&H1&H2); [lia| | |].
  - split; [done|by apply column_0].
  - intros k [v rows] Hk [-> Hc]. destruct (Z_of_nat_complete k) as [n ->]; [lia|]. rewrite Nat2Z.id.
    assert (n < 18)%nat by lia. destruct (lookup_lt_is_Some_2 over n) as [b Eb]; [lia|].
    assert (length (repeat 0 n) = n) as Hn by apply repeat_length.
    rewrite (aget_lookup _ (Z.of_nat n)), Nat2Z.id, lookup_app_r, Hn, Nat.sub_diag, lookup_drop, Nat.add_0_r, Eb by lia. cbn [mbind option_bind].
    destruct (column_set rows0 o sb Ho Hsb (Z.of_nat n) _ rows b Hc) as (rows'&->&Hc'); [lia| |].
    { cbv beta. by rewrite Nat2Z.id, (nth_lookup_Some _ _ _ _ Eb). }
    cbn [mbind option_bind]. rewrite aset_Some by (rewrite length_app, Hn, length_drop; lia). cbn [mbind option_bind]. eexists. split; [done|]. split; [|done].
    rewrite Nat2Z.id, insert_app_r_alt, Hn, Nat.sub_diag by lia. rewrite (drop_S over b n Eb). cbn [list_insert insert].
    replace (Z.to_nat (Z.of_nat n + 1)) with (S n) by lia. change (0 :: drop (S n) over) with ([0] ++ drop (S n) over).
    by rewrite app_assoc, <- repeat_cons.
  - change (Z.to_nat 18) with 18%nat in H1. rewrite (drop_ge over), app_nil_r in H1 by lia. subst v. by exists rows.
Qed.

(** The column with its odd samples negated. *)
Definition negated (i : Z) : option Z := (fun v => if Z.odd i then s32 (- v) else v) <$> get2 rows0 (o + i) sb.

Lemma negate_odd k rows v : column k negated rows -> 0 <= k < 18 -> Z.odd k = true -> get2 rows0 (o + k) sb = Some v ->
  exists rows', set2 rows (o + k) sb (s32 (- v)) = Some rows' /\ column (k + 1) negated rows'.
Proof. intros Hc Hk Hodd Ev. apply (column_set rows0 o sb); try done. unfold negated. by rewrite Ev, Hodd. Qed.

Lemma negate_even k rows : column k negated rows -> 0 <= k < 18 -> Z.odd k = false -> column (k + 1) negated rows.
Proof.
  intros Hc Hk Hodd. apply column_keep; [done|done|]. unfold negated. rewrite Hodd. by destruct (get2 rows0 (o + k) sb).
Qed.

(** Two rows at a time: an odd one and the even one behind it. *)
Lemma negate_pair k rows v : column k negated rows -> 0 <= k < 17 -> Z.odd k = true -> get2 rows0 (o + k) sb = Some v ->
  exists rows', set2 rows (o + k) sb (s32 (- v)) = Some rows' /\ column (k + 2) negated rows'.
Proof.
  intros Hc Hk Hodd Ev. destruct (negate_odd k rows v Hc) as (rows'&E&Hc'); [lia|done|done|]. exists rows'. split; [done|].
  replace (k + 2) with (k + 1 + 1) by lia. apply negate_even; [done|lia|]. by rewrite Z.add_1_r, Z.odd_succ, <- Z.negb_odd, Hodd.
Qed.

Lemma freqinver_spec : exists rows, III_freqinver rows0 o sb = Some rows /\ column 18 negated rows.
Proof.
  assert (forall k, 0 <= k < 18 -> exists v, get2 rows0 (o + k) sb = Some v) as Hget by (intros k Hk; apply (grid_get 36 32); [done|lia|lia]).
  unfold III_freqinver. destruct (Hget 1) as [v1 E1]; [lia|]. destruct (Hget 3) as [v3 E3]; [lia|].
  rewrite E1, E3. cbn [mbind option_bind].
  match goal with |- context [for_range 0 3 ?body ?s] => destruct (for_range_inv (fun j '(rows, tmp1, tmp2) =>
      column (1 + 4 * j) negated rows /\ get2 rows0 (o + (1 + 4 * j)) sb = Some tmp1 /\ get2 rows0 (o + (3 + 4 * j)) sb = Some tmp2) 0 3 body s)
    as ([[rows t1] t2]&->&Hc&Ht1&Ht2); [lia| | |] end.
  - split; [|done]. apply (negate_even 0); [by apply column_0|lia|done].
  - intros j [[rows t1] t2] Hj (Hc&Ht1&Ht2). replace (o + (1 + 4 * j)) with (o + (1 + 4 * j)) by lia.
    assert (forall d, Z.odd (1 + 2 * d) = true) as Hodd by (intros d; by rewrite Z.odd_add_mul_2).
    destruct (negate_pair (1 + 4 * j) rows t1 Hc) as (r1&->&H1); [lia|replace (1 + 4 * j) with (1 + 2 * (2 * j)) by lia; apply Hodd|done|].
    cbn [mbind option_bind]. replace (o + (1 + 4 * j) + 4) with (o + (5 + 4 * j)) by lia.
    rewrite (column_later (1 + 4 * j + 2) (5 + 4 * j) negated r1 H1) by lia. destruct (Hget (5 + 4 * j)) as [v5 E5]; [lia|]. rewrite E5. cbn [mbind option_bind].
    replace (o + (1 + 4 * j) + 2) with (o + (3 + 4 * j)) by lia. replace (1 + 4 * j + 2) with (3 + 4 * j) in H1 by lia.
    destruct (negate_pair (3 + 4 * j) r1 t2 H1) as (r2&->&H2); [lia|replace (3 + 4 * j) with (1 + 2 * (1 + 2 * j)) by lia; apply Hodd|done|].
    cbn [mbind option_bind]. replace (o + (1 + 4 * j) + 6) with (o + (7 + 4 * j)) by lia.
    rewrite (column_later (3 + 4 * j + 2) (7 + 4 * j) negated r2 H2) by lia. destruct (Hget (7 + 4 * j)) as [v7 E7]; [lia|]. rewrite E7. cbn [mbind option_bind].
    eexists. split; [done|]. split; [by replace (1 + 4 * (j + 1)) with (3 + 4 * j + 2) by lia|]. split; rewrite <- ?E5, <- ?E7; f_equal; lia.
  - cbn [mbind option_bind]. change (1 + 4 * 3) with 13 in *. change (3 + 4 * 3) with 15 in *.
    destruct (negate_pair 13 rows t1 Hc) as (r1&->&H1); [lia|done|done|]. cbn [mbind option_bind]. change (13 + 2) with 15 in H1.
    rewrite (column_later 15 17 negated r1 H1) by lia. destruct (Hget 17) as [v17 E17]; [lia|]. rewrite E17. cbn [mbind option_bind].
    destruct (negate_pair 15 r1 t2 H1) as (r2&->&H2); [lia|done|done|]. cbn [mbind option_bind]. change (15 + 2) with 17 in H2.
    destruct (negate_odd 17 r2 v17 H2) as (r3&->&H3); [lia|done|done|]. by exists r3.
Qed.
End Column2.

(** ** The subbands of a channel *)

Section Cells.
Variables (rows0 : list (list Z)) (o : Z).
Hypotheses (Hgrid0 : grid 36 32 rows0) (Ho : 0 <= o <= 18).

(** The first [n] subbands of the granule hold [val]; nothing else has changed. *)
Definition cells_done (n : Z) (val : Z -> Z -> Z) (rows : list (list Z)) : Prop :=
  grid 36 32 rows /\
  forall i s, 0 <= i -> 0 <= s ->
    get2 rows i s = if (s <? n) && (o <=? i) && (i <? o + 18) then Some (val s (i - o)) else get2 rows0 i s.

Lemma cells_0 val : cells_done 0 val rows0.
Proof. split; [done|]. intros i s _ Hs. by rewrite (proj2 (Z.ltb_ge s 0)). Qed.

Lemma grid_cells_agree n val val' rows : (forall s i, 0 <= s < n -> 0 <= i < 18 -> val s i = val' s i) -> cells_done n val rows -> cells_done n val' rows.
Proof.
  intros He [Hg Hc]. split; [done|]. intros i s Hi Hs. rewrite Hc by done.
  destruct (Z.ltb_spec s n), (Z.leb_spec o i), (Z.ltb_spec i (o + 18)); cbn [andb]; try done. f_equal. apply He; lia.
Qed.

(** The next subband is written. *)
Lemma cells_next n val f rows rows' : cells_done n val rows -> 0 <= n < 32 -> column rows o n 18 f rows' ->
  (forall i, 0 <= i < 18 -> f i = Some (val n i)) -> cells_done (n + 1) val rows'.
Proof.
  intros [Hg Hc] Hn [Hg' Hc'] Hf. split; [done|]. intros i s Hi Hs. rewrite Hc', Hc by done.
  destruct (Z.eqb_spec s n) as [->|Hne]; cbn [andb].
  - rewrite (proj2 (Z.ltb_ge n n)), (proj2 (Z.ltb_lt n (n + 1))) by lia. cbn [andb].
    destruct (Z.leb_spec o i), (Z.ltb_spec i (o + 18)); cbn [andb]; try done. apply Hf. lia.
  - destruct (Z.ltb_spec s n), (Z.ltb_spec s (n + 1)); done || lia.
Qed.

(** The last subband is inverted. *)
Lemma cells_inverted n val rows rows' : cells_done (n + 1) val rows -> 0 <= n < 32 -> column rows o n 18 (negated rows o n) rows' ->
  cells_done (n + 1) (fun s i => if (s =? n) && Z.odd i then s32 (- val s i) else val s i) rows'.
Proof.
  intros [Hg Hc] Hn [Hg' Hc']. split; [done|]. intros i s Hi Hs. rewrite Hc' by done. unfold negated.
  replace (o + (i - o)) with i by lia.
  destruct (Z.eqb_spec s n) as [->|Hne]; cbn [andb].
  - rewrite !Hc, (proj2 (Z.ltb_lt n (n + 1))) by lia. cbn [andb].
    destruct (Z.leb_spec o i), (Z.ltb_spec i (o + 18)); cbn [andb fmap option_fmap option_map]; try done.
  - by rewrite Hc.
Qed.
End Cells.

Lemma bitset_odd sb : bitset sb 1 = Z.odd sb.
Proof. unfold bitset. change 1 with (Z.ones 1) at 1. rewrite Z.land_ones by lia. change (2 ^ 1) with 2. rewrite Zmod_odd. by destruct (Z.odd sb). Qed.

Lemma block_range c sb bt : 0 <= block_type c < 4 -> subband_block c sb = Some bt -> 0 <= bt < 4.
Proof. unfold subband_block. intros Hc H. repeat case_match; simplify_eq; lia. Qed.

Lemma lines_get x sb : length x = 576%nat -> 0 <= sb < 32 -> asub x (18 * sb) 18 = Some (subband_lines x sb) /\ length (subband_lines x sb) = 18%nat.
Proof. intros Hx H. split; [by rewrite asub_Some by lia|]. unfold subband_lines. rewrite length_take, length_drop. lia. Qed.

Section Synth.
Variables (W : Z) (ds : decode_stack) (c : channel) (x : list Z) (rows0 over0 : list (list Z)) (o : Z).
Hypotheses (HW : 32 <= W) (Hstack : stack_ok (ds_imdct ds)) (Hy : length (ds_y ds) = 36%nat) (Hc : 0 <= block_type c < 4)
  (Hx : length x = 576%nat) (Hgrid : grid 36 32 rows0) (Hover : grid 32 18 over0) (Ho : 0 <= o <= 18).

Abbreviation out := (subband_output W c x).

Definition over_row (s : Z) : list Z := nth (Z.to_nat s) over0 [].

(** The overlap when [n] subbands are done. *)
Definition over_rows (n : Z) : list (list Z) := map (fun s => drop 18 (out (Z.of_nat s))) (seq 0 (Z.to_nat n)) ++ drop (Z.to_nat n) over0.

Lemma over_get n : 0 <= n < 32 -> aget (over_rows n) n = Some (over_row n) /\ length (over_row n) = 18%nat.
Proof.
  intros Hn. destruct Hover as [Hl Hf]. unfold over_rows, over_row. destruct (lookup_lt_is_Some_2 over0 (Z.to_nat n)) as [row E]; [lia|].
  rewrite (nth_lookup_Some _ _ _ _ E). split; [|apply (Forall_lookup_1 _ _ _ _ Hf E)].
  rewrite aget_lookup, lookup_app_r, length_map, length_seq, Nat.sub_diag, lookup_drop, Nat.add_0_r by (rewrite ?length_map, ?length_seq; lia). done.
Qed.

Lemma over_set n row : 0 <= n < 32 -> row = drop 18 (out n) -> aset (over_rows n) n row = Some (over_rows (n + 1)).
Proof.
  intros Hn ->. destruct Hover as [Hl Hf]. unfold over_rows. rewrite aset_Some by (rewrite length_app, length_map, length_seq, length_drop; lia). f_equal.
  destruct (lookup_lt_is_Some_2 over0 (Z.to_nat n)) as [r E]; [lia|].
  rewrite insert_app_r_alt, length_map, length_seq, Nat.sub_diag, (drop_S over0 r _ E) by (rewrite length_map, length_seq; lia). cbn [insert list_insert].
  replace (Z.to_nat (n + 1)) with (S (Z.to_nat n)) by lia. rewrite seq_S, map_app, <- app_assoc. cbn [map app Nat.add]. by rewrite Z2Nat.id by lia.
Qed.

(** What a subband becomes; from [limit] on the lines are zero and the transform is skipped. *)
Definition value (limit s i : Z) : Z := if s <? limit then plain_sample (out s) (over_row s) i else nth (Z.to_nat i) (over_row s) 0.

(** [n] subbands are done. *)
Definition synth_done (n : Z) (val : Z -> Z -> Z) (st : list Z * list (list Z) * list (list Z)) : Prop :=
  let '(output, over, sample) := st in length output = 36%nat /\ over = over_rows n /\ cells_done rows0 o n val sample.

Lemma subband_step n val block st : synth_done n val st -> 0 <= n < 32 -> subband_block c n = block ->
  (forall i, 0 <= i < 18 -> val n i = plain_sample (out n) (over_row n) i) ->
  exists st', synth_subband W ds o block x n st = Some st' /\ synth_done (n + 1) val st'.
Proof.
  destruct st as [[output over] sample]. intros (Hl&->&Hd) Hn Hb Hval. unfold synth_subband. change (words W) with (fixed_words W).
  destruct (lines_get x n Hx Hn) as [-> HX]. cbn [mbind option_bind].
  destruct (transform_spec W ds Hstack Hy block (subband_lines x n) output) as [-> Hout]; [done|done|intros bt E; apply (block_range c n); congruence|].
  cbn [mbind option_bind]. assert (transformed W block (subband_lines x n) = out n) as Eo by (unfold subband_output; by rewrite Hb). rewrite Eo in *.
  destruct (over_get n Hn) as [-> Hrow]. cbn [mbind option_bind].
  destruct (overlap_spec sample o n (proj1 Hd) Ho Hn (out n) (over_row n) Hout Hrow) as (rows&->&Hcol). cbn [mbind option_bind].
  rewrite over_set by done. cbn [mbind option_bind]. eexists. split; [done|]. split; [done|]. split; [done|].
  eapply cells_next; [done|done|done|]. intros i Hi. cbv beta. by rewrite Hval.
Qed.

Lemma zero_step n val st : synth_done n val st -> 0 <= n < 32 -> subband_lines x n = repeat 0 18 ->
  (forall i, 0 <= i < 18 -> val n i = nth (Z.to_nat i) (over_row n) 0) ->
  exists st', zero_subband o n st = Some st' /\ synth_done (n + 1) val st'.
Proof.
  destruct st as [[output over] sample]. intros (Hl&->&Hd) Hn Hz Hval. unfold zero_subband.
  destruct (over_get n Hn) as [-> Hrow]. cbn [mbind option_bind].
  destruct (overlap_z_spec sample o n (proj1 Hd) Ho Hn (over_row n) Hrow) as (rows&->&Hcol). cbn [mbind option_bind].
  rewrite over_set; [|done|]. 2: { unfold subband_output. rewrite Hz, transformed_zeros; [done|done|intros bt; by apply block_range]. }
  cbn [mbind option_bind]. eexists. split; [done|]. split; [done|]. split; [done|].
  eapply cells_next; [done|done|done|]. intros i Hi. cbv beta. by rewrite Hval.
Qed.

(** Frequency inversion behind a subband. *)
Lemma inverted_step n val st : synth_done (n + 1) val st -> 0 <= n < 32 ->
  exists st', inverted o n st = Some st' /\ synth_done (n + 1) (fun s i => if s =? n then inversion n i (val s i) else val s i) st'.
Proof.
  destruct st as [[output over] sample]. intros (Hl&->&Hd) Hn. unfold inverted, inversion. rewrite bitset_odd. destruct (Z.odd n) eqn:En; cbn [andb].
  - destruct (freqinver_spec sample o n (proj1 Hd) Ho Hn) as (rows&->&Hcol). cbn [mbind option_bind]. eexists. split; [done|].
    split; [done|]. split; [done|]. eapply grid_cells_agree; [|exact (cells_inverted _ _ n _ _ _ Hd Hn Hcol)]. intros s i Hs Hi. cbv beta. by destruct (s =? n), (Z.odd i).
  - eexists. split; [done|]. split; [done|]. split; [done|]. eapply grid_cells_agree; [|done]. intros s i Hs Hi. by destruct (s =? n).
Qed.
End Synth.

(** ** A channel *)

(** The lines after reordering and alias reduction. *)
Definition spectrum (W : Z) (c : channel) (widths x : list Z) : list Z :=
  if block_type c =? 2 then
    let x := reordered c widths x in
    if bitset (ch_flags c) mixed_block_flag then aliased W x (below 2) else x
  else aliased W x (below 32).

Lemma reordered_length c widths x : short_ok c widths -> length x = 576%nat -> length (reordered c widths x) = 576%nat.
Proof. intros Hs Hx. rewrite (Permutation_length (reordered_perm c widths x Hs Hx)). done. Qed.

Lemma spectrum_spec W c widths x tmp : (block_type c = 2 -> short_ok c widths) -> length x = 576%nat -> length tmp = 576%nat ->
  (if block_type c =? 2 then
     x ← III_reorder x c widths tmp;
     if bitset (ch_flags c) mixed_block_flag then III_aliasreduce W x 36 else Some x
   else III_aliasreduce W x 576) = Some (spectrum W c widths x) /\ length (spectrum W c widths x) = 576%nat.
Proof.
  intros Hs Hx Ht. unfold spectrum. destruct (Z.eqb_spec (block_type c) 2) as [H2|H2].
  - pose proof (reordered_length c widths x (Hs H2) Hx) as Hr. rewrite (reorder_spec c widths x tmp (Hs H2) Hx Ht). cbn [mbind option_bind].
    destruct (bitset (ch_flags c) mixed_block_flag); [|by split].
    split; [|by apply aliased_length]. apply (aliasreduce_spec W _ Hr 2). lia.
  - split; [|by apply aliased_length]. apply (aliasreduce_spec W x Hx 32). lia.
Qed.

(** The search for the last nonzero line. *)
Lemma last_line_spec fuel x i : length x = 576%nat -> 36 <= i <= 576 -> i - 36 < Z.of_nat fuel ->
  exists j, last_line fuel x i = Some j /\ 36 <= j <= i /\ forall k, j <= Z.of_nat k < i -> x !! k = Some 0.
Proof.
  intros Hx. revert i. induction fuel as [|fuel IH]; intros i Hi Hf; [lia|]. cbn [last_line].
  destruct (Z.ltb_spec 36 i) as [Hlt|Hge].
  - destruct (aget_Some x (i - 1)) as [v E]; [lia|]. rewrite E. cbn [mbind option_bind]. destruct (Z.eqb_spec v 0) as [->|Hv].
    + destruct (IH (i - 1)) as (j&Ej&Hj&Hz); [lia|lia|]. exists j. split; [done|]. split; [lia|]. intros k Hk.
      destruct (decide (Z.of_nat k < i - 1)); [apply Hz; lia|]. rewrite aget_lookup in E by lia. rewrite <- E. f_equal. lia.
    + exists i. split; [done|]. split; [lia|]. lia.
  - exists i. split; [done|]. split; [lia|]. lia.
Qed.

Lemma zero_lines x j s : length x = 576%nat -> (forall k, j <= Z.of_nat k < 576 -> x !! k = Some 0) -> 0 <= s < 32 -> j <= 18 * s ->
  subband_lines x s = repeat 0 18.
Proof.
  intros Hx Hz Hs Hj. unfold subband_lines. apply list_eq_same_length with 18%nat; [by rewrite repeat_length| |].
  - rewrite length_take, length_drop. lia.
  - intros i v v' Hi. rewrite lookup_take_lt, lookup_drop by done. rewrite Hz by lia. intros [= <-] Hr.
    by apply list_elem_of_lookup_2, list_elem_of_In, repeat_spec in Hr.
Qed.

(** The loops over the subbands, for lines [x] that are zero from subband [limit] on. *)
Section Loops.
Variables (W : Z) (ds : decode_stack) (c : channel) (x : list Z) (rows0 over0 : list (list Z)) (o limit : Z).
Hypotheses (HW : 32 <= W) (Hstack : stack_ok (ds_imdct ds)) (Hy : length (ds_y ds) = 36%nat) (Hc : 0 <= block_type c < 4)
  (Hx : length x = 576%nat) (Hgrid : grid 36 32 rows0) (Hover : grid 32 18 over0) (Ho : 0 <= o <= 18)
  (Hlimit : 2 <= limit <= 32) (Hzero : forall s, limit <= s < 32 -> subband_lines x s = repeat 0 18).

Abbreviation val := (value W c x over0 limit).
Abbreviation short := (block_type c =? 2).
Abbreviation mixed := (bitset (ch_flags c) mixed_block_flag).

(** Subbands before [n] are inverted, [n] and later ones are not. *)
Definition partly_inverted (n s i : Z) : Z := if s <? n then inversion s i (val s i) else val s i.

Definition done_at (n : Z) : list Z * list (list Z) * list (list Z) -> Prop := synth_done W c x rows0 over0 o n (partly_inverted n).

Lemma partly_step n st : 0 <= n < 32 -> synth_done W c x rows0 over0 o (n + 1) (partly_inverted n) st ->
  exists st', inverted o n st = Some st' /\ done_at (n + 1) st'.
Proof.
  intros Hn Hd. destruct (inverted_step W c x rows0 over0 o Ho n _ st Hd Hn) as (st'&E&H'). exists st'. split; [done|].
  destruct st' as [[op ov] sm]. destruct H' as (A1&A2&A3). split; [done|]. split; [done|]. eapply grid_cells_agree; [|exact A3].
  intros s i Hs' Hi. unfold partly_inverted. destruct (Z.eqb_spec s n) as [->|Hne].
  - by rewrite (proj2 (Z.ltb_ge n n)), (proj2 (Z.ltb_lt n (n + 1))) by lia.
  - destruct (Z.ltb_spec s n), (Z.ltb_spec s (n + 1)); done || lia.
Qed.

Lemma partly_here n i : partly_inverted n n i = val n i.
Proof. unfold partly_inverted. by rewrite (proj2 (Z.ltb_ge n n)) by lia. Qed.

(** Subbands 0 and 1, with the inversion of the second one behind both. *)
Lemma lower_subbands output : length output = 36%nat -> exists output1 over1 sample1 sample2,
  for_range 0 2 (synth_subband W ds o (if negb short || mixed then Some (if mixed then 0 else block_type c) else None) x)
    (output, over0, rows0) = Some (output1, over1, sample1) /\
  III_freqinver sample1 o 1 = Some sample2 /\ done_at 2 (output1, over1, sample2).
Proof.
  intros Hout.
  destruct (for_range_inv (fun n => synth_done W c x rows0 over0 o n val) 0 2
    (synth_subband W ds o (if negb short || mixed then Some (if mixed then 0 else block_type c) else None) x) (output, over0, rows0))
    as ([[output1 over1] sample1]&E1&H1); [lia| | |].
  - split; [done|]. split; [done|by apply cells_0].
  - intros n st Hn Hd. apply (subband_step W ds c x rows0 over0 o); try done; [lia| |].
    + unfold subband_block. rewrite (proj2 (Z.ltb_lt n 2)) by lia. cbn [andb]. by destruct mixed, short.
    + intros i Hi. unfold value. by rewrite (proj2 (Z.ltb_lt n limit)) by lia.
  - destruct (inverted_step W c x rows0 over0 o Ho 1 val (output1, over1, sample1) H1) as (st2&E2&H2); [lia|].
    unfold inverted in E2. change (bitset 1 1) with true in E2. cbv iota in E2.
    destruct (III_freqinver sample1 o 1) as [sample2|] eqn:E; [|done]. cbn [mbind option_bind] in *. injection E2 as <-.
    exists output1, over1, sample1, sample2. split; [done|]. split; [done|].
    destruct H2 as (A1&A2&A3). split; [done|]. split; [done|]. eapply grid_cells_agree; [|exact A3]. intros s i Hs' Hi. unfold partly_inverted. cbv beta.
    rewrite (proj2 (Z.ltb_lt s 2)) by lia. assert (s = 0 \/ s = 1) as [-> | ->] by lia; done.
Qed.

(** The subbands with lines. *)
Lemma line_subbands st : done_at 2 st -> exists st',
  for_range 2 limit (fun sb st => st ← synth_subband W ds o (if negb short then Some (block_type c) else None) x sb st; inverted o sb st) st = Some st' /\
  done_at limit st'.
Proof.
  intros Hst. apply for_range_inv; [lia|done|]. intros n st' Hn Hd.
  destruct (subband_step W ds c x rows0 over0 o Hstack Hy Hc Hx Hover Ho n _ (if negb short then Some (block_type c) else None) st' Hd)
    as (st2&->&Hd'); [lia| | |].
  - unfold subband_block. rewrite (proj2 (Z.ltb_ge n 2)) by lia. cbn [andb]. by destruct short.
  - intros i Hi. rewrite partly_here. unfold value. by rewrite (proj2 (Z.ltb_lt n limit)) by lia.
  - cbn [mbind option_bind]. apply partly_step; [lia|done].
Qed.

(** The subbands of zeros. *)
Lemma zero_subbands st : done_at limit st -> exists st',
  for_range limit 32 (fun sb st => st ← zero_subband o sb st; inverted o sb st) st = Some st' /\ done_at 32 st'.
Proof.
  intros Hst. apply for_range_inv; [lia|done|]. intros n st' Hn Hd.
  destruct (zero_step W ds c x rows0 over0 o HW Hy Hc Hx Hover Ho n _ st' Hd) as (st2&->&Hd'); [lia|by apply Hzero| |].
  - intros i Hi. rewrite partly_here. unfold value. by rewrite (proj2 (Z.ltb_ge n limit)) by lia.
  - cbn [mbind option_bind]. apply partly_step; [lia|done].
Qed.
End Loops.

Lemma synth_channel_spec W ds c widths x rows0 over0 o output : 32 <= W -> stack_ok (ds_imdct ds) -> length (ds_y ds) = 36%nat ->
  length (ds_tmp ds) = 576%nat -> 0 <= block_type c < 4 -> (block_type c = 2 -> short_ok c widths) -> length x = 576%nat ->
  grid 36 32 rows0 -> grid 32 18 over0 -> 0 <= o <= 18 -> length output = 36%nat ->
  let xs := spectrum W c widths x in
  exists over sample output' limit,
  synth_channel W ds o c widths x over0 rows0 output = Some (xs, over, sample, output') /\ length output' = 36%nat /\
  over = over_rows W c xs over0 32 /\
  cells_done rows0 o 32 (fun s i => inversion s i (value W c xs over0 limit s i)) sample /\
  2 <= limit <= 32 /\ (forall s, limit <= s < 32 -> subband_lines xs s = repeat 0 18) /\ length xs = 576%nat.
Proof.
  intros HW Hstack Hy Htmp Hc Hs Hx Hgrid Hover Ho Hout xs. unfold synth_channel.
  destruct (spectrum_spec W c widths x (ds_tmp ds) Hs Hx Htmp) as [-> Hxs]. fold xs in Hxs |- *. cbn [mbind option_bind].
  destruct (last_line_spec 541 xs 576 Hxs) as (j&Ej&Hj&Hz); [lia|lia|].
  set (limit := 32 - (576 - j) / 18). assert (2 <= limit <= 32 /\ j <= 18 * limit) as [Hlimit Hjl] by (unfold limit; zdiv).
  assert (forall s, limit <= s < 32 -> subband_lines xs s = repeat 0 18) as Hzero by (intros s Hs'; apply (zero_lines xs j); [done|done|lia|lia]).
  destruct (lower_subbands W ds c xs rows0 over0 o limit) with (output := output) as (output1&over1&sample1&sample2&->&E2&H2); try done.
  cbn [mbind option_bind]. rewrite E2. cbn [mbind option_bind]. rewrite Ej. cbn [mbind option_bind]. fold limit.
  destruct (line_subbands W ds c xs rows0 over0 o limit) with (st := (output1, over1, sample2)) as (st3&->&H3); try done. cbn [mbind option_bind].
  destruct (zero_subbands W ds c xs rows0 over0 o limit) with (st := st3) as ([[output4 over4] sample4]&->&A1&A2&A3); try done. cbn [mbind option_bind].
  exists over4, sample4, output4, limit. split; [done|]. split; [done|]. split; [done|]. split; [|done].
  eapply grid_cells_agree; [|exact A3]. intros s i Hs' Hi. unfold partly_inverted. by rewrite (proj2 (Z.ltb_lt s 32)) by lia.
Qed.

(** The overlap keeps its shape. *)
Lemma over_rows_grid W c x over0 : 0 <= block_type c < 4 -> length x = 576%nat -> grid 32 18 over0 -> grid 32 18 (over_rows W c x over0 32).
Proof.
  intros Hc Hx [Hl Hf]. unfold over_rows. change (Z.to_nat 32) with 32%nat. rewrite drop_ge, app_nil_r by lia. split; [by rewrite length_map, length_seq|].
  apply Forall_map, Forall_seq. intros s Hs. cbv beta. destruct (lines_get x (Z.of_nat s) Hx) as [_ HX]; [lia|].
  destruct (transform_spec W (DecodeStack [] [] [] [] [] [] zero_stack (repeat 0 36))) with (block := subband_block c (Z.of_nat s))
    (X := subband_lines x (Z.of_nat s)) (output := repeat 0 36) as [_ Hout]; try done.
  { intros bt. by apply block_range. }
  unfold subband_output. rewrite length_drop, Hout. done.
Qed.

(** ** Claims *)

(** C5: hybrid synthesis of a channel.  For every sampling frequency and block type, the
    loops of [III_decode] over the subbands end inside their arrays and compute what the reference
    does for each subband alone: each of the 18 new samples of all 32 subbands is the
    first half of the subband's inverse transform plus the second half of the granule
    before, negated at the odd samples of odd subbands, and the overlap kept is the
    second half of the transform.  This includes the subbands that are skipped because their
    lines are zero, and it does not depend on what the stack arrays held or on the output
    array that one subband leaves to the next. *)
Theorem synth_channel_correct W ds k r c x rows0 over0 o output : 32 <= W ->
  stack_ok (ds_imdct ds) -> length (ds_y ds) = 36%nat -> length (ds_tmp ds) = 576%nat -> length output = 36%nat ->
  aget sfbwidth_table k = Some r -> 0 <= block_type c < 4 -> length x = 576%nat ->
  grid 36 32 rows0 -> grid 32 18 over0 -> Forall (Forall (fun v => - 2 ^ 31 <= v < 2 ^ 31)) over0 -> 0 <= o <= 18 ->
  let xs := spectrum W c (block_widths r c) x in
  exists over sample output', synth_channel W ds o c (block_widths r c) x over0 rows0 output = Some (xs, over, sample, output') /\
  (forall s, 0 <= s < 32 -> aget over s = Some (drop 18 (subband_output W c xs s))) /\
  (forall i s, 0 <= i < 36 -> 0 <= s < 32 -> get2 sample i s =
     if (o <=? i) && (i <? o + 18)
     then Some (inversion s (i - o) (plain_sample (subband_output W c xs s) (nth (Z.to_nat s) over0 []) (i - o)))
     else get2 rows0 i s).
Proof.
  intros HW Hst Hy Ht Hout Hr Hc Hx Hg Hov Hrange Ho xs.
  destruct (synth_channel_spec W ds c (block_widths r c) x rows0 over0 o output) as (over&sample&output'&limit&E&_&->&[_ Hcells]&Hl&Hz&Hxs);
    try done; [by eapply short_rows|]. fold xs in E, Hcells, Hz, Hxs |- *.
  exists (over_rows W c xs over0 32), sample, output'. split; [done|]. split.
  - intros s Hs. unfold over_rows. rewrite aget_lookup, lookup_app_l, list_lookup_fmap, lookup_seq_lt by (rewrite ?length_map, ?length_seq; lia).
    cbn [fmap option_fmap option_map]. by rewrite Nat.add_0_l, Z2Nat.id by lia.
  - intros i s Hi Hs. rewrite Hcells, (proj2 (Z.ltb_lt s 32)) by lia. cbn [andb].
    destruct (Z.leb_spec o i), (Z.ltb_spec i (o + 18)); cbn [andb]; try done. do 2 f_equal. unfold value, over_row.
    destruct (Z.ltb_spec s limit) as [|Hge]; [done|]. unfold plain_sample, subband_output.
    rewrite Hz, transformed_zeros by (try done; try lia; intros bt; by apply block_range). rewrite nth_repeat, Z.add_0_l, s32_small; [done|].
    destruct Hov as [Hn Hm]. destruct (lookup_lt_is_Some_2 over0 (Z.to_nat s)) as [row Erow]; [lia|]. rewrite (nth_lookup_Some _ _ _ _ Erow).
    pose proof (Forall_lookup_1 _ _ _ _ Hm Erow) as Hlen. cbv beta in Hlen.
    apply (Forall_nth (fun v => - 2 ^ 31 <= v < 2 ^ 31) 0); [apply (Forall_lookup_1 _ _ _ _ Hrange Erow)|lia].
Qed.

Lemma synth_channel_correct_witness :
  let ds := DecodeStack [] [] [] [] [] (repeat 7 576) (ImdctStack (repeat 5 18) (repeat 5 18) (repeat 5 9)) (repeat 9 36) in
  let c := MkChannel 0 0 0 0 8 2 [] [] 0 0 [] in
  let x := map (fun k => if k <? 200 then (k - 100) * 100000 else 0) (seqZ 0 576) in
  let rows0 := repeat (repeat 1 32) 36 in let over0 := repeat (repeat 1000 18) 32 in
  let xs := spectrum 64 c (block_widths (MkBandwidths sfb_44100_long sfb_44100_short sfb_44100_mixed) c) x in
  exists over sample output',
  synth_channel 64 ds 18 c (block_widths (MkBandwidths sfb_44100_long sfb_44100_short sfb_44100_mixed) c) x over0 rows0 (repeat 3 36) =
    Some (xs, over, sample, output') /\
  (forall s, 0 <= s < 32 -> aget over s = Some (drop 18 (subband_output 64 c xs s))) /\
  (forall i s, 0 <= i < 36 -> 0 <= s < 32 -> get2 sample i s =
     if (18 <=? i) && (i <? 18 + 18)
     then Some (inversion s (i - 18) (plain_sample (subband_output 64 c xs s) (nth (Z.to_nat s) over0 []) (i - 18)))
     else get2 rows0 i s).
Proof.
  intros ds c x rows0 over0. apply (synth_channel_correct 64 ds 1).
  - apply Z.leb_le. reflexivity.
  - split; [reflexivity|]. split; reflexivity.
  - reflexivity.
  - reflexivity.
  - reflexivity.
  - reflexivity.
  - split; [apply Z.leb_le|apply Z.ltb_lt]; reflexivity.
  - reflexivity.
  - split; [reflexivity|]. apply (bool_decide_unpack _). vm_compute. exact I.
  - split; [reflexivity|]. apply (bool_decide_unpack _). vm_compute. exact I.
  - apply (bool_decide_unpack _). vm_compute. exact I.
  - split; apply Z.leb_le; reflexivity.
Defined.
