(* ===== verification/MadLayer3Safe.v ===== *)
(** Layer III on arbitrary bytes: [III_decode] and [mad_layer_III] of
    [src/libmad/layer3.c] end inside all their arrays whatever the frame holds, and leave the
    stream, the reservoir and the frame ready for the next call.

    The one way out is [part2_3_length], which the code never compares with the length
    of the main data: a frame whose main data begins in its own section is decoded in place and
    may be read up to 2048 bytes behind its start.  The theorems ask for as much input there; inside
    of the reservoir the bytes are always there. *)
From S2P Require Import Prelude BitString Crc MadBit MadTimer MadFrame MadSideInfo MadRequantize MadHuffDecode.
From S2P Require Import MadSpectrum MadStereo MadImdct MadSideRange MadLayer3 MadReservoir MadHybrid.

(** ** Side information while scale factors are read *)

(** A channel as the later stages need it. *)
Definition channel_good (lsf : bool) (c : channel) : Prop :=
  channel_range c /\ big_values c <= 288 /\ 0 <= scalefac_compress c < (if lsf then 512 else 16).

Definition side_good (lsf : bool) (nch : Z) (si : sideinfo) : Prop :=
  side_bytes si /\ forall g ch, 0 <= g < granules lsf -> 0 <= ch < nch -> exists c, chan si g ch = Some c /\ channel_good lsf c.

Definition with_granules (si : sideinfo) (grs : list (list channel)) : sideinfo :=
  MkSideInfo (main_data_begin si) (si_private_bits si) (scfsi si) grs.

Lemma put_chan_set grs g ch c row : aget grs g = Some row -> 0 <= ch < zlen row ->
  exists row', aset row ch c = Some row' /\ aset grs g row' = Some (put_chan grs g ch c).
Proof.
  intros Hr Hch. pose proof (aget_inv _ _ _ Hr). rewrite (aset_Some row) by lia. eexists. split; [done|]. rewrite aset_Some by lia. unfold put_chan. by rewrite Hr.
Qed.

(** The two ways in which reading scale factors changes a channel. *)
Lemma good_factors lsf c l : channel_good lsf c -> length l = 39%nat -> bytes_ok l -> channel_good lsf (set_scalefac c l).
Proof. intros ([A B C [D1 D2] [S G F]]&H2&H3) Hl Hb. split; [|done]. split; [done|done|done|by split|by split]. Qed.

Lemma good_preflag lsf c : channel_good lsf c -> channel_good lsf (set_ch_flags c (ch_flags c .| preflag)).
Proof.
  intros ([A B C [D1 D2] [S G F]]&H2&H3). split; [|done]. split; [done| |done|by split|by split].
  cbn [set_ch_flags ch_flags]. by apply (lor_range _ _ 4).
Qed.

Lemma good_lsf lsf c c' l1 : channel_good lsf c -> lsf_factors c c' l1 -> channel_good lsf c'.
Proof.
  intros Hc [[-> | ->] [Hl Hb] _ _]; [by apply good_factors|]. apply good_factors; [by apply good_preflag|done|done].
Qed.

Lemma good_bytes lsf c : channel_good lsf c -> channel_bytes c.
Proof. intros [[]]. done. Qed.

Lemma good_put lsf nch si g ch c : side_good lsf nch si -> 0 <= g < granules lsf -> 0 <= ch < 2 -> channel_good lsf c ->
  side_good lsf nch (with_granules si (put_chan (gr si) g ch c)).
Proof.
  intros [Hs Hg] Hgr Hch Hc. assert (granules lsf <= 2) by (unfold granules; destruct lsf; lia).
  split; [apply put_chan_bytes; [done|apply Hs|by eapply good_bytes|lia]|].
  intros g' ch' Hg' Hch'. unfold with_granules. rewrite put_chan_get by (done || lia).
  destruct (Z.eqb_spec g g'), (Z.eqb_spec ch ch'); cbn [andb]; [by exists c|by apply Hg..].
Qed.

(** The channel that marks illegal positions is none of the frame's. *)
Lemma good_mark lsf nch si c1 : lsf = true -> side_good lsf nch si -> channel_bytes c1 ->
  side_good lsf nch (with_granules si (put_chan (gr si) 1 1 c1)).
Proof.
  intros -> [Hs Hg] Hc. split; [by apply put_chan_bytes; [done|apply Hs|done|lia]|].
  intros g' ch' Hg' Hch'. unfold with_granules. cbn [granules] in Hg'. rewrite put_chan_get by (done || lia).
  destruct (Z.eqb_spec 1 g'); [lia|]. cbn [andb]. by apply Hg.
Qed.

(** Where the marks of the right channel are clear its scale factors are legal positions. *)
Definition positions_marked (si : sideinfo) : Prop :=
  exists c0 c1, chan si 0 1 = Some c0 /\ chan si 1 1 = Some c1 /\ length (scalefac c1) = 39%nat /\
    forall b, nth b (scalefac c1) 0 = 0 -> nth b (scalefac c0) 0 <= 30.

Lemma side_row lsf nch g ch si : side_good lsf nch si -> 0 <= g < granules lsf -> 0 <= ch < nch -> nch <= 2 ->
  exists granule c, aget (gr si) g = Some granule /\ aget granule ch = Some c /\ channel_good lsf c /\ length granule = 2%nat.
Proof.
  intros Hs Hg Hch Hn. assert (granules lsf <= 2) by (unfold granules; destruct lsf; lia).
  destruct (proj2 Hs g ch Hg Hch) as (c&Ec&Hc). unfold chan in Ec.
  destruct (chan_get si g ch (proj1 Hs) ltac:(lia) ltac:(lia)) as (row&c'&Er&Ec'&Hrow&_). rewrite Er in *. cbn [mbind option_bind] in Ec.
  exists row, c. split; [done|]. split; [congruence|]. by split.
Qed.

(** The arrays of the stack have their sizes. *)
Record stack_shape (ds : decode_stack) : Prop := StackShape {
  ss_xr : grid 2 576 (ds_xr ds);
  ss_output : length (ds_output ds) = 36%nat;
  ss_exponents : length (ds_exponents ds) = 39%nat /\ length (ds_reqcache ds) = 16%nat;
  ss_modes : length (ds_modes ds) = 39%nat;
  ss_tmp : length (ds_tmp ds) = 576%nat /\ length (ds_y ds) = 36%nat;
  ss_imdct : stack_ok (ds_imdct ds)
}.

Definition huff_errors : list Z := [MAD_ERROR_NONE; MAD_ERROR_BADPART3LEN; MAD_ERROR_BADHUFFTABLE; MAD_ERROR_BADHUFFDATA].

(** ** A channel of a granule *)

Section Channels.
Variables (W : Z) (mem : list Z) (h : mad_header) (r : bandwidths) (ds : decode_stack) (lsf : bool) (nch : Z).
Hypotheses (HW : 32 <= W) (Hmem : bytes_ok mem) (Hmax : 8 * zlen mem < 2 ^ 32) (Hlsf : bitset (flags h) MAD_FLAG_LSF_EXT = lsf)
  (Hr : aget sfbwidth_table (sfreq_index h) = Some r) (Hds : stack_shape ds) (Hnch : 1 <= nch <= 2).

(** What both versions of the scale factors leave. *)
Record factors_read (g ch : Z) (c : channel) (p : mad_bitptr) (len : Z) (c' : channel) (si' : sideinfo) (p' : mad_bitptr) : Prop := FactorsRead {
  fr_widths : block_widths r c' = block_widths r c;
  fr_channel : channel_good lsf c';
  fr_side : side_good lsf nch si';
  fr_pos : bitptr_ok mem p' /\ len = pos p' - pos p /\ 0 <= len <= 195;
  fr_marked : lsf = true -> ch = 1 -> bitset (mode_extension h) I_STEREO = true -> positions_marked si'
}.

Lemma mpeg1_factors g ch si p granule c : lsf = false -> side_good lsf nch si -> 0 <= g < granules lsf -> 0 <= ch < nch ->
  aget (gr si) g = Some granule -> aget granule ch = Some c -> channel_good lsf c ->
  bitptr_ok mem p -> pos p + 200 <= 8 * zlen mem ->
  exists len c' si' p',
  (first ← aget (gr si) 0; c0 ← aget first ch;
   s ← (if g =? 0 then Some 0 else aget (scfsi si) ch);
   '(len, c, p) ← III_scalefactors W mem p c c0 s;
   granule ← aset granule ch c; grs ← aset (gr si) g granule;
   Some (len, c, with_granules si grs, p)) = Some (len, c', si', p') /\ factors_read g ch c p len c' si' p'.
Proof.
  intros El Hs Hg Hch Eg Ec Hc Hp Hin.
  destruct (side_row lsf nch 0 ch si Hs) as (first&c0&->&E0&Hc0&Hfirst); [unfold granules; case_match; lia|done|lia|]. cbn [mbind option_bind]. rewrite E0. cbn [mbind option_bind].
  assert (exists s, (if g =? 0 then Some 0 else aget (scfsi si) ch) = Some s) as [s ->].
  { case_match; [by eexists|]. apply aget_Some. destruct Hs as [[Hl _] _]. lia. }
  cbn [mbind option_bind].
  destruct (scalefactors_total W mem HW Hmem c c0 s p) as (len&l&p'&->&Hl&Hb&Hp'&Elen&Hlen); try done.
  { destruct Hc as (_&_&Hc). by rewrite El in Hc. } { by apply (good_bytes lsf). } { by apply (good_bytes lsf). }
  cbn [mbind option_bind]. pose proof (aget_inv _ _ _ Ec) as Hci.
  destruct (put_chan_set (gr si) g ch (set_scalefac c l) granule Eg) as (granule'&->&E2); [lia|]. cbn [mbind option_bind]. rewrite E2. cbn [mbind option_bind].
  eexists _, _, _, _. split; [done|]. pose proof (good_factors lsf c l Hc Hl Hb) as Hc'. split; [done|done| | |].
  - apply good_put; done || lia.
  - split; [done|]. lia.
  - intros E. congruence.
Qed.

Lemma lsf_channel_factors g ch si p granule c : lsf = true -> side_good lsf nch si -> 0 <= g < granules lsf -> 0 <= ch < nch ->
  aget (gr si) g = Some granule -> aget granule ch = Some c -> channel_good lsf c ->
  bitptr_ok mem p -> pos p + 200 <= 8 * zlen mem ->
  exists len c' si' p',
  (other ← aget (gr si) 1; c1 ← aget other 1;
   '(len, c, c1', p) ← III_scalefactors_lsf W mem p c (if ch =? 0 then None else Some c1) (mode_extension h);
   granule ← aset granule ch c; grs ← aset (gr si) g granule; other ← aget grs 1;
   other ← (match c1' with Some c1' => aset other 1 c1' | None => Some other end);
   grs ← aset grs 1 other;
   Some (len, c, with_granules si grs, p)) = Some (len, c', si', p') /\ factors_read g ch c p len c' si' p'.
Proof.
  intros El Hs Hg Hch Eg Ec Hc Hp Hin. assert (g = 0) as -> by (rewrite El in Hg; cbn [granules] in Hg; lia).
  destruct (chan_get si 1 1 (proj1 Hs)) as (other&c1&Eo&E1&Hother&_&Hc1); [lia|lia|]. rewrite Eo. cbn [mbind option_bind]. rewrite E1. cbn [mbind option_bind].
  destruct (lsf_total W mem HW Hmem c (if ch =? 0 then None else Some c1) (mode_extension h) p) as (len&c'&l1&p'&->&Hf&Hp'&Elen&Hlen); try done.
  { destruct Hc as (_&_&Hc). by rewrite El in Hc. } { by apply (good_bytes lsf). } { intros c2. destruct (ch =? 0); [done|]. intros [= <-]. apply Hc1. }
  cbn [mbind option_bind]. pose proof (aget_inv _ _ _ Ec) as Hci.
  destruct (put_chan_set (gr si) 0 ch c' granule Eg) as (granule'&->&E2); [lia|]. cbn [mbind option_bind]. rewrite E2. cbn [mbind option_bind].
  pose proof (good_lsf lsf c c' l1 Hc Hf) as Hc'. pose proof (good_put lsf nch si 0 ch c' Hs Hg ltac:(lia) Hc') as Hs'.
  assert (aget (put_chan (gr si) 0 ch c') 1 = Some other) as E3 by (unfold put_chan; rewrite Eg, aget_insert_ne by lia; done).
  rewrite E3. cbn [mbind option_bind].
  set (c1' := if bitset (mode_extension h) I_STEREO then set_scalefac c1 l1 else c1).
  set (grs := if ch =? 0 then put_chan (gr si) 0 ch c' else put_chan (put_chan (gr si) 0 ch c') 1 1 c1').
  exists len, c', (with_granules si grs), p'. split.
  - unfold grs. destruct (ch =? 0); cbn [fmap option_fmap option_map].
    + cbn [mbind option_bind]. pose proof (aget_inv _ _ _ E3) as H3. rewrite aset_Some by done. cbn [mbind option_bind].
      rewrite list_insert_id; [done|]. by rewrite <- aget_lookup.
    + fold c1'. destruct (put_chan_set (put_chan (gr si) 0 ch c') 1 1 c1' other E3) as (other'&->&E4); [lia|]. cbn [mbind option_bind].
      rewrite E4. done.
  - split; [| |unfold grs; destruct (ch =? 0)| |].
    + destruct Hf as [[-> | ->] _ _ _]; [done|]. unfold block_widths. cbn [set_scalefac set_ch_flags block_type ch_flags].
      assert (bitset (ch_flags c .| preflag) mixed_block_flag = bitset (ch_flags c) mixed_block_flag) as ->; [|done].
      unfold bitset. by rewrite Z.land_lor_distr_l, Z.lor_0_r.
    + done.
    + done.
    + apply (good_mark lsf nch _ c1' El) in Hs'; [done|]. destruct Hc1 as [S G F]. unfold c1'. case_match; [|by split]. split; try done. apply Hf.
    + split; [done|]. lia.
    + intros _ -> Hi. exists c', c1'. unfold grs, chan. cbn [Z.eqb with_granules gr]. unfold c1'. rewrite Hi. clear grs c1'.
      pose proof (put_chan_get (with_granules si (put_chan (gr si) 0 1 c')) 1 1 (set_scalefac c1 l1) (main_data_begin si) (si_private_bits si) (scfsi si)) as Hput.
      unfold chan in Hput. cbn [with_granules gr] in Hput.
      rewrite !Hput by (lia || apply Hs'). cbn [Z.eqb andb].
      pose proof (put_chan_get si 0 1 c' (main_data_begin si) (si_private_bits si) (scfsi si) 0 1 (proj1 Hs)) as Hput2.
      unfold chan in Hput2. cbn [gr] in Hput2. rewrite Hput2 by lia. cbn [Z.eqb andb]. split; [done|]. split; [done|]. cbn [set_scalefac scalefac]. split; apply Hf.
Qed.

Lemma decode_channel_total g ch si p xr : side_good lsf nch si -> 0 <= g < granules lsf -> 0 <= ch < nch ->
  bitptr_ok mem p -> pos p + 4095 + 64 <= 8 * zlen mem -> grid 2 576 xr ->
  exists err si' p' xr', decode_channel W mem h ds g ch (0, si, p, xr) = Some (err, si', p', xr') /\ err ∈ huff_errors /\
  side_good lsf nch si' /\ bitptr_ok mem p' /\ pos p <= pos p' <= pos p + 4095 /\ grid 2 576 xr' /\
  (lsf = true -> ch = 1 -> bitset (mode_extension h) I_STEREO = true -> positions_marked si').
Proof.
  intros Hs Hg Hch Hp Hin Hxr. unfold decode_channel. cbn [Z.eqb negb].
  destruct (side_row lsf nch g ch si Hs Hg Hch) as (granule&c&Eg&Ec&Hc&Hgl); [lia|]. rewrite Eg. cbn [mbind option_bind]. rewrite Ec. cbn [mbind option_bind]. rewrite Hr. cbn [mbind option_bind].
  match goal with |- context [?m ≫= _] => assert (exists len c' si' p', m = Some (len, c', si', p') /\ factors_read g ch c p len c' si' p')
    as (len&c'&si'&p'&->&[Hw Hc' Hs' (Hp'&Elen&Hlen) Hm]) end.
  { destruct (Bool.bool_dec (bitset (flags h) MAD_FLAG_LSF_EXT) true) as [El|El%not_true_is_false]; rewrite El; [apply (lsf_channel_factors g ch si p granule c)|apply (mpeg1_factors g ch si p granule c)];
      congruence || done || lia. }
  cbn [mbind option_bind]. destruct Hxr as [Hx2 Hxf]. destruct (aget_Some xr ch) as [x Ex]; [lia|]. rewrite Ex. cbn [mbind option_bind].
  pose proof (aget_Forall _ _ _ _ Hxf Ex) as Hx. cbv beta in Hx.
  destruct (ss_exponents _ Hds) as [He Hcache]. pose proof Hc' as ([(H23&Hbv&_) Hfl Hbl Hre Hby]&Hbig&Hsc).
  change (2 ^ 12) with 4096 in *.
  destruct (III_huffdecode_total W mem p' x c' (sfreq_index h) r len (ds_exponents ds) (ds_reqcache ds)) as (e&l&p2&E&He1&_&Hl&Hp2&Hpos2);
    change (2 ^ 12) with 4096; try done; try (unfold MAD_BUFFER_GUARD; lia); [apply channel_range_gains, Hc'|].
  rewrite Hw in E. rewrite E. cbn [mbind option_bind]. rewrite aset_Some by lia. cbn [mbind option_bind].
  exists e, si', p2, (<[Z.to_nat ch := l]> xr). split; [done|]. split; [done|]. split; [done|]. split; [done|]. split; [lia|].
  split; [|done]. split; [by rewrite length_insert|by apply Forall_insert].
Qed.
End Channels.

(** ** A granule *)

Record header_good (lsf : bool) (nch : Z) (r : bandwidths) (h : mad_header) : Prop := HeaderGood {
  hg_lsf : bitset (flags h) MAD_FLAG_LSF_EXT = lsf;
  hg_bands : aget sfbwidth_table (sfreq_index h) = Some r;
  hg_mode : mode h = MAD_MODE_JOINT_STEREO -> nch = 2;
  hg_extension : 0 <= mode_extension h < 4
}.

Record frame_shape (f : mad_frame) : Prop := FrameShape {
  fs_samples : length (sbsample f) = 2%nat /\ Forall (grid 36 32) (sbsample f);
  fs_overlap : exists o, overlap f = Some o /\ length o = 2%nat /\ Forall (grid 32 18) o
}.

(** Other flags do not disturb the ones that select tables. *)
Lemma flags_good lsf nch r h k v : header_good lsf nch r h -> k .& MAD_FLAG_LSF_EXT = 0 -> k .& MAD_FLAG_MPEG_2_5_EXT = 0 ->
  header_good lsf nch r (set_flags h (flags h .| k) v).
Proof.
  intros [H1 H2 H3 H4] Hk1 Hk2. split; cbn [set_flags flags mode mode_extension]; [by rewrite flag_kept| |done|done].
  rewrite <- H2. f_equal. unfold sfreq_index. cbn [set_flags flags samplerate]. unfold bitset. by rewrite Z.land_lor_distr_l, Hk2, Z.lor_0_r.
Qed.

Lemma flagged_good lsf nch r h b k : header_good lsf nch r h -> k .& MAD_FLAG_LSF_EXT = 0 -> k .& MAD_FLAG_MPEG_2_5_EXT = 0 ->
  header_good lsf nch r (add_flag h b k).
Proof. intros Hh H1 H2. unfold add_flag. destruct b; [by apply flags_good|done]. Qed.

Lemma compatible_widths c0 c1 r : compatible c0 c1 = true -> block_widths r c0 = block_widths r c1.
Proof.
  unfold compatible, block_widths, bitset. intros [->%Z.eqb_eq Hf%Z.eqb_eq]%andb_true_iff. by rewrite Hf.
Qed.

Section Granule.
Variables (W : Z) (r : bandwidths) (ds : decode_stack) (lsf : bool) (nch : Z).
Hypotheses (HW : 32 <= W) (Hds : stack_shape ds) (Hnch : 1 <= nch <= 2).

(** What [III_stereo] is given. *)
Lemma stereo_args h si g granule c0 c1 : header_good lsf nch r h -> side_good lsf nch si -> nch = 2 -> 0 <= g < granules lsf ->
  (lsf = true -> bitset (mode_extension h) I_STEREO = true -> positions_marked si) ->
  aget (gr si) g = Some granule -> aget granule 1 = Some c1 -> channel_good lsf c1 -> compatible c0 c1 = true ->
  stereo_ok h c1 (match aget (gr si) (g + 1) with Some [_; c] => scalefac c | _ => [] end) (block_widths r c0).
Proof.
  intros [H1 H2 H3 H4] Hs Hn Hg Hm Eg E1 Hc1 Hcomp. rewrite (compatible_widths c0 c1 r Hcomp). split.
  - done.
  - split; [by eapply block_widths_ok|]. intros Hb. by eapply short_rows.
  - by apply (good_bytes lsf).
  - intros El Ei. rewrite H1 in El. destruct (Hm El Ei) as (ca&cb&Ea&Eb&Hl&Hp). assert (g = 0) as -> by (rewrite El in Hg; cbn [granules] in Hg; lia).
    destruct (chan_get si 1 1 (proj1 Hs)) as (row&cb'&Er&Eb'&Hrow&_); [lia|lia|]. unfold chan in Ea, Eb. change (0 + 1) with 1.
    rewrite Er in *. rewrite Eg in Ea. cbn [mbind option_bind] in *. destruct row as [|? [|? [|]]]; try done. simplify_eq. injection Eb as ->. split; [done|]. intros b _. apply Hp.
Qed.

Lemma joint_stereo_total h si g xr : header_good lsf nch r h -> side_good lsf nch si -> 0 <= g < granules lsf -> grid 2 576 xr ->
  (lsf = true -> nch = 2 -> bitset (mode_extension h) I_STEREO = true -> positions_marked si) ->
  exists err xr' h', joint_stereo W h ds si g xr = Some (err, xr', h') /\ (err = MAD_ERROR_NONE \/ err = MAD_ERROR_BADSTEREO) /\
    grid 2 576 xr' /\ header_good lsf nch r h'.
Proof.
  intros Hh Hs Hg Hxr Hm. unfold joint_stereo. destruct (Z.eqb_spec (mode h) MAD_MODE_JOINT_STEREO) as [Hmode|]; cbn [andb].
  2: { eexists _, _, _. split; [done|]. by split; [left|]. }
  destruct (mode_extension h =? 0); cbn [negb].
  { eexists _, _, _. split; [done|]. by split; [left|]. }
  pose proof (hg_mode _ _ _ _ Hh Hmode) as Hn.
  destruct (side_row lsf nch g 0 si Hs Hg) as (granule&c0&Eg&E0&Hc0&Hgl); [lia|lia|].
  destruct (side_row lsf nch g 1 si Hs Hg) as (granule'&c1&Eg'&E1&Hc1&_); [lia|lia|]. rewrite Eg in Eg'. injection Eg' as <-.
  rewrite Eg. cbn [mbind option_bind]. rewrite E0. cbn [mbind option_bind]. rewrite E1. cbn [mbind option_bind]. rewrite (hg_bands _ _ _ _ Hh). cbn [mbind option_bind].
  destruct Hxr as [Hl Hf]. destruct xr as [|x0 [|x1 [|]]]; try discriminate. cbn [aget Z.leb Z.compare Z.to_nat lookup list_lookup mbind option_bind].
  change (aget [x0; x1] 0) with (Some x0). change (aget [x0; x1] 1) with (Some x1). cbn [mbind option_bind].
  apply Forall_cons in Hf as [Hx0 Hf]. apply Forall_cons in Hf as [Hx1 _]. cbv beta in Hx0, Hx1.
  destruct (compatible c0 c1) eqn:Hcomp.
  - assert ((x0, x1) = split_channels (zip x0 x1)) as -> by (unfold split_channels; rewrite fst_zip, snd_zip by lia; done).
    assert (length (zip x0 x1) = 576%nat) as Hz by (rewrite length_zip; lia).
    rewrite (stereo_spec W h c0 c1 _ (block_widths r c0) (zip x0 x1)); [|by apply (stereo_args h si g granule); auto|done|apply Hds|done].
    set (ps := per_band _ _ _ _). assert (length ps = 576%nat) as Hps by (unfold ps; by rewrite per_band_length).
    unfold split_channels. cbn [mbind option_bind]. cbn. eexists _, _, _. split; [done|]. split; [by left|]. split.
    + split; [done|]. repeat constructor; by rewrite length_map.
    + by apply flagged_good; [apply flagged_good| |].
  - rewrite stereo_refused by done. cbn [mbind option_bind]. cbn. eexists _, _, _. split; [done|]. split; [by right|]. split; [|done].
    split; [done|]. by repeat constructor.
Qed.

(** Synthesis of a channel. *)
Definition synth_shape (st : list (list Z) * list Z * list (list (list Z)) * list (list (list Z))) : Prop :=
  let '(xr, output, overs, samples) := st in
  grid 2 576 xr /\ length output = 36%nat /\ (length overs = 2%nat /\ Forall (grid 32 18) overs) /\ length samples = 2%nat /\ Forall (grid 36 32) samples.

Lemma granule_channel_total h g granule ch c st : header_good lsf nch r h -> 0 <= g < 2 -> 0 <= ch < nch ->
  aget granule ch = Some c -> channel_good lsf c -> synth_shape st ->
  exists st', granule_channel W h ds g granule ch st = Some st' /\ synth_shape st'.
Proof.
  destruct st as [[[xr output] overs] samples]. intros Hh Hg Hch Ec Hc ([Hx2 Hxf]&Hout&[Ho2 Hof]&Hs2&Hsf). unfold granule_channel.
  rewrite Ec. cbn [mbind option_bind]. rewrite (hg_bands _ _ _ _ Hh). cbn [mbind option_bind].
  destruct (aget_Some xr ch) as [x Ex]; [lia|]. rewrite Ex. cbn [mbind option_bind].
  destruct (aget_Some overs ch) as [over Eo]; [lia|]. rewrite Eo. cbn [mbind option_bind].
  destruct (aget_Some samples ch) as [sample Es]; [lia|]. rewrite Es. cbn [mbind option_bind].
  pose proof (aget_Forall _ _ _ _ Hxf Ex) as Hx. pose proof (aget_Forall _ _ _ _ Hof Eo) as Ho. pose proof (aget_Forall _ _ _ _ Hsf Es) as Hs. cbv beta in Hx.
  destruct Hds as [_ _ _ _ [Ht Hy] Hst].
  destruct (synth_channel_spec W ds c (block_widths r c) x sample over (18 * g) output) as (over'&sample'&output'&limit&E&Hl'&Eov&[Hgs _]&_&_&Hxs); try done; try lia.
  { apply Hc. } { intros Hb. eapply short_rows; [apply Hh|done]. }
  rewrite E. cbn [mbind option_bind]. rewrite (aset_Some xr), (aset_Some overs), (aset_Some samples) by lia. cbn [mbind option_bind].
  eexists. split; [done|]. split; [split; [by rewrite length_insert|by apply Forall_insert]|]. split; [done|].
  split; [split; [by rewrite length_insert|]|split; [by rewrite length_insert|by apply Forall_insert]].
  apply Forall_insert; [done|]. rewrite Eov.
  (* the rows of the overlap *)
  pose proof (over_rows_grid W c (spectrum W c (block_widths r c) x) over) as Hgrid. apply Hgrid; [apply Hc|done|done].
Qed.
End Granule.

(** ** [III_decode] *)

Definition decode_errors : list Z := huff_errors ++ [MAD_ERROR_BADSTEREO].

Section Decode.
Variables (W : Z) (mem : list Z) (r : bandwidths) (ds : decode_stack) (lsf : bool) (nch : Z).
Hypotheses (HW : 32 <= W) (Hmem : bytes_ok mem) (Hmax : 8 * zlen mem < 2 ^ 32) (Hds : stack_shape ds) (Hnch : 1 <= nch <= 2).

(** The channels of a granule, with the bits that are used up to channel [ch]. *)
Definition channels_read (p0 : mad_bitptr) (ext ch : Z) (st : Z * sideinfo * mad_bitptr * list (list Z)) : Prop :=
  let '(err, si, p, xr) := st in
  err ∈ huff_errors /\ side_good lsf nch si /\ bitptr_ok mem p /\ pos p0 <= pos p <= pos p0 + 4095 * ch /\ grid 2 576 xr /\
  (err = 0 -> lsf = true -> ch = 2 -> bitset ext I_STEREO = true -> positions_marked si).

Lemma channels_total h g si p : header_good lsf nch r h -> side_good lsf nch si -> 0 <= g < granules lsf ->
  bitptr_ok mem p -> pos p + 4095 * nch + 64 <= 8 * zlen mem ->
  exists st, for_range 0 nch (decode_channel W mem h ds g) (0, si, p, ds_xr ds) = Some st /\ channels_read p (mode_extension h) nch st.
Proof.
  intros [H1 H2 H3 H4] Hs Hg Hp Hin. apply for_range_inv; [lia| |].
  - split; [apply list_elem_of_In; by left|]. split; [done|]. split; [done|]. split; [lia|]. split; [apply Hds|lia].
  - intros ch [[[err si'] p'] xr] Hch (I1&I2&I3&I4&I5&I6). destruct (Z.eqb_spec err 0) as [->|He].
    + destruct (decode_channel_total W mem h r ds lsf nch HW Hmem Hmax H1 H2 Hds Hnch g ch si' p' xr I2 Hg Hch I3) as (e&si2&p2&xr2&->&J1&J2&J3&J4&J5&J6);
        [lia|done|]. eexists. split; [done|]. split; [done|]. split; [done|]. split; [done|]. split; [lia|]. split; [done|].
      intros _ El Hc. apply J6; [done|lia].
    + exists (err, si', p', xr). unfold decode_channel. rewrite (proj2 (Z.eqb_neq err 0) He). cbn [negb]. split; [done|].
      split; [done|]. split; [done|]. split; [done|]. split; [lia|]. split; [done|]. done.
Qed.

(** What a granule keeps. *)
Definition granule_read (p0 : mad_bitptr) (g : Z) (st : Z * sideinfo * mad_bitptr * mad_frame) : Prop :=
  let '(err, si, p, f) := st in
  err ∈ decode_errors /\ side_good lsf nch si /\ bitptr_ok mem p /\ pos p0 <= pos p <= pos p0 + 8190 * g /\
  frame_shape f /\ header_good lsf nch r (header f).

Lemma decode_granule_total p0 g st : granule_read p0 g st -> 0 <= g < granules lsf -> pos p0 + 8190 * granules lsf + 64 <= 8 * zlen mem ->
  exists st', decode_granule W mem nch ds g st = Some st' /\ granule_read p0 (g + 1) st'.
Proof.
  destruct st as [[[err si] p] f]. intros (I1&I2&I3&I4&I5&I6) Hg Hin. unfold decode_granule.
  assert (8190 * (g + 1) <= 8190 * granules lsf) by lia.
  destruct (Z.eqb_spec err 0) as [->|He]; cbn [negb].
  2: { eexists. split; [done|]. split; [done|]. split; [done|]. split; [done|]. split; [lia|]. by split. }
  destruct (channels_total (header f) g si p I6 I2 Hg I3) as ([[[e si'] p'] xr]&->&J1&J2&J3&J4&J5&J6); [lia|]. cbn [mbind option_bind].
  assert (forall f', frame_shape f' -> header_good lsf nch r (header f') -> forall e', e' ∈ decode_errors ->
    granule_read p0 (g + 1) (e', si', p', f')) as Hend.
  { intros f' Hf Hh e' He'. split; [done|]. split; [done|]. split; [done|]. split; [lia|]. by split. }
  destruct (Z.eqb_spec e 0) as [->|He]; cbn [negb].
  2: { eexists. split; [done|]. apply Hend; [done|done|]. apply elem_of_app. by left. }
  destruct (joint_stereo_total W r ds lsf nch Hds Hnch (header f) si' g xr I6 J2 Hg J5) as (e2&xr'&h'&->&K1&K2&K3); [auto|]. cbn [mbind option_bind].
  assert (frame_shape (set_header f h')) as Hf' by (destruct I5; by split).
  destruct (Z.eqb_spec e2 0) as [->|He2]; cbn [negb].
  2: { eexists. split; [done|]. apply Hend; [done|done|]. apply elem_of_app. right. destruct K1 as [->| ->]; [done|]. by apply list_elem_of_In; left. }
  destruct (side_row lsf nch g 0 si' J2 Hg) as (granule&c0&Eg&_&_&Hgl); [lia|lia|]. rewrite Eg. cbn [mbind option_bind].
  destruct Hf' as [Hsm (overs&Eo&Hov)]. rewrite Eo. cbn [mbind option_bind].
  destruct (for_range_inv (fun _ => synth_shape) 0 nch (granule_channel W h' ds g granule)
    (xr', ds_output ds, overs, sbsample (set_header f h'))) as ([[[xr2 out2] overs2] samples2]&->&L); [lia| | |].
  { split; [done|]. split; [apply Hds|]. split; [done|]. done. }
  { intros ch st Hch Hst. destruct (side_row lsf nch g ch si' J2 Hg) as (granule'&c&Eg'&Ec&Hc&_); [lia|lia|]. rewrite Eg in Eg'. injection Eg' as <-.
    assert (granules lsf <= 2) by (unfold granules; destruct lsf; lia).
    apply (granule_channel_total W r ds lsf nch) with (c := c); try done; lia. }
  cbn [mbind option_bind]. destruct L as (_&_&L1&L2). eexists. split; [done|]. apply Hend.
  - split; [done|]. by exists overs2.
  - done.
  - by apply list_elem_of_In; left.
Qed.

Lemma III_decode_total p f si : header_good lsf nch r (header f) -> frame_shape f -> side_good lsf nch si -> bitptr_ok mem p ->
  pos p + 8190 * granules lsf + 64 <= 8 * zlen mem ->
  exists err si' p' f', III_decode W mem p f si nch ds = Some (err, si', p', f') /\ err ∈ decode_errors /\ bitptr_ok mem p' /\
    pos p <= pos p' <= pos p + 8190 * granules lsf /\ frame_shape f' /\ header_good lsf nch r (header f').
Proof.
  intros Hh Hf Hs Hp Hin. unfold III_decode. rewrite (hg_lsf _ _ _ _ Hh).
  assert ((if lsf then 1 else 2) = granules lsf) as -> by (by destruct lsf).
  destruct (for_range_inv (granule_read p) 0 (granules lsf) (decode_granule W mem nch ds) (0, si, p, f)) as ([[[e si'] p'] f']&->&H1&H2&H3&H4&H5&H6).
  - unfold granules. by destruct lsf.
  - split; [by apply list_elem_of_In; left|]. split; [done|]. split; [done|]. split; [lia|]. by split.
  - intros g st Hg Hst. by apply decode_granule_total.
  - by exists e, si', p', f'.
Qed.
End Decode.

(** ** [mad_layer_III] *)

(** The reservoir between calls. *)
Record main_ok (m : main_buffer) : Prop := MainOk {
  mo_length : 0 <= md_len m <= 511;
  mo_data : forall d, main_data m = Some d -> zlen d = MAD_BUFFER_MDLEN /\ bytes_ok d
}.

(** The frame between calls: before the first Layer III frame it has no overlap. *)
Definition overlap_ok (o : list (list (list Z))) : Prop := length o = 2%nat /\ Forall (grid 32 18) o.

Record frame_ready (f : mad_frame) : Prop := FrameReady {
  fy_samples : length (sbsample f) = 2%nat /\ Forall (grid 36 32) (sbsample f);
  fy_overlap : forall o, overlap f = Some o -> overlap_ok o
}.

Lemma bytes_blit d o src d' : bytes_ok d -> bytes_ok src -> ablit d o src = Some d' -> bytes_ok d'.
Proof.
  intros Hd Hs (_&_&->)%ablit_inv. rewrite !Forall_app. split; [by apply Forall_take|]. split; [done|by apply Forall_drop].
Qed.

Section Layer.
Variables (W : Z) (mem : list Z) (r : bandwidths) (ds : decode_stack) (lsf : bool).
Hypotheses (HW : 32 <= W) (Hmem : bytes_ok mem) (Hmax : 8 * zlen mem < 2 ^ 32) (Hds : stack_shape ds).

(** The buffers hold bytes after every copy. *)
Lemma find_main_bytes data mdl begin md p place data1 mdl1 used : bytes_ok data ->
  find_main mem data mdl begin md p = Some (place, data1, mdl1, used) -> bytes_ok data1.
Proof.
  intros Hd. unfold find_main. destruct (begin =? 0); [by intros; simplify_eq|]. destruct (mdl <? begin); [by intros; simplify_eq|].
  destruct (begin <? md); [|by intros; simplify_eq]. destruct (negb _); [by intros; simplify_eq|].
  destruct (asub mem _ _) as [src|] eqn:Es; [|done]. cbn [mbind option_bind]. destruct (ablit data mdl src) as [d|] eqn:Ed; [|done].
  cbn [mbind option_bind]. intros [= <- <- <- <-]. eapply bytes_blit; [exact Hd| |exact Ed]. exact (asub_Forall _ _ _ _ _ Hmem Es).
Qed.

Lemma preload_bytes data mdl begin md free next next_frame data1 mdl1 : bytes_ok data ->
  preload mem data mdl begin md free next next_frame = Some (data1, mdl1) -> bytes_ok data1.
Proof.
  intros Hd. unfold preload. destruct (next <=? free).
  - destruct (asub mem _ _) as [src|] eqn:Es; [|done]. cbn [mbind option_bind]. destruct (ablit data 0 src) as [d|] eqn:Ed; [|done].
    cbn [mbind option_bind]. intros [= <- <-]. eapply bytes_blit; [exact Hd| |exact Ed]. exact (asub_Forall _ _ _ _ _ Hmem Es).
  - match goal with |- (?m ≫= _) = _ -> _ => destruct m as [[d2 mdl2]|] eqn:E2; [|done] end. cbn [mbind option_bind].
    assert (bytes_ok d2) as Hd2.
    { destruct (md <? begin); [|by injection E2 as <- <-]. match type of E2 with (if ?c then _ else _) = _ => destruct c; [|by injection E2 as <- <-] end.
      destruct (asub data _ _) as [src|] eqn:Es; [|done]. cbn [mbind option_bind] in E2. destruct (ablit data 0 src) as [d|] eqn:Ed; [|done].
      injection E2 as <- <-. eapply bytes_blit; [exact Hd| |exact Ed]. exact (asub_Forall _ _ _ _ _ Hd Es). }
    destruct (asub mem _ _) as [src|] eqn:Es; [|done]. cbn [mbind option_bind]. destruct (ablit d2 mdl2 src) as [d|] eqn:Ed; [|done].
    cbn [mbind option_bind]. intros [= <- <-]. eapply bytes_blit; [exact Hd2| |exact Ed]. exact (asub_Forall _ _ _ _ _ Hmem Es).
Qed.

(** The header of the next frame is inside of the guard bytes. *)
Lemma next_begin_total q : 0 <= q -> q + MAD_BUFFER_GUARD <= zlen mem -> exists v, next_begin W mem q = Some v /\ 0 <= v < 512.
Proof.
  intros Hq Hin. unfold MAD_BUFFER_GUARD in Hin. unfold next_begin. destruct (bit_init_ok mem q Hq) as [Hp Hpos].
  destruct (read_total W mem HW Hmem _ 32 Hp) as (v&p&->&Hp1&Hpos1&_); [lia|lia|]. cbn [mbind option_bind].
  case_match; [|by exists 0].
  match goal with |- context [?m ≫= _] => assert (exists p', m = Some p' /\ bitptr_ok mem p' /\ pos p' <= pos p + 16) as (p'&->&Hp2&Hpos2) end.
  { case_match; [|exists p; split; [done|]; split; [done|lia]].
    destruct (bit_skip_spec mem p 16 Hp1) as (p'&->&?&?); [lia|lia|]. exists p'. split; [done|]. split; [done|lia]. }
  cbn [mbind option_bind].
  destruct (read_total W mem HW Hmem p' (if bitset v 0x00080000 then 9 else 8) Hp2) as (b&p3&->&_&_&Hb); [case_match; lia|case_match; lia|].
  cbn [mbind option_bind]. exists b. split; [done|]. case_match; [change (2 ^ 9) with 512 in Hb|change (2 ^ 8) with 256 in Hb]; lia.
Qed.

(** The CRC check changes nothing but the checksum and the error. *)
Lemma check_crc_total nch s f len : header_good lsf nch r (header f) -> bitptr_ok mem (ptr s) ->
  (bitset (flags (header f)) MAD_FLAG_PROTECTION = true -> 0 <= crc_check (header f) < 2 ^ 16) ->
  0 <= len -> pos (ptr s) + 8 * len <= 8 * zlen mem ->
  exists s' f' res, check_crc W mem s f len = Some (s', f', res) /\ ptr s' = ptr s /\ next_frame s' = next_frame s /\
    header_good lsf nch r (header f') /\ mode (header f') = mode (header f) /\ sbsample f' = sbsample f /\ overlap f' = overlap f /\
    (res = 0 /\ error s' = error s \/ res = -1 /\ error s' <> 0).
Proof.
  intros Hh Hp Hc Hl Hin. unfold check_crc, CHAR_BIT. destruct (bitset (flags (header f)) MAD_FLAG_PROTECTION) eqn:Eprot.
  - rewrite (bit_crc_spec W mem (ptr s) (len * 8)) by (done || lia || by apply Hc). cbn [mbind option_bind].
    set (v := crc16 _ _ _ _). assert (header_good lsf nch r (set_crc (header f) v (crc_target (header f)))) as Hh' by (destruct Hh; by split).
    case_match; eexists _, _, _; (split; [done|]); (split; [done|]); (split; [done|]); (split; [done|]); (split; [done|]); (split; [done|]); (split; [done|]); [right|left]; done.
  - eexists _, _, _. split; [done|]. do 6 (split; [done|]). by left.
Qed.

(** What a call reports. *)
Definition reported (s0 : mad_stream) (res : Z) (s : mad_stream) : Prop :=
  res = 0 /\ error s = error s0 \/ res = -1 /\ error s <> 0.

(** Where the main data is read from. *)
Definition placed_ok (data : list Z) (place : placement) : Prop :=
  match place with
  | Direct p => bitptr_ok mem p /\ pos p + 8190 * granules lsf + 64 <= 8 * zlen mem
  | Reservoir p => bitptr_ok data p /\ pos p + 8190 * granules lsf + 64 <= 8 * zlen data
  | _ => True
  end.

Lemma decode_main_total nch place data s m f si md dl res s0 : 1 <= nch <= 2 -> placed_ok data place -> bytes_ok data -> zlen data = MAD_BUFFER_MDLEN ->
  header_good lsf nch r (header f) -> frame_shape f -> (res = 0 -> side_good lsf nch si) -> reported s0 res s ->
  exists s' m' f' res', decode_main mem (fun data p f si nch => III_decode W data p f si nch ds) place data s m f si nch md dl res = Some (s', m', f', res') /\
    frame_shape f' /\ next_frame s' = next_frame s /\ reported s0 res' s'.
Proof.
  intros Hn Hpl Hd Hdl Hh Hf Hs Hrep. unfold decode_main.
  assert (forall p inside, bitptr_ok (if inside : bool then data else mem) p /\ pos p + 8190 * granules lsf + 64 <= 8 * zlen (if inside then data else mem) ->
    exists s' m' f' res', (if res =? 0 then
      '(err, _, p, f) ← III_decode W (if inside then data else mem) p f si nch ds;
      let anc := u32 (md * CHAR_BIT - dl) in
      if negb (err =? 0) then Some (set_error s err, set_anc m (inside, p) anc, f, -1) else Some (s, set_anc m (inside, p) anc, f, 0)
      else Some (s, m, f, res)) = Some (s', m', f', res') /\
    frame_shape f' /\ next_frame s' = next_frame s /\ reported s0 res' s') as Hdec.
  { intros p inside [Hp Hin]. destruct (Z.eqb_spec res 0) as [->|]; [|by eexists _, _, _, _].
    assert (bytes_ok (if inside then data else mem)) as Hb by (by destruct inside).
    destruct (III_decode_total W (if inside then data else mem) r ds lsf nch HW Hb) with (p := p) (f := f) (si := si) as (err&si'&p'&f'&->&Herr&_&_&Hf'&_); try done.
    { destruct inside; [rewrite Hdl; reflexivity|done]. } { by apply Hs. }
    cbn [mbind option_bind]. destruct (Z.eqb_spec err 0) as [->|He]; cbn [negb]; eexists _, _, _, _; (split; [done|]);
      (split; [done|]); (split; [done|]); [|by right].
    destruct Hrep as [[_ He]|[He _]]; [by left|lia]. }
  destruct place as [p|p| |]; [apply (Hdec p false Hpl)|apply (Hdec p true Hpl)| |]; by eexists _, _, _, _.
Qed.

(** The side information leaves a channel per granule to decode. *)
Lemma sideinfo_good nch si : side_bytes si -> (forall g ch, 0 <= g < granules lsf -> 0 <= ch < nch -> chan_read lsf 0 si g ch) -> side_good lsf nch si.
Proof.
  intros Hs Hr. split; [done|]. intros g ch Hg Hch. destruct (Hr g ch Hg Hch) as (c&E&H1&H2&H3). exists c. split; [done|]. split; [done|]. auto.
Qed.

Lemma private_flag pl : 1 <= pl <= 5 -> pl .& MAD_FLAG_LSF_EXT = 0 /\ pl .& MAD_FLAG_MPEG_2_5_EXT = 0.
Proof. intros H. assert (pl = 1 \/ pl = 2 \/ pl = 3 \/ pl = 4 \/ pl = 5) as [->|[->|[->|[->| ->]]]] by lia; done. Qed.

(** What is found of the main data is in the buffers. *)
Lemma find_main_placed data mdl begin next q p R F place data1 mdl1 used : frame_ok mem data R F mdl begin next q p ->
  bitptr_ok mem p -> pos p + 8190 * granules lsf + 64 <= 8 * zlen mem ->
  find_main mem data mdl begin (begin + zlen F - next) p = Some (place, data1, mdl1, used) -> zlen data1 = MAD_BUFFER_MDLEN -> placed_ok data1 place.
Proof.
  intros Hok Hp Hin E Hl. destruct (find_main_spec mem data R F mdl begin next q p Hok) as (pl&d&m&u&E'&H). rewrite E in E'. injection E' as <- <- <- <-.
  pose proof (fo_mdl _ _ _ _ _ _ _ _ _ Hok) as Hmdl. assert (granules lsf <= 2) by (unfold granules; destruct lsf; lia).
  destruct place as [p'|p'| |]; [|..|done|done].
  - destruct H as (_&->&_). done.
  - destruct H as (Hb&->&_). destruct (bit_init_ok data1 (mdl - begin)) as [H1 H2]; [lia|]. split; [done|]. rewrite H2, Hl. change MAD_BUFFER_MDLEN with 2567. lia.
Qed.

(** A frame in the input: the pointer behind its header, the guard bytes behind it, and as
    many bytes as the longest main data behind its side information. *)
Record stream_ready (s : mad_stream) (h : mad_header) : Prop := StreamReady {
  sr_ptr : bitptr_ok mem (ptr s) /\ pos (ptr s) = 8 * mad_bit_nextbyte (ptr s);
  sr_next : next_frame s + MAD_BUFFER_GUARD <= zlen mem;
  sr_room : mad_bit_nextbyte (ptr s) + si_length h + 2056 <= zlen mem;
  sr_header : header_good lsf (MAD_NCHANNELS h) r h;
  sr_crc : bitset (flags h) MAD_FLAG_PROTECTION = true -> 0 <= crc_check h < 2 ^ 16
}.

Definition layer_done (s0 : mad_stream) (out : Z * mad_stream * main_buffer * mad_frame) : Prop :=
  let '(res, s, m, f) := out in reported s0 res s /\ main_ok m /\ frame_ready f /\ next_frame s = next_frame s0.

Lemma ready_shape f o : frame_ready f -> overlap f = Some o -> frame_shape f.
Proof. intros [H1 H2] E. split; [done|]. exists o. split; [done|by apply H2]. Qed.

Lemma shape_ready f : frame_shape f -> frame_ready f.
Proof. intros [H1 (o&E&H2)]. split; [done|]. intros o' E'. rewrite E in E'. by injection E' as <-. Qed.

Lemma si_length_eq h : header_good lsf (MAD_NCHANNELS h) r h -> si_length h = side_length lsf (MAD_NCHANNELS h).
Proof. intros Hh. unfold si_length, side_length. by rewrite (hg_lsf _ _ _ _ Hh). Qed.

(** Everything behind the side information: finding, decoding, preloading. *)
Lemma main_data_total nch s0 s m f data si next dl res : 1 <= nch <= 2 ->
  main_ok m -> zlen data = MAD_BUFFER_MDLEN -> bytes_ok data -> frame_shape f -> header_good lsf nch r (header f) ->
  bitptr_ok mem (ptr s) -> pos (ptr s) = 8 * mad_bit_nextbyte (ptr s) -> pos (ptr s) + 8190 * granules lsf + 64 <= 8 * zlen mem ->
  mad_bit_nextbyte (ptr s) <= next_frame s <= zlen mem -> 0 <= main_data_begin si < 512 -> 0 <= next < 512 ->
  (res = 0 -> side_good lsf nch si) -> reported s0 res s -> next_frame s = next_frame s0 ->
  exists out,
  (let frame_space := next_frame s - mad_bit_nextbyte (ptr s) in
   let next := if main_data_begin si + frame_space <? next then 0 else next in
   let md := main_data_begin si + frame_space - next in
   '(place, data, mdl, frame_used) ← find_main mem data (md_len m) (main_data_begin si) md (ptr s);
   let m := set_main_data m data mdl in
   match place with
   | TooLong => Some (-1, set_error s MAD_ERROR_BADPART3LEN, m, f)
   | _ =>
       let '(s, res) := match place with
         | BadPointer => if res =? 0 then (set_error s MAD_ERROR_BADDATAPTR, -1) else (s, res)
         | _ => (s, res) end in
       '(s, m, f, res) ← decode_main mem (fun data p f si nch => III_decode W data p f si nch ds) place data s m f si nch md dl res;
       '(data, mdl) ← preload mem data mdl (main_data_begin si) md (frame_space - frame_used) next (next_frame s);
       Some (res, s, set_main_data m data mdl, f)
   end) = Some out /\ layer_done s0 out.
Proof.
  intros Hn Hm Hdl Hd Hf Hh Hp Hleft Hin Hnf Hbegin Hnext Hs Hrep Hnf0.
  set (q := mad_bit_nextbyte (ptr s)) in *. set (n := next_frame s - q). cbv zeta.
  set (nx := if main_data_begin si + n <? next then 0 else next).
  assert (0 <= nx <= 511 /\ nx <= main_data_begin si + n) as Hnx by (unfold nx; case_test; unfold n; lia).
  pose proof (pos_nonneg mem _ Hp) as Hq.
  pose proof (asub_Some mem q n ltac:(lia) ltac:(unfold n; lia) ltac:(unfold n; lia)) as HF. set (F := take _ _) in HF.
  assert (zlen F = n) as Hlen by (unfold F, n; rewrite length_take, length_drop; lia).
  destruct Hm as [Hml Hmd]. pose proof (asub_Some data 0 (md_len m) ltac:(lia) ltac:(lia) ltac:(rewrite Hdl; change MAD_BUFFER_MDLEN with 2567; lia)) as HR.
  set (R := take _ _) in HR.
  assert (frame_ok mem data R F (md_len m) (main_data_begin si) nx q (ptr s)) as Hok.
  { split; [by split|lia|lia|by rewrite Hlen|by rewrite Hlen|]. rewrite Hlen. unfold n. change (2 ^ 30) with 1073741824. change (2 ^ 32) with 4294967296 in Hmax. lia. }
  replace (main_data_begin si + n - nx) with (main_data_begin si + zlen F - nx) by lia.
  destruct (find_main_spec mem data R F (md_len m) (main_data_begin si) nx q (ptr s) Hok) as (place&data1&mdl1&used&E&Hplace). rewrite E. cbn [mbind option_bind].
  pose proof (find_main_bytes _ _ _ _ _ _ _ _ _ Hd E) as Hd1.
  assert (place = TooLong \/ place <> TooLong) as [->|Hlong] by (destruct place; auto).
  { eexists. split; [done|]. destruct Hplace as (_&_&->&->&_). split; [by right|]. split; [|by split; [apply shape_ready|]].
    split; cbn; [done|]. by intros ? [= <-]. }
  pose proof (find_main_preload mem data R F (md_len m) (main_data_begin si) nx q (ptr s) Hok place data1 mdl1 used E Hlong) as Hbp.
  pose proof (find_main_placed _ _ _ _ _ _ _ _ _ _ _ _ Hok Hp Hin E (proj1 Hbp)) as Hplaced.
  set (sr := match place with BadPointer => if res =? 0 then (set_error s MAD_ERROR_BADDATAPTR, -1) else (s, res) | _ => (s, res) end).
  assert (reported s0 sr.2 sr.1 /\ next_frame sr.1 = next_frame s0 /\ (sr.2 = 0 -> res = 0)) as (Hrep1&Hnf1&Hres1).
  { unfold sr. destruct place; [done..| |done]. destruct (Z.eqb_spec res 0) as [->|]; [|done]. split; [by right|done]. }
  destruct (decode_main_total nch place data1 sr.1 (set_main_data m data1 mdl1) f si (main_data_begin si + zlen F - nx) dl sr.2 s0)
    as (s2&m2&f2&res2&Edec&Hf2&Hnf2&Hrep2); try done; [apply Hbp|auto|].
  destruct (preload_spec mem data R F (md_len m) (main_data_begin si) nx q (ptr s) Hok data1 mdl1 used Hbp) as (data2&mdl2&Epre&Hhold&Hml2).
  pose proof (preload_bytes _ _ _ _ _ _ _ _ _ Hd1 Epre) as Hd2.
  exists (res2, s2, set_main_data m2 data2 mdl2, f2). split.
  - assert (forall st, next_frame st = next_frame s0 -> next_frame st = q + zlen F) as Hqn by (intros st ->; rewrite <- Hnf0; unfold n in Hlen; lia).
    rewrite Hlen in Epre at 2. rewrite <- (Hqn s2) in Epre by congruence.
    destruct place; [..|done]; unfold sr in *; clear sr; try destruct (res =? 0); cbn [fst snd] in *;
      rewrite Edec; cbn [mbind option_bind]; rewrite Epre; done.
  - split; [done|]. split; [|split; [by apply shape_ready|congruence]]. pose proof (holds_length _ _ _ Hhold). destruct Hhold as [Hl2 _].
    split; cbn; [lia|]. by intros ? [= <-].
Qed.

Lemma layer_III_body_total s m f data si0 o : stream_ready s (header f) -> si_length (header f) <= next_frame s - mad_bit_nextbyte (ptr s) ->
  main_ok m -> zlen data = MAD_BUFFER_MDLEN -> bytes_ok data -> frame_ready f -> overlap f = Some o -> side_bytes si0 ->
  exists out, layer_III_body W mem (fun data p f si nch => III_decode W data p f si nch ds) s m f data si0 = Some out /\ layer_done s out.
Proof.
  intros [[Hp Hpos] Hnext Hroom Hh Hc] Hlen Hm Hdl Hd Hf Ho Hsi. unfold layer_III_body. set (q := mad_bit_nextbyte (ptr s)) in *.
  set (nch := MAD_NCHANNELS (header f)) in *. assert (1 <= nch <= 2) as Hn by (unfold nch, MAD_NCHANNELS; case_match; lia).
  pose proof (si_length_eq _ Hh) as Hsl. fold nch in Hsl. set (len := si_length (header f)) in *.
  assert (9 <= len <= 32) as Hl by (rewrite Hsl; unfold side_length; repeat case_match; lia).
  pose proof (pos_nonneg mem _ Hp) as Hq0. assert (granules lsf <= 2) by (unfold granules; destruct lsf; lia).
  destruct (check_crc_total nch s f len Hh Hp Hc) as (s1&f1&res1&->&Eptr&Enf&Hh1&Em1&Es1&Eo1&Hres1); [lia|lia|]. cbn [mbind option_bind].
  rewrite (hg_lsf _ _ _ _ Hh1), Eptr.
  destruct (sideinfo_total W mem HW Hmem lsf nch si0 (ptr s) Hn Hsi Hp) as (err&si&dl&pl&p'&->&Hp'&Hpos'&Hsb&Hbegin&Hpl&Hread); [rewrite <- Hsl; lia|].
  rewrite <- Hsl in Hpos'. cbn [mbind option_bind].
  set (sr := if negb (err =? 0) && (res1 =? 0) then (set_error (set_ptr s1 p') err, -1) else (set_ptr s1 p', res1)).
  assert (reported s sr.2 sr.1 /\ next_frame sr.1 = next_frame s /\ ptr sr.1 = p' /\ (sr.2 = 0 -> err = 0)) as (Hrep&Hnf&Hptr&Herr).
  { unfold sr. destruct (Z.eqb_spec err 0) as [->|He]; cbn [negb andb fst snd]; [split; [exact Hres1|]; split; [exact Enf|]; split; [done|]; done|].
    destruct (Z.eqb_spec res1 0) as [->|Hne]; cbn [fst snd].
    - split; [by right|]. split; [exact Enf|]. done.
    - split; [exact Hres1|]. split; [exact Enf|]. done. }
  destruct sr as [s2 res2]. cbn [fst snd] in *. subst p'.
  assert (mad_bit_nextbyte (ptr s2) = q + len) as Hnb by (rewrite (nextbyte_spec mem) by done; rewrite Hpos', Hpos; zdiv).
  destruct (next_begin_total (next_frame s2)) as (next&->&Hnx); [rewrite Hnf; lia|by rewrite Hnf|]. cbn [mbind option_bind].
  set (f2 := set_header f1 _). unfold MAD_BUFFER_GUARD in Hnext.
  apply (main_data_total nch s s2 m f2 data si next dl res2); try done; try lia.
  - destruct (ready_shape f o Hf Ho) as [Hfs Hfo]. unfold f2. split; cbn [set_header sbsample overlap]; [by rewrite Es1|by rewrite Eo1].
  - destruct (private_flag pl Hpl). unfold f2. cbn [set_header header]. by apply flags_good.
  - intros H0. apply sideinfo_good; [done|]. by rewrite (Herr H0) in Hread.
Qed.

Lemma layer_III_total s m f fresh_main fresh_overlap si0 : stream_ready s (header f) -> main_ok m -> frame_ready f -> side_bytes si0 ->
  (forall d, fresh_main = Some d -> zlen d = MAD_BUFFER_MDLEN /\ bytes_ok d) -> (forall o, fresh_overlap = Some o -> overlap_ok o) ->
  exists out, mad_layer_III W mem ds s m f fresh_main fresh_overlap si0 = Some out /\ layer_done s out.
Proof.
  intros Hs Hm Hf Hsi Hfm Hfo. unfold mad_layer_III, layer_III.
  destruct (match main_data m with Some d => Some d | None => fresh_main end) as [data|] eqn:Ed.
  2: { eexists. split; [done|]. split; [by right|]. by split. }
  assert (zlen data = MAD_BUFFER_MDLEN /\ bytes_ok data) as [Hdl Hd].
  { destruct (main_data m) as [d|] eqn:Em; [injection Ed as <-; by apply (mo_data _ Hm)|by apply Hfm]. }
  assert (main_ok (MkMain (Some data) (md_len m) (anc_ptr m) (anc_bitlen m))) as Hm' by (split; [apply Hm|by intros ? [= <-]]).
  cbv zeta. destruct (match overlap f with Some o => Some o | None => fresh_overlap end) as [o|] eqn:Eo.
  2: { eexists. split; [done|]. split; [by right|]. by split. }
  set (f' := MkFrame (header f) (fr_options f) (sbsample f) (Some o)).
  assert (frame_ready f') as Hf'.
  { split; [apply Hf|]. intros o' [= <-]. destruct (overlap f) as [o1|] eqn:E1; [injection Eo as <-; by apply (fy_overlap _ Hf)|by apply Hfo]. }
  change (header f') with (header f).
  destruct (Z.ltb_spec (next_frame s - mad_bit_nextbyte (ptr s)) (si_length (header f))).
  { eexists. split; [done|]. split; [by right|]. split; [|by split]. split; cbn; [lia|]. by intros ? [= <-]. }
  by eapply (layer_III_body_total s _ f' data si0 o).
Qed.
End Layer.

(** A small frame of 104 bytes whose only channel claims 4095 bits of main data: with the frame
    and its guard bytes as the input, [mad_layer_III] reads outside of the input. *)
Definition overread_input : list Z :=
  [255; 251; 16; 192] ++ [0; 0; 63; 252] ++ repeat 0 13 ++ repeat 0 83 ++ repeat 0 8.

Definition overread_stack : decode_stack :=
  DecodeStack [repeat 0 576; repeat 0 576] (repeat 0 36) (repeat 0 39) (repeat 0 16) (repeat 0 39) (repeat 0 576)
    (ImdctStack (repeat 0 18) (repeat 0 18) (repeat 0 9)) (repeat 0 36).

Definition mono_frame : mad_frame :=
  MkFrame (MkHeader 3 0 0 0 32000 44100 0 0 0 0 (MkTimer 0 0)) 0 (repeat (repeat (repeat 0 32) 36) 2) None.

Definition empty_side : sideinfo :=
  let c := MkChannel 0 0 0 0 0 0 [0; 0; 0] [0; 0; 0] 0 0 (repeat 0 39) in MkSideInfo 0 0 [0; 0] [[c; c]; [c; c]].

Definition frame_stream (mem : list Z) (next : Z) : mad_stream := MkStream (zlen mem) 0 1 0 0 next (mad_bit_init 4) 0 0.

Example part3_overread :
  (mad_layer_III 64 overread_input overread_stack (frame_stream overread_input 104) (MkMain None 0 (false, mad_bit_init 0) 0) mono_frame
    (Some (repeat 0 2567)) (Some (repeat (repeat (repeat 0 18) 32) 2)) empty_side = None) /\
  (exists out, mad_layer_III 64 (overread_input ++ repeat 0 2048) overread_stack (frame_stream (overread_input ++ repeat 0 2048) 104)
    (MkMain None 0 (false, mad_bit_init 0) 0) mono_frame
    (Some (repeat 0 2567)) (Some (repeat (repeat (repeat 0 18) 32) 2)) empty_side = Some out).
Proof. split; [vm_compute; reflexivity|]. eexists. vm_compute. reflexivity. Qed.

(** ** Claims *)

(** C9: Layer III frames of any bytes.  Let the stream stand behind the header of a Layer III frame of
    any sampling frequency and mode, with the guard bytes behind the frame and the longest
    main data behind its side information in the input, and let the reservoir and the frame be
    as earlier calls leave them.  Then [mad_layer_III] ends, accesses no array out of its
    bounds, whatever the frame, the reservoir and its own stack hold, returns 0 or fails
    with an error set, and leaves the reservoir and the frame ready for the next call. *)
Theorem mad_layer_III_safe W mem r ds lsf s m f fresh_main fresh_overlap si0 :
  32 <= W -> bytes_ok mem -> 8 * zlen mem < 2 ^ 32 -> stack_shape ds -> side_bytes si0 ->
  stream_ready mem r lsf s (header f) -> main_ok m -> frame_ready f ->
  (forall d, fresh_main = Some d -> zlen d = MAD_BUFFER_MDLEN /\ bytes_ok d) -> (forall o, fresh_overlap = Some o -> overlap_ok o) ->
  exists res s' m' f', mad_layer_III W mem ds s m f fresh_main fresh_overlap si0 = Some (res, s', m', f') /\
    (res = 0 /\ error s' = error s \/ res = -1 /\ error s' <> 0) /\ main_ok m' /\ frame_ready f' /\ next_frame s' = next_frame s.
Proof.
  intros HW Hmem Hmax Hds Hsi Hs Hm Hf Hfm Hfo.
  destruct (layer_III_total W mem r ds lsf HW Hmem Hmax Hds s m f fresh_main fresh_overlap si0) as ([[[res s'] m'] f']&E&H); try done.
  exists res, s', m', f'. by split.
Qed.

Lemma mad_layer_III_safe_witness :
  let mem := overread_input ++ repeat 0 2048 in
  exists res s' m' f',
    mad_layer_III 64 mem overread_stack (frame_stream mem 104) (MkMain None 0 (false, mad_bit_init 0) 0) mono_frame
      (Some (repeat 165 2567)) (Some (repeat (repeat (repeat 0 18) 32) 2)) empty_side = Some (res, s', m', f') /\
    (res = 0 /\ error s' = error (frame_stream mem 104) \/ res = -1 /\ error s' <> 0) /\ main_ok m' /\ frame_ready f' /\
    next_frame s' = next_frame (frame_stream mem 104).
Proof.
  intros mem. apply (mad_layer_III_safe 64 mem (MkBandwidths sfb_44100_long sfb_44100_short sfb_44100_mixed) _ false).
  - apply Z.leb_le. reflexivity.
  - apply (bool_decide_unpack _). vm_compute. exact I.
  - apply Z.ltb_lt. reflexivity.
  - split; [split; [reflexivity|apply (bool_decide_unpack _); vm_compute; exact I]|reflexivity|split; reflexivity|reflexivity|
      split; reflexivity|split; [|split]; reflexivity].
  - split; [reflexivity|]. split; [reflexivity|]. repeat constructor; apply Z.leb_le || apply Z.ltb_lt; reflexivity.
  - split.
    + split; [by apply bit_init_ok|reflexivity].
    + apply Z.leb_le. reflexivity.
    + apply Z.leb_le. reflexivity.
    + split; [reflexivity|reflexivity|intros H; discriminate H|split; [apply Z.leb_le|apply Z.ltb_lt]; reflexivity].
    + intros _. split; [apply Z.leb_le|apply Z.ltb_lt]; reflexivity.
  - split; [split; apply Z.leb_le; reflexivity|]. intros d H. discriminate H.
  - split; [split; [reflexivity|]|intros o H; discriminate H]. repeat constructor.
  - intros d [= <-]. split; [reflexivity|]. apply (bool_decide_unpack _). vm_compute. exact I.
  - intros o [= <-]. split; [reflexivity|]. repeat constructor.
Defined.
