(* ===== verification/MadLayer12.v ===== *)
(** Layers I and II of MPEG audio: [src/libmad/layer12.c] with the tables [sf_table.dat]
    and [qc_table.dat].

    A frame is a bit allocation for every subband, scale factors for the subbands that
    have one, and samples.  From [bound] on the channels of an intensity stereo frame
    share their samples.  The arrays on the stack are uninitialised and so are arguments. *)
From S2P Require Import Prelude BitString MadBit MadTimer MadFrame.
From S2P Require Import MadRequantize MadStereo MadLayer3.

Definition MAD_ERROR_BADBITALLOC : Z := 0x0211.
Definition MAD_ERROR_BADMODE : Z := 0x0222.
Definition MAD_F_FRACBITS : Z := 28.
Definition MAD_F_ONE : Z := 0x10000000.

(** [a[i][j][k]] of an array of arrays of rows. *)
Definition get3 (a : list (list (list Z))) (i j k : Z) : option Z := rows ← aget a i; get2 rows j k.

Definition set3 (a : list (list (list Z))) (i j k x : Z) : option (list (list (list Z))) :=
  rows ← aget a i; rows ← set2 rows j k x; aset a i rows.

(** The loops over the subbands of a frame: up to [bound] for each channel, from there on for
    the channels together. *)
Definition each_subband {St} (bound limit nch : Z) (one : Z -> Z -> St -> option St) (both : Z -> St -> option St) (st : St) : option St :=
  st ← for_range 0 bound (fun sb => for_range 0 nch (fun ch => one ch sb)) st;
  for_range bound limit both st.

Definition sf_table : list Z := [
  0x20000000; 0x1965fea5; 0x1428a2fa; 0x10000000; 0x0cb2ff53; 0x0a14517d; 0x08000000; 0x06597fa9;
  0x050a28be; 0x04000000; 0x032cbfd5; 0x0285145f; 0x02000000; 0x01965fea; 0x01428a30; 0x01000000;
  0x00cb2ff5; 0x00a14518; 0x00800000; 0x006597fb; 0x0050a28c; 0x00400000; 0x0032cbfd; 0x00285146;
  0x00200000; 0x001965ff; 0x001428a3; 0x00100000; 0x000cb2ff; 0x000a1451; 0x00080000; 0x00065980;
  0x00050a29; 0x00040000; 0x00032cc0; 0x00028514; 0x00020000; 0x00019660; 0x0001428a; 0x00010000;
  0x0000cb30; 0x0000a145; 0x00008000; 0x00006598; 0x000050a3; 0x00004000; 0x000032cc; 0x00002851;
  0x00002000; 0x00001966; 0x00001429; 0x00001000; 0x00000cb3; 0x00000a14; 0x00000800; 0x00000659;
  0x0000050a; 0x00000400; 0x0000032d; 0x00000285; 0x00000200; 0x00000196; 0x00000143; 0x00000000].

Section Layer12.
Variable long_bits : Z.
Variable mem : list Z.

Abbreviation read := (mad_bit_read long_bits mem).

(** Where joint stereo starts. *)
Definition joint_bound (f : mad_frame) : mad_frame * Z :=
  let h := header f in
  if mode h =? MAD_MODE_JOINT_STEREO
  then (set_header f (set_flags h (flags h .| MAD_FLAG_I_STEREO) (private_bits h)), u32 (4 + u32 (mode_extension h * 4)))
  else (f, 32).

(** [false] when the CRC of the [len] bits from [start] is bad. *)
Definition bits_crc (start : mad_bitptr) (len : Z) (f : mad_frame) : option (bool * mad_frame) :=
  let h := header f in
  if bitset (flags h) MAD_FLAG_PROTECTION then
    c ← mad_bit_crc long_bits mem start len (crc_check h);
    Some ((c =? crc_target h) || bitset (fr_options f) MAD_OPTION_IGNORECRC, set_header f (set_crc h c (crc_target h)))
  else Some (true, f).

(** The bits of a sample to a fixed-point number: invert the most significant bit,
    extend the sign, scale. *)
Definition fixed_sample (v nb : Z) : Z :=
  let sample := s32 (u32 (v .^ (1 .<< (nb - 1)))) in
  let sample := sample .| s32 (- (sample .& (1 .<< (nb - 1)))) in
  s32 (sample .<< (MAD_F_FRACBITS - (nb - 1))).

(** ** Layer I *)

Definition linear_table : list Z := [
  0x15555555; 0x12492492; 0x11111111; 0x10842108; 0x10410410; 0x10204081; 0x10101010;
  0x10080402; 0x10040100; 0x10020040; 0x10010010; 0x10008004; 0x10004001; 0x10002000].

Definition I_sample (p : mad_bitptr) (nb : Z) : option (Z * mad_bitptr) :=
  '(v, p) ← read p nb;
  let sample := s32 (fixed_sample v nb + (MAD_F_ONE .>> (nb - 1))) in
  t ← aget linear_table (nb - 2);
  Some (mad_f_mul long_bits sample t, p).

(** A bit allocation; state the error, the pointer and [allocation].  Once there is an error
    the function has returned. *)
Definition I_allocation (store : list (list Z) -> Z -> option (list (list Z))) (st : Z * mad_bitptr * list (list Z))
    : option (Z * mad_bitptr * list (list Z)) :=
  let '(err, p, a) := st in
  if negb (err =? 0) then Some st else
  '(nb, p) ← read p 4;
  if nb =? 15 then Some (MAD_ERROR_BADBITALLOC, p, a)
  else a ← store a (if negb (nb =? 0) then nb + 1 else 0); Some (0, p, a).

(** [allocation[0][sb] = allocation[1][sb] = v] *)
Definition store_both (sb : Z) (a : list (list Z)) (v : Z) : option (list (list Z)) :=
  a ← set2 a 1 sb v; set2 a 0 sb v.

Definition I_scalefactor (a : list (list Z)) (ch sb : Z) (st : mad_bitptr * list (list Z)) : option (mad_bitptr * list (list Z)) :=
  let '(p, sf) := st in
  n ← get2 a ch sb;
  if negb (n =? 0) then '(v, p) ← read p 6; sf ← set2 sf ch sb (u8 v); Some (p, sf) else Some st.

(** Stores the sample times the scale factor. *)
Definition I_store (sf : list (list Z)) (s sb sample ch : Z) (rows : list (list (list Z))) : option (list (list (list Z))) :=
  k ← get2 sf ch sb;
  factor ← aget sf_table k;
  set3 rows ch s sb (mad_f_mul long_bits sample factor).

Definition I_one (a sf : list (list Z)) (s ch sb : Z) (st : mad_bitptr * list (list (list Z))) : option (mad_bitptr * list (list (list Z))) :=
  let '(p, rows) := st in
  nb ← get2 a ch sb;
  if negb (nb =? 0) then
    '(sample, p) ← I_sample p nb;
    rows ← I_store sf s sb sample ch rows;
    Some (p, rows)
  else rows ← set3 rows ch s sb 0; Some (p, rows).

Definition I_both (a sf : list (list Z)) (nch s sb : Z) (st : mad_bitptr * list (list (list Z))) : option (mad_bitptr * list (list (list Z))) :=
  let '(p, rows) := st in
  nb ← get2 a 0 sb;
  if negb (nb =? 0) then
    '(sample, p) ← I_sample p nb;
    rows ← for_range 0 nch (I_store sf s sb sample) rows;
    Some (p, rows)
  else rows ← for_range 0 nch (fun ch rows => set3 rows ch s sb 0) rows; Some (p, rows).

Definition mad_layer_I (allocation scalefactor : list (list Z)) (s : mad_stream) (f : mad_frame) : option (Z * mad_stream * mad_frame) :=
  let nch := MAD_NCHANNELS (header f) in
  let '(f, bound) := joint_bound f in
  '(ok, f) ← bits_crc (ptr s) (u32 (4 * u32 (bound * nch + (32 - bound)))) f;
  if negb ok then Some (-1, set_error s MAD_ERROR_BADCRC, f) else
  '(err, p, a) ← each_subband bound 32 nch (fun ch sb => I_allocation (fun a v => set2 a ch sb v)) (fun sb => I_allocation (store_both sb))
                   (0, ptr s, allocation);
  if negb (err =? 0) then Some (-1, set_error (set_ptr s p) err, f) else
  '(p, sf) ← for_range 0 32 (fun sb => for_range 0 nch (fun ch => I_scalefactor a ch sb)) (p, scalefactor);
  '(p, rows) ← for_range 0 12 (fun t => each_subband bound 32 nch (I_one a sf t) (I_both a sf nch t)) (p, sbsample f);
  Some (0, set_ptr s p, MkFrame (header f) (fr_options f) rows (overlap f)).

(** ** Layer II *)

(** The limit of the subbands and, for each subband, its entry of [bitalloc_table]. *)
Definition sbquant_table : list (Z * list Z) := [
  (27, [7; 7; 7; 6; 6; 6; 6; 6; 6; 6; 6; 3; 3; 3; 3; 3; 3; 3; 3; 3; 3; 3; 3; 0; 0; 0; 0; 0; 0; 0]);
  (30, [7; 7; 7; 6; 6; 6; 6; 6; 6; 6; 6; 3; 3; 3; 3; 3; 3; 3; 3; 3; 3; 3; 3; 0; 0; 0; 0; 0; 0; 0]);
  (8, [5; 5; 2; 2; 2; 2; 2; 2] ++ repeat 0 22);
  (12, [5; 5; 2; 2; 2; 2; 2; 2; 2; 2; 2; 2] ++ repeat 0 18);
  (30, [4; 4; 4; 4; 2; 2; 2; 2; 2; 2; 2; 1; 1; 1; 1; 1; 1; 1; 1; 1; 1; 1; 1; 1; 1; 1; 1; 1; 1; 1])].

(** [nbal] and [offset]. *)
Definition bitalloc_table : list (Z * Z) := [(2, 0); (2, 3); (3, 3); (3, 1); (4, 2); (4, 3); (4, 4); (4, 5)].

Definition offset_table : list (list Z) := [
  [0; 1; 16] ++ repeat 0 12;
  [0; 1; 2; 3; 4; 5; 16] ++ repeat 0 8;
  [0; 1; 2; 3; 4; 5; 6; 7; 8; 9; 10; 11; 12; 13; 14];
  [0; 1; 3; 4; 5; 6; 7; 8; 9; 10; 11; 12; 13; 14; 15];
  [0; 1; 2; 3; 4; 5; 6; 7; 8; 9; 10; 11; 12; 13; 16];
  [0; 2; 4; 5; 6; 7; 8; 9; 10; 11; 12; 13; 14; 15; 16]].

Record quantclass := MkQuantclass { qc_nlevels : Z; qc_group : Z; qc_bits : Z; qc_C : Z; qc_D : Z }.

Definition qc_table : list quantclass := [
  MkQuantclass 3 2 5 0x15555555 0x08000000;
  MkQuantclass 5 3 7 0x1999999a 0x08000000;
  MkQuantclass 7 0 3 0x12492492 0x04000000;
  MkQuantclass 9 4 10 0x1c71c71c 0x08000000;
  MkQuantclass 15 0 4 0x11111111 0x02000000;
  MkQuantclass 31 0 5 0x10842108 0x01000000;
  MkQuantclass 63 0 6 0x10410410 0x00800000;
  MkQuantclass 127 0 7 0x10204081 0x00400000;
  MkQuantclass 255 0 8 0x10101010 0x00200000;
  MkQuantclass 511 0 9 0x10080402 0x00100000;
  MkQuantclass 1023 0 10 0x10040100 0x00080000;
  MkQuantclass 2047 0 11 0x10020040 0x00040000;
  MkQuantclass 4095 0 12 0x10010010 0x00020000;
  MkQuantclass 8191 0 13 0x10008004 0x00010000;
  MkQuantclass 16383 0 14 0x10004001 0x00008000;
  MkQuantclass 32767 0 15 0x10002000 0x00004000;
  MkQuantclass 65535 0 16 0x10001000 0x00002000].
(** The three codes of a granule and their width: one number in base [nlevels], or three
    fields. *)
Definition II_codes (p : mad_bitptr) (qc : quantclass) : option (list Z * Z * mad_bitptr) :=
  if negb (qc_group qc =? 0) then
    '(v, p) ← read p (qc_bits qc);
    let c := u32 v in
    let n := qc_nlevels qc in
    Some ([c mod n; c / n mod n; c / n / n mod n], qc_group qc, p)
  else
    '(a, p) ← read p (qc_bits qc);
    '(b, p) ← read p (qc_bits qc);
    '(c, p) ← read p (qc_bits qc);
    Some ([u32 a; u32 b; u32 c], qc_bits qc, p).

Definition II_requantize (qc : quantclass) (nb v : Z) : Z :=
  mad_f_mul long_bits (s32 (fixed_sample v nb + qc_D qc)) (qc_C qc).

Definition II_samples (p : mad_bitptr) (qc : quantclass) : option (list Z * mad_bitptr) :=
  '(codes, nb, p) ← II_codes p qc;
  Some (map (II_requantize qc nb) codes, p).

(** The index into [sbquant_table]; [None] is [MAD_ERROR_BADMODE]. *)
Definition II_index (h : mad_header) : option Z :=
  let nch := MAD_NCHANNELS h in
  let free := if samplerate h =? 48000 then 0 else 1 in
  if bitset (flags h) MAD_FLAG_LSF_EXT then Some 4
  else if bitset (flags h) MAD_FLAG_FREEFORMAT then Some free
  else
    let rate := if nch =? 2 then bitrate h / 2 else bitrate h in
    if negb (nch =? 2) && (192000 <? rate) then None
    else if rate <=? 48000 then Some (if samplerate h =? 32000 then 3 else 2)
    else if rate <=? 80000 then Some 0
    else Some free.

Section Subbands.
(** The row of [sbquant_table], and the number of channels. *)
Variable offsets : list Z.
Variable nch : Z.

Definition II_allocation (store : list (list Z) -> Z -> option (list (list Z))) (sb : Z) (st : mad_bitptr * list (list Z))
    : option (mad_bitptr * list (list Z)) :=
  let '(p, a) := st in
  o ← aget offsets sb;
  '(nbal, _) ← aget bitalloc_table o;
  '(v, p) ← read p nbal;
  a ← store a (u8 v);
  Some (p, a).

Definition II_scfsi (a : list (list Z)) (ch sb : Z) (st : mad_bitptr * list (list Z)) : option (mad_bitptr * list (list Z)) :=
  let '(p, scfsi) := st in
  n ← get2 a ch sb;
  if negb (n =? 0) then '(v, p) ← read p 2; scfsi ← set2 scfsi ch sb (u8 v); Some (p, scfsi) else Some st.

(** The scale factors of a subband, for each third of the frame. *)
Definition II_scalefactor (a scfsi : list (list Z)) (ch sb : Z) (st : mad_bitptr * list (list (list Z)))
    : option (mad_bitptr * list (list (list Z))) :=
  let '(p, sf) := st in
  n ← get2 a ch sb;
  if negb (n =? 0) then
    '(v, p) ← read p 6;
    sf ← set3 sf ch sb 0 (u8 v);
    k ← get2 scfsi ch sb;
    '(p, sf) ←
      (if k =? 2 then
         x ← get3 sf ch sb 0;
         sf ← set3 sf ch sb 1 x;
         sf ← set3 sf ch sb 2 x;
         Some (p, sf)
       else
         '(p, sf) ← (if k =? 0 then '(v, p) ← read p 6; sf ← set3 sf ch sb 1 (u8 v); Some (p, sf) else Some (p, sf));
         if k <=? 3 then '(v, p) ← read p 6; sf ← set3 sf ch sb 2 (u8 v); Some (p, sf) else Some (p, sf));
    if bitset k 1 then
      x ← get3 sf ch sb (k - 1); sf ← set3 sf ch sb 1 x; Some (p, sf)
    else Some (p, sf)
  else Some st.

(** [&qc_table[offset_table[bitalloc_table[offsets[sb]].offset][index - 1]]] *)
Definition II_class (sb index : Z) : option quantclass :=
  o ← aget offsets sb;
  '(_, offset) ← aget bitalloc_table o;
  row ← aget offset_table offset;
  i ← aget row (index - 1);
  aget qc_table i.

(** The three samples of a channel. *)
Definition II_store (sf : list (list (list Z))) (g sb : Z) (samples : list Z) (ch : Z) (rows : list (list (list Z))) : option (list (list (list Z))) :=
  for_range 0 3 (fun s rows =>
    x ← aget samples s;
    k ← get3 sf ch sb (g / 4);
    factor ← aget sf_table k;
    set3 rows ch (3 * g + s) sb (mad_f_mul long_bits x factor)) rows.

Definition II_zero (g sb ch : Z) (rows : list (list (list Z))) : option (list (list (list Z))) :=
  for_range 0 3 (fun s rows => set3 rows ch (3 * g + s) sb 0) rows.

Definition II_one (a : list (list Z)) (sf : list (list (list Z))) (g ch sb : Z) (st : mad_bitptr * list (list (list Z)))
    : option (mad_bitptr * list (list (list Z))) :=
  let '(p, rows) := st in
  index ← get2 a ch sb;
  if negb (index =? 0) then
    qc ← II_class sb index;
    '(samples, p) ← II_samples p qc;
    rows ← II_store sf g sb samples ch rows;
    Some (p, rows)
  else rows ← II_zero g sb ch rows; Some (p, rows).

Definition II_both (a : list (list Z)) (sf : list (list (list Z))) (g sb : Z) (st : mad_bitptr * list (list (list Z)))
    : option (mad_bitptr * list (list (list Z))) :=
  let '(p, rows) := st in
  index ← get2 a 0 sb;
  if negb (index =? 0) then
    qc ← II_class sb index;
    '(samples, p) ← II_samples p qc;
    rows ← for_range 0 nch (II_store sf g sb samples) rows;
    Some (p, rows)
  else rows ← for_range 0 nch (II_zero g sb) rows; Some (p, rows).

(** A granule: the coded subbands and the zeros above them. *)
Definition II_granule (bound sblimit : Z) (a : list (list Z)) (sf : list (list (list Z))) (g : Z) (st : mad_bitptr * list (list (list Z)))
    : option (mad_bitptr * list (list (list Z))) :=
  '(p, rows) ← each_subband bound sblimit nch (II_one a sf g) (II_both a sf g) st;
  rows ← for_range 0 nch (fun ch => for_range 0 3 (fun s => for_range sblimit 32 (fun sb rows => set3 rows ch (3 * g + s) sb 0))) rows;
  Some (p, rows).
End Subbands.

Definition mad_layer_II (allocation scfsi : list (list Z)) (scalefactor : list (list (list Z))) (s : mad_stream) (f : mad_frame)
    : option (Z * mad_stream * mad_frame) :=
  let nch := MAD_NCHANNELS (header f) in
  match II_index (header f) with
  | None => Some (-1, set_error s MAD_ERROR_BADMODE, f)
  | Some index =>
    '(sblimit, offsets) ← aget sbquant_table index;
    let '(f, bound) := joint_bound f in
    let bound := if sblimit <? bound then sblimit else bound in
    let start := ptr s in
    '(p, a) ← each_subband bound sblimit nch (fun ch sb => II_allocation offsets (fun a v => set2 a ch sb v) sb)
                (fun sb => II_allocation offsets (store_both sb) sb) (start, allocation);
    '(p, scfsi) ← for_range 0 sblimit (fun sb => for_range 0 nch (fun ch => II_scfsi a ch sb)) (p, scfsi);
    '(ok, f) ← bits_crc start (mad_bit_length start p) f;
    if negb ok then Some (-1, set_error (set_ptr s p) MAD_ERROR_BADCRC, f) else
    '(p, sf) ← for_range 0 sblimit (fun sb => for_range 0 nch (fun ch => II_scalefactor a scfsi ch sb)) (p, scalefactor);
    '(p, rows) ← for_range 0 12 (II_granule offsets nch bound sblimit a sf) (p, sbsample f);
    Some (0, set_ptr s p, MkFrame (header f) (fr_options f) rows (overlap f))
  end.
End Layer12.
