(* ===== verification/MadSubbands.v ===== *)
(** What layers I and II share in the proofs: arrays of arrays, the order in which a frame
    stores its subbands, and the requantization of samples. *)
From S2P Require Import Prelude BitString MadBit MadFrame MadRequantize MadImdct MadStereo MadLayer3 MadHybrid MadLayer12.

(** ** Sums of widths *)

(** The sum of [f i] for [i] below [n]: where field [n] starts when field [i] has
    [f i] bits. *)
Definition psum (f : Z -> Z) (n : Z) : Z := sum (map f (seqZ 0 n)).

Lemma psum_0 f : psum f 0 = 0.
Proof. done. Qed.

Lemma psum_S f n : 0 <= n -> psum f (n + 1) = psum f n + f n.
Proof.
  intros Hn. unfold psum. rewrite seqZ_app, map_app, sum_app by lia.
  rewrite (seqZ_cons (0 + n) 1), (seqZ_nil _ (Z.pred 1)) by lia. cbn [map sum foldr]. rewrite Z.add_0_l. lia.
Qed.

Lemma psum_ind (P : Z -> Prop) : P 0 -> (forall n, 0 <= n -> P n -> P (n + 1)) -> forall n, 0 <= n -> P n.
Proof. intros H0 HS. apply natlike_ind; [done|]. intros n Hn IH. rewrite <- Z.add_1_r. auto. Qed.

Lemma psum_mono f m n : 0 <= m <= n -> (forall i, 0 <= i < n -> 0 <= f i) -> psum f m <= psum f n.
Proof.
  intros [Hm Hmn] Hf. replace n with (m + (n - m)) in * by lia. assert (0 <= n - m) as Hk by lia. revert Hf.
  generalize (n - m) Hk. clear - Hm. apply (psum_ind (fun k => (forall i, 0 <= i < m + k -> 0 <= f i) -> psum f m <= psum f (m + k))).
  - intros _. by rewrite Z.add_0_r.
  - intros k Hk IH Hf. rewrite Z.add_assoc, psum_S by lia. specialize (IH ltac:(intros; apply Hf; lia)).
    specialize (Hf (m + k) ltac:(lia)). lia.
Qed.

Lemma psum_bound f c n : 0 <= n -> (forall i, 0 <= i < n -> 0 <= f i <= c) -> 0 <= psum f n <= c * n.
Proof.
  intros Hn. revert n Hn. apply (psum_ind (fun n => (forall i, 0 <= i < n -> 0 <= f i <= c) -> 0 <= psum f n <= c * n)).
  - intros _. rewrite psum_0. lia.
  - intros n Hn IH Hf. rewrite psum_S by lia. specialize (IH ltac:(intros; apply Hf; lia)). specialize (Hf n ltac:(lia)). lia.
Qed.

(** A field lies inside of the fields. *)
Lemma psum_field f j n : 0 <= j < n -> (forall i, 0 <= i < n -> 0 <= f i) -> 0 <= psum f j /\ psum f j + f j <= psum f n.
Proof.
  intros Hj Hf. rewrite <- psum_S by lia. split; [|apply psum_mono; [lia|done]].
  rewrite <- (psum_0 f). apply psum_mono; [lia|]. intros. apply Hf. lia.
Qed.

Lemma psum_const c n : 0 <= n -> psum (fun _ => c) n = c * n.
Proof. revert n. apply psum_ind; [rewrite psum_0; lia|]. intros n Hn IH. rewrite psum_S by done. lia. Qed.

(** ** Arrays of arrays *)

Definition cube (n m k : nat) (a : list (list (list Z))) : Prop := length a = n /\ Forall (grid m k) a.

Lemma cube_get n m k a i j l : cube n m k a -> 0 <= i < Z.of_nat n -> 0 <= j < Z.of_nat m -> 0 <= l < Z.of_nat k ->
  exists v, get3 a i j l = Some v.
Proof.
  intros [Hn Hm] Hi Hj Hl. unfold get3. destruct (aget_Some a i) as [rows E]; [lia|]. rewrite E. cbn [mbind option_bind].
  apply (grid_get m k); try done. by apply (aget_Forall _ _ _ _ Hm E).
Qed.

Lemma cube_set n m k a i j l x : cube n m k a -> 0 <= i < Z.of_nat n -> 0 <= j < Z.of_nat m -> 0 <= l < Z.of_nat k ->
  exists a', set3 a i j l x = Some a' /\ cube n m k a' /\
  forall i' j' l', 0 <= i' -> 0 <= j' -> 0 <= l' ->
    get3 a' i' j' l' = if (i' =? i) && (j' =? j) && (l' =? l) then Some x else get3 a i' j' l'.
Proof.
  intros [Hn Hm] Hi Hj Hl. unfold set3. destruct (aget_Some a i) as [rows E]; [lia|]. rewrite E. cbn [mbind option_bind].
  destruct (grid_set m k rows j l x (aget_Forall _ _ _ _ Hm E) Hj Hl) as (rows'&->&Hg&Hc). cbn [mbind option_bind].
  rewrite (aset_Some a) by lia. eexists. split; [done|]. split.
  - split; [by rewrite length_insert|]. by apply Forall_insert.
  - intros i' j' l' Hi' Hj' Hl'. unfold get3. destruct (Z.eqb_spec i' i) as [->|Hne]; cbn [andb].
    + rewrite aget_insert_eq by lia. rewrite E. cbn [mbind option_bind]. by apply Hc.
    + by rewrite aget_insert_ne by lia.
Qed.

(** ** The order of the subbands *)

(** The number of subband [sb] of channel [ch] among the fields of a frame. *)
Definition slot (bound nch ch sb : Z) : Z := if sb <? bound then sb * nch + ch else bound * nch + (sb - bound).

Definition slots (bound limit nch : Z) : Z := bound * nch + (limit - bound).

(** The subband of a field. *)
Definition slot_sb (bound nch j : Z) : Z := if j <? bound * nch then j / nch else bound + (j - bound * nch).

Lemma nested_inv {St} (P : Z -> St -> Prop) n nch (body : Z -> Z -> St -> option St) st : 0 <= n -> 0 <= nch -> P 0 st ->
  (forall sb ch st, 0 <= sb < n -> 0 <= ch < nch -> P (sb * nch + ch) st -> exists st', body ch sb st = Some st' /\ P (sb * nch + ch + 1) st') ->
  exists st', for_range 0 n (fun sb => for_range 0 nch (fun ch => body ch sb)) st = Some st' /\ P (n * nch) st'.
Proof.
  intros Hn Hnch H0 Hbody. apply (for_range_inv (fun sb st => P (sb * nch) st)); [lia|done|]. intros sb st1 Hsb H1.
  destruct (for_range_inv (fun ch st => P (sb * nch + ch) st) 0 nch (fun ch => body ch sb) st1) as (st2&E&H2); [lia| | |].
  - by rewrite Z.add_0_r.
  - intros ch st2 Hch H2. rewrite Z.add_assoc. by apply Hbody.
  - exists st2. split; [done|]. by replace ((sb + 1) * nch) with (sb * nch + nch) by ring.
Qed.

Lemma each_subband_inv {St} (P : Z -> St -> Prop) bound limit nch (one : Z -> Z -> St -> option St) both st :
  0 <= bound <= limit -> 0 <= nch -> P 0 st ->
  (forall sb ch st, 0 <= sb < bound -> 0 <= ch < nch -> P (sb * nch + ch) st -> exists st', one ch sb st = Some st' /\ P (sb * nch + ch + 1) st') ->
  (forall sb st, bound <= sb < limit -> P (bound * nch + (sb - bound)) st -> exists st', both sb st = Some st' /\ P (bound * nch + (sb - bound) + 1) st') ->
  exists st', each_subband bound limit nch one both st = Some st' /\ P (slots bound limit nch) st'.
Proof.
  intros Hb Hnch H0 Hone Hboth. unfold each_subband.
  destruct (nested_inv P bound nch one st) as (st1&->&H1); [lia|done|done|done|]. cbn [mbind option_bind].
  apply (for_range_inv (fun sb st => P (bound * nch + (sb - bound)) st)); [lia|by rewrite Z.sub_diag, Z.add_0_r|].
  intros sb st2 Hsb H2. replace (bound * nch + (sb + 1 - bound)) with (bound * nch + (sb - bound) + 1) by ring. by apply Hboth.
Qed.

Section Slots.
Variables bound limit nch : Z.
Hypotheses (Hbound : 0 <= bound <= limit) (Hnch : nch = 1 \/ nch = 2).

Lemma slot_low ch sb : sb < bound -> slot bound nch ch sb = sb * nch + ch.
Proof using. intros. unfold slot. by rewrite (proj2 (Z.ltb_lt _ _)). Qed.

Lemma slot_high ch sb : bound <= sb -> slot bound nch ch sb = bound * nch + (sb - bound).
Proof using. intros. unfold slot. by rewrite (proj2 (Z.ltb_ge _ _)). Qed.

Lemma slot_range ch sb : 0 <= ch < nch -> 0 <= sb < limit -> 0 <= slot bound nch ch sb < slots bound limit nch.
Proof. intros. unfold slot, slots. destruct (Z.ltb_spec sb bound), Hnch; subst nch; lia. Qed.

Lemma slot_low_eq ch sb ch' sb' : 0 <= ch < nch -> 0 <= sb < bound -> 0 <= ch' < nch -> 0 <= sb' ->
  slot bound nch ch' sb' = sb * nch + ch -> ch' = ch /\ sb' = sb.
Proof. intros. unfold slot in *. destruct (Z.ltb_spec sb' bound), Hnch; subst nch; lia. Qed.

Lemma slot_high_eq ch sb sb' : bound <= sb -> 0 <= ch < nch -> 0 <= sb' ->
  slot bound nch ch sb' = bound * nch + (sb - bound) -> sb' = sb.
Proof. intros. unfold slot in *. destruct (Z.ltb_spec sb' bound), Hnch; subst nch; lia. Qed.

Lemma slot_sb_slot ch sb : 0 <= ch < nch -> 0 <= sb < limit -> slot_sb bound nch (slot bound nch ch sb) = sb.
Proof.
  intros Hch Hsb. unfold slot_sb, slot. destruct (Z.ltb_spec sb bound).
  - rewrite (proj2 (Z.ltb_lt _ _)) by (destruct Hnch; subst nch; lia). destruct Hnch; subst nch; zdiv.
  - rewrite (proj2 (Z.ltb_ge _ _)) by lia. lia.
Qed.

(** [P] holds of the subbands before field [j]. *)
Definition before (j : Z) (P : Z -> Z -> Prop) : Prop :=
  forall ch sb, 0 <= ch < nch -> 0 <= sb < limit -> slot bound nch ch sb < j -> P ch sb.

Lemma before_0 P : before 0 P.
Proof. intros ch sb Hch Hsb H. pose proof (slot_range ch sb Hch Hsb). lia. Qed.

Lemma before_all P ch sb : before (slots bound limit nch) P -> 0 <= ch < nch -> 0 <= sb < limit -> P ch sb.
Proof. intros H Hch Hsb. apply H; [done|done|]. by apply slot_range. Qed.

(** A subband of one channel. *)
Lemma before_one (P P' : Z -> Z -> Prop) ch sb : 0 <= ch < nch -> 0 <= sb < bound -> before (sb * nch + ch) P -> P' ch sb ->
  (forall ch' sb', 0 <= ch' < nch -> 0 <= sb' < limit -> ~ (ch' = ch /\ sb' = sb) -> P ch' sb' -> P' ch' sb') ->
  before (sb * nch + ch + 1) P'.
Proof.
  intros Hch Hsb HP Hnew Hold ch' sb' Hch' Hsb' Hlt. destruct (Z.eq_dec (slot bound nch ch' sb') (sb * nch + ch)) as [E|Hne].
  - by destruct (slot_low_eq ch sb ch' sb' Hch Hsb Hch' ltac:(lia) E) as [-> ->].
  - apply Hold; [done|done| |apply HP; [done|done|lia]]. intros [-> ->]. rewrite slot_low in Hne by lia. lia.
Qed.

(** A subband the channels share. *)
Lemma before_both (P P' : Z -> Z -> Prop) sb : bound <= sb < limit -> before (bound * nch + (sb - bound)) P ->
  (forall ch, 0 <= ch < nch -> P' ch sb) ->
  (forall ch' sb', 0 <= ch' < nch -> 0 <= sb' < limit -> sb' <> sb -> P ch' sb' -> P' ch' sb') ->
  before (bound * nch + (sb - bound) + 1) P'.
Proof.
  intros Hsb HP Hnew Hold ch' sb' Hch' Hsb' Hlt. destruct (Z.eq_dec sb' sb) as [->|Hne]; [by apply Hnew|].
  apply Hold; [done|done|done|]. apply HP; [done|done|].
  assert (slot bound nch ch' sb' <> bound * nch + (sb - bound)); [|lia].
  intros E. apply Hne. by apply (slot_high_eq ch' sb sb'); try lia.
Qed.
End Slots.

(** ** Samples *)

(** Value [c] of [n] steps, [nb] bits wide, as fixed-point numbers that fill -1 to 1. *)
Definition level_input (nb n c : Z) : Z := (2 * c - n + 1) * 2 ^ (28 - nb).

Lemma land_top v k : 0 <= k -> 0 <= v < 2 ^ k -> v .& 2 ^ k = 0.
Proof.
  intros Hk Hv. apply Z.bits_inj'. intros i Hi. rewrite Z.land_spec, Z.bits_0, Z.pow2_bits_eqb by done.
  destruct (Z.eqb_spec k i) as [<-|]; [|apply andb_false_r]. rewrite <- (Z.mod_small v (2 ^ k)), Z.mod_pow2_bits_high by lia. done.
Qed.

Lemma lxor_top v k : 0 <= k -> 0 <= v < 2 ^ k -> v .^ 2 ^ k = v + 2 ^ k /\ (v + 2 ^ k) .^ 2 ^ k = v.
Proof.
  intros Hk Hv. rewrite (Z.add_nocarry_lxor v) by by apply land_top. split; [done|].
  by rewrite Z.lxor_assoc, Z.lxor_nilpotent, Z.lxor_0_r.
Qed.

Lemma lor_top v k : 0 <= k -> 0 <= v < 2 ^ k -> (v + 2 ^ k) .& 2 ^ k = 2 ^ k /\ (v + 2 ^ k) .| (- 2 ^ k) = v - 2 ^ k.
Proof.
  intros Hk Hv. rewrite (Z.add_comm v). pose proof (lor_byte 1 v k Hk Hv) as E1. pose proof (lor_byte (-1) v k Hk Hv) as E2.
  rewrite Z.mul_1_l in E1. rewrite <- E1, !Z.shiftl_mul_pow2, !Z.mul_1_l in * by done. split.
  - by rewrite Z.land_lor_distr_l, Z.land_diag, land_top, Z.lor_0_r.
  - replace (- 2 ^ k) with (-1 * 2 ^ k) by ring. replace (v - 2 ^ k) with (-1 * 2 ^ k + v) by ring. rewrite <- E2.
    assert (2 ^ k .| (-1 * 2 ^ k) = -1 * 2 ^ k) as E.
    { replace (2 ^ k) with (1 .<< k) at 1 by (by rewrite Z.shiftl_mul_pow2, Z.mul_1_l).
      by rewrite <- Z.shiftl_mul_pow2, <- Z.shiftl_lor. }
    by rewrite <- Z.lor_assoc, (Z.lor_comm v), Z.lor_assoc, E.
Qed.

Lemma fixed_sample_spec v nb : 2 <= nb <= 16 -> 0 <= v < 2 ^ nb -> fixed_sample v nb = (v - 2 ^ (nb - 1)) * 2 ^ (29 - nb).
Proof.
  intros Hnb Hv. unfold fixed_sample, MAD_F_FRACBITS. rewrite Z.shiftl_1_l, Z.shiftl_mul_pow2 by lia.
  replace (28 - (nb - 1)) with (29 - nb) by lia.
  assert (2 ^ nb = 2 * 2 ^ (nb - 1)) as E by (rewrite <- Z.pow_succ_r by lia; f_equal; lia).
  assert (2 ^ (nb - 1) * 2 ^ (29 - nb) = 2 ^ 28) as EP by (rewrite <- Z.pow_add_r by lia; f_equal; lia).
  assert (2 ^ (nb - 1) <= 2 ^ 15) as HP by (apply Z.pow_le_mono_r; lia). pose proof (pow2_pos (29 - nb) ltac:(lia)) as HS.
  change (2 ^ 15) with 32768 in HP. change (2 ^ 28) with 268435456 in EP. rewrite E in Hv.
  assert (forall z, - 2 ^ (nb - 1) <= z < 2 ^ (nb - 1) -> s32 (z * 2 ^ (29 - nb)) = z * 2 ^ (29 - nb)) as Hs.
  { intros z Hz. apply s32_small. change (2 ^ 31) with 2147483648. nia. }
  destruct (Z.ltb_spec v (2 ^ (nb - 1))) as [Hlt|Hge].
  - destruct (lxor_top v (nb - 1)) as [-> _]; [lia|lia|]. rewrite wrapu_small by (change (2 ^ 32) with 4294967296; lia).
    rewrite (s32_small (v + _)) by (change (2 ^ 31) with 2147483648; lia). destruct (lor_top v (nb - 1)) as [-> Eor]; [lia|lia|].
    rewrite (s32_small (- _)), Eor by (change (2 ^ 31) with 2147483648; lia). apply Hs. lia.
  - set (l := v - 2 ^ (nb - 1)) in *. replace v with (l + 2 ^ (nb - 1)) by (unfold l; lia).
    destruct (lxor_top l (nb - 1)) as [_ ->]; [lia|lia|]. rewrite wrapu_small by (change (2 ^ 32) with 4294967296; lia).
    rewrite (s32_small l) by (change (2 ^ 31) with 2147483648; lia). rewrite land_top by lia. change (s32 (- 0)) with 0. rewrite Z.lor_0_r. apply Hs. lia.
Qed.

(** A class of quantization: the width of its numbers, how many steps it has, the scale and the
    offset that is added. *)
Definition class_ok (nb n C D : Z) : bool :=
  (2 <=? nb) && (nb <=? 16) && (3 <=? n) && (n <=? 2 ^ nb - 1) && (C * n - 2 ^ (28 + nb) <=? n) && (2 ^ (28 + nb) - C * n <=? n) &&
  (0 <=? C) && (C <=? 0x1c71c71c) && (2 * (2 ^ 28 - D) =? (n - 1) * 2 ^ (29 - nb)).

Lemma level_fixed nb n C D c : class_ok nb n C D = true -> 0 <= c < 2 ^ nb -> fixed_sample c nb + D = level_input nb n c.
Proof.
  intros H Hc. unfold class_ok in H. zbool. rewrite fixed_sample_spec by (done || lia). unfold level_input.
  assert (2 ^ (29 - nb) = 2 * 2 ^ (28 - nb)) as E by (rewrite <- Z.pow_succ_r by lia; f_equal; lia).
  assert (2 ^ (nb - 1) * 2 ^ (29 - nb) = 2 ^ 28) as E2 by (rewrite <- Z.pow_add_r by lia; f_equal; lia). nia.
Qed.

Lemma level_bound nb n C D c : class_ok nb n C D = true -> 0 <= c < 2 ^ nb -> (c < n \/ n = 2 ^ nb - 1) -> Z.abs (level_input nb n c) <= 2 ^ 28.
Proof.
  intros H Hc Hn. unfold class_ok in H. zbool. unfold level_input. rewrite Z.abs_mul, (Z.abs_eq (2 ^ _)) by (apply Z.lt_le_incl, pow2_pos; lia).
  replace (2 ^ 28) with (2 ^ nb * 2 ^ (28 - nb)) by (rewrite <- Z.pow_add_r by lia; f_equal; lia).
  apply Z.mul_le_mono_nonneg_r; [apply Z.lt_le_incl, pow2_pos; lia|]. lia.
Qed.

Lemma level_error W nb n C D c : 32 <= W -> class_ok nb n C D = true -> 0 <= c < 2 ^ nb -> (c < n \/ n = 2 ^ nb - 1) ->
  Z.abs (mad_f_mul W (level_input nb n c) C * n - (2 * c - n + 1) * 2 ^ 28) <= 37000 * n.
Proof.
  intros HW H Hc Hn. pose proof (level_bound nb n C D c H Hc Hn) as Hx. unfold class_ok in H. zbool.
  assert (level_input nb n c * 2 ^ (28 + nb) = (2 * c - n + 1) * 2 ^ 56) as Ex.
  { unfold level_input. rewrite <- Z.mul_assoc, <- Z.pow_add_r by lia. do 2 f_equal. lia. }
  set (x := level_input nb n c) in *. set (P := 2 ^ (28 + nb)) in *.
  pose proof (mad_f_mul_eighth W x C HW) as He. specialize (He ltac:(change (2 ^ 28) with 268435456 in *; change (2 ^ 29 - 2 ^ 12) with 536866816; lia)).
  specialize (He ltac:(change (2 ^ 29) with 536870912; lia)). set (r := mad_f_mul W x C) in *. clearbody r.
  assert (Z.abs (x * (C * n - P)) <= 2 ^ 28 * n) as Hd by (rewrite Z.abs_mul; apply Z.mul_le_mono_nonneg; lia).
  assert (Z.abs ((r * 2 ^ 28 - x * C) * n) <= (2 ^ 11 * (C + 2 ^ 15) + 2 ^ 15 * Z.abs x) * n) as Hr.
  { rewrite Z.abs_mul, (Z.abs_eq n), (Z.abs_eq C) in * by lia. apply Z.mul_le_mono_nonneg_r; lia. }
  replace ((r * 2 ^ 28 - x * C) * n + x * (C * n - P)) with (2 ^ 28 * (r * n) - x * P) in *
    by ring.
  assert (2 ^ 28 * (r * n - (2 * c - n + 1) * 2 ^ 28) = (r * 2 ^ 28 - x * C) * n + x * (C * n - P)) as E.
  { transitivity (r * n * 2 ^ 28 - x * P); [rewrite Ex; change (2 ^ 56) with (2 ^ 28 * 2 ^ 28); ring|ring]. }
  change (2 ^ 28) with 268435456 in *. change (2 ^ 11) with 2048 in *. change (2 ^ 15) with 32768 in *.
  assert ((2048 * (C + 32768) + 32768 * Z.abs x) * n <= (2048 * (0x1c71c71c + 32768) + 32768 * 268435456) * n) as Hm by (apply Z.mul_le_mono_nonneg_r; lia).
  assert (0 <= n) as Hn0 by lia. revert Hn0 E Hr Hd Hm. clear. generalize (r * n - (2 * c - n + 1) * 268435456), ((r * 268435456 - x * C) * n), (x * (C * n - P)), ((2048 * (C + 32768) + 32768 * Z.abs x) * n).
  intros. lia.
Qed.

(** The scale factors are the powers of the cube root of 1/2, rounded; index 63 is 0. *)
Definition factor_check (k : Z) : bool :=
  match aget sf_table k with
  | Some t => ((2 * t - 1) ^ 3 <=? 2 ^ (90 - k)) && (2 ^ (90 - k) <=? (2 * t + 1) ^ 3) && (0 <=? t) && (t <=? 2 ^ 29)
  | None => false
  end.

Lemma sf_table_ok k : 0 <= k < 63 -> factor_check k = true.
Proof. intros Hk. apply (forall_range factor_check 0 63); [vm_compute; reflexivity|lia]. Qed.

Lemma sf_entry k : 0 <= k < 64 -> exists t, aget sf_table k = Some t /\ 0 <= t <= 2 ^ 29.
Proof.
  intros Hk. destruct (aget_Some sf_table k) as [t E]; [done|]. exists t. split; [done|].
  apply (aget_Forall (fun t => 0 <= t <= 2 ^ 29)) in E; [done|]. apply (bool_decide_unpack _). vm_compute. exact I.
Qed.

Lemma product_errors K v n m r t : K * (v * n - m * t) = (v * K - r * t) * n + (r * n - m * K) * t.
Proof. ring. Qed.

(** A sample times its scale factor. *)
Lemma scaled_error W nb n C D c t : 32 <= W -> class_ok nb n C D = true -> 0 <= c < 2 ^ nb -> (c < n \/ n = 2 ^ nb - 1) -> 0 <= t <= 2 ^ 29 ->
  Z.abs (mad_f_mul W (mad_f_mul W (level_input nb n c) C) t * n - (2 * c - n + 1) * t) <= 2 ^ 17 * n.
Proof.
  intros HW H Hc Hn Ht. pose proof (level_error W nb n C D c HW H Hc Hn) as He. set (r := mad_f_mul W (level_input nb n c) C) in *.
  assert (3 <= n /\ Z.abs (2 * c - n + 1) <= n + 1) as [H3 Hcn] by (unfold class_ok in H; zbool; lia).
  change (2 ^ 28) with 268435456 in *. change (2 ^ 29) with 536870912 in *. change (2 ^ 17) with 131072.
  assert (Z.abs r <= 358000000) as Hr.
  { assert (Z.abs (r * n) <= 358000000 * n) as A by lia. rewrite Z.abs_mul, (Z.abs_eq n) in A by lia. apply (Z.mul_le_mono_pos_r _ _ n); lia. }
  pose proof (mad_f_mul_eighth W r t HW) as Hm. change (2 ^ 29 - 2 ^ 12) with 536866816 in Hm. change (2 ^ 29) with 536870912 in Hm.
  specialize (Hm ltac:(lia) ltac:(lia)). change (2 ^ 28) with 268435456 in Hm. change (2 ^ 11) with 2048 in Hm. change (2 ^ 15) with 32768 in Hm.
  rewrite (Z.abs_eq t) in Hm by lia. set (v := mad_f_mul W r t) in *. clearbody v. clearbody r.
  assert (Z.abs ((v * 268435456 - r * t) * n) <= (2048 * (536870912 + 32768) + 32768 * 358000000) * n) as H1.
  { rewrite Z.abs_mul, (Z.abs_eq n) by lia. apply Z.mul_le_mono_nonneg_r; lia. }
  assert (Z.abs ((r * n - (2 * c - n + 1) * 268435456) * t) <= 37000 * n * 536870912) as H2.
  { rewrite Z.abs_mul, (Z.abs_eq t) by lia. apply Z.mul_le_mono_nonneg; lia. }
  pose proof (product_errors 268435456 v n (2 * c - n + 1) r t) as E.
  revert H3 E H1 H2. clear. generalize (v * n - (2 * c - n + 1) * t), ((v * 268435456 - r * t) * n), ((r * n - (2 * c - n + 1) * 268435456) * t).
  intros a x y H3 E H1 H2. lia.
Qed.

(** The classes of Layer I and of Layer II. *)
Definition I_class_check (nb : Z) : bool :=
  match aget linear_table (nb - 2) with Some C => class_ok nb (2 ^ nb - 1) C (MAD_F_ONE .>> (nb - 1)) | None => false end.

Lemma I_class_ok nb : 2 <= nb <= 15 -> exists C, aget linear_table (nb - 2) = Some C /\ class_ok nb (2 ^ nb - 1) C (MAD_F_ONE .>> (nb - 1)) = true.
Proof.
  intros Hnb. pose proof (forall_range I_class_check 2 14 ltac:(vm_compute; reflexivity) nb ltac:(lia)) as H.
  unfold I_class_check in H. destruct (aget linear_table (nb - 2)) as [C|]; [|done]. by exists C.
Qed.

Definition qc_width (qc : quantclass) : Z := if negb (qc_group qc =? 0) then qc_group qc else qc_bits qc.

Definition qc_ok (qc : quantclass) : bool :=
  class_ok (qc_width qc) (qc_nlevels qc) (qc_C qc) (qc_D qc) && (1 <=? qc_bits qc) && (qc_bits qc <=? 16) &&
  (negb (qc_group qc =? 0) || (qc_nlevels qc =? 2 ^ qc_bits qc - 1)).

Lemma qc_table_ok i qc : aget qc_table i = Some qc -> qc_ok qc = true.
Proof. intros E. apply (aget_Forall (fun qc => qc_ok qc = true)) in E; [done|]. apply (bool_decide_unpack _). vm_compute. exact I. Qed.

(** Numbers of up to a width of at most 16 bits are read exactly. *)
Lemma level_s32 nb n C D c : class_ok nb n C D = true -> 0 <= c < 2 ^ nb -> (c < n \/ n = 2 ^ nb - 1) ->
  s32 (fixed_sample c nb + D) = level_input nb n c.
Proof.
  intros H Hc Hn. pose proof (level_bound nb n C D c H Hc Hn). rewrite (level_fixed nb n C D) by done.
  apply s32_small. change (2 ^ 31) with 2147483648. change (2 ^ 28) with 268435456 in *. lia.
Qed.

(** The entry of a table, 0 outside of it. *)
Definition table_at (l : list Z) (i : Z) : Z := default 0 (aget l i).

Lemma table_at_Some l i x : aget l i = Some x -> table_at l i = x.
Proof. intros E. unfold table_at. by rewrite E. Qed.

(** ** Stores of a field *)

Section Stores.
Variables bound limit nch : Z.
Hypotheses (Hbound : 0 <= bound <= limit) (Hlimit : limit <= 32) (Hnch : nch = 1 \/ nch = 2).
Variable val : Z -> Z -> Z.

Definition fields_stored (j : Z) (a : list (list Z)) : Prop :=
  grid 2 32 a /\ before bound limit nch j (fun ch sb => get2 a ch sb = Some (val ch sb)).

Lemma store_one_stored a ch sb : 0 <= ch < nch -> 0 <= sb < bound -> fields_stored (sb * nch + ch) a ->
  exists a', set2 a ch sb (val ch sb) = Some a' /\ fields_stored (sb * nch + ch + 1) a'.
Proof.
  intros Hch Hsb [Hg Hb]. destruct (grid_set 2 32 a ch sb (val ch sb) Hg) as (a'&->&Hg'&Hc); [lia|lia|].
  exists a'. split; [done|]. split; [done|]. eapply before_one; [done|done|done|exact Hb| |].
  - cbv beta. by rewrite Hc, !Z.eqb_refl by lia.
  - intros ch' sb' Hch' Hsb' Hne E. cbv beta in *. rewrite Hc, E by lia.
    destruct (Z.eqb_spec ch' ch), (Z.eqb_spec sb' sb); try done. subst. by destruct Hne.
Qed.

Lemma store_both_stored a sb v : bound <= sb < limit -> (forall ch, 0 <= ch < nch -> val ch sb = v) ->
  fields_stored (bound * nch + (sb - bound)) a ->
  exists a', store_both sb a v = Some a' /\ fields_stored (bound * nch + (sb - bound) + 1) a'.
Proof.
  intros Hsb Hv [Hg Hb]. unfold store_both. destruct (grid_set 2 32 a 1 sb v Hg) as (a1&->&Hg1&Hc1); [lia|lia|]. cbn [mbind option_bind].
  destruct (grid_set 2 32 a1 0 sb v Hg1) as (a2&->&Hg2&Hc2); [lia|lia|].
  exists a2. split; [done|]. split; [done|]. eapply before_both; [done|done|exact Hb| |].
  - intros ch Hch. cbv beta. rewrite Hc2, Hc1, (Hv ch), !Z.eqb_refl, !andb_true_r by lia.
    by destruct (Z.eqb_spec ch 0), (Z.eqb_spec ch 1); try lia.
  - intros ch sb' Hch Hsb' Hne E. cbv beta in *. by rewrite Hc2, Hc1, (proj2 (Z.eqb_neq sb' sb)), !andb_false_r by lia.
Qed.
End Stores.

(** ** Samples stored *)

Section Written.
Variable value : Z -> Z -> Z -> Z.

(** [rows'] is [rows] with the values where [S] says so. *)
Definition wrote (S : Z -> Z -> Z -> bool) (rows rows' : list (list (list Z))) : Prop :=
  cube 2 36 32 rows' /\ forall ch t sb, 0 <= ch < 2 -> 0 <= t < 36 -> 0 <= sb < 32 ->
    get3 rows' ch t sb = if S ch t sb then Some (value ch t sb) else get3 rows ch t sb.

Lemma wrote_ext S S' rows rows' : (forall ch t sb, 0 <= ch < 2 -> 0 <= t < 36 -> 0 <= sb < 32 -> S ch t sb = S' ch t sb) ->
  wrote S rows rows' -> wrote S' rows rows'.
Proof. intros HS [Hc H]. split; [done|]. intros. rewrite <- HS by done. auto. Qed.

Lemma wrote_none rows : cube 2 36 32 rows -> wrote (fun _ _ _ => false) rows rows.
Proof. by split. Qed.

Lemma wrote_app S S' rows1 rows2 rows3 : wrote S rows1 rows2 -> wrote S' rows2 rows3 ->
  wrote (fun ch t sb => S ch t sb || S' ch t sb) rows1 rows3.
Proof.
  intros [_ H1] [Hc H2]. split; [done|]. intros ch t sb Hch Ht Hsb. rewrite H2, H1 by done.
  by destruct (S ch t sb), (S' ch t sb).
Qed.

Lemma wrote_set rows ch t sb x : cube 2 36 32 rows -> 0 <= ch < 2 -> 0 <= t < 36 -> 0 <= sb < 32 -> x = value ch t sb ->
  exists rows', set3 rows ch t sb x = Some rows' /\ wrote (fun ch' t' sb' => (ch' =? ch) && (t' =? t) && (sb' =? sb)) rows rows'.
Proof.
  intros Hc Hch Ht Hsb ->. destruct (cube_set 2 36 32 rows ch t sb (value ch t sb) Hc) as (rows'&->&Hc'&H); [lia..|].
  exists rows'. split; [done|]. split; [done|]. intros ch' t' sb' Hch' Ht' Hsb'. rewrite H by lia.
  destruct (Z.eqb_spec ch' ch), (Z.eqb_spec t' t), (Z.eqb_spec sb' sb); cbn [andb]; try done. by subst.
Qed.

(** A loop whose round [i] stores the cells with key [i]. *)
Lemma wrote_range (key : Z -> Z -> Z -> Z) (Q : Z -> Z -> Z -> bool) lo hi body rows : lo <= hi -> cube 2 36 32 rows ->
  (forall i rows, lo <= i < hi -> cube 2 36 32 rows ->
     exists rows', body i rows = Some rows' /\ wrote (fun ch t sb => (key ch t sb =? i) && Q ch t sb) rows rows') ->
  exists rows', for_range lo hi body rows = Some rows' /\
    wrote (fun ch t sb => (lo <=? key ch t sb) && (key ch t sb <? hi) && Q ch t sb) rows rows'.
Proof.
  intros Hle Hc Hbody. apply (for_range_inv (fun i rows' => wrote (fun ch t sb => (lo <=? key ch t sb) && (key ch t sb <? i) && Q ch t sb) rows rows')); [done| |].
  - eapply wrote_ext; [|by apply wrote_none]. intros. destruct (Z.leb_spec lo (key ch t sb)), (Z.ltb_spec (key ch t sb) lo); try done. lia.
  - intros i rows1 Hi H1. destruct (Hbody i rows1 Hi (proj1 H1)) as (rows2&->&H2). exists rows2. split; [done|].
    eapply wrote_ext; [|exact (wrote_app _ _ _ _ _ H1 H2)]. intros. cbv beta.
    destruct (Z.leb_spec lo (key ch t sb)), (Z.ltb_spec (key ch t sb) i), (Z.ltb_spec (key ch t sb) (i + 1)), (Z.eqb_spec (key ch t sb) i), (Q ch t sb);
      cbn [andb orb]; try done; lia.
Qed.

(** The samples of the instants before granule [g] and of the first [j] fields of [g]; a
    granule has [per] instants. *)
Definition sample_done (bound limit nch per g j ch t sb : Z) : bool :=
  (ch <? nch) && ((t / per <? g) || ((t / per =? g) && (sb <? limit) && (slot bound nch ch sb <? j))).

Section Done.
Variables bound limit nch per : Z.
Hypotheses (Hbound : 0 <= bound <= limit) (Hlimit : limit <= 32) (Hnch : nch = 1 \/ nch = 2).
Variable rows0 : list (list (list Z)).

Abbreviation cells := (fun g j => wrote (sample_done bound limit nch per g j) rows0).

Lemma written_start : cube 2 36 32 rows0 -> 0 < per -> cells 0 0 rows0.
Proof.
  intros Hc Hp. eapply wrote_ext; [|by apply wrote_none]. intros ch t sb Hch Ht Hsb. unfold sample_done.
  assert (0 <= t / per) by (apply Z.div_pos; lia). rewrite (proj2 (Z.ltb_ge (t / per) 0)) by lia. cbn [orb].
  destruct (Z.ltb_spec ch nch), (Z.ltb_spec sb limit), (Z.ltb_spec (slot bound nch ch sb) 0); rewrite ?andb_false_r; try done.
  pose proof (slot_range bound limit nch Hbound Hnch ch sb ltac:(lia) ltac:(lia)). lia.
Qed.

Lemma cells_one g ch sb rows rows' : 0 <= ch < nch -> 0 <= sb < bound -> cells g (sb * nch + ch) rows ->
  wrote (fun ch' t sb' => (ch' =? ch) && (t / per =? g) && (sb' =? sb)) rows rows' -> cells g (sb * nch + ch + 1) rows'.
Proof.
  intros Hch Hsb H1 H2. eapply wrote_ext; [|exact (wrote_app _ _ _ _ _ H1 H2)]. intros ch' t sb' Hch' Ht Hsb'. cbv beta. unfold sample_done.
  destruct (Z.ltb_spec ch' nch); cbn [andb orb].
  2: { rewrite (proj2 (Z.eqb_neq ch' ch)) by lia. done. }
  destruct (Z.ltb_spec (t / per) g), (Z.eqb_spec (t / per) g); cbn [andb orb]; rewrite ?andb_false_r; try done.
  destruct (Z.eq_dec (slot bound nch ch' sb') (sb * nch + ch)) as [E|Hne].
  - destruct (slot_low_eq bound nch Hnch ch sb ch' sb' Hch Hsb ltac:(lia) ltac:(lia) E) as [-> ->].
    rewrite E, !Z.eqb_refl, (proj2 (Z.ltb_lt sb limit)), (proj2 (Z.ltb_lt _ (_ + 1))), orb_true_r by lia. done.
  - assert ((ch' =? ch) && true && (sb' =? sb) = false) as ->.
    { destruct (Z.eqb_spec ch' ch), (Z.eqb_spec sb' sb); try done. subst. rewrite slot_low in Hne by lia. lia. }
    rewrite orb_false_r. f_equal. destruct (Z.ltb_spec (slot bound nch ch' sb') (sb * nch + ch)), (Z.ltb_spec (slot bound nch ch' sb') (sb * nch + ch + 1)); try done; lia.
Qed.

Lemma cells_both g sb rows rows' : bound <= sb < limit -> cells g (bound * nch + (sb - bound)) rows ->
  wrote (fun ch t sb' => (ch <? nch) && (t / per =? g) && (sb' =? sb)) rows rows' -> cells g (bound * nch + (sb - bound) + 1) rows'.
Proof.
  intros Hsb H1 H2. eapply wrote_ext; [|exact (wrote_app _ _ _ _ _ H1 H2)]. intros ch t sb' Hch Ht Hsb'. cbv beta. unfold sample_done.
  destruct (Z.ltb_spec ch nch); cbn [andb orb]; [|done].
  destruct (Z.ltb_spec (t / per) g), (Z.eqb_spec (t / per) g); cbn [andb orb]; rewrite ?andb_false_r; try done.
  destruct (Z.eqb_spec sb' sb) as [->|Hne].
  - rewrite (slot_high bound nch ch sb), (proj2 (Z.ltb_lt sb limit)), (proj2 (Z.ltb_lt _ (_ + 1))), orb_true_r by lia. done.
  - rewrite orb_false_r. f_equal.
    assert (slot bound nch ch sb' <> bound * nch + (sb - bound)) by (intros E; apply Hne; by apply (slot_high_eq bound nch Hnch ch sb sb'); try lia).
    destruct (Z.ltb_spec (slot bound nch ch sb') (bound * nch + (sb - bound))), (Z.ltb_spec (slot bound nch ch sb') (bound * nch + (sb - bound) + 1)); try done; lia.
Qed.

(** The rest of a granule: the subbands from [limit] on. *)
Lemma written_next g rows rows' : cells g (slots bound limit nch) rows ->
  wrote (fun ch t sb => (ch <? nch) && (t / per =? g) && (limit <=? sb)) rows rows' -> cells (g + 1) 0 rows'.
Proof.
  intros H1 H2. eapply wrote_ext; [|exact (wrote_app _ _ _ _ _ H1 H2)]. intros ch t sb Hch Ht Hsb. cbv beta. unfold sample_done.
  destruct (Z.ltb_spec ch nch); cbn [andb orb]; [|done].
  assert ((sb <? limit) && (slot bound nch ch sb <? 0) = false) as E0.
  { destruct (Z.ltb_spec sb limit); [|done]. cbn [andb]. apply Z.ltb_ge.
    pose proof (slot_range bound limit nch Hbound Hnch ch sb ltac:(lia) ltac:(lia)). lia. }
  assert ((sb <? limit) && (slot bound nch ch sb <? slots bound limit nch) = (sb <? limit)) as E1.
  { destruct (Z.ltb_spec sb limit); [|done]. cbn [andb]. apply Z.ltb_lt, (slot_range bound limit nch Hbound Hnch); lia. }
  rewrite <- !andb_assoc, E0, E1, andb_false_r, orb_false_r.
  destruct (Z.ltb_spec (t / per) g), (Z.eqb_spec (t / per) g), (Z.ltb_spec (t / per) (g + 1)), (Z.ltb_spec sb limit), (Z.leb_spec limit sb);
    cbn [andb orb]; try done; lia.
Qed.
End Done.
End Written.

(** ** Headers *)

Definition frame_bound (h : mad_header) : Z := if mode h =? MAD_MODE_JOINT_STEREO then 4 + 4 * mode_extension h else 32.

Definition joint_header (h : mad_header) : mad_header :=
  if mode h =? MAD_MODE_JOINT_STEREO then set_flags h (flags h .| MAD_FLAG_I_STEREO) (private_bits h) else h.

(** The CRC of [n] bits, for a protected frame. *)
Definition crc_header (mem : list Z) (i n : Z) (h : mad_header) : mad_header :=
  if bitset (flags h) MAD_FLAG_PROTECTION then set_crc h (crc16 mem i (Z.to_nat n) (crc_check h)) (crc_target h) else h.

Definition crc_good (options : Z) (h : mad_header) : bool :=
  negb (bitset (flags h) MAD_FLAG_PROTECTION) || (crc_check h =? crc_target h) || bitset options MAD_OPTION_IGNORECRC.

Lemma same_ptr s e : set_error (set_ptr s (ptr s)) e = set_error s e.
Proof. by destruct s. Qed.

Lemma same_error s p : set_error (set_ptr s p) (error s) = set_ptr s p.
Proof. by destruct s. Qed.

(** What the layers rely on of a header that was decoded. *)
Record header_fields (h : mad_header) : Prop := HeaderFields {
  hf_mode : mode h = MAD_MODE_JOINT_STEREO -> 0 <= mode_extension h < 4;
  hf_crc : bitset (flags h) MAD_FLAG_PROTECTION = true -> 0 <= crc_check h < 2 ^ 16
}.

Lemma nchannels h : MAD_NCHANNELS h = 1 \/ MAD_NCHANNELS h = 2.
Proof. unfold MAD_NCHANNELS. destruct (mode h =? 0); auto. Qed.

Lemma frame_bound_range h : header_fields h -> 0 <= frame_bound h <= 32.
Proof. intros [Hm _]. unfold frame_bound. destruct (Z.eqb_spec (mode h) MAD_MODE_JOINT_STEREO); [specialize (Hm e)|]; lia. Qed.

Lemma joint_bound_spec f : header_fields (header f) -> joint_bound f = (set_header f (joint_header (header f)), frame_bound (header f)).
Proof.
  intros [Hm _]. unfold joint_bound, joint_header, frame_bound. destruct f as [h o rows ov]. cbn [header] in *.
  destruct (Z.eqb_spec (mode h) MAD_MODE_JOINT_STEREO) as [E|]; [|done]. specialize (Hm E).
  rewrite (wrapu_small 32 (mode_extension h * 4)), wrapu_small by (change (2 ^ 32) with 4294967296; lia). f_equal. lia.
Qed.

Lemma joint_crc h : header_fields h -> bitset (flags (joint_header h)) MAD_FLAG_PROTECTION = true -> 0 <= crc_check (joint_header h) < 2 ^ 16.
Proof.
  intros [_ Hc]. unfold joint_header. destruct (mode h =? _); [|done]. cbn [flags set_flags crc_check]. by rewrite bitset_lor.
Qed.

Lemma bits_crc_spec W mem start n f : 32 <= W -> bytes_ok mem -> bitptr_ok mem start ->
  (bitset (flags (header f)) MAD_FLAG_PROTECTION = true -> 0 <= crc_check (header f) < 2 ^ 16) -> 0 <= n ->
  pos start + n <= 8 * zlen mem ->
  bits_crc W mem start n f = Some (crc_good (fr_options f) (crc_header mem (pos start) n (header f)),
    set_header f (crc_header mem (pos start) n (header f))).
Proof.
  intros HW Hmem Hs Hc Hn Hin. unfold bits_crc, crc_header, crc_good. destruct (bitset (flags (header f)) MAD_FLAG_PROTECTION) eqn:E.
  - rewrite bit_crc_spec by auto. cbn [mbind option_bind set_crc flags crc_check crc_target]. by rewrite E.
  - rewrite E. cbn [negb orb]. by destruct f.
Qed.

(** ** Fields that only coded subbands have *)

Section Optional.
Variables (W : Z) (mem : list Z).
Hypotheses (HW : 32 <= W) (Hmem : bytes_ok mem).
Variables limit nch nb : Z.
Hypotheses (Hlimit : 0 <= limit <= 32) (Hnch : nch = 1 \/ nch = 2) (Hnb : 1 <= nb <= 8).
(** The allocation of a subband, and where the fields start. *)
Variables (alloc : Z -> Z -> Z) (base : Z).

Definition optional_field (a : list (list Z)) (ch sb : Z) (st : mad_bitptr * list (list Z)) : option (mad_bitptr * list (list Z)) :=
  let '(p, x) := st in
  n ← get2 a ch sb;
  if negb (n =? 0) then '(v, p) ← mad_bit_read W mem p nb; x ← set2 x ch sb (u8 v); Some (p, x) else Some st.

Definition optional_bits (k : Z) : Z := if alloc (k mod nch) (k / nch) =? 0 then 0 else nb.

Definition optional_value (ch sb : Z) : Z := bits mem (base + psum optional_bits (sb * nch + ch)) nb.

Lemma optional_bits_pos k : 0 <= optional_bits k.
Proof. unfold optional_bits. destruct (_ =? 0); lia. Qed.

Lemma optional_slot ch sb : 0 <= ch < nch -> 0 <= sb -> optional_bits (sb * nch + ch) = if alloc ch sb =? 0 then 0 else nb.
Proof.
  intros Hch Hsb. unfold optional_bits. rewrite (Z.add_comm _ ch), Z.mod_add, Z.mod_small, Z.div_add, (Z.div_small ch) by lia.
  by rewrite Z.add_0_l.
Qed.

Lemma field_index sb ch : 0 <= sb < limit -> 0 <= ch < nch -> 0 <= sb * nch + ch < limit * nch.
Proof. intros Hsb Hch. destruct Hnch as [E|E]; rewrite E in *; lia. Qed.

Variable a : list (list Z).
Hypothesis Ha : forall ch sb, 0 <= ch < nch -> 0 <= sb < limit -> get2 a ch sb = Some (alloc ch sb).
Hypothesis Hroom : base + psum optional_bits (limit * nch) <= 8 * zlen mem.

Definition optional_stored (x : list (list Z)) (ch sb : Z) : Prop := alloc ch sb <> 0 -> get2 x ch sb = Some (optional_value ch sb).

Definition optional_inv (k : Z) (st : mad_bitptr * list (list Z)) : Prop :=
  let '(p, x) := st in
  bitptr_ok mem p /\ pos p = base + psum optional_bits k /\ grid 2 32 x /\ before limit limit nch k (optional_stored x).

Lemma optional_step sb ch st : 0 <= sb < limit -> 0 <= ch < nch -> optional_inv (sb * nch + ch) st ->
  exists st', optional_field a ch sb st = Some st' /\ optional_inv (sb * nch + ch + 1) st'.
Proof.
  destruct st as [p x]. intros Hsb Hch (Hp&Hpos&Hg&Hx). unfold optional_field. rewrite Ha by done. cbn [mbind option_bind].
  pose proof (field_index sb ch Hsb Hch) as Hi.
  pose proof (psum_mono optional_bits (sb * nch + ch + 1) (limit * nch) ltac:(lia) ltac:(intros; apply optional_bits_pos)) as Hr.
  unfold optional_inv. rewrite psum_S, optional_slot in * by lia.
  destruct (Z.eqb_spec (alloc ch sb) 0) as [E|Hne]; cbn [negb].
  - eexists. split; [done|]. split; [done|]. split; [lia|]. split; [done|]. eapply before_one; [exact Hnch|exact Hch|exact Hsb|exact Hx| |].
    + intros H. by destruct H.
    + intros ch' sb' _ _ _ H. exact H.
  - destruct (read_exact W mem HW Hmem p nb Hp) as (p'&->&Hp'&Hpos'); [lia|lia|]. cbn [mbind option_bind].
    assert (u8 (bits mem (pos p) nb) = optional_value ch sb) as ->.
    { unfold optional_value. rewrite <- Hpos. apply wrapu_small. pose proof (bits_range mem (pos p) nb ltac:(lia)).
      assert (2 ^ nb <= 2 ^ 8) by (apply Z.pow_le_mono_r; lia). lia. }
    destruct (grid_set 2 32 x ch sb (optional_value ch sb) Hg) as (x'&->&Hg'&Hc); [lia|lia|]. cbn [mbind option_bind].
    eexists. split; [done|]. split; [done|]. split; [lia|]. split; [done|]. eapply before_one; [exact Hnch|exact Hch|exact Hsb|exact Hx| |].
    + intros _. by rewrite Hc, !Z.eqb_refl by lia.
    + intros ch' sb' Hch' Hsb' Hn H. unfold optional_stored in *. intros Hw. rewrite Hc, H by (done || lia).
      destruct (Z.eqb_spec ch' ch), (Z.eqb_spec sb' sb); try done. subst. by destruct Hn.
Qed.

Lemma optional_fields p x : bitptr_ok mem p -> pos p = base -> grid 2 32 x ->
  exists p' x', for_range 0 limit (fun sb => for_range 0 nch (fun ch => optional_field a ch sb)) (p, x) = Some (p', x') /\
    bitptr_ok mem p' /\ pos p' = base + psum optional_bits (limit * nch) /\
    forall ch sb, 0 <= ch < nch -> 0 <= sb < limit -> optional_stored x' ch sb.
Proof.
  intros Hp Hpos Hg. destruct (nested_inv optional_inv limit nch (optional_field a) (p, x)) as ([p' x']&E&Hp'&Hpos'&Hg'&Hall); [lia|lia| | |].
  - split; [done|]. rewrite psum_0. split; [lia|]. split; [done|]. apply before_0; [lia|done].
  - intros sb ch st Hsb Hch Hst. by apply optional_step.
  - exists p', x'. split; [done|]. split; [done|]. split; [done|]. intros ch sb Hch Hsb.
    apply (before_all limit limit nch); [lia|done| |done|done]. unfold slots. by replace (limit * nch + (limit - limit)) with (limit * nch) by lia.
Qed.
End Optional.
