(* ===== verification/MadLayerI.v ===== *)
(** Layer I frames of any bytes: what [mad_layer_I] of [src/libmad/layer12.c] makes of the bits of
    a frame, field by field, and when it refuses one. *)
From S2P Require Import Prelude BitString MadBit MadTimer MadFrame MadRequantize MadStereo MadLayer3 MadHybrid MadLayer12 MadSubbands.

(** ** The layout of a frame *)

Section Layout.
Variables (W : Z) (mem : list Z).
(** Where the frame starts, the number of channels and the bound of joint stereo. *)
Variables (i0 nch bound : Z).

Definition I_fields : Z := slots bound 32 nch.

Definition I_code (j : Z) : Z := bits mem (i0 + 4 * j) 4.

(** The bits of a sample, from its allocation. *)
Definition I_bits (code : Z) : Z := if negb (code =? 0) then code + 1 else 0.

Definition I_width (ch sb : Z) : Z := I_bits (I_code (slot bound nch ch sb)).

(** Scale factors are there for subbands with samples only. *)
Definition I_factor_bits : Z -> Z := optional_bits nch 6 I_width.

Definition I_factors : Z := i0 + 4 * I_fields.

Definition I_factor : Z -> Z -> Z := optional_value mem nch 6 I_width I_factors.

Definition I_samples : Z := I_factors + psum I_factor_bits (32 * nch).

Definition I_instant : Z := psum (fun j => I_bits (I_code j)) I_fields.

Definition I_position (t j : Z) : Z := I_samples + t * I_instant + psum (fun j => I_bits (I_code j)) j.

Definition I_end : Z := I_samples + 12 * I_instant.

(** The sample of subband [sb] at instant [t]. *)
Definition I_value (ch t sb : Z) : Z :=
  let nb := I_width ch sb in
  if nb =? 0 then 0 else
  mad_f_mul W
    (mad_f_mul W (level_input nb (2 ^ nb - 1) (bits mem (I_position t (slot bound nch ch sb)) nb)) (table_at linear_table (nb - 2)))
    (table_at sf_table (I_factor ch sb)).
End Layout.

(** ** The loops *)

Section LayerI.
Variables (W : Z) (mem : list Z).
Hypotheses (HW : 32 <= W) (Hmem : bytes_ok mem).
Variables (i0 nch bound : Z).
Hypotheses (Hnch : nch = 1 \/ nch = 2) (Hbound : 0 <= bound <= 32).
Hypothesis Hroom : I_end mem i0 nch bound <= 8 * zlen mem.

Abbreviation code := (I_code mem i0).
Abbreviation width := (I_width mem i0 nch bound).
Abbreviation factor := (optional_value mem nch 6 width (I_factors i0 nch bound)).
Abbreviation fields := (I_fields nch bound).

Lemma code_range j : 0 <= code j < 16.
Proof using. unfold I_code. by apply (bits_range mem _ 4). Qed.

Lemma code_bits j : code j <> 15 -> I_bits (code j) = 0 \/ 2 <= I_bits (code j) <= 15.
Proof using. pose proof (code_range j). unfold I_bits. destruct (Z.eqb_spec (code j) 0); cbn [negb]; lia. Qed.

Lemma code_bits_pos j : 0 <= I_bits (code j).
Proof using. pose proof (code_range j). unfold I_bits. destruct (Z.eqb_spec (code j) 0); cbn [negb]; lia. Qed.

Lemma fields_pos : 0 <= fields.
Proof. unfold I_fields, slots. destruct Hnch; subst nch; lia. Qed.

Lemma low_field sb ch : 0 <= sb < bound -> 0 <= ch < nch -> 0 <= sb * nch + ch < fields.
Proof.
  intros Hsb Hch. rewrite <- (slot_low bound nch ch sb) by lia. by apply slot_range; try lia.
Qed.

Lemma high_field sb : bound <= sb < 32 -> 0 <= bound * nch + (sb - bound) < fields.
Proof.
  intros Hsb. rewrite <- (slot_high bound nch 0 sb) by lia. apply slot_range; lia.
Qed.

Lemma instant_pos : 0 <= I_instant mem i0 nch bound.
Proof.
  rewrite <- (psum_0 (fun j => I_bits (code j))). apply psum_mono; [split; [lia|apply fields_pos]|]. intros. apply code_bits_pos.
Qed.

Lemma samples_start : I_factors i0 nch bound <= I_samples mem i0 nch bound <= 8 * zlen mem.
Proof.
  pose proof instant_pos. unfold I_end, I_samples in *.
  pose proof (psum_mono (I_factor_bits mem i0 nch bound) 0 (32 * nch) ltac:(lia) ltac:(intros; apply optional_bits_pos; lia)) as H1.
  rewrite psum_0 in H1. lia.
Qed.

(** Allocations: the widths are stored, or the first forbidden code ends the function. *)
Definition bad_code (k : Z) : Prop := code k = 15 /\ forall k', 0 <= k' < k -> code k' <> 15.

Definition alloc_inv (j : Z) (st : Z * mad_bitptr * list (list Z)) : Prop :=
  let '(err, p, a) := st in
  (err = 0 /\ bitptr_ok mem p /\ pos p = i0 + 4 * j /\ (forall k, 0 <= k < j -> code k <> 15) /\ fields_stored bound 32 nch width j a) \/
  (err = MAD_ERROR_BADBITALLOC /\ exists k, 0 <= k < j /\ bad_code k /\ bitptr_ok mem p /\ pos p = i0 + 4 * (k + 1)).

Lemma allocation_step j st store : alloc_inv j st -> 0 <= j < fields ->
  (forall a, fields_stored bound 32 nch width j a ->
     exists a', store a (I_bits (code j)) = Some a' /\ fields_stored bound 32 nch width (j + 1) a') ->
  exists st', I_allocation W mem store st = Some st' /\ alloc_inv (j + 1) st'.
Proof.
  destruct st as [[err p] a]. intros Hst Hj Hstore. unfold I_allocation.
  destruct Hst as [(->&Hp&Hpos&Hok&Ha)|(->&k&Hk&Hbad&Hp&Hpos)]; cbn [negb Z.eqb].
  - pose proof samples_start as [Hs1 Hs2]. unfold I_factors in Hs1.
    destruct (read_exact W mem HW Hmem p 4 Hp) as (p'&->&Hp'&Hpos'); [lia|lia|]. cbn [mbind option_bind].
    rewrite Hpos. fold (code j). destruct (Z.eqb_spec (code j) 15) as [E|Hne].
    + eexists. split; [done|]. right. split; [done|]. exists j. split; [lia|]. split; [by split|]. split; [done|lia].
    + fold (I_bits (code j)). destruct (Hstore a Ha) as (a'&->&Ha'). cbn [mbind option_bind]. eexists. split; [done|]. left.
      split; [done|]. split; [done|]. split; [lia|]. split; [|done]. intros k Hk. destruct (Z.eq_dec k j) as [->|]; [done|]. apply Hok. lia.
  - eexists. split; [done|]. right. split; [done|]. exists k. split; [lia|done].
Qed.

Lemma allocations p a : bitptr_ok mem p -> pos p = i0 -> grid 2 32 a ->
  exists st', each_subband bound 32 nch (fun ch sb => I_allocation W mem (fun a v => set2 a ch sb v))
    (fun sb => I_allocation W mem (store_both sb)) (0, p, a) = Some st' /\ alloc_inv fields st'.
Proof.
  intros Hp Hpos Ha. apply each_subband_inv; [done|lia| | |].
  - left. split; [done|]. split; [done|]. split; [lia|]. split; [lia|]. split; [done|]. by apply before_0.
  - intros sb ch st Hsb Hch Hst. apply allocation_step; [done|by apply low_field|].
    intros a' Ha'. assert (I_bits (code (sb * nch + ch)) = width ch sb) as -> by (unfold I_width; by rewrite slot_low by lia).
    by apply (store_one_stored bound 32 nch).
  - intros sb st Hsb Hst. apply allocation_step; [done|by apply high_field|].
    intros a' Ha'. apply (store_both_stored bound 32 nch); try done. intros ch Hch. unfold I_width. by rewrite slot_high by lia.
Qed.

(** Scale factors. *)
Section Coded.
Variable a : list (list Z).
Hypothesis Ha : forall ch sb, 0 <= ch < nch -> 0 <= sb < 32 -> get2 a ch sb = Some (width ch sb).
Hypothesis Hcodes : forall k, 0 <= k < fields -> code k <> 15.

Lemma width_cases ch sb : 0 <= ch < nch -> 0 <= sb < 32 -> width ch sb = 0 \/ 2 <= width ch sb <= 15.
Proof. intros Hch Hsb. apply code_bits, Hcodes. by apply slot_range. Qed.

Abbreviation factor_stored := (optional_stored mem nch 6 width (I_factors i0 nch bound)).

Lemma scale_factors p sf : bitptr_ok mem p -> pos p = I_factors i0 nch bound -> grid 2 32 sf ->
  exists p' sf', for_range 0 32 (fun sb => for_range 0 nch (fun ch => I_scalefactor W mem a ch sb)) (p, sf) = Some (p', sf') /\
    bitptr_ok mem p' /\ pos p' = I_samples mem i0 nch bound /\
    forall ch sb, 0 <= ch < nch -> 0 <= sb < 32 -> factor_stored sf' ch sb.
Proof. apply (optional_fields W mem HW Hmem 32 nch 6); [lia|done|lia|done|]. apply samples_start. Qed.

(** Samples. *)
Lemma I_sample_spec p nb : bitptr_ok mem p -> 2 <= nb <= 15 -> pos p + nb <= 8 * zlen mem ->
  exists p', I_sample W mem p nb = Some (mad_f_mul W (level_input nb (2 ^ nb - 1) (bits mem (pos p) nb)) (table_at linear_table (nb - 2)), p') /\
    bitptr_ok mem p' /\ pos p' = pos p + nb.
Proof using HW Hmem.
  intros Hp Hnb Hin. unfold I_sample. destruct (read_exact W mem HW Hmem p nb Hp) as (p'&->&Hp'&Hpos'); [lia|lia|]. cbn [mbind option_bind].
  destruct (I_class_ok nb Hnb) as (C&E&Hc). rewrite E. cbn [mbind option_bind]. rewrite (table_at_Some _ _ _ E).
  rewrite (level_s32 nb (2 ^ nb - 1) C) by (done || (apply bits_range; lia) || by right). by exists p'.
Qed.

Variable sf : list (list Z).
Hypothesis Hsf : forall ch sb, 0 <= ch < nch -> 0 <= sb < 32 -> factor_stored sf ch sb.
Variable rows0 : list (list (list Z)).

Abbreviation value := (I_value W mem i0 nch bound).

Definition sample_inv (t j : Z) (st : mad_bitptr * list (list (list Z))) : Prop :=
  let '(p, rows) := st in
  bitptr_ok mem p /\ pos p = I_position mem i0 nch bound t j /\ wrote value (sample_done bound 32 nch 1 t j) rows0 rows.

Lemma position_room t j : 0 <= t < 12 -> 0 <= j < fields ->
  I_position mem i0 nch bound t (j + 1) = I_position mem i0 nch bound t j + I_bits (code j) /\
  I_position mem i0 nch bound t (j + 1) <= 8 * zlen mem.
Proof.
  intros Ht Hj. unfold I_position. rewrite psum_S by lia. split; [lia|]. unfold I_end in Hroom. pose proof instant_pos as Hi.
  assert (psum (fun j => I_bits (code j)) j + I_bits (code j) <= I_instant mem i0 nch bound).
  { apply (psum_field (fun j => I_bits (code j)) j fields); [done|]. intros. apply code_bits_pos. }
  assert ((t + 1) * I_instant mem i0 nch bound <= 12 * I_instant mem i0 nch bound) by (apply Z.mul_le_mono_nonneg_r; lia). lia.
Qed.

(** The value of a field that is there, and of one that is not. *)
Lemma store_spec t ch sb rows : 0 <= t < 12 -> 0 <= ch < nch -> 0 <= sb < 32 -> width ch sb <> 0 -> cube 2 36 32 rows ->
  exists rows', I_store W sf t sb (mad_f_mul W (level_input (width ch sb) (2 ^ width ch sb - 1)
      (bits mem (I_position mem i0 nch bound t (slot bound nch ch sb)) (width ch sb))) (table_at linear_table (width ch sb - 2))) ch rows = Some rows' /\
    wrote value (fun ch' t' sb' => (ch' =? ch) && (t' =? t) && (sb' =? sb)) rows rows'.
Proof.
  intros Ht Hch Hsb Hw Hc. unfold I_store. rewrite (Hsf ch sb Hch Hsb Hw). cbn [mbind option_bind].
  destruct (sf_entry (factor ch sb)) as (x&E&_); [by apply (bits_range mem _ 6)|]. rewrite E. cbn [mbind option_bind].
  apply wrote_set; [done|lia|lia|lia|]. unfold I_value, I_factor. rewrite (proj2 (Z.eqb_neq _ 0)) by done. by rewrite (table_at_Some _ _ _ E).
Qed.

Lemma zero_spec t ch sb rows : 0 <= t < 12 -> 0 <= ch < nch -> 0 <= sb < 32 -> width ch sb = 0 -> cube 2 36 32 rows ->
  exists rows', set3 rows ch t sb 0 = Some rows' /\ wrote value (fun ch' t' sb' => (ch' =? ch) && (t' =? t) && (sb' =? sb)) rows rows'.
Proof. intros Ht Hch Hsb Hw Hc. apply wrote_set; [done|lia|lia|lia|]. unfold I_value. by rewrite Hw. Qed.

(** All channels of a subband. *)
Lemma channels_spec t sb body rows : 0 <= t < 12 -> 0 <= sb < 32 -> cube 2 36 32 rows ->
  (forall ch rows, 0 <= ch < nch -> cube 2 36 32 rows ->
     exists rows', body ch rows = Some rows' /\ wrote value (fun ch' t' sb' => (ch' =? ch) && (t' =? t) && (sb' =? sb)) rows rows') ->
  exists rows', for_range 0 nch body rows = Some rows' /\ wrote value (fun ch t' sb' => (ch <? nch) && (t' / 1 =? t) && (sb' =? sb)) rows rows'.
Proof.
  intros Ht Hsb Hc Hbody. destruct (wrote_range value (fun ch _ _ => ch) (fun _ t' sb' => (t' =? t) && (sb' =? sb)) 0 nch body rows) as (rows'&->&H);
    [lia|done| |].
  - intros ch rows1 Hch Hc1. destruct (Hbody ch rows1 Hch Hc1) as (rows2&->&H2). exists rows2. split; [done|].
    eapply wrote_ext; [|exact H2]. intros. by rewrite andb_assoc.
  - exists rows'. split; [done|]. eapply wrote_ext; [|exact H]. intros ch t' sb' Hch Ht' Hsb'. cbv beta.
    rewrite Z.div_1_r, (proj2 (Z.leb_le 0 ch)), andb_assoc by lia. done.
Qed.

Lemma one_step t ch sb st : 0 <= t < 12 -> 0 <= sb < bound -> 0 <= ch < nch -> sample_inv t (sb * nch + ch) st ->
  exists st', I_one W mem a sf t ch sb st = Some st' /\ sample_inv t (sb * nch + ch + 1) st'.
Proof.
  destruct st as [p rows]. intros Ht Hsb Hch (Hp&Hpos&Hw). unfold I_one. rewrite Ha by lia. cbn [mbind option_bind].
  destruct (position_room t (sb * nch + ch) Ht) as [Hnext Hin]; [by apply low_field|].
  assert (slot bound nch ch sb = sb * nch + ch) as Es by (apply slot_low; lia).
  assert (I_bits (code (sb * nch + ch)) = width ch sb) as Ew by (unfold I_width; by rewrite Es). rewrite Ew in Hnext.
  assert (forall rows', wrote value (fun ch' t' sb' => (ch' =? ch) && (t' =? t) && (sb' =? sb)) rows rows' ->
    wrote value (sample_done bound 32 nch 1 t (sb * nch + ch + 1)) rows0 rows') as Hadd.
  { intros rows' H. apply (cells_one value bound 32 nch 1 Hbound Hnch rows0 t ch sb rows); try done.
    eapply wrote_ext; [|exact H]. intros. cbv beta. by rewrite Z.div_1_r. }
  destruct (Z.eqb_spec (width ch sb) 0) as [E|Hne]; cbn [negb].
  - destruct (zero_spec t ch sb rows) as (rows'&->&H); try done; [lia|apply Hw|]. cbn [mbind option_bind].
    eexists. split; [done|]. split; [done|]. split; [lia|]. by apply Hadd.
  - destruct (I_sample_spec p (width ch sb) Hp) as (p'&->&Hp'&Hpos'); [destruct (width_cases ch sb); lia|lia|]. cbn [mbind option_bind].
    destruct (store_spec t ch sb rows) as (rows'&E'&H); try done; [lia|apply Hw|]. rewrite Es, <- Hpos in E'. rewrite E'. cbn [mbind option_bind].
    eexists. split; [done|]. split; [done|]. split; [lia|]. by apply Hadd.
Qed.

Lemma both_step t sb st : 0 <= t < 12 -> bound <= sb < 32 -> sample_inv t (bound * nch + (sb - bound)) st ->
  exists st', I_both W mem a sf nch t sb st = Some st' /\ sample_inv t (bound * nch + (sb - bound) + 1) st'.
Proof.
  destruct st as [p rows]. intros Ht Hsb (Hp&Hpos&Hw). unfold I_both. rewrite Ha by lia. cbn [mbind option_bind].
  destruct (position_room t (bound * nch + (sb - bound)) Ht) as [Hnext Hin]; [by apply high_field|].
  assert (forall ch, slot bound nch ch sb = bound * nch + (sb - bound)) as Es by (intros; apply slot_high; lia).
  assert (forall ch, width ch sb = width 0 sb) as Ew by (intros; unfold I_width; by rewrite !Es).
  assert (I_bits (code (bound * nch + (sb - bound))) = width 0 sb) as E0 by (unfold I_width; by rewrite Es). rewrite E0 in Hnext.
  destruct (Z.eqb_spec (width 0 sb) 0) as [E|Hne]; cbn [negb].
  - destruct (channels_spec t sb (fun ch rows => set3 rows ch t sb 0) rows) as (rows'&->&H); try done; [lia|apply Hw| |].
    + intros ch rows1 Hch Hc1. apply zero_spec; try done; [lia|]. by rewrite Ew.
    + cbn [mbind option_bind]. eexists. split; [done|]. split; [done|]. split; [lia|].
      by apply (cells_both value bound 32 nch 1 Hnch rows0 t sb rows).
  - destruct (I_sample_spec p (width 0 sb) Hp) as (p'&->&Hp'&Hpos'); [destruct (width_cases 0 sb); lia|lia|]. cbn [mbind option_bind].
    destruct (channels_spec t sb (I_store W sf t sb (mad_f_mul W (level_input (width 0 sb) (2 ^ width 0 sb - 1) (bits mem (pos p) (width 0 sb)))
      (table_at linear_table (width 0 sb - 2)))) rows) as (rows'&->&H); try done; [lia|apply Hw| |].
    + intros ch rows1 Hch Hc1. pose proof (store_spec t ch sb rows1 Ht Hch ltac:(lia)) as Hs. rewrite Es, Ew, <- Hpos in Hs. by apply Hs.
    + cbn [mbind option_bind]. eexists. split; [done|]. split; [done|]. split; [lia|].
      by apply (cells_both value bound 32 nch 1 Hnch rows0 t sb rows).
Qed.

Lemma samples_read p : bitptr_ok mem p -> pos p = I_samples mem i0 nch bound -> cube 2 36 32 rows0 ->
  exists p' rows, for_range 0 12 (fun t => each_subband bound 32 nch (I_one W mem a sf t) (I_both W mem a sf nch t)) (p, rows0) = Some (p', rows) /\
    bitptr_ok mem p' /\ pos p' = I_end mem i0 nch bound /\ wrote value (sample_done bound 32 nch 1 12 0) rows0 rows.
Proof.
  intros Hp Hpos Hc. destruct (for_range_inv (fun t => sample_inv t 0) 0 12
    (fun t => each_subband bound 32 nch (I_one W mem a sf t) (I_both W mem a sf nch t)) (p, rows0)) as ([p' rows]&E&Hp'&Hpos'&Hw); [lia| | |].
  - split; [done|]. unfold I_position. rewrite psum_0. split; [lia|]. by apply (written_start value bound 32 nch 1 Hbound Hnch).
  - intros t st Ht Hst. destruct (each_subband_inv (sample_inv t) bound 32 nch (I_one W mem a sf t) (I_both W mem a sf nch t) st)
      as ([p1 rows1]&->&Hp1&Hpos1&Hw1); [done|lia|done| | |].
    + intros sb ch st1 Hsb Hch. by apply one_step.
    + intros sb st1 Hsb. by apply both_step.
    + eexists. split; [done|]. split; [done|]. split.
      * rewrite Hpos1. unfold I_position. rewrite psum_0. fold fields (I_instant mem i0 nch bound). lia.
      * apply (written_next value bound 32 nch 1 Hbound Hnch rows0 t rows1); [done|].
        eapply wrote_ext; [|apply wrote_none, Hw1]. intros. cbv beta. rewrite (proj2 (Z.leb_gt 32 sb)) by lia. by rewrite andb_false_r.
  - exists p', rows. split; [done|]. split; [done|]. split; [|done]. rewrite Hpos'. unfold I_position, I_end. rewrite psum_0. lia.
Qed.
End Coded.
End LayerI.

(** ** Frames *)

Section Outcome.
Variables (W : Z) (mem : list Z) (s : mad_stream) (f : mad_frame).

Abbreviation start := (pos (ptr s)).
Abbreviation nch := (MAD_NCHANNELS (header f)).
Abbreviation bound := (frame_bound (header f)).

(** The header a frame leaves: the CRC covers the allocations. *)
Definition I_header : mad_header := crc_header mem start (4 * I_fields nch bound) (joint_header (header f)).

(** The ways a call ends: result, error, pointer and samples. *)
Inductive I_outcome : Z -> Z -> mad_bitptr -> list (list (list Z)) -> Prop :=
| I_bad_crc : crc_good (fr_options f) I_header = false -> I_outcome (-1) MAD_ERROR_BADCRC (ptr s) (sbsample f)
| I_bad_allocation k p : crc_good (fr_options f) I_header = true -> 0 <= k < I_fields nch bound -> bad_code mem start k ->
    bitptr_ok mem p -> pos p = start + 4 * (k + 1) -> I_outcome (-1) MAD_ERROR_BADBITALLOC p (sbsample f)
| I_decoded p rows : crc_good (fr_options f) I_header = true -> (forall k, 0 <= k < I_fields nch bound -> I_code mem start k <> 15) ->
    bitptr_ok mem p -> pos p = I_end mem start nch bound -> cube 2 36 32 rows ->
    (forall ch t sb, 0 <= ch < 2 -> 0 <= t < 36 -> 0 <= sb < 32 ->
       get3 rows ch t sb = if (ch <? nch) && (t <? 12) then Some (I_value W mem start nch bound ch t sb) else get3 (sbsample f) ch t sb) ->
    I_outcome 0 (error s) p rows.
End Outcome.

Lemma layer_I_spec W mem a0 sf0 s f : 32 <= W -> bytes_ok mem -> bitptr_ok mem (ptr s) -> grid 2 32 a0 -> grid 2 32 sf0 ->
  cube 2 36 32 (sbsample f) -> header_fields (header f) ->
  I_end mem (pos (ptr s)) (MAD_NCHANNELS (header f)) (frame_bound (header f)) <= 8 * zlen mem ->
  exists res err p rows, mad_layer_I W mem a0 sf0 s f =
    Some (res, set_error (set_ptr s p) err, MkFrame (I_header mem s f) (fr_options f) rows (overlap f)) /\
    I_outcome W mem s f res err p rows.
Proof.
  intros HW Hmem Hp Ha0 Hsf0 Hrows Hh Hroom. unfold mad_layer_I. rewrite joint_bound_spec by done.
  pose proof (frame_bound_range _ Hh) as Hb. pose proof (nchannels (header f)) as Hn.
  set (nch := MAD_NCHANNELS (header f)) in *. set (bound := frame_bound (header f)) in *. set (i0 := pos (ptr s)) in *.
  assert (0 <= i0) as Hi0 by (destruct Hp; unfold i0, pos; lia).
  pose proof (samples_start mem i0 nch bound Hn Hb Hroom) as [Hs1 Hs2]. unfold I_factors in Hs1.
  assert (0 <= I_fields nch bound <= 64) as Hf0 by (unfold I_fields, slots; destruct Hn as [E|E]; rewrite E; lia).
  assert (u32 (4 * u32 (bound * nch + (32 - bound))) = 4 * I_fields nch bound) as ->.
  { unfold I_fields, slots in *. rewrite (wrapu_small 32 (bound * nch + _)), wrapu_small; [done|..]; change (2 ^ 32) with 4294967296; lia. }
  rewrite bits_crc_spec; [|done|done|done|by apply joint_crc|lia|fold i0; lia].
  cbn [mbind option_bind set_header header fr_options]. change (crc_header mem (pos (ptr s)) _ _) with (I_header mem s f).
  destruct (crc_good (fr_options f) (I_header mem s f)) eqn:Ecrc; cbn [negb].
  2: { exists (-1), MAD_ERROR_BADCRC, (ptr s), (sbsample f). split; [by rewrite same_ptr|by apply I_bad_crc]. }
  destruct (allocations W mem HW Hmem i0 nch bound Hn Hb Hroom (ptr s) a0 Hp eq_refl Ha0) as ([[err p] a]&->&[(->&Hp1&Hpos1&Hok&Ha)|(->&k&Hk&Hbad&Hp1&Hpos1)]);
    cbn [mbind option_bind negb Z.eqb].
  2: { exists (-1), MAD_ERROR_BADBITALLOC, p, (sbsample f). split; [done|]. by apply (I_bad_allocation _ _ _ _ k). }
  assert (forall ch sb, 0 <= ch < nch -> 0 <= sb < 32 -> get2 a ch sb = Some (I_width mem i0 nch bound ch sb)) as Hget.
  { intros ch sb. apply (before_all bound 32 nch Hb Hn _ ch sb (proj2 Ha)). }
  destruct (scale_factors W mem HW Hmem i0 nch bound Hn Hb Hroom a Hget p sf0 Hp1) as (p2&sf&->&Hp2&Hpos2&Hsf); [exact Hpos1|done|].
  cbn [mbind option_bind set_header header fr_options sbsample overlap].
  destruct (samples_read W mem HW Hmem i0 nch bound Hn Hb Hroom a Hget Hok sf Hsf (sbsample f) p2 Hp2 Hpos2 Hrows) as (p3&rows&->&Hp3&Hpos3&Hw&Hc).
  exists 0, (error s), p3, rows. split; [by rewrite same_error|]. apply I_decoded; try done.
  intros ch t sb Hch Ht Hsb. rewrite Hc by done. unfold sample_done. rewrite Z.div_1_r.
  fold nch bound i0. destruct (Z.ltb_spec ch nch); cbn [andb]; [|done].
  rewrite (proj2 (Z.ltb_ge (slot bound nch ch sb) 0)), andb_false_r, orb_false_r; [done|].
  apply (slot_range bound 32 nch Hb Hn); lia.
Qed.

(** C11: Layer I frames.  On any bytes behind the header of a Layer I frame, in every mode
    and at every bound of joint stereo, [mad_layer_I] fails with a bad CRC, or at the first forbidden
    allocation, or decodes the frame: each allocation, scale factor and sample is
    taken from its place in the layout of the format (present fields only, shared fields once), every
    sample of every channel is its number requantized and scaled, no other
    sample changes, and the pointer ends behind the frame.  What the arrays on the stack hold is
    never used. *)
Theorem mad_layer_I_correct W mem a0 sf0 s f : 32 <= W -> bytes_ok mem -> bitptr_ok mem (ptr s) -> grid 2 32 a0 -> grid 2 32 sf0 ->
  cube 2 36 32 (sbsample f) -> header_fields (header f) ->
  I_end mem (pos (ptr s)) (MAD_NCHANNELS (header f)) (frame_bound (header f)) <= 8 * zlen mem ->
  exists res err p rows, mad_layer_I W mem a0 sf0 s f =
    Some (res, set_error (set_ptr s p) err, MkFrame (I_header mem s f) (fr_options f) rows (overlap f)) /\
    I_outcome W mem s f res err p rows.
Proof. apply layer_I_spec. Qed.

Lemma mad_layer_I_correct_witness :
  let mem := repeat 0x10 116 in
  let s := MkStream 116 0 1 0 0 116 (mad_bit_init 4) 0 0 in
  let f := MkFrame (MkHeader 1 2 1 0 384000 44100 0 0 0 0 (MkTimer 0 0)) 0 (repeat (repeat (repeat 5 32) 36) 2) None in
  exists res err p rows, mad_layer_I 64 mem (repeat (repeat 7 32) 2) (repeat (repeat 9 32) 2) s f =
    Some (res, set_error (set_ptr s p) err, MkFrame (I_header mem s f) 0 rows None) /\ I_outcome 64 mem s f res err p rows.
Proof.
  intros mem s f. apply (mad_layer_I_correct 64 mem).
  - apply Z.leb_le. reflexivity.
  - apply (bool_decide_unpack _). vm_compute. exact I.
  - by apply bit_init_ok.
  - split; [reflexivity|]. repeat constructor.
  - split; [reflexivity|]. repeat constructor.
  - split; [reflexivity|]. repeat constructor.
  - split; [intros _; split; [apply Z.leb_le|apply Z.ltb_lt]; reflexivity|intros H; discriminate H].
  - apply Z.leb_le. vm_compute. reflexivity.
Defined.
