(* ===== verification/MadLayerII.v ===== *)
(** Layer II frames of any bytes: what [mad_layer_II] of [src/libmad/layer12.c] makes of the bits of
    a frame, field by field, and when it refuses one. *)
From S2P Require Import Prelude BitString MadBit MadTimer MadFrame MadRequantize MadStereo MadLayer3 MadHybrid MadLayer12 MadSubbands.

(** ** The tables of the standard

    Tables B.2a to B.2d of ISO 11172-3 and table B.1 of ISO 13818-3, written down apart from those of the code: the
    number of coded subbands and, for each of them, the numbers of steps that the codes 1, 2, ... of an allocation
    stand for. *)

Inductive standard_table := B2a | B2b | B2c | B2d | B1_lsf.

Definition standard_limit (T : standard_table) : Z :=
  match T with B2a => 27 | B2b => 30 | B2c => 8 | B2d => 12 | B1_lsf => 30 end.

(** The numbers [2 ^ n - 1] of steps from [n = lo] to [hi]. *)
Definition steps (lo hi : Z) : list Z := map (fun n => 2 ^ n - 1) (seqZ lo (hi - lo + 1)).

Definition standard_levels (T : standard_table) (sb : Z) : list Z :=
  match T with
  | B2a | B2b =>
      if sb <? 3 then 3 :: steps 3 16
      else if sb <? 11 then [3; 5; 7; 9] ++ steps 4 13 ++ [65535]
      else if sb <? 23 then [3; 5; 7; 9; 15; 31; 65535]
      else [3; 5; 65535]
  | B2c | B2d => if sb <? 2 then [3; 5; 9] ++ steps 4 15 else [3; 5; 9; 15; 31; 63; 127]
  | B1_lsf =>
      if sb <? 4 then [3; 5; 7; 9] ++ steps 4 14
      else if sb <? 11 then [3; 5; 9; 15; 31; 63; 127]
      else [3; 5; 9]
  end.

(** Which table a frame uses; a single channel above 192 kbit/s is forbidden. *)
Definition standard_choice (h : mad_header) : option standard_table :=
  let per_channel := if mode h =? 0 then bitrate h else bitrate h / 2 in
  let high := if samplerate h =? 48000 then B2a else B2b in
  let low := if samplerate h =? 32000 then B2d else B2c in
  if bitset (flags h) MAD_FLAG_LSF_EXT then Some B1_lsf
  else if bitset (flags h) MAD_FLAG_FREEFORMAT then Some high
  else if (mode h =? 0) && (192000 <? bitrate h) then None
  else if per_channel <=? 48000 then Some low
  else if per_channel <=? 80000 then Some B2a
  else Some high.

(** Three samples of 3, 5 or 9 steps share one code; others have one each.  The constants are those of the code:
    how close they are to the standard's is [layer12_sample_correct]. *)
Definition standard_class (n : Z) : quantclass :=
  let c := default (MkQuantclass 0 0 0 0 0) (find (fun qc => qc_nlevels qc =? n) qc_table) in
  let grouped := bool_decide (n ∈ [3; 5; 9]) in
  MkQuantclass n (if grouped then Z.log2_up n else 0) (if grouped then Z.log2_up (n * n * n) else Z.log2 (n + 1)) (qc_C c) (qc_D c).

#[export] Instance quantclass_eq_dec : EqDecision quantclass.
Proof. solve_decision. Defined.

(** ** The layout of a frame *)

Section Layout.
Variables (W : Z) (mem : list Z).
(** Where the frame starts, the number of channels, the bound of joint stereo, the number of coded
    subbands and the table of the standard. *)
Variables (i0 nch bound limit : Z) (T : standard_table).

Definition II_fields : Z := slots bound limit nch.

Definition II_nbal (sb : Z) : Z := Z.log2 (zlen (standard_levels T sb) + 1).

Definition II_code_bits (j : Z) : Z := II_nbal (slot_sb bound nch j).

Definition II_code (j : Z) : Z := bits mem (i0 + psum II_code_bits j) (II_code_bits j).

Definition II_alloc (ch sb : Z) : Z := II_code (slot bound nch ch sb).

(** Scale factor selections of the coded subbands. *)
Definition II_selects : Z := i0 + psum II_code_bits II_fields.

Definition II_select : Z -> Z -> Z := optional_value mem nch 2 II_alloc II_selects.

Definition II_factors : Z := II_selects + psum (optional_bits nch 2 II_alloc) (limit * nch).

(** How many scale factors a selection stands for, and which of them each third of the
    frame takes. *)
Definition select_count (k : Z) : Z := table_at [3; 2; 1; 2] k.

Definition select_index (k third : Z) : Z := table_at (nth (Z.to_nat k) [[0; 1; 2]; [0; 0; 1]; [0; 0; 0]; [0; 1; 1]] []) third.

Definition II_factor_bits (k : Z) : Z :=
  if II_alloc (k mod nch) (k / nch) =? 0 then 0 else 6 * select_count (II_select (k mod nch) (k / nch)).

Definition II_factor (ch sb third : Z) : Z :=
  bits mem (II_factors + psum II_factor_bits (sb * nch + ch) + 6 * select_index (II_select ch sb) third) 6.

Definition II_samples_at : Z := II_factors + psum II_factor_bits (limit * nch).

Definition II_quantclass (sb code : Z) : quantclass := standard_class (nth (Z.to_nat (code - 1)) (standard_levels T sb) 0).

(** The bits of the three samples of a field. *)
Definition class_bits (qc : quantclass) : Z := if negb (qc_group qc =? 0) then qc_bits qc else 3 * qc_bits qc.

Definition II_bits (j : Z) : Z := if II_code j =? 0 then 0 else class_bits (II_quantclass (slot_sb bound nch j) (II_code j)).

Definition II_granule_bits : Z := psum II_bits II_fields.

Definition II_position (g j : Z) : Z := II_samples_at + g * II_granule_bits + psum II_bits j.

Definition II_end : Z := II_samples_at + 12 * II_granule_bits.

(** Number [s] of the three at position [at_bit]. *)
Definition class_number (qc : quantclass) (at_bit s : Z) : Z :=
  if negb (qc_group qc =? 0) then bits mem at_bit (qc_bits qc) / qc_nlevels qc ^ s mod qc_nlevels qc
  else bits mem (at_bit + s * qc_bits qc) (qc_bits qc).

Definition class_level (qc : quantclass) (at_bit s : Z) : Z :=
  mad_f_mul W (level_input (qc_width qc) (qc_nlevels qc) (class_number qc at_bit s)) (qc_C qc).

(** The sample of subband [sb] at instant [t]. *)
Definition II_value (ch t sb : Z) : Z :=
  if (limit <=? sb) || (II_alloc ch sb =? 0) then 0 else
  mad_f_mul W (class_level (II_quantclass sb (II_alloc ch sb)) (II_position (t / 3) (slot bound nch ch sb)) (t mod 3))
    (table_at sf_table (II_factor ch sb (t / 12))).
End Layout.

(** ** The rows of the tables *)

Definition band_check (T : standard_table) (offsets : list Z) (sb : Z) : bool :=
  match aget offsets sb with
  | Some o =>
    match aget bitalloc_table o with
    | Some (nbal, _) => (II_nbal T sb =? nbal) && (2 <=? nbal) && (nbal <=? 4) &&
        forallb (fun code => bool_decide (II_class offsets sb code = Some (II_quantclass T sb code)) && qc_ok (II_quantclass T sb code)) (seqZ 1 (2 ^ nbal - 1))
    | None => false
    end
  | None => false
  end.

Definition row_check (T : standard_table) (row : Z * list Z) : bool :=
  (fst row =? standard_limit T) && (8 <=? fst row) && (fst row <=? 30) && forallb (band_check T (snd row)) (seqZ 0 (fst row)).

(** The row that the code picks is the table of the standard. *)
Definition row_chosen (index : option Z) (T : option standard_table) : bool :=
  match index, T with
  | Some index, Some T => match aget sbquant_table index with Some row => row_check T row | None => false end
  | None, None => true
  | _, _ => false
  end.

Lemma rows_checked : forallb (fun p => row_chosen (Some p.1) (Some p.2)) [(0, B2a); (1, B2b); (2, B2c); (3, B2d); (4, B1_lsf)] = true.
Proof. vm_compute. reflexivity. Qed.

Lemma row_is_standard h : row_chosen (II_index h) (standard_choice h) = true.
Proof.
  assert (forall i T, In (i, T) [(0, B2a); (1, B2b); (2, B2c); (3, B2d); (4, B1_lsf)] -> row_chosen (Some i) (Some T) = true) as H.
  { intros i T Hin. pose proof rows_checked as Hall. rewrite forallb_forall in Hall. apply (Hall _ Hin). }
  unfold II_index, standard_choice, MAD_NCHANNELS. destruct (mode h =? 0); cbn [Z.eqb Pos.eqb andb negb]; cbv zeta;
    repeat case_test; try done; apply H; cbn; tauto.
Qed.

Section Row.
Variables (T : standard_table) (limit : Z) (offsets : list Z).
Hypothesis Hrow : row_check T (limit, offsets) = true.

Lemma row_limit : 8 <= limit <= 30.
Proof. unfold row_check in Hrow. cbn [fst snd] in Hrow. zbool. lia. Qed.

Lemma row_standard : limit = standard_limit T.
Proof. unfold row_check in Hrow. cbn [fst snd] in Hrow. zbool. lia. Qed.

Lemma row_band sb : 0 <= sb < limit -> exists o nbal offset, aget offsets sb = Some o /\ aget bitalloc_table o = Some (nbal, offset) /\
  II_nbal T sb = nbal /\ 2 <= nbal <= 4 /\
  forall code, 1 <= code < 2 ^ nbal -> II_class offsets sb code = Some (II_quantclass T sb code) /\ qc_ok (II_quantclass T sb code) = true.
Proof.
  intros Hsb. unfold row_check in Hrow. cbn [fst snd] in Hrow. apply andb_prop in Hrow as [_ H].
  apply (forall_range _ _ _ H) in Hsb as Hb. unfold band_check in Hb.
  destruct (aget offsets sb) as [o|] eqn:E1; [|done]. destruct (aget bitalloc_table o) as [[nbal offset]|] eqn:E2; [|done].
  exists o, nbal, offset. split; [done|]. split; [done|]. apply andb_prop in Hb as [Hn Hc]. split; [zbool; done|split; [zbool; lia|]].
  intros code Hcode. assert (1 <= code < 1 + (2 ^ nbal - 1)) as Hi by lia. apply (forall_range _ _ _ Hc) in Hi. cbv beta in Hi.
  apply andb_prop in Hi as [Hi ?]. by apply bool_decide_eq_true in Hi.
Qed.
End Row.

(** ** Codes of a granule *)

Section Codes.
Variables (W : Z) (mem : list Z).
Hypotheses (HW : 32 <= W) (Hmem : bytes_ok mem).

Lemma class_facts qc : qc_ok qc = true ->
  class_ok (qc_width qc) (qc_nlevels qc) (qc_C qc) (qc_D qc) = true /\ 1 <= qc_bits qc <= 16 /\ 3 <= qc_nlevels qc <= 2 ^ qc_width qc - 1 /\
  (qc_group qc = 0 -> qc_width qc = qc_bits qc /\ qc_nlevels qc = 2 ^ qc_bits qc - 1).
Proof.
  intros H. unfold qc_ok in H. apply andb_prop in H as [H H4]. apply andb_prop in H as [H H3]. apply andb_prop in H as [H H2].
  split; [done|]. split; [zbool; lia|]. split; [unfold class_ok in H; zbool; lia|]. intros E. rewrite E in H4. unfold qc_width. rewrite E. cbn in *.
  split; [done|]. by apply Z.eqb_eq.
Qed.

Lemma class_number_range qc i s : qc_ok qc = true -> 0 <= s -> 0 <= class_number mem qc i s < 2 ^ qc_width qc /\
  (class_number mem qc i s < qc_nlevels qc \/ qc_nlevels qc = 2 ^ qc_width qc - 1).
Proof.
  intros H Hs. destruct (class_facts qc H) as (_&Hb&Hn&Hg). unfold class_number. destruct (Z.eqb_spec (qc_group qc) 0) as [E|]; cbn [negb].
  - destruct (Hg E) as [-> Hl]. split; [apply bits_range; lia|by right].
  - pose proof (Z.mod_pos_bound (bits mem i (qc_bits qc) / qc_nlevels qc ^ s) (qc_nlevels qc) ltac:(lia)). split; [lia|left; lia].
Qed.

Lemma number_level qc i s : qc_ok qc = true -> 0 <= s ->
  II_requantize W qc (qc_width qc) (class_number mem qc i s) = class_level W mem qc i s.
Proof.
  intros H Hs. destruct (class_facts qc H) as (Hc&_). destruct (class_number_range qc i s H Hs) as [Hr Hn].
  unfold II_requantize, class_level. by rewrite (level_s32 _ _ _ _ _ Hc).
Qed.

Lemma bits_u32 i n : 0 <= n <= 16 -> u32 (bits mem i n) = bits mem i n.
Proof.
  intros Hn. apply wrapu_small. pose proof (bits_range mem i n ltac:(lia)). assert (2 ^ n <= 2 ^ 16) by (apply Z.pow_le_mono_r; lia).
  change (2 ^ 16) with 65536 in *. change (2 ^ 32) with 4294967296. lia.
Qed.

Lemma II_codes_spec p qc : qc_ok qc = true -> bitptr_ok mem p -> pos p + class_bits qc <= 8 * zlen mem ->
  exists p', II_codes W mem p qc = Some (map (class_number mem qc (pos p)) [0; 1; 2], qc_width qc, p') /\
    bitptr_ok mem p' /\ pos p' = pos p + class_bits qc.
Proof.
  intros H Hp Hin. destruct (class_facts qc H) as (_&Hb&Hn&_). unfold II_codes, class_bits, class_number, qc_width in *.
  destruct (Z.eqb_spec (qc_group qc) 0) as [E|Hne]; cbn [negb] in *.
  - destruct (read_exact W mem HW Hmem p (qc_bits qc) Hp) as (p1&->&Hp1&Hpos1); [lia|lia|]. cbn [mbind option_bind].
    destruct (read_exact W mem HW Hmem p1 (qc_bits qc) Hp1) as (p2&->&Hp2&Hpos2); [lia|lia|]. cbn [mbind option_bind].
    destruct (read_exact W mem HW Hmem p2 (qc_bits qc) Hp2) as (p3&->&Hp3&Hpos3); [lia|lia|]. cbn [mbind option_bind].
    exists p3. split; [|split; [done|lia]]. rewrite Hpos2, Hpos1, !bits_u32 by lia. cbn [map]. rewrite Z.mul_0_l, Z.add_0_r, Z.mul_1_l.
    by replace (pos p + qc_bits qc + qc_bits qc) with (pos p + 2 * qc_bits qc) by lia.
  - destruct (read_exact W mem HW Hmem p (qc_bits qc) Hp) as (p1&->&Hp1&Hpos1); [lia|lia|]. cbn [mbind option_bind].
    exists p1. split; [|split; [done|lia]]. rewrite bits_u32 by lia. cbn [map]. rewrite Z.pow_0_r, Z.div_1_r, Z.pow_1_r.
    by rewrite Z.pow_2_r, <- Z.div_div by lia.
Qed.

Lemma II_samples_spec p qc : qc_ok qc = true -> bitptr_ok mem p -> pos p + class_bits qc <= 8 * zlen mem ->
  exists p', II_samples W mem p qc = Some (map (class_level W mem qc (pos p)) [0; 1; 2], p') /\ bitptr_ok mem p' /\ pos p' = pos p + class_bits qc.
Proof.
  intros H Hp Hin. unfold II_samples. destruct (II_codes_spec p qc H Hp Hin) as (p'&->&Hp'&Hpos). cbn [mbind option_bind].
  exists p'. split; [|done]. cbn [map]. by rewrite !number_level by (done || lia).
Qed.
End Codes.

(** ** The loops *)

Section LayerII.
Variables (W : Z) (mem : list Z).
Hypotheses (HW : 32 <= W) (Hmem : bytes_ok mem).
Variables (i0 nch bound limit : Z) (T : standard_table) (offsets : list Z).
Hypotheses (Hnch : nch = 1 \/ nch = 2) (Hbound : 0 <= bound <= limit) (Hrow : row_check T (limit, offsets) = true).

Abbreviation code := (II_code mem i0 nch bound T).
Abbreviation alloc := (II_alloc mem i0 nch bound T).
Abbreviation fields := (II_fields nch bound limit).
Abbreviation code_bits := (II_code_bits nch bound T).
Abbreviation select := (II_select mem i0 nch bound limit T).
Abbreviation class sb := (II_quantclass T sb).
Abbreviation factor_bits := (II_factor_bits mem i0 nch bound limit T).
Abbreviation field_bits := (II_bits mem i0 nch bound T).

Lemma limit_range : 8 <= limit <= 30.
Proof. by apply (row_limit T limit offsets). Qed.

Lemma fields_nonneg : 0 <= fields.
Proof. unfold II_fields, slots. destruct Hnch as [E|E]; rewrite E; lia. Qed.

Lemma field_sb j : 0 <= j < fields -> 0 <= slot_sb bound nch j < limit.
Proof.
  unfold II_fields, slots, slot_sb. intros Hj. destruct (Z.ltb_spec j (bound * nch)); [|lia].
  destruct Hnch as [E|E]; rewrite E in *; zdiv.
Qed.

Lemma code_bits_range j : 0 <= j < fields -> 2 <= code_bits j <= 4.
Proof.
  intros Hj. destruct (row_band T limit offsets Hrow _ (field_sb j Hj)) as (o&n&f&_&_&E&Hn&_). unfold II_code_bits. by rewrite E.
Qed.

Lemma coded_class j : 0 <= j < fields -> code j <> 0 ->
  II_class offsets (slot_sb bound nch j) (code j) = Some (class (slot_sb bound nch j) (code j)) /\ qc_ok (class (slot_sb bound nch j) (code j)) = true.
Proof.
  intros Hj Hne. destruct (row_band T limit offsets Hrow _ (field_sb j Hj)) as (o&n&f&_&_&E&Hn&Hc). apply Hc.
  assert (0 <= code j < 2 ^ n) by (unfold II_code, II_code_bits; rewrite E; apply bits_range; lia). lia.
Qed.

Lemma field_bits_pos j : 0 <= j < fields -> 0 <= field_bits j.
Proof.
  intros Hj. unfold II_bits. destruct (Z.eqb_spec (code j) 0) as [|Hne]; [done|]. destruct (coded_class j Hj Hne) as [_ Hq].
  destruct (class_facts _ Hq) as (_&Hb&_). unfold class_bits. destruct (negb _); lia.
Qed.

Lemma count_range k : 0 <= k < 4 -> 1 <= select_count k <= 3.
Proof using. clear. intros Hk. assert (k = 0 \/ k = 1 \/ k = 2 \/ k = 3) as [-> | [-> | [-> | ->]]] by lia; by vm_compute. Qed.

Lemma select_range ch sb : 0 <= select ch sb < 4.
Proof using. unfold II_select, optional_value. by apply (bits_range mem _ 2). Qed.

Lemma factor_bits_pos k : 0 <= factor_bits k.
Proof.
  unfold II_factor_bits. destruct (_ =? 0); [done|]. pose proof (count_range _ (select_range (k mod nch) (k / nch))). lia.
Qed.

Lemma granule_bits_pos : 0 <= II_granule_bits mem i0 nch bound limit T.
Proof.
  unfold II_granule_bits. rewrite <- (psum_0 field_bits). apply psum_mono; [split; [lia|apply fields_nonneg]|]. apply field_bits_pos.
Qed.

Hypothesis Hroom : II_end mem i0 nch bound limit T <= 8 * zlen mem.

(** The parts of a frame in order. *)
Lemma parts : i0 <= II_selects i0 nch bound limit T <= II_factors mem i0 nch bound limit T /\
  II_factors mem i0 nch bound limit T <= II_samples_at mem i0 nch bound limit T <= 8 * zlen mem.
Proof.
  pose proof granule_bits_pos as Hg. pose proof limit_range. unfold II_end in Hroom.
  assert (0 <= limit * nch) by (destruct Hnch as [E|E]; rewrite E; lia).
  pose proof (psum_mono code_bits 0 fields ltac:(split; [lia|apply fields_nonneg]) ltac:(intros i Hi; pose proof (code_bits_range i Hi); lia)) as H1.
  pose proof (psum_mono (optional_bits nch 2 alloc) 0 (limit * nch) ltac:(lia) ltac:(intros; apply optional_bits_pos; lia)) as H2.
  pose proof (psum_mono factor_bits 0 (limit * nch) ltac:(lia) ltac:(intros; apply factor_bits_pos)) as H3.
  rewrite psum_0 in H1, H2, H3. unfold II_samples_at, II_factors, II_selects in *. lia.
Qed.

(** Allocations. *)
Definition alloc_inv2 (j : Z) (st : mad_bitptr * list (list Z)) : Prop :=
  let '(p, a) := st in
  bitptr_ok mem p /\ pos p = i0 + psum code_bits j /\ fields_stored bound limit nch alloc j a.

Lemma allocation_step2 j sb st store : alloc_inv2 j st -> 0 <= j < fields -> slot_sb bound nch j = sb ->
  (forall a, fields_stored bound limit nch alloc j a -> exists a', store a (code j) = Some a' /\ fields_stored bound limit nch alloc (j + 1) a') ->
  exists st', II_allocation W mem offsets store sb st = Some st' /\ alloc_inv2 (j + 1) st'.
Proof.
  destruct st as [p a]. intros (Hp&Hpos&Ha) Hj Hsb Hstore. unfold II_allocation.
  pose proof (field_sb j Hj) as Hr. rewrite Hsb in Hr. destruct (row_band T limit offsets Hrow sb Hr) as (o&n&f&->&E&En&Hn&_). cbn [mbind option_bind].
  rewrite E. cbn [mbind option_bind]. assert (code_bits j = n) as Ecb by (unfold II_code_bits; by rewrite Hsb).
  destruct (psum_field code_bits j fields Hj) as [_ Hle]; [intros i Hi; pose proof (code_bits_range i Hi); lia|]. pose proof parts as [[_ H1] [H2 H3]].
  unfold II_selects in H1. destruct (read_exact W mem HW Hmem p n Hp) as (p'&->&Hp'&Hpos'); [lia|lia|]. cbn [mbind option_bind].
  assert (u8 (bits mem (pos p) n) = code j) as ->.
  { unfold II_code. rewrite Ecb, <- Hpos. apply wrapu_small. pose proof (bits_range mem (pos p) n ltac:(lia)).
    assert (2 ^ n <= 2 ^ 4) by (apply Z.pow_le_mono_r; lia). change (2 ^ 4) with 16 in *. change (2 ^ 8) with 256. lia. }
  destruct (Hstore a Ha) as (a'&->&Ha'). cbn [mbind option_bind]. eexists. split; [done|]. split; [done|]. split; [|done].
  rewrite psum_S by lia. lia.
Qed.

Lemma allocations2 p a : bitptr_ok mem p -> pos p = i0 -> grid 2 32 a ->
  exists p' a', each_subband bound limit nch (fun ch sb => II_allocation W mem offsets (fun a v => set2 a ch sb v) sb)
    (fun sb => II_allocation W mem offsets (store_both sb) sb) (p, a) = Some (p', a') /\
    bitptr_ok mem p' /\ pos p' = II_selects i0 nch bound limit T /\
    forall ch sb, 0 <= ch < nch -> 0 <= sb < limit -> get2 a' ch sb = Some (alloc ch sb).
Proof.
  intros Hp Hpos Ha. pose proof limit_range as Hl.
  destruct (each_subband_inv alloc_inv2 bound limit nch (fun ch sb => II_allocation W mem offsets (fun a v => set2 a ch sb v) sb)
    (fun sb => II_allocation W mem offsets (store_both sb) sb) (p, a)) as ([p' a']&->&Hp'&Hpos'&Ha'); [done|lia| | | |].
  - split; [done|]. rewrite psum_0. split; [lia|]. split; [done|]. by apply before_0.
  - intros sb ch st Hsb Hch Hst. pose proof (slot_low bound nch ch sb ltac:(lia)) as Es.
    apply allocation_step2; [done|rewrite <- Es; apply slot_range; (done || lia)|rewrite <- Es; apply (slot_sb_slot bound limit); (done || lia)|].
    intros a' Ha'. replace (code (sb * nch + ch)) with (alloc ch sb) by (unfold II_alloc; by rewrite Es).
    apply (store_one_stored bound limit nch); done || lia.
  - intros sb st Hsb Hst. pose proof (slot_high bound nch 0 sb ltac:(lia)) as Es.
    apply allocation_step2; [done|rewrite <- Es; apply slot_range; (done || lia)|rewrite <- Es; apply (slot_sb_slot bound limit); (done || lia)|].
    intros a' Ha'. apply (store_both_stored bound limit nch); try done; [lia|]. intros ch Hch. unfold II_alloc. by rewrite slot_high by lia.
  - exists p', a'. split; [done|]. split; [done|]. split; [done|]. intros ch sb Hch Hsb.
    by apply (before_all bound limit nch Hbound Hnch _ ch sb (proj2 Ha')).
Qed.

(** Scale factors. *)
Section Coded.
Variable a : list (list Z).
Hypothesis Ha : forall ch sb, 0 <= ch < nch -> 0 <= sb < limit -> get2 a ch sb = Some (alloc ch sb).
Variable scfsi : list (list Z).
Hypothesis Hscfsi : forall ch sb, 0 <= ch < nch -> 0 <= sb < limit -> alloc ch sb <> 0 -> get2 scfsi ch sb = Some (select ch sb).

(** One more scale factor, and a copy of one. *)
Ltac read_factor := match goal with
  | Hp : bitptr_ok mem ?p |- context [mad_bit_read W mem ?p 6] =>
    let p' := fresh "p" in let E := fresh "E" in let H1 := fresh "Hp" in let H2 := fresh "Hpos" in
    destruct (read_exact W mem HW Hmem p 6 Hp) as (p'&E&H1&H2); [lia|lia|]; rewrite E; clear E; cbn [mbind option_bind]
  end.

Ltac set_factor := match goal with
  | Hc : cube 2 32 3 ?sf |- context [set3 ?sf ?ch ?sb ?l ?x] =>
    let sf' := fresh "sf" in let E := fresh "E" in let H1 := fresh "Hc" in let H2 := fresh "Hg" in
    destruct (cube_set 2 32 3 sf ch sb l x Hc) as (sf'&E&H1&H2); [lia..|]; rewrite E; clear E; cbn [mbind option_bind]
  end.

(** The cells of the three scale factors, in the goal that [l] is one of them. *)
Ltac check_cells := 
  intros ch' sb' l Hch' Hsb' Hl; assert (l = 0 \/ l = 1 \/ l = 2) as [-> | [-> | ->]] by lia;
  repeat match goal with H : forall i j l, _ -> _ -> _ -> get3 ?sf i j l = _ |- context [get3 ?sf _ _ _] => rewrite H by lia end;
  cbn [Z.eqb Pos.eqb]; rewrite ?andb_true_r, ?andb_false_r;
  match goal with |- context [select_index ?k ?l] => let v := eval vm_compute in (select_index k l) in change (select_index k l) with v end;
  match goal with |- context [(ch' =? ?ch) && (sb' =? ?sb)] => destruct ((ch' =? ch) && (sb' =? sb)) end; try reflexivity; do 2 f_equal; lia.

(** Reading the scale factors of one subband. *)
Lemma factors_step p sf ch sb k : bitptr_ok mem p -> cube 2 32 3 sf -> 0 <= ch < 2 -> 0 <= sb < 32 -> 0 <= k < 4 ->
  get2 a ch sb = Some (alloc ch sb) -> alloc ch sb <> 0 -> get2 scfsi ch sb = Some k -> pos p + 6 * select_count k <= 8 * zlen mem ->
  exists p' sf', II_scalefactor W mem a scfsi ch sb (p, sf) = Some (p', sf') /\ bitptr_ok mem p' /\ pos p' = pos p + 6 * select_count k /\
    cube 2 32 3 sf' /\ forall ch' sb' l, 0 <= ch' -> 0 <= sb' -> 0 <= l < 3 ->
      get3 sf' ch' sb' l = if (ch' =? ch) && (sb' =? sb) then Some (bits mem (pos p + 6 * select_index k l) 6) else get3 sf ch' sb' l.
Proof using HW Hmem.
  intros Hp Hc Hch Hsb Hk Ea Hne Ek Hin. unfold II_scalefactor. rewrite Ea. cbn [mbind option_bind].
  rewrite (proj2 (Z.eqb_neq _ _) Hne). cbn [negb].
  assert (forall q, u8 (bits mem q 6) = bits mem q 6) as Hu.
  { intros q. apply wrapu_small. pose proof (bits_range mem q 6 ltac:(lia)). change (2 ^ 6) with 64 in *. change (2 ^ 8) with 256. lia. }
  assert (1 <= select_count k) as Hcount by (apply count_range, Hk). read_factor. rewrite Hu. set_factor. rewrite Ek. cbn [mbind option_bind].
  assert (k = 0 \/ k = 1 \/ k = 2 \/ k = 3) as [-> | [-> | [-> | ->]]] by lia.
  - change (select_count 0) with 3 in *. cbn [Z.eqb Pos.eqb]. read_factor. rewrite Hu. set_factor. change (0 <=? 3) with true. cbv iota.
    read_factor. rewrite Hu. set_factor. change (bitset 0 1) with false. cbv iota.
    eexists _, _. split; [done|]. split; [done|]. split; [lia|]. split; [done|]. check_cells.
  - change (select_count 1) with 2 in *. cbn [Z.eqb Pos.eqb]. change (1 <=? 3) with true. cbv iota. cbn [mbind option_bind]. read_factor. rewrite Hu. set_factor.
    change (bitset 1 1) with true. change (1 - 1) with 0. cbv iota. rewrite Hg0, Hg, !Z.eqb_refl by lia. cbn [Z.eqb Pos.eqb andb mbind option_bind]. set_factor.
    eexists _, _. split; [done|]. split; [done|]. split; [lia|]. split; [done|]. check_cells.
  - change (select_count 2) with 1 in *. cbn [Z.eqb Pos.eqb]. rewrite Hg, !Z.eqb_refl by lia. cbn [Z.eqb Pos.eqb andb mbind option_bind]. set_factor. set_factor.
    change (bitset 2 1) with false. cbv iota. eexists _, _. split; [done|]. split; [done|]. split; [lia|]. split; [done|]. check_cells.
  - change (select_count 3) with 2 in *. cbn [Z.eqb Pos.eqb]. change (3 <=? 3) with true. cbv iota. cbn [mbind option_bind]. read_factor. rewrite Hu. set_factor.
    change (bitset 3 1) with true. change (3 - 1) with 2. cbv iota. rewrite Hg0, !Z.eqb_refl by lia. cbn [Z.eqb Pos.eqb andb mbind option_bind]. set_factor.
    eexists _, _. split; [done|]. split; [done|]. split; [lia|]. split; [done|]. check_cells.
Qed.

Abbreviation factor := (II_factor mem i0 nch bound limit T).

Definition factor_stored (sf : list (list (list Z))) (ch sb : Z) : Prop :=
  alloc ch sb <> 0 -> forall l, 0 <= l < 3 -> get3 sf ch sb l = Some (factor ch sb l).

Definition factor_inv (k : Z) (st : mad_bitptr * list (list (list Z))) : Prop :=
  let '(p, sf) := st in
  bitptr_ok mem p /\ pos p = II_factors mem i0 nch bound limit T + psum factor_bits k /\ cube 2 32 3 sf /\
  before limit limit nch k (factor_stored sf).

Lemma factor_slot ch sb : 0 <= ch < nch -> 0 <= sb ->
  factor_bits (sb * nch + ch) = if alloc ch sb =? 0 then 0 else 6 * select_count (select ch sb).
Proof.
  intros Hch Hsb. unfold II_factor_bits. rewrite (Z.add_comm _ ch), Z.mod_add, Z.mod_small, Z.div_add, (Z.div_small ch) by lia.
  by rewrite Z.add_0_l.
Qed.

Lemma factor_step sb ch st : 0 <= sb < limit -> 0 <= ch < nch -> factor_inv (sb * nch + ch) st ->
  exists st', II_scalefactor W mem a scfsi ch sb st = Some st' /\ factor_inv (sb * nch + ch + 1) st'.
Proof.
  destruct st as [p sf]. intros Hsb Hch (Hp&Hpos&Hc&Hsf). pose proof limit_range as Hl.
  assert (0 <= sb * nch + ch < limit * nch) as Hi by by apply field_index.
  pose proof (psum_mono factor_bits (sb * nch + ch + 1) (limit * nch) ltac:(lia) ltac:(intros; apply factor_bits_pos)) as Hr.
  pose proof parts as [_ [_ Hend]]. unfold II_samples_at in Hend. unfold factor_inv. rewrite psum_S, factor_slot in * by lia.
  destruct (Z.eqb_spec (alloc ch sb) 0) as [E|Hne].
  - unfold II_scalefactor. rewrite Ha, E by done. cbn [mbind option_bind negb Z.eqb].
    eexists. split; [done|]. split; [done|]. split; [lia|]. split; [done|]. eapply before_one; [exact Hnch|exact Hch|exact Hsb|exact Hsf| |].
    + intros H. by destruct H.
    + intros ch' sb' _ _ _ H. exact H.
  - destruct (factors_step p sf ch sb (select ch sb)) as (p'&sf'&->&Hp'&Hpos'&Hc'&Hg); try done; [lia|lia|apply select_range|by apply Ha|by apply Hscfsi|lia|].
    eexists. split; [done|]. split; [done|]. split; [lia|]. split; [done|]. eapply before_one; [exact Hnch|exact Hch|exact Hsb|exact Hsf| |].
    + intros _ l Hl'. rewrite Hg, !Z.eqb_refl by lia. cbn [andb]. by rewrite Hpos.
    + intros ch' sb' Hch' Hsb' Hn H Hw l Hl'. rewrite Hg, H by (done || lia).
      destruct (Z.eqb_spec ch' ch), (Z.eqb_spec sb' sb); try done. subst. by destruct Hn.
Qed.

Lemma scale_factors2 p sf : bitptr_ok mem p -> pos p = II_factors mem i0 nch bound limit T -> cube 2 32 3 sf ->
  exists p' sf', for_range 0 limit (fun sb => for_range 0 nch (fun ch => II_scalefactor W mem a scfsi ch sb)) (p, sf) = Some (p', sf') /\
    bitptr_ok mem p' /\ pos p' = II_samples_at mem i0 nch bound limit T /\
    forall ch sb, 0 <= ch < nch -> 0 <= sb < limit -> factor_stored sf' ch sb.
Proof.
  intros Hp Hpos Hc. pose proof limit_range as Hl.
  destruct (nested_inv factor_inv limit nch (II_scalefactor W mem a scfsi) (p, sf)) as ([p' sf']&E&Hp'&Hpos'&Hc'&Hall); [lia|lia| | |].
  - split; [done|]. rewrite psum_0. split; [lia|]. split; [done|]. apply before_0; [lia|done].
  - intros sb ch st Hsb Hch Hst. by apply factor_step.
  - exists p', sf'. split; [done|]. split; [done|]. split; [done|]. intros ch sb Hch Hsb.
    apply (before_all limit limit nch); [lia|done| |done|done]. unfold slots. by replace (limit * nch + (limit - limit)) with (limit * nch) by lia.
Qed.

(** Samples. *)
Variable sf : list (list (list Z)).
Hypothesis Hsf : forall ch sb, 0 <= ch < nch -> 0 <= sb < limit -> factor_stored sf ch sb.
Variable rows0 : list (list (list Z)).

Abbreviation value := (II_value W mem i0 nch bound limit T).
Abbreviation position := (II_position mem i0 nch bound limit T).

(** The three samples of a channel and a subband. *)
Definition triple (g ch sb ch' t sb' : Z) : bool := (ch' =? ch) && (t / 3 =? g) && (sb' =? sb).

Lemma triple_loop g ch sb body rows : 0 <= g < 12 -> cube 2 36 32 rows ->
  (forall s rows, 0 <= s < 3 -> cube 2 36 32 rows -> exists rows', body s rows = Some rows' /\
     wrote value (fun ch' t sb' => (ch' =? ch) && (t =? 3 * g + s) && (sb' =? sb)) rows rows') ->
  exists rows', for_range 0 3 body rows = Some rows' /\ wrote value (triple g ch sb) rows rows'.
Proof using.
  intros Hg Hc Hbody. destruct (wrote_range value (fun _ t _ => t - 3 * g) (fun ch' _ sb' => (ch' =? ch) && (sb' =? sb)) 0 3 body rows) as (rows'&->&H); [lia|done| |].
  - intros s rows1 Hs Hc1. destruct (Hbody s rows1 Hs Hc1) as (rows2&->&H2). exists rows2. split; [done|].
    eapply wrote_ext; [|exact H2]. intros ch' t sb' _ _ _. cbv beta.
    destruct (Z.eqb_spec t (3 * g + s)), (Z.eqb_spec (t - 3 * g) s), (ch' =? ch), (sb' =? sb); try done; lia.
  - exists rows'. split; [done|]. eapply wrote_ext; [|exact H]. intros ch' t sb' _ Ht _. cbv beta. unfold triple.
    destruct (Z.eqb_spec (t / 3) g), (Z.leb_spec 0 (t - 3 * g)), (Z.ltb_spec (t - 3 * g) 3), (ch' =? ch), (sb' =? sb); cbn [andb]; try done; zdiv.
Qed.

Lemma zero_triple g ch sb rows : 0 <= g < 12 -> 0 <= ch < nch -> 0 <= sb < 32 -> (sb < limit -> alloc ch sb = 0) -> cube 2 36 32 rows ->
  exists rows', II_zero g sb ch rows = Some rows' /\ wrote value (triple g ch sb) rows rows'.
Proof.
  intros Hg Hch Hsb Hz Hc. apply triple_loop; [done|done|]. intros s rows1 Hs Hc1. apply wrote_set; [done|lia|lia|lia|].
  unfold II_value. destruct (Z.leb_spec limit sb); [done|]. by rewrite (Hz ltac:(lia)).
Qed.

Lemma store_triple g ch sb p rows : 0 <= g < 12 -> 0 <= ch < nch -> 0 <= sb < limit -> alloc ch sb <> 0 ->
  pos p = position g (slot bound nch ch sb) -> cube 2 36 32 rows ->
  exists rows', II_store W sf g sb (map (class_level W mem (class sb (alloc ch sb)) (pos p)) [0; 1; 2]) ch rows = Some rows' /\
    wrote value (triple g ch sb) rows rows'.
Proof.
  intros Hg Hch Hsb Hne Hpos Hc. pose proof limit_range as Hl. apply triple_loop; [done|done|]. intros s rows1 Hs Hc1.
  assert (aget (map (class_level W mem (class sb (alloc ch sb)) (pos p)) [0; 1; 2]) s = Some (class_level W mem (class sb (alloc ch sb)) (pos p) s)) as ->.
  { assert (s = 0 \/ s = 1 \/ s = 2) as [-> | [-> | ->]] by lia; reflexivity. }
  cbn [mbind option_bind]. rewrite (Hsf ch sb Hch Hsb Hne) by zdiv. cbn [mbind option_bind].
  destruct (sf_entry (factor ch sb (g / 4))) as (x&E&_); [by apply (bits_range mem _ 6)|]. rewrite E. cbn [mbind option_bind].
  apply wrote_set; [done|lia|lia|lia|]. unfold II_value. rewrite (proj2 (Z.leb_gt limit sb)), (proj2 (Z.eqb_neq (alloc ch sb) 0)) by (done || lia). cbn [orb].
  replace ((3 * g + s) / 12) with (g / 4) by zdiv. replace ((3 * g + s) / 3) with g by zdiv. replace ((3 * g + s) mod 3) with s by zdiv.
  by rewrite (table_at_Some _ _ _ E), Hpos.
Qed.

(** All channels of a subband. *)
Lemma channel_triples g sb body rows : 0 <= g < 12 -> cube 2 36 32 rows ->
  (forall ch rows, 0 <= ch < nch -> cube 2 36 32 rows -> exists rows', body ch rows = Some rows' /\ wrote value (triple g ch sb) rows rows') ->
  exists rows', for_range 0 nch body rows = Some rows' /\ wrote value (fun ch t sb' => (ch <? nch) && (t / 3 =? g) && (sb' =? sb)) rows rows'.
Proof.
  intros Hg Hc Hbody. destruct (wrote_range value (fun ch _ _ => ch) (fun _ t sb' => (t / 3 =? g) && (sb' =? sb)) 0 nch body rows) as (rows'&->&H);
    [lia|done| |].
  - intros ch rows1 Hch Hc1. destruct (Hbody ch rows1 Hch Hc1) as (rows2&->&H2). exists rows2. split; [done|].
    eapply wrote_ext; [|exact H2]. intros. unfold triple. by rewrite andb_assoc.
  - exists rows'. split; [done|]. eapply wrote_ext; [|exact H]. intros ch t sb' Hch Ht' Hsb'. cbv beta.
    by rewrite (proj2 (Z.leb_le 0 ch)), andb_assoc by lia.
Qed.

Definition sample_inv (g j : Z) (st : mad_bitptr * list (list (list Z))) : Prop :=
  let '(p, rows) := st in
  bitptr_ok mem p /\ pos p = position g j /\ wrote value (sample_done bound limit nch 3 g j) rows0 rows.

Lemma position_room2 g j : 0 <= g < 12 -> 0 <= j < fields ->
  position g (j + 1) = position g j + field_bits j /\ position g (j + 1) <= 8 * zlen mem.
Proof.
  intros Ht Hj. unfold II_position. rewrite psum_S by lia. split; [lia|]. unfold II_end in Hroom. pose proof granule_bits_pos as Hi.
  destruct (psum_field field_bits j fields Hj field_bits_pos) as [_ H]. fold (II_granule_bits mem i0 nch bound limit T) in H.
  assert ((g + 1) * II_granule_bits mem i0 nch bound limit T <= 12 * II_granule_bits mem i0 nch bound limit T) by (apply Z.mul_le_mono_nonneg_r; lia). lia.
Qed.

(** The bits of a coded field. *)
Lemma field_class ch sb : 0 <= ch < nch -> 0 <= sb < limit -> alloc ch sb <> 0 ->
  II_class offsets sb (alloc ch sb) = Some (class sb (alloc ch sb)) /\ qc_ok (class sb (alloc ch sb)) = true /\
  field_bits (slot bound nch ch sb) = class_bits (class sb (alloc ch sb)).
Proof.
  intros Hch Hsb Hne. pose proof (slot_range bound limit nch Hbound Hnch ch sb Hch Hsb) as Hj.
  destruct (coded_class _ Hj Hne) as [H1 H2]. unfold II_bits. rewrite (proj2 (Z.eqb_neq (code _) 0)) by done.
  by rewrite (slot_sb_slot bound limit) in * by done.
Qed.

Lemma empty_field ch sb : alloc ch sb = 0 -> field_bits (slot bound nch ch sb) = 0.
Proof using. intros E. unfold II_bits. unfold II_alloc in E. by rewrite E. Qed.

Lemma one_step2 g ch sb st : 0 <= g < 12 -> 0 <= sb < bound -> 0 <= ch < nch -> sample_inv g (sb * nch + ch) st ->
  exists st', II_one W mem offsets a sf g ch sb st = Some st' /\ sample_inv g (sb * nch + ch + 1) st'.
Proof.
  destruct st as [p rows]. intros Hg Hsb Hch (Hp&Hpos&Hw). pose proof limit_range as Hl. unfold II_one. rewrite Ha by lia. cbn [mbind option_bind].
  assert (slot bound nch ch sb = sb * nch + ch) as Es by (apply slot_low; lia). rewrite <- Es in *.
  destruct (position_room2 g (slot bound nch ch sb) Hg) as [Hnext Hin]; [apply slot_range; done || lia|].
  assert (forall rows', wrote value (triple g ch sb) rows rows' -> wrote value (sample_done bound limit nch 3 g (slot bound nch ch sb + 1)) rows0 rows') as Hadd.
  { rewrite Es in *. intros rows' H. by apply (cells_one value bound limit nch 3 Hbound Hnch rows0 g ch sb rows). }
  destruct (Z.eqb_spec (alloc ch sb) 0) as [E|Hne]; cbn [negb].
  - destruct (zero_triple g ch sb rows) as (rows'&->&H); try done; [lia|apply Hw|]. cbn [mbind option_bind].
    eexists. split; [done|]. split; [done|]. split; [rewrite Hnext, empty_field by done; lia|]. by apply Hadd.
  - destruct (field_class ch sb Hch ltac:(lia) Hne) as (->&Hq&Eb). cbn [mbind option_bind]. rewrite Eb in Hnext.
    destruct (II_samples_spec W mem HW Hmem p _ Hq Hp) as (p'&->&Hp'&Hpos'); [lia|]. cbn [mbind option_bind].
    destruct (store_triple g ch sb p rows) as (rows'&->&H); try done; [lia|apply Hw|]. cbn [mbind option_bind].
    eexists. split; [done|]. split; [done|]. split; [lia|]. by apply Hadd.
Qed.

Lemma both_step2 g sb st : 0 <= g < 12 -> bound <= sb < limit -> sample_inv g (bound * nch + (sb - bound)) st ->
  exists st', II_both W mem offsets nch a sf g sb st = Some st' /\ sample_inv g (bound * nch + (sb - bound) + 1) st'.
Proof.
  destruct st as [p rows]. intros Hg Hsb (Hp&Hpos&Hw). pose proof limit_range as Hl. unfold II_both. rewrite Ha by lia. cbn [mbind option_bind].
  assert (forall ch, slot bound nch ch sb = bound * nch + (sb - bound)) as Es by (intros; apply slot_high; lia).
  assert (forall ch, alloc ch sb = alloc 0 sb) as Ew by (intros; unfold II_alloc; by rewrite !Es).
  destruct (position_room2 g (slot bound nch 0 sb) Hg) as [Hnext Hin]; [apply slot_range; done || lia|]. rewrite Es in Hin, Hnext.
  destruct (Z.eqb_spec (alloc 0 sb) 0) as [E|Hne]; cbn [negb].
  - destruct (channel_triples g sb (II_zero g sb) rows) as (rows'&->&H); try done; [apply Hw| |].
    + intros ch rows1 Hch Hc1. apply zero_triple; try done; [lia|]. intros _. by rewrite Ew.
    + cbn [mbind option_bind]. eexists. split; [done|]. split; [done|]. rewrite <- (Es 0), empty_field in Hnext by done. rewrite Es in Hnext. split; [lia|].
      by apply (cells_both value bound limit nch 3 Hnch rows0 g sb rows).
  - destruct (field_class 0 sb ltac:(lia) ltac:(lia) Hne) as (->&Hq&Eb). cbn [mbind option_bind]. rewrite Es in Eb. rewrite Eb in Hnext.
    destruct (II_samples_spec W mem HW Hmem p _ Hq Hp) as (p'&->&Hp'&Hpos'); [lia|]. cbn [mbind option_bind].
    destruct (channel_triples g sb (II_store W sf g sb (map (class_level W mem (class sb (alloc 0 sb)) (pos p)) [0; 1; 2])) rows) as (rows'&->&H);
      try done; [apply Hw| |].
    + intros ch rows1 Hch Hc1. rewrite <- (Ew ch). apply store_triple; try done; [lia|by rewrite Ew|by rewrite Es].
    + cbn [mbind option_bind]. eexists. split; [done|]. split; [done|]. split; [lia|].
      by apply (cells_both value bound limit nch 3 Hnch rows0 g sb rows).
Qed.

(** The subbands above the limit. *)
Lemma zeros_above g rows : 0 <= g < 12 -> cube 2 36 32 rows ->
  exists rows', for_range 0 nch (fun ch => for_range 0 3 (fun s => for_range limit 32 (fun sb rows => set3 rows ch (3 * g + s) sb 0))) rows = Some rows' /\
    wrote value (fun ch t sb => (ch <? nch) && (t / 3 =? g) && (limit <=? sb)) rows rows'.
Proof.
  intros Hg Hc. pose proof limit_range as Hl.
  assert (forall ch s rows, 0 <= ch < nch -> 0 <= s < 3 -> cube 2 36 32 rows ->
    exists rows', for_range limit 32 (fun sb rows => set3 rows ch (3 * g + s) sb 0) rows = Some rows' /\
      wrote value (fun ch' t sb => (t - 3 * g =? s) && ((ch' =? ch) && (limit <=? sb))) rows rows') as H1.
  { intros ch s rows1 Hch Hs Hc1. destruct (wrote_range value (fun _ _ sb => sb) (fun ch' t _ => (ch' =? ch) && (t =? 3 * g + s)) limit 32
      (fun sb rows => set3 rows ch (3 * g + s) sb 0) rows1) as (rows2&->&H); [lia|done| |].
    - intros sb rows2 Hsb Hc2. destruct (wrote_set value rows2 ch (3 * g + s) sb 0) as (rows3&->&H); try done; try lia.
      + unfold II_value. by rewrite (proj2 (Z.leb_le limit sb)) by lia.
      + exists rows3. split; [done|]. eapply wrote_ext; [|exact H]. intros. cbv beta. by rewrite andb_comm.
    - exists rows2. split; [done|]. eapply wrote_ext; [|exact H]. intros ch' t sb _ _ Hsb. cbv beta.
      rewrite (proj2 (Z.ltb_lt sb 32)) by lia. destruct (Z.eqb_spec t (3 * g + s)), (Z.eqb_spec (t - 3 * g) s), (ch' =? ch), (limit <=? sb); try done; lia. }
  assert (forall ch rows, 0 <= ch < nch -> cube 2 36 32 rows ->
    exists rows', for_range 0 3 (fun s => for_range limit 32 (fun sb rows => set3 rows ch (3 * g + s) sb 0)) rows = Some rows' /\
      wrote value (fun ch' t sb => (ch' =? ch) && ((t / 3 =? g) && (limit <=? sb))) rows rows') as H2.
  { intros ch rows1 Hch Hc1. destruct (wrote_range value (fun _ t _ => t - 3 * g) (fun ch' _ sb => (ch' =? ch) && (limit <=? sb)) 0 3
      (fun s => for_range limit 32 (fun sb rows => set3 rows ch (3 * g + s) sb 0)) rows1) as (rows2&->&H); [lia|done|intros; by apply H1|].
    exists rows2. split; [done|]. eapply wrote_ext; [|exact H]. intros ch' t sb _ Ht _. cbv beta.
    destruct (Z.eqb_spec (t / 3) g), (Z.leb_spec 0 (t - 3 * g)), (Z.ltb_spec (t - 3 * g) 3), (ch' =? ch), (limit <=? sb); cbn [andb]; try done; zdiv. }
  destruct (wrote_range value (fun ch _ _ => ch) (fun _ t sb => (t / 3 =? g) && (limit <=? sb)) 0 nch
    (fun ch => for_range 0 3 (fun s => for_range limit 32 (fun sb rows => set3 rows ch (3 * g + s) sb 0))) rows) as (rows'&->&H); [lia|done|intros; by apply H2|].
  exists rows'. split; [done|]. eapply wrote_ext; [|exact H]. intros ch t sb Hch _ _. cbv beta. by rewrite (proj2 (Z.leb_le 0 ch)), andb_assoc by lia.
Qed.

Lemma granule_step g st : 0 <= g < 12 -> sample_inv g 0 st ->
  exists st', II_granule W mem offsets nch bound limit a sf g st = Some st' /\ sample_inv (g + 1) 0 st'.
Proof.
  intros Hg Hst. unfold II_granule.
  destruct (each_subband_inv (sample_inv g) bound limit nch (II_one W mem offsets a sf g) (II_both W mem offsets nch a sf g) st)
    as ([p1 rows1]&->&Hp1&Hpos1&Hw1); [done|lia|done|intros; by apply one_step2|intros; by apply both_step2|]. cbn [mbind option_bind].
  destruct (zeros_above g rows1 Hg (proj1 Hw1)) as (rows2&->&Hw2). cbn [mbind option_bind]. eexists. split; [done|]. split; [done|]. split.
  - rewrite Hpos1. unfold II_position. rewrite psum_0. fold fields (II_granule_bits mem i0 nch bound limit T). lia.
  - by apply (written_next value bound limit nch 3 Hbound Hnch rows0 g rows1).
Qed.

Lemma samples_read2 p : bitptr_ok mem p -> pos p = II_samples_at mem i0 nch bound limit T -> cube 2 36 32 rows0 ->
  exists p' rows, for_range 0 12 (II_granule W mem offsets nch bound limit a sf) (p, rows0) = Some (p', rows) /\
    bitptr_ok mem p' /\ pos p' = II_end mem i0 nch bound limit T /\ wrote value (sample_done bound limit nch 3 12 0) rows0 rows.
Proof.
  intros Hp Hpos Hc. destruct (for_range_inv (fun g => sample_inv g 0) 0 12 (II_granule W mem offsets nch bound limit a sf) (p, rows0))
    as ([p' rows]&->&Hp'&Hpos'&Hw); [lia| |intros; by apply granule_step|].
  - split; [done|]. unfold II_position. rewrite psum_0. split; [lia|]. by apply (written_start value bound limit nch 3 Hbound Hnch).
  - exists p', rows. split; [done|]. split; [done|]. split; [|done]. rewrite Hpos'. unfold II_position, II_end. rewrite psum_0. lia.
Qed.
End Coded.
End LayerII.

(** ** Frames *)

(** The table of a header, and its bound; the first table where the header is refused. *)
Definition II_table (h : mad_header) : standard_table := default B2a (standard_choice h).
Definition II_limit (h : mad_header) : Z := standard_limit (II_table h).
Definition II_bound (h : mad_header) : Z := Z.min (II_limit h) (frame_bound h).

Section Outcome.
Variables (W : Z) (mem : list Z) (s : mad_stream) (f : mad_frame).

Abbreviation start := (pos (ptr s)).
Abbreviation nch := (MAD_NCHANNELS (header f)).
Abbreviation bound := (II_bound (header f)).
Abbreviation limit := (II_limit (header f)).
Abbreviation T := (II_table (header f)).

(** The header a frame leaves: the CRC covers the allocations and the selections. *)
Definition II_header : mad_header :=
  crc_header mem start (II_factors mem start nch bound limit T - start) (joint_header (header f)).

(** The ways a call ends: result, error, pointer, header and samples. *)
Inductive II_outcome : Z -> Z -> mad_bitptr -> mad_header -> list (list (list Z)) -> Prop :=
| II_bad_mode : standard_choice (header f) = None -> II_outcome (-1) MAD_ERROR_BADMODE (ptr s) (header f) (sbsample f)
| II_bad_crc p : standard_choice (header f) <> None -> crc_good (fr_options f) II_header = false ->
    bitptr_ok mem p -> pos p = II_factors mem start nch bound limit T -> II_outcome (-1) MAD_ERROR_BADCRC p II_header (sbsample f)
| II_decoded p rows : standard_choice (header f) <> None -> crc_good (fr_options f) II_header = true ->
    bitptr_ok mem p -> pos p = II_end mem start nch bound limit T -> cube 2 36 32 rows ->
    (forall ch t sb, 0 <= ch < 2 -> 0 <= t < 36 -> 0 <= sb < 32 ->
       get3 rows ch t sb = if ch <? nch then Some (II_value W mem start nch bound limit T ch t sb) else get3 (sbsample f) ch t sb) ->
    II_outcome 0 (error s) p II_header rows.
End Outcome.

Lemma layer_II_spec W mem a0 scfsi0 sf0 s f : 32 <= W -> bytes_ok mem -> 8 * zlen mem < 2 ^ 32 -> bitptr_ok mem (ptr s) ->
  grid 2 32 a0 -> grid 2 32 scfsi0 -> cube 2 32 3 sf0 -> cube 2 36 32 (sbsample f) -> header_fields (header f) ->
  II_end mem (pos (ptr s)) (MAD_NCHANNELS (header f)) (II_bound (header f)) (II_limit (header f)) (II_table (header f)) <= 8 * zlen mem ->
  exists res err p h rows, mad_layer_II W mem a0 scfsi0 sf0 s f =
    Some (res, set_error (set_ptr s p) err, MkFrame h (fr_options f) rows (overlap f)) /\ II_outcome W mem s f res err p h rows.
Proof.
  intros HW Hmem Hmax Hp Ha0 Hsc0 Hsf0 Hrows Hh Hroom. unfold mad_layer_II.
  pose proof (row_is_standard (header f)) as Hstd. unfold row_chosen in Hstd.
  destruct (II_index (header f)) as [index|], (standard_choice (header f)) as [T|] eqn:Ei; try done.
  2: { exists (-1), MAD_ERROR_BADMODE, (ptr s), (header f), (sbsample f). split; [rewrite same_ptr; by destruct f|by apply II_bad_mode]. }
  destruct (aget sbquant_table index) as [[limit offsets]|]; [|done]. rename Hstd into Hrow. cbn [mbind option_bind].
  rewrite joint_bound_spec by done. pose proof (frame_bound_range _ Hh) as Hb. pose proof (nchannels (header f)) as Hn.
  assert (II_limit (header f) = limit /\ II_table (header f) = T) as [El Eo] by (unfold II_limit, II_table; rewrite Ei; split; [symmetry; apply (row_standard _ _ _ Hrow)|done]).
  assert ((if limit <? frame_bound (header f) then limit else frame_bound (header f)) = II_bound (header f)) as ->.
  { unfold II_bound. rewrite El. destruct (Z.ltb_spec limit (frame_bound (header f))); lia. }
  pose proof (row_limit _ _ _ Hrow) as Hl. assert (0 <= II_bound (header f) <= limit) as Hb2 by (unfold II_bound; lia).
  pose proof (II_bad_crc W mem s f) as Hbad. pose proof (II_decoded W mem s f) as Hok. pose proof (eq_refl (II_header mem s f)) as EH. unfold II_header at 2 in EH.
  rewrite El, Eo in *. set (nch := MAD_NCHANNELS (header f)) in *. set (bound := II_bound (header f)) in *. set (i0 := pos (ptr s)) in *.
  pose proof (parts mem i0 nch bound limit T offsets Hn Hb2 Hrow Hroom) as [[H1 H2] [H3 H4]].
  destruct (allocations2 W mem HW Hmem i0 nch bound limit T offsets Hn Hb2 Hrow Hroom (ptr s) a0 Hp eq_refl Ha0) as (p1&a&->&Hp1&Hpos1&Ha). cbn [mbind option_bind].
  destruct (optional_fields W mem HW Hmem limit nch 2 ltac:(lia) Hn ltac:(lia) (II_alloc mem i0 nch bound T) (II_selects i0 nch bound limit T) a Ha (Z.le_trans _ _ _ H3 H4) p1 scfsi0 Hp1 Hpos1 Hsc0) as (p2&scfsi&E2&Hp2&Hpos2&Hsc).
  change (optional_field W mem 2 a) with (II_scfsi W mem a) in E2. rewrite E2. cbn [mbind option_bind].
  fold (II_factors mem i0 nch bound limit T) in Hpos2. assert (0 <= i0) as Hi0 by (destruct Hp; unfold i0, pos; lia).
  rewrite (bit_length_spec mem) by (done || (fold i0; lia)). rewrite Hpos2. fold i0.
  rewrite bits_crc_spec; [|done|done|done|by apply joint_crc|lia|fold i0; lia].
  cbn [mbind option_bind set_header header fr_options]. fold i0. rewrite <- EH.
  destruct (crc_good (fr_options f) (II_header mem s f)) eqn:Ecrc; cbn [negb].
  2: { exists (-1), MAD_ERROR_BADCRC, p2, (II_header mem s f), (sbsample f). split; [done|]. apply Hbad; by rewrite ?Ei. }
  destruct (scale_factors2 W mem HW Hmem i0 nch bound limit T offsets Hn Hb2 Hrow Hroom a Ha scfsi Hsc p2 sf0 Hp2 Hpos2 Hsf0) as (p3&sf&->&Hp3&Hpos3&Hsf).
  cbn [mbind option_bind sbsample set_header].
  destruct (samples_read2 W mem HW Hmem i0 nch bound limit T offsets Hn Hb2 Hrow Hroom a Ha sf Hsf (sbsample f) p3 Hp3 Hpos3 Hrows) as (p4&rows&->&Hp4&Hpos4&Hw&Hc).
  cbn [mbind option_bind set_header overlap header fr_options].
  exists 0, (error s), p4, (II_header mem s f), rows. split; [by rewrite same_error|]. apply Hok; try (by rewrite ?Ei).
  intros ch t sb Hch Ht Hsb. rewrite Hc by done. unfold sample_done. rewrite (proj2 (Z.ltb_lt (t / 3) 12)) by zdiv. cbn [orb]. by rewrite andb_true_r.
Qed.

(** C10: Layer II frames.  On any bytes behind the header of a Layer II frame, in every mode,
    at every bit rate and sampling frequency and at every bound of joint stereo, [mad_layer_II] refuses
    a single channel above 192 kbit/s, fails with a bad CRC, or
    decodes the frame: it uses the table of the standard for the sampling frequency and the bit rate per channel
    ([standard_choice], [standard_levels]; bit rates forbidden for two channels are decoded like those below
    48 kbit/s, as the code without OPT_STRICT does), takes every
    allocation, selection, scale factor and grouped or single number from its place in
    the layout of the format, stores every sample of every channel requantized and scaled by the
    factor of its third of the frame, zero where nothing is coded, and ends behind the
    frame.  What the arrays on the stack hold is never used. *)
Theorem mad_layer_II_correct W mem a0 scfsi0 sf0 s f : 32 <= W -> bytes_ok mem -> 8 * zlen mem < 2 ^ 32 -> bitptr_ok mem (ptr s) ->
  grid 2 32 a0 -> grid 2 32 scfsi0 -> cube 2 32 3 sf0 -> cube 2 36 32 (sbsample f) -> header_fields (header f) ->
  II_end mem (pos (ptr s)) (MAD_NCHANNELS (header f)) (II_bound (header f)) (II_limit (header f)) (II_table (header f)) <= 8 * zlen mem ->
  exists res err p h rows, mad_layer_II W mem a0 scfsi0 sf0 s f =
    Some (res, set_error (set_ptr s p) err, MkFrame h (fr_options f) rows (overlap f)) /\ II_outcome W mem s f res err p h rows.
Proof. apply layer_II_spec. Qed.

Lemma mad_layer_II_correct_witness :
  let mem := repeat 0x10 90 in
  let s := MkStream 90 0 1 0 0 90 (mad_bit_init 4) 0 0 in
  let f := MkFrame (MkHeader 2 2 0 0 64000 44100 0 0 0 0 (MkTimer 0 0)) 0 (repeat (repeat (repeat 5 32) 36) 2) None in
  exists res err p h rows, mad_layer_II 64 mem (repeat (repeat 7 32) 2) (repeat (repeat 8 32) 2) (repeat (repeat (repeat 9 3) 32) 2) s f =
    Some (res, set_error (set_ptr s p) err, MkFrame h 0 rows None) /\ II_outcome 64 mem s f res err p h rows.
Proof.
  intros mem s f. apply (mad_layer_II_correct 64 mem).
  - apply Z.leb_le. reflexivity.
  - apply (bool_decide_unpack _). vm_compute. exact I.
  - apply Z.ltb_lt. reflexivity.
  - by apply bit_init_ok.
  - split; [reflexivity|]. repeat constructor.
  - split; [reflexivity|]. repeat constructor.
  - split; [reflexivity|]. repeat constructor.
  - split; [reflexivity|]. repeat constructor.
  - split; [intros _; split; [apply Z.leb_le|apply Z.ltb_lt]; reflexivity|intros H; discriminate H].
  - apply Z.leb_le. vm_compute. reflexivity.
Defined.

(** How many numbers the code of a sample can stand for: with a group every number below the levels, without one any field. *)
Definition class_codes (qc : quantclass) : Z := if negb (qc_group qc =? 0) then qc_nlevels qc else 2 ^ qc_bits qc.

(** C27: the samples of Layers I and II.  The [c]-th of [n] steps stands for the number
    (2c - n + 1) / n between -1 and 1; what the decoders store for it, after both of
    their fixed-point products, is this number times the scale factor up to 2^17 (of 2^28 for 1), for
    every class of quantization, every number a field can hold (the forbidden one
    included) and every scale factor, and nothing overflows.  The scale factors are
    the powers of the cube root of one half, rounded. *)
Theorem layer12_sample_correct W k t : 32 <= W -> aget sf_table k = Some t ->
  (forall nb c linear, 2 <= nb <= 15 -> 0 <= c < 2 ^ nb -> aget linear_table (nb - 2) = Some linear ->
     let x := s32 (fixed_sample c nb + (MAD_F_ONE .>> (nb - 1))) in let n := 2 ^ nb - 1 in
     Z.abs (mad_f_mul W (mad_f_mul W x linear) t * n - (2 * c - n + 1) * t) <= 2 ^ 17 * n) /\
  (forall i qc c, aget qc_table i = Some qc -> 0 <= c < class_codes qc ->
     let x := II_requantize W qc (qc_width qc) c in let n := qc_nlevels qc in
     Z.abs (mad_f_mul W x t * n - (2 * c - n + 1) * t) <= 2 ^ 17 * n) /\
  (k < 63 -> (2 * t - 1) ^ 3 <= 2 ^ 90 / 2 ^ k <= (2 * t + 1) ^ 3).
Proof.
  intros HW Ht. pose proof (aget_inv _ _ _ Ht) as Hk. change (zlen sf_table) with 64 in Hk.
  destruct (sf_entry k Hk) as (t'&Et&Hr). rewrite Ht in Et. injection Et as <-. split; [|split].
  - intros nb c linear Hnb Hc El x n. destruct (I_class_ok nb Hnb) as (C&EC&Hok). rewrite El in EC. injection EC as <-.
    unfold x. rewrite (level_s32 nb n linear) by (done || by right). apply (scaled_error W nb n linear (MAD_F_ONE .>> (nb - 1))); (done || by right).
  - intros i qc c Eq Hc x n. pose proof (qc_table_ok i qc Eq) as Hq. destruct (class_facts qc Hq) as (Hok&Hb&Hn&Hg).
    unfold class_codes in Hc.
    assert (0 <= c < 2 ^ qc_width qc /\ (c < n \/ n = 2 ^ qc_width qc - 1)) as [Hc2 Hcn].
    { unfold n. destruct (Z.eqb_spec (qc_group qc) 0) as [E|]; cbn [negb] in Hc; [|lia]. destruct (Hg E) as [-> ->]. lia. }
    unfold x, II_requantize. rewrite (level_s32 _ _ _ _ _ Hok) by done. by apply (scaled_error W _ _ _ (qc_D qc)).
  - intros Hk63. pose proof (sf_table_ok k ltac:(lia)) as H. unfold factor_check in H. rewrite Ht in H.
    rewrite <- Z.pow_sub_r by lia. zbool. lia.
Qed.

Lemma layer12_sample_correct_witness :
  let x := s32 (fixed_sample 21845 15 + (MAD_F_ONE .>> 14)) in
  Z.abs (mad_f_mul 64 (mad_f_mul 64 x 0x10002000) 0x1965fea5 * 32767 - (2 * 21845 - 32767 + 1) * 0x1965fea5) <= 2 ^ 17 * 32767.
Proof.
  refine (proj1 (layer12_sample_correct 64 1 0x1965fea5 _ _) 15 21845 0x10002000 _ _ _).
  - apply Z.leb_le. reflexivity.
  - reflexivity.
  - split; apply Z.leb_le; reflexivity.
  - split; [apply Z.leb_le|apply Z.ltb_lt]; reflexivity.
  - reflexivity.
Defined.
