(* ===== verification/MadFrameDecode.v ===== *)
(** Whole frames: [mad_frame_decode] and the rest of [src/libmad/frame.c], over the
    header of MadFrame and the three layers.

    The ancillary pointer of the stream is a field of [main_buffer]; its flag says whether
    it points into the reservoir. *)
From S2P Require Import Prelude BitString MadBit MadTimer MadFrame MadSideInfo MadLayer3 MadLayer12.

(** The arrays on the stack of the layers, uninitialised, and the results of their allocations. *)
Record layer_stack := LayerStack {
  ls_allocation : list (list Z); ls_scfsi : list (list Z); ls_scalefactor1 : list (list Z); ls_scalefactor2 : list (list (list Z));
  ls_decode : decode_stack; ls_side : sideinfo;
  ls_main : option (list Z); ls_overlap : option (list (list (list Z)))
}.

Definition set_ancillary (m : main_buffer) (p : mad_bitptr) (n : Z) : main_buffer := MkMain (main_data m) (md_len m) (false, p) n.
Definition set_anc_bitlen (m : main_buffer) (n : Z) : main_buffer := MkMain (main_data m) (md_len m) (anc_ptr m) n.

Definition mad_frame_mute (f : mad_frame) : option mad_frame :=
  rows ← for_range 0 36 (fun s => for_range 0 32 (fun sb rows => rows ← set3 rows 1 s sb 0; set3 rows 0 s sb 0)) (sbsample f);
  over ← (match overlap f with
          | Some o => o ← for_range 0 18 (fun s => for_range 0 32 (fun sb o => o ← set3 o 1 sb s 0; set3 o 0 sb s 0)) o; Some (Some o)
          | None => Some None
          end);
  Some (MkFrame (header f) (fr_options f) rows over).

(** [rows] is what the memory of the frame holds. *)
Definition mad_frame_init (rows : list (list (list Z))) : option mad_frame := mad_frame_mute (MkFrame mad_header_init 0 rows None).

Definition mad_frame_finish (f : mad_frame) : mad_frame := MkFrame (header f) (fr_options f) (sbsample f) None.

Section Decode.
Variable long_bits : Z.
Variable mem : list Z.

(** [decoder_table[layer - 1]] *)
Definition decoder_table (layer : Z) (ls : layer_stack) (s : mad_stream) (m : main_buffer) (f : mad_frame)
    : option (Z * mad_stream * main_buffer * mad_frame) :=
  if layer - 1 =? 0 then
    '(r, s, f) ← mad_layer_I long_bits mem (ls_allocation ls) (ls_scalefactor1 ls) s f; Some (r, s, m, f)
  else if layer - 1 =? 1 then
    '(r, s, f) ← mad_layer_II long_bits mem (ls_allocation ls) (ls_scfsi ls) (ls_scalefactor2 ls) s f; Some (r, s, m, f)
  else if layer - 1 =? 2 then mad_layer_III long_bits mem (ls_decode ls) s m f (ls_main ls) (ls_overlap ls) (ls_side ls)
  else None.

Definition mad_frame_decode (ls : layer_stack) (f : mad_frame) (s : mad_stream) (m : main_buffer)
    : option (Z * mad_frame * mad_stream * main_buffer) :=
  let f := MkFrame (header f) (options s) (sbsample f) (overlap f) in
  '(r, f, s) ← (if negb (bitset (flags (header f)) MAD_FLAG_INCOMPLETE) then
                  '(r, h, s) ← mad_header_decode long_bits mem (header f) s; Some (r, set_header f h, s)
                else Some (0, f, s));
  if r =? -1 then Some (-1, f, s, set_anc_bitlen m 0) else
  let h := header f in
  let f := set_header f (set_flags h (flags h .& Z.lnot MAD_FLAG_INCOMPLETE) (private_bits h)) in
  '(r, s, m, f) ← decoder_table (layer (header f)) ls s m f;
  if r =? -1 then
    let s := if negb (MAD_RECOVERABLE (error s)) then set_frames s (this_frame s) (this_frame s) else s in
    Some (-1, f, s, set_anc_bitlen m 0)
  else
    let m := if negb (layer (header f) =? MAD_LAYER_III)
             then set_ancillary m (ptr s) (mad_bit_length (ptr s) (mad_bit_init (next_frame s))) else m in
    Some (0, f, s, m).
End Decode.
