(* ===== verification/MadPrefix.v ===== *)
(** A longer input changes nothing: what the header decoder of libmad computes inside of a
    buffer, it computes with any bytes behind the buffer. *)
From S2P Require Import Prelude BitString MadBit MadTimer MadFrame.

(** ** Computations that extend others *)

(** [o'] returns what [o] returns. *)
Definition extends {A} (o o' : option A) : Prop := forall x, o = Some x -> o' = Some x.

Lemma extends_refl {A} (o : option A) : extends o o.
Proof. by intros x. Qed.

Lemma extends_bind {A B} (o o' : option A) (f f' : A -> option B) : extends o o' -> (forall x, extends (f x) (f' x)) ->
  extends (x ← o; f x) (x ← o'; f' x).
Proof. intros Ho Hf y. destruct o as [x|]; [|done]. rewrite (Ho x eq_refl). apply Hf. Qed.

Lemma extends_for {St} (body body' : Z -> St -> option St) lo hi s : (forall i s, extends (body i s) (body' i s)) ->
  extends (for_range lo hi body s) (for_range lo hi body' s).
Proof.
  intros Hb. unfold for_range. generalize (Z.to_nat (hi - lo)) as n. intros n. revert lo s.
  induction n as [|n IH]; intros lo s; [apply extends_refl|]. rewrite !for_loop_S. apply extends_bind; [apply Hb|]. intros x. apply IH.
Qed.

Lemma extends_while {St} cond (body body' : St -> option St) (fuel : nat) : (forall s, extends (body s) (body' s)) ->
  forall s, extends (while_loop fuel cond body s) (while_loop fuel cond body' s).
Proof.
  intros Hb. induction fuel as [|fuel IH]; intros s; [apply extends_refl|]. rewrite !while_loop_S. destruct (cond s); [|apply extends_refl].
  apply extends_bind; [apply Hb|apply IH].
Qed.

Create HintDb extends discriminated.
#[export] Hint Constants Opaque : extends.

(** Follows the structure of two computations that differ in their calls. *)
Ltac extend := repeat first
  [ match goal with |- extends ?x ?x => apply extends_refl end
  | progress (auto with extends nocore)
  | apply extends_bind; [|intros]
  | apply extends_for; intros
  | apply extends_while; intros
  | match goal with
    | |- extends (match ?x with _ => _ end) _ => destruct x
    | |- extends (let (_, _) := ?x in _) _ => destruct x
    end ].

Section Prefix.
Variables (W : Z) (buf tail : list Z).

Lemma aget_extends i : extends (aget buf i) (aget (buf ++ tail) i).
Proof.
  intros x E. pose proof (aget_inv _ _ _ E) as Hi. rewrite aget_lookup in * by lia. by apply lookup_app_l_Some.
Qed.
#[local] Hint Resolve aget_extends : extends.

Lemma read_step_extends st : extends (read_step W buf st) (read_step W (buf ++ tail) st).
Proof. unfold read_step. extend. Qed.
#[local] Hint Resolve read_step_extends : extends.

Lemma bit_read_extends b n : extends (mad_bit_read W buf b n) (mad_bit_read W (buf ++ tail) b n).
Proof. unfold mad_bit_read. extend. Qed.
#[local] Hint Resolve bit_read_extends : extends.

Lemma bit_skip_extends b n : extends (mad_bit_skip buf b n) (mad_bit_skip (buf ++ tail) b n).
Proof. unfold mad_bit_skip. extend. Qed.
#[local] Hint Resolve bit_skip_extends : extends.

Lemma bit_crc_extends b n c : extends (mad_bit_crc W buf b n c) (mad_bit_crc W (buf ++ tail) b n c).
Proof. unfold mad_bit_crc, crc_word, crc_case, crc_bit. extend. Qed.
#[local] Hint Resolve bit_crc_extends : extends.

Lemma sync_word_extends p : extends (sync_word buf p) (sync_word (buf ++ tail) p).
Proof. unfold sync_word. extend. Qed.
#[local] Hint Resolve sync_word_extends : extends.

Lemma sync_search_extends (fuel : nat) last : forall p, extends (sync_search buf fuel last p) (sync_search (buf ++ tail) fuel last p).
Proof. induction fuel as [|fuel IH]; intros p; cbn [sync_search]; extend. Qed.
#[local] Hint Resolve sync_search_extends : extends.

Lemma stream_sync_extends s : extends (mad_stream_sync buf s) (mad_stream_sync (buf ++ tail) s).
Proof. unfold mad_stream_sync. extend. Qed.
#[local] Hint Resolve stream_sync_extends : extends.

Lemma header_rest_extends h s p : extends (decode_header_rest W buf h s p) (decode_header_rest W (buf ++ tail) h s p).
Proof. unfold decode_header_rest. extend. Qed.
#[local] Hint Resolve header_rest_extends : extends.

Lemma decode_header_extends h s : extends (decode_header W buf h s) (decode_header W (buf ++ tail) h s).
Proof. unfold decode_header. extend. Qed.
#[local] Hint Resolve decode_header_extends : extends.

Lemma free_search_extends (fuel : nat) h : forall s rate, extends (free_search W buf fuel h s rate) (free_search W (buf ++ tail) fuel h s rate).
Proof. induction fuel as [|fuel IH]; intros s rate; cbn [free_search]; extend. Qed.
#[local] Hint Resolve free_search_extends : extends.

Lemma free_format_extends h s : extends (free_format W buf h s) (free_format W (buf ++ tail) h s).
Proof. unfold free_format, free_bitrate. extend. Qed.
#[local] Hint Resolve free_format_extends : extends.

Lemma synchronize_extends s p : extends (synchronize buf s p) (synchronize (buf ++ tail) s p).
Proof. unfold synchronize. extend. Qed.
#[local] Hint Resolve synchronize_extends : extends.

Lemma header_from_extends (fuel : nat) : forall h s p, extends (header_from W buf fuel h s p) (header_from W (buf ++ tail) fuel h s p).
Proof. induction fuel as [|fuel IH]; intros h s p; cbn [header_from]; extend. Qed.
#[local] Hint Resolve header_from_extends : extends.

Lemma header_decode_extends h s : extends (mad_header_decode W buf h s) (mad_header_decode W (buf ++ tail) h s).
Proof. unfold mad_header_decode. extend. Qed.
End Prefix.
