(* ===== verification/MadFrameSafe.v ===== *)
(** Safety of [mad_frame_decode] on any bytes, over any sequence of calls.

    The layers do not compare what a frame claims with its length, so the bytes behind the
    buffer are part of the input here: [tail_room] of them are enough. *)
From S2P Require Import Prelude BitString MadBit MadTimer MadFrame MadSideInfo MadRequantize MadStereo MadSideRange MadLayer3 MadReservoir MadHybrid MadLayer3Safe.
From S2P Require Import MadLayer12 MadSubbands MadLayerI MadLayerII MadFrameDecode MadPrefix.

(** ** What the layers leave alone *)

(** The layer of a header, its mark of being incomplete, its rate and its mode. *)
Definition header_kept (h h' : mad_header) : Prop :=
  layer h' = layer h /\ bitset (flags h') MAD_FLAG_INCOMPLETE = bitset (flags h) MAD_FLAG_INCOMPLETE /\
  samplerate h' = samplerate h /\ mode h' = mode h.

Lemma kept_refl h : header_kept h h.
Proof. done. Qed.

Lemma kept_trans h1 h2 h3 : header_kept h1 h2 -> header_kept h2 h3 -> header_kept h1 h3.
Proof. unfold header_kept. intros (?&?&?&?) (?&?&?&?). repeat split; congruence. Qed.

Lemma kept_flags h m p : m .& MAD_FLAG_INCOMPLETE = 0 -> header_kept h (set_flags h (flags h .| m) p).
Proof. intros Hm. split; [done|]. split; [|done]. cbn [flags set_flags]. by apply bitset_lor. Qed.

Lemma same_position_trans s1 s2 s3 : same_position s1 s2 -> same_position s2 s3 -> same_position s1 s3.
Proof. unfold same_position. intros. intuition congruence. Qed.

(** Inverts a computation that has returned. *)
Ltac invert := repeat first [ progress monad_inv | case_match | match goal with p : _ * _ |- _ => destruct p end | done ].

Section Kept.
Variables (W : Z) (mem : list Z).

Lemma stereo_kept xr c0 c1 ip h ws modes err xr' h' : III_stereo W xr c0 c1 ip h ws modes = Some (err, xr', h') -> header_kept h h'.
Proof.
  unfold III_stereo. intros H. case_match; [by monad_inv|]. apply bind_Some in H as (md&_&H).
  apply bind_Some in H as ([[xr1 md1] h1]&E1&H).
  assert (header_kept h h1) as H1 by (invert; by apply kept_flags).
  eapply kept_trans; [exact H1|]. clear - H. invert; by apply kept_flags.
Qed.

Lemma joint_kept h ds si g xr err xr' h' : joint_stereo W h ds si g xr = Some (err, xr', h') -> header_kept h h'.
Proof.
  unfold joint_stereo. intros H. case_match; [|by monad_inv].
  do 6 (apply bind_Some in H as (?&_&H)). apply bind_Some in H as ([[err1 [yl yr]] h1]&E&H).
  do 2 (apply bind_Some in H as (?&_&H)). injection H as <- _ <-. by eapply stereo_kept.
Qed.

Lemma granule_kept data nch ds g st st' : decode_granule W data nch ds g st = Some st' -> header_kept (header st.2) (header st'.2).
Proof.
  destruct st as [[[err si] p] f]. unfold decode_granule. intros H. case_match; [by monad_inv|].
  apply bind_Some in H as ([[[err1 si1] p1] xr1]&_&H). case_match; [by monad_inv|].
  apply bind_Some in H as ([[err2 xr2] h2]&E2&H). apply joint_kept in E2. case_match; [by monad_inv|].
  do 2 (apply bind_Some in H as (?&_&H)). apply bind_Some in H as ([[[? ?] ?] ?]&_&H). by injection H as <-.
Qed.

Lemma decode_kept data p f si nch ds err si' p' f' : III_decode W data p f si nch ds = Some (err, si', p', f') -> header_kept (header f) (header f').
Proof.
  unfold III_decode. intros H. apply (for_range_pres (fun _ st => header_kept (header f) (header st.2))) in H; [done|case_match; lia|done|].
  intros i st st2 _ H1 H2. eapply kept_trans; [exact H1|]. by eapply granule_kept.
Qed.

Lemma crc_kept s f len s' f' res : check_crc W mem s f len = Some (s', f', res) -> same_position s s' /\ header_kept (header f) (header f').
Proof.
  unfold check_crc. intros H. case_match; [|by monad_inv]. apply bind_Some in H as (c&_&H). by case_match; injection H as <- <- <-.
Qed.

Lemma main_kept ds place data s m f si nch md dl res s' m' f' res' :
  decode_main mem (fun data p f si nch => III_decode W data p f si nch ds) place data s m f si nch md dl res = Some (s', m', f', res') ->
  same_position s s' /\ header_kept (header f) (header f').
Proof.
  intros H. unfold decode_main in H. destruct place; try by monad_inv.
  all: case_match; [|by monad_inv]; apply bind_Some in H as ([[[err si1] p1] f1]&E&H); apply decode_kept in E; by case_match; injection H as <- <- <- <-.
Qed.

Lemma private_incomplete lsf nch : (if lsf : bool then if nch =? 1 then 1 else 2 else if nch =? 1 then 5 else 3) .& MAD_FLAG_INCOMPLETE = 0.
Proof. by destruct lsf, (nch =? 1). Qed.

Lemma sideinfo_private p nch lsf si err si' dl pl p' : III_sideinfo W mem p nch lsf si = Some (err, si', dl, pl, p') -> pl .& MAD_FLAG_INCOMPLETE = 0.
Proof.
  unfold III_sideinfo. intros H. do 3 (apply bind_Some in H as ([? ?]&_&H)). apply bind_Some in H as ([[[? ?] ?] ?]&_&H).
  injection H as _ _ _ <- _. apply private_incomplete.
Qed.

Lemma body_kept ds s m f data si0 res s' m' f' :
  layer_III_body W mem (fun data p f si nch => III_decode W data p f si nch ds) s m f data si0 = Some (res, s', m', f') ->
  same_position s s' /\ header_kept (header f) (header f').
Proof.
  unfold layer_III_body. intros H. apply bind_Some in H as ([[s1 f1] res1]&E1&H). apply crc_kept in E1 as [S1 K1].
  apply bind_Some in H as ([[[[err si] dl] pl] p]&E2&H). apply sideinfo_private in E2.
  destruct (negb (err =? 0) && (res1 =? 0)); cbv zeta beta iota in H; apply bind_Some in H as (next&_&H);
    apply bind_Some in H as ([[[place d1] mdl] used]&_&H); destruct place;
    try (apply bind_Some in H as ([[[s2 m2] f2] res2]&E3&H); apply main_kept in E3 as [S3 K3]; apply bind_Some in H as ([? ?]&_&H)).
  all: try (destruct (res1 =? 0); apply bind_Some in H as ([[[s2 m2] f2] res2]&E3&H); apply main_kept in E3 as [S3 K3]; apply bind_Some in H as ([? ?]&_&H)).
  all: injection H as <- <- <- <-; (split; [eapply same_position_trans; [exact S1|first [exact S3|done]]|]);
    (eapply kept_trans; [exact K1|]); (eapply kept_trans; [by apply (kept_flags (header f1) pl)|first [exact K3|apply kept_refl]]).
Qed.

Lemma layer_III_kept ds s m f fm fo si0 res s' m' f' : mad_layer_III W mem ds s m f fm fo si0 = Some (res, s', m', f') ->
  same_position s s' /\ header_kept (header f) (header f').
Proof.
  unfold mad_layer_III, layer_III. intros H. case_match; [|by monad_inv]. cbv zeta in H. case_match; [|by monad_inv].
  case_match; [by monad_inv|]. by apply body_kept in H.
Qed.
End Kept.

(** ** Room behind a frame *)

Lemma sum_bound2 f c n k : 0 <= n <= k -> (forall i, 0 <= i < n -> 0 <= f i <= c) -> 0 <= c -> psum f n <= c * k.
Proof. intros Hn Hf Hc. pose proof (psum_bound f c n ltac:(lia) Hf). assert (c * n <= c * k) by (apply Z.mul_le_mono_nonneg_l; lia). lia. Qed.

Lemma I_room mem i0 h : header_fields h -> I_end mem i0 (MAD_NCHANNELS h) (frame_bound h) <= i0 + 12928.
Proof.
  intros Hh. pose proof (frame_bound_range h Hh) as Hb. pose proof (nchannels h) as Hn. unfold I_end, I_samples, I_factors.
  assert (0 <= I_fields (MAD_NCHANNELS h) (frame_bound h) <= 64) as Hf by (unfold I_fields, slots; destruct Hn as [-> | ->]; lia).
  assert (psum (I_factor_bits mem i0 (MAD_NCHANNELS h) (frame_bound h)) (32 * MAD_NCHANNELS h) <= 6 * 64) as H1.
  { apply sum_bound2; [lia| |lia]. intros i _. unfold I_factor_bits, optional_bits. case_match; lia. }
  assert (I_instant mem i0 (MAD_NCHANNELS h) (frame_bound h) <= 16 * 64) as H2.
  { apply sum_bound2; [lia| |lia]. intros i _. unfold I_bits. pose proof (code_range mem i0 i). case_match; lia. }
  lia.
Qed.

Lemma II_room mem i0 nch bound limit T offsets : nch = 1 \/ nch = 2 -> 0 <= bound <= limit -> row_check T (limit, offsets) = true ->
  II_end mem i0 nch bound limit T <= i0 + 36000.
Proof.
  intros Hn Hb Hrow. pose proof (row_limit _ _ _ Hrow) as Hl. unfold II_end, II_samples_at, II_factors, II_selects.
  assert (0 <= II_fields nch bound limit <= 60) as Hf by (unfold II_fields, slots; destruct Hn as [-> | ->]; lia).
  assert (psum (II_code_bits nch bound T) (II_fields nch bound limit) <= 4 * 60) as H1.
  { apply sum_bound2; [lia| |lia]. intros i Hi. pose proof (code_bits_range nch bound limit T offsets Hn Hb Hrow i Hi). lia. }
  assert (psum (optional_bits nch 2 (II_alloc mem i0 nch bound T)) (limit * nch) <= 2 * 60) as H2.
  { apply sum_bound2; [destruct Hn as [-> | ->]; lia| |lia]. intros i _. unfold optional_bits. case_match; lia. }
  assert (psum (II_factor_bits mem i0 nch bound limit T) (limit * nch) <= 18 * 60) as H3.
  { apply sum_bound2; [destruct Hn as [-> | ->]; lia| |lia]. intros i _. unfold II_factor_bits. case_match; [lia|].
    pose proof (count_range _ (select_range mem i0 nch bound limit T (i mod nch) (i / nch))). lia. }
  assert (II_granule_bits mem i0 nch bound limit T <= 48 * 60) as H4.
  { apply sum_bound2; [lia| |lia]. intros i Hi. split; [by apply (field_bits_pos mem i0 nch bound limit T offsets)|]. unfold II_bits.
    destruct (Z.eqb_spec (II_code mem i0 nch bound T i) 0) as [|Hne]; [lia|].
    destruct (coded_class mem i0 nch bound limit T offsets Hn Hb Hrow i Hi Hne) as [_ Hq]. destruct (class_facts _ Hq) as (_&Hc&_).
    unfold class_bits. case_match; lia. }
  lia.
Qed.

(** ** From headers to layers *)

Lemma bitset_clear f m k : (Z.lnot m) .& k = k -> bitset (f .& Z.lnot m) k = bitset f k.
Proof. intros E. unfold bitset. by rewrite <- Z.land_assoc, E. Qed.

(** The header whose mark of being incomplete is taken away. *)
Definition completed (h : mad_header) : mad_header := set_flags h (flags h .& Z.lnot MAD_FLAG_INCOMPLETE) (private_bits h).

Lemma completed_flag h : bitset (flags (completed h)) MAD_FLAG_INCOMPLETE = false.
Proof. unfold completed, bitset. cbn [flags set_flags]. rewrite <- Z.land_assoc. by rewrite Z.land_0_r. Qed.

Lemma completed_coded h : header_coded h -> header_coded (completed h).
Proof.
  apply coded_same; try done. unfold completed. cbn [flags set_flags].
  split; [by apply bitset_clear|]. split; by apply bitset_clear.
Qed.

(** A decoded header selects a row of every table. *)
Lemma coded_bands h : header_coded h -> exists r, aget sfbwidth_table (sfreq_index h) = Some r.
Proof.
  intros [(index&v&E&Himp&Esr) _ _ _]. unfold sfreq_index. revert Himp Esr.
  destruct (bitset (flags h) MAD_FLAG_MPEG_2_5_EXT), (bitset (flags h) MAD_FLAG_LSF_EXT); intros Himp Esr; rewrite Esr; try (by specialize (Himp eq_refl)).
  all: pose proof (aget_inv _ _ _ E) as Hi; change (zlen samplerate_table) with 3 in Hi;
    assert (index = 0 \/ index = 1 \/ index = 2) as [-> |[-> | ->]] by lia; injection E as <-; eexists; reflexivity.
Qed.

Lemma coded_good h : header_coded h ->
  exists r, header_good (bitset (flags h) MAD_FLAG_LSF_EXT) (MAD_NCHANNELS h) r h.
Proof.
  intros Hh. destruct (coded_bands h Hh) as [r Hr]. exists r. split; [done|done| |apply Hh].
  intros E. unfold MAD_NCHANNELS. by rewrite E.
Qed.

Lemma coded_fields h : header_coded h -> header_fields h.
Proof. intros [_ _ He Hc]. by split. Qed.

(** ** A header that is not found leaves no mark *)

Definition unmarked (h : mad_header) : Prop := bitset (flags h) MAD_FLAG_INCOMPLETE = false.

Lemma unmarked_flag h b k : k .& MAD_FLAG_INCOMPLETE = 0 -> unmarked h -> unmarked (add_flag h b k).
Proof. unfold unmarked, add_flag. intros Hk H. destruct b; [|done]. cbn [flags set_flags]. by rewrite bitset_lor. Qed.

Lemma unmarked_fields h h' : flags h' = flags h -> unmarked h -> unmarked h'.
Proof. unfold unmarked. by intros ->. Qed.

(** Peels the updates off a header. *)
Ltac unmark :=
  repeat first [ assumption | reflexivity | apply unmarked_flag; [reflexivity|] | case_match
               | match goal with |- unmarked (set_flags ?h ?f _) => apply (unmarked_fields (set_flags h f 0)); [reflexivity|] end
               | match goal with |- unmarked (?set ?h _) => apply (unmarked_fields h); [reflexivity|] end
               | match goal with |- unmarked (?set ?h _ _) => apply (unmarked_fields h); [reflexivity|] end ].

Section Unmarked.
Variables (W : Z) (buf : list Z).

Lemma rest_unmarked h s p r h' s' : decode_header_rest W buf h s p = Some (r, h', s') -> unmarked h -> unmarked h'.
Proof. unfold decode_header_rest. intros H Hh. invert; unmark. Qed.

Lemma decode_unmarked h s r h' s' : decode_header W buf h s = Some (r, h', s') -> unmarked h'.
Proof.
  unfold decode_header. intros H. assert (unmarked (set_flags h 0 0)) as Hh by reflexivity. revert H Hh. generalize (set_flags h 0 0). clear h. intros h H Hh.
  apply bind_Some in H as (p1&_&H). do 2 (apply bind_Some in H as ([? ?]&_&H)). case_match; [injection H as <- <- <-; unmark|].
  apply bind_Some in H as ([? ?]&_&H). case_match; [injection H as <- <- <-; unmark|].
  apply bind_Some in H as ([? ?]&_&H). apply bind_Some in H as (?&_&H). apply bind_Some in H as ([? ?]&_&H). case_match; [injection H as <- <- <-; unmark|].
  do 2 (apply bind_Some in H as (?&_&H)). apply bind_Some in H as ([? ?]&_&H). case_match; [injection H as <- <- <-; unmark|].
  apply bind_Some in H as (?&_&H). apply rest_unmarked in H; [done|]. unmark.
Qed.

Lemma free_unmarked h s r h' s' : free_format W buf h s = Some (r, h', s') -> unmarked h -> unmarked h'.
Proof.
  unfold free_format. intros H Hh. case_match; [|by injection H as _ <- _]. apply bind_Some in H as ([r1 s1]&_&H).
  case_match; injection H as _ <- _; [done|]. by apply (unmarked_flag (set_bitrate h (freerate s1)) true MAD_FLAG_FREEFORMAT).
Qed.

(** A search that fails: only a success sets the mark. *)
Lemma header_from_unmarked (fuel : nat) : forall h s p h' s', header_from W buf fuel h s p = Some (-1, h', s') -> unmarked h -> unmarked h'.
Proof.
  induction fuel as [|fuel IH]; intros h s p h' s' H Hh; [done|]. cbn [header_from] in H.
  apply bind_Some in H as ([start s1]&_&H). destruct start as [q|]; [|by injection H as <- _].
  apply bind_Some in H as ([[r1 h1] s2]&E1&H). apply decode_unmarked in E1. case_match; [by injection H as <- _|].
  apply bind_Some in H as (d&_&H). apply bind_Some in H as ([[r2 h2] s3]&E2&H). apply free_unmarked in E2; [|unmark].
  case_match; [by injection H as <- _|]. case_match; [unfold fail in H; by injection H as <- _|].
  apply bind_Some in H as (found&_&H). destruct found; [done|]. by apply IH in H.
Qed.

Lemma header_unmarked h s h' s' : mad_header_decode W buf h s = Some (-1, h', s') -> unmarked h -> unmarked h'.
Proof.
  unfold mad_header_decode, fail. intros H Hh. repeat case_match; try (by injection H as <- _); by apply header_from_unmarked in H.
Qed.
End Unmarked.

(** ** The layers on a frame that was found *)

(** Every table of the standard is a row of the code. *)
Lemma table_row T : exists offsets, row_check T (standard_limit T, offsets) = true.
Proof.
  assert (forall i row, aget sbquant_table i = Some row -> fst row = standard_limit T -> row_check T row = true -> exists offsets, row_check T (standard_limit T, offsets) = true) as H
    by (intros i [limit offsets] _ E Hr; cbn in E; subst; by exists offsets).
  destruct T; [apply (H 0 _ eq_refl)|apply (H 1 _ eq_refl)|apply (H 2 _ eq_refl)|apply (H 3 _ eq_refl)|apply (H 4 _ eq_refl)]; vm_compute; reflexivity.
Qed.

Lemma II_room_header mem i0 h : header_fields h ->
  II_end mem i0 (MAD_NCHANNELS h) (II_bound h) (II_limit h) (II_table h) <= i0 + 36000.
Proof.
  intros Hh. pose proof (frame_bound_range h Hh) as Hb. destruct (table_row (II_table h)) as [offsets Hrow]. pose proof (row_limit _ _ _ Hrow) as Hl. unfold II_bound, II_limit.
  apply (II_room mem i0 _ _ _ _ offsets); [apply nchannels|lia|done].
Qed.

(** The arrays of the stack have their sizes, and the allocations that succeed as well. *)
Record stack_ready (ls : layer_stack) : Prop := StackReady {
  sk_allocation : grid 2 32 (ls_allocation ls);
  sk_scfsi : grid 2 32 (ls_scfsi ls);
  sk_factors : grid 2 32 (ls_scalefactor1 ls) /\ cube 2 32 3 (ls_scalefactor2 ls);
  sk_decode : stack_shape (ls_decode ls) /\ side_bytes (ls_side ls);
  sk_main : forall d, ls_main ls = Some d -> zlen d = MAD_BUFFER_MDLEN /\ bytes_ok d;
  sk_overlap : forall o, ls_overlap ls = Some o -> overlap_ok o
}.

Lemma joint_kept_header h : header_kept h (joint_header h).
Proof. unfold joint_header. case_match; [by apply kept_flags|apply kept_refl]. Qed.

Lemma crc_kept_header mem i n h : header_kept h (crc_header mem i n (joint_header h)).
Proof. eapply kept_trans; [apply joint_kept_header|]. unfold crc_header. by case_match. Qed.

Lemma ready_rows f h o rows : frame_ready f -> cube 2 36 32 rows -> frame_ready (MkFrame h o rows (overlap f)).
Proof. intros Hf Hr. split; [exact Hr|]. apply (fy_overlap _ Hf). Qed.

Section Layers.
Variables (W : Z) (mem : list Z) (ls : layer_stack).
Hypotheses (HW : 32 <= W) (Hmem : bytes_ok mem) (Hmax : 8 * zlen mem < 2 ^ 32) (Hls : stack_ready ls).

(** The pointer behind a header, with room behind it. *)
Record at_frame (s : mad_stream) : Prop := AtFrame {
  af_ptr : bitptr_ok mem (ptr s) /\ pos (ptr s) = 8 * mad_bit_nextbyte (ptr s);
  af_room : pos (ptr s) + 36000 <= 8 * zlen mem;
  af_next : next_frame s + MAD_BUFFER_GUARD <= zlen mem
}.

(** A layer has ended. *)
Definition ended (s : mad_stream) (f : mad_frame) (out : Z * mad_stream * main_buffer * mad_frame) : Prop :=
  let '(r, s', m', f') := out in
  reported s r s' /\ main_ok m' /\ frame_ready f' /\ same_position s s' /\ header_kept (header f) (header f').

Lemma layer_I_ended s m f : at_frame s -> main_ok m -> frame_ready f -> header_coded (header f) ->
  exists r s' f', mad_layer_I W mem (ls_allocation ls) (ls_scalefactor1 ls) s f = Some (r, s', f') /\ ended s f (r, s', m, f').
Proof.
  intros [[Hp _] Hroom _] Hm Hf Hh. pose proof (coded_fields _ Hh) as Hfields.
  destruct (layer_I_spec W mem (ls_allocation ls) (ls_scalefactor1 ls) s f HW Hmem Hp (sk_allocation _ Hls) (proj1 (sk_factors _ Hls))
    (fy_samples _ Hf) Hfields) as (r&err&p&rows&->&Hout).
  { pose proof (I_room mem (pos (ptr s)) (header f) Hfields). lia. }
  eexists _, _, _. split; [done|]. assert (header_kept (header f) (I_header mem s f)) as Hk by apply crc_kept_header.
  destruct Hout as [_|? ? _ _ _ _ _|? ? _ _ _ _ Hc _]; (split; [first [by left|by right]|]); (split; [done|]); (split; [|by split]).
  all: apply (ready_rows f); first [exact Hf|exact Hc|apply Hf].
Qed.

Lemma layer_II_ended s m f : at_frame s -> main_ok m -> frame_ready f -> header_coded (header f) ->
  exists r s' f', mad_layer_II W mem (ls_allocation ls) (ls_scfsi ls) (ls_scalefactor2 ls) s f = Some (r, s', f') /\ ended s f (r, s', m, f').
Proof.
  intros [[Hp _] Hroom _] Hm Hf Hh. pose proof (coded_fields _ Hh) as Hfields.
  destruct (layer_II_spec W mem (ls_allocation ls) (ls_scfsi ls) (ls_scalefactor2 ls) s f HW Hmem Hmax Hp (sk_allocation _ Hls) (sk_scfsi _ Hls)
    (proj2 (sk_factors _ Hls)) (fy_samples _ Hf) Hfields) as (r&err&p&h&rows&->&Hout).
  { pose proof (II_room_header mem (pos (ptr s)) (header f) Hfields). lia. }
  eexists _, _, _. split; [done|]. assert (header_kept (header f) (II_header mem s f)) as Hk by apply crc_kept_header.
  destruct Hout as [_|? _ _ _ _|? ? _ _ _ _ Hc _]; (split; [first [by left|by right]|]); (split; [done|]); (split; [|by split]).
  all: apply (ready_rows f); first [exact Hf|exact Hc|apply Hf].
Qed.

Lemma decoder_table_ended s m f : at_frame s -> main_ok m -> frame_ready f -> header_coded (header f) -> 1 <= layer (header f) <= 3 ->
  exists out, decoder_table W mem (layer (header f)) ls s m f = Some out /\ ended s f out.
Proof.
  intros Hs Hm Hf Hh Hl. unfold decoder_table.
  destruct (Z.eqb_spec (layer (header f) - 1) 0).
  { destruct (layer_I_ended s m f) as (r&s'&f'&->&H); try done. by eexists. }
  destruct (Z.eqb_spec (layer (header f) - 1) 1).
  { destruct (layer_II_ended s m f) as (r&s'&f'&->&H); try done. by eexists. }
  destruct (Z.eqb_spec (layer (header f) - 1) 2); [|lia].
  destruct (coded_good _ Hh) as [r Hgood]. destruct Hs as [Hp Hroom Hnext].
  destruct (layer_III_total W mem r (ls_decode ls) (bitset (flags (header f)) MAD_FLAG_LSF_EXT) HW Hmem Hmax (proj1 (sk_decode _ Hls)) s m f
    (ls_main ls) (ls_overlap ls) (ls_side ls)) as ([[[res s'] m'] f']&E&Hrep&Hm'&Hf'&_); try apply Hls; try done.
  { split; [done|done| |done|by apply Hh]. assert (si_length (header f) <= 32) by (unfold si_length; repeat case_match; lia). lia. }
  rewrite E. eexists. split; [done|]. apply layer_III_kept in E as [Hk1 Hk2]. split; [exact Hrep|]. do 2 (split; [done|]). by split.
Qed.
End Layers.

(** ** Calls of [mad_frame_decode] *)

(** The state between two calls: a header that was found ahead is still at its frame. *)
Record decoder_ok (W : Z) (buf : list Z) (f : mad_frame) (s : mad_stream) (m : main_buffer) : Prop := DecoderOk {
  dk_stream : stream_ok W buf s;
  dk_main : main_ok m;
  dk_frame : frame_ready f;
  dk_pending : bitset (flags (header f)) MAD_FLAG_INCOMPLETE = true -> frame_found W buf (header f) s
}.

Section Calls.
Variables (W : Z) (buf tail : list Z) (ls : layer_stack).
Hypotheses (HW : 32 <= W) (Hmem : bytes_ok (buf ++ tail)) (Hbuf : zlen buf <= max_buffer W) (Htail : 4608 <= zlen tail)
  (Hmax : 8 * zlen (buf ++ tail) < 2 ^ 32) (Hls : stack_ready ls).

Lemma stream_same s s' : stream_ok W buf s -> same_position s s' -> stream_ok W buf s'.
Proof. unfold stream_ok, limits_ok. intros Hs (E1&E2&E3&E4&E5&E6&E7). by rewrite E1, E2, E4, E5, E6. Qed.

(** A frame that was found in the buffer, in the memory. *)
Lemma found_at h s : stream_ok W buf s -> frame_found W buf h s -> at_frame (buf ++ tail) s.
Proof using Htail.
  intros (He&Ht&_) [_ _ _ [Hn Hl] Hg _ _ _ [[Hp1 Hp2 Hp3] Hpos]]. unfold MAD_BUFFER_GUARD in *.
  assert (zlen (buf ++ tail) = zlen buf + zlen tail) as El by (rewrite length_app; lia).
  assert (bitptr_ok (buf ++ tail) (ptr s)) as Hp by (split; [done|done|]; intros H; by apply aget_extends, Hp3).
  split; [split; [done|]| |unfold MAD_BUFFER_GUARD; lia].
  - rewrite (nextbyte_spec _ _ Hp). destruct Hpos as [-> | ->]; zdiv.
  - lia.
Qed.

(** A header, looked for unless one is pending. *)
Lemma header_step f s m : decoder_ok W buf f s m ->
  exists r h s', (if negb (bitset (flags (header f)) MAD_FLAG_INCOMPLETE) then
                    '(r, h, s) ← mad_header_decode W (buf ++ tail) (header f) s; Some (r, set_header f h, s)
                  else Some (0, f, s)) = Some (r, set_header f h, s') /\ stream_ok W buf s' /\
    (r = -1 /\ error s' <> 0 /\ unmarked h \/ r = 0 /\ frame_found W buf h s') /\
    (unmarked (header f) -> mad_header_decode W buf (header f) s = Some (r, h, s')).
Proof.
  intros [Hs _ _ Hpend]. unfold unmarked at 2. destruct (bitset (flags (header f)) MAD_FLAG_INCOMPLETE) eqn:Ei; cbn [negb].
  { exists 0, (header f), s. split; [by destruct f|]. split; [done|]. split; [right; auto|done]. }
  assert (bytes_ok buf) as Hb by (by apply Forall_app in Hmem as [? _]).
  destruct (header_decode_total W buf (header f) s HW Hb Hbuf Hs) as (r&h&s'&E&Hs'&Hpost).
  rewrite (header_decode_extends W buf tail (header f) s _ E). cbn [mbind option_bind]. exists r, h, s'. split; [done|]. split; [done|]. split; [|done].
  destruct Hpost as [(->&_&He)|[-> Hf]]; [left|by right]. split; [done|]. split; [exact He|]. by apply (header_unmarked W buf (header f) s h s').
Qed.

(** Where a call that looks for a header finds it, and what it leaves of the position. *)
Inductive frame_located (h : mad_header) (s : mad_stream) (r : Z) (f' : mad_frame) (s' : mad_stream) : Prop :=
| NoHeader h1 : r = -1 -> mad_header_decode W buf h s = Some (-1, h1, s') -> frame_located h s r f' s'
| AtHeader h1 s1 : mad_header_decode W buf h s = Some (0, h1, s1) -> frame_found W buf h1 s1 -> samplerate (header f') = samplerate h1 /\ mode (header f') = mode h1 ->
    same_position s1 s' \/ r = -1 /\ MAD_RECOVERABLE (error s') = false -> frame_located h s r f' s'.

Lemma frame_total f s m : decoder_ok W buf f s m ->
  exists r f' s' m', mad_frame_decode W (buf ++ tail) ls f s m = Some (r, f', s', m') /\ decoder_ok W buf f' s' m' /\
    unmarked (header f') /\ (r = 0 \/ r = -1 /\ error s' <> 0 /\ anc_bitlen m' = 0) /\
    (unmarked (header f) -> frame_located (header f) s r f' s').
Proof.
  intros Hd. unfold mad_frame_decode. set (f0 := MkFrame (header f) (options s) (sbsample f) (overlap f)).
  assert (decoder_ok W buf f0 s m) as Hd0 by (destruct Hd as [? ? [? ?] ?]; split; [done|done|by split|done]).
  destruct (header_step f0 s m Hd0) as (r&h&s1&->&Hs1&Hcase&Hloc). cbn [mbind option_bind]. clear Hd. destruct Hd0 as [_ Hm [Hf Ho] _].
  destruct Hcase as [(->&He&Hu)|[-> Hfound]]; cbn [Z.eqb Pos.eqb].
  { eexists _, _, _, _. split; [done|]. split; [|split; [exact Hu|split; [by right|intros Hf0; by eapply NoHeader, Hloc]]]. split; [done|by split; apply Hm|by split|].
    cbn [header set_header]. intros H. by rewrite Hu in H. }
  cbv zeta. cbn [header set_header fr_options sbsample overlap]. fold (completed h). unfold f0. cbn [header fr_options sbsample overlap].
  set (f1 := MkFrame (completed h) (options s) (sbsample f) (overlap f)).
  destruct (decoder_table_ended W (buf ++ tail) ls HW Hmem Hmax Hls s1 m f1) as ([[[r s2] m2] f2]&E&Hrep&Hm2&Hf2&Hsame&Hkept);
    [by eapply found_at|done|by split|by apply completed_coded, (ff_coded _ _ _ _ Hfound)|apply (ff_layer _ _ _ _ Hfound)|].
  match goal with |- context [decoder_table W _ ?l ls s1 m ?g] => change (decoder_table W (buf ++ tail) l ls s1 m g) with (decoder_table W (buf ++ tail) (layer (header f1)) ls s1 m f1) end. rewrite E. cbn [mbind option_bind].
  assert (unmarked (header f2)) as Hu by (unfold unmarked; rewrite (proj1 (proj2 Hkept)); apply completed_flag).
  assert (stream_ok W buf s2) as Hs2 by (by apply (stream_same s1)).
  assert (forall s' m', stream_ok W buf s' -> main_ok m' -> decoder_ok W buf f2 s' m') as Hok.
  { intros s' m' H1 H2. split; [done|done|done|]. intros H. by rewrite Hu in H. }
  destruct Hrep as [[-> _]|[-> He]]; cbn [Z.eqb Pos.eqb].
  - eexists _, _, _, _. split; [done|]. split; [|split; [done|split; [by left|]]]; [apply Hok; [done|]; case_match; [by split; apply Hm2|done]|].
    intros Hf0. eapply AtHeader; [by apply Hloc|done|exact (proj2 (proj2 Hkept))|by left].
  - eexists _, _, _, _. split; [done|]. split; [|split; [done|split; [right; split; [done|split; [by case_match|done]]|]]].
    2: { intros Hf0. eapply AtHeader; [by apply Hloc|done|exact (proj2 (proj2 Hkept))|]. destruct (MAD_RECOVERABLE (error s2)) eqn:Er; cbn [negb]; [by left|by right]. }
    apply Hok; [|by split; apply Hm2]. case_match; [|done]. destruct Hs2 as (H1&H2&H3&H4). by split.
Qed.
End Calls.

(** ** Claims *)

(** C7: frames of any bytes, over any sequence of calls.  Let the buffer hold any bytes, of
    at most a megabyte, let 4608 bytes behind it be readable, and let the decoder be as
    [mad_stream_buffer], [mad_frame_init] or an earlier call left it, with a header that
    [mad_header_decode] found ahead or without.  Then [mad_frame_decode] ends, for every layer: it
    accesses no array out of its bounds, it returns 0, or -1 with an error set and no
    ancillary bits, and it leaves the stream, the frame and the reservoir ready for the
    next call and no header pending. *)
Theorem mad_frame_decode_safe W buf tail ls f s m :
  32 <= W -> bytes_ok (buf ++ tail) -> zlen buf <= max_buffer W -> 4608 <= zlen tail -> 8 * zlen (buf ++ tail) < 2 ^ 32 ->
  stack_ready ls -> decoder_ok W buf f s m ->
  exists r f' s' m', mad_frame_decode W (buf ++ tail) ls f s m = Some (r, f', s', m') /\ decoder_ok W buf f' s' m' /\
    bitset (flags (header f')) MAD_FLAG_INCOMPLETE = false /\ (r = 0 \/ r = -1 /\ error s' <> 0 /\ anc_bitlen m' = 0).
Proof. intros HW Hmem Hbuf Htail Hmax Hls Hd. destruct (frame_total W buf tail ls HW Hmem Hbuf Htail Hmax Hls f s m Hd) as (r&f'&s'&m'&?&?&?&?&_). by exists r, f', s', m'. Qed.

(** A Layer III frame of silence, then another header. *)
Definition silent_input : list Z := [255; 251; 16; 192] ++ repeat 0 100 ++ [255; 251; 16; 192] ++ repeat 0 8.

Definition fresh_stack : layer_stack :=
  LayerStack (repeat (repeat 1 32) 2) (repeat (repeat 2 32) 2) (repeat (repeat 3 32) 2) (repeat (repeat (repeat 4 3) 32) 2)
    overread_stack empty_side (Some (repeat 165 2567)) (Some (repeat (repeat (repeat 0 18) 32) 2)).

Lemma fresh_stack_ready : stack_ready fresh_stack.
Proof.
  split; [split; [reflexivity|repeat constructor]..| | | |].
  - split; (split; [reflexivity|repeat constructor]).
  - split.
    * split; [split; [reflexivity|apply (bool_decide_unpack _); vm_compute; exact I]|reflexivity|split; reflexivity|reflexivity|
        split; reflexivity|split; [|split]; reflexivity].
    * split; [reflexivity|]. split; [reflexivity|]. repeat constructor; apply Z.leb_le || apply Z.ltb_lt; reflexivity.
  - intros d [= <-]. split; [reflexivity|]. apply (bool_decide_unpack _). vm_compute. exact I.
  - intros o [= <-]. split; [reflexivity|]. repeat constructor.
Qed.

Definition fresh_frame : mad_frame := MkFrame mad_header_init 0 (repeat (repeat (repeat 0 32) 36) 2) None.

Lemma mad_frame_decode_safe_witness :
  let s := mad_stream_buffer mad_stream_init 116 in let m := MkMain None 0 (false, mad_bit_init 0) 0 in
  exists r f' s' m', mad_frame_decode 64 (silent_input ++ repeat 0xff 4608) fresh_stack fresh_frame s m = Some (r, f', s', m') /\
    decoder_ok 64 silent_input f' s' m' /\
    bitset (flags (header f')) MAD_FLAG_INCOMPLETE = false /\ (r = 0 \/ r = -1 /\ error s' <> 0 /\ anc_bitlen m' = 0).
Proof.
  intros s m. apply (mad_frame_decode_safe 64 silent_input).
  - apply Z.leb_le. reflexivity.
  - apply (bool_decide_unpack _). vm_compute. exact I.
  - apply Z.leb_le. reflexivity.
  - apply Z.leb_le. reflexivity.
  - apply Z.ltb_lt. reflexivity.
  - apply fresh_stack_ready.
  - split.
    + split; [reflexivity|]. split; [split; apply Z.leb_le; reflexivity|]. split; [split; apply Z.leb_le; reflexivity|].
      split; [left; reflexivity|split; [apply Z.leb_le|apply Z.ltb_lt]; reflexivity].
    + split; [split; apply Z.leb_le; reflexivity|]. intros d H. discriminate H.
    + split; [split; [reflexivity|]|intros o H; discriminate H]. repeat constructor.
    + intros H. discriminate H.
Defined.
