(* ===== verification/MadDct.v ===== *)
(** The 32-point cosine transform of [src/libmad/synth.c]: the fast algorithm of [dct32]
    over the interface [Fixed] of MadImdct, against the cosine sums that define it. *)
From S2P Require Import Prelude MadRequantize MadImdct MadLayer3 MadHybrid.

(** ** The fast transform *)

Definition costab1 : Z := 0x0ffb10f2.
Definition costab2 : Z := 0x0fec46d2.
Definition costab3 : Z := 0x0fd3aac0.
Definition costab4 : Z := 0x0fb14be8.
Definition costab5 : Z := 0x0f853f7e.
Definition costab6 : Z := 0x0f4fa0ab.
Definition costab7 : Z := 0x0f109082.
Definition costab8 : Z := 0x0ec835e8.
Definition costab9 : Z := 0x0e76bd7a.
Definition costab10 : Z := 0x0e1c5979.
Definition costab11 : Z := 0x0db941a3.
Definition costab12 : Z := 0x0d4db315.
Definition costab13 : Z := 0x0cd9f024.
Definition costab14 : Z := 0x0c5e4036.
Definition costab15 : Z := 0x0bdaef91.
Definition costab16 : Z := 0x0b504f33.
Definition costab17 : Z := 0x0abeb49a.
Definition costab18 : Z := 0x0a267993.
Definition costab19 : Z := 0x0987fbfe.
Definition costab20 : Z := 0x08e39d9d.
Definition costab21 : Z := 0x0839c3cd.
Definition costab22 : Z := 0x078ad74e.
Definition costab23 : Z := 0x06d74402.
Definition costab24 : Z := 0x061f78aa.
Definition costab25 : Z := 0x0563e69d.
Definition costab26 : Z := 0x04a5018c.
Definition costab27 : Z := 0x03e33f2f.
Definition costab28 : Z := 0x031f1708.
Definition costab29 : Z := 0x0259020e.
Definition costab30 : Z := 0x01917a6c.
Definition costab31 : Z := 0x00c8fb30.

(** A local variable: [let] as a function, which a proof can step through. *)
Definition local_var {A B} (x : A) (f : A -> B) : B := f x.
Local Notation "'var' t := a 'in' b" := (local_var a (fun t => b)) (at level 10, t name, b at level 200).

Section Dct.
Context {T : Type} {F : Fixed T}.

Local Infix "+." := fx_add (at level 50, left associativity).
Local Infix "-." := fx_sub (at level 50, left associativity).
Local Infix "*." := fx_mul (at level 40, left associativity).
Local Notation "2* x" := (fx_add x x) (at level 35).

(** The 32 results before the second shift, in the order of their frequencies. *)
Definition dct32_values (x : Z -> T) : list T :=
  var t0 := x 0 +. x 31 in var t16 := (x 0 -. x 31) *. costab1 in var t1 := x 15 +. x 16 in
  var t17 := (x 15 -. x 16) *. costab31 in var t41 := t16 +. t17 in var t59 := (t16 -. t17) *. costab2 in
  var t33 := t0 +. t1 in var t50 := (t0 -. t1) *. costab2 in var t2 := x 7 +. x 24 in var t18 := (x 7 -. x 24) *. costab15 in
  var t3 := x 8 +. x 23 in var t19 := (x 8 -. x 23) *. costab17 in var t42 := t18 +. t19 in
  var t60 := (t18 -. t19) *. costab30 in var t34 := t2 +. t3 in var t51 := (t2 -. t3) *. costab30 in var t4 := x 3 +. x 28 in
  var t20 := (x 3 -. x 28) *. costab7 in var t5 := x 12 +. x 19 in var t21 := (x 12 -. x 19) *. costab25 in
  var t43 := t20 +. t21 in var t61 := (t20 -. t21) *. costab14 in var t35 := t4 +. t5 in var t52 := (t4 -. t5) *. costab14 in
  var t6 := x 4 +. x 27 in var t22 := (x 4 -. x 27) *. costab9 in var t7 := x 11 +. x 20 in
  var t23 := (x 11 -. x 20) *. costab23 in var t44 := t22 +. t23 in var t62 := (t22 -. t23) *. costab18 in
  var t36 := t6 +. t7 in var t53 := (t6 -. t7) *. costab18 in var t8 := x 1 +. x 30 in var t24 := (x 1 -. x 30) *. costab3 in
  var t9 := x 14 +. x 17 in var t25 := (x 14 -. x 17) *. costab29 in var t45 := t24 +. t25 in
  var t63 := (t24 -. t25) *. costab6 in var t37 := t8 +. t9 in var t54 := (t8 -. t9) *. costab6 in var t10 := x 6 +. x 25 in
  var t26 := (x 6 -. x 25) *. costab13 in var t11 := x 9 +. x 22 in var t27 := (x 9 -. x 22) *. costab19 in
  var t46 := t26 +. t27 in var t64 := (t26 -. t27) *. costab26 in var t38 := t10 +. t11 in
  var t55 := (t10 -. t11) *. costab26 in var t12 := x 2 +. x 29 in var t28 := (x 2 -. x 29) *. costab5 in
  var t13 := x 13 +. x 18 in var t29 := (x 13 -. x 18) *. costab27 in var t47 := t28 +. t29 in
  var t65 := (t28 -. t29) *. costab10 in var t39 := t12 +. t13 in var t56 := (t12 -. t13) *. costab10 in
  var t14 := x 5 +. x 26 in var t30 := (x 5 -. x 26) *. costab11 in var t15 := x 10 +. x 21 in
  var t31 := (x 10 -. x 21) *. costab21 in var t48 := t30 +. t31 in var t66 := (t30 -. t31) *. costab22 in
  var t40 := t14 +. t15 in var t57 := (t14 -. t15) *. costab22 in var t69 := t33 +. t34 in
  var t89 := (t33 -. t34) *. costab4 in var t70 := t35 +. t36 in var t90 := (t35 -. t36) *. costab28 in
  var t71 := t37 +. t38 in var t91 := (t37 -. t38) *. costab12 in var t72 := t39 +. t40 in
  var t92 := (t39 -. t40) *. costab20 in var t73 := t41 +. t42 in var t94 := (t41 -. t42) *. costab4 in
  var t74 := t43 +. t44 in var t95 := (t43 -. t44) *. costab28 in var t75 := t45 +. t46 in
  var t96 := (t45 -. t46) *. costab12 in var t76 := t47 +. t48 in var t97 := (t47 -. t48) *. costab20 in
  var t78 := t50 +. t51 in var t100 := (t50 -. t51) *. costab4 in var t79 := t52 +. t53 in
  var t101 := (t52 -. t53) *. costab28 in var t80 := t54 +. t55 in var t102 := (t54 -. t55) *. costab12 in
  var t81 := t56 +. t57 in var t103 := (t56 -. t57) *. costab20 in var t83 := t59 +. t60 in
  var t106 := (t59 -. t60) *. costab4 in var t84 := t61 +. t62 in var t107 := (t61 -. t62) *. costab28 in
  var t85 := t63 +. t64 in var t108 := (t63 -. t64) *. costab12 in var t86 := t65 +. t66 in
  var t109 := (t65 -. t66) *. costab20 in var t113 := t69 +. t70 in var t114 := t71 +. t72 in var t115 := t73 +. t74 in
  var t116 := t75 +. t76 in var t32 := t115 +. t116 in var t118 := t78 +. t79 in var t119 := t80 +. t81 in
  var t58 := t118 +. t119 in var t121 := t83 +. t84 in var t122 := t85 +. t86 in var t67 := t121 +. t122 in
  var t49 := (2* t67) -. t32 in var t125 := t89 +. t90 in var t126 := t91 +. t92 in var t93 := t125 +. t126 in
  var t128 := t94 +. t95 in var t129 := t96 +. t97 in var t98 := t128 +. t129 in var t68 := (2* t98) -. t49 in
  var t132 := t100 +. t101 in var t133 := t102 +. t103 in var t104 := t132 +. t133 in var t82 := (2* t104) -. t58 in
  var t136 := t106 +. t107 in var t137 := t108 +. t109 in var t110 := t136 +. t137 in var t87 := (2* t110) -. t67 in
  var t77 := (2* t87) -. t68 in var t141 := (t69 -. t70) *. costab8 in var t142 := (t71 -. t72) *. costab24 in
  var t143 := t141 +. t142 in var t144 := (t73 -. t74) *. costab8 in var t145 := (t75 -. t76) *. costab24 in
  var t146 := t144 +. t145 in var t88 := (2* t146) -. t77 in var t148 := (t78 -. t79) *. costab8 in
  var t149 := (t80 -. t81) *. costab24 in var t150 := t148 +. t149 in var t105 := (2* t150) -. t82 in
  var t152 := (t83 -. t84) *. costab8 in var t153 := (t85 -. t86) *. costab24 in var t154 := t152 +. t153 in
  var t111 := (2* t154) -. t87 in var t99 := (2* t111) -. t88 in var t157 := (t89 -. t90) *. costab8 in
  var t158 := (t91 -. t92) *. costab24 in var t159 := t157 +. t158 in var t127 := (2* t159) -. t93 in
  var t160 := (2* ((t125 -. t126) *. costab16)) -. t127 in var t161 := (t94 -. t95) *. costab8 in
  var t162 := (t96 -. t97) *. costab24 in var t163 := t161 +. t162 in var t130 := (2* t163) -. t98 in
  var t112 := (2* t130) -. t99 in var t164 := (2* ((t128 -. t129) *. costab16)) -. t130 in
  var t166 := (t100 -. t101) *. costab8 in var t167 := (t102 -. t103) *. costab24 in var t168 := t166 +. t167 in
  var t134 := (2* t168) -. t104 in var t120 := (2* t134) -. t105 in var t135 := (2* ((t118 -. t119) *. costab16)) -. t120 in
  var t169 := (2* ((t132 -. t133) *. costab16)) -. t134 in var t151 := (2* t169) -. t135 in
  var t170 := (2* ((2* ((t148 -. t149) *. costab16)) -. t150)) -. t151 in var t171 := (t106 -. t107) *. costab8 in
  var t172 := (t108 -. t109) *. costab24 in var t173 := t171 +. t172 in var t138 := (2* t173) -. t110 in
  var t123 := (2* t138) -. t111 in var t139 := (2* ((t121 -. t122) *. costab16)) -. t123 in var t117 := (2* t123) -. t112 in
  var t124 := (2* ((t115 -. t116) *. costab16)) -. t117 in var t131 := (2* t139) -. t124 in var t140 := (2* t164) -. t131 in
  var t174 := (2* ((t136 -. t137) *. costab16)) -. t138 in var t155 := (2* t174) -. t139 in var t147 := (2* t155) -. t140 in
  var t156 := (2* ((2* ((t144 -. t145) *. costab16)) -. t146)) -. t147 in
  var t175 := (2* ((2* ((t152 -. t153) *. costab16)) -. t154)) -. t155 in var t165 := (2* t175) -. t156 in
  var t176 := (2* ((2* ((2* ((t161 -. t162) *. costab16)) -. t163)) -. t164)) -. t165 in
  [t113 +. t114; t32; t58; t49; t93; t68; t82; t77; t143; t88; t105; t99; t127; t112; t120; t117;
   (t113 -. t114) *. costab16; t124; t135; t131; t160; t140; t151; t147; (2* ((t141 -. t142) *. costab16)) -. t143; t156;
   t170; t165; (2* ((2* ((t157 -. t158) *. costab16)) -. t159)) -. t160; t176;
   (2* ((2* ((2* ((t166 -. t167) *. costab16)) -. t168)) -. t169)) -. t170;
   (2* ((2* ((2* ((2* ((t171 -. t172) *. costab16)) -. t173)) -. t174)) -. t175)) -. t176].
End Dct.

Section Store.
Variable long_bits : Z.
#[local] Instance words32 : Fixed Z := fixed_words long_bits.

(** [SHIFT] of [OPT_SSO], rounding. *)
Definition SHIFT (x : Z) : Z := s32 (wraps long_bits (x + (1 .<< 11)) .>> 12).

Definition dct32 (inp : list Z) (slot : Z) (lo hi : list (list Z)) : option (list (list Z) * list (list Z)) :=
  if negb (zlen inp =? 32) then None else
  let t := dct32_values (fun i => nth (Z.to_nat i) inp 0) in
  hi ← for_range 0 16 (fun s hi => a ← aget t (15 - s); set2 hi s slot (SHIFT a)) hi;
  lo ← for_range 0 16 (fun s lo => a ← aget t (16 + s); set2 lo s slot (SHIFT a)) lo;
  Some (lo, hi).
End Store.

(** ** The transform by its definition *)

(** [cos(i * PI / 64)] in units of [2 ^ -28]: the constants of the code. *)
Definition costab : list Z := [
  2 ^ 28; costab1; costab2; costab3; costab4; costab5; costab6; costab7; costab8; costab9; costab10; costab11; costab12;
  costab13; costab14; costab15; costab16; costab17; costab18; costab19; costab20; costab21; costab22; costab23; costab24;
  costab25; costab26; costab27; costab28; costab29; costab30; costab31; 0].

(** [cos(m * PI / 64)] for any [m]. *)
Definition cos64 (m : Z) : Z :=
  let m := m mod 128 in
  let m := if m <=? 64 then m else 128 - m in
  if m <=? 32 then nth (Z.to_nat m) costab 0 else - nth (Z.to_nat (64 - m)) costab 0.

(** The coefficient of input [i] in result [k], in units of [2 ^ -56]. *)
Definition dct_coefficient (k i : nat) : Z := 2 ^ 28 * cos64 ((2 * Z.of_nat i + 1) * Z.of_nat k).

(** Rows that the transform is bounded on: each sample up to 0.058, *)
Definition max_subband : Z := 15 * 2 ^ 20.

Definition small_row (inp : list Z) : Prop := Forall (fun x => Z.abs x <= max_subband) inp.

(** or any whose absolute values add up to at most 3.5. *)
Definition row_ok (inp : list Z) : Prop := length inp = 32%nat /\ (small_row inp \/ norm1 inp <= 7 * 2 ^ 27).

Definition dct_form (B B1 : Z) : list affine := @dct32_values affine (affine_forms 32 B B1) (fun i => input 32 (Z.to_nat i)).

(** ** Two runs *)

Lemma var_rel {A A' B B'} (R : A -> A' -> Prop) (S : B -> B' -> Prop) a a' (f : A -> B) (f' : A' -> B') :
  R a a' -> (forall x x', R x x' -> S (f x) (f' x')) -> S (local_var a f) (local_var a' f').
Proof. intros H1 H2. by apply H2. Qed.

Section Programs.
Context {T T' : Type} (Fz : Fixed T) (Fa : Fixed T') (R : T -> T' -> Prop) `{HR : !Related Fz Fa R}.
Variables (x : Z -> T) (x' : Z -> T').
Hypothesis Hx : forall i, 0 <= i < 32 -> R (x i) (x' i).

(** A term whose parts are related. *)
Ltac term_rel :=
  repeat first [assumption | apply Hx; lia | apply (add_rel (Related := HR)) | apply (sub_rel (Related := HR)) | apply (mul_rel (Related := HR))].

Ltac next_var := apply (var_rel R (Forall2 R)); [term_rel|cbv beta; intros ? ? ?].

Lemma dct32_values_rel : Forall2 R (@dct32_values T Fz x) (@dct32_values T' Fa x').
Proof. unfold dct32_values. repeat next_var. repeat (apply Forall2_cons_2; [term_rel|]). by apply Forall2_nil_2. Qed.
End Programs.

(** ** Cells *)

Section Column.
Variables (bank0 : list (list Z)) (slot : Z).
Hypotheses (Hbank : grid 16 8 bank0) (Hslot : 0 <= slot < 8).

(** A column of a bank is stored. *)
Lemma store_column (g : Z -> Z) (body : Z -> list (list Z) -> option (list (list Z))) :
  (forall s b, 0 <= s < 16 -> body s b = set2 b s slot (g s)) ->
  exists b, for_range 0 16 body bank0 = Some b /\ grid 16 8 b /\
  forall s v, 0 <= s < 16 -> 0 <= v < 8 -> get2 b s v = if v =? slot then Some (g s) else get2 bank0 s v.
Proof.
  intros Hbody. destruct (for_range_inv (fun k b => grid 16 8 b /\
    forall s v, 0 <= s < 16 -> 0 <= v < 8 -> get2 b s v = if (v =? slot) && (s <? k) then Some (g s) else get2 bank0 s v) 0 16 body bank0) as (b&E&Hb&H).
  - lia.
  - split; [done|]. intros s v Hs Hv. rewrite (proj2 (Z.ltb_ge _ _)), andb_false_r by lia. done.
  - intros k b Hk [Hb H]. rewrite Hbody by lia. destruct (grid_set 16 8 b k slot (g k) Hb) as (b'&->&Hb'&H'); [lia|lia|].
    exists b'. split; [done|]. split; [done|]. intros s v Hs Hv. rewrite H', H by lia.
    destruct (Z.eqb_spec s k) as [->|Hne], (Z.eqb_spec v slot); cbn [andb]; try done.
    + by rewrite (proj2 (Z.ltb_lt _ _)) by lia.
    + destruct (Z.ltb_spec s k), (Z.ltb_spec s (k + 1)); done || lia.
  - exists b. split; [done|]. split; [done|]. intros s v Hs Hv. rewrite H by done. by rewrite (proj2 (Z.ltb_lt _ _)), andb_true_r by lia.
Qed.
End Column.

(** ** The transform *)

Lemma dct_length W x : length (@dct32_values Z (fixed_words W) x) = 32%nat.
Proof. done. Qed.

(** The values of an input, unshifted. *)
Definition dct_of (W : Z) (inp : list Z) (k : Z) : Z :=
  nth (Z.to_nat k) (@dct32_values Z (fixed_words W) (fun i => nth (Z.to_nat i) inp 0)) 0.

Lemma dct32_spec W inp slot lo hi : length inp = 32%nat -> grid 16 8 lo -> grid 16 8 hi -> 0 <= slot < 8 ->
  exists lo' hi', dct32 W inp slot lo hi = Some (lo', hi') /\ grid 16 8 lo' /\ grid 16 8 hi' /\
  forall s v, 0 <= s < 16 -> 0 <= v < 8 ->
    get2 lo' s v = (if v =? slot then Some (SHIFT W (dct_of W inp (16 + s))) else get2 lo s v) /\
    get2 hi' s v = (if v =? slot then Some (SHIFT W (dct_of W inp (15 - s))) else get2 hi s v).
Proof.
  intros Hl Hlo Hhi Hslot. unfold dct32. rewrite Hl. cbn [Z.of_nat Z.eqb negb Pos.eqb Pos.of_succ_nat Pos.succ].
  set (t := dct32_values _). assert (length t = 32%nat) as Ht by apply (dct_length W).
  assert (forall k, 0 <= k < 32 -> aget t k = Some (dct_of W inp k)) as Hget.
  { intros k Hk. rewrite aget_lookup by lia. unfold dct_of. fold t. apply nth_lookup_Some_2 || idtac.
    destruct (lookup_lt_is_Some_2 t (Z.to_nat k)) as [v E]; [lia|]. rewrite E. f_equal. symmetry. by apply nth_lookup_Some. }
  destruct (store_column hi slot Hhi Hslot (fun s => SHIFT W (dct_of W inp (15 - s))) (fun s hi => a ← aget t (15 - s); set2 hi s slot (SHIFT W a)))
    as (hi'&->&Hhi'&H1); [intros; by rewrite Hget by lia|]. cbn [mbind option_bind].
  destruct (store_column lo slot Hlo Hslot (fun s => SHIFT W (dct_of W inp (16 + s))) (fun s lo => a ← aget t (16 + s); set2 lo s slot (SHIFT W a)))
    as (lo'&->&Hlo'&H2); [intros; by rewrite Hget by lia|]. cbn [mbind option_bind].
  exists lo', hi'. split; [done|]. split; [done|]. split; [done|]. intros s v Hs Hv. by rewrite H1, H2.
Qed.

Lemma forallb_imap {A} (p : nat * A -> bool) l k a : forallb p (imap pair l) = true -> l !! k = Some a -> p (k, a) = true.
Proof.
  intros H E. rewrite forallb_forall in H. apply H, list_elem_of_In, list_elem_of_lookup. exists k. by rewrite list_lookup_imap, E.
Qed.

(** Every result is near its cosine sum: the result of frequency [k] up to [E * k]. *)
Definition dct_check (B B1 E : Z) : bool :=
  forallb (fun '(k, a) => af_ok a && (af_bound B B1 a <? 2 ^ 31 - 2 ^ 12) &&
    (form_error B B1 a (dct_coefficient k) <=? E * Z.of_nat k * 2 ^ 64)) (imap pair (dct_form B B1)).

Definition dct_error (m : Z) : Z := 1040000 * m + 170000.

Lemma small_checked : dct_check max_subband (32 * max_subband) 900000 = true.
Proof. vm_compute. reflexivity. Qed.

Lemma sums_checked m : m = 4 \/ m = 14 -> dct_check (m * 2 ^ 26) (m * 2 ^ 26) (dct_error m) = true.
Proof. intros [-> | ->]; vm_compute; reflexivity. Qed.

Lemma small_row_bounded inp : length inp = 32%nat -> small_row inp -> bounded max_subband (32 * max_subband) inp.
Proof. intros Hl H. replace 32 with (zlen inp) by (by rewrite Hl). by apply bounded_norm1. Qed.

Section Near.
Variables (W B B1 E : Z) (inp : list Z).
Hypotheses (HW : 32 <= W) (Hl : length inp = 32%nat) (Hx : bounded B B1 inp) (Hc : dct_check B B1 E = true).

Lemma dct_models : Forall2 (models inp) (@dct32_values Z (fixed_words W) (fun i => nth (Z.to_nat i) inp 0)) (dct_form B B1).
Proof.
  pose proof (models_related W B B1 inp HW Hx) as HR. rewrite Hl in HR.
  apply (dct32_values_rel _ _ _ (HR := HR)). intros i Hi. destruct (lookup_lt_is_Some_2 inp (Z.to_nat i)) as [v Ev]; [lia|].
  rewrite (nth_lookup_Some _ _ _ _ Ev), <- Hl. by apply models_input.
Qed.

Lemma dct_near k : 0 <= k < 32 ->
  Z.abs (dct_of W inp k * 2 ^ 56 - linear (dct_coefficient (Z.to_nat k)) inp) <= E * k * 2 ^ 56 /\ Z.abs (dct_of W inp k) < 2 ^ 31 - 2 ^ 12.
Proof.
  intros Hk. unfold dct_of. destruct (lookup_lt_is_Some_2 (@dct32_values Z (fixed_words W) (fun i => nth (Z.to_nat i) inp 0)) (Z.to_nat k)) as [v Ev];
    [rewrite (dct_length W); lia|]. destruct (Forall2_lookup_l _ _ _ _ _ dct_models Ev) as (a&Ea&Hv). rewrite (nth_lookup_Some _ _ _ _ Ev).
  pose proof Hc as Hc'. unfold dct_check in Hc'. apply (forallb_imap _ _ _ _) with (2 := Ea) in Hc'. cbv beta iota in Hc'. zbool.
  pose proof (form_error_sound B B1 inp v a (dct_coefficient (Z.to_nat k)) Hx Hv ltac:(done)) as Hs.
  pose proof (models_bound B B1 inp Hx v a Hv ltac:(done)) as Hm. rewrite Z2Nat.id in * by lia.
  change (2 ^ 64) with (2 ^ 56 * 2 ^ 8) in *. change (2 ^ 56) with 72057594037927936 in *. change (2 ^ 8) with 256 in *. split; lia.
Qed.
End Near.

(** The recurrence of the cosines. *)
Lemma cosines i : 0 < i < 32 -> Z.abs (2 * cos64 1 * cos64 i - 2 ^ 28 * (cos64 (i - 1) + cos64 (i + 1))) <= 2 ^ 30.
Proof.
  intros Hi. assert (forallb (fun i => Z.abs (2 * cos64 1 * cos64 i - 2 ^ 28 * (cos64 (i - 1) + cos64 (i + 1))) <=? 2 ^ 30) (seqZ 1 31) = true) as H
    by (vm_compute; reflexivity).
  rewrite forallb_forall in H. apply Z.leb_le, H. apply list_elem_of_In, elem_of_seqZ. lia.
Qed.

(** Halves round away, and nothing overflows. *)
Lemma shift_near W x : 32 <= W -> Z.abs x < 2 ^ 31 - 2 ^ 12 -> Z.abs (SHIFT W x * 2 ^ 12 - x) <= 2 ^ 11.
Proof.
  intros HW Hx. unfold SHIFT. rewrite Z.shiftl_1_l, Z.shiftr_div_pow2 by lia.
  change (2 ^ 31) with 2147483648 in *. change (2 ^ 11) with 2048. change (2 ^ 12) with 4096 in *.
  rewrite (wraps_wide W) by (change (2 ^ 31) with 2147483648; lia). pose proof (Z.div_mod (x + 2048) 4096 ltac:(lia)). pose proof (Z.mod_pos_bound (x + 2048) 4096 ltac:(lia)).
  rewrite s32_small by (change (2 ^ 31) with 2147483648; lia). lia.
Qed.

Lemma stored_near W x D L : 32 <= W -> Z.abs (x * 2 ^ 56 - L) <= D * 2 ^ 56 /\ Z.abs x < 2 ^ 31 - 2 ^ 12 ->
  Z.abs (SHIFT W x * 2 ^ 68 - L) <= (D + 2 ^ 11) * 2 ^ 56.
Proof.
  intros HW [H1 H2]. pose proof (shift_near W x HW H2) as H3. change (2 ^ 68) with (4096 * 2 ^ 56). change (2 ^ 12) with 4096 in *.
  change (2 ^ 11) with 2048 in *. change (2 ^ 56) with 72057594037927936 in *. lia.
Qed.

(** ** Claims *)

(** C31: the 32-point transform.  The constants are the cosines of the multiples of an angle (each is 2 c1 times
    the one before less the one before that, from 1 down to 0, up to their rounding).  For every row of 32 subband samples
    that are each at most 0.058, or whose absolute values add up to at most 3.5, nothing in [dct32] overflows and the
    [slot] of the two banks receives the 32 cosine sums that define the transform, each shifted by 12 bits: the sum of
    frequency 0 exactly, the one of frequency [k] up to 0.0034 * k for small samples, 0.0162 * k for samples whose
    absolute values add up to one and 0.0549 * k for the others, the worst case of the products of [FPM_DEFAULT].  The other slots keep their values.  The code does not saturate, and above these amplitudes its sums
    can wrap: [dct32_wraps]. *)
Theorem dct32_correct W inp slot lo hi : 32 <= W -> row_ok inp -> grid 16 8 lo -> grid 16 8 hi -> 0 <= slot < 8 ->
  (forall i, 0 < i < 32 -> Z.abs (2 * cos64 1 * cos64 i - 2 ^ 28 * (cos64 (i - 1) + cos64 (i + 1))) <= 2 ^ 30) /\
  exists lo' hi', dct32 W inp slot lo hi = Some (lo', hi') /\ grid 16 8 lo' /\ grid 16 8 hi' /\
  (forall s v, 0 <= s < 16 -> 0 <= v < 8 -> v <> slot -> get2 lo' s v = get2 lo s v /\ get2 hi' s v = get2 hi s v) /\
  (forall k, 0 <= k < 32 -> exists y, (if k <? 16 then get2 hi' (15 - k) slot else get2 lo' (k - 16) slot) = Some y /\
     let d := Z.abs (y * 2 ^ 68 - linear (dct_coefficient (Z.to_nat k)) inp) in
     (small_row inp -> d <= (900000 * k + 2 ^ 11) * 2 ^ 56) /\
     (forall m, m = 4 \/ m = 14 -> norm1 inp <= m * 2 ^ 26 -> d <= ((1040000 * m + 170000) * k + 2 ^ 11) * 2 ^ 56)).
Proof.
  intros HW [Hl _] Hlo Hhi Hslot. split; [apply cosines|].
  destruct (dct32_spec W inp slot lo hi Hl Hlo Hhi Hslot) as (lo'&hi'&E&Hlo'&Hhi'&H). exists lo', hi'. split; [done|].
  split; [done|]. split; [done|]. split.
  - intros s v Hs Hv Hne. destruct (H s v Hs Hv) as [H1 H2]. by rewrite H1, H2, (proj2 (Z.eqb_neq _ _)).
  - intros k Hk. exists (SHIFT W (dct_of W inp k)). split.
    + destruct (Z.ltb_spec k 16).
      * rewrite (proj2 (H (15 - k) slot ltac:(lia) ltac:(lia))), Z.eqb_refl. do 3 f_equal. lia.
      * rewrite (proj1 (H (k - 16) slot ltac:(lia) ltac:(lia))), Z.eqb_refl. do 3 f_equal. lia.
    + split; [intros Hs|intros m Hm Hs]; apply (stored_near W _ _ _ HW).
      * exact (dct_near W _ _ _ inp HW Hl (small_row_bounded inp Hl Hs) small_checked k Hk).
      * exact (dct_near W _ _ _ inp HW Hl (norm1_bounded _ inp Hs) (sums_checked m Hm) k Hk).
Qed.

(** Above the amplitudes of the theorem: 32 samples of 0.75 add up to 24, which is 8.0 modulo 16, and the result of frequency 0,
    which the shift leaves in units of [2 ^ -16], becomes -8.0. *)
Example dct32_wraps :
  let inp := repeat 201326592 32 in
  ('(_, hi) ← dct32 32 inp 0 (repeat (repeat 0 8) 16) (repeat (repeat 0 8) 16); get2 hi 15 0) = Some (-524288) /\
  linear (dct_coefficient 0) inp = 1572864 * 2 ^ 68.
Proof. split; vm_compute; reflexivity. Qed.

Lemma dct32_correct_witness :
  let inp := map (fun x => (x - 15) * 3000000) (seqZ 0 32) in
  (forall i, 0 < i < 32 -> Z.abs (2 * cos64 1 * cos64 i - 2 ^ 28 * (cos64 (i - 1) + cos64 (i + 1))) <= 2 ^ 30) /\
  exists lo' hi', dct32 32 inp 3 (repeat (repeat 7 8) 16) (repeat (repeat 9 8) 16) = Some (lo', hi') /\ grid 16 8 lo' /\ grid 16 8 hi' /\
  (forall s v, 0 <= s < 16 -> 0 <= v < 8 -> v <> 3 -> get2 lo' s v = get2 (repeat (repeat 7 8) 16) s v /\ get2 hi' s v = get2 (repeat (repeat 9 8) 16) s v) /\
  (forall k, 0 <= k < 32 -> exists y, (if k <? 16 then get2 hi' (15 - k) 3 else get2 lo' (k - 16) 3) = Some y /\
     let d := Z.abs (y * 2 ^ 68 - linear (dct_coefficient (Z.to_nat k)) inp) in
     (small_row inp -> d <= (900000 * k + 2 ^ 11) * 2 ^ 56) /\
     (forall m, m = 4 \/ m = 14 -> norm1 inp <= m * 2 ^ 26 -> d <= ((1040000 * m + 170000) * k + 2 ^ 11) * 2 ^ 56)).
Proof.
  intros inp. apply (dct32_correct 32 inp 3).
  - apply Z.leb_le. reflexivity.
  - split; [reflexivity|]. right. apply Z.leb_le. reflexivity.
  - split; [reflexivity|repeat constructor].
  - split; [reflexivity|repeat constructor].
  - split; [apply Z.leb_le|apply Z.ltb_lt]; reflexivity.
Defined.
