(* ===== verification/MadSynth.v ===== *)
(** The polyphase synthesis of [src/libmad/synth.c]: subband samples to PCM.

    A filter keeps the transforms of the last sixteen rows of a channel in four banks of
    16 by 8 cells, [filter[eo][peo]]: [eo] is 0 for the upper and 1 for the lower half of the
    frequencies, [peo] the parity of the phase a row came in at, and the column half of the
    phase.  A sample is a sum over a row of two banks with the coefficients [D]. *)
From S2P Require Import Prelude BitString MadFrame MadLayer3 MadHybrid MadLayer12 MadDct.

(** ** Data *)

Definition MAD_OPTION_HALFSAMPLERATE : Z := 0x0002.

Record mad_pcm := MkPcm { pcm_samplerate : Z; pcm_channels : Z; pcm_length : Z; pcm_samples : list (list Z) }.

(** The banks of a channel. *)
Definition banks : Type := list (list (list (list Z))).

Record mad_synth := MkSynth { synth_filter : list banks; synth_phase : Z; synth_pcm : mad_pcm }.

Definition get_bank (f : banks) (eo peo : Z) : option (list (list Z)) := row ← aget f eo; aget row peo.

Definition set_bank (f : banks) (eo peo : Z) (b : list (list Z)) : option banks := row ← aget f eo; row ← aset row peo b; aset f eo row.

Definition PRESHIFT (x : Z) : Z := (x + (1 .<< 13)) .>> 14.

Definition D : list (list Z) := [
  [PRESHIFT 0x00000000; - PRESHIFT 0x0001d000; PRESHIFT 0x000d5000; - PRESHIFT 0x001cb000; PRESHIFT 0x007f5000;
   - PRESHIFT 0x01421000; PRESHIFT 0x019ae000; - PRESHIFT 0x09271000; PRESHIFT 0x1251e000; PRESHIFT 0x09271000;
   PRESHIFT 0x019ae000; PRESHIFT 0x01421000; PRESHIFT 0x007f5000; PRESHIFT 0x001cb000; PRESHIFT 0x000d5000;
   PRESHIFT 0x0001d000; PRESHIFT 0x00000000; - PRESHIFT 0x0001d000; PRESHIFT 0x000d5000; - PRESHIFT 0x001cb000;
   PRESHIFT 0x007f5000; - PRESHIFT 0x01421000; PRESHIFT 0x019ae000; - PRESHIFT 0x09271000; PRESHIFT 0x1251e000;
   PRESHIFT 0x09271000; PRESHIFT 0x019ae000; PRESHIFT 0x01421000; PRESHIFT 0x007f5000; PRESHIFT 0x001cb000;
   PRESHIFT 0x000d5000; PRESHIFT 0x0001d000];
  [- PRESHIFT 0x00001000; - PRESHIFT 0x0001f000; PRESHIFT 0x000da000; - PRESHIFT 0x00207000; PRESHIFT 0x007d0000;
   - PRESHIFT 0x0158d000; PRESHIFT 0x01747000; - PRESHIFT 0x099a8000; PRESHIFT 0x124f0000; PRESHIFT 0x08b38000;
   PRESHIFT 0x01bde000; PRESHIFT 0x012b4000; PRESHIFT 0x0080f000; PRESHIFT 0x00191000; PRESHIFT 0x000d0000;
   PRESHIFT 0x0001a000; - PRESHIFT 0x00001000; - PRESHIFT 0x0001f000; PRESHIFT 0x000da000; - PRESHIFT 0x00207000;
   PRESHIFT 0x007d0000; - PRESHIFT 0x0158d000; PRESHIFT 0x01747000; - PRESHIFT 0x099a8000; PRESHIFT 0x124f0000;
   PRESHIFT 0x08b38000; PRESHIFT 0x01bde000; PRESHIFT 0x012b4000; PRESHIFT 0x0080f000; PRESHIFT 0x00191000;
   PRESHIFT 0x000d0000; PRESHIFT 0x0001a000];
  [- PRESHIFT 0x00001000; - PRESHIFT 0x00023000; PRESHIFT 0x000de000; - PRESHIFT 0x00245000; PRESHIFT 0x007a0000;
   - PRESHIFT 0x016f7000; PRESHIFT 0x014a8000; - PRESHIFT 0x0a0d8000; PRESHIFT 0x12468000; PRESHIFT 0x083ff000;
   PRESHIFT 0x01dd8000; PRESHIFT 0x01149000; PRESHIFT 0x00820000; PRESHIFT 0x0015b000; PRESHIFT 0x000ca000;
   PRESHIFT 0x00018000; - PRESHIFT 0x00001000; - PRESHIFT 0x00023000; PRESHIFT 0x000de000; - PRESHIFT 0x00245000;
   PRESHIFT 0x007a0000; - PRESHIFT 0x016f7000; PRESHIFT 0x014a8000; - PRESHIFT 0x0a0d8000; PRESHIFT 0x12468000;
   PRESHIFT 0x083ff000; PRESHIFT 0x01dd8000; PRESHIFT 0x01149000; PRESHIFT 0x00820000; PRESHIFT 0x0015b000;
   PRESHIFT 0x000ca000; PRESHIFT 0x00018000];
  [- PRESHIFT 0x00001000; - PRESHIFT 0x00026000; PRESHIFT 0x000e1000; - PRESHIFT 0x00285000; PRESHIFT 0x00765000;
   - PRESHIFT 0x0185d000; PRESHIFT 0x011d1000; - PRESHIFT 0x0a7fe000; PRESHIFT 0x12386000; PRESHIFT 0x07ccb000;
   PRESHIFT 0x01f9c000; PRESHIFT 0x00fdf000; PRESHIFT 0x00827000; PRESHIFT 0x00126000; PRESHIFT 0x000c4000;
   PRESHIFT 0x00015000; - PRESHIFT 0x00001000; - PRESHIFT 0x00026000; PRESHIFT 0x000e1000; - PRESHIFT 0x00285000;
   PRESHIFT 0x00765000; - PRESHIFT 0x0185d000; PRESHIFT 0x011d1000; - PRESHIFT 0x0a7fe000; PRESHIFT 0x12386000;
   PRESHIFT 0x07ccb000; PRESHIFT 0x01f9c000; PRESHIFT 0x00fdf000; PRESHIFT 0x00827000; PRESHIFT 0x00126000;
   PRESHIFT 0x000c4000; PRESHIFT 0x00015000];
  [- PRESHIFT 0x00001000; - PRESHIFT 0x00029000; PRESHIFT 0x000e3000; - PRESHIFT 0x002c7000; PRESHIFT 0x0071e000;
   - PRESHIFT 0x019bd000; PRESHIFT 0x00ec0000; - PRESHIFT 0x0af15000; PRESHIFT 0x12249000; PRESHIFT 0x075a0000;
   PRESHIFT 0x0212c000; PRESHIFT 0x00e79000; PRESHIFT 0x00825000; PRESHIFT 0x000f4000; PRESHIFT 0x000be000;
   PRESHIFT 0x00013000; - PRESHIFT 0x00001000; - PRESHIFT 0x00029000; PRESHIFT 0x000e3000; - PRESHIFT 0x002c7000;
   PRESHIFT 0x0071e000; - PRESHIFT 0x019bd000; PRESHIFT 0x00ec0000; - PRESHIFT 0x0af15000; PRESHIFT 0x12249000;
   PRESHIFT 0x075a0000; PRESHIFT 0x0212c000; PRESHIFT 0x00e79000; PRESHIFT 0x00825000; PRESHIFT 0x000f4000;
   PRESHIFT 0x000be000; PRESHIFT 0x00013000];
  [- PRESHIFT 0x00001000; - PRESHIFT 0x0002d000; PRESHIFT 0x000e4000; - PRESHIFT 0x0030b000; PRESHIFT 0x006cb000;
   - PRESHIFT 0x01b17000; PRESHIFT 0x00b77000; - PRESHIFT 0x0b619000; PRESHIFT 0x120b4000; PRESHIFT 0x06e81000;
   PRESHIFT 0x02288000; PRESHIFT 0x00d17000; PRESHIFT 0x0081b000; PRESHIFT 0x000c5000; PRESHIFT 0x000b7000;
   PRESHIFT 0x00011000; - PRESHIFT 0x00001000; - PRESHIFT 0x0002d000; PRESHIFT 0x000e4000; - PRESHIFT 0x0030b000;
   PRESHIFT 0x006cb000; - PRESHIFT 0x01b17000; PRESHIFT 0x00b77000; - PRESHIFT 0x0b619000; PRESHIFT 0x120b4000;
   PRESHIFT 0x06e81000; PRESHIFT 0x02288000; PRESHIFT 0x00d17000; PRESHIFT 0x0081b000; PRESHIFT 0x000c5000;
   PRESHIFT 0x000b7000; PRESHIFT 0x00011000];
  [- PRESHIFT 0x00001000; - PRESHIFT 0x00031000; PRESHIFT 0x000e4000; - PRESHIFT 0x00350000; PRESHIFT 0x0066c000;
   - PRESHIFT 0x01c67000; PRESHIFT 0x007f5000; - PRESHIFT 0x0bd06000; PRESHIFT 0x11ec7000; PRESHIFT 0x06772000;
   PRESHIFT 0x023b3000; PRESHIFT 0x00bbc000; PRESHIFT 0x00809000; PRESHIFT 0x00099000; PRESHIFT 0x000b0000;
   PRESHIFT 0x00010000; - PRESHIFT 0x00001000; - PRESHIFT 0x00031000; PRESHIFT 0x000e4000; - PRESHIFT 0x00350000;
   PRESHIFT 0x0066c000; - PRESHIFT 0x01c67000; PRESHIFT 0x007f5000; - PRESHIFT 0x0bd06000; PRESHIFT 0x11ec7000;
   PRESHIFT 0x06772000; PRESHIFT 0x023b3000; PRESHIFT 0x00bbc000; PRESHIFT 0x00809000; PRESHIFT 0x00099000;
   PRESHIFT 0x000b0000; PRESHIFT 0x00010000];
  [- PRESHIFT 0x00002000; - PRESHIFT 0x00035000; PRESHIFT 0x000e3000; - PRESHIFT 0x00397000; PRESHIFT 0x005ff000;
   - PRESHIFT 0x01dad000; PRESHIFT 0x0043a000; - PRESHIFT 0x0c3d9000; PRESHIFT 0x11c83000; PRESHIFT 0x06076000;
   PRESHIFT 0x024ad000; PRESHIFT 0x00a67000; PRESHIFT 0x007f0000; PRESHIFT 0x0006f000; PRESHIFT 0x000a9000;
   PRESHIFT 0x0000e000; - PRESHIFT 0x00002000; - PRESHIFT 0x00035000; PRESHIFT 0x000e3000; - PRESHIFT 0x00397000;
   PRESHIFT 0x005ff000; - PRESHIFT 0x01dad000; PRESHIFT 0x0043a000; - PRESHIFT 0x0c3d9000; PRESHIFT 0x11c83000;
   PRESHIFT 0x06076000; PRESHIFT 0x024ad000; PRESHIFT 0x00a67000; PRESHIFT 0x007f0000; PRESHIFT 0x0006f000;
   PRESHIFT 0x000a9000; PRESHIFT 0x0000e000];
  [- PRESHIFT 0x00002000; - PRESHIFT 0x0003a000; PRESHIFT 0x000e0000; - PRESHIFT 0x003df000; PRESHIFT 0x00586000;
   - PRESHIFT 0x01ee6000; PRESHIFT 0x00046000; - PRESHIFT 0x0ca8d000; PRESHIFT 0x119e9000; PRESHIFT 0x05991000;
   PRESHIFT 0x02578000; PRESHIFT 0x0091a000; PRESHIFT 0x007d1000; PRESHIFT 0x00048000; PRESHIFT 0x000a1000;
   PRESHIFT 0x0000d000; - PRESHIFT 0x00002000; - PRESHIFT 0x0003a000; PRESHIFT 0x000e0000; - PRESHIFT 0x003df000;
   PRESHIFT 0x00586000; - PRESHIFT 0x01ee6000; PRESHIFT 0x00046000; - PRESHIFT 0x0ca8d000; PRESHIFT 0x119e9000;
   PRESHIFT 0x05991000; PRESHIFT 0x02578000; PRESHIFT 0x0091a000; PRESHIFT 0x007d1000; PRESHIFT 0x00048000;
   PRESHIFT 0x000a1000; PRESHIFT 0x0000d000];
  [- PRESHIFT 0x00002000; - PRESHIFT 0x0003f000; PRESHIFT 0x000dd000; - PRESHIFT 0x00428000; PRESHIFT 0x00500000;
   - PRESHIFT 0x02011000; - PRESHIFT 0x003e6000; - PRESHIFT 0x0d11e000; PRESHIFT 0x116fc000; PRESHIFT 0x052c5000;
   PRESHIFT 0x02616000; PRESHIFT 0x007d6000; PRESHIFT 0x007aa000; PRESHIFT 0x00024000; PRESHIFT 0x0009a000;
   PRESHIFT 0x0000b000; - PRESHIFT 0x00002000; - PRESHIFT 0x0003f000; PRESHIFT 0x000dd000; - PRESHIFT 0x00428000;
   PRESHIFT 0x00500000; - PRESHIFT 0x02011000; - PRESHIFT 0x003e6000; - PRESHIFT 0x0d11e000; PRESHIFT 0x116fc000;
   PRESHIFT 0x052c5000; PRESHIFT 0x02616000; PRESHIFT 0x007d6000; PRESHIFT 0x007aa000; PRESHIFT 0x00024000;
   PRESHIFT 0x0009a000; PRESHIFT 0x0000b000];
  [- PRESHIFT 0x00002000; - PRESHIFT 0x00044000; PRESHIFT 0x000d7000; - PRESHIFT 0x00471000; PRESHIFT 0x0046b000;
   - PRESHIFT 0x0212b000; - PRESHIFT 0x0084a000; - PRESHIFT 0x0d78a000; PRESHIFT 0x113be000; PRESHIFT 0x04c16000;
   PRESHIFT 0x02687000; PRESHIFT 0x0069c000; PRESHIFT 0x0077f000; PRESHIFT 0x00002000; PRESHIFT 0x00093000;
   PRESHIFT 0x0000a000; - PRESHIFT 0x00002000; - PRESHIFT 0x00044000; PRESHIFT 0x000d7000; - PRESHIFT 0x00471000;
   PRESHIFT 0x0046b000; - PRESHIFT 0x0212b000; - PRESHIFT 0x0084a000; - PRESHIFT 0x0d78a000; PRESHIFT 0x113be000;
   PRESHIFT 0x04c16000; PRESHIFT 0x02687000; PRESHIFT 0x0069c000; PRESHIFT 0x0077f000; PRESHIFT 0x00002000;
   PRESHIFT 0x00093000; PRESHIFT 0x0000a000];
  [- PRESHIFT 0x00003000; - PRESHIFT 0x00049000; PRESHIFT 0x000d0000; - PRESHIFT 0x004ba000; PRESHIFT 0x003ca000;
   - PRESHIFT 0x02233000; - PRESHIFT 0x00ce4000; - PRESHIFT 0x0ddca000; PRESHIFT 0x1102f000; PRESHIFT 0x04587000;
   PRESHIFT 0x026cf000; PRESHIFT 0x0056c000; PRESHIFT 0x0074e000; - PRESHIFT 0x0001d000; PRESHIFT 0x0008b000;
   PRESHIFT 0x00009000; - PRESHIFT 0x00003000; - PRESHIFT 0x00049000; PRESHIFT 0x000d0000; - PRESHIFT 0x004ba000;
   PRESHIFT 0x003ca000; - PRESHIFT 0x02233000; - PRESHIFT 0x00ce4000; - PRESHIFT 0x0ddca000; PRESHIFT 0x1102f000;
   PRESHIFT 0x04587000; PRESHIFT 0x026cf000; PRESHIFT 0x0056c000; PRESHIFT 0x0074e000; - PRESHIFT 0x0001d000;
   PRESHIFT 0x0008b000; PRESHIFT 0x00009000];
  [- PRESHIFT 0x00003000; - PRESHIFT 0x0004f000; PRESHIFT 0x000c8000; - PRESHIFT 0x00503000; PRESHIFT 0x0031a000;
   - PRESHIFT 0x02326000; - PRESHIFT 0x011b5000; - PRESHIFT 0x0e3dd000; PRESHIFT 0x10c54000; PRESHIFT 0x03f1b000;
   PRESHIFT 0x026ee000; PRESHIFT 0x00447000; PRESHIFT 0x00719000; - PRESHIFT 0x00039000; PRESHIFT 0x00084000;
   PRESHIFT 0x00008000; - PRESHIFT 0x00003000; - PRESHIFT 0x0004f000; PRESHIFT 0x000c8000; - PRESHIFT 0x00503000;
   PRESHIFT 0x0031a000; - PRESHIFT 0x02326000; - PRESHIFT 0x011b5000; - PRESHIFT 0x0e3dd000; PRESHIFT 0x10c54000;
   PRESHIFT 0x03f1b000; PRESHIFT 0x026ee000; PRESHIFT 0x00447000; PRESHIFT 0x00719000; - PRESHIFT 0x00039000;
   PRESHIFT 0x00084000; PRESHIFT 0x00008000];
  [- PRESHIFT 0x00004000; - PRESHIFT 0x00055000; PRESHIFT 0x000bd000; - PRESHIFT 0x0054c000; PRESHIFT 0x0025d000;
   - PRESHIFT 0x02403000; - PRESHIFT 0x016ba000; - PRESHIFT 0x0e9be000; PRESHIFT 0x1082d000; PRESHIFT 0x038d4000;
   PRESHIFT 0x026e7000; PRESHIFT 0x0032e000; PRESHIFT 0x006df000; - PRESHIFT 0x00053000; PRESHIFT 0x0007d000;
   PRESHIFT 0x00007000; - PRESHIFT 0x00004000; - PRESHIFT 0x00055000; PRESHIFT 0x000bd000; - PRESHIFT 0x0054c000;
   PRESHIFT 0x0025d000; - PRESHIFT 0x02403000; - PRESHIFT 0x016ba000; - PRESHIFT 0x0e9be000; PRESHIFT 0x1082d000;
   PRESHIFT 0x038d4000; PRESHIFT 0x026e7000; PRESHIFT 0x0032e000; PRESHIFT 0x006df000; - PRESHIFT 0x00053000;
   PRESHIFT 0x0007d000; PRESHIFT 0x00007000];
  [- PRESHIFT 0x00004000; - PRESHIFT 0x0005b000; PRESHIFT 0x000b1000; - PRESHIFT 0x00594000; PRESHIFT 0x00192000;
   - PRESHIFT 0x024c8000; - PRESHIFT 0x01bf2000; - PRESHIFT 0x0ef69000; PRESHIFT 0x103be000; PRESHIFT 0x032b4000;
   PRESHIFT 0x026bc000; PRESHIFT 0x00221000; PRESHIFT 0x006a2000; - PRESHIFT 0x0006a000; PRESHIFT 0x00075000;
   PRESHIFT 0x00007000; - PRESHIFT 0x00004000; - PRESHIFT 0x0005b000; PRESHIFT 0x000b1000; - PRESHIFT 0x00594000;
   PRESHIFT 0x00192000; - PRESHIFT 0x024c8000; - PRESHIFT 0x01bf2000; - PRESHIFT 0x0ef69000; PRESHIFT 0x103be000;
   PRESHIFT 0x032b4000; PRESHIFT 0x026bc000; PRESHIFT 0x00221000; PRESHIFT 0x006a2000; - PRESHIFT 0x0006a000;
   PRESHIFT 0x00075000; PRESHIFT 0x00007000];
  [- PRESHIFT 0x00005000; - PRESHIFT 0x00061000; PRESHIFT 0x000a3000; - PRESHIFT 0x005da000; PRESHIFT 0x000b9000;
   - PRESHIFT 0x02571000; - PRESHIFT 0x0215c000; - PRESHIFT 0x0f4dc000; PRESHIFT 0x0ff0a000; PRESHIFT 0x02cbf000;
   PRESHIFT 0x0266e000; PRESHIFT 0x00120000; PRESHIFT 0x00662000; - PRESHIFT 0x0007f000; PRESHIFT 0x0006f000;
   PRESHIFT 0x00006000; - PRESHIFT 0x00005000; - PRESHIFT 0x00061000; PRESHIFT 0x000a3000; - PRESHIFT 0x005da000;
   PRESHIFT 0x000b9000; - PRESHIFT 0x02571000; - PRESHIFT 0x0215c000; - PRESHIFT 0x0f4dc000; PRESHIFT 0x0ff0a000;
   PRESHIFT 0x02cbf000; PRESHIFT 0x0266e000; PRESHIFT 0x00120000; PRESHIFT 0x00662000; - PRESHIFT 0x0007f000;
   PRESHIFT 0x0006f000; PRESHIFT 0x00006000];
  [- PRESHIFT 0x00005000; - PRESHIFT 0x00068000; PRESHIFT 0x00092000; - PRESHIFT 0x0061f000; - PRESHIFT 0x0002d000;
   - PRESHIFT 0x025ff000; - PRESHIFT 0x026f7000; - PRESHIFT 0x0fa13000; PRESHIFT 0x0fa13000; PRESHIFT 0x026f7000;
   PRESHIFT 0x025ff000; PRESHIFT 0x0002d000; PRESHIFT 0x0061f000; - PRESHIFT 0x00092000; PRESHIFT 0x00068000;
   PRESHIFT 0x00005000; - PRESHIFT 0x00005000; - PRESHIFT 0x00068000; PRESHIFT 0x00092000; - PRESHIFT 0x0061f000;
   - PRESHIFT 0x0002d000; - PRESHIFT 0x025ff000; - PRESHIFT 0x026f7000; - PRESHIFT 0x0fa13000; PRESHIFT 0x0fa13000;
   PRESHIFT 0x026f7000; PRESHIFT 0x025ff000; PRESHIFT 0x0002d000; PRESHIFT 0x0061f000; - PRESHIFT 0x00092000;
   PRESHIFT 0x00068000; PRESHIFT 0x00005000]].

(** ** Setting up *)

(** [filter[ch][eo][peo][s][v] = 0] *)
Definition clear_cell (ch s v eo peo : Z) (filter : list banks) : option (list banks) :=
  f ← aget filter ch; b ← get_bank f eo peo; b ← set2 b s v 0; f ← set_bank f eo peo b; aset filter ch f.

Definition mad_synth_mute (y : mad_synth) : option mad_synth :=
  filter ← for_range 0 2 (fun ch => for_range 0 16 (fun s => for_range 0 8 (fun v f =>
             f ← clear_cell ch s v 1 1 f; f ← clear_cell ch s v 1 0 f; f ← clear_cell ch s v 0 1 f; clear_cell ch s v 0 0 f)))
             (synth_filter y);
  Some (MkSynth filter (synth_phase y) (synth_pcm y)).

Definition mad_synth_init (y : mad_synth) : option mad_synth :=
  y ← mad_synth_mute y;
  Some (MkSynth (synth_filter y) 0 (MkPcm 0 0 0 (pcm_samples (synth_pcm y)))).

(** ** Sums *)

(** Columns and coefficients of the chains of [ML0] and [MLA]. *)
Definition taps_up : list (Z * Z) := [(0, 0); (1, 14); (2, 12); (3, 10); (4, 8); (5, 6); (6, 4); (7, 2)].
Definition taps_down : list (Z * Z) := [(7, 2); (6, 4); (5, 6); (4, 8); (3, 10); (2, 12); (1, 14); (0, 0)].
Definition mirror_up : list (Z * Z) :=
  [(0, 31 - 16); (1, 31 - 14); (2, 31 - 12); (3, 31 - 10); (4, 31 - 8); (5, 31 - 6); (6, 31 - 4); (7, 31 - 2)].
Definition mirror_down : list (Z * Z) :=
  [(7, 31 - 2); (6, 31 - 4); (5, 31 - 6); (4, 31 - 8); (3, 31 - 10); (2, 31 - 12); (1, 31 - 14); (0, 31 - 16)].

(** [MLA] with [ptr = row + base]; [ML0] is the same from 0. *)
Fixpoint MLA (x row : list Z) (base : Z) (taps : list (Z * Z)) (lo : Z) : option Z :=
  match taps with
  | [] => Some lo
  | (v, o) :: taps => a ← aget x v; c ← aget row (base + o); MLA x row base taps (u32 (lo + s32 (a * c)))
  end.

Definition MLN (lo : Z) : Z := u32 (- lo).
Definition MLZ (lo : Z) : Z := s32 lo.

(** The third shift. *)
Definition SHIFT3 (x : Z) : Z := x .>> 2.

(** Sample 0, the samples [sb] and [32 - sb], and sample 16. *)
Definition first_sample (fx fe d : list Z) (pe po : Z) : option Z :=
  lo ← MLA fx d po taps_up 0; lo ← MLA fe d pe taps_up (MLN lo); Some (SHIFT3 (MLZ lo)).

Definition low_sample (fo fe d : list Z) (pe po : Z) : option Z :=
  lo ← MLA fo d po taps_up 0; lo ← MLA fe d pe taps_down (MLN lo); Some (SHIFT3 (MLZ lo)).

Definition high_sample (fo fe d : list Z) (pe po : Z) : option Z :=
  lo ← MLA fe d (- pe) mirror_up 0; lo ← MLA fo d (- po) mirror_down lo; Some (SHIFT3 (MLZ lo)).

(** The same in [synth_half], with the chains exchanged. *)
Definition high_sample_half (fo fe d : list Z) (pe po : Z) : option Z :=
  lo ← MLA fo d (- po) mirror_down 0; lo ← MLA fe d (- pe) mirror_up lo; Some (SHIFT3 (MLZ lo)).

Definition middle_sample (fo d : list Z) (po : Z) : option Z :=
  lo ← MLA fo d po taps_up 0; Some (SHIFT3 (s32 (- MLZ lo))).

(** The two samples of round [sb]; state [pcm1], [pcm2] and the output. *)
Definition sample_pair (high : list Z -> list Z -> list Z -> Z -> Z -> option Z) (fe fo : list (list Z)) (pe po sb : Z) (st : Z * Z * list Z)
    : option (Z * Z * list Z) :=
  let '(pcm1, pcm2, out) := st in
  e ← aget fe sb; o ← aget fo (sb - 1); d ← aget D sb;
  a ← low_sample o e d pe po;
  out ← aset out pcm1 a;
  b ← high o e d pe po;
  out ← aset out pcm2 b;
  Some (pcm1 + 1, pcm2 - 1, out).

Definition full_pair := sample_pair high_sample.

Definition half_pair (fe fo : list (list Z)) (pe po sb : Z) (st : Z * Z * list Z) : option (Z * Z * list Z) :=
  if sb .& 1 =? 0 then sample_pair high_sample_half fe fo pe po sb st else Some st.

Section Synth.
Variable long_bits : Z.

(** One row of a channel; [pair], the distance from [pcm1] to [pcm2] and the last step of
    [pcm1] are what [synth_full] and [synth_half] differ in.  State: the banks, the phase, [pcm1]
    and the output. *)
Definition synth_row (pair : list (list Z) -> list (list Z) -> Z -> Z -> Z -> Z * Z * list Z -> option (Z * Z * list Z)) (gap step : Z)
    (sbsample : list (list Z)) (s : Z) (st : banks * Z * Z * list Z) : option (banks * Z * Z * list Z) :=
  let '(filter, phase, pcm1, out) := st in
  inp ← aget sbsample s;
  lo ← get_bank filter 0 (phase .& 1);
  hi ← get_bank filter 1 (phase .& 1);
  '(lo, hi) ← dct32 long_bits inp (phase .>> 1) lo hi;
  filter ← set_bank filter 0 (phase .& 1) lo;
  filter ← set_bank filter 1 (phase .& 1) hi;
  let pe := phase .& Z.lnot 1 in
  let po := (u32 (phase - 1) .& 0xf) .| 1 in
  fe ← get_bank filter 0 (phase .& 1);
  fx ← get_bank filter 0 (Z.lnot phase .& 1);
  fo ← get_bank filter 1 (Z.lnot phase .& 1);
  x ← aget fx 0; e ← aget fe 0; d ← aget D 0;
  a ← first_sample x e d pe po;
  out ← aset out pcm1 a;
  let pcm1 := pcm1 + 1 in
  '(pcm1, _, out) ← for_range 1 16 (pair fe fo pe po) (pcm1, pcm1 + gap, out);
  o ← aget fo 15; d ← aget D 16;
  a ← middle_sample o d po;
  out ← aset out pcm1 a;
  Some (filter, u32 (phase + 1) mod 16, pcm1 + step, out).

Definition synth_full := synth_row full_pair 30 16.
Definition synth_half := synth_row half_pair 14 8.

(** The loops of both over the channels and the rows. *)
Definition synth_channels (row : list (list Z) -> Z -> banks * Z * Z * list Z -> option (banks * Z * Z * list Z)) (f : mad_frame) (nch ns phase : Z)
    (st : list banks * list (list Z)) : option (list banks * list (list Z)) :=
  for_range 0 nch (fun ch '(filter, samples) =>
    sbsample ← aget (sbsample f) ch; banks ← aget filter ch; out ← aget samples ch;
    '(banks, _, _, out) ← for_range 0 ns (row sbsample) (banks, phase, 0, out);
    filter ← aset filter ch banks; samples ← aset samples ch out;
    Some (filter, samples)) st.

Definition mad_synth_frame (y : mad_synth) (f : mad_frame) : option mad_synth :=
  let nch := MAD_NCHANNELS (header f) in
  let ns := MAD_NSBSAMPLES (header f) in
  let half := bitset (fr_options f) MAD_OPTION_HALFSAMPLERATE in
  let samplerate := if half then samplerate (header f) / 2 else samplerate (header f) in
  let length := if half then u16 (32 * ns) / 2 else u16 (32 * ns) in
  '(filter, samples) ← synth_channels (if half then synth_half else synth_full) f nch ns (synth_phase y) (synth_filter y, pcm_samples (synth_pcm y));
  Some (MkSynth filter (u32 (synth_phase y + ns) mod 16) (MkPcm samplerate (u16 nch) length samples)).
End Synth.

(** ** The filter by its definition

    [history] holds the transforms of the last sixteen rows, the newest first. *)

(** Value [i] of the 64 of a row, of which the fast transform computes 32. *)
Definition vector (t : list Z) (i : Z) : Z :=
  if i <? 16 then nth (Z.to_nat (16 + i)) t 0 else if i =? 16 then 0
  else if i <=? 48 then - nth (Z.to_nat (48 - i)) t 0 else - nth (Z.to_nat (i - 48)) t 0.

(** Coefficient [j + 32 * n] of the window. *)
Definition window (j n : Z) : Z :=
  if j <=? 16 then default 0 (get2 D j n) else - default 0 (get2 D (32 - j) (15 - n)).

(** Sample [j] of the newest row. *)
Definition synthesized (history : list (list Z)) (j : Z) : Z :=
  s32 (sum (imap (fun n t => window j (Z.of_nat n) * vector t (if Nat.even n then j else 32 + j)) history)) .>> 2.

(** The transform of a row. *)
Definition transform (W : Z) (inp : list Z) : list Z := map (fun k => SHIFT W (dct_of W inp k)) (seqZ 0 32).

Definition next_history (W : Z) (inp : list Z) (history : list (list Z)) : list (list Z) := transform W inp :: take 15 history.
