(* ===== verification/MadPolyphase.v ===== *)
(** The synthesis filter of MadSynth against its definition: the circular banks hold the last
    sixteen transforms, and each sample is the windowed sum over them. *)
From S2P Require Import Prelude BitString MadRequantize MadImdct MadFrame MadLayer3 MadHybrid MadLayer12 MadSubbands MadDct MadSynth.

(** ** Banks *)

Lemma set_bank_spec f eo peo b b' : 0 <= eo -> 0 <= peo -> get_bank f eo peo = Some b ->
  exists f', set_bank f eo peo b' = Some f' /\
  forall eo' peo', 0 <= eo' -> 0 <= peo' -> get_bank f' eo' peo' = if (eo' =? eo) && (peo' =? peo) then Some b' else get_bank f eo' peo'.
Proof.
  intros He Hp E. unfold get_bank, set_bank in *. apply bind_Some in E as (row&E1&E2).
  pose proof (aget_inv _ _ _ E1). pose proof (aget_inv _ _ _ E2). rewrite E1. cbn [mbind option_bind].
  rewrite aset_Some by lia. cbn [mbind option_bind]. rewrite aset_Some by lia. eexists. split; [done|].
  intros eo' peo' He' Hp'. destruct (Z.eqb_spec eo' eo) as [->|Hne]; cbn [andb].
  - rewrite aget_insert_eq by lia. cbn [mbind option_bind]. rewrite E1. cbn [mbind option_bind].
    destruct (Z.eqb_spec peo' peo) as [->|]; [by rewrite aget_insert_eq by lia|by rewrite aget_insert_ne by lia].
  - by rewrite aget_insert_ne by lia.
Qed.

(** The age of what a column of a bank holds, before a row of phase [p] comes in. *)
Definition age (p peo v : Z) : Z := (p - 1 - (2 * v + peo)) mod 16.

(** The value [i] of transform [n]. *)
Definition past (history : list (list Z)) (n i : Z) : Z := nth (Z.to_nat i) (nth (Z.to_nat n) history []) 0.

(** The banks at phase [p] hold the history of a channel. *)
Record holds (f : banks) (p : Z) (history : list (list Z)) : Prop := Holds {
  hd_banks : forall eo peo, 0 <= eo < 2 -> 0 <= peo < 2 -> exists b, get_bank f eo peo = Some b /\ grid 16 8 b /\
    forall s v, 0 <= s < 16 -> 0 <= v < 8 -> get2 b s v = Some (past history (age p peo v) (if eo =? 0 then 16 + s else 15 - s));
  hd_history : length history = 16%nat
}.

Lemma past_next history t n i : length history = 16%nat -> 0 <= n < 15 -> past (t :: take 15 history) (n + 1) i = past history n i.
Proof.
  intros Hl Hn. unfold past. replace (Z.to_nat (n + 1)) with (S (Z.to_nat n)) by lia. cbn [nth]. f_equal.
  destruct (lookup_lt_is_Some_2 history (Z.to_nat n)) as [x E]; [lia|]. rewrite (nth_lookup_Some _ _ _ _ E).
  apply nth_lookup_Some. by rewrite lookup_take_lt by lia.
Qed.

Lemma past_new history t i : past (t :: history) 0 i = nth (Z.to_nat i) t 0.
Proof. done. Qed.

Lemma transform_nth W inp k : 0 <= k < 32 -> nth (Z.to_nat k) (transform W inp) 0 = SHIFT W (dct_of W inp k).
Proof.
  intros Hk. apply nth_lookup_Some. unfold transform. rewrite list_lookup_fmap, lookup_seqZ_lt, Z2Nat.id, Z.add_0_l by lia. done.
Qed.

(** Storing a row. *)
Lemma stored W f p history inp : 0 <= p < 16 -> holds f p history -> length inp = 32%nat ->
  exists lo hi lo' hi' f1 f2,
    get_bank f 0 (p mod 2) = Some lo /\ get_bank f 1 (p mod 2) = Some hi /\ dct32 W inp (p / 2) lo hi = Some (lo', hi') /\
    set_bank f 0 (p mod 2) lo' = Some f1 /\ set_bank f1 1 (p mod 2) hi' = Some f2 /\ holds f2 (p + 1) (next_history W inp history).
Proof.
  intros Hp [Hb Hl] Hinp. assert (0 <= p mod 2 < 2 /\ 0 <= p / 2 < 8) as [Hm Hd] by zdiv.
  destruct (Hb 0 (p mod 2) ltac:(lia) Hm) as (lo&Elo&Glo&Clo). destruct (Hb 1 (p mod 2) ltac:(lia) Hm) as (hi&Ehi&Ghi&Chi).
  destruct (dct32_spec W inp (p / 2) lo hi Hinp Glo Ghi Hd) as (lo'&hi'&E&Glo'&Ghi'&C).
  destruct (set_bank_spec f 0 (p mod 2) lo lo') as (f1&E1&F1); [lia|lia|done|].
  destruct (set_bank_spec f1 1 (p mod 2) hi hi') as (f2&E2&F2); [lia|lia|rewrite F1 by lia; done|].
  exists lo, hi, lo', hi', f1, f2. do 5 (split; [done|]). split.
  2: { unfold next_history. cbn [length]. rewrite length_take. lia. }
  intros eo peo He Hpeo. rewrite F2, F1 by lia.
  assert (forall v, 0 <= v < 8 -> peo = p mod 2 /\ v = p / 2 /\ age (p + 1) peo v = 0 \/
    (peo =? p mod 2) && (v =? p / 2) = false /\ 0 <= age p peo v < 15 /\ age (p + 1) peo v = age p peo v + 1) as Hage.
  { intros v Hv. unfold age. destruct (Z.eqb_spec peo (p mod 2)), (Z.eqb_spec v (p / 2)); cbn [andb]; [left|right..]; zdiv. }
  assert (forall v i, 0 <= v < 8 -> 0 <= i < 32 -> past (next_history W inp history) (age (p + 1) peo v) i =
    if (peo =? p mod 2) && (v =? p / 2) then SHIFT W (dct_of W inp i) else past history (age p peo v) i) as Hpast.
  { intros v i Hv Hi. unfold next_history. destruct (Hage v Hv) as [(->&->&->)|(->&Ha&->)].
    - rewrite !Z.eqb_refl. cbn [andb]. rewrite past_new. by apply transform_nth.
    - by apply past_next. }
  destruct (Hb eo peo He Hpeo) as (b&Eb&Gb&Cb).
  assert (eo = 0 \/ eo = 1) as [-> | ->] by lia; change (0 =? 0) with true in *; change (0 =? 1) with false in *; change (1 =? 0) with false in *;
    change (1 =? 1) with true in *; cbn [andb] in *; cbv iota in *.
  - destruct (Z.eqb_spec peo (p mod 2)) as [->|Hne].
    + exists lo'. split; [done|]. split; [done|]. intros s v Hs Hv. rewrite (proj1 (C s v Hs Hv)), Hpast by lia. cbn [andb].
      destruct (v =? p / 2); [done|]. by apply Clo.
    + exists b. split; [done|]. split; [done|]. intros s v Hs Hv. rewrite Hpast by lia. cbn [andb]. by apply Cb.
  - destruct (Z.eqb_spec peo (p mod 2)) as [->|Hne].
    + exists hi'. split; [done|]. split; [done|]. intros s v Hs Hv. rewrite (proj2 (C s v Hs Hv)), Hpast by lia. cbn [andb].
      destruct (v =? p / 2); [done|]. by apply Chi.
    + exists b. split; [done|]. split; [done|]. intros s v Hs Hv. rewrite Hpast by lia. cbn [andb]. by apply Cb.
Qed.

(** ** Sums of products *)

Definition nthz (l : list Z) (i : Z) : Z := nth (Z.to_nat i) l 0.

Lemma aget_nthz l i : 0 <= i < zlen l -> aget l i = Some (nthz l i).
Proof.
  intros Hi. rewrite aget_lookup by lia. destruct (lookup_lt_is_Some_2 l (Z.to_nat i)) as [v E]; [lia|]. rewrite E. unfold nthz.
  by rewrite (nth_lookup_Some _ _ _ _ E).
Qed.

(** What a chain of [MLA] adds. *)
Definition tap_sum (x row : list Z) (base : Z) (taps : list (Z * Z)) : Z :=
  sum (map (fun '(v, o) => nthz x v * nthz row (base + o)) taps).

Lemma MLA_spec x row base taps : Forall (fun '(v, o) => 0 <= v < zlen x /\ 0 <= base + o < zlen row) taps ->
  forall lo, exists r, MLA x row base taps lo = Some r /\ r mod 2 ^ 32 = (lo + tap_sum x row base taps) mod 2 ^ 32.
Proof.
  induction 1 as [|[v o] taps [Hv Ho] _ IH]; intros lo.
  - exists lo. split; [done|]. unfold tap_sum. cbn [map sum foldr]. by rewrite Z.add_0_r.
  - cbn [MLA]. rewrite (aget_nthz x), (aget_nthz row) by done. cbn [mbind option_bind].
    destruct (IH (u32 (lo + s32 (nthz x v * nthz row (base + o))))) as (r&->&Hr). exists r. split; [done|].
    rewrite Hr. unfold tap_sum. cbn [map]. rewrite sum_cons. set (m := nthz x v * _). set (S := sum _).
    assert (u32 (lo + s32 m) = u32 (lo + m)) as -> by (unfold wrapu; rewrite <- Zplus_mod_idemp_r, wraps_mod by lia; by rewrite Zplus_mod_idemp_r).
    unfold wrapu. rewrite Zplus_mod_idemp_l. f_equal. lia.
Qed.

(** ** Phases *)

Definition even_phase (p : Z) : Z := p .& Z.lnot 1.
Definition odd_phase (p : Z) : Z := (u32 (p - 1) .& 0xf) .| 1.

Ltac each_phase p Hp :=
  let H := fresh in
  assert (p = 0 \/ p = 1 \/ p = 2 \/ p = 3 \/ p = 4 \/ p = 5 \/ p = 6 \/ p = 7 \/ p = 8 \/ p = 9 \/ p = 10 \/ p = 11 \/ p = 12 \/ p = 13 \/ p = 14 \/ p = 15)
    as H by lia; clear Hp; repeat (destruct H as [-> |H]); [..|subst p].

Lemma phases p : 0 <= p < 16 ->
  p .& 1 = p mod 2 /\ Z.lnot p .& 1 = 1 - p mod 2 /\ p .>> 1 = p / 2 /\
  0 <= even_phase p <= 14 /\ 0 <= odd_phase p <= 15 /\
  (forall v, age (p + 1) (p mod 2) v = (even_phase p - 2 * v) mod 16) /\ (forall v, age (p + 1) (1 - p mod 2) v = (odd_phase p - 2 * v) mod 16) /\
  even_phase p mod 2 = 0 /\ odd_phase p mod 2 = 1.
Proof.
  intros Hp. assert (p .& 1 = p mod 2) as E1 by (apply (Z.land_ones p 1); lia). split; [done|].
  split; [each_phase p Hp; reflexivity|]. split; [by rewrite Z.shiftr_div_pow2 by lia|].
  assert (even_phase p = p - p mod 2 /\ odd_phase p = (p - 1 + p mod 2) mod 16) as [Ee Eo] by (each_phase p Hp; split; reflexivity).
  rewrite Ee, Eo. unfold age. split; [zdiv|]. split; [zdiv|]. split; [intros v; f_equal; lia|]. split; [intros v|split; zdiv].
  rewrite Zminus_mod_idemp_l. f_equal. lia.
Qed.

(** The sixteen terms in the order of the columns. *)
Definition sum8 (f : Z -> Z) : Z := f 0 + f 1 + f 2 + f 3 + f 4 + f 5 + f 6 + f 7.
Definition sum16 (f : Z -> Z) : Z :=
  f 0 + f 1 + f 2 + f 3 + f 4 + f 5 + f 6 + f 7 + f 8 + f 9 + f 10 + f 11 + f 12 + f 13 + f 14 + f 15.

Lemma reorder f p : 0 <= p < 16 ->
  sum16 f = sum8 (fun v => f ((even_phase p - 2 * v) mod 16)) + sum8 (fun v => f ((odd_phase p - 2 * v) mod 16)).
Proof.
  intros Hp. unfold sum16, sum8.
  each_phase p Hp;
    repeat match goal with |- context [f ?k] => let k' := eval vm_compute in k in progress change (f k) with (f k') end; lia.
Qed.

Lemma sum8_ext f g : (forall v, 0 <= v < 8 -> f v = g v) -> sum8 f = sum8 g.
Proof. intros H. unfold sum8. by rewrite !H by lia. Qed.

Lemma sum8_opp f : sum8 (fun v => - f v) = - sum8 f.
Proof. unfold sum8. lia. Qed.

Lemma sum16_ext f g : (forall n, 0 <= n < 16 -> f n = g n) -> sum16 f = sum16 g.
Proof. intros H. unfold sum16. by rewrite !H by lia. Qed.

Lemma sum_history (g : nat -> list Z -> Z) l : length l = 16%nat -> sum (imap g l) = sum16 (fun n => g (Z.to_nat n) (nth (Z.to_nat n) l [])).
Proof. intros Hl. do 16 (destruct l as [|? l]; [discriminate Hl|]). destruct l; [|discriminate Hl]. unfold sum16.
  repeat match goal with |- context [Z.to_nat ?k] => let k' := eval vm_compute in (Z.to_nat k) in change (Z.to_nat k) with k' end. cbn. lia. Qed.

(** A term of a sample. *)
Definition window_term (history : list (list Z)) (j n : Z) : Z :=
  window j n * vector (nth (Z.to_nat n) history []) (if Z.even n then j else 32 + j).

Lemma synthesized_sum history j : length history = 16%nat -> synthesized history j = s32 (sum16 (window_term history j)) .>> 2.
Proof.
  intros Hl. unfold synthesized. rewrite sum_history by done.
  rewrite (sum16_ext _ (window_term history j)); [reflexivity|]. intros n Hn. unfold window_term. cbv beta. rewrite Z2Nat.id by lia.
  assert (Nat.even (Z.to_nat n) = Z.even n) as ->; [|reflexivity]. each_phase n Hn; reflexivity.
Qed.

(** ** The window *)

(** A row of [D]: sixteen coefficients, twice. *)
Definition window_row (d : list Z) : Prop := length d = 32%nat /\ forall i, 0 <= i < 32 -> nthz d i = nthz d (i mod 16).

Lemma D_row j : 0 <= j <= 16 -> exists d, aget D j = Some d /\ window_row d /\ forall n, 0 <= n < 16 -> default 0 (get2 D j n) = nthz d n.
Proof.
  intros Hj. assert (length D = 17%nat) as HD by done. destruct (aget_Some D j) as [d E]; [lia|]. exists d. split; [done|].
  assert (Forall (fun d => (length d =? 32)%nat && forallb (fun i => nthz d i =? nthz d (i mod 16)) (seqZ 0 32) = true) D) as H
    by (apply (bool_decide_unpack _); vm_compute; exact I).
  apply (aget_Forall _ _ _ _ H) in E as Hd. cbv beta in Hd. apply andb_true_iff in Hd as [Hl Hd]. apply Nat.eqb_eq in Hl.
  rewrite forallb_forall in Hd. split.
  - split; [done|]. intros i Hi. apply Z.eqb_eq, Hd, list_elem_of_In, elem_of_seqZ. lia.
  - intros n Hn. unfold get2. rewrite E. cbn [mbind option_bind]. by rewrite aget_nthz by lia.
Qed.

Section Taps.
Variables (x d : list Z) (base : Z).
Hypotheses (Hx : length x = 8%nat) (Hd : window_row d) (Hbase : 0 <= base <= 15).

Lemma row_mod i k : 0 <= i < 32 -> i mod 16 = k -> nthz d i = nthz d k.
Proof. intros Hi <-. by apply Hd. Qed.

Lemma taps_up_sum : tap_sum x d base taps_up = sum8 (fun v => nthz x v * nthz d ((base - 2 * v) mod 16)).
Proof.
  unfold tap_sum, taps_up, sum8. cbn [map sum foldr].
  rewrite (row_mod (base + 0) ((base - 2 * 0) mod 16)), (row_mod (base + 14) ((base - 2 * 1) mod 16)), (row_mod (base + 12) ((base - 2 * 2) mod 16)),
    (row_mod (base + 10) ((base - 2 * 3) mod 16)), (row_mod (base + 8) ((base - 2 * 4) mod 16)), (row_mod (base + 6) ((base - 2 * 5) mod 16)),
    (row_mod (base + 4) ((base - 2 * 6) mod 16)), (row_mod (base + 2) ((base - 2 * 7) mod 16)) by zdiv. lia.
Qed.

Lemma taps_down_sum : tap_sum x d base taps_down = tap_sum x d base taps_up.
Proof. unfold tap_sum, taps_up, taps_down. cbn [map sum foldr]. lia. Qed.

Lemma mirror_up_sum : tap_sum x d (- base) mirror_up = sum8 (fun v => nthz x v * nthz d (15 - (base - 2 * v) mod 16)).
Proof.
  unfold tap_sum, mirror_up, sum8. cbn [map sum foldr].
  rewrite (row_mod (- base + (31 - 16)) (15 - (base - 2 * 0) mod 16)), (row_mod (- base + (31 - 14)) (15 - (base - 2 * 1) mod 16)),
    (row_mod (- base + (31 - 12)) (15 - (base - 2 * 2) mod 16)), (row_mod (- base + (31 - 10)) (15 - (base - 2 * 3) mod 16)),
    (row_mod (- base + (31 - 8)) (15 - (base - 2 * 4) mod 16)), (row_mod (- base + (31 - 6)) (15 - (base - 2 * 5) mod 16)),
    (row_mod (- base + (31 - 4)) (15 - (base - 2 * 6) mod 16)), (row_mod (- base + (31 - 2)) (15 - (base - 2 * 7) mod 16)) by zdiv. lia.
Qed.

Lemma mirror_down_sum : tap_sum x d (- base) mirror_down = tap_sum x d (- base) mirror_up.
Proof. unfold tap_sum, mirror_up, mirror_down. cbn [map sum foldr]. lia. Qed.

(** The chains stay inside of their rows. *)
Lemma chain_up lo : exists r, MLA x d base taps_up lo = Some r /\
  r mod 2 ^ 32 = (lo + sum8 (fun v => nthz x v * nthz d ((base - 2 * v) mod 16))) mod 2 ^ 32.
Proof. rewrite <- taps_up_sum. apply MLA_spec. destruct Hd as [Hl _]. repeat (apply Forall_cons; split; [lia|]). by apply Forall_nil. Qed.

Lemma chain_down lo : exists r, MLA x d base taps_down lo = Some r /\
  r mod 2 ^ 32 = (lo + sum8 (fun v => nthz x v * nthz d ((base - 2 * v) mod 16))) mod 2 ^ 32.
Proof. rewrite <- taps_up_sum, <- taps_down_sum. apply MLA_spec. destruct Hd as [Hl _]. repeat (apply Forall_cons; split; [lia|]). by apply Forall_nil. Qed.

Lemma chain_mirror_up lo : exists r, MLA x d (- base) mirror_up lo = Some r /\
  r mod 2 ^ 32 = (lo + sum8 (fun v => nthz x v * nthz d (15 - (base - 2 * v) mod 16))) mod 2 ^ 32.
Proof. rewrite <- mirror_up_sum. apply MLA_spec. destruct Hd as [Hl _]. repeat (apply Forall_cons; split; [lia|]). by apply Forall_nil. Qed.

Lemma chain_mirror_down lo : exists r, MLA x d (- base) mirror_down lo = Some r /\
  r mod 2 ^ 32 = (lo + sum8 (fun v => nthz x v * nthz d (15 - (base - 2 * v) mod 16))) mod 2 ^ 32.
Proof. rewrite <- mirror_up_sum, <- mirror_down_sum. apply MLA_spec. destruct Hd as [Hl _]. repeat (apply Forall_cons; split; [lia|]). by apply Forall_nil. Qed.
End Taps.

(** ** Samples *)

Lemma shifted r z : r mod 2 ^ 32 = z mod 2 ^ 32 -> SHIFT3 (MLZ r) = s32 z .>> 2.
Proof. intros H. unfold SHIFT3, MLZ. f_equal. by apply wraps_eq_mod. Qed.

Lemma negated r z s : r mod 2 ^ 32 = z mod 2 ^ 32 -> (MLN r + s) mod 2 ^ 32 = (- z + s) mod 2 ^ 32.
Proof.
  intros H. unfold MLN, wrapu. rewrite Zplus_mod_idemp_l, <- (Zplus_mod_idemp_l (- r)), <- (Zplus_mod_idemp_l (- z)). do 2 f_equal.
  rewrite <- !(Z.sub_0_l), <- (Zminus_mod_idemp_r 0 r), <- (Zminus_mod_idemp_r 0 z). by rewrite H.
Qed.

Section Samples.
Variables (p : Z) (history : list (list Z)).
Hypotheses (Hp : 0 <= p < 16) (Hl : length history = 16%nat).

(** The rows of a bank of the even and of the odd ages, with value [i] of the transforms. *)
Definition even_row (e : list Z) (i : Z) : Prop :=
  length e = 8%nat /\ forall v, 0 <= v < 8 -> nthz e v = past history ((even_phase p - 2 * v) mod 16) i.
Definition odd_row (o : list Z) (i : Z) : Prop :=
  length o = 8%nat /\ forall v, 0 <= v < 8 -> nthz o v = past history ((odd_phase p - 2 * v) mod 16) i.

Lemma even_age v : 0 <= (even_phase p - 2 * v) mod 16 < 16 /\ Z.even ((even_phase p - 2 * v) mod 16) = true.
Proof using Hp. clear Hl. destruct (phases p Hp) as (_&_&_&_&_&_&_&He&_). split; [zdiv|]. rewrite Zeven_mod. apply Z.eqb_eq. zdiv. Qed.

Lemma odd_age v : 0 <= (odd_phase p - 2 * v) mod 16 < 16 /\ Z.even ((odd_phase p - 2 * v) mod 16) = false.
Proof using Hp. clear Hl. destruct (phases p Hp) as (_&_&_&_&_&_&_&_&Ho). split; [zdiv|]. rewrite Zeven_mod. apply Z.eqb_neq. zdiv. Qed.

(** A sample from its two halves. *)
Lemma sample_halves j a b z : (forall v, 0 <= v < 8 -> window_term history j ((even_phase p - 2 * v) mod 16) = a v) ->
  (forall v, 0 <= v < 8 -> window_term history j ((odd_phase p - 2 * v) mod 16) = b v) ->
  z mod 2 ^ 32 = (sum8 a + sum8 b) mod 2 ^ 32 -> SHIFT3 (MLZ z) = synthesized history j.
Proof using Hp Hl.
  intros Ha Hb Hz. rewrite synthesized_sum, (reorder _ p) by done. rewrite (sum8_ext _ a), (sum8_ext (fun v => window_term _ _ (((odd_phase p) - _) mod _)) b) by done.
  by apply shifted.
Qed.

Lemma low_term e o d j v : 0 <= j < 16 -> even_row e (16 + j) -> odd_row o (16 - j) -> (forall n, 0 <= n < 16 -> window j n = nthz d n) -> 0 <= v < 8 ->
  window_term history j ((even_phase p - 2 * v) mod 16) = nthz e v * nthz d ((even_phase p - 2 * v) mod 16) /\
  window_term history j ((odd_phase p - 2 * v) mod 16) = - (nthz o v * nthz d ((odd_phase p - 2 * v) mod 16)).
Proof.
  intros Hj [_ He] [_ Ho] Hd Hv. destruct (even_age v) as [He1 He2], (odd_age v) as [Ho1 Ho2]. unfold window_term.
  rewrite He2, Ho2, !Hd, He, Ho by done. unfold vector, past. split.
  - rewrite (proj2 (Z.ltb_lt j 16)) by lia. lia.
  - rewrite (proj2 (Z.ltb_ge (32 + j) 16)), (proj2 (Z.eqb_neq (32 + j) 16)), (proj2 (Z.leb_le (32 + j) 48)) by lia.
    replace (48 - (32 + j)) with (16 - j) by lia. lia.
Qed.

Lemma high_term e o d j v : 0 < j < 16 -> even_row e (16 + j) -> odd_row o (16 - j) -> (forall n, 0 <= n < 16 -> window (32 - j) n = - nthz d (15 - n)) -> 0 <= v < 8 ->
  window_term history (32 - j) ((even_phase p - 2 * v) mod 16) = nthz e v * nthz d (15 - (even_phase p - 2 * v) mod 16) /\
  window_term history (32 - j) ((odd_phase p - 2 * v) mod 16) = nthz o v * nthz d (15 - (odd_phase p - 2 * v) mod 16).
Proof.
  intros Hj [_ He] [_ Ho] Hd Hv. destruct (even_age v) as [He1 He2], (odd_age v) as [Ho1 Ho2]. unfold window_term.
  rewrite He2, Ho2, !Hd, He, Ho by done. unfold vector, past. split.
  - rewrite (proj2 (Z.ltb_ge (32 - j) 16)), (proj2 (Z.eqb_neq (32 - j) 16)), (proj2 (Z.leb_le (32 - j) 48)) by lia.
    replace (48 - (32 - j)) with (16 + j) by lia. lia.
  - rewrite (proj2 (Z.ltb_ge (32 + (32 - j)) 16)), (proj2 (Z.eqb_neq (32 + (32 - j)) 16)), (proj2 (Z.leb_gt (32 + (32 - j)) 48)) by lia.
    replace (32 + (32 - j) - 48) with (16 - j) by lia. lia.
Qed.

Lemma first_correct fx fe d : even_row fe 16 -> odd_row fx 16 -> window_row d -> (forall n, 0 <= n < 16 -> window 0 n = nthz d n) ->
  first_sample fx fe d (even_phase p) (odd_phase p) = Some (synthesized history 0).
Proof.
  intros He Ho Hrow Hd. destruct (phases p Hp) as (_&_&_&Hpe&Hpo&_). unfold first_sample.
  destruct (chain_up fx d (odd_phase p) (proj1 Ho) Hrow Hpo 0) as (r1&->&C1). cbn [mbind option_bind].
  destruct (chain_up fe d (even_phase p) (proj1 He) Hrow ltac:(lia) (MLN r1)) as (r2&->&C2). cbn [mbind option_bind]. f_equal.
  eapply sample_halves; [intros v Hv; by apply (low_term fe fx d 0)|intros v Hv; by apply (low_term fe fx d 0)|].
  rewrite C2, (negated _ _ _ C1), sum8_opp. f_equal. lia.
Qed.

Lemma low_correct o e d j : 0 < j < 16 -> even_row e (16 + j) -> odd_row o (16 - j) -> window_row d -> (forall n, 0 <= n < 16 -> window j n = nthz d n) ->
  low_sample o e d (even_phase p) (odd_phase p) = Some (synthesized history j).
Proof.
  intros Hj He Ho Hrow Hd. destruct (phases p Hp) as (_&_&_&Hpe&Hpo&_). unfold low_sample.
  destruct (chain_up o d (odd_phase p) (proj1 Ho) Hrow Hpo 0) as (r1&->&C1). cbn [mbind option_bind].
  destruct (chain_down e d (even_phase p) (proj1 He) Hrow ltac:(lia) (MLN r1)) as (r2&->&C2). cbn [mbind option_bind]. f_equal.
  eapply sample_halves; [intros v Hv; apply (low_term e o d j); done || lia|intros v Hv; apply (low_term e o d j); done || lia|].
  rewrite C2, (negated _ _ _ C1), sum8_opp. f_equal. lia.
Qed.

Section High.
Variables (o e d : list Z) (j : Z).
Hypotheses (Hj : 0 < j < 16) (He : even_row e (16 + j)) (Ho : odd_row o (16 - j)) (Hrow : window_row d)
  (Hd : forall n, 0 <= n < 16 -> window (32 - j) n = - nthz d (15 - n)).

Lemma high_correct : high_sample o e d (even_phase p) (odd_phase p) = Some (synthesized history (32 - j)).
Proof.
  destruct (phases p Hp) as (_&_&_&Hpe&Hpo&_). unfold high_sample.
  destruct (chain_mirror_up e d (even_phase p) (proj1 He) Hrow ltac:(lia) 0) as (r1&->&C1). cbn [mbind option_bind].
  destruct (chain_mirror_down o d (odd_phase p) (proj1 Ho) Hrow Hpo r1) as (r2&->&C2). cbn [mbind option_bind]. f_equal.
  eapply sample_halves; [intros v Hv; by apply (high_term e o d j)|intros v Hv; by apply (high_term e o d j)|].
  by rewrite C2, <- Zplus_mod_idemp_l, C1, Zplus_mod_idemp_l.
Qed.

Lemma high_half_correct : high_sample_half o e d (even_phase p) (odd_phase p) = Some (synthesized history (32 - j)).
Proof.
  destruct (phases p Hp) as (_&_&_&Hpe&Hpo&_). unfold high_sample_half.
  destruct (chain_mirror_down o d (odd_phase p) (proj1 Ho) Hrow Hpo 0) as (r1&->&C1). cbn [mbind option_bind].
  destruct (chain_mirror_up e d (even_phase p) (proj1 He) Hrow ltac:(lia) r1) as (r2&->&C2). cbn [mbind option_bind]. f_equal.
  eapply sample_halves; [intros v Hv; by apply (high_term e o d j)|intros v Hv; by apply (high_term e o d j)|].
  rewrite C2, <- Zplus_mod_idemp_l, C1, Zplus_mod_idemp_l. f_equal. lia.
Qed.
End High.

Lemma middle_correct o d : odd_row o 0 -> window_row d -> (forall n, 0 <= n < 16 -> window 16 n = nthz d n) ->
  middle_sample o d (odd_phase p) = Some (synthesized history 16).
Proof.
  intros Ho Hrow Hd. destruct (phases p Hp) as (_&_&_&Hpe&Hpo&_). unfold middle_sample.
  destruct (chain_up o d (odd_phase p) (proj1 Ho) Hrow Hpo 0) as (r1&->&C1). cbn [mbind option_bind]. f_equal.
  assert (s32 (- MLZ r1) = MLZ (MLN r1)) as ->.
  { unfold MLZ, MLN. apply wraps_eq_mod. unfold wrapu. rewrite Zmod_mod, <- (Z.sub_0_l (s32 r1)), <- (Z.sub_0_l r1), <- Zminus_mod_idemp_r, wraps_mod by lia.
    apply Zminus_mod_idemp_r. }
  eapply (sample_halves 16 (fun _ => 0) (fun v => - (nthz o v * nthz d ((odd_phase p - 2 * v) mod 16)))).
  - intros v Hv. destruct (even_age v) as [He1 He2]. unfold window_term. rewrite He2. unfold vector.
    change (16 <? 16) with false. change (16 =? 16) with true. cbv iota. lia.
  - intros v Hv. destruct (odd_age v) as [Ho1 Ho2]. unfold window_term. rewrite Ho2, Hd by done. rewrite (proj2 Ho) by done. unfold vector, past.
    change (32 + 16 <? 16) with false. change (32 + 16 =? 16) with false. change (32 + 16 <=? 48) with true. change (48 - (32 + 16)) with 0. cbv iota. lia.
  - pose proof (negated _ _ 0 C1) as H. rewrite !Z.add_0_r in H. rewrite H, sum8_opp. f_equal.
Qed.
End Samples.

(** ** Rows *)

Lemma bank_row f p history eo peo s : holds f (p + 1) history -> 0 <= eo < 2 -> 0 <= peo < 2 -> 0 <= s < 16 ->
  exists b row, get_bank f eo peo = Some b /\ aget b s = Some row /\ length row = 8%nat /\
  forall v, 0 <= v < 8 -> nthz row v = past history (age (p + 1) peo v) (if eo =? 0 then 16 + s else 15 - s).
Proof.
  intros [Hb _] He Hpeo Hs. destruct (Hb eo peo He Hpeo) as (b&E&[Hbl Hbr]&C). exists b.
  destruct (aget_Some b s) as [row Er]; [lia|]. exists row. split; [done|]. split; [done|].
  pose proof (aget_Forall _ _ _ _ Hbr Er) as Hr. cbv beta in Hr. split; [done|]. intros v Hv. specialize (C s v Hs Hv).
  unfold get2 in C. rewrite Er in C. cbn [mbind option_bind] in C. rewrite aget_nthz in C by lia. by injection C.
Qed.

(** Where the samples of a row are, every [c]-th of them: sample [c * i] is at [at_pcm + i]. *)
Section Row.
Variables (c b : Z) (val : Z -> Z) (out0 : list Z).
Hypotheses (Hc : c = 1 \/ c = 2) (Hb : 0 <= b) (Hroom : b + 32 / c <= zlen out0).

(** The samples up to [u] and the last [u - 1] are there. *)
Definition sampled (u : Z) (out : list Z) : Prop :=
  length out = length out0 /\
  forall i, 0 <= i -> aget out i = if (b <=? i) && (i <? b + 32 / c) && ((i - b <? u) || (32 / c - u <? i - b)) then Some (val (c * (i - b))) else aget out0 i.

Lemma sampled_pair u out x y : sampled u out -> 0 < u -> 2 * u < 32 / c -> x = val (c * u) -> y = val (c * (32 / c - u)) ->
  exists out1 out2, aset out (b + u) x = Some out1 /\ aset out1 (b + 32 / c - u) y = Some out2 /\ sampled (u + 1) out2.
Proof.
  intros [Hl H] Hu Hu2 -> ->. rewrite aset_Some by lia. eexists _, _. split; [done|]. rewrite aset_Some by (rewrite length_insert; lia).
  split; [done|]. split; [by rewrite !length_insert|]. intros i Hi.
  destruct (Z.eq_dec i (b + 32 / c - u)) as [->|Hne].
  { rewrite aget_insert_eq by (rewrite length_insert; lia).
    rewrite (proj2 (Z.leb_le _ _)), (proj2 (Z.ltb_lt _ (b + 32 / c))), (proj2 (Z.ltb_lt (32 / c - (u + 1)) _)), orb_true_r by lia. cbn [andb]. do 3 f_equal. lia. }
  rewrite aget_insert_ne by lia. destruct (Z.eq_dec i (b + u)) as [->|Hne2].
  { rewrite aget_insert_eq by lia.
    rewrite (proj2 (Z.leb_le _ _)), (proj2 (Z.ltb_lt _ (b + 32 / c))), (proj2 (Z.ltb_lt _ (u + 1))) by lia. cbn [andb orb]. do 3 f_equal. lia. }
  rewrite aget_insert_ne, H by lia.
  destruct (Z.leb_spec b i), (Z.ltb_spec i (b + 32 / c)), (Z.ltb_spec (i - b) u), (Z.ltb_spec (i - b) (u + 1)), (Z.ltb_spec (32 / c - u) (i - b)), (Z.ltb_spec (32 / c - (u + 1)) (i - b));
    cbn [andb orb]; try done; lia.
Qed.

Lemma sampled_first x : x = val 0 -> exists out, aset out0 b x = Some out /\ sampled 1 out.
Proof.
  intros ->. assert (0 < 32 / c) by (destruct Hc as [E|E]; rewrite E; lia || done). rewrite aset_Some by lia. eexists. split; [done|].
  split; [by rewrite length_insert|]. intros i Hi. destruct (Z.eq_dec i b) as [->|Hne].
  - rewrite aget_insert_eq by lia. rewrite Z.leb_refl, (proj2 (Z.ltb_lt b _)), (proj2 (Z.ltb_lt (b - b) 1)) by lia. cbn [andb orb]. do 2 f_equal. lia.
  - rewrite aget_insert_ne by lia. destruct (Z.leb_spec b i), (Z.ltb_spec i (b + 32 / c)), (Z.ltb_spec (i - b) 1), (Z.ltb_spec (32 / c - 1) (i - b)); cbn [andb orb]; try done; lia.
Qed.

(** The last one. *)
Lemma sampled_middle u out x : sampled u out -> 2 * u = 32 / c -> x = val (c * u) ->
  exists out', aset out (b + u) x = Some out' /\ length out' = length out0 /\
  forall i, 0 <= i -> aget out' i = if (b <=? i) && (i <? b + 32 / c) then Some (val (c * (i - b))) else aget out0 i.
Proof.
  intros [Hl H] Hu ->. assert (0 < 32 / c) by (destruct Hc as [E|E]; rewrite E; lia || done). rewrite aset_Some by lia. eexists. split; [done|].
  split; [by rewrite length_insert|]. intros i Hi. destruct (Z.eq_dec i (b + u)) as [->|Hne].
  - rewrite aget_insert_eq by lia. rewrite (proj2 (Z.leb_le _ _)), (proj2 (Z.ltb_lt _ (b + 32 / c))) by lia. cbn [andb]. do 3 f_equal. lia.
  - rewrite aget_insert_ne, H by lia.
    destruct (Z.leb_spec b i), (Z.ltb_spec i (b + 32 / c)), (Z.ltb_spec (i - b) u), (Z.ltb_spec (32 / c - u) (i - b)); cbn [andb orb]; try done; lia.
Qed.
End Row.

Section Pairs.
Variables (p : Z) (history : list (list Z)) (fe fo : list (list Z)).
Hypotheses (Hp : 0 <= p < 16) (Hl : length history = 16%nat)
  (Hfe : forall s, 0 <= s < 16 -> exists e, aget fe s = Some e /\ even_row p history e (16 + s))
  (Hfo : forall s, 0 <= s < 16 -> exists o, aget fo s = Some o /\ odd_row p history o (15 - s)).
Variables (c b : Z) (out0 : list Z).
Hypotheses (Hc : c = 1 \/ c = 2) (Hb : 0 <= b) (Hroom : b + 32 / c <= zlen out0).

Abbreviation sampled := (sampled c b (synthesized history) out0).

Lemma pair_step high u out : (c = 1 /\ high = high_sample \/ c = 2 /\ high = high_sample_half) -> sampled u out -> 0 < u -> 2 * u < 32 / c ->
  exists out', sample_pair high fe fo (even_phase p) (odd_phase p) (c * u) (b + u, b + 32 / c - u, out) = Some (b + u + 1, b + 32 / c - u - 1, out') /\
    sampled (u + 1) out'.
Proof.
  intros Hhigh Hout Hu Hu2. assert (0 < c * u < 16) as Hj by (destruct Hc as [E|E]; rewrite E in *; lia || zdiv).
  unfold sample_pair. destruct (Hfe (c * u)) as (e&->&He); [lia|]. destruct (Hfo (c * u - 1)) as (o&->&Ho); [lia|].
  replace (15 - (c * u - 1)) with (16 - c * u) in Ho by lia. destruct (D_row (c * u)) as (d&->&Hrow&Hd); [lia|]. cbn [mbind option_bind].
  assert (forall n, 0 <= n < 16 -> window (c * u) n = nthz d n) as Hw1 by (intros; unfold window; rewrite (proj2 (Z.leb_le _ _)) by lia; by apply Hd).
  assert (forall n, 0 <= n < 16 -> window (32 - c * u) n = - nthz d (15 - n)) as Hw2.
  { intros n Hn. unfold window. rewrite (proj2 (Z.leb_gt _ _)) by lia. replace (32 - (32 - c * u)) with (c * u) by lia. by rewrite Hd by lia. }
  rewrite (low_correct p history Hp Hl o e d (c * u) Hj He Ho Hrow Hw1). cbn [mbind option_bind].
  destruct (sampled_pair c b (synthesized history) out0 Hc Hb Hroom u out (synthesized history (c * u)) (synthesized history (32 - c * u)) Hout Hu Hu2 eq_refl)
    as (out1&out2&->&E2&Hout2).
  { f_equal. destruct Hc as [E|E]; rewrite E in *; [lia|]. change (32 / 2) with 16. lia. }
  cbn [mbind option_bind].
  assert (high o e d (even_phase p) (odd_phase p) = Some (synthesized history (32 - c * u))) as ->.
  { destruct Hhigh as [[_ ->]|[_ ->]]; [by apply high_correct|by apply high_half_correct]. }
  cbn [mbind option_bind]. rewrite E2. cbn [mbind option_bind]. by exists out2.
Qed.
End Pairs.

Section Loop.
Variables (p : Z) (history : list (list Z)) (fe fo : list (list Z)).
Hypotheses (Hp : 0 <= p < 16) (Hl : length history = 16%nat)
  (Hfe : forall s, 0 <= s < 16 -> exists e, aget fe s = Some e /\ even_row p history e (16 + s))
  (Hfo : forall s, 0 <= s < 16 -> exists o, aget fo s = Some o /\ odd_row p history o (15 - s)).
Variables (b : Z) (out0 out : list Z).
Hypothesis Hb : 0 <= b.

Lemma full_loop : b + 32 <= zlen out0 -> sampled 1 b (synthesized history) out0 1 out ->
  exists out' q, for_range 1 16 (full_pair fe fo (even_phase p) (odd_phase p)) (b + 1, b + 1 + 30, out) = Some (b + 16, q, out') /\
    sampled 1 b (synthesized history) out0 16 out'.
Proof.
  intros Hroom H. destruct (for_range_inv (fun u st => exists out, st = (b + u, b + 32 - u, out) /\ sampled 1 b (synthesized history) out0 u out)
    1 16 (full_pair fe fo (even_phase p) (odd_phase p)) (b + 1, b + 1 + 30, out)) as (st&->&out'&->&Hout'); [lia| | |].
  - exists out. split; [|done]. do 2 f_equal. lia.
  - intros u st Hu (out1&->&H1). unfold full_pair.
    destruct (pair_step p history fe fo Hp Hl Hfe Hfo 1 b out0 ltac:(by left) Hb Hroom high_sample u out1) as (out2&E&H2); [by left|done|lia|change (32 / 1) with 32; lia|].
    rewrite Z.mul_1_l in E. change (32 / 1) with 32 in E. rewrite E. eexists. split; [done|]. exists out2. split; [do 2 f_equal; lia|done].
  - exists out', (b + 32 - 16). by split.
Qed.

Lemma half_loop : b + 16 <= zlen out0 -> sampled 2 b (synthesized history) out0 1 out ->
  exists out' q, for_range 1 16 (half_pair fe fo (even_phase p) (odd_phase p)) (b + 1, b + 1 + 14, out) = Some (b + 8, q, out') /\
    sampled 2 b (synthesized history) out0 8 out'.
Proof.
  intros Hroom H. destruct (for_range_inv (fun sb st => exists out, st = (b + (sb + 1) / 2, b + 16 - (sb + 1) / 2, out) /\
      sampled 2 b (synthesized history) out0 ((sb + 1) / 2) out)
    1 16 (half_pair fe fo (even_phase p) (odd_phase p)) (b + 1, b + 1 + 14, out)) as (st&->&out'&->&Hout'); [lia| | |].
  - exists out. change ((1 + 1) / 2) with 1. split; [|done]. do 2 f_equal. lia.
  - intros sb st Hsb (out1&->&H1). unfold half_pair. change (sb .& 1) with (sb .& Z.ones 1). rewrite Z.land_ones by lia. change (2 ^ 1) with 2.
    destruct (Z.eqb_spec (sb mod 2) 0) as [E0|E0].
    + set (u := (sb + 1) / 2) in *. assert (sb = 2 * u /\ (sb + 1 + 1) / 2 = u + 1) as [Eu ->] by (unfold u; zdiv).
      destruct (pair_step p history fe fo Hp Hl Hfe Hfo 2 b out0 ltac:(by right) Hb Hroom high_sample_half u out1) as (out2&E&H2); [by right|done|lia|change (32 / 2) with 16; lia|].
      rewrite <- Eu in E. change (32 / 2) with 16 in E. rewrite E. eexists. split; [done|]. exists out2. split; [do 2 f_equal; lia|done].
    + eexists. split; [done|]. exists out1. assert ((sb + 1 + 1) / 2 = (sb + 1) / 2) as -> by zdiv. by split.
  - exists out', (b + 16 - 8). by split.
Qed.
End Loop.

(** The two kinds of rows: every sample, or every other one. *)
Definition row_kind (W c : Z) (row : list (list Z) -> Z -> banks * Z * Z * list Z -> option (banks * Z * Z * list Z)) : Prop :=
  c = 1 /\ row = synth_full W \/ c = 2 /\ row = synth_half W.

Lemma holds_wrap f p history : holds f (p + 1) history -> holds f ((p + 1) mod 16) history.
Proof.
  intros [Hb Hl]. split; [|done]. intros eo peo He Hpeo. destruct (Hb eo peo He Hpeo) as (b&E&G&C). exists b. split; [done|]. split; [done|].
  intros s v Hs Hv. rewrite C by done. do 2 f_equal. unfold age. zdiv.
Qed.

(** The rows of the banks that a row of phase [p] reads. *)
Lemma rows_held f p h : 0 <= p < 16 -> holds f (p + 1) h ->
  exists fe fx fo x, get_bank f 0 (p mod 2) = Some fe /\ get_bank f 0 (1 - p mod 2) = Some fx /\ get_bank f 1 (1 - p mod 2) = Some fo /\
    (forall r, 0 <= r < 16 -> exists e, aget fe r = Some e /\ even_row p h e (16 + r)) /\
    (forall r, 0 <= r < 16 -> exists o, aget fo r = Some o /\ odd_row p h o (15 - r)) /\ aget fx 0 = Some x /\ odd_row p h x 16.
Proof.
  intros Hp H2. destruct (phases p Hp) as (_&_&_&_&_&Hae&Hao&_). assert (0 <= p mod 2 < 2) as Hm by zdiv.
  destruct (hd_banks _ _ _ H2 0 (p mod 2)) as (fe&Bfe&_); [lia|done|]. destruct (hd_banks _ _ _ H2 1 (1 - p mod 2)) as (fo&Bfo&_); [lia|lia|].
  destruct (bank_row f p h 0 (1 - p mod 2) 0 H2) as (fx&x&Bfx&Ex&Hlx&Hx); [lia|lia|lia|].
  exists fe, fx, fo, x. split; [done|]. split; [done|]. split; [done|]. split; [|split; [|split; [done|]]].
  - intros r Hr. destruct (bank_row f p h 0 (p mod 2) r H2) as (b1&e&Eb&Ee&Hle&He); [lia|done|done|]. rewrite Bfe in Eb. injection Eb as <-.
    exists e. split; [done|]. split; [done|]. intros v Hv. by rewrite He, Hae by done.
  - intros r Hr. destruct (bank_row f p h 1 (1 - p mod 2) r H2) as (b1&o&Eb&Eo&Hlo&Ho); [lia|lia|done|]. rewrite Bfo in Eb. injection Eb as <-.
    exists o. split; [done|]. split; [done|]. intros v Hv. by rewrite Ho, Hao by done.
  - split; [done|]. intros v Hv. by rewrite Hx, Hao by done.
Qed.

(** A row of a channel: the banks take the transform, the samples are those of the
    definition. *)
Lemma row_correct W c row sbsample s f p history b out inp : row_kind W c row -> 0 <= p < 16 -> holds f p history ->
  aget sbsample s = Some inp -> length inp = 32%nat -> 0 <= b -> b + 32 / c <= zlen out ->
  exists f' out', row sbsample s (f, p, b, out) = Some (f', (p + 1) mod 16, b + 32 / c, out') /\ holds f' ((p + 1) mod 16) (next_history W inp history) /\
    length out' = length out /\
    forall i, 0 <= i -> aget out' i = if (b <=? i) && (i <? b + 32 / c) then Some (synthesized (next_history W inp history) (c * (i - b))) else aget out i.
Proof.
  intros Hk Hp Hf Hs Hinp Hb Hroom. destruct (phases p Hp) as (E1&E2&E3&_).
  destruct (stored W f p history inp Hp Hf Hinp) as (lo&hi&lo'&hi'&f1&f2&B1&B2&Ed&S1&S2&H2).
  set (h := next_history W inp history) in *. pose proof (hd_history _ _ _ H2) as Hl.
  destruct (rows_held f2 p h Hp H2) as (fe&fx&fo&x&Bfe&Bfx&Bfo&Hfe&Hfo&Ex&Hx').
  destruct (Hfe 0 ltac:(lia)) as (e&Ee&He). destruct (Hfo 15 ltac:(lia)) as (o&Eo&Ho).
  destruct (D_row 0) as (d0&Ed0&Hr0&Hd0); [lia|]. destruct (D_row 16) as (d16&Ed16&Hr16&Hd16); [lia|].
  assert (c = 1 \/ c = 2) as Hc by (destruct Hk as [[-> _]|[-> _]]; auto).
  assert (first_sample x e d0 (even_phase p) (odd_phase p) = Some (synthesized h 0)) as Efirst by (by apply first_correct).
  assert (middle_sample o d16 (odd_phase p) = Some (synthesized h 16)) as Emiddle by (by apply middle_correct).
  destruct (sampled_first c b (synthesized h) out Hc Hb Hroom (synthesized h 0) eq_refl) as (out1&Eo1&H1).
  assert (u32 (p + 1) mod 16 = (p + 1) mod 16) as Ep by (rewrite wrapu_small; [done|change (2 ^ 32) with 4294967296; lia]).
  assert (forall out2, sampled c b (synthesized h) out (16 / c) out2 ->
    exists out', aset out2 (b + 16 / c) (synthesized h 16) = Some out' /\ length out' = length out /\
    forall i, 0 <= i -> aget out' i = if (b <=? i) && (i <? b + 32 / c) then Some (synthesized h (c * (i - b))) else aget out i) as Hlast.
  { intros out2 Hout2. apply (sampled_middle c b (synthesized h) out Hc Hb Hroom (16 / c)); [done|destruct Hc as [-> | ->]; done|].
    f_equal. destruct Hc as [-> | ->]; done. }
  destruct Hk as [[-> ->]|[-> ->]]; unfold synth_full, synth_half, synth_row;
    rewrite Hs; cbn [mbind option_bind]; rewrite E1, E3, B1; cbn [mbind option_bind]; rewrite B2; cbn [mbind option_bind];
    rewrite Ed; cbn [mbind option_bind]; rewrite S1; cbn [mbind option_bind]; rewrite S2; cbn [mbind option_bind];
    rewrite Bfe, E2, Bfx; cbn [mbind option_bind]; rewrite Bfo, Ex, Ee, Ed0; cbn [mbind option_bind];
    fold (even_phase p) (odd_phase p); rewrite Efirst; cbn [mbind option_bind]; rewrite Eo1; cbn [mbind option_bind].
  - destruct (full_loop p h fe fo Hp Hl Hfe Hfo b out out1 Hb Hroom H1) as (out2&q&->&H3). cbn [mbind option_bind].
    rewrite Eo, Ed16. cbn [mbind option_bind]. rewrite Emiddle. cbn [mbind option_bind]. destruct (Hlast out2 H3) as (out'&Ha&Hlen&Hget).
    change (16 / 1) with 16 in Ha. rewrite Ha. cbn [mbind option_bind]. exists f2, out'. split; [rewrite Ep; do 3 f_equal; change (32 / 1) with 32; lia|].
    split; [by apply holds_wrap|by split].
  - destruct (half_loop p h fe fo Hp Hl Hfe Hfo b out out1 Hb Hroom H1) as (out2&q&->&H3). cbn [mbind option_bind].
    rewrite Eo, Ed16. cbn [mbind option_bind]. rewrite Emiddle. cbn [mbind option_bind]. destruct (Hlast out2 H3) as (out'&Ha&Hlen&Hget).
    change (16 / 2) with 8 in Ha. rewrite Ha. cbn [mbind option_bind]. exists f2, out'. split; [rewrite Ep; do 3 f_equal; change (32 / 2) with 16; lia|].
    split; [by apply holds_wrap|by split].
Qed.

(** ** Channels *)

(** The history when [rows] have come in. *)
Definition history_after (W : Z) (rows : list (list Z)) (history : list (list Z)) : list (list Z) :=
  fold_left (fun h inp => next_history W inp h) rows history.

Lemma history_snoc W rows k inp history : 0 <= k -> aget rows k = Some inp ->
  history_after W (take (Z.to_nat (k + 1)) rows) history = next_history W inp (history_after W (take (Z.to_nat k) rows) history).
Proof.
  intros Hk E. rewrite aget_lookup in E by lia. replace (Z.to_nat (k + 1)) with (S (Z.to_nat k)) by lia.
  unfold history_after. by rewrite (take_S_r _ _ _ E), fold_left_app.
Qed.

(** Sample [i] of a channel, of [n] for each row. *)
Definition pcm_sample (W c : Z) (rows : list (list Z)) (history : list (list Z)) (i : Z) : Z :=
  synthesized (history_after W (take (Z.to_nat (i / (32 / c) + 1)) rows) history) (c * (i mod (32 / c))).

Lemma channel_correct W c row rows ns f p history out : row_kind W c row -> 0 <= p < 16 -> holds f p history -> grid 36 32 rows ->
  0 <= ns <= 36 -> ns * (32 / c) <= zlen out ->
  exists f' p' q out', for_range 0 ns (row rows) (f, p, 0, out) = Some (f', p', q, out') /\
    p' = (p + ns) mod 16 /\ holds f' p' (history_after W (take (Z.to_nat ns) rows) history) /\ length out' = length out /\
    forall i, 0 <= i -> aget out' i = if i <? ns * (32 / c) then Some (pcm_sample W c rows history i) else aget out i.
Proof.
  intros Hk Hp Hf [Hlen Hrows] Hns Hroom. assert (0 < 32 / c) as HN by (destruct Hk as [[-> _]|[-> _]]; done). set (N := 32 / c) in *.
  destruct (for_range_inv (fun k '(f', p', q, out') => p' = (p + k) mod 16 /\ q = k * N /\
      holds f' p' (history_after W (take (Z.to_nat k) rows) history) /\ length out' = length out /\
      forall i, 0 <= i -> aget out' i = if i <? k * N then Some (pcm_sample W c rows history i) else aget out i)
    0 ns (row rows) (f, p, 0, out)) as ([[[f' p'] q] out']&E&H1&H2&H3&H4&H5); [lia| | |].
  - split; [rewrite Z.add_0_r; symmetry; by apply Z.mod_small|]. split; [done|]. split; [done|]. split; [done|].
    intros i Hi. by rewrite (proj2 (Z.ltb_ge i (0 * N))) by lia.
  - intros k [[[f1 p1] q1] out1] Hkk (->&->&H3&H4&H5). destruct (aget_Some rows k) as [inp Ei]; [lia|].
    pose proof (aget_Forall _ _ _ _ Hrows Ei) as Hinp. cbv beta in Hinp.
    assert (k * N + N <= zlen out1) as Hr by (rewrite H4; nia).
    destruct (row_correct W c row rows k f1 ((p + k) mod 16) _ (k * N) out1 inp Hk ltac:(zdiv) H3 Ei Hinp ltac:(nia) Hr) as (f2&out2&E&G1&G2&G3).
    exists (f2, ((p + k) mod 16 + 1) mod 16, k * N + N, out2). split; [exact E|]. rewrite <- history_snoc in G1, G3 by done || lia.
    assert (((p + k) mod 16 + 1) mod 16 = (p + (k + 1)) mod 16) as Em by zdiv. rewrite Em in *. split; [done|]. split; [lia|]. split; [done|].
    split; [lia|]. intros i Hi. rewrite G3, H5 by done. fold N. replace ((k + 1) * N) with (k * N + N) by lia. unfold pcm_sample. fold N.
    destruct (Z.leb_spec (k * N) i) as [Hge|Hlt], (Z.ltb_spec i (k * N + N)), (Z.ltb_spec i (k * N)); cbn [andb]; try done; try lia.
    assert (i / N = k) as -> by (symmetry; apply (Z.div_unique i N k (i - k * N)); lia).
    assert (i mod N = i - k * N) as -> by (symmetry; apply (Z.mod_unique i N k); lia). done.
  - exists f', p', q, out'. by repeat (split; [done|]).
Qed.

(** ** Frames *)

Definition channel_ready (y : mad_synth) (ch : Z) (history : list (list Z)) : Prop :=
  exists f, aget (synth_filter y) ch = Some f /\ holds f (synth_phase y) history.

Lemma rows_number h : MAD_NSBSAMPLES h = 12 \/ MAD_NSBSAMPLES h = 18 \/ MAD_NSBSAMPLES h = 36.
Proof. unfold MAD_NSBSAMPLES. repeat case_match; auto. Qed.

Section Channels.
Variables (W c : Z) (row : list (list Z) -> Z -> banks * Z * Z * list Z -> option (banks * Z * Z * list Z)) (f : mad_frame) (ns p : Z).
Variables (filter0 : list banks) (samples0 : list (list Z)) (hs : Z -> list (list Z)).
Hypotheses (Hk : row_kind W c row) (Hp : 0 <= p < 16) (Hns : 0 <= ns <= 36) (Hsb : cube 2 36 32 (sbsample f)) (Hsamples : grid 2 1152 samples0).

(** The first [n] channels are done. *)
Definition channels_done (n : Z) (st : list banks * list (list Z)) : Prop :=
  let '(filter, samples) := st in
  length filter = length filter0 /\ grid 2 1152 samples /\
  (forall ch, 0 <= ch < n -> exists rows banks, aget (sbsample f) ch = Some rows /\ aget filter ch = Some banks /\
     holds banks ((p + ns) mod 16) (history_after W (take (Z.to_nat ns) rows) (hs ch)) /\
     forall i, 0 <= i < 1152 -> get2 samples ch i = if i <? ns * (32 / c) then Some (pcm_sample W c rows (hs ch) i) else get2 samples0 ch i) /\
  (forall ch, n <= ch -> aget filter ch = aget filter0 ch /\ aget samples ch = aget samples0 ch).

Lemma channels_correct nch : 0 <= nch <= 2 -> (forall ch, 0 <= ch < nch -> exists b, aget filter0 ch = Some b /\ holds b p (hs ch)) ->
  exists st, synth_channels row f nch ns p (filter0, samples0) = Some st /\ channels_done nch st.
Proof.
  intros Hn Hready. unfold synth_channels. apply (for_range_inv channels_done); [lia| |].
  { split; [done|]. split; [done|]. split; [intros; lia|done]. }
  intros ch [filter samples] Hch (Hf&Hs&Hdone&Hrest). destruct (Hready ch) as (b&Eb&Hb); [lia|]. destruct (Hrest ch) as [R1 R2]; [lia|].
  destruct (aget_Some (sbsample f) ch) as [rows Er]; [rewrite (proj1 Hsb); lia|]. pose proof (aget_Forall _ _ _ _ (proj2 Hsb) Er) as Hrows.
  destruct (aget_Some samples ch) as [out Eo]; [rewrite (proj1 Hs); lia|]. pose proof (aget_Forall _ _ _ _ (proj2 Hs) Eo) as Hout. cbv beta in Hout.
  rewrite Er, R1, Eb, Eo. cbn [mbind option_bind].
  assert (ns * (32 / c) <= zlen out) as Hroom by (rewrite Hout; destruct Hk as [[-> _]|[-> _]]; [change (32 / 1) with 32|change (32 / 2) with 16]; lia).
  destruct (channel_correct W c row rows ns b p (hs ch) out Hk Hp Hb Hrows Hns Hroom) as (b'&p'&q&out'&->&->&Hb'&Hl'&Hget). cbn [mbind option_bind].
  pose proof (aget_inv filter ch b (eq_trans R1 Eb)) as Hrange. rewrite (aset_Some filter) by exact Hrange. cbn [mbind option_bind]. rewrite aset_Some by (rewrite (proj1 Hs); lia). cbn [mbind option_bind].
  eexists. split; [done|]. split; [by rewrite length_insert|]. split; [split; [by rewrite length_insert, (proj1 Hs)|apply Forall_insert; [apply Hs|cbv beta; lia]]|].
  split; intros ch' Hch'.
  - unfold get2. destruct (Z.eq_dec ch' ch) as [->|Hne].
    + exists rows, b'. split; [done|]. rewrite (aget_insert_eq filter) by exact Hrange. rewrite aget_insert_eq by (rewrite (proj1 Hs); lia). split; [done|]. split; [done|].
      intros i Hi. cbn [mbind option_bind]. rewrite Hget by lia. destruct (i <? _); [done|]. by rewrite <- R2, Eo.
    + destruct (Hdone ch') as (rows'&b1&D1&D2&D3&D4); [lia|]. exists rows', b1. rewrite !aget_insert_ne by lia. by repeat (split; [done|]).
  - rewrite !aget_insert_ne by lia. apply Hrest. lia.
Qed.
End Channels.

(** ** Setting up *)

(** The banks of both channels, with any contents. *)
Definition filter_shape (filter : list banks) : Prop :=
  forall ch eo peo, 0 <= ch < 2 -> 0 <= eo < 2 -> 0 <= peo < 2 -> exists f b, aget filter ch = Some f /\ get_bank f eo peo = Some b /\ grid 16 8 b.

Definition filter_cell (filter : list banks) (ch eo peo s v : Z) : option Z := f ← aget filter ch; b ← get_bank f eo peo; get2 b s v.

Lemma clear_cell_spec filter ch s v eo peo : filter_shape filter -> 0 <= ch < 2 -> 0 <= s < 16 -> 0 <= v < 8 -> 0 <= eo < 2 -> 0 <= peo < 2 ->
  exists filter', clear_cell ch s v eo peo filter = Some filter' /\ filter_shape filter' /\
  forall ch' eo' peo' s' v', 0 <= ch' < 2 -> 0 <= eo' < 2 -> 0 <= peo' < 2 -> 0 <= s' < 16 -> 0 <= v' < 8 ->
    filter_cell filter' ch' eo' peo' s' v' =
      if (ch' =? ch) && ((eo' =? eo) && (peo' =? peo)) && ((s' =? s) && (v' =? v)) then Some 0 else filter_cell filter ch' eo' peo' s' v'.
Proof.
  intros Hf Hch Hs Hv He Hpe. destruct (Hf ch eo peo Hch He Hpe) as (f&b&Ef&Eb&Gb). unfold clear_cell. rewrite Ef. cbn [mbind option_bind].
  rewrite Eb. cbn [mbind option_bind]. destruct (grid_set 16 8 b s v 0 Gb) as (b'&->&Gb'&Cb'); [lia|lia|]. cbn [mbind option_bind].
  destruct (set_bank_spec f eo peo b b') as (f'&->&Cf'); [lia|lia|done|]. cbn [mbind option_bind].
  pose proof (aget_inv filter ch f Ef) as Hrange. rewrite (aset_Some filter) by exact Hrange. eexists. split; [done|].
  assert (forall ch', 0 <= ch' < 2 -> aget (<[Z.to_nat ch := f']> filter) ch' = if ch' =? ch then Some f' else aget filter ch') as Hget.
  { intros ch' Hch'. destruct (Z.eqb_spec ch' ch) as [->|]; [rewrite (aget_insert_eq filter) by exact Hrange; done|by rewrite aget_insert_ne by lia]. }
  split.
  - intros ch' eo' peo' Hch' He' Hpe'. destruct (Hf ch' eo' peo' Hch' He' Hpe') as (f1&b1&E1&E2&G1). rewrite Hget by done.
    destruct (Z.eqb_spec ch' ch) as [->|]; [|by exists f1, b1]. rewrite Ef in E1. injection E1 as <-. exists f'. rewrite Cf' by lia.
    destruct ((eo' =? eo) && (peo' =? peo)); [by exists b'|by exists b1].
  - intros ch' eo' peo' s' v' Hch' He' Hpe' Hs' Hv'. unfold filter_cell. rewrite Hget by done.
    destruct (Z.eqb_spec ch' ch) as [->|]; cbn [andb]; [|done]. rewrite Ef. cbn [mbind option_bind]. rewrite Cf' by lia.
    destruct (Z.eqb_spec eo' eo) as [->|], (Z.eqb_spec peo' peo) as [->|]; cbn [andb]; try done. rewrite Eb. cbn [mbind option_bind]. apply Cb'; lia.
Qed.

(** The first [k] cells of each bank are clear. *)
Definition cleared (k : Z) (filter : list banks) : Prop :=
  filter_shape filter /\ forall ch eo peo s v, 0 <= ch < 2 -> 0 <= eo < 2 -> 0 <= peo < 2 -> 0 <= s < 16 -> 0 <= v < 8 ->
    ch * 128 + (s * 8 + v) < k -> filter_cell filter ch eo peo s v = Some 0.

Lemma clear_cells filter ch s v : cleared (ch * 128 + (s * 8 + v)) filter -> 0 <= ch < 2 -> 0 <= s < 16 -> 0 <= v < 8 ->
  exists filter', (f ← clear_cell ch s v 1 1 filter; f ← clear_cell ch s v 1 0 f; f ← clear_cell ch s v 0 1 f; clear_cell ch s v 0 0 f) = Some filter' /\
    cleared (ch * 128 + (s * 8 + v) + 1) filter'.
Proof.
  intros [Hf Hc] Hch Hs Hv.
  destruct (clear_cell_spec filter ch s v 1 1) as (f1&->&G1&C1); try done. cbn [mbind option_bind].
  destruct (clear_cell_spec f1 ch s v 1 0) as (f2&->&G2&C2); try done. cbn [mbind option_bind].
  destruct (clear_cell_spec f2 ch s v 0 1) as (f3&->&G3&C3); try done. cbn [mbind option_bind].
  destruct (clear_cell_spec f3 ch s v 0 0) as (f4&->&G4&C4); try done. exists f4. split; [done|]. split; [done|].
  intros ch' eo peo s' v' Hch' He Hpe Hs' Hv' Hk. rewrite C4, C3, C2, C1 by done.
  destruct (Z.eqb_spec ch' ch), (Z.eqb_spec s' s), (Z.eqb_spec v' v); cbn [andb]; rewrite ?andb_false_r, ?andb_true_r;
    try (apply Hc; [done..|lia]).
  assert (eo = 0 \/ eo = 1) as [-> | ->] by lia; assert (peo = 0 \/ peo = 1) as [-> | ->] by lia; reflexivity.
Qed.

Definition silence : list (list Z) := repeat (repeat 0 32) 16.

Lemma past_silence n i : past silence n i = 0.
Proof.
  unfold past, silence. destruct (lt_dec (Z.to_nat n) 16) as [Hn|Hn].
  - rewrite nth_repeat_lt by done. destruct (lt_dec (Z.to_nat i) 32) as [Hi|Hi]; [by rewrite nth_repeat_lt by done|].
    apply nth_overflow. rewrite repeat_length. lia.
  - rewrite (nth_overflow (repeat _ 16)) by (rewrite repeat_length; lia). by destruct (Z.to_nat i).
Qed.

Lemma init_ready y : filter_shape (synth_filter y) ->
  exists y', mad_synth_init y = Some y' /\ synth_phase y' = 0 /\ pcm_samples (synth_pcm y') = pcm_samples (synth_pcm y) /\
    forall ch, 0 <= ch < 2 -> channel_ready y' ch silence.
Proof.
  intros Hy. unfold mad_synth_init, mad_synth_mute.
  destruct (for_range_inv (fun ch f => cleared (ch * 128) f) 0 2 (fun ch => for_range 0 16 (fun s => for_range 0 8 (fun v f =>
             f ← clear_cell ch s v 1 1 f; f ← clear_cell ch s v 1 0 f; f ← clear_cell ch s v 0 1 f; clear_cell ch s v 0 0 f))) (synth_filter y))
    as (filter&->&Hf&Hc); [lia| | |].
  - split; [done|]. intros. lia.
  - intros ch f Hch Hc. replace ((ch + 1) * 128) with (ch * 128 + 16 * 8) by lia.
    apply (nested_inv (fun k f => cleared (ch * 128 + k) f) 16 8 (fun v s f =>
      f ← clear_cell ch s v 1 1 f; f ← clear_cell ch s v 1 0 f; f ← clear_cell ch s v 0 1 f; clear_cell ch s v 0 0 f)); [lia|lia|by rewrite Z.add_0_r|].
    intros s v f1 Hs Hv H1. destruct (clear_cells f1 ch s v H1 Hch Hs Hv) as (f2&E&H2). exists f2. split; [done|]. by rewrite Z.add_assoc.
  - cbn [mbind option_bind synth_filter synth_pcm]. eexists. split; [done|]. split; [done|]. split; [done|]. intros ch Hch.
    destruct (Hf ch 0 0) as (b&_&Eb&_); [lia..|]. exists b. split; [done|]. split; [|done]. intros eo peo He Hpe.
    destruct (Hf ch eo peo Hch He Hpe) as (b1&bk&E1&E2&G). cbn [synth_filter] in Eb. rewrite Eb in E1. injection E1 as <-. exists bk. split; [done|]. split; [done|].
    intros s v Hs Hv. rewrite past_silence. specialize (Hc ch eo peo s v Hch He Hpe Hs Hv ltac:(lia)). unfold filter_cell in Hc.
    rewrite Eb in Hc. cbn [mbind option_bind] in Hc. rewrite E2 in Hc. exact Hc.
Qed.

(** Banks may be read at any other phase, as a history that is rotated: a channel that a mono
    frame leaves alone still holds one. *)
Lemma holds_any f p history p' : holds f p history -> exists history', holds f p' history'.
Proof.
  intros [Hb Hl]. exists (map (fun n => nth (Z.to_nat ((n + p - p') mod 16)) history []) (seqZ 0 16)). split; [|by rewrite length_map, length_seqZ].
  intros eo peo He Hpeo. destruct (Hb eo peo He Hpeo) as (b&Eb&Gb&Cb). exists b. split; [done|]. split; [done|]. intros s v Hs Hv.
  rewrite Cb by done. unfold past. do 2 f_equal. assert (0 <= age p' peo v < 16) as Ha by (unfold age; zdiv).
  symmetry. erewrite nth_lookup_Some.
  2: { rewrite list_lookup_fmap, lookup_seqZ_lt by lia. cbn [fmap option_fmap option_map]. reflexivity. }
  do 2 f_equal. unfold age. zdiv.
Qed.

Lemma synth_frame_spec W y f hs : 0 <= synth_phase y < 16 -> grid 2 1152 (pcm_samples (synth_pcm y)) -> cube 2 36 32 (sbsample f) ->
  (forall ch, 0 <= ch < MAD_NCHANNELS (header f) -> channel_ready y ch (hs ch)) ->
  let c := if bitset (fr_options f) MAD_OPTION_HALFSAMPLERATE then 2 else 1 in
  let ns := MAD_NSBSAMPLES (header f) in
  exists y', mad_synth_frame W y f = Some y' /\ synth_phase y' = (synth_phase y + ns) mod 16 /\ grid 2 1152 (pcm_samples (synth_pcm y')) /\
    pcm_channels (synth_pcm y') = MAD_NCHANNELS (header f) /\ pcm_length (synth_pcm y') = ns * (32 / c) /\
    pcm_samplerate (synth_pcm y') = samplerate (header f) / c /\
    (forall ch, 0 <= ch < MAD_NCHANNELS (header f) -> exists rows, aget (sbsample f) ch = Some rows /\
       channel_ready y' ch (history_after W (take (Z.to_nat ns) rows) (hs ch)) /\
       forall i, 0 <= i < 1152 -> get2 (pcm_samples (synth_pcm y')) ch i =
         if i <? ns * (32 / c) then Some (pcm_sample W c rows (hs ch) i) else get2 (pcm_samples (synth_pcm y)) ch i) /\
    (forall ch, MAD_NCHANNELS (header f) <= ch -> aget (synth_filter y') ch = aget (synth_filter y) ch /\
       aget (pcm_samples (synth_pcm y')) ch = aget (pcm_samples (synth_pcm y)) ch).
Proof.
  intros Hp Hs Hsb Hready. intros c ns. unfold mad_synth_frame. fold ns.
  pose proof (nchannels (header f)) as Hn. pose proof (rows_number (header f)) as Hr. fold ns in Hr.
  set (row := if bitset _ _ then synth_half W else synth_full W).
  assert (row_kind W c row) as Hk by (unfold row_kind, c, row; destruct (bitset _ _); auto).
  destruct (channels_correct W c row f ns (synth_phase y) (synth_filter y) (pcm_samples (synth_pcm y)) hs Hk Hp ltac:(lia) Hsb Hs (MAD_NCHANNELS (header f)))
    as ([filter samples]&->&H1&H2&H3&H4); [lia|done|]. cbn [mbind option_bind]. eexists. split; [done|].
  cbn [synth_phase synth_pcm synth_filter pcm_samples pcm_channels pcm_length pcm_samplerate].
  assert (u32 (synth_phase y + ns) = synth_phase y + ns) as Eu by (apply wrapu_small; change (2 ^ 32) with 4294967296; lia).
  split; [by rewrite Eu|]. split; [done|]. split; [destruct Hn as [-> | ->]; done|]. split.
  { unfold c. destruct (bitset _ _), Hr as [-> |[-> | ->]]; reflexivity. }
  split; [unfold c; destruct (bitset _ _); [done|by rewrite Z.div_1_r]|]. split; [|done].
  intros ch Hch. destruct (H3 ch Hch) as (rows&b&D1&D2&D3&D4). exists rows. split; [done|]. split; [|done].
  exists b. cbn [synth_phase synth_filter]. by rewrite Eu.
Qed.

(** ** Claims *)

(** C8: the synthesis filter.  [mad_synth_init] clears every cell, which is sixteen rows of
    silence.  From then on, and through any sequence of frames, the banks of a channel hold the
    transforms of its last sixteen rows, wherever the phase stands; [mad_synth_frame]
    accesses no array out of its bounds, and each sample it writes, at the full and at the half sample
    rate, is the sum over these sixteen transforms, each extended from 32 to 64 values by
    the symmetries of the cosine, with the window of the standard.  It writes 32 or 16 samples for each row of the
    frame and nothing else, leaves an absent channel alone, and reports the
    rate, channels and length of what it wrote. *)
Theorem mad_synth_frame_correct W y f hs : 0 <= synth_phase y < 16 -> grid 2 1152 (pcm_samples (synth_pcm y)) -> cube 2 36 32 (sbsample f) ->
  (forall ch, 0 <= ch < MAD_NCHANNELS (header f) -> channel_ready y ch (hs ch)) ->
  (forall y0, filter_shape (synth_filter y0) -> exists y1, mad_synth_init y0 = Some y1 /\ synth_phase y1 = 0 /\
     pcm_samples (synth_pcm y1) = pcm_samples (synth_pcm y0) /\ forall ch, 0 <= ch < 2 -> channel_ready y1 ch silence) /\
  let c := if bitset (fr_options f) MAD_OPTION_HALFSAMPLERATE then 2 else 1 in
  let ns := MAD_NSBSAMPLES (header f) in
  exists y', mad_synth_frame W y f = Some y' /\ synth_phase y' = (synth_phase y + ns) mod 16 /\ grid 2 1152 (pcm_samples (synth_pcm y')) /\
    pcm_channels (synth_pcm y') = MAD_NCHANNELS (header f) /\ pcm_length (synth_pcm y') = ns * (32 / c) /\
    pcm_samplerate (synth_pcm y') = samplerate (header f) / c /\
    (forall ch, 0 <= ch < MAD_NCHANNELS (header f) -> exists rows, aget (sbsample f) ch = Some rows /\
       channel_ready y' ch (history_after W (take (Z.to_nat ns) rows) (hs ch)) /\
       forall i, 0 <= i < 1152 -> get2 (pcm_samples (synth_pcm y')) ch i =
         if i <? ns * (32 / c) then Some (pcm_sample W c rows (hs ch) i) else get2 (pcm_samples (synth_pcm y)) ch i) /\
    (forall ch, MAD_NCHANNELS (header f) <= ch -> aget (synth_filter y') ch = aget (synth_filter y) ch /\
       aget (pcm_samples (synth_pcm y')) ch = aget (pcm_samples (synth_pcm y)) ch).
Proof.
  intros Hp Hs Hsb Hready. split; [intros; by apply init_ready|]. by apply synth_frame_spec.
Qed.

Lemma aget_nthrep {A} (x : A) n i : 0 <= i < Z.of_nat n -> aget (repeat x n) i = Some x.
Proof.
  intros Hi. destruct (aget_Some (repeat x n) i) as [y E]; [rewrite repeat_length; lia|]. rewrite E. f_equal.
  rewrite aget_lookup in E by lia. apply list_elem_of_lookup_2, list_elem_of_In, repeat_spec in E. done.
Qed.

Definition blank_synth : mad_synth :=
  let z := repeat (repeat (repeat (repeat 0 8) 16) 2) 2 in MkSynth [z; z] 0 (MkPcm 0 0 0 (repeat (repeat 7 1152) 2)).

Lemma blank_ready ch : 0 <= ch < 2 -> channel_ready blank_synth ch silence.
Proof.
  intros Hch. assert (ch = 0 \/ ch = 1) as Hcases by lia.
  destruct Hcases as [-> | ->]; (eexists; split; [reflexivity|]; split; [|reflexivity]).
  all: intros eo peo He Hpe; exists (repeat (repeat 0 8) 16); split;
    [assert (eo = 0 \/ eo = 1) as [-> | ->] by lia; assert (peo = 0 \/ peo = 1) as [-> | ->] by lia; reflexivity|].
  all: split; [split; [reflexivity|repeat constructor]|]; intros s v Hs Hv; rewrite past_silence.
  all: unfold get2; rewrite aget_nthrep by lia; cbn [mbind option_bind]; by rewrite aget_nthrep by lia.
Qed.

Definition stereo_frame : mad_frame :=
  MkFrame (MkHeader 3 2 0 0 128000 44100 0 0 0 0 (MadTimer.MkTimer 0 0)) MAD_OPTION_HALFSAMPLERATE (repeat (repeat (repeat 1000000 32) 36) 2) None.

Lemma mad_synth_frame_correct_witness :
  (forall y0, filter_shape (synth_filter y0) -> exists y1, mad_synth_init y0 = Some y1 /\ synth_phase y1 = 0 /\
     pcm_samples (synth_pcm y1) = pcm_samples (synth_pcm y0) /\ forall ch, 0 <= ch < 2 -> channel_ready y1 ch silence) /\
  exists y', mad_synth_frame 64 blank_synth stereo_frame = Some y' /\ synth_phase y' = (0 + 36) mod 16 /\ grid 2 1152 (pcm_samples (synth_pcm y')) /\
    pcm_channels (synth_pcm y') = 2 /\ pcm_length (synth_pcm y') = 36 * (32 / 2) /\ pcm_samplerate (synth_pcm y') = 44100 / 2 /\
    (forall ch, 0 <= ch < 2 -> exists rows, aget (sbsample stereo_frame) ch = Some rows /\
       channel_ready y' ch (history_after 64 (take (Z.to_nat 36) rows) silence) /\
       forall i, 0 <= i < 1152 -> get2 (pcm_samples (synth_pcm y')) ch i =
         if i <? 36 * (32 / 2) then Some (pcm_sample 64 2 rows silence i) else get2 (pcm_samples (synth_pcm blank_synth)) ch i) /\
    (forall ch, 2 <= ch -> aget (synth_filter y') ch = aget (synth_filter blank_synth) ch /\
       aget (pcm_samples (synth_pcm y')) ch = aget (pcm_samples (synth_pcm blank_synth)) ch).
Proof.
  apply (mad_synth_frame_correct 64 blank_synth stereo_frame (fun _ => silence)).
  - split; [apply Z.leb_le|apply Z.ltb_lt]; reflexivity.
  - split; [reflexivity|]. apply (bool_decide_unpack _). vm_compute. exact I.
  - split; [reflexivity|]. repeat constructor.
  - intros ch Hch. by apply blank_ready.
Defined.
