(* ===== verification/MadDecoder.v ===== *)
(** The decoder that [src/libmad/decoder.c] makes of libmad: [audio_dec_decode] over the frame
    loop [run_sync], with the callbacks that [audio_dec_init] installs, and ID3 tags.

    A call gets a buffer of input, decodes at most one frame of it and says how much of
    the input it has used.  [buffer] is offset 0 of the memory [mem], which holds the input and what lies
    behind it; [buffer] of the stream is its start, so the result of a call is
    [this_frame]. *)
From S2P Require Import Prelude BitString MadBit MadTimer MadFrame MadSideInfo MadLayer3 MadLayer12 MadFrameDecode MadDct MadSynth.
From Stdlib Require Import SpecFloat.

(** ** Data *)

Inductive mad_flow : Type := MAD_FLOW_CONTINUE | MAD_FLOW_STOP | MAD_FLOW_BREAK | MAD_FLOW_IGNORE.

Inductive tag_type : Type := TAGTYPE_NONE | TAGTYPE_ID3V1 | TAGTYPE_ID3V2 | TAGTYPE_ID3V2_FOOTER.

Definition MAD_DECODER_MODE_SYNC : Z := 0.
Definition MAD_DECODER_MODE_ASYNC : Z := 1.

(** [decoder->sync]; the stream's fields are [sy_stream], its reservoir [sy_main] and its two
    counters of muted samples. *)
Record decoder_sync := MkSync {
  sy_stream : mad_stream; sy_main : main_buffer; muted_samples : Z; muted_count : Z; sy_frame : mad_frame; sy_synth : mad_synth
}.

(** [pcm_out_data] is an offset into the output buffer, [pcm_out_len] the number it points to. *)
Record mad_decoder := MkDecoder {
  dc_mode : Z; bad_last_frame : Z; decoded_nb_frames : Z; droppped_nb_frames : Z; error_nb_frames : Z;
  bit_rate : Z; last_sr : Z; last_ch_num : Z; dc_options : Z; pcm_out_data : Z; pcm_out_len : Z; dc_sync : decoder_sync
}.

Definition set_mode (d : mad_decoder) (m : Z) : mad_decoder :=
  MkDecoder m (bad_last_frame d) (decoded_nb_frames d) (droppped_nb_frames d) (error_nb_frames d) (bit_rate d) (last_sr d)
    (last_ch_num d) (dc_options d) (pcm_out_data d) (pcm_out_len d) (dc_sync d).
Definition set_decoded (d : mad_decoder) (n rate : Z) : mad_decoder :=
  MkDecoder (dc_mode d) 0 n (droppped_nb_frames d) (error_nb_frames d) rate (last_sr d)
    (last_ch_num d) (dc_options d) (pcm_out_data d) (pcm_out_len d) (dc_sync d).
Definition set_dropped (d : mad_decoder) (n e : Z) : mad_decoder :=
  MkDecoder (dc_mode d) (bad_last_frame d) (decoded_nb_frames d) n e (bit_rate d) (last_sr d)
    (last_ch_num d) (dc_options d) (pcm_out_data d) (pcm_out_len d) (dc_sync d).
Definition set_format (d : mad_decoder) (ch sr : Z) : mad_decoder :=
  MkDecoder (dc_mode d) (bad_last_frame d) (decoded_nb_frames d) (droppped_nb_frames d) (error_nb_frames d) (bit_rate d) sr
    ch (dc_options d) (pcm_out_data d) (pcm_out_len d) (dc_sync d).
Definition set_out (d : mad_decoder) (data len : Z) : mad_decoder :=
  MkDecoder (dc_mode d) (bad_last_frame d) (decoded_nb_frames d) (droppped_nb_frames d) (error_nb_frames d) (bit_rate d) (last_sr d)
    (last_ch_num d) (dc_options d) data len (dc_sync d).
Definition set_dsync (d : mad_decoder) (y : decoder_sync) : mad_decoder :=
  MkDecoder (dc_mode d) (bad_last_frame d) (decoded_nb_frames d) (droppped_nb_frames d) (error_nb_frames d) (bit_rate d) (last_sr d)
    (last_ch_num d) (dc_options d) (pcm_out_data d) (pcm_out_len d) y.

Definition set_stream (y : decoder_sync) (s : mad_stream) : decoder_sync :=
  MkSync s (sy_main y) (muted_samples y) (muted_count y) (sy_frame y) (sy_synth y).
Definition set_muted (y : decoder_sync) (samples count : Z) : decoder_sync :=
  MkSync (sy_stream y) (sy_main y) samples count (sy_frame y) (sy_synth y).
Definition set_synth (y : decoder_sync) (v : mad_synth) : decoder_sync :=
  MkSync (sy_stream y) (sy_main y) (muted_samples y) (muted_count y) (sy_frame y) v.

(** [MUTE_S], and the conversions around the product with it. *)
Definition MUTE_S : spec_float := S754_finite false 5764607523034235 (-56).

Definition double_of (n : Z) : spec_float := binary_normalize 53 1024 n 0 false.

Definition double_to_uint (x : spec_float) : option Z :=
  match x with
  | S754_zero _ => Some 0
  | S754_finite false m e => let v := if 0 <=? e then Zpos m .<< e else Zpos m .>> (- e) in if v <? 2 ^ 32 then Some v else None
  | _ => None
  end.

Definition mute_length (samplerate channels : Z) : option Z :=
  double_to_uint (SFmul 53 1024 (double_of (u32 (samplerate * channels))) MUTE_S).

Definition mad_decoder_init (sync0 : decoder_sync) : mad_decoder := MkDecoder (-1) 0 0 0 0 0 (-1) (-1) 0 0 0 sync0.

(** [rows] and [y0] are what the memory of [sync] holds. *)
Definition audio_dec_init (rows : list (list (list Z))) (y0 : mad_synth) : option (Z * mad_decoder) :=
  f ← mad_frame_init rows;
  y ← mad_synth_init y0;
  Some (0, mad_decoder_init (MkSync mad_stream_init (MkMain None 0 (false, mad_bit_init NULL) 0) 0 0 f y)).

(** [AudioInfo], and [NchOriginal] of the operations. *)
Record audio_info := MkInfo { ai_bitrate : Z; ai_samplerate : Z; ai_channels : Z; ai_error_num : Z; ai_drop_num : Z; ai_decode_num : Z }.

Definition audio_dec_getinfo (d : mad_decoder) (info : audio_info) (NchOriginal : Z) : Z * audio_info * Z :=
  if (last_ch_num d <=? 0) || (last_sr d <=? 0) then
    (0, MkInfo (bit_rate d) (ai_samplerate info) (ai_channels info) (error_nb_frames d) (droppped_nb_frames d) (decoded_nb_frames d), NchOriginal)
  else (0, MkInfo (bit_rate d) (last_sr d) (last_ch_num d) (error_nb_frames d) (droppped_nb_frames d) (decoded_nb_frames d), last_ch_num d).

Definition scale_pcm (sample : Z) : Z :=
  let sample := s32 (sample + (1 .<< (MAD_F_FRACBITS - 16))) in
  let sample := if MAD_F_ONE <=? sample then MAD_F_ONE - 1 else if sample <? - MAD_F_ONE then - MAD_F_ONE else sample in
  sample .>> (MAD_F_FRACBITS + 1 - 16).

Section Decoder.
Variable long_bits : Z.
(** Whether [char] is signed. *)
Variable char_signed : bool.
Variable mem : list Z.
(** The stacks and allocations of the [k]-th call of [mad_frame_decode]. *)
Variable stacks : Z -> layer_stack.

Abbreviation ulong := (wrapu long_bits).

(** ** ID3 tags *)

(** [data[i]] *)
Definition char_at (data i : Z) : option Z := b ← aget mem (data + i); Some (if char_signed then s8 b else b).

Definition id3_parse_uint (ptr bytes : Z) : option (Z * Z) :=
  if (1 <=? bytes) && (bytes <=? 4) then
    for_range 0 bytes (fun _ '(value, ptr) => c ← char_at ptr 0; Some (ulong (value .<< 8) .| ulong c, ptr + 1)) (0, ptr)
  else Some (0, ptr).

Definition id3_parse_syncsafe (ptr bytes : Z) : option (Z * Z) :=
  if (bytes =? 5) || (bytes =? 4) then
    '(value, ptr) ← (if bytes =? 5 then c ← char_at ptr 0; Some (ulong (0 .<< 4) .| (c .& 0x0f), ptr + 1) else Some (0, ptr));
    for_range 0 4 (fun _ '(value, ptr) => c ← char_at ptr 0; Some (ulong (value .<< 7) .| (c .& 0x7f), ptr + 1)) (value, ptr)
  else Some (0, ptr).

(** Version, flags and size; the moved pointer is not used. *)
Definition parse_header (ptr : Z) : option (Z * Z * Z) :=
  '(version, ptr) ← id3_parse_uint (ptr + 3) 2;
  '(flags, ptr) ← id3_parse_uint ptr 1;
  '(size, _) ← id3_parse_syncsafe ptr 4;
  Some (u32 version, s32 flags, s32 size).

(** [a && b] where reading [b] can fail. *)
Definition and_then (a b : option bool) : option bool := x ← a; if x : bool then b else Some false.
Definition or_else (a b : option bool) : option bool := x ← a; if x : bool then Some true else b.

Definition char_is (data i c : Z) : option bool := b ← char_at data i; Some (b =? c).
Definition char_below (data i c : Z) : option bool := b ← char_at data i; Some (b <? c).

(** Three characters in a row. *)
Definition chars_are (data a b c : Z) : option bool := and_then (char_is data 0 a) (and_then (char_is data 1 b) (char_is data 2 c)).

Definition tagtype (data length : Z) : option tag_type :=
  v1 ← and_then (Some (3 <=? length)) (chars_are data 0x54 0x41 0x47);
  if v1 : bool then Some TAGTYPE_ID3V1 else
  v2 ← and_then (Some (10 <=? length)) (and_then (or_else (chars_are data 0x49 0x44 0x33) (chars_are data 0x33 0x44 0x49))
         (and_then (char_below data 3 0xff) (and_then (char_below data 4 0xff)
         (and_then (char_below data 6 0x80) (and_then (char_below data 7 0x80) (and_then (char_below data 8 0x80) (char_below data 9 0x80)))))));
  if v2 : bool then first ← char_is data 0 0x49; Some (if first : bool then TAGTYPE_ID3V2 else TAGTYPE_ID3V2_FOOTER)
  else Some TAGTYPE_NONE.

Definition id3_tag_query (data length : Z) : option Z :=
  kind ← tagtype data length;
  match kind with
  | TAGTYPE_ID3V1 => Some 128
  | TAGTYPE_ID3V2 => '(_, flags, size) ← parse_header data; let size := if negb (flags =? 0) then s32 (size + 10) else size in Some (s32 (10 + size))
  | TAGTYPE_ID3V2_FOOTER => '(_, _, size) ← parse_header data; Some (s32 (- size - 10))
  | TAGTYPE_NONE => Some 0
  end.

(** ** Callbacks *)

Definition error_default (bad : Z) (s : mad_stream) (f : mad_frame) : option (mad_flow * Z * mad_frame) :=
  if error s =? MAD_ERROR_BADCRC then
    if negb (bad =? 0) then f ← mad_frame_mute f; Some (MAD_FLOW_IGNORE, bad, f) else Some (MAD_FLOW_IGNORE, 1, f)
  else Some (MAD_FLOW_CONTINUE, bad, f).

(** [length] is that of the private buffer, which is cleared. *)
Definition input_callback (length : Z) (s : mad_stream) : mad_flow * Z * mad_stream :=
  if length =? 0 then (MAD_FLOW_STOP, length, s) else (MAD_FLOW_CONTINUE, 0, mad_stream_buffer s length).

(** The callback [error]. *)
Definition error_callback (s : mad_stream) : option (mad_flow * mad_stream) :=
  let rest := (if error s =? MAD_ERROR_BADBITALLOC then MAD_FLOW_IGNORE else MAD_FLOW_CONTINUE, s) in
  if error s =? MAD_ERROR_LOSTSYNC then
    tagsize ← id3_tag_query (this_frame s) (s32 (bufend s - this_frame s));
    Some (if 0 <? tagsize then (MAD_FLOW_CONTINUE, set_skiplen s (ulong tagsize)) else rest)
  else Some rest.

(** The two bytes of a sample. *)
Definition put_pcm (sample : Z) (st : Z * list Z) : option (Z * list Z) :=
  let '(data, out) := st in
  out ← aset out data (u8 sample);
  out ← aset out (data + 1) (u8 (sample .>> 8));
  Some (data + 2, out).

Definition output_callback (d : mad_decoder) (h : mad_header) (pcm : mad_pcm) (out : list Z) : option (mad_flow * mad_decoder * list Z) :=
  let nchannels := pcm_channels pcm in
  let nsamples := pcm_length pcm in
  let d := set_format d nchannels (s32 (pcm_samplerate pcm)) in
  let d := set_out d (pcm_out_data d) (s32 (pcm_out_len d + pcm_length pcm * 2 * (if 0 <? mode h then 2 else 1))) in
  mute ← (if muted_samples (dc_sync d) =? 0 then mute_length (pcm_samplerate pcm) (pcm_channels pcm) else Some (muted_samples (dc_sync d)));
  let d := set_dsync d (set_muted (dc_sync d) mute (muted_count (dc_sync d))) in
  '(d, out) ← (if muted_count (dc_sync d) <? mute then
      out ← for_range 0 (2 * nsamples) (fun i out => aset out (pcm_out_data d + i) 0) out;
      Some (set_dsync d (set_muted (dc_sync d) mute (u32 (muted_count (dc_sync d) + nsamples))), out)
    else
      left_ch ← aget (pcm_samples pcm) 0;
      right_ch ← aget (pcm_samples pcm) 1;
      '(data, out) ← for_range 0 nsamples (fun i st =>
        x ← aget left_ch i;
        st ← put_pcm (scale_pcm x) st;
        if nchannels =? 2 then x ← aget right_ch i; put_pcm (scale_pcm x) st else Some st) (pcm_out_data d, out);
      Some (set_out d data (pcm_out_len d), out));
  let s := sy_stream (dc_sync d) in
  Some (MAD_FLOW_STOP, set_dsync d (set_stream (dc_sync d) (set_frames s (next_frame s) (next_frame s))), out).

(** ** The loops *)

(** How a round of [while (1)] ends: the next round, [break], or [goto] to the end. *)
Inductive round_end : Type := Again | Unrecoverable | Leave.

(** [switch (decoder->error_func(...))] behind a frame that could not be decoded. *)
Definition frame_error (d : mad_decoder) (out : list Z) : option (round_end * mad_decoder * list Z) :=
  let y := dc_sync d in
  '(flow, s) ← error_callback (sy_stream y);
  let d := set_dsync d (set_stream y s) in
  match flow with
  | MAD_FLOW_STOP => Some (Leave, d, out)
  | MAD_FLOW_BREAK => Some (Leave, set_dropped d (u32 (droppped_nb_frames d + 1)) (u32 (error_nb_frames d + 1)), out)
  | MAD_FLOW_IGNORE =>
      let s := if this_frame s =? 0 then set_frames s 1 (next_frame s) else s in
      Some (Leave, set_dsync d (set_stream y s), out)
  | MAD_FLOW_CONTINUE =>
      let d := if MAD_ERROR_LOSTSYNC <=? error s
               then set_dropped d (u32 (droppped_nb_frames d + 1)) (u32 (error_nb_frames d + 1)) else d in
      Some (Again, d, out)
  end.

(** One round of [while (1)]; [header_func] and [filter_func] are null. *)
Definition frame_round (k : Z) (d : mad_decoder) (out : list Z) : option (round_end * mad_decoder * list Z) :=
  let y := dc_sync d in
  '(r, f, s, m) ← mad_frame_decode long_bits mem (stacks k) (sy_frame y) (sy_stream y) (sy_main y);
  let y := MkSync s m (muted_samples y) (muted_count y) f (sy_synth y) in
  let d := set_dsync d y in
  if r =? -1 then
    if negb (MAD_RECOVERABLE (error s)) then Some (Unrecoverable, d, out)
    else frame_error d out
  else
    let d := set_decoded d (u32 (decoded_nb_frames d + 1)) (s32 (bitrate (header f))) in
    v ← mad_synth_frame long_bits (sy_synth y) f;
    let d := set_dsync d (set_synth y v) in
    '(flow, d, out) ← output_callback d (header f) (synth_pcm v) out;
    match flow with
    | MAD_FLOW_STOP | MAD_FLOW_BREAK => Some (Leave, d, out)
    | MAD_FLOW_IGNORE | MAD_FLOW_CONTINUE => Some (Again, d, out)
    end.

(** [while (1)]: whether it was left by [break]. *)
Fixpoint frame_rounds (fuel : nat) (k : Z) (d : mad_decoder) (out : list Z) : option (bool * Z * mad_decoder * list Z) :=
  match fuel with
  | O => None
  | S fuel =>
      '(e, d, out) ← frame_round k d out;
      match e with
      | Again => frame_rounds fuel (k + 1) d out
      | Unrecoverable => Some (true, k + 1, d, out)
      | Leave => Some (false, k + 1, d, out)
      end
  end.

(** [do ... while (error == MAD_ERROR_BUFLEN)]; [length] is that of the private buffer.  The
    second [input] stops, so two rounds are enough. *)
Fixpoint input_rounds (rounds : nat) (length k : Z) (d : mad_decoder) (out : list Z) : option (mad_decoder * list Z) :=
  match rounds with
  | O => None
  | S rounds =>
      let '(flow, length, s) := input_callback length (sy_stream (dc_sync d)) in
      let d := set_dsync d (set_stream (dc_sync d) s) in
      '(left, k, d, out) ← match flow with
        | MAD_FLOW_STOP | MAD_FLOW_BREAK => Some (false, k, d, out)
        | MAD_FLOW_IGNORE => Some (true, k, d, out)
        | MAD_FLOW_CONTINUE => frame_rounds (S (S (Z.to_nat (bufend s)))) k d out
        end;
      if (left : bool) && (error (sy_stream (dc_sync d)) =? MAD_ERROR_BUFLEN) then input_rounds rounds length k d out else Some (d, out)
  end.

(** The difference of the null pointers of a fresh stream is 0. *)
Definition run_sync (length : Z) (d : mad_decoder) (out : list Z) : option (Z * mad_decoder * list Z) :=
  '(d, out) ← input_rounds 2 length 0 d out;
  let this := this_frame (sy_stream (dc_sync d)) in
  Some (if this =? NULL then 0 else this, d, out).

Definition mad_decoder_run (length : Z) (d : mad_decoder) (out : list Z) (m : Z) : option (Z * mad_decoder * list Z) :=
  let d := set_mode d m in
  if m =? MAD_DECODER_MODE_SYNC then run_sync length d out else Some (-1, d, out).

(** The result, the decoder with the length of the output, and the output buffer. *)
Definition audio_dec_decode (d : mad_decoder) (outbuf : list Z) (inlen : Z) : option (Z * mad_decoder * list Z) :=
  mad_decoder_run (ulong inlen) (set_out d 0 0) outbuf MAD_DECODER_MODE_SYNC.
End Decoder.
