(* ===== verification/MadDecoderSafe.v ===== *)
(** Safety of the MP3 decoder of MadDecoder: any call on any bytes ends, stays inside its buffers and
    leaves the decoder ready for the next; and what becomes of ID3 tags. *)
From S2P Require Import Prelude BitString MadBit MadTimer MadFrame MadSideInfo MadRequantize MadStereo MadLayer3 MadReservoir MadHybrid MadLayer3Safe.
From S2P Require Import MadLayer12 MadSubbands MadFrameDecode MadFrameSafe MadDct MadSynth MadPolyphase MadDecoder.

(** ** The search for a header moves on *)

Section Progress.
Variables (W : Z) (mem : list Z).

Lemma search_forward (fuel : nat) last : forall p q, sync_search mem fuel last p = Some q -> p <= q.
Proof.
  induction fuel as [|fuel IH]; intros p q H; [done|]. cbn [sync_search] in H. case_match; [|injection H as <-; lia].
  apply bind_Some in H as (found&_&H). destruct found; [injection H as <-; lia|]. apply IH in H. lia.
Qed.

Lemma stream_sync_forward s r s' : mad_stream_sync mem s = Some (r, s') ->
  same_position s s' /\ (r <> -1 -> mad_bit_nextbyte (ptr s) <= mad_bit_nextbyte (ptr s')).
Proof.
  unfold mad_stream_sync. intros H. apply bind_Some in H as (q&E&H). apply search_forward in E.
  case_match; injection H as <- <-; [done|]. by split.
Qed.

Lemma rest_position h s p r h' s' : decode_header_rest W mem h s p = Some (r, h', s') -> same_position s s'.
Proof. unfold decode_header_rest. intros H. invert. Qed.

Lemma decode_position h s r h' s' : decode_header W mem h s = Some (r, h', s') -> same_position s s'.
Proof.
  unfold decode_header. generalize (set_flags h 0 0). clear h. intros h H.
  apply bind_Some in H as (p1&_&H). do 2 (apply bind_Some in H as ([? ?]&_&H)). case_match; [by injection H as _ _ <-|].
  apply bind_Some in H as ([? ?]&_&H). case_match; [by injection H as _ _ <-|].
  apply bind_Some in H as ([? ?]&_&H). apply bind_Some in H as (?&_&H). apply bind_Some in H as ([? ?]&_&H). case_match; [by injection H as _ _ <-|].
  do 2 (apply bind_Some in H as (?&_&H)). apply bind_Some in H as ([? ?]&_&H). case_match; [by injection H as _ _ <-|].
  apply bind_Some in H as (?&_&H). by apply rest_position in H.
Qed.

Lemma free_position h s r h' s' : free_format W mem h s = Some (r, h', s') ->
  this_frame s' = this_frame s /\ next_frame s' = next_frame s /\ skiplen s' = skiplen s.
Proof.
  unfold free_format, free_bitrate. intros H. case_match; [|by injection H as _ _ <-]. apply bind_Some in H as ([r1 s1]&E&H).
  assert (this_frame s1 = this_frame s /\ next_frame s1 = next_frame s /\ skiplen s1 = skiplen s) as Hs.
  { match type of E with (if ?b then _ else _) = _ => destruct b end; [|by injection E as _ <-]. apply bind_Some in E as (rate&_&E). match type of E with (if ?b then _ else _) = _ => destruct b end; by injection E as _ <-. }
  destruct (r1 =? -1); by injection H as _ _ <-.
Qed.

(** An error that ends the search at [p] or later, just before the next start, or one that asks for more input. *)
Definition error_at (p : Z) (s : mad_stream) : Prop :=
  MAD_RECOVERABLE (error s) = false \/ p <= this_frame s /\ next_frame s = this_frame s + 1.

Lemma synchronize_forward s p start s' : synchronize mem s p = Some (start, s') -> skiplen s' = skiplen s /\
  match start with Some q => p <= q | None => error_at p s' end.
Proof.
  unfold synchronize. intros H. case_match.
  - case_match; [injection H as <- <-; split; [done|by left]|]. apply bind_Some in H as (found&_&H).
    destruct found; injection H as <- <-; split; [done|lia|done|right; cbn; lia].
  - apply bind_Some in H as ([r s1]&E&H). apply stream_sync_forward in E as [E1 E2].
    destruct E1 as (_&Esk&_). destruct (Z.eqb_spec r (-1)) as [->|Hr]; injection H as <- <-; (split; [exact Esk|]); [by left|]. by apply E2.
Qed.

Lemma header_from_forward (fuel : nat) : forall h s p r h' s', header_from W mem fuel h s p = Some (r, h', s') ->
  skiplen s' = skiplen s /\ (r = -1 -> error_at p s') /\ (r = 0 -> p <= this_frame s').
Proof.
  induction fuel as [|fuel IH]; intros h s p r h' s' H; [done|]. cbn [header_from] in H.
  apply bind_Some in H as ([start s1]&E1&H). apply synchronize_forward in E1 as [Hsk1 Hstart].
  destruct start as [q|]; [|by injection H as <- _ <-].
  apply bind_Some in H as ([[r1 h1] s2]&E1&H). apply decode_position in E1 as (_&Hsk2&_&_&Ht2&Hn2&_). cbn in Hsk2, Ht2, Hn2.
  case_match; [injection H as <- _ <-; split; [cbn; congruence|split; [intros _; right; cbn; lia|done]]|].
  apply bind_Some in H as (d&_&H). apply bind_Some in H as ([[r2 h2] s3]&E2&H). apply free_position in E2 as (Ht3&Hn3&Hsk3).
  case_match; [injection H as <- _ <-; split; [cbn; congruence|split; [intros _; right; cbn; lia|done]]|].
  case_match; [unfold fail in H; injection H as <- _ <-; split; [cbn; congruence|by split; [left|]]|].
  apply bind_Some in H as (found&_&H). destruct found; [injection H as <- _ <-; split; [cbn; congruence|split; [done|cbn; lia]]|].
  apply IH in H as (Hsk&He&Hz). cbn in Hsk. split; [congruence|]. split; [|intros Hr; specialize (Hz Hr); lia].
  intros Hr. destruct (He Hr) as [|]; [by left|right; lia].
Qed.

(** Where [mad_header_decode] starts. *)
Definition search_start (s : mad_stream) : Z :=
  if skiplen s =? 0 then next_frame s else (if sync s =? 0 then this_frame s else next_frame s) + skiplen s.

Lemma header_forward h s r h' s' : mad_header_decode W mem h s = Some (r, h', s') ->
  (r = -1 -> MAD_RECOVERABLE (error s') = false \/ error_at (search_start s) s' /\ skiplen s' = 0) /\
  (r = 0 -> search_start s <= this_frame s' /\ skiplen s' = 0).
Proof.
  unfold mad_header_decode, search_start, fail. intros H. case_match; [injection H as <- _ <-; by split; [left|]|].
  destruct (Z.eqb_spec (skiplen s) 0) as [E|E]; cbn [negb] in H.
  - apply header_from_forward in H as (Hsk&He&Hz). rewrite E in Hsk. split; [right; auto|auto].
  - case_match; [injection H as <- _ <-; by split; [left|]|].
    apply header_from_forward in H as (Hsk&He&Hz). split; [right; auto|auto].
Qed.
End Progress.

(** ** ID3 tags *)

Section Tags.
Variables (W : Z) (char_signed : bool) (mem : list Z).
Hypothesis HW : 32 <= W.

Abbreviation char_at := (char_at char_signed mem).

Lemma char_some data i : 0 <= data + i < zlen mem -> exists c, char_at data i = Some c.
Proof using. intros H. unfold MadDecoder.char_at. destruct (aget_Some mem (data + i) H) as [b ->]. by eexists. Qed.

Lemma char_is_some data i c : 0 <= data + i < zlen mem -> exists b, char_is char_signed mem data i c = Some b.
Proof using. intros H. unfold char_is. destruct (char_some data i H) as [x ->]. by eexists. Qed.

Lemma char_below_some data i c : 0 <= data + i < zlen mem -> exists b, char_below char_signed mem data i c = Some b.
Proof using. intros H. unfold char_below. destruct (char_some data i H) as [x ->]. by eexists. Qed.

Lemma and_then_some a b : (exists x, a = Some x) -> (a = Some true -> exists x, b = Some x) -> exists x, and_then a b = Some x.
Proof. intros [x ->] H. unfold and_then. cbn [mbind option_bind]. destruct x; [by apply H|by eexists]. Qed.

Lemma or_else_some a b : (exists x, a = Some x) -> (exists x, b = Some x) -> exists x, or_else a b = Some x.
Proof. intros [x ->] H. unfold or_else. cbn [mbind option_bind]. destruct x; [by eexists|exact H]. Qed.

Lemma chars_some data a b c : 0 <= data -> data + 3 <= zlen mem -> exists x, chars_are char_signed mem data a b c = Some x.
Proof using. intros H0 H1. unfold chars_are. repeat (apply and_then_some; [|intros _]); apply char_is_some; lia. Qed.

(** [a && b && ...] from its first to its last condition. *)
Lemma tagtype_some data length : 0 <= data -> data + length <= zlen mem ->
  exists t, tagtype char_signed mem data length = Some t /\ (t = TAGTYPE_ID3V2 \/ t = TAGTYPE_ID3V2_FOOTER -> 10 <= length).
Proof using.
  intros H0 Hl. unfold tagtype.
  destruct (and_then_some (Some (3 <=? length)) (chars_are char_signed mem data 84 65 71)) as [v1 ->]; [by eexists| |].
  { intros [= H]. apply chars_some; lia. }
  cbn [mbind option_bind]. destruct v1; [eexists; split; [done|by intros [|]]|].
  match goal with |- context [and_then (Some (10 <=? length)) ?b] => set (rest := b) end.
  assert (10 <= length -> exists x, rest = Some x) as Hrest.
  { intros H10. unfold rest. apply and_then_some; [apply or_else_some; apply chars_some; lia|intros _].
    repeat (apply and_then_some; [|intros _]); apply char_below_some; lia. }
  unfold and_then at 1. cbn [mbind option_bind]. destruct (Z.leb_spec 10 length) as [H10|H10].
  - destruct (Hrest H10) as [v2 ->]. cbn [mbind option_bind]. destruct v2; [|by eexists].
    destruct (char_is_some data 0 73) as [b ->]; [lia|]. cbn [mbind option_bind]. by eexists.
  - cbn [mbind option_bind]. eexists. split; [done|]. by intros [|].
Qed.

Lemma parse_uint_some ptr bytes : 0 <= ptr -> 1 <= bytes <= 4 -> ptr + bytes <= zlen mem ->
  exists v, id3_parse_uint W char_signed mem ptr bytes = Some (v, ptr + bytes).
Proof using.
  intros Hp Hb Hl. unfold id3_parse_uint. rewrite !(proj2 (Z.leb_le _ _)) by lia. cbn [andb].
  destruct (for_range_inv (fun i '(v, q) => q = ptr + i) 0 bytes (fun _ '(value, ptr) =>
    c ← char_at ptr 0; Some (wrapu W (value .<< 8) .| wrapu W c, ptr + 1)) (0, ptr)) as ([v q]&->&->); [lia|lia| |by eexists].
  intros i [v q] Hi ->. destruct (char_some (ptr + i) 0) as [c ->]; [lia|]. cbn [mbind option_bind]. eexists. split; [done|]. cbv beta iota. lia.
Qed.

Lemma syncsafe_some ptr : 0 <= ptr -> ptr + 4 <= zlen mem -> exists v, id3_parse_syncsafe W char_signed mem ptr 4 = Some (v, ptr + 4).
Proof using.
  intros Hp Hl. unfold id3_parse_syncsafe. cbn [Z.eqb Pos.eqb orb mbind option_bind].
  destruct (for_range_inv (fun i '(v, q) => q = ptr + i) 0 4 (fun _ '(value, ptr) =>
    c ← char_at ptr 0; Some (wrapu W (value .<< 7) .| (c .& 0x7f), ptr + 1)) (0, ptr)) as ([v q]&->&->); [lia|lia| |by eexists].
  intros i [v q] Hi ->. destruct (char_some (ptr + i) 0) as [c ->]; [lia|]. cbn [mbind option_bind]. eexists. split; [done|]. cbv beta iota. lia.
Qed.

Lemma parse_header_some ptr : 0 <= ptr -> ptr + 10 <= zlen mem -> exists out, parse_header W char_signed mem ptr = Some out.
Proof using.
  intros Hp Hl. unfold parse_header. destruct (parse_uint_some (ptr + 3) 2) as [v ->]; [lia..|]. cbn [mbind option_bind].
  destruct (parse_uint_some (ptr + 3 + 2) 1) as [v2 ->]; [lia..|]. cbn [mbind option_bind].
  destruct (syncsafe_some (ptr + 3 + 2 + 1)) as [v3 ->]; [lia..|]. by eexists.
Qed.

Lemma tag_query_some data length : 0 <= data -> data + length <= zlen mem ->
  exists n, id3_tag_query W char_signed mem data length = Some n /\ - 2 ^ 31 <= n < 2 ^ 31.
Proof using.
  intros H0 Hl. unfold id3_tag_query. destruct (tagtype_some data length H0 Hl) as (t&->&Ht). cbn [mbind option_bind].
  assert (forall x, - 2 ^ 31 <= s32 x < 2 ^ 31) as Hr by (intros x; by apply (wraps_range 32)).
  destruct t; [by eexists..| |].
  all: destruct (parse_header_some data) as [[[v f] n] ->]; [lia|specialize (Ht ltac:(auto)); lia|]; cbn [mbind option_bind]; eexists; (split; [done|apply Hr]).
Qed.

(** What the callback does: nothing, or it plans to skip a tag. *)
Lemma error_callback_some s : 0 <= this_frame s <= bufend s -> bufend s <= zlen mem -> bufend s < 2 ^ 31 ->
  exists flow s', error_callback W char_signed mem s = Some (flow, s') /\ (flow = MAD_FLOW_CONTINUE \/ flow = MAD_FLOW_IGNORE) /\
    (s' = s \/ exists n, 0 < n < 2 ^ 31 /\ s' = set_skiplen s n).
Proof using HW.
  intros Ht Hb Hmax. unfold error_callback.
  assert (exists flow, (if error s =? MAD_ERROR_BADBITALLOC then MAD_FLOW_IGNORE else MAD_FLOW_CONTINUE) = flow /\
    (flow = MAD_FLOW_CONTINUE \/ flow = MAD_FLOW_IGNORE)) as (flow&->&Hflow) by (eexists; split; [done|]; case_match; auto).
  destruct (error s =? MAD_ERROR_LOSTSYNC); [|eexists _, _; split; [done|]; auto].
  rewrite s32_small by lia.
  destruct (tag_query_some (this_frame s) (bufend s - this_frame s)) as (n&->&Hn); [lia..|]. cbn [mbind option_bind].
  destruct (Z.ltb_spec 0 n); eexists _, _; (split; [done|]); [|by auto]. split; [by left|]. right. exists n. split; [lia|].
  rewrite wrapu_small; [done|]. assert (2 ^ 31 <= 2 ^ W) by (apply Z.pow_le_mono_r; lia). lia.
Qed.
End Tags.

(** ** Rates and muting *)

Lemma coded_rate h : header_coded h -> sr_ok (samplerate h).
Proof.
  intros [(index&v&E&Himp&Esr) _ _ _]. rewrite Esr. pose proof (aget_inv _ _ _ E) as Hi. change (zlen samplerate_table) with 3 in Hi.
  destruct (samplerate_lookup index (bitset (flags h) MAD_FLAG_LSF_EXT) (bitset (flags h) MAD_FLAG_MPEG_2_5_EXT) Hi) as (v'&E'&H).
  rewrite E in E'. injection E' as <-. exact H.
Qed.

(** The time of silence at the start, 0.08 s for each channel, without a rounding error in the code's binary fraction. *)
Lemma mute_length_spec v c nch : sr_ok v -> c = 1 \/ c = 2 -> nch = 1 \/ nch = 2 -> mute_length (v / c) nch = Some (v / c * nch * 2 / 25).
Proof.
  intros Hv Hc Hn.
  assert (forallb (fun v => forallb (fun c => forallb (fun nch => bool_decide (mute_length (v / c) nch = Some (v / c * nch * 2 / 25))) [1; 2]) [1; 2]) sample_rates = true)
    as H by (vm_compute; reflexivity).
  rewrite forallb_forall in H. specialize (H v ltac:(by apply list_elem_of_In)). rewrite forallb_forall in H.
  specialize (H c ltac:(destruct Hc as [-> | ->]; cbn; auto)). rewrite forallb_forall in H.
  specialize (H nch ltac:(destruct Hn as [-> | ->]; cbn; auto)). by apply bool_decide_eq_true in H.
Qed.

(** ** Synthesis *)

(** The filters hold the past of both channels. *)
Record synth_ready (y : mad_synth) : Prop := SynthReady {
  sr_phase : 0 <= synth_phase y < 16;
  sr_samples : grid 2 1152 (pcm_samples (synth_pcm y));
  sr_channels : forall ch, 0 <= ch < 2 -> exists history, channel_ready y ch history
}.

(** The PCM of a frame. *)
Definition half_rate (f : mad_frame) : Z := if bitset (fr_options f) MAD_OPTION_HALFSAMPLERATE then 2 else 1.

Record pcm_of (f : mad_frame) (pcm : mad_pcm) : Prop := PcmOf {
  po_channels : pcm_channels pcm = MAD_NCHANNELS (header f);
  po_length : pcm_length pcm = MAD_NSBSAMPLES (header f) * (32 / half_rate f);
  po_rate : pcm_samplerate pcm = samplerate (header f) / half_rate f
}.

Lemma synth_total W y f : synth_ready y -> cube 2 36 32 (sbsample f) ->
  exists y', mad_synth_frame W y f = Some y' /\ synth_ready y' /\ pcm_of f (synth_pcm y').
Proof.
  intros [Hp Hs Hch] Hsb. pose proof (nchannels (header f)) as Hn.
  destruct (Hch 0 ltac:(lia)) as [h0 H0]. destruct (Hch 1 ltac:(lia)) as [h1 H1].
  destruct (synth_frame_spec W y f (fun ch => if ch =? 0 then h0 else h1) Hp Hs Hsb) as (y'&->&Ep&Hs'&En&El&Er&Hdone&Hrest).
  { intros ch Hc. assert (ch = 0 \/ ch = 1) as [-> | ->] by lia; done. }
  exists y'. split; [done|]. split; [|by split]. split; [rewrite Ep; zdiv|done|]. intros ch Hc.
  destruct (Z.lt_ge_cases ch (MAD_NCHANNELS (header f))) as [Hlt|Hge].
  { destruct (Hdone ch ltac:(lia)) as (rows&_&Hr&_). by eexists. }
  destruct (Hch ch Hc) as (h&b&Eb&Hb). destruct (holds_any b _ h (synth_phase y') Hb) as [h' Hh']. exists h', b.
  split; [|done]. by rewrite (proj1 (Hrest ch Hge)).
Qed.

(** ** Output *)

(** Byte [j] of a frame of 16-bit little-endian samples, the channels interleaved. *)
Definition pcm_byte (pcm : mad_pcm) (j : Z) : Z :=
  let x := scale_pcm (default 0 (get2 (pcm_samples pcm) (j mod (2 * pcm_channels pcm) / 2) (j / (2 * pcm_channels pcm)))) in
  if j mod 2 =? 0 then u8 x else u8 (x .>> 8).

(** [n] bytes are written. *)
Definition filled (byte : Z -> Z) (out0 : list Z) (n : Z) (out : list Z) : Prop :=
  length out = length out0 /\ forall j, 0 <= j -> aget out j = if j <? n then Some (byte j) else aget out0 j.

Lemma filled_0 byte out : filled byte out 0 out.
Proof. split; [done|]. intros j Hj. by rewrite (proj2 (Z.ltb_ge j 0)) by lia. Qed.

Lemma filled_next byte out0 n out : filled byte out0 n out -> 0 <= n < zlen out0 ->
  exists out', aset out n (byte n) = Some out' /\ filled byte out0 (n + 1) out'.
Proof.
  intros [Hl Hget] Hn. rewrite aset_Some by lia. eexists. split; [done|]. split; [by rewrite length_insert|].
  intros j Hj. destruct (Z.eq_dec j n) as [->|Hne].
  - rewrite aget_insert_eq by lia. by rewrite (proj2 (Z.ltb_lt n (n + 1))) by lia.
  - rewrite aget_insert_ne, Hget by lia. by destruct (Z.ltb_spec j n), (Z.ltb_spec j (n + 1)); try lia.
Qed.

(** A sample. *)
Lemma put_pcm_spec pcm out0 n out x : filled (pcm_byte pcm) out0 n out -> 0 <= n -> n + 2 <= zlen out0 -> n mod 2 = 0 ->
  pcm_channels pcm = 1 \/ pcm_channels pcm = 2 -> get2 (pcm_samples pcm) (n mod (2 * pcm_channels pcm) / 2) (n / (2 * pcm_channels pcm)) = Some x ->
  exists out', put_pcm (scale_pcm x) (n, out) = Some (n + 2, out') /\ filled (pcm_byte pcm) out0 (n + 2) out'.
Proof.
  intros Hf Hn Hroom Heven Hc E.
  assert (pcm_byte pcm n = u8 (scale_pcm x)) as E0 by (unfold pcm_byte; by rewrite E, Heven).
  assert (pcm_byte pcm (n + 1) = u8 (scale_pcm x .>> 8)) as E1.
  { unfold pcm_byte. assert ((n + 1) mod (2 * pcm_channels pcm) / 2 = n mod (2 * pcm_channels pcm) / 2) as ->.
    { clear - Heven Hc Hn. destruct Hc as [-> | ->]; zdiv. }
    assert ((n + 1) / (2 * pcm_channels pcm) = n / (2 * pcm_channels pcm)) as -> by (clear - Heven Hc Hn; destruct Hc as [-> | ->]; zdiv).
    rewrite E. assert ((n + 1) mod 2 = 1) as -> by zdiv. done. }
  unfold put_pcm. rewrite <- E0, <- E1. destruct (filled_next _ _ n out Hf) as (o1&->&F1); [lia|]. cbn [mbind option_bind].
  destruct (filled_next _ _ (n + 1) o1 F1) as (o2&->&F2); [lia|]. cbn [mbind option_bind]. exists o2. split; [done|]. by rewrite <- Z.add_assoc in F2.
Qed.

Section Output.
Variables (pcm : mad_pcm) (out0 : list Z).
Hypotheses (Hc : pcm_channels pcm = 1 \/ pcm_channels pcm = 2) (Hn : 0 <= pcm_length pcm <= 1152) (Hs : grid 2 1152 (pcm_samples pcm)).
Hypothesis Hroom : 2 * pcm_channels pcm * pcm_length pcm <= zlen out0.

Lemma sample_at ch i : 0 <= ch < 2 -> 0 <= i < 1152 -> exists row x, aget (pcm_samples pcm) ch = Some row /\ aget row i = Some x /\ get2 (pcm_samples pcm) ch i = Some x.
Proof using Hs.
  clear Hroom Hn Hc out0. intros Hch Hi. destruct (aget_Some (pcm_samples pcm) ch) as [row E]; [rewrite (proj1 Hs); lia|].
  pose proof (aget_Forall _ _ _ _ (proj2 Hs) E) as Hl. cbv beta in Hl. destruct (aget_Some row i) as [x E2]; [lia|].
  exists row, x. split; [done|]. split; [done|]. unfold get2. by rewrite E.
Qed.

Lemma pcm_loop left right : aget (pcm_samples pcm) 0 = Some left -> aget (pcm_samples pcm) 1 = Some right ->
  exists out, for_range 0 (pcm_length pcm) (fun i st =>
    x ← aget left i; st ← put_pcm (scale_pcm x) st;
    if pcm_channels pcm =? 2 then x ← aget right i; put_pcm (scale_pcm x) st else Some st) (0, out0) = Some (2 * pcm_channels pcm * pcm_length pcm, out) /\
  filled (pcm_byte pcm) out0 (2 * pcm_channels pcm * pcm_length pcm) out.
Proof using Hc Hn Hs Hroom.
  intros El Er. set (nch := pcm_channels pcm) in *.
  destruct (for_range_inv (fun i '(data, out) => data = 2 * nch * i /\ filled (pcm_byte pcm) out0 (2 * nch * i) out) 0 (pcm_length pcm) (fun i st =>
    x ← aget left i; st ← put_pcm (scale_pcm x) st;
    if nch =? 2 then x ← aget right i; put_pcm (scale_pcm x) st else Some st) (0, out0)) as ([data out]&->&->&Hf); [lia| | |by exists out].
  { split; [lia|]. rewrite Z.mul_0_r. apply filled_0. }
  intros i [data out] Hi (->&Hf).
  destruct (sample_at 0 i) as (l0&x&E0&Ex&Gx); [lia..|]. rewrite El in E0. injection E0 as <-. rewrite Ex. cbn [mbind option_bind].
  destruct (put_pcm_spec pcm out0 (2 * nch * i) out x Hf) as (out1&->&F1); fold nch; [nia|nia|clear - Hc; destruct Hc as [-> | ->]; zdiv|done| |].
  { assert (2 * nch * i mod (2 * nch) / 2 = 0 /\ 2 * nch * i / (2 * nch) = i) as [-> ->] by (clear - Hc; destruct Hc as [-> | ->]; zdiv). done. }
  cbn [mbind option_bind]. destruct Hc as [E1|E2].
  - rewrite E1 in *. cbn [Z.eqb Pos.eqb]. eexists. split; [done|]. replace (2 * 1 * (i + 1)) with (2 * 1 * i + 2) by lia. by split.
  - rewrite E2 in *. cbn [Z.eqb Pos.eqb]. destruct (sample_at 1 i) as (r0&y&E3&Ey&Gy); [lia..|]. rewrite Er in E3. injection E3 as <-. rewrite Ey. cbn [mbind option_bind].
    destruct (put_pcm_spec pcm out0 (2 * 2 * i + 2) out1 y F1) as (out2&->&F2); fold nch; rewrite ?E2; [lia|lia|zdiv|by right| |].
    { assert ((2 * 2 * i + 2) mod (2 * 2) / 2 = 1 /\ (2 * 2 * i + 2) / (2 * 2) = i) as [-> ->] by zdiv. done. }
    eexists. split; [done|]. replace (2 * 2 * (i + 1)) with (2 * 2 * i + 2 + 2) by lia. by split.
Qed.

Lemma mute_loop : exists out, for_range 0 (2 * pcm_length pcm) (fun i out => aset out (0 + i) 0) out0 = Some out /\ filled (fun _ => 0) out0 (2 * pcm_length pcm) out.
Proof using Hc Hn Hroom.
  apply (for_range_inv (fun i out => filled (fun _ => 0) out0 i out)); [lia|apply filled_0|]. intros i out Hi Hf.
  rewrite Z.add_0_l. destruct (filled_next _ _ i out Hf) as (out'&->&F); [nia|]. by eexists.
Qed.
End Output.

(** The length of the silence at the start, once it is known. *)
Definition silence_of (y : decoder_sync) (pcm : mad_pcm) : Z :=
  if muted_samples y =? 0 then pcm_samplerate pcm * pcm_channels pcm * 2 / 25 else muted_samples y.

(** What a decoded frame makes of the output buffer. *)
Definition frame_output (y : decoder_sync) (pcm : mad_pcm) (out0 out : list Z) : Prop :=
  if muted_count y <? silence_of y pcm then filled (fun _ => 0) out0 (2 * pcm_length pcm) out
  else filled (pcm_byte pcm) out0 (2 * pcm_channels pcm * pcm_length pcm) out.

Lemma pcm_ranges f pcm : pcm_of f pcm -> (pcm_channels pcm = 1 \/ pcm_channels pcm = 2) /\ 0 < pcm_length pcm <= 1152.
Proof.
  intros [E1 E2 _]. split; [rewrite E1; apply nchannels|]. rewrite E2. unfold half_rate.
  destruct (rows_number (header f)) as [-> |[-> | ->]]; by destruct (bitset _ _).
Qed.

Lemma output_spec d f pcm out : pcm_of f pcm -> sr_ok (samplerate (header f)) -> 0 <= mode (header f) -> grid 2 1152 (pcm_samples pcm) ->
  pcm_out_data d = 0 -> pcm_out_len d = 0 -> 4608 <= zlen out ->
  exists d' out', output_callback d (header f) pcm out = Some (MAD_FLOW_STOP, d', out') /\ frame_output (dc_sync d) pcm out out' /\
    pcm_out_len d' = 2 * pcm_channels pcm * pcm_length pcm /\ decoded_nb_frames d' = decoded_nb_frames d /\
    let s := sy_stream (dc_sync d) in sy_stream (dc_sync d') = set_frames s (next_frame s) (next_frame s) /\ sy_main (dc_sync d') = sy_main (dc_sync d) /\
    sy_frame (dc_sync d') = sy_frame (dc_sync d) /\ sy_synth (dc_sync d') = sy_synth (dc_sync d).
Proof.
  intros Hpcm Hsr Hmode Hs Hdata Hlen Hroom. destruct (pcm_ranges f pcm Hpcm) as [Hc Hn]. destruct Hpcm as [Ec _ Er].
  assert (half_rate f = 1 \/ half_rate f = 2) as Hh by (unfold half_rate; case_match; auto).
  unfold output_callback, frame_output. set (y := dc_sync d). cbn [dc_sync pcm_out_data pcm_out_len set_out set_format]. fold y.
  assert ((if muted_samples y =? 0 then mute_length (pcm_samplerate pcm) (pcm_channels pcm) else Some (muted_samples y)) = Some (silence_of y pcm)) as ->.
  { unfold silence_of. rewrite Er. case_match; [|done]. by apply mute_length_spec. }
  cbn [mbind option_bind]. set (M := silence_of y pcm). rewrite Hdata, Hlen.
  assert (s32 (0 + pcm_length pcm * 2 * (if 0 <? mode (header f) then 2 else 1)) = 2 * pcm_channels pcm * pcm_length pcm) as ->.
  { rewrite s32_small by (case_match; lia). rewrite Ec. unfold MAD_NCHANNELS. destruct (Z.ltb_spec 0 (mode (header f))), (Z.eqb_spec (mode (header f)) 0); lia. }
  cbn [muted_count muted_samples dc_sync set_dsync set_muted set_out pcm_out_data pcm_out_len]. destruct (muted_count y <? M).
  - destruct (mute_loop pcm out Hc ltac:(lia) ltac:(destruct Hc as [-> | ->]; lia)) as (out'&->&Hf). cbn [mbind option_bind]. eexists _, _. split; [done|]. by split.
  - destruct (sample_at pcm Hs 0 0) as (left&x0&El&_&_); [lia..|]. destruct (sample_at pcm Hs 1 0) as (right&x1&Er1&_&_); [lia..|].
    rewrite El, Er1. cbn [mbind option_bind].
    destruct (pcm_loop pcm out Hc ltac:(lia) Hs ltac:(destruct Hc as [-> | ->]; lia) left right El Er1) as (out'&->&Hf). cbn [mbind option_bind].
    eexists _, _. split; [done|]. by split.
Qed.

(** ** Rounds *)

(** The decoder between two calls. *)
Record dec_ready (W : Z) (d : mad_decoder) : Prop := DecReady {
  dr_stream : limits_ok W (sy_stream (dc_sync d));
  dr_main : main_ok (sy_main (dc_sync d));
  dr_frame : frame_ready (sy_frame (dc_sync d));
  dr_unmarked : unmarked (header (sy_frame (dc_sync d)));
  dr_synth : synth_ready (sy_synth (dc_sync d))
}.

(** What no frame has changed. *)
Definition no_frame (d d' : mad_decoder) : Prop :=
  pcm_out_len d' = pcm_out_len d /\ decoded_nb_frames d' = decoded_nb_frames d /\ sy_synth (dc_sync d') = sy_synth (dc_sync d) /\
  muted_samples (dc_sync d') = muted_samples (dc_sync d) /\ muted_count (dc_sync d') = muted_count (dc_sync d).

Section Rounds.
Variables (W : Z) (char_signed : bool) (buf tail : list Z) (stacks : Z -> layer_stack).
Hypotheses (HW : 32 <= W) (Hmem : bytes_ok (buf ++ tail)) (Hbuf : 0 < zlen buf <= max_buffer W) (Htail : 4608 <= zlen tail)
  (Hmax : 8 * zlen (buf ++ tail) < 2 ^ 32) (Hls : forall k, stack_ready (stacks k)).

Lemma located_failed h s f' s' : frame_located W buf h s (-1) f' s' -> MAD_RECOVERABLE (error s') = true ->
  search_start s <= this_frame s' < next_frame s' /\ skiplen s' = 0.
Proof.
  intros [h1 _ E|h1 s1 E [_ _ _ [Hn Hl] _ _ _ _ _] _ [Hsame|[_ Hr]]] Hrec; [| |congruence].
  - apply header_forward in E as [E _]. specialize (E eq_refl). unfold error_at in E. destruct E as [?|[[?|?] ?]]; [congruence..|]. split; [lia|done].
  - apply header_forward in E as [_ E]. specialize (E eq_refl) as [E1 E2]. destruct Hsame as (_&->&_&_&->&->&_). split; [lia|done].
Qed.

Lemma located_found h s f' s' : frame_located W buf h s 0 f' s' -> stream_ok W buf s' ->
  sync_word buf (next_frame s') = Some true /\ this_frame s' + 8 <= next_frame s' /\ next_frame s' + 8 <= zlen buf /\
  sr_ok (samplerate (header f')) /\ 0 <= mode (header f').
Proof.
  intros [h1 E _|h1 s1 _ [_ _ Hw [Hn Hl] Hg _ _ Hcoded _] [-> ->] [Hsame|[E _]]] [He _]; try done.
  destruct Hsame as (E1&_&_&_&->&->&_). rewrite E1 in He. unfold MAD_BUFFER_GUARD in Hg. split; [done|]. split; [lia|]. split; [lia|].
  split; [by apply coded_rate|apply (hc_mode _ Hcoded)].
Qed.

(** The decoder inside of a call. *)
Record round_ok (d : mad_decoder) : Prop := RoundOk {
  ro_decoder : decoder_ok W buf (sy_frame (dc_sync d)) (sy_stream (dc_sync d)) (sy_main (dc_sync d));
  ro_unmarked : unmarked (header (sy_frame (dc_sync d)));
  ro_synth : synth_ready (sy_synth (dc_sync d))
}.

Lemma round_ready d : round_ok d -> dec_ready W d.
Proof. intros [[(_&_&_&Hl) Hm Hf _] Hu Hy]. by split. Qed.

Lemma round_position d s : round_ok d -> bufend s = bufend (sy_stream (dc_sync d)) -> freerate s = freerate (sy_stream (dc_sync d)) ->
  0 <= this_frame s <= zlen buf -> 0 <= next_frame s <= zlen buf -> 0 <= skiplen s < 2 ^ 31 ->
  round_ok (set_dsync d (set_stream (dc_sync d) s)).
Proof.
  intros [[(He&_&_&Hl) Hm Hf _] Hu Hy] Eb Ef Ht Hn Hk. split; [|done|done]. split; [|done|done|intros H; cbn in H; unfold unmarked in Hu; congruence].
  cbn. split; [congruence|]. split; [done|]. split; [done|]. split; [rewrite Ef; apply Hl|done].
Qed.

(** A frame has come out. *)
Record frame_done (d d' : mad_decoder) (out out' : list Z) : Prop := FrameDone {
  fd_count : decoded_nb_frames d' = u32 (decoded_nb_frames d + 1);
  fd_decoded : exists k f s m s' m', mad_frame_decode W (buf ++ tail) (stacks k) f s m = Some (0, sy_frame (dc_sync d'), s', m') /\
    next_frame s' = this_frame (sy_stream (dc_sync d'));
  fd_synth : mad_synth_frame W (sy_synth (dc_sync d)) (sy_frame (dc_sync d')) = Some (sy_synth (dc_sync d'));
  fd_output : frame_output (dc_sync d) (synth_pcm (sy_synth (dc_sync d'))) out out';
  fd_length : pcm_out_len d' = 2 * pcm_channels (synth_pcm (sy_synth (dc_sync d'))) * pcm_length (synth_pcm (sy_synth (dc_sync d')));
  fd_pcm : pcm_of (sy_frame (dc_sync d')) (synth_pcm (sy_synth (dc_sync d')));
  fd_next : 8 <= this_frame (sy_stream (dc_sync d')) /\ sync_word buf (this_frame (sy_stream (dc_sync d'))) = Some true
}.

Definition round_outcome (d : mad_decoder) (out : list Z) (e : round_end) (d' : mad_decoder) (out' : list Z) : Prop :=
  match e with
  | Again => out' = out /\ no_frame d d' /\ pcm_out_data d' = pcm_out_data d /\
      search_start (sy_stream (dc_sync d)) <= zlen buf /\ search_start (sy_stream (dc_sync d)) < search_start (sy_stream (dc_sync d'))
  | Unrecoverable => out' = out /\ no_frame d d'
  | Leave => out' = out /\ no_frame d d' \/ frame_done d d' out out'
  end.

(** A round on a frame that could not be decoded. *)
Lemma failed_round d out : round_ok d -> MAD_RECOVERABLE (error (sy_stream (dc_sync d))) = true ->
  this_frame (sy_stream (dc_sync d)) < next_frame (sy_stream (dc_sync d)) -> skiplen (sy_stream (dc_sync d)) = 0 ->
  exists e d' out', frame_error W char_signed (buf ++ tail) d out = Some (e, d', out') /\ round_ok d' /\ out' = out /\ no_frame d d' /\ pcm_out_data d' = pcm_out_data d /\
    (e = Leave \/ e = Again /\ this_frame (sy_stream (dc_sync d)) < search_start (sy_stream (dc_sync d'))).
Proof.
  intros Hd Hrec Hlt Hskip. unfold frame_error. set (s := sy_stream (dc_sync d)) in *.
  destruct (dk_stream _ _ _ _ _ (ro_decoder d Hd)) as (He&Ht&Hn&Hl). fold s in He, Ht, Hn, Hl.
  assert (max_buffer W <= 2 ^ 20) as HM by (unfold max_buffer; lia).
  destruct (error_callback_some W char_signed (buf ++ tail) HW s) as (flow&s'&->&Hflow&Hs'); [lia|rewrite length_app; lia|lia|]. cbn [mbind option_bind].
  assert (round_ok (set_dsync d (set_stream (dc_sync d) s')) /\ this_frame s' = this_frame s /\ next_frame s' = next_frame s /\
    bufend s' = bufend s /\ freerate s' = freerate s /\ 0 <= skiplen s' < 2 ^ 31 /\ this_frame s < search_start s') as (Hd'&Et&En&Eb&Ef&Hk&Hstart).
  { destruct Hs' as [->|(n&Hn'&->)].
    - split; [apply round_position; auto; lia|]. do 4 (split; [done|]). split; [lia|]. unfold search_start. by rewrite Hskip.
    - split; [apply round_position; auto; cbn; lia|]. do 4 (split; [done|]). split; [cbn; lia|]. unfold search_start. cbn [skiplen set_skiplen sync this_frame next_frame].
      rewrite (proj2 (Z.eqb_neq n 0)) by lia. case_match; lia. }
  destruct Hflow as [-> | ->]; eexists _, _, _; (split; [done|]).
  - case_match; (split; [first [exact Hd'|by destruct Hd' as [? ? ?]; split]|]); do 3 (split; [done|]); right; (split; [done|exact Hstart]).
  - split; [|do 3 (split; [done|]); by left]. destruct (Z.eqb_spec (this_frame s') 0); [|exact Hd'].
    apply (round_position (set_dsync d (set_stream (dc_sync d) s')) _ Hd'); cbn; try done; lia.
Qed.

Lemma frame_round_total k d out : round_ok d -> pcm_out_data d = 0 -> pcm_out_len d = 0 -> 4608 <= zlen out ->
  exists e d' out', frame_round W char_signed (buf ++ tail) stacks k d out = Some (e, d', out') /\ round_ok d' /\ round_outcome d out e d' out'.
Proof.
  intros [Hdec Hu Hy] Hdata Hlen Hroom. unfold frame_round.
  destruct (frame_total W buf tail (stacks k) HW Hmem (proj2 Hbuf) Htail Hmax (Hls k) _ _ _ Hdec) as (r&f&s&m&E&Hdec'&Hu'&Hr&Hloc). rewrite E.
  specialize (Hloc Hu). cbn [mbind option_bind]. set (y := MkSync s m _ _ f _). assert (round_ok (set_dsync d y)) as Hd' by (by split).
  destruct Hr as [->|(->&He&_)]; cbn [Z.eqb Pos.eqb].
  - destruct (located_found _ _ _ _ Hloc (dk_stream _ _ _ _ _ Hdec')) as (Hw&Hnext&Hend&Hsr&Hmode).
    destruct (synth_total W (sy_synth (dc_sync d)) f Hy) as (v&Ev&Hv&Hpcm); [apply Hdec'|]. cbn [sy_synth y]. rewrite Ev. cbn [mbind option_bind].
    match goal with |- context [output_callback ?g] => set (d1 := g) end.
    destruct (output_spec d1 f (synth_pcm v) out Hpcm Hsr Hmode (sr_samples _ Hv) Hdata Hlen Hroom) as (d2&out'&->&Hout&Hl&Hcount&Hs2&Hm2&Hf2&Hv2).
    cbn [mbind option_bind]. exists Leave, d2, out'. split; [done|]. unfold d1 in Hs2, Hm2, Hf2, Hv2. cbn in Hs2, Hm2, Hf2, Hv2.
    destruct (dk_stream _ _ _ _ _ Hdec') as (Hb&Ht&Hn&Hk). split; [split; rewrite ?Hs2, ?Hm2, ?Hf2, ?Hv2; [|done|done]|right; split; rewrite ?Hs2, ?Hf2, ?Hv2; try done].
    + split; [done|apply Hdec'|apply Hdec'|]. intros H. unfold unmarked in Hu'. congruence.
    + by eexists k, _, _, _, s, m.
    + cbn. split; [lia|done].
  - destruct (MAD_RECOVERABLE (error s)) eqn:Hrec; cbn [negb]; [|by exists Unrecoverable, (set_dsync d y), out].
    destruct (located_failed _ _ _ _ Hloc Hrec) as [Hpos Hskip].
    destruct (failed_round (set_dsync d y) out Hd' Hrec (proj2 Hpos) Hskip) as (e&d'&out'&->&Hd2&->&Hno&Hdat&Hcase).
    exists e, d', out. split; [done|]. split; [done|]. destruct Hcase as [->|[-> Hlt]]; [by left|].
    split; [done|]. split; [exact Hno|]. split; [done|]. destruct (dk_stream _ _ _ _ _ Hdec') as (Hb&Ht&_). cbn in Hlt. lia.
Qed.

(** What the loop makes of the decoder. *)
Definition call_outcome (d : mad_decoder) (out : list Z) (d' : mad_decoder) (out' : list Z) : Prop :=
  out' = out /\ no_frame d d' \/ frame_done d d' out out'.

Lemma outcome_after d d1 out d' out' : no_frame d d1 -> call_outcome d1 out d' out' -> call_outcome d out d' out'.
Proof.
  intros (E1&E2&E3&E4&E5) [[-> (F1&F2&F3&F4&F5)]|[G1 Gd G2 G3 G4 G5 G6]]; [left; split; [done|]; unfold no_frame; by rewrite F1, F2, F3, F4, F5|right].
  split; try done; [by rewrite <- E2|by rewrite <- E3|]. unfold frame_output, silence_of in *. by rewrite <- E4, <- E5.
Qed.

Lemma frame_rounds_total (fuel : nat) : forall k d out, round_ok d -> pcm_out_data d = 0 -> pcm_out_len d = 0 -> 4608 <= zlen out ->
  Z.max 0 (zlen buf + 1 - search_start (sy_stream (dc_sync d))) < Z.of_nat fuel ->
  exists left k' d' out', frame_rounds W char_signed (buf ++ tail) stacks fuel k d out = Some (left, k', d', out') /\ round_ok d' /\ call_outcome d out d' out'.
Proof.
  induction fuel as [|fuel IH]; intros k d out Hd Hdata Hlen Hroom Hf; [lia|]. cbn [frame_rounds].
  destruct (frame_round_total k d out Hd Hdata Hlen Hroom) as (e&d1&out1&->&Hd1&He). cbn [mbind option_bind]. destruct e.
  - destruct He as (->&Hno&Hdat&Hle&Hlt). destruct (IH (k + 1) d1 out) as (left&k'&d'&out'&->&Hd'&Hc); [done|congruence|by rewrite (proj1 Hno)|done|lia|].
    exists left, k', d', out'. split; [done|]. split; [done|]. by apply (outcome_after d d1).
  - destruct He as [-> Hno]. eexists _, _, d1, out. split; [done|]. split; [done|]. by left.
  - eexists _, _, d1, out1. by split.
Qed.

Lemma same_sync d : set_dsync d (set_stream (dc_sync d) (sy_stream (dc_sync d))) = d.
Proof. by destruct d as [? ? ? ? ? ? ? ? ? ? ? []]. Qed.

Lemma decode_call d outbuf : dec_ready W d -> 4608 <= zlen outbuf ->
  exists n d' out', audio_dec_decode W char_signed (buf ++ tail) stacks d outbuf (zlen buf) = Some (n, d', out') /\
    n = this_frame (sy_stream (dc_sync d')) /\ round_ok d' /\ call_outcome (set_out d 0 0) outbuf d' out'.
Proof.
  intros [Hl Hm Hf Hu Hy] Hroom. assert (max_buffer W <= 2 ^ 20) as HM by (unfold max_buffer; lia).
  assert (2 ^ 31 < 2 ^ W) as HW2 by (apply Z.pow_lt_mono_r; lia).
  unfold audio_dec_decode, mad_decoder_run, run_sync. rewrite (wrapu_small W) by lia. cbn [Z.eqb MAD_DECODER_MODE_SYNC input_rounds].
  unfold input_callback at 1. rewrite (proj2 (Z.eqb_neq (zlen buf) 0)) by lia. cbv iota.
  set (s := mad_stream_buffer _ (zlen buf)). match goal with |- context [frame_rounds _ _ _ _ _ 0 ?g] => set (d1 := g) end.
  assert (stream_ok W buf s) as Hs by (split; [done|]; split; [cbn; lia|]; split; [cbn; lia|exact Hl]).
  assert (round_ok d1) as Hd1 by (split; [split; [done|done|done|intros H; cbn in H; unfold unmarked in Hu; congruence]|done|done]).
  destruct (frame_rounds_total (S (S (Z.to_nat (bufend s)))) 0 d1 outbuf Hd1) as (left&k&d'&out'&->&Hd'&Hc); [done|done|done| |].
  { destruct Hl as [_ Hl]. unfold search_start. cbn [bufend s mad_stream_buffer next_frame sync skiplen this_frame sy_stream dc_sync d1 set_dsync set_stream]. case_match; cbn; lia. }
  cbn [mbind option_bind]. assert (call_outcome (set_out d 0 0) outbuf d' out') as Hc' by (by apply (outcome_after (set_out d 0 0) d1); [by repeat split|]).
  destruct (dk_stream _ _ _ _ _ (ro_decoder _ Hd')) as (_&Ht&_).
  destruct (left && _); cbn [input_rounds input_callback Z.eqb mbind option_bind andb].
  - rewrite same_sync. exists (this_frame (sy_stream (dc_sync d'))), d', out'. rewrite (proj2 (Z.eqb_neq _ NULL)) by (unfold NULL; lia). by split.
  - exists (this_frame (sy_stream (dc_sync d'))), d', out'. rewrite (proj2 (Z.eqb_neq _ NULL)) by (unfold NULL; lia). by split.
Qed.
End Rounds.

(** ** Setting up *)

Lemma frame_mute_ready f : frame_ready f -> exists f', mad_frame_mute f = Some f' /\ frame_ready f' /\ header f' = header f.
Proof.
  intros [Hs Ho]. unfold mad_frame_mute.
  destruct (nested_inv (fun _ rows => cube 2 36 32 rows) 36 32 (fun sb s rows => rows ← set3 rows 1 s sb 0; set3 rows 0 s sb 0) (sbsample f))
    as (rows&->&Hrows); [lia|lia|done| |].
  { intros s sb cells Hsr Hsb Hr. destruct (cube_set 2 36 32 cells 1 s sb 0 Hr) as (r1&->&H1&_); [lia..|]. cbn [mbind option_bind].
    destruct (cube_set 2 36 32 r1 0 s sb 0 H1) as (r2&->&H2&_); [lia..|]. by exists r2. }
  cbn [mbind option_bind]. destruct (overlap f) as [o|] eqn:E; [|eexists; split; [done|]; split; [by split|done]].
  destruct (nested_inv (fun _ rows => cube 2 32 18 rows) 18 32 (fun sb s o => o ← set3 o 1 sb s 0; set3 o 0 sb s 0) o)
    as (o'&->&Ho'); [lia|lia|by apply Ho| |].
  { intros s sb cells Hsr Hsb Hr. destruct (cube_set 2 32 18 cells 1 sb s 0 Hr) as (r1&->&H1&_); [lia..|]. cbn [mbind option_bind].
    destruct (cube_set 2 32 18 r1 0 sb s 0 H1) as (r2&->&H2&_); [lia..|]. by exists r2. }
  cbn [mbind option_bind]. eexists. split; [done|]. split; [|done]. split; [done|]. by intros o2 [= <-].
Qed.

Lemma init_total W rows y0 : 0 <= W -> cube 2 36 32 rows -> filter_shape (synth_filter y0) -> grid 2 1152 (pcm_samples (synth_pcm y0)) ->
  exists d, audio_dec_init rows y0 = Some (0, d) /\ dec_ready W d.
Proof.
  intros HW Hr Hy Hs. unfold audio_dec_init, mad_frame_init.
  destruct (frame_mute_ready (MkFrame mad_header_init 0 rows None)) as (f&->&Hf&Hh); [by split|]. cbn [mbind option_bind].
  destruct (init_ready y0 Hy) as (y&->&Hp&Hpcm&Hch). cbn [mbind option_bind]. eexists. split; [done|]. split; cbn.
  - split; [by left|done].
  - by split.
  - done.
  - by rewrite Hh.
  - split; [by rewrite Hp|by rewrite Hpcm|]. intros ch Hc. exists silence. by apply Hch.
Qed.

(** ** ID3 tags that are longer than the buffer *)

(** A tag starts at [data]. *)
Definition tag_at (mem : list Z) (data flags size : Z) : Prop :=
  exists v1 v2 b0 b1 b2 b3, asub mem data 10 = Some [0x49; 0x44; 0x33; v1; v2; flags; b0; b1; b2; b3] /\
    0 <= v1 < 0xff /\ 0 <= v2 < 0xff /\ 0 <= flags < 256 /\ 0 <= b0 < 128 /\ 0 <= b1 < 128 /\ 0 <= b2 < 128 /\ 0 <= b3 < 128 /\
    size = b0 * 2 ^ 21 + b1 * 2 ^ 14 + b2 * 2 ^ 7 + b3.

(** The length the code gives it: ten more bytes for any flag, though only one of them
    announces a footer. *)
Definition tag_length (flags size : Z) : Z := 10 + size + (if flags =? 0 then 0 else 10).

Section Query.
Variables (W : Z) (char_signed : bool) (mem : list Z).
Hypothesis HW : 32 <= W.

Definition char_of (b : Z) : Z := if char_signed then s8 b else b.

Lemma char_of_small b : 0 <= b < 128 -> char_of b = b.
Proof. intros H. unfold char_of. case_match; [|done]. apply wraps_small; [done|]. change (2 ^ (8 - 1)) with 128. lia. Qed.

Lemma char_of_below b c : 0 <= b < c -> 128 <= c -> (char_of b <? c) = true.
Proof. intros H Hc. apply Z.ltb_lt. unfold char_of. case_match; [|lia]. pose proof (wraps_range 8 b ltac:(lia)) as Hr. change (2 ^ (8 - 1)) with 128 in Hr. lia. Qed.

Lemma char_at_of data i b : aget mem (data + i) = Some b -> char_at char_signed mem data i = Some (char_of b).
Proof. intros E. unfold char_at. by rewrite E. Qed.

(** Seven bits of a size. *)
Lemma syncsafe_step v c : 0 <= v < 2 ^ 24 -> 0 <= c < 128 -> wrapu W (v .<< 7) .| (c .& 0x7f) = v * 128 + c.
Proof using HW.
  intros Hv Hc. assert (2 ^ 32 <= 2 ^ W) by (apply Z.pow_le_mono_r; lia). change (2 ^ 24) with 16777216 in Hv. change (2 ^ 32) with 4294967296 in *.
  rewrite wrapu_small by (rewrite Z.shiftl_mul_pow2 by lia; change (2 ^ 7) with 128; lia).
  change 0x7f with (Z.ones 7). rewrite Z.land_ones, Z.mod_small by (done || lia). rewrite Z.lor_comm, lor_shiftl_add by (done || lia). lia.
Qed.

Lemma tag_flag_kept flags : 0 <= flags < 256 -> (s32 (wrapu W (0 .<< 8) .| wrapu W (char_of flags)) =? 0) = (flags =? 0).
Proof using HW.
  intros H. change (0 .<< 8) with 0. rewrite (wrapu_small W 0) by (split; [lia|apply pow2_pos; lia]). rewrite Z.lor_0_l.
  assert (- 128 <= char_of flags < 256 /\ (char_of flags = 0 <-> flags = 0)) as [Hr Hz].
  { unfold char_of. case_match; [|lia]. unfold wraps. change (2 ^ 8) with 256. change (2 ^ (8 - 1)) with 128. zdiv. }
  assert (s32 (wrapu W (char_of flags)) = char_of flags) as ->.
  { rewrite <- (s32_small (char_of flags)) at 2 by lia. apply wraps_eq_mod. unfold wrapu. apply Z.mod_mod_divide.
    exists (2 ^ (W - 32)). rewrite <- Z.pow_add_r by lia. f_equal. lia. }
  destruct (Z.eqb_spec (char_of flags) 0), (Z.eqb_spec flags 0); tauto.
Qed.

Lemma tag_query_length data length flags size : tag_at mem data flags size -> 10 <= length ->
  id3_tag_query W char_signed mem data length = Some (tag_length flags size) /\ 10 <= tag_length flags size < 2 ^ 31.
Proof using HW.
  intros (v1&v2&b0&b1&b2&b3&E&H1&H2&Hf&B0&B1&B2&B3&->) Hlen.
  assert (forall i x, 0 <= i -> [0x49; 0x44; 0x33; v1; v2; flags; b0; b1; b2; b3] !! Z.to_nat i = Some x -> aget mem (data + i) = Some x) as Hget.
  { intros i x Hi Ex. apply asub_inv in E as (H0&_&Hl&E). rewrite aget_lookup by lia. rewrite E, lookup_take_Some, lookup_drop in Ex.
    destruct Ex as [Ex _]. rewrite <- Ex. f_equal. lia. }
  pose proof (Hget 0 _ ltac:(done) eq_refl) as G0. pose proof (Hget 1 _ ltac:(done) eq_refl) as G1. pose proof (Hget 2 _ ltac:(done) eq_refl) as G2.
  pose proof (Hget 3 _ ltac:(done) eq_refl) as G3. pose proof (Hget 4 _ ltac:(done) eq_refl) as G4. pose proof (Hget 5 _ ltac:(done) eq_refl) as G5.
  pose proof (Hget 6 _ ltac:(done) eq_refl) as G6. pose proof (Hget 7 _ ltac:(done) eq_refl) as G7. pose proof (Hget 8 _ ltac:(done) eq_refl) as G8.
  pose proof (Hget 9 _ ltac:(done) eq_refl) as G9. clear Hget.
  apply char_at_of in G0, G1, G2, G3, G4, G5, G6, G7, G8, G9. rewrite char_of_small in G0, G1, G2, G6, G7, G8, G9 by lia.
  unfold id3_tag_query, tagtype, chars_are, char_is, char_below, and_then, or_else.
  rewrite (proj2 (Z.leb_le 3 length)), (proj2 (Z.leb_le 10 length)) by lia. rewrite G0, G1, G2, G3, G4, G6, G7, G8, G9. cbn [mbind option_bind Z.eqb Pos.eqb].
  rewrite !char_of_below by lia. rewrite !(proj2 (Z.ltb_lt _ 128)) by lia. cbn [mbind option_bind].
  assert (forall i b, char_at char_signed mem data i = Some b -> char_at char_signed mem (data + i) 0 = Some b) as Hptr.
  { intros i b. unfold char_at. by rewrite Z.add_0_r. }
  apply Hptr in G3, G4, G5, G6, G7, G8, G9. unfold parse_header, id3_parse_uint, id3_parse_syncsafe. cbn [Z.leb Z.compare Pos.compare Pos.compare_cont andb orb Z.eqb Pos.eqb].
  unfold for_range. change (Z.to_nat (2 - 0)) with 2%nat. change (Z.to_nat (1 - 0)) with 1%nat. change (Z.to_nat (4 - 0)) with 4%nat.
  cbv beta iota delta [for_loop mbind option_bind]. rewrite G3. cbv beta iota. replace (data + 3 + 1) with (data + 4) by lia. rewrite G4. cbn [mbind option_bind].
  replace (data + 4 + 1) with (data + 5) by lia. rewrite G5. cbv beta iota.
  replace (data + 5 + 1) with (data + 6) by lia. rewrite G6. cbv beta iota.
  replace (data + 6 + 1) with (data + 7) by lia. rewrite G7. cbv beta iota.
  replace (data + 7 + 1) with (data + 8) by lia. rewrite G8. cbv beta iota.
  replace (data + 8 + 1) with (data + 9) by lia. rewrite G9. cbv beta iota.
  rewrite (syncsafe_step 0 b0), (syncsafe_step (0 * 128 + b0) b1), (syncsafe_step ((0 * 128 + b0) * 128 + b1) b2),
    (syncsafe_step (((0 * 128 + b0) * 128 + b1) * 128 + b2) b3), tag_flag_kept by lia.
  set (size := b0 * 2 ^ 21 + b1 * 2 ^ 14 + b2 * 2 ^ 7 + b3).
  assert ((((0 * 128 + b0) * 128 + b1) * 128 + b2) * 128 + b3 = size) as -> by (unfold size; lia).
  assert (0 <= size < 2 ^ 28) as Hsize by (unfold size; lia). unfold tag_length. rewrite (s32_small size) by lia.
  destruct (flags =? 0); cbn [negb]; rewrite ?(s32_small (size + 10)), s32_small by lia; (split; [f_equal; lia|lia]).
Qed.
End Query.

Section Stall.
Variables (W : Z) (char_signed : bool) (mem : list Z) (stacks : Z -> layer_stack).
Hypothesis HW : 32 <= W.

(** [sync] of the decoder when its search for a header has failed. *)
Definition searched (y : decoder_sync) (h : mad_header) (s : mad_stream) : decoder_sync :=
  MkSync s (set_anc_bitlen (sy_main y) 0) (muted_samples y) (muted_count y)
    (MkFrame h (options (sy_stream y)) (sbsample (sy_frame y)) (overlap (sy_frame y))) (sy_synth y).

Lemma searched_round k d out h s : unmarked (header (sy_frame (dc_sync d))) ->
  mad_header_decode W mem (header (sy_frame (dc_sync d))) (sy_stream (dc_sync d)) = Some (-1, h, s) ->
  frame_round W char_signed mem stacks k d out =
    let d := set_dsync d (searched (dc_sync d) h s) in
    if negb (MAD_RECOVERABLE (error s)) then Some (Unrecoverable, d, out) else frame_error W char_signed mem d out.
Proof.
  intros Hu E. unfold frame_round, mad_frame_decode. cbn [header options]. unfold unmarked in Hu. rewrite Hu. cbn [negb]. rewrite E. reflexivity.
Qed.

(** A tag that still has [skiplen] bytes, more than the buffer holds. *)
Lemma short_header h s : next_frame s <> NULL -> 0 < skiplen s < 2 ^ 31 -> let p := if sync s =? 0 then this_frame s else next_frame s in
  bufend s - p < skiplen s -> 0 <= bufend s - p ->
  mad_header_decode W mem h s =
    Some (-1, h, set_sync (set_error (set_frames (set_skiplen s (skiplen s - (bufend s - p))) (this_frame s) (bufend s)) MAD_ERROR_BUFLEN) 0).
Proof.
  intros Hn Hk p Hlt Hp. unfold mad_header_decode. rewrite (proj2 (Z.eqb_neq _ _) Hn), (proj2 (Z.eqb_neq (skiplen s) 0)) by lia. cbn [negb]. fold p.
  rewrite s32_small by lia. rewrite (proj2 (Z.ltb_lt _ _) Hlt). unfold fail. rewrite wrapu_small; [done|].
  assert (2 ^ 31 <= 2 ^ W) by (apply Z.pow_le_mono_r; lia). lia.
Qed.

(** A buffer that starts with a tag. *)
Lemma tag_header h s : next_frame s = 0 -> skiplen s = 0 -> sync s = 1 -> 8 <= bufend s -> aget mem 0 = Some 0x49 ->
  mad_header_decode W mem h s = Some (-1, h, set_sync (set_error (set_frames s 0 1) MAD_ERROR_LOSTSYNC) 0).
Proof.
  intros Hn Hk Hs Hb E. unfold mad_header_decode. rewrite Hn, Hk. cbn [Z.eqb NULL negb header_from]. unfold synchronize. rewrite Hs. cbn [Z.eqb negb].
  unfold MAD_BUFFER_GUARD. rewrite (proj2 (Z.ltb_ge _ _)) by lia. unfold sync_word. rewrite E. reflexivity.
Qed.

(** A call whose loop ends for lack of input, at the start of the buffer. *)
Lemma starved_call (length : Z) k d d' outbuf : 0 < length < 2 ^ 31 ->
  frame_rounds W char_signed mem stacks (S (S (Z.to_nat length))) 0
    (set_dsync (set_mode (set_out d 0 0) 0) (set_stream (dc_sync d) (mad_stream_buffer (sy_stream (dc_sync d)) length))) outbuf = Some (true, k, d', outbuf) ->
  error (sy_stream (dc_sync d')) = MAD_ERROR_BUFLEN -> this_frame (sy_stream (dc_sync d')) = 0 ->
  audio_dec_decode W char_signed mem stacks d outbuf length = Some (0, d', outbuf).
Proof.
  intros Hl E He Ht. assert (2 ^ 31 <= 2 ^ W) by (apply Z.pow_le_mono_r; lia).
  unfold audio_dec_decode, mad_decoder_run, run_sync. rewrite wrapu_small by lia. cbn [Z.eqb MAD_DECODER_MODE_SYNC input_rounds].
  unfold input_callback at 1. rewrite (proj2 (Z.eqb_neq length 0)) by lia. cbv iota.
  match type of E with ?x = _ => match goal with |- context [frame_rounds ?a ?b ?c ?e ?f 0 ?g outbuf] => change (frame_rounds a b c e f 0 g outbuf) with x end end.
  rewrite E. cbn [mbind option_bind andb]. rewrite He. cbn [Z.eqb MAD_ERROR_BUFLEN Pos.eqb input_rounds input_callback mbind option_bind andb].
  rewrite same_sync, Ht. reflexivity.
Qed.

(** The rest of a tag. *)
Lemma rest_call length d outbuf : 0 < length < 2 ^ 31 -> unmarked (header (sy_frame (dc_sync d))) -> length < skiplen (sy_stream (dc_sync d)) < 2 ^ 31 ->
  exists d', audio_dec_decode W char_signed mem stacks d outbuf length = Some (0, d', outbuf) /\ pcm_out_len d' = 0 /\ header (sy_frame (dc_sync d')) = header (sy_frame (dc_sync d)) /\
    skiplen (sy_stream (dc_sync d')) = skiplen (sy_stream (dc_sync d)) - length.
Proof.
  intros Hl Hu Hk. set (s := mad_stream_buffer (sy_stream (dc_sync d)) length).
  set (d1 := set_dsync (set_mode (set_out d 0 0) 0) (set_stream (dc_sync d) s)).
  pose proof (short_header (header (sy_frame (dc_sync d))) s ltac:(done) ltac:(cbn; lia) ltac:(cbn; lia) ltac:(cbn; lia)) as E.
  pose proof (searched_round 0 d1 outbuf _ _ Hu E) as E1. cbv zeta in E1. cbn [MAD_RECOVERABLE error set_sync set_error negb bitset] in E1.
  match type of E1 with _ = (if _ then Some (_, ?d2, _) else _) => exists d2 end.
  split; [|split; [done|split; [done|cbn; lia]]]. apply (starved_call _ 1); [done| |done|done]. fold s d1. cbn [frame_rounds]. rewrite E1. reflexivity.
Qed.

(** The start of a tag. *)
Lemma tag_call length flags size d outbuf : 10 <= length <= zlen mem -> length < 2 ^ 31 -> unmarked (header (sy_frame (dc_sync d))) ->
  tag_at mem 0 flags size -> length < tag_length flags size -> skiplen (sy_stream (dc_sync d)) = 0 ->
  exists d', audio_dec_decode W char_signed mem stacks d outbuf length = Some (0, d', outbuf) /\ pcm_out_len d' = 0 /\ header (sy_frame (dc_sync d')) = header (sy_frame (dc_sync d)) /\
    skiplen (sy_stream (dc_sync d')) = tag_length flags size - length.
Proof.
  intros Hl Hl2 Hu Htag Hlt Hk. set (s := mad_stream_buffer (sy_stream (dc_sync d)) length).
  assert (aget mem 0 = Some 0x49) as E0.
  { destruct Htag as (v1&v2&b0&b1&b2&b3&E&_). apply asub_inv in E as (_&_&_&E). change (Z.to_nat 0) with 0%nat in E. rewrite drop_0 in E.
    assert (take (Z.to_nat 10) mem !! 0%nat = Some 0x49) as H0 by (by rewrite <- E). apply lookup_take_Some in H0 as [H0 _]. exact H0. }
  destruct (tag_query_length W char_signed mem HW 0 length flags size Htag) as [Hq Hr]; [lia|]. set (T := tag_length flags size) in *.
  assert (2 ^ 31 <= 2 ^ W) by (apply Z.pow_le_mono_r; lia).
  set (d1 := set_dsync (set_mode (set_out d 0 0) 0) (set_stream (dc_sync d) s)).
  pose proof (tag_header (header (sy_frame (dc_sync d))) s eq_refl Hk eq_refl ltac:(cbn; lia) E0) as E.
  pose proof (searched_round 0 d1 outbuf _ _ Hu E) as E1. cbv zeta in E1. cbn [MAD_RECOVERABLE error set_sync set_error negb bitset] in E1.
  set (s1 := set_sync _ _) in E1. set (d2 := set_dsync d1 _) in E1.
  assert (frame_error W char_signed mem d2 outbuf = Some (Again, set_dropped (set_dsync d2 (set_stream (dc_sync d2) (set_skiplen s1 T)))
    (u32 (droppped_nb_frames d2 + 1)) (u32 (error_nb_frames d2 + 1)), outbuf)) as E2.
  { unfold frame_error, error_callback. cbn [sy_stream dc_sync d2 set_dsync searched]. cbn [error set_sync set_error s1 Z.eqb MAD_ERROR_LOSTSYNC Pos.eqb this_frame set_frames bufend s mad_stream_buffer].
    rewrite s32_small, Z.sub_0_r, Hq by lia. cbn [mbind option_bind]. rewrite (proj2 (Z.ltb_lt 0 T)) by lia. cbn [mbind option_bind]. rewrite wrapu_small by lia. reflexivity. }
  cbn [MAD_RECOVERABLE MAD_ERROR_LOSTSYNC] in E1. change (negb (MAD_RECOVERABLE MAD_ERROR_LOSTSYNC)) with false in E1. rewrite E2 in E1. set (d3 := set_dropped _ _ _) in E1.
  pose proof (short_header (header (sy_frame (dc_sync d3))) (set_skiplen s1 T) ltac:(done) ltac:(cbn; lia) ltac:(cbn; lia) ltac:(cbn; lia)) as E3.
  pose proof (searched_round 1 d3 outbuf _ _ Hu E3) as E4. cbv zeta in E4. cbn [error set_sync set_error] in E4.
  change (negb (MAD_RECOVERABLE MAD_ERROR_BUFLEN)) with true in E4. cbv iota in E4.
  match type of E4 with _ = Some (_, ?d4, _) => exists d4 end.
  split; [|split; [done|split; [done|cbn; lia]]]. apply (starved_call _ 2); [lia| |done|done]. fold s d1. cbn [frame_rounds]. rewrite E1. cbn [mbind option_bind].
  change (0 + 1) with 1. cbn [frame_rounds]. rewrite E4. reflexivity.
Qed.

(** [n] calls with the same input, each of which uses nothing and writes nothing. *)
Fixpoint resubmit (n : nat) (length : Z) (outbuf : list Z) (d : mad_decoder) : option mad_decoder :=
  match n with
  | O => Some d
  | S n => '(used, d, _) ← audio_dec_decode W char_signed mem stacks d outbuf length;
           if (used =? 0) && (pcm_out_len d =? 0) then resubmit n length outbuf d else None
  end.

Lemma rest_calls length outbuf : 0 < length < 2 ^ 31 -> forall (n : nat) d, unmarked (header (sy_frame (dc_sync d))) ->
  Z.of_nat n * length < skiplen (sy_stream (dc_sync d)) < 2 ^ 31 ->
  exists d', resubmit n length outbuf d = Some d' /\ skiplen (sy_stream (dc_sync d')) = skiplen (sy_stream (dc_sync d)) - Z.of_nat n * length.
Proof.
  intros Hl. induction n as [|n IH]; intros d Hu Hk; [exists d; split; [done|lia]|].
  destruct (rest_call length d outbuf Hl Hu) as (d1&E&El&Eh&Es); [nia|]. cbn [resubmit]. rewrite E. cbn [mbind option_bind]. rewrite El. cbn [Z.eqb andb].
  destruct (IH d1) as (d'&E'&Es'); [by rewrite Eh|nia|]. exists d'. split; [done|lia].
Qed.

Lemma tag_calls length outbuf flags size n d : 10 <= length <= zlen mem -> length < 2 ^ 31 -> unmarked (header (sy_frame (dc_sync d))) ->
  tag_at mem 0 flags size -> skiplen (sy_stream (dc_sync d)) = 0 -> Z.of_nat (S n) * length < tag_length flags size ->
  exists d', resubmit (S n) length outbuf d = Some d' /\ skiplen (sy_stream (dc_sync d')) = tag_length flags size - Z.of_nat (S n) * length.
Proof.
  intros Hl Hl2 Hu Htag Hk Hn. destruct (tag_query_length W char_signed mem HW 0 length flags size Htag) as [_ Hr]; [lia|].
  destruct (tag_call length flags size d outbuf Hl Hl2 Hu Htag) as (d1&E&El&Eh&Es); [nia|done|]. cbn [resubmit]. rewrite E. cbn [mbind option_bind]. rewrite El. cbn [Z.eqb andb].
  destruct (rest_calls length outbuf ltac:(lia) n d1) as (d'&E'&Es'); [by rewrite Eh|nia|]. exists d'. split; [done|lia].
Qed.
End Stall.

(** ** Claims *)

(** C6: the MP3 decoder is total and safe.  [audio_dec_init] makes a decoder that is ready.  Let
    a decoder be ready, and give [audio_dec_decode] any bytes, at most a megabyte, with 4608
    readable bytes behind them and room for 4608 bytes of output.  Then the call ends, accesses no
    array out of its bounds, says that it used between none and all of the input, and leaves the decoder ready for the next
    call.  Either it wrote nothing, reports a length of 0 and left the filters alone, or it decoded one frame:
    it used at least 8 bytes and stopped at the next sync word, counted the frame, and wrote what the synthesis filter made of
    the frame, rounded, clipped and as 16-bit little-endian samples, the channels interleaved, and nothing else.  In the first 0.08 seconds it writes
    zeros instead, of which there are two bytes for each sample, though it reports four when there are two channels. *)
Theorem mp3_decode_safe W char_signed buf tail stacks d outbuf :
  32 <= W -> bytes_ok (buf ++ tail) -> 0 < zlen buf <= max_buffer W -> 4608 <= zlen tail -> 8 * zlen (buf ++ tail) < 2 ^ 32 ->
  (forall k, stack_ready (stacks k)) -> dec_ready W d -> 4608 <= zlen outbuf ->
  (forall rows y0, cube 2 36 32 rows -> filter_shape (synth_filter y0) -> grid 2 1152 (pcm_samples (synth_pcm y0)) ->
     exists d0, audio_dec_init rows y0 = Some (0, d0) /\ dec_ready W d0) /\
  exists used d' out, audio_dec_decode W char_signed (buf ++ tail) stacks d outbuf (zlen buf) = Some (used, d', out) /\
    0 <= used <= zlen buf /\ dec_ready W d' /\
    (out = outbuf /\ pcm_out_len d' = 0 /\ sy_synth (dc_sync d') = sy_synth (dc_sync d) \/
     8 <= used /\ sync_word buf used = Some true /\ decoded_nb_frames d' = u32 (decoded_nb_frames d + 1) /\
     (exists k f s m s' m', mad_frame_decode W (buf ++ tail) (stacks k) f s m = Some (0, sy_frame (dc_sync d'), s', m') /\ next_frame s' = used) /\
     let pcm := synth_pcm (sy_synth (dc_sync d')) in
     mad_synth_frame W (sy_synth (dc_sync d)) (sy_frame (dc_sync d')) = Some (sy_synth (dc_sync d')) /\
     pcm_of (sy_frame (dc_sync d')) pcm /\ pcm_out_len d' = 2 * pcm_channels pcm * pcm_length pcm /\ frame_output (dc_sync d) pcm outbuf out).
Proof.
  intros HW Hmem Hbuf Htail Hmax Hls Hd Hroom. split; [intros; by apply init_total; [lia|..]|].
  destruct (decode_call W char_signed buf tail stacks HW Hmem Hbuf Htail Hmax Hls d outbuf Hd Hroom) as (used&d'&out&E&Hu&Hd'&Hc).
  exists used, d', out. split; [done|]. destruct (dk_stream _ _ _ _ _ (ro_decoder _ _ _ Hd')) as (_&Ht&_). split; [by rewrite Hu|].
  split; [by eapply round_ready|]. destruct Hc as [[-> (H1&_&H3&_)]|[H1 Hd2 H2 H3 H4 H5 [H6 H7]]]; [by left|right]. rewrite Hu. by repeat (split; [done|]).
Qed.

(** A decoder that [audio_dec_init] made, and a buffer with a frame of silence. *)
Definition fresh_decoder : mad_decoder :=
  mad_decoder_init (MkSync mad_stream_init (MkMain None 0 (false, mad_bit_init NULL) 0) 0 0 fresh_frame blank_synth).

Lemma mp3_decode_safe_witness :
  exists used d' out, audio_dec_decode 64 false (silent_input ++ repeat 0xff 4608) (fun _ => fresh_stack) fresh_decoder (repeat 9 4608) 116 = Some (used, d', out) /\
    0 <= used <= 116 /\ dec_ready 64 d' /\
    (out = repeat 9 4608 /\ pcm_out_len d' = 0 /\ sy_synth (dc_sync d') = blank_synth \/
     8 <= used /\ sync_word silent_input used = Some true /\ decoded_nb_frames d' = u32 1 /\
     (exists k f s m s' m', mad_frame_decode 64 (silent_input ++ repeat 0xff 4608) ((fun _ : Z => fresh_stack) k) f s m = Some (0, sy_frame (dc_sync d'), s', m') /\ next_frame s' = used) /\
     let pcm := synth_pcm (sy_synth (dc_sync d')) in
     mad_synth_frame 64 blank_synth (sy_frame (dc_sync d')) = Some (sy_synth (dc_sync d')) /\
     pcm_of (sy_frame (dc_sync d')) pcm /\ pcm_out_len d' = 2 * pcm_channels pcm * pcm_length pcm /\ frame_output (dc_sync fresh_decoder) pcm (repeat 9 4608) out).
Proof.
  refine (proj2 (mp3_decode_safe 64 false silent_input (repeat 0xff 4608) (fun _ => fresh_stack) fresh_decoder (repeat 9 4608) _ _ _ _ _ _ _ _)).
  - apply Z.leb_le. reflexivity.
  - apply (bool_decide_unpack _). vm_compute. exact I.
  - split; [apply Z.ltb_lt|apply Z.leb_le]; reflexivity.
  - apply Z.leb_le. reflexivity.
  - apply Z.ltb_lt. reflexivity.
  - intros k. apply fresh_stack_ready.
  - split.
    + split; [left; reflexivity|split; [apply Z.leb_le|apply Z.ltb_lt]; reflexivity].
    + split; [split; apply Z.leb_le; reflexivity|]. intros d H. discriminate H.
    + split; [split; [reflexivity|]|intros o H; discriminate H]. repeat constructor.
    + reflexivity.
    + split; [split; [apply Z.leb_le|apply Z.ltb_lt]; reflexivity|split; [reflexivity|repeat constructor]|].
      intros ch Hch. exists silence. by apply blank_ready.
  - apply Z.leb_le. reflexivity.
Defined.

(** C38: a tag that is longer than the input.  [audio_dec_decode] skips an ID3 tag in front of the audio.  When the
    buffer ends inside of the tag the call says that it used none of the input, but it has already
    taken the bytes of the buffer off the length it has to skip.  A caller that submits the bytes it was told were not
    used is answered the same again, and after [n] calls the bytes of the buffer count [n] times: the
    search for a frame will start inside of the tag. *)
Theorem id3_tag_recounted W char_signed mem stacks length outbuf tflags size n d :
  32 <= W -> 10 <= length <= zlen mem -> length < 2 ^ 31 -> bitset (flags (header (sy_frame (dc_sync d)))) MAD_FLAG_INCOMPLETE = false ->
  skiplen (sy_stream (dc_sync d)) = 0 -> tag_at mem 0 tflags size -> Z.of_nat (S n) * length < tag_length tflags size ->
  exists d', resubmit W char_signed mem stacks (S n) length outbuf d = Some d' /\
    skiplen (sy_stream (dc_sync d')) = tag_length tflags size - Z.of_nat (S n) * length.
Proof. intros. by apply tag_calls. Qed.

(** A tag of 1034 bytes with a flag, 300 of which are in the buffer. *)
Lemma id3_tag_recounted_witness :
  exists d', resubmit 64 false ([0x49; 0x44; 0x33; 3; 0; 0x80; 0; 0; 8; 0] ++ repeat 1 290) (fun _ => fresh_stack) 3 300 (repeat 9 4608) fresh_decoder = Some d' /\
    skiplen (sy_stream (dc_sync d')) = 1044 - 900.
Proof.
  apply (id3_tag_recounted 64 false ([0x49; 0x44; 0x33; 3; 0; 0x80; 0; 0; 8; 0] ++ repeat 1 290) (fun _ => fresh_stack) 300 (repeat 9 4608) 0x80 1024 2 fresh_decoder).
  - apply Z.leb_le. reflexivity.
  - split; apply Z.leb_le; reflexivity.
  - apply Z.ltb_lt. reflexivity.
  - reflexivity.
  - reflexivity.
  - exists 3, 0, 0, 0, 8, 0. split; [reflexivity|]. by repeat (split; [split; [apply Z.leb_le|apply Z.ltb_lt]; reflexivity|]).
  - apply Z.ltb_lt. reflexivity.
Defined.
